(* ===== verification/_CoqProject ===== *)
-Q . S2P
Prelude.v
FixedDecimal.v
FixedDecimalCmp.v
FixedDecimalText.v
FixedDecimalNumeric.v
FixedDecimalAgg.v
SmallMoney.v
DynaVec.v
PltsqlAst.v
Analyzer.v
Codegen.v
CodegenProofs.v
ErrHandler.v
Dispatch.v
DispatchTheorems.v
ErrorTable.v
ErrorMapping.v
IterExec.v
TsqlSemantics.v
ExecCorrect.v
ExecMatch.v
ExecTheorems.v
TdsComm.v
TdsRecv.v
TdsSend.v
TdsTheorems.v
Applock.v
ApplockProofs.v
ApplockKeys.v
ApplockLocks.v
ApplockTheorems.v
ParseCache.v
ParseCacheProofs.v
ParseCacheParse.v
ParseCacheTheorems.v
NodeIO.v
NodeIOProofs.v
NodeIONodes.v
NodeIOShape.v
NodeIOTheorems.v
NodeEqual.v
RoutineCache.v
RoutineCacheProofs.v
RoutineCacheTheorems.v
BatchText.v
BitFacts.v
Utf.v
UtfTheorems.v
SoftFloat.v
Calendar.v
Datetime.v
DatetimeTheorems.v
Datetime2.v
Datediff.v
DatetimeOffset.v
DatediffTheorems.v
Datetime2Theorems.v
DatetimeOffsetTheorems.v
TdsTimestamp.v
TdsTimestampTheorems.v
TdsColMeta.v
TdsTypeRecv.v
TdsTypeSend.v
TdsSenders.v
TdsTypeTheorems.v
TdsPlpTheorems.v
TdsNumericTheorems.v
TdsRequest.v
TdsTvp.v
TdsRpc.v
TdsRpcRequest.v
TdsRequestSafety.v
TdsRpcSafety.v
TdsRpcTheorems.v
TdsRpcRoundtrip.v
TdsLogin.v
TdsLoginTheorems.v
TdsVariant.v
TdsBulk.v
TdsBulkTheorems.v
