(* ===== verification/Prelude.v ===== *)
(** * Babelfish extensions for PostgreSQL: a verification development

    The repository adds Microsoft SQL Server compatibility to PostgreSQL with four
    extensions under [src/contrib/]: [babelfishpg_money] (MONEY and SMALLMONEY),
    [babelfishpg_common] (the other T-SQL data types), [babelfishpg_tds] (the TDS
    wire protocol) and [babelfishpg_tsql] (the T-SQL language: parser, compiler,
    executor, catalogue).  A client's bytes arrive through the TDS packet layer, a
    request is parsed to a statement tree, the tree is analysed and translated to
    execution codes, the executor runs the codes, and values such as MONEY are
    computed and sent back through the packet layer.

    This library translates parts of that path to Rocq definitions, names and
    branches as in the C code, and proves what makes them correct.

    ** Files and the code they model

    - [Prelude]: results of fallible code, machine integers with their
      wrap-around, the server's overflow-checked integer functions and message
      format as interfaces ([PgInt], [PgFormat]) with their documented laws,
      little-endian bytes, tactics and hints.
    - [FixedDecimal], [FixedDecimalCmp], [FixedDecimalText],
      [FixedDecimalNumeric], [FixedDecimalAgg]
      ([babelfishpg_money/fixeddecimal.c]): arithmetic and casts, the comparison
      operators, text input and output with type modifiers, comparisons with
      numeric, and the aggregates.  A MONEY value is its int64.
    - [SmallMoney] ([babelfishpg_money/smallmoney.c]).
    - [DynaVec] ([babelfishpg_tsql/src/dynavec.c], [dynastack.c]): the growing
      byte buffers the compiler and executor keep their stacks in.
    - [PltsqlAst] ([pltsql.h], [pltsql-2.h], [stmt_walker.c]): statement nodes
      and their traversal.
    - [Analyzer] ([analyzer.c], [compile_context.c]): scopes of statements, the
      label table, the checks of GOTO.
    - [Codegen] ([codegen.c]): generation and label resolution of the execution
      codes; [CodegenProofs] describes the generated layout.
    - [ErrHandler] ([babelfishpg_tsql/src/err_handler.c]): which errors terminate a
      statement, a batch or the transaction.
    - [Dispatch] ([iterative_exec.c], [dispatch_stmt_handle_error] and what it calls):
      one statement with its implicit transaction and internal savepoint, recovery
      and the decisions after an error; [DispatchTheorems] has the invariant the
      executor relies on and the properties of failed statements.
    - [ErrorTable] ([babelfishpg_tds/error_mapping.txt]) and [ErrorMapping]
      ([babelfishpg_tds/src/backend/tds/err_handler.c]): from server errors to T-SQL
      error codes.
    - [IterExec] ([iterative_exec.c]): the loop of [exec_stmt_iterative] with the
      error context stack that implements TRY/CATCH by [sigsetjmp].
    - [TsqlSemantics]: the specification of the executor, a structured semantics
      of the statement tree with continuations; [ExecCorrect] and [ExecMatch]
      relate its states to those of the loop; [ExecTheorems] concludes.
    - [TdsComm] ([babelfishpg_tds/src/backend/tds/tdscomm.c]): the packet layer
      with its file-level variables as a record and the socket as an arbitrary
      list of events; [TdsRecv] and [TdsSend] are the proofs of the two
      directions against an abstract parser and an abstract packet format;
      [TdsTheorems] concludes.
    - [Applock] ([babelfishpg_tsql/src/applock.c]): application locks.  A world has the
      shared table, the lock manager and any number of sessions with their own tables; a
      critical section of the code is one step.  [ApplockProofs], [ApplockKeys] and
      [ApplockLocks] have the invariants of counts, keys and locks;
      [ApplockTheorems] concludes.
    - [ParseCache] ([antlr_batch_parse_cache.c], its header, the startup code of
      [tds.c]): the shared table of parsed batches with its slots as byte buffers;
      [ParseCacheParse]: compiling a batch through it; [ParseCacheProofs] and
      [ParseCacheTheorems] are about both.
    - [NodeIO] ([pltsql_node/]): the text form of trees; [NodeIOProofs],
      [NodeIONodes] and [NodeIOShape] lead to [NodeIOTheorems].  [BatchText] gives the
      batch cache its serializer.
    - [NodeEqual] ([pltsql_equalfuncs.c]): comparison of trees and datums,
      and its properties.
    - [RoutineCache] ([hooks.c], [pl_comp.c], [catalog.c]): the cache of parsed routines in
      the columns of [babelfish_function_ext] and the compiled functions of the sessions;
      [RoutineCacheProofs] has the invariant, [RoutineCacheTheorems] the properties.
    - [BitFacts] (bit fields as quotients and remainders, tactics for machine integers),
      [SoftFloat] (binary32 and binary64 rounding of rationals) and [Calendar] (the
      server's calendar functions as the interface [PgCalendar] with laws, and the proleptic
      Gregorian calendar as an instance) support the date and wire types.
    - [Utf] ([babelfishpg_tds/src/backend/tds/tdsutils.c]): conversion between UTF-8 and
      UTF-16; [UtfTheorems].
    - [Datetime], [Datediff] ([babelfishpg_common/src/datetime.c]), [Datetime2]
      ([datetime2.c], [smalldatetime.c]) and [DatetimeOffset] ([datetimeoffset.c]): the date
      and time types as the server's timestamps with rounding, range checks, conversions,
      comparisons, DATEDIFF and DATEADD; [DatetimeTheorems], [DatediffTheorems],
      [Datetime2Theorems] and [DatetimeOffsetTheorems].
    - [TdsTimestamp] ([tdstimestamp.c]): days, ticks and scaled units on the wire, with the
      floating-point steps of the code; [TdsTimestampTheorems].
    - [TdsTypeRecv] and [TdsTypeSend] ([tdstypeio.c], [ReadPlp] of [tdsrpc.c]): values to and
      from message bytes.  [TdsSenders] says what it means that a function puts bytes into a
      send buffer in any state; [TdsTypeTheorems], [TdsPlpTheorems] and
      [TdsNumericTheorems] have the round trips.
    - [TdsColMeta] ([tds_iofuncmap.h], [tds_request.h], [tds_typeio.h]): the codes
      of the types and the metadata entries of columns with their bytes.
    - [TdsRequest] ([tdsutils.c], [tdssqlbatch.c], [tdsxact.c]): stream headers, batches and
      transaction requests, in the monad [act] whose outcomes are a value, an error that the
      code reports, and an access outside of the message.  [TdsTvp] ([tds_request.h]):
      table-valued parameters.  [TdsRpc] ([ReadParameters] of [tdsrpc.c]) and
      [TdsRpcRequest] ([GetRPCRequest] and what it calls): procedure calls.
      [TdsRequestSafety] and [TdsRpcSafety] have the safety predicate and the lemmas on each
      reader, [TdsRpcTheorems] and [TdsRpcRoundtrip] the properties.
    - [TdsLogin] ([tdslogin.c]): PRELOGIN, its answer, LOGIN7 and what the server makes of
      it; [TdsLoginTheorems].
    - [TdsVariant] ([TdsTypeSqlVariantToDatum], [TdsTypeVarcharToDatum] and [TdsTypeXMLToDatum] of
      [tdstypeio.c], [TdsGetPGbaseType] and [TdsSetMetaData] of
      [babelfishpg_common/src/sqlvariant.c]): what a bulk load makes of the values of such columns.
    - [TdsBulk] ([tdsbulkload.c]): columns, rows and batches of a bulk load with the packets that
      are fetched on the way, its savepoint and the clean-up after errors; [TdsBulkTheorems].

    ** What the theorems show

    - MONEY and SMALLMONEY: every integer operator, cast and comparison computes
      the exact or correctly rounded amount or reports the right error; parsing
      accepts the documented syntax with exact value, and prints round trip;
      SUM and AVG are exact, also when computed in parallel parts.  The places
      where the code deviates have theorems of their own.
    - Compiler: analysis records the true scopes; every analysed program
      compiles, with all jumps inside the code; running the code is equivalent
      to the structured semantics, for every behaviour of the leaf statements and
      of the server's transactions; the error context stack is never misused.
    - Errors: a statement that fails in a transaction is undone, and execution goes
      on after an error only if the transaction stays committable; no error is
      swallowed in a TRY block; the error mapping picks the last matching line of
      its table, and user-defined errors keep numbers of at least 50000.
    - Vectors refine lists.  Copies of empty vectors cannot grow.
    - TDS: what is sent is the packet format of the message for every pattern of
      puts and of socket writes; what is received is what the abstract parser
      says for every segmentation, failure or end of the stream; messages round
      trip; a bulk load message, which is read packet by packet, is one packet there.  Packets without
      payload make the reader spin or repeat itself.
    - Values on the wire: integers, money, bits, dates and times, GUIDs, large values in chunks
      and numerics are received as they were sent, whatever the state of the buffer and of
      the packets; values are on the scale of their column, and each chunk of a large value lies in
      one packet; text that a client sent comes back unchanged.  Where a value is not kept
      (negative SMALLMONEY, TIME cut to a microsecond less, numerics of 38 digits that
      leave their text buffer) the theorems say so.
    - Requests: the calls that a client encodes are what the server reads; every message,
      however damaged, is read inside of its bytes but for five causes that are named and shown
      to be real; transaction requests bring only identifiers into the query.
    - Login: messages round trip, are read to their declared length, and the answer to PRELOGIN is
      well formed if it is shorter than 64 KiB and the client sent an option other than
      FEDAUTHREQUIRED; accepted logins have the documented versions, sizes and names; with
      encryption enforced a session is encrypted exactly if the client sends the option.
    - Bulk load: what a client writes is read back for every cut into packets and reaches the
      server in batches up to the first one it refuses; every input ends and stays in the buffer but for
      six types of columns; an error in the rows leaves nothing behind, one in the column metadata leaves
      the packets.  Values read past their end and results of SQL_VARIANT written past theirs are shown.
    - Dates and times: rounding is to the nearest unit or minute, and for DATETIME to the tick nearest to
      the whole milliseconds (the rest is cut off), with all carries; conversions and arithmetic
      keep the types' ranges, but the operators of SMALLDATETIME with a double leave seconds; the binary
      form of DATETIME comes back on the grid; DATEDIFF counts boundaries for every
      datepart; the order of DATETIMEOFFSET is that of instants, its hash is not compatible
      with it.
    - Application locks: while no entry disappears between the search for a key and the
      reference to it and owners are not mixed, incompatible locks are never
      held together; counts are exact in every interleaving with fewer than 2^32 references;
      the end of an idle session in the T-SQL dialect leaves nothing behind.  The race that the
      condition excludes, and what mixing owners does, are theorems too.
    - Parse caches: a batch compiled through the shared cache gets its own parse or the text form of an
      earlier parse of the very same batch, which is its own when the sessions have the same settings;
      a routine compiled through the columns gets the function of the current row with the tree of a
      definition it has had, the current one unless a restored tree was stored by an ALTER that skipped
      the validator; counters, eviction and sizes are as documented.  Writing and reading a tree round trips, reading ends and
      yields only well-typed trees for every text.  Empty strings do not survive; the key of the
      batch cache ignores settings such as QUOTED_IDENTIFIER; ALTER without the validator stores an
      old tree, which other sessions run.

    ** Assumptions and bounds

    - C integers wrap around ([-fwrapv]); where the build uses no overflow
      builtins, the code's own sign tests are modelled.
    - Server code is a parameter: integer helpers, numeric, message formats,
      allocation, hashing, the leaf statements of the executor and the transaction
      functions of the server (the record [runtime]).  Hypotheses on parameters are
      stated with them and have instances in the witnesses.
    - The executor theorems assume that the loop is entered outside server
      procedures and system functions, and that an internal savepoint in which
      nothing happened leaves no trace ([runtime_ok]).  Memory and evaluation
      contexts, tracing and the protocol callbacks are left out.
    - Input functions run with hard errors; texts are UTF-8 with the C ctype
      classes.  EXPLAIN mode is off.  Texts of generated labels are distinct.
    - Loops over data recurse structurally.  [exec_stmt_iterative] takes a number
      of rounds; its theorems quantify over it in both directions, so that
      termination is preserved and reflected.  The loops of the packet layer take
      a fuel larger than the number of bytes still to arrive, since every round
      consumes a byte; the theorems on them say that a result is returned.  Eight
      rounds are enough for a packet header, one byte each.  [pltsql_nodeRead] takes
      one more than the length of the text, as each level reads a token; more makes no
      difference.
    - The node functions generated from [pltsql.h] are a schema, the fields of each node
      type; the server's tokens and nodes are parameters.  The batch cache is
      transparent for histories without collisions of its 64-bit key together with text
      and signature; each access holds the lock of the cache, so compilations are
      sequences of accesses.  The routine cache has one routine and one hash key.
    - The server's calendar functions are [PgCalendar]; [gregorian_laws] shows that the laws
      hold.  A cast of a double outside its integer type ([bad_cast]) and a shift of an int by
      32 bits or more ([wide_shift]) are parameters, as C does not define them.  Text
      encodings of VARCHAR columns are parameters.  Loops over years take a round for every
      365 days, the loop over chunks two rounds for every byte, since a round sends a byte
      or flushes the buffer before one that does.
    - The bytes of a request are at most 2^31 - 1, the limit of the server's string buffers.  The
      loops over parameters, rows and calls take one round for each byte and one more, since
      each reads a byte; the safety theorem shows that they end.  Code pages, the cache of type
      functions and the catalogue names of table types are parameters, and so are the product
      version, MD5 and the case conversion at login.
    - A bulk load gets the packets as a list, which ends where the connection does; buffers are
      below 1 GB, the limit of a StringInfo.  Its loops take one round for each byte that is buffered or
      still to come and one more.  Transactions and the insertion of rows are the record
      [bulk_server]; the record [conversions] has the conversion of encodings, the XML declaration and
      parser and the memory of the server's numerics.
    - The lock manager behind application locks is an interface with laws.  Its tags carry the key
      alone, so the sessions are those of one database.  A session does not end in the middle of a
      call (a FATAL error while it waits in LockAcquire runs no PG_CATCH and leaves its reference), an
      abort of a subtransaction releases no lock, and no error is raised while an LWLock is held.
    - The sizes of a vector of [DynaVec] are natural numbers; the product of element size and capacity,
      a [size_t] in the code, does not wrap around.

    ** Not modelled

    Floating-point operators and binary send/receive of MONEY; text input of the date types,
    which works on fields found by the server's parser; sending of sql_variant values, the conversion of
    table-valued and spatial values; the execution of requests, response tokens, authentication and the
    request loop of the TDS server; the string and collation code of
    [babelfishpg_common]; the parsers (generated); the leaf statements, most hooks and the
    catalogue code of [babelfishpg_tsql], which act through the server; the SQL functions
    that list cache entries; the OUT parameter row of a restored routine. *)
From stdpp Require Import base list numbers strings.
#[global] Open Scope Z_scope.

(** ** Fallible computations

    C code that reports an error with [ereport(ERROR, ...)] (or with the soft
    variant [ereturn]) leaves the function; the models return [Err e] there. *)

Inductive result (E A : Type) : Type :=
| Ok (a : A)
| Err (e : E).
Arguments Ok {E A} a.
Arguments Err {E A} e.

Definition rbind {E A B} (m : result E A) (k : A -> result E B) : result E B :=
  match m with
  | Ok a => k a
  | Err e => Err e
  end.

Definition is_ok {E A} (m : result E A) : bool :=
  match m with Ok _ => true | Err _ => false end.

Declare Scope bbf_scope.
Delimit Scope bbf_scope with bbf.
Notation "'let!' x ':=' m 'in' k" := (rbind m (fun x => k))
  (at level 10, x pattern, m at level 100, k at level 200) : bbf_scope.
#[global] Open Scope bbf_scope.

#[global] Instance result_eq_dec {E A} `{EqDecision E, EqDecision A} :
  EqDecision (result E A).
Proof. solve_decision. Defined.

Lemma rbind_ok {E A B} (m : result E A) (k : A -> result E B) b :
  rbind m k = Ok b <-> exists a, m = Ok a /\ k a = Ok b.
Proof. destruct m; naive_solver. Qed.

(** ** Machine integers

    An integer of the C code is a [Z] together with the width it is kept at.
    PostgreSQL extensions are compiled with [-fwrapv], so a signed operation
    that leaves its type wraps around in two's complement. *)

Definition swrap (w z : Z) : Z := (z + 2 ^ (w - 1)) mod 2 ^ w - 2 ^ (w - 1).
Definition uwrap (w z : Z) : Z := z mod 2 ^ w.

Definition i16 : Z -> Z := swrap 16.
Definition i32 : Z -> Z := swrap 32.
Definition i64 : Z -> Z := swrap 64.
Definition i128 : Z -> Z := swrap 128.
Definition u8 : Z -> Z := uwrap 8.
Definition u16 : Z -> Z := uwrap 16.
Definition u32 : Z -> Z := uwrap 32.
Definition u64 : Z -> Z := uwrap 64.

Lemma u16_id z : 0 <= z < 65536 -> u16 z = z.
Proof. apply Z.mod_small. Qed.
Lemma u32_id z : 0 <= z < 2 ^ 32 -> u32 z = z.
Proof. apply Z.mod_small. Qed.
Lemma u64_id z : 0 <= z < 18446744073709551616 -> u64 z = z.
Proof. apply Z.mod_small. Qed.

Definition INT16_MIN : Z := -32768.
Definition INT16_MAX : Z := 32767.
Definition INT32_MIN : Z := -2147483648.
Definition INT32_MAX : Z := 2147483647.
Definition INT64_MIN : Z := -9223372036854775808.
Definition INT64_MAX : Z := 9223372036854775807.

(** Whether a mathematical integer is a value of the type. *)
Definition in_i16 (z : Z) : bool := (INT16_MIN <=? z) && (z <=? INT16_MAX).
Definition in_i32 (z : Z) : bool := (INT32_MIN <=? z) && (z <=? INT32_MAX).
Definition in_i64 (z : Z) : bool := (INT64_MIN <=? z) && (z <=? INT64_MAX).

Lemma in_i16_iff z : in_i16 z = true <-> -32768 <= z <= 32767.
Proof. unfold in_i16, INT16_MIN, INT16_MAX. lia. Qed.
Lemma in_i32_iff z : in_i32 z = true <-> -2147483648 <= z <= 2147483647.
Proof. unfold in_i32, INT32_MIN, INT32_MAX. lia. Qed.
Lemma in_i64_iff z :
  in_i64 z = true <-> -9223372036854775808 <= z <= 9223372036854775807.
Proof. unfold in_i64, INT64_MIN, INT64_MAX. lia. Qed.

Lemma i64_unfold z :
  i64 z = (z + 9223372036854775808) mod 18446744073709551616 - 9223372036854775808.
Proof. reflexivity. Qed.
Lemma i32_unfold z : i32 z = (z + 2147483648) mod 4294967296 - 2147483648.
Proof. reflexivity. Qed.
Lemma i16_unfold z : i16 z = (z + 32768) mod 65536 - 32768.
Proof. reflexivity. Qed.

(** [int_lia] opens the widths and lets [lia] reason about the wrap-around. *)
Ltac int_unfold :=
  rewrite ?i64_unfold, ?i32_unfold, ?i16_unfold in *;
  rewrite ?in_i64_iff, ?in_i32_iff, ?in_i16_iff in *;
  unfold in_i64, in_i32, in_i16, INT64_MIN, INT64_MAX, INT32_MIN, INT32_MAX,
    INT16_MIN, INT16_MAX in *.
Ltac int_lia := int_unfold; Z.div_mod_to_equations; lia.

Lemma i64_id z : in_i64 z = true -> i64 z = z.
Proof. rewrite in_i64_iff, i64_unfold. intros. rewrite Z.mod_small; lia. Qed.
Lemma i32_id z : in_i32 z = true -> i32 z = z.
Proof. rewrite in_i32_iff, i32_unfold. intros. rewrite Z.mod_small; lia. Qed.
Lemma i16_id z : in_i16 z = true -> i16 z = z.
Proof. rewrite in_i16_iff, i16_unfold. intros. rewrite Z.mod_small; lia. Qed.

Lemma i64_range z : in_i64 (i64 z) = true.
Proof. int_lia. Qed.
Lemma i32_range z : in_i32 (i32 z) = true.
Proof. int_lia. Qed.

(** A value survives the cast to [int64] exactly when it is one. *)
Lemma i64_eqb z : (i64 z =? z) = in_i64 z.
Proof. apply eq_true_iff_eq. rewrite Z.eqb_eq. int_lia. Qed.
Lemma i32_eqb z : (i32 z =? z) = in_i32 z.
Proof. apply eq_true_iff_eq. rewrite Z.eqb_eq. int_lia. Qed.
Lemma i16_eqb z : (i16 z =? z) = in_i16 z.
Proof. apply eq_true_iff_eq. rewrite Z.eqb_eq. int_lia. Qed.

(** The wrapped value differs from the exact one by a multiple of [2^64]. *)
Lemma i64_shift z : exists k, i64 z = z + k * 18446744073709551616.
Proof.
  rewrite i64_unfold.
  exists (- ((z + 9223372036854775808) / 18446744073709551616)).
  Z.div_mod_to_equations. lia.
Qed.

(** A 128-bit value is exact up to the product of two [int64]s times 10000. *)
Lemma i128_id z : -2 ^ 127 <= z < 2 ^ 127 -> i128 z = z.
Proof.
  unfold i128, swrap. change (128 - 1) with 127. intros H.
  rewrite Z.mod_small; [lia|]. change (2 ^ 128) with (2 * 2 ^ 127). lia.
Qed.

Create HintDb ints discriminated.
Create Rewrite HintDb ints.
#[export] Hint Resolve i64_id i32_id i16_id i64_range i32_range : ints.
#[export] Hint Rewrite i64_eqb i32_eqb i16_eqb : ints.

(** Equality of tuples, componentwise up to linear arithmetic. *)
Ltac tuple_lia :=
  repeat match goal with |- (_, _) = (_, _) => f_equal end; try reflexivity; lia.

(** ** PostgreSQL's overflow-checked arithmetic (common/int.h, utils/int8.h)

    These functions belong to the PostgreSQL server, not to the extensions, so
    they are parameters: the operations first, their documented contract as a
    separate class. [(true, r)] stands for "returns true, [*result] is [r]". *)

Class PgInt := {
  pg_add_s64_overflow : Z -> Z -> bool * Z;
  pg_sub_s64_overflow : Z -> Z -> bool * Z;
  pg_mul_s64_overflow : Z -> Z -> bool * Z;
  pg_add_s32_overflow : Z -> Z -> bool * Z;
  pg_sub_s32_overflow : Z -> Z -> bool * Z;
  pg_mul_s32_overflow : Z -> Z -> bool * Z;
}.

(** "If the operation overflows, return true, otherwise store the result": what
    is stored on overflow is left unspecified. *)
Definition overflow_contract (fits : Z -> bool) (op : Z -> Z -> Z)
    (f : Z -> Z -> bool * Z) : Prop :=
  forall a b, fits a = true -> fits b = true ->
    fst (f a b) = negb (fits (op a b)) /\
    (fits (op a b) = true -> snd (f a b) = op a b).

Class PgIntOk (P : PgInt) : Prop := {
  pg_add_s64_ok : overflow_contract in_i64 Z.add pg_add_s64_overflow;
  pg_sub_s64_ok : overflow_contract in_i64 Z.sub pg_sub_s64_overflow;
  pg_mul_s64_ok : overflow_contract in_i64 Z.mul pg_mul_s64_overflow;
  pg_add_s32_ok : overflow_contract in_i32 Z.add pg_add_s32_overflow;
  pg_sub_s32_ok : overflow_contract in_i32 Z.sub pg_sub_s32_overflow;
  pg_mul_s32_ok : overflow_contract in_i32 Z.mul pg_mul_s32_overflow;
}.

(** The compiler built-ins the server maps them to satisfy the contract; the
    concrete inputs of the witnesses run on this instance. *)
#[export] Instance builtin_overflow : PgInt := {|
  pg_add_s64_overflow := fun a b => (negb (in_i64 (a + b)), i64 (a + b));
  pg_sub_s64_overflow := fun a b => (negb (in_i64 (a - b)), i64 (a - b));
  pg_mul_s64_overflow := fun a b => (negb (in_i64 (a * b)), i64 (a * b));
  pg_add_s32_overflow := fun a b => (negb (in_i32 (a + b)), i32 (a + b));
  pg_sub_s32_overflow := fun a b => (negb (in_i32 (a - b)), i32 (a - b));
  pg_mul_s32_overflow := fun a b => (negb (in_i32 (a * b)), i32 (a * b));
|}.

#[export] Instance builtin_overflow_ok : PgIntOk builtin_overflow.
Proof. split; intros a b _ _; cbn; auto using i64_id, i32_id. Qed.

(** The shape every use has: [if (pg_op(a, b, &result)) ereport(ERROR, e)]. *)
Definition or_overflow {E} (r : bool * Z) (e : E) : result E Z :=
  if fst r then Err e else Ok (snd r).

Lemma or_overflow_spec {E} fits op f (e : E) a b :
  overflow_contract fits op f -> fits a = true -> fits b = true ->
  or_overflow (f a b) e = if fits (op a b) then Ok (op a b) else Err e.
Proof.
  intros Hc Ha Hb. destruct (Hc a b Ha Hb) as [Hf Hs]. unfold or_overflow.
  rewrite Hf. destruct (fits (op a b)); cbn; [by rewrite Hs|done].
Qed.

(** ** Byte strings

    A C string is the list of its bytes before the terminating NUL; reading
    at or past the end of the list gives that NUL. *)

Definition bytes := list Z.

Definition hd0 (s : list Z) : Z := match s with [] => 0 | c :: _ => c end.

(** The C string at the start of an area. *)
Fixpoint cstring (a : bytes) : bytes :=
  match a with [] => [] | c :: a => if c =? 0 then [] else c :: cstring a end.

Lemma cstring_clean a : Forall (fun c => c <> 0) a -> cstring a = a.
Proof. induction 1 as [|x a Hx _ IH]; [done|]. cbn. rewrite (proj2 (Z.eqb_neq x 0)) by done. by rewrite IH. Qed.

Fixpoint bytes_of_string (s : string) : list Z :=
  match s with
  | EmptyString => []
  | String c s' => Z.of_N (Ascii.N_of_ascii c) :: bytes_of_string s'
  end.

(** <ctype.h> in the C locale, and in a UTF-8 locale on single bytes. *)
Definition isdigit (c : Z) : bool := (48 <=? c) && (c <=? 57).
Definition isspace (c : Z) : bool := (c =? 32) || ((9 <=? c) && (c <=? 13)).

Definition tolower (c : Ascii.ascii) : Ascii.ascii :=
  let n := Ascii.nat_of_ascii c in
  if (65 <=? n)%nat && (n <=? 90)%nat then Ascii.ascii_of_nat (n + 32) else c.

(** Does [pg_strcasecmp] return 0? *)
Fixpoint strcaseeq (s t : string) : bool :=
  match s, t with
  | EmptyString, EmptyString => true
  | String a s, String b t => bool_decide (tolower a = tolower b) && strcaseeq s t
  | _, _ => false
  end.

(** ** Fixed-width little- and big-endian encodings *)

Fixpoint le_bytes (n : nat) (z : Z) : list Z :=
  match n with
  | O => []
  | S n' => z mod 256 :: le_bytes n' (z / 256)
  end.

Fixpoint le_val (bs : list Z) : Z :=
  match bs with
  | [] => 0
  | b :: bs' => b + 256 * le_val bs'
  end.

Definition is_byte (b : Z) : Prop := 0 <= b < 256.

Lemma length_le_bytes n z : length (le_bytes n z) = n.
Proof. revert z. induction n; intros z; cbn; auto. Qed.

Lemma le_bytes_bytes n z : Forall is_byte (le_bytes n z).
Proof.
  revert z. induction n; intros z; cbn; constructor; [|auto].
  apply Z.mod_pos_bound. lia.
Qed.

Lemma le_val_bytes n z : le_val (le_bytes n z) = z mod 256 ^ Z.of_nat n.
Proof.
  revert z. induction n as [|n IH]; intros z; [cbn; by rewrite Z.mod_1_r|].
  cbn [le_bytes le_val]. rewrite IH, Nat2Z.inj_succ, Z.pow_succ_r by lia.
  pose proof (Z.pow_pos_nonneg 256 (Z.of_nat n) ltac:(lia) ltac:(lia)).
  rewrite Z.rem_mul_r by lia. lia.
Qed.

Lemma le_bytes_val bs : Forall is_byte bs -> le_bytes (length bs) (le_val bs) = bs.
Proof.
  unfold is_byte. induction 1 as [|b bs Hb _ IH]; cbn; [done|]. f_equal.
  - Z.div_mod_to_equations. lia.
  - replace ((b + 256 * le_val bs) / 256) with (le_val bs); [done|].
    Z.div_mod_to_equations. lia.
Qed.

Lemma le_val_bound bs : Forall is_byte bs -> 0 <= le_val bs < 256 ^ Z.of_nat (length bs).
Proof.
  unfold is_byte. induction 1 as [|b bs Hb _ IH]; [cbn; lia|].
  cbn [le_val length]. rewrite Nat2Z.inj_succ, Z.pow_succ_r by lia. lia.
Qed.

(** ** The server's binary message buffers (libpq/pqformat.h)

    [pq_sendint64] appends an int64 in network order, [pq_getmsgint64] reads one
    back and advances, [pq_getmsgend] checks that the message is used up. *)

Class PgFormat := {
  pq_sendint64 : list Z -> Z -> list Z;
  pq_getmsgint64 : list Z -> option (Z * list Z);
  pq_getmsgend : list Z -> bool;
}.

Class PgFormatOk (F : PgFormat) : Prop := {
  pq_int64_roundtrip : forall buf z rest, in_i64 z = true ->
    exists enc, pq_sendint64 buf z = buf ++ enc /\ pq_getmsgint64 (enc ++ rest) = Some (z, rest);
  pq_getmsgend_ok : forall buf, pq_getmsgend buf = true <-> buf = [];
}.

#[export] Instance network_order : PgFormat := {|
  pq_sendint64 := fun buf z => buf ++ rev (le_bytes 8 z);
  pq_getmsgint64 := fun buf =>
    if Nat.leb 8 (length buf) then Some (i64 (le_val (rev (take 8 buf))), drop 8 buf) else None;
  pq_getmsgend := fun buf => Nat.eqb (length buf) 0;
|}.

Lemma i64_mod z : i64 (z mod 256 ^ Z.of_nat 8) = i64 z.
Proof.
  change (256 ^ Z.of_nat 8) with 18446744073709551616. rewrite !i64_unfold.
  by rewrite Z.add_mod_idemp_l.
Qed.

#[export] Instance network_order_ok : PgFormatOk network_order.
Proof.
  split.
  - intros buf z rest Hz. exists (rev (le_bytes 8 z)). split; [done|]. cbn [pq_getmsgint64 network_order].
    assert (length (rev (le_bytes 8 z)) = 8%nat) as Hl by (rewrite length_rev; apply length_le_bytes).
    rewrite length_app, Hl. cbn [Nat.leb Nat.add].
    rewrite take_app_length', drop_app_length' by done.
    rewrite rev_involutive, le_val_bytes, i64_mod, i64_id by done. done.
  - intros buf. cbn. rewrite Nat.eqb_eq. by destruct buf.
Qed.
