(* ===== verification/FixedDecimal.v ===== *)
(** * FixedDecimal: constants, errors and arithmetic of the MONEY type

    Models the numeric half of [babelfishpg_money/fixeddecimal.c]: a MONEY value
    is an [int64] counting ten-thousandths.  Every definition below keeps the
    name of the C function it translates.  Arguments are the values the
    [PG_GETARG_*] macros return. *)
From stdpp Require Import base list numbers strings.
From S2P Require Import Prelude.

Definition FIXEDDECIMAL_MULTIPLIER : Z := 10000.
Definition FIXEDDECIMAL_SCALE : Z := 4.
Definition FIXEDDECIMAL_ROUNDUP : Z := 5000.
Definition FIXEDDECIMAL_MAX_PRECISION : Z := 19.
Definition FIXEDDECIMAL_MAX : Z := Z.quot INT64_MAX FIXEDDECIMAL_MULTIPLIER.
Definition FIXEDDECIMAL_MIN : Z := Z.quot INT64_MIN FIXEDDECIMAL_MULTIPLIER.

Definition SAMESIGN (a b : Z) : bool := Bool.eqb (a <? 0) (b <? 0).

(** The [ereport]s of the extension, one constructor per error code and message. *)
Inductive money_error :=
| fixeddecimal_out_of_range
| smallmoney_out_of_range
| integer_out_of_range
| smallint_out_of_range
| division_by_zero
| bigint_value_out_of_range (arg : Z) (typename : string)
| value_out_of_range (str : list Z)
| invalid_characters (str : list Z)
| scale_must_be (scale : Z)
| precision_must_be_between (precision lo hi : Z)
| field_overflow (precision scale maxdigits : Z)
| invalid_type_modifier
| cannot_convert_nan
| bigint_out_of_range.

#[export] Instance money_error_eq_dec : EqDecision money_error.
Proof. solve_decision. Defined.

Abbreviation money_result := (result money_error Z).

(** ** Arithmetic operators (fixeddecimal.c, "Arithmetic operators") *)

Section arith.
Context {P : PgInt}.

Definition fixeddecimalum (arg : Z) : money_result :=
  let result := i64 (- arg) in
  if negb (arg =? 0) && SAMESIGN result arg then Err fixeddecimal_out_of_range
  else Ok result.

Definition fixeddecimalup (arg : Z) : money_result := Ok arg.

Definition fixeddecimalpl (arg1 arg2 : Z) : money_result :=
  or_overflow (pg_add_s64_overflow arg1 arg2) fixeddecimal_out_of_range.

Definition fixeddecimalmi (arg1 arg2 : Z) : money_result :=
  or_overflow (pg_sub_s64_overflow arg1 arg2) fixeddecimal_out_of_range.

(** [abs] is the C library's [int abs(int)]: its argument is narrowed to 32 bits. *)
Definition c_abs (z : Z) : Z := let n := i32 z in if n <? 0 then i32 (- n) else n.

(** The condition that makes the product be rounded away: [%] and [*] have one
    precedence and associate to the left, and all of it is [int64] arithmetic. *)
Definition mul_roundup (arg1 arg2 : Z) : bool :=
  FIXEDDECIMAL_ROUNDUP <=?
    c_abs (Z.rem (Z.rem (i64 (Z.rem arg1 FIXEDDECIMAL_MULTIPLIER * arg2))
                        FIXEDDECIMAL_MULTIPLIER)
                 FIXEDDECIMAL_MULTIPLIER).

Definition fixeddecimalmul (arg1 arg2 : Z) : money_result :=
  let result := Z.quot (i128 (arg1 * arg2)) FIXEDDECIMAL_MULTIPLIER in
  let result :=
    if mul_roundup arg1 arg2
    then if result <? 0 then result - 1 else result + 1
    else result in
  if negb (result =? i64 result) then Err fixeddecimal_out_of_range
  else Ok (i64 result).

Definition fixeddecimaldiv (dividend divisor : Z) : money_result :=
  if divisor =? 0 then Err division_by_zero
  else
    let result := Z.quot (i128 (dividend * FIXEDDECIMAL_MULTIPLIER)) divisor in
    if negb (result =? i64 result) then Err fixeddecimal_out_of_range
    else Ok (i64 result).

Definition fixeddecimalmod (dividend divisor : Z) : money_result :=
  if divisor =? 0 then Err division_by_zero
  else if divisor =? -1 then Ok 0
  else Ok (Z.rem dividend divisor).

Definition fixeddecimalabs (arg1 : Z) : money_result :=
  let result := if arg1 <? 0 then i64 (- arg1) else arg1 in
  if result <? 0 then Err fixeddecimal_out_of_range else Ok result.

Definition fixeddecimallarger (arg1 arg2 : Z) : Z := if arg2 <? arg1 then arg1 else arg2.
Definition fixeddecimalsmaller (arg1 arg2 : Z) : Z := if arg1 <? arg2 then arg1 else arg2.

(** *** Mixed with bigint: the integer is scaled with an overflow check first. *)

Definition fixeddecimalint8pl (arg1 arg2 : Z) : money_result :=
  let! adder := or_overflow (pg_mul_s64_overflow arg2 FIXEDDECIMAL_MULTIPLIER)
                  fixeddecimal_out_of_range in
  or_overflow (pg_add_s64_overflow arg1 adder) fixeddecimal_out_of_range.

Definition fixeddecimalint8mi (arg1 arg2 : Z) : money_result :=
  let! subtractor := or_overflow (pg_mul_s64_overflow arg2 FIXEDDECIMAL_MULTIPLIER)
                       fixeddecimal_out_of_range in
  or_overflow (pg_sub_s64_overflow arg1 subtractor) fixeddecimal_out_of_range.

Definition fixeddecimalint8mul (arg1 arg2 : Z) : money_result :=
  or_overflow (pg_mul_s64_overflow arg1 arg2) fixeddecimal_out_of_range.

Definition fixeddecimalint8div (arg1 arg2 : Z) : money_result :=
  if arg2 =? 0 then Err division_by_zero
  else if arg2 =? -1 then
    if arg1 =? INT64_MIN then Err fixeddecimal_out_of_range else Ok (i64 (- arg1))
  else Ok (Z.quot arg1 arg2).

Definition int8fixeddecimalpl (arg1 arg2 : Z) : money_result :=
  let! adder := or_overflow (pg_mul_s64_overflow arg1 FIXEDDECIMAL_MULTIPLIER)
                  fixeddecimal_out_of_range in
  or_overflow (pg_add_s64_overflow adder arg2) fixeddecimal_out_of_range.

Definition int8fixeddecimalmi (arg1 arg2 : Z) : money_result :=
  let! subtractor := or_overflow (pg_mul_s64_overflow arg1 FIXEDDECIMAL_MULTIPLIER)
                       fixeddecimal_out_of_range in
  or_overflow (pg_sub_s64_overflow subtractor arg2) fixeddecimal_out_of_range.

Definition int8fixeddecimalmul (arg1 arg2 : Z) : money_result :=
  or_overflow (pg_mul_s64_overflow arg1 arg2) fixeddecimal_out_of_range.

(** *** Mixed with int and smallint: C-level overflow checks on signs. *)

(** [result = a + b; if (SAMESIGN(a, b) && !SAMESIGN(result, a)) ereport(...)] *)
Definition add_samesign (a b : Z) : money_result :=
  let result := i64 (a + b) in
  if SAMESIGN a b && negb (SAMESIGN result a) then Err fixeddecimal_out_of_range
  else Ok result.

(** [result = a - b; if (!SAMESIGN(a, b) && !SAMESIGN(result, a)) ereport(...)] *)
Definition sub_samesign (a b : Z) : money_result :=
  let result := i64 (a - b) in
  if negb (SAMESIGN a b) && negb (SAMESIGN result a) then Err fixeddecimal_out_of_range
  else Ok result.

(** [result = m * n;] checked by dividing back, unless [m] fits in 32 bits. *)
Definition mul_divback (m n : Z) : money_result :=
  let result := i64 (m * n) in
  if negb (m =? i64 (i32 m)) && negb (Z.quot result m =? n)
  then Err fixeddecimal_out_of_range
  else Ok result.

(** Division by a (small)int: by [-1] it is a negation with a sign check. *)
Definition div_samesign (arg1 arg2 : Z) : money_result :=
  if arg2 =? 0 then Err division_by_zero
  else if arg2 =? -1 then
    let result := i64 (- arg1) in
    if negb (arg1 =? 0) && SAMESIGN result arg1 then Err fixeddecimal_out_of_range
    else Ok result
  else Ok (Z.quot arg1 arg2).

Definition fixeddecimalint4pl (arg1 arg2 : Z) : money_result :=
  let adder := i64 (arg2 * FIXEDDECIMAL_MULTIPLIER) in add_samesign arg1 adder.
Definition fixeddecimalint4mi (arg1 arg2 : Z) : money_result :=
  let subtractor := i64 (arg2 * FIXEDDECIMAL_MULTIPLIER) in sub_samesign arg1 subtractor.
Definition fixeddecimalint4mul (arg1 arg2 : Z) : money_result := mul_divback arg1 arg2.
Definition fixeddecimalint4div (arg1 arg2 : Z) : money_result := div_samesign arg1 arg2.
Definition int4fixeddecimalpl (arg1 arg2 : Z) : money_result :=
  let adder := i64 (arg1 * FIXEDDECIMAL_MULTIPLIER) in add_samesign adder arg2.
Definition int4fixeddecimalmi (arg1 arg2 : Z) : money_result :=
  let subtractor := i64 (arg1 * FIXEDDECIMAL_MULTIPLIER) in sub_samesign subtractor arg2.
Definition int4fixeddecimalmul (arg1 arg2 : Z) : money_result := mul_divback arg2 arg1.

Definition fixeddecimalint2pl (arg1 arg2 : Z) : money_result :=
  let adder := i64 (arg2 * FIXEDDECIMAL_MULTIPLIER) in add_samesign arg1 adder.
Definition fixeddecimalint2mi (arg1 arg2 : Z) : money_result :=
  let subtractor := i64 (arg2 * FIXEDDECIMAL_MULTIPLIER) in sub_samesign arg1 subtractor.
Definition fixeddecimalint2mul (arg1 arg2 : Z) : money_result := mul_divback arg1 arg2.
Definition fixeddecimalint2div (arg1 arg2 : Z) : money_result := div_samesign arg1 arg2.
Definition int2fixeddecimalpl (arg1 arg2 : Z) : money_result :=
  let adder := i64 (arg1 * FIXEDDECIMAL_MULTIPLIER) in add_samesign adder arg2.
Definition int2fixeddecimalmi (arg1 arg2 : Z) : money_result :=
  let subtractor := i64 (arg1 * FIXEDDECIMAL_MULTIPLIER) in sub_samesign subtractor arg2.
Definition int2fixeddecimalmul (arg1 arg2 : Z) : money_result := mul_divback arg2 arg1.

(** ** Conversions between MONEY and the integer types *)

Definition int8fixeddecimal_internal (arg : Z) (typename : string) : money_result :=
  or_overflow (pg_mul_s64_overflow arg FIXEDDECIMAL_MULTIPLIER)
    (bigint_value_out_of_range arg typename).
Definition int8_to_money (arg : Z) : money_result := int8fixeddecimal_internal arg "money".
Definition int8_to_smallmoney (arg : Z) : money_result :=
  int8fixeddecimal_internal arg "smallmoney".
Definition int8fixeddecimal (arg : Z) : money_result :=
  int8fixeddecimal_internal arg "fixeddecimal".

Definition fixeddecimalint8 (arg0 : Z) : money_result :=
  let arg := Z.quot arg0 FIXEDDECIMAL_MULTIPLIER in
  if negb (i64 arg =? arg) then Err integer_out_of_range else Ok (i64 arg).
Definition int4fixeddecimal (arg : Z) : money_result :=
  Ok (i64 (arg * FIXEDDECIMAL_MULTIPLIER)).
Definition fixeddecimalint4 (arg0 : Z) : money_result :=
  let arg := Z.quot arg0 FIXEDDECIMAL_MULTIPLIER in
  if negb (i32 arg =? arg) then Err integer_out_of_range else Ok (i32 arg).
Definition int2fixeddecimal (arg : Z) : money_result :=
  Ok (i64 (arg * FIXEDDECIMAL_MULTIPLIER)).
Definition fixeddecimalint2 (arg0 : Z) : money_result :=
  let arg := Z.quot arg0 FIXEDDECIMAL_MULTIPLIER in
  if negb (i16 arg =? arg) then Err smallint_out_of_range else Ok (i16 arg).

(** ** CEILING and FLOOR *)

Definition fixeddecimal_ceiling (arg1 : Z) : money_result :=
  let truncvalue := i64 (arg1 - Z.rem arg1 FIXEDDECIMAL_MULTIPLIER) in
  if (0 <? arg1) && negb (Z.rem arg1 FIXEDDECIMAL_MULTIPLIER =? 0)
  then or_overflow (pg_add_s64_overflow truncvalue FIXEDDECIMAL_MULTIPLIER)
         fixeddecimal_out_of_range
  else Ok truncvalue.

Definition fixeddecimal_floor (arg1 : Z) : money_result :=
  let truncvalue := i64 (arg1 - Z.rem arg1 FIXEDDECIMAL_MULTIPLIER) in
  if (arg1 <? 0) && negb (Z.rem arg1 FIXEDDECIMAL_MULTIPLIER =? 0)
  then or_overflow (pg_sub_s64_overflow truncvalue FIXEDDECIMAL_MULTIPLIER)
         fixeddecimal_out_of_range
  else Ok truncvalue.

End arith.

(** ** Reference definitions

    What the operators should compute, over the integers. *)

(** An exact result that must fit the type. *)
Definition exact (z : Z) : money_result :=
  if in_i64 z then Ok z else Err fixeddecimal_out_of_range.

(** [n / d] rounded to the nearest integer, halves away from zero. *)
Definition round_half_away (n d : Z) : Z :=
  Z.quot n d + (if d <=? 2 * Z.abs (Z.rem n d) then Z.sgn n else 0).

Lemma or_overflow_exact f op a b :
  overflow_contract in_i64 op f -> in_i64 a = true -> in_i64 b = true ->
  or_overflow (f a b) fixeddecimal_out_of_range = exact (op a b).
Proof. intros. by apply or_overflow_spec. Qed.

(** ** The sign checks are exact overflow checks *)

Lemma SAMESIGN_iff a b : SAMESIGN a b = true <-> (a < 0 <-> b < 0).
Proof. unfold SAMESIGN. rewrite eqb_true_iff. lia. Qed.

Lemma scaled_in_i64 n : in_i32 n = true -> i64 (n * FIXEDDECIMAL_MULTIPLIER) = n * 10000.
Proof. intros H. apply i64_id. unfold FIXEDDECIMAL_MULTIPLIER. int_lia. Qed.

Lemma in_i16_i32 n : in_i16 n = true -> in_i32 n = true.
Proof. int_lia. Qed.

Lemma add_samesign_exact a b :
  in_i64 a = true -> in_i64 b = true -> add_samesign a b = exact (a + b).
Proof.
  intros Ha Hb. unfold add_samesign, exact, SAMESIGN.
  destruct (in_i64 (a + b)) eqn:E.
  - rewrite i64_id by done. repeat case_match; try done; int_lia.
  - repeat case_match; try done; int_lia.
Qed.

Lemma sub_samesign_exact a b :
  in_i64 a = true -> in_i64 b = true -> sub_samesign a b = exact (a - b).
Proof.
  intros Ha Hb. unfold sub_samesign, exact, SAMESIGN.
  destruct (in_i64 (a - b)) eqn:E.
  - rewrite i64_id by done. repeat case_match; try done; int_lia.
  - repeat case_match; try done; int_lia.
Qed.

Lemma neg_samesign_exact a :
  in_i64 a = true ->
  (if negb (a =? 0) && SAMESIGN (i64 (- a)) a then Err fixeddecimal_out_of_range
   else Ok (i64 (- a))) = exact (- a).
Proof.
  intros Ha. unfold exact, SAMESIGN. destruct (in_i64 (- a)) eqn:E.
  - rewrite i64_id by done. repeat case_match; try done; int_lia.
  - repeat case_match; try done; int_lia.
Qed.

(** Two values of the same residue modulo [2^64] that are closer than [2^63]. *)
Lemma quot_close r m n : m <> 0 -> Z.quot r m = n -> Z.abs (r - m * n) < Z.abs m.
Proof.
  intros Hm Hq. pose proof (Z.quot_rem' r m) as Hr. rewrite Hq in Hr.
  pose proof (Z.rem_bound_abs r m Hm). lia.
Qed.

(** The divide-back test catches every overflow, and only overflows. *)
Lemma mul_divback_exact m n :
  in_i64 m = true -> in_i32 n = true -> mul_divback m n = exact (m * n).
Proof.
  intros Hm Hn. unfold mul_divback, exact.
  rewrite (i64_id (i32 m)) by (pose proof (i32_range m); int_lia).
  rewrite (Z.eqb_sym m), i32_eqb.
  destruct (in_i32 m) eqn:Hm32; cbn.
  { assert (in_i64 (m * n) = true) as E by (int_unfold; nia).
    by rewrite E, i64_id. }
  assert (m <> 0) by int_lia.
  destruct (in_i64 (m * n)) eqn:E.
  { rewrite i64_id by done. by rewrite Z.mul_comm, Z.quot_mul, Z.eqb_refl. }
  destruct (Z.quot (i64 (m * n)) m =? n) eqn:Q; [|done]. exfalso.
  apply Z.eqb_eq, quot_close in Q; [|done].
  destruct (i64_shift (m * n)) as [k Hk].
  rewrite Hk in Q. pose proof (i64_range (m * n)) as R.
  assert (k = 0) as -> by int_lia. rewrite Z.add_0_r in Hk. congruence.
Qed.

Lemma div_samesign_exact a b :
  in_i64 a = true -> b <> 0 -> div_samesign a b = exact (Z.quot a b).
Proof.
  intros Ha Hb. unfold div_samesign. rewrite (proj2 (Z.eqb_neq b 0)) by done.
  destruct (b =? -1) eqn:E.
  - rewrite Z.eqb_eq in E; subst b.
    rewrite neg_samesign_exact by done. change (-1) with (Z.opp 1).
    by rewrite Z.quot_opp_r, Z.quot_1_r.
  - unfold exact. enough (in_i64 (Z.quot a b) = true) as -> by done.
    rewrite Z.eqb_neq in E. int_unfold.
    pose proof (Z.quot_rem' a b). pose proof (Z.rem_bound_abs a b Hb).
    destruct (Z.le_gt_cases 0 a) as [Ha'|Ha'].
    + pose proof (Z.rem_nonneg a b Hb ltac:(lia)). nia.
    + pose proof (Z.rem_nonpos a b Hb ltac:(lia)). nia.
Qed.

(** ** Rounding of products *)

Lemma c_abs_small z : -10000 < z < 10000 -> c_abs z = Z.abs z.
Proof.
  intros. unfold c_abs. rewrite i32_id by int_lia.
  case_match; [rewrite i32_id by int_lia|]; lia.
Qed.

Lemma rem_small_bound z : -10000 < Z.rem z 10000 < 10000.
Proof. pose proof (Z.rem_bound_abs z 10000). lia. Qed.

(** Without a wrap the test looks at the remainder of the exact product. *)
Lemma mul_roundup_exact a b :
  in_i64 (Z.rem a 10000 * b) = true ->
  mul_roundup a b = (10000 <=? 2 * Z.abs (Z.rem (a * b) 10000)).
Proof.
  intros H. unfold mul_roundup, FIXEDDECIMAL_MULTIPLIER, FIXEDDECIMAL_ROUNDUP.
  rewrite i64_id by done. rewrite Z.rem_rem, Z.mul_rem_idemp_l by lia.
  rewrite c_abs_small by apply rem_small_bound. lia.
Qed.

Lemma product_i128 a b :
  in_i64 a = true -> in_i64 b = true -> i128 (a * b) = a * b.
Proof.
  rewrite !in_i64_iff. intros. apply i128_id.
  change (2 ^ 127) with 170141183460469231731687303715884105728. nia.
Qed.

Lemma check_int64 r :
  (if negb (r =? i64 r) then Err fixeddecimal_out_of_range else Ok (i64 r)) = exact r.
Proof.
  unfold exact. rewrite (Z.eqb_sym r), i64_eqb.
  destruct (in_i64 r) eqn:E; cbn; [by rewrite i64_id|done].
Qed.

Lemma quot_rem_10000 p :
  p = 10000 * Z.quot p 10000 + Z.rem p 10000 /\
  (0 <= p -> 0 <= Z.rem p 10000) /\ (p <= 0 -> Z.rem p 10000 <= 0).
Proof.
  split; [apply Z.quot_rem'|]. split; intros.
  - apply Z.rem_nonneg; lia.
  - apply Z.rem_nonpos; lia.
Qed.

Lemma fixeddecimalmul_unfold a b :
  in_i64 a = true -> in_i64 b = true -> in_i64 (Z.rem a 10000 * b) = true ->
  fixeddecimalmul a b =
  exact (let q := Z.quot (a * b) 10000 in
         if 10000 <=? 2 * Z.abs (Z.rem (a * b) 10000)
         then if q <? 0 then q - 1 else q + 1 else q).
Proof.
  intros Ha Hb Hw. unfold fixeddecimalmul. rewrite product_i128 by done.
  rewrite mul_roundup_exact by done. unfold FIXEDDECIMAL_MULTIPLIER.
  cbv zeta. apply check_int64.
Qed.

(** ** CEILING and FLOOR *)

Lemma trunc_in_i64 a :
  in_i64 a = true -> i64 (a - Z.rem a FIXEDDECIMAL_MULTIPLIER) = 10000 * Z.quot a 10000.
Proof.
  intros Ha. unfold FIXEDDECIMAL_MULTIPLIER.
  destruct (quot_rem_10000 a) as (E & Hp & Hn). pose proof (rem_small_bound a).
  rewrite i64_id; [lia|]. int_lia.
Qed.

Lemma multiple_of_trunc a :
  in_i64 a = true -> in_i64 (10000 * Z.quot a 10000) = true.
Proof. intros Ha. rewrite <- (trunc_in_i64 a Ha). apply i64_range. Qed.

(** ** Properties *)

Section properties.
Context {P : PgInt} {POk : PgIntOk P}.

Lemma fixeddecimalpl_exact a b :
  in_i64 a = true -> in_i64 b = true -> fixeddecimalpl a b = exact (a + b).
Proof. intros. apply or_overflow_exact; [apply pg_add_s64_ok|done..]. Qed.

Lemma fixeddecimalmi_exact a b :
  in_i64 a = true -> in_i64 b = true -> fixeddecimalmi a b = exact (a - b).
Proof. intros. apply or_overflow_exact; [apply pg_sub_s64_ok|done..]. Qed.

(** Negation, addition and subtraction of MONEY values, of a MONEY and an
    int, and of a MONEY and a smallint (either order) return the exact result
    when it fits in an int64 and the out-of-range error otherwise; the
    sign-comparison checks neither miss an overflow nor report a false one. *)
Theorem additive_ops_exact a b n k :
  in_i64 a = true -> in_i64 b = true -> in_i32 n = true -> in_i16 k = true ->
  fixeddecimalum a = exact (- a) /\
  fixeddecimalpl a b = exact (a + b) /\ fixeddecimalmi a b = exact (a - b) /\
  fixeddecimalint4pl a n = exact (a + n * 10000) /\
  fixeddecimalint4mi a n = exact (a - n * 10000) /\
  int4fixeddecimalpl n a = exact (n * 10000 + a) /\
  int4fixeddecimalmi n a = exact (n * 10000 - a) /\
  fixeddecimalint2pl a k = exact (a + k * 10000) /\
  fixeddecimalint2mi a k = exact (a - k * 10000) /\
  int2fixeddecimalpl k a = exact (k * 10000 + a) /\
  int2fixeddecimalmi k a = exact (k * 10000 - a).
Proof.
  intros Ha Hb Hn Hk. pose proof (in_i16_i32 k Hk) as Hk'.
  assert (in_i64 (n * 10000) = true /\ in_i64 (k * 10000) = true) as [Hn2 Hk2] by int_lia.
  repeat split;
    unfold fixeddecimalint4pl, fixeddecimalint4mi, int4fixeddecimalpl,
      int4fixeddecimalmi, fixeddecimalint2pl, fixeddecimalint2mi,
      int2fixeddecimalpl, int2fixeddecimalmi; cbv zeta;
    rewrite ?scaled_in_i64 by done;
    auto using add_samesign_exact, sub_samesign_exact, neg_samesign_exact,
      fixeddecimalpl_exact, fixeddecimalmi_exact.
  by apply neg_samesign_exact.
Qed.

(** With a bigint operand the integer is first converted to MONEY: an
    operand whose conversion overflows is an error even when the final sum or
    difference would fit; otherwise the operation is exact. *)
Theorem bigint_additive_ops a n :
  in_i64 a = true -> in_i64 n = true ->
  let lift r := if in_i64 (n * 10000) then exact r else Err fixeddecimal_out_of_range in
  fixeddecimalint8pl a n = lift (a + n * 10000) /\
  fixeddecimalint8mi a n = lift (a - n * 10000) /\
  int8fixeddecimalpl n a = lift (n * 10000 + a) /\
  int8fixeddecimalmi n a = lift (n * 10000 - a).
Proof.
  intros Ha Hn lift. subst lift.
  assert (or_overflow (pg_mul_s64_overflow n FIXEDDECIMAL_MULTIPLIER)
            fixeddecimal_out_of_range = exact (n * 10000)) as Hs
    by (apply or_overflow_exact; [apply pg_mul_s64_ok|done..]).
  unfold fixeddecimalint8pl, fixeddecimalint8mi, int8fixeddecimalpl, int8fixeddecimalmi.
  rewrite Hs. unfold exact at 1 3 5 7.
  destruct (in_i64 (n * 10000)) eqn:E; cbn; [|done].
  repeat split; apply or_overflow_exact; auto using pg_add_s64_ok, pg_sub_s64_ok.
Qed.

(** Multiplying a MONEY by a bigint, int or smallint (either order) returns
    the exact product when it fits and the out-of-range error otherwise: the
    divide-back overflow test, skipped when the MONEY fits in 32 bits, is exact. *)
Theorem integer_scaling_exact a b n k :
  in_i64 a = true -> in_i64 b = true -> in_i32 n = true -> in_i16 k = true ->
  fixeddecimalint8mul a b = exact (a * b) /\ int8fixeddecimalmul b a = exact (b * a) /\
  fixeddecimalint4mul a n = exact (a * n) /\ int4fixeddecimalmul n a = exact (a * n) /\
  fixeddecimalint2mul a k = exact (a * k) /\ int2fixeddecimalmul k a = exact (a * k).
Proof.
  intros Ha Hb Hn Hk. pose proof (in_i16_i32 k Hk) as Hk'.
  repeat split;
    try (by apply mul_divback_exact);
    apply (or_overflow_exact _ Z.mul); auto using pg_mul_s64_ok.
Qed.

(** Dividing a MONEY by an integer of any width truncates toward zero,
    reports division by zero exactly for a zero divisor and out-of-range
    exactly for the one overflowing case. *)
Theorem integer_division_truncates a n :
  in_i64 a = true -> in_i64 n = true ->
  let spec := if n =? 0 then Err division_by_zero else exact (Z.quot a n) in
  fixeddecimalint8div a n = spec /\
  (in_i32 n = true -> fixeddecimalint4div a n = spec) /\
  (in_i16 n = true -> fixeddecimalint2div a n = spec).
Proof.
  intros Ha Hn spec. subst spec.
  assert (div_samesign a n = if n =? 0 then Err division_by_zero else exact (Z.quot a n)) as E.
  { destruct (n =? 0) eqn:E0; [unfold div_samesign; by rewrite E0|].
    apply div_samesign_exact; [done|by apply Z.eqb_neq]. }
  split; [|done]. rewrite <- E. unfold fixeddecimalint8div, div_samesign.
  destruct (n =? 0); [done|]. destruct (n =? -1); [|done].
  rewrite neg_samesign_exact by done. unfold exact.
  destruct (a =? INT64_MIN) eqn:Em; unfold INT64_MIN in *.
  - rewrite Z.eqb_eq in Em; by subst a.
  - assert (in_i64 (- a) = true) as E' by int_lia. by rewrite E', i64_id.
Qed.

(** MONEY * MONEY is the exact product rounded to four decimals, halves away
    from zero, or the out-of-range error when that does not fit; this holds
    whenever the rounding test's own int64 product does not wrap and the product
    is not a negative amount smaller than one ten-thousandth. *)
Theorem fixeddecimalmul_rounds a b :
  in_i64 a = true -> in_i64 b = true -> in_i64 (Z.rem a 10000 * b) = true ->
  0 <= a * b \/ a * b <= -10000 ->
  fixeddecimalmul a b = exact (round_half_away (a * b) 10000).
Proof.
  intros Ha Hb Hw Hs. rewrite fixeddecimalmul_unfold by done.
  f_equal. unfold round_half_away. cbv zeta.
  destruct (quot_rem_10000 (a * b)) as (E & Hp & Hn).
  pose proof (rem_small_bound (a * b)).
  destruct (Z.leb_spec 10000 (2 * Z.abs (Z.rem (a * b) 10000))); [|lia].
  destruct (Z.ltb_spec (Z.quot (a * b) 10000) 0); destruct (Z.sgn_spec (a * b)); lia.
Qed.

(** A product between minus one and minus half of a ten-thousandth (for
    example -0.0001 * 0.5) is returned as plus one ten-thousandth: the truncated
    quotient is zero, so the code takes the non-negative rounding branch. *)
Theorem fixeddecimalmul_small_negative a b :
  in_i64 a = true -> in_i64 b = true -> -10000 < a * b <= -5000 ->
  fixeddecimalmul a b = Ok 1 /\ round_half_away (a * b) 10000 = -1.
Proof.
  intros Ha Hb Hs.
  assert (Z.quot (a * b) 10000 = 0) as Hq.
  { destruct (quot_rem_10000 (a * b)) as (E & _ & Hn). pose proof (rem_small_bound (a * b)). lia. }
  assert (Z.rem (a * b) 10000 = a * b) as Hr
    by (pose proof (Z.quot_rem' (a * b) 10000); lia).
  assert (in_i64 (Z.rem a 10000 * b) = true) as Hw.
  { assert (-10000 < a < 10000) as Ha'
      by (assert (b <= -1 \/ b = 0 \/ 1 <= b) as [?|[->|?]] by lia; [nia|lia|nia]).
    enough (Z.rem a 10000 = a) as -> by int_lia.
    destruct (quot_rem_10000 a) as (E & Hp & Hn). pose proof (rem_small_bound a). lia. }
  rewrite fixeddecimalmul_unfold by done. unfold round_half_away. rewrite Hq, Hr.
  assert ((10000 <=? 2 * Z.abs (a * b)) = true) as -> by lia.
  split; [done|]. rewrite Z.sgn_neg; lia.
Qed.

(** The rounding test multiplies in int64 and its wrap-around is visible:
    0.5 * 900000000000.0001 is rounded down to 450000000000.0000 although the
    exact product ends in a half. *)
Theorem fixeddecimalmul_rounding_wraps :
  fixeddecimalmul 5000 9000000000000001 = Ok 4500000000000000 /\
  round_half_away (5000 * 9000000000000001) 10000 = 4500000000000001.
Proof. split; vm_compute; reflexivity. Qed.

(** MONEY / MONEY is the exact quotient at four decimals truncated toward
    zero (not rounded, unlike the product); a zero divisor is division by zero
    and a quotient outside int64 is out of range. *)
Theorem fixeddecimaldiv_truncates a b :
  in_i64 a = true -> in_i64 b = true ->
  fixeddecimaldiv a b =
    if b =? 0 then Err division_by_zero else exact (Z.quot (a * 10000) b).
Proof.
  intros Ha Hb. unfold fixeddecimaldiv. destruct (b =? 0); [done|].
  unfold FIXEDDECIMAL_MULTIPLIER. rewrite (product_i128 a 10000) by done.
  apply check_int64.
Qed.

(** CEILING is the least whole amount not below the argument and FLOOR the
    greatest not above it, with the out-of-range error exactly when that whole
    amount is not representable. *)
Theorem ceiling_floor_exact a :
  in_i64 a = true ->
  fixeddecimal_ceiling a = exact (10000 * - (- a / 10000)) /\
  fixeddecimal_floor a = exact (10000 * (a / 10000)).
Proof.
  intros Ha. unfold fixeddecimal_ceiling, fixeddecimal_floor. cbv zeta.
  rewrite trunc_in_i64 by done. pose proof (multiple_of_trunc a Ha) as Ht.
  destruct (quot_rem_10000 a) as (E & Hp & Hn). pose proof (rem_small_bound a) as Hr.
  unfold FIXEDDECIMAL_MULTIPLIER.
  split.
  - destruct ((0 <? a) && negb (Z.rem a 10000 =? 0)) eqn:C.
    + rewrite (or_overflow_exact _ Z.add) by (done || apply pg_add_s64_ok).
      f_equal. Z.div_mod_to_equations. lia.
    + replace (10000 * - (- a / 10000)) with (10000 * Z.quot a 10000)
        by (Z.div_mod_to_equations; lia).
      unfold exact. by rewrite Ht.
  - destruct ((a <? 0) && negb (Z.rem a 10000 =? 0)) eqn:C.
    + rewrite (or_overflow_exact _ Z.sub) by (done || apply pg_sub_s64_ok).
      f_equal. Z.div_mod_to_equations. lia.
    + replace (10000 * (a / 10000)) with (10000 * Z.quot a 10000)
        by (Z.div_mod_to_equations; lia).
      unfold exact. by rewrite Ht.
Qed.

(** Converting an integer to MONEY and back returns the integer at every
    width, and the conversion to MONEY of a bigint fails exactly when the scaled
    value does not fit; MONEY to integer truncates and fails exactly when the
    whole part does not fit the target. *)
Theorem integer_casts a n k :
  in_i64 a = true -> in_i32 n = true -> in_i16 k = true ->
  rbind (int4fixeddecimal n) fixeddecimalint4 = Ok n /\
  rbind (int2fixeddecimal k) fixeddecimalint2 = Ok k /\
  rbind (int8_to_money a) fixeddecimalint8 =
    (if in_i64 (a * 10000) then Ok a else Err (bigint_value_out_of_range a "money")) /\
  fixeddecimalint8 a = Ok (Z.quot a 10000) /\
  fixeddecimalint4 a =
    (if in_i32 (Z.quot a 10000) then Ok (Z.quot a 10000) else Err integer_out_of_range) /\
  fixeddecimalint2 a =
    (if in_i16 (Z.quot a 10000) then Ok (Z.quot a 10000) else Err smallint_out_of_range).
Proof.
  intros Ha Hn Hk. pose proof (in_i16_i32 k Hk) as Hk'.
  assert (forall z, in_i64 z = true -> in_i64 (Z.quot z 10000) = true) as Hq.
  { intros z Hz. destruct (quot_rem_10000 z) as (E & Hp & Hn2).
    pose proof (rem_small_bound z). clear Ha Hn Hk Hk'. int_lia. }
  assert (forall z, in_i64 z = true -> fixeddecimalint8 z = Ok (Z.quot z 10000)) as H8.
  { intros z Hz. unfold fixeddecimalint8, FIXEDDECIMAL_MULTIPLIER.
    rewrite i64_eqb, Hq, i64_id by auto. done. }
  repeat split; [..|by apply H8| |].
  - unfold int4fixeddecimal, fixeddecimalint4. cbn [rbind].
    rewrite scaled_in_i64, Z.quot_mul, i32_eqb, Hn, i32_id by done. done.
  - unfold int2fixeddecimal, fixeddecimalint2. cbn [rbind].
    rewrite scaled_in_i64, Z.quot_mul, i16_eqb, Hk, i16_id by done. done.
  - unfold int8_to_money, int8fixeddecimal_internal.
    rewrite (or_overflow_spec in_i64 Z.mul) by (done || apply pg_mul_s64_ok).
    unfold FIXEDDECIMAL_MULTIPLIER. destruct (in_i64 (a * 10000)) eqn:E; cbn; [|done].
    rewrite H8 by done. rewrite Z.quot_mul by done. done.
  - unfold fixeddecimalint4, FIXEDDECIMAL_MULTIPLIER. rewrite i32_eqb.
    destruct (in_i32 (Z.quot a 10000)) eqn:E; cbn [negb]; [by rewrite i32_id by done|done].
  - unfold fixeddecimalint2, FIXEDDECIMAL_MULTIPLIER. rewrite i16_eqb.
    destruct (in_i16 (Z.quot a 10000)) eqn:E; cbn [negb]; [by rewrite i16_id by done|done].
Qed.

End properties.

(** ** Concrete instances *)

Lemma additive_ops_exact_witness :
  fixeddecimalum INT64_MIN = Err fixeddecimal_out_of_range /\
  fixeddecimalpl INT64_MIN 5 = Ok (-9223372036854775803) /\
  fixeddecimalint4mi INT64_MIN (-3) = Ok (-9223372036854745808).
Proof.
  destruct (additive_ops_exact INT64_MIN 5 (-3) 2) as (H1 & H2 & _ & _ & H3 & _);
    [reflexivity..|].
  split; [exact H1|]. split; [exact H2|exact H3].
Defined.

Lemma bigint_additive_ops_witness :
  fixeddecimalint8pl (-10000) 922337203685478 = Err fixeddecimal_out_of_range /\
  int8fixeddecimalmi 922337203685478 1 = Err fixeddecimal_out_of_range.
Proof.
  destruct (bigint_additive_ops (-10000) 922337203685478) as (H1 & _ & _ & _);
    [reflexivity..|].
  destruct (bigint_additive_ops 1 922337203685478) as (_ & _ & _ & H2);
    [reflexivity..|].
  split; [exact H1|exact H2].
Defined.

Lemma integer_scaling_exact_witness :
  fixeddecimalint4mul 4611686018427387904 2 = Err fixeddecimal_out_of_range /\
  int2fixeddecimalmul (-2) 4611686018427387904 = Ok INT64_MIN.
Proof.
  destruct (integer_scaling_exact 4611686018427387904 1 2 (-2))
    as (_ & _ & H1 & _ & _ & H2); [reflexivity..|].
  split; [exact H1|exact H2].
Defined.

Lemma integer_division_truncates_witness :
  fixeddecimalint8div (-15000) 2 = Ok (-7500) /\
  fixeddecimalint4div INT64_MIN (-1) = Err fixeddecimal_out_of_range.
Proof.
  destruct (integer_division_truncates (-15000) 2) as (H1 & _ & _); [reflexivity..|].
  destruct (integer_division_truncates INT64_MIN (-1)) as (_ & H2 & _); [reflexivity..|].
  split; [exact H1|exact (H2 eq_refl)].
Defined.

Lemma fixeddecimalmul_rounds_witness :
  fixeddecimalmul (-15000) 10001 = Ok (-15002) /\ fixeddecimalmul 1 5000 = Ok 1.
Proof.
  split.
  - apply (fixeddecimalmul_rounds (-15000) 10001); [reflexivity..|right; lia].
  - apply (fixeddecimalmul_rounds 1 5000); [reflexivity..|left; lia].
Defined.

Lemma fixeddecimalmul_small_negative_witness :
  fixeddecimalmul (-1) 5000 = Ok 1 /\ round_half_away (-1 * 5000) 10000 = -1.
Proof. apply (fixeddecimalmul_small_negative (-1) 5000); [reflexivity..|lia]. Defined.

Lemma fixeddecimaldiv_truncates_witness :
  fixeddecimaldiv 20000 30000 = Ok 6666 /\ fixeddecimaldiv 1 0 = Err division_by_zero.
Proof.
  split.
  - exact (fixeddecimaldiv_truncates 20000 30000 eq_refl eq_refl).
  - exact (fixeddecimaldiv_truncates 1 0 eq_refl eq_refl).
Defined.

Lemma ceiling_floor_exact_witness :
  fixeddecimal_ceiling 12345 = Ok 20000 /\ fixeddecimal_floor (-12345) = Ok (-20000) /\
  fixeddecimal_ceiling INT64_MAX = Err fixeddecimal_out_of_range.
Proof.
  split; [apply (ceiling_floor_exact 12345); reflexivity|].
  split; [apply (ceiling_floor_exact (-12345)); reflexivity|].
  apply (ceiling_floor_exact INT64_MAX); reflexivity.
Defined.

Lemma integer_casts_witness :
  rbind (int4fixeddecimal (-7)) fixeddecimalint4 = Ok (-7) /\
  fixeddecimalint4 (-19999) = Ok (-1).
Proof.
  destruct (integer_casts (-19999) (-7) 3) as (H1 & _ & _ & _ & H2 & _); [reflexivity..|].
  split; [exact H1|exact H2].
Defined.
