(* ===== verification/FixedDecimalCmp.v ===== *)
(** * FixedDecimalCmp: comparison operators of the MONEY type

    Models the relational operators of [babelfishpg_money/fixeddecimal.c]: MONEY
    against MONEY, smallint, int and bigint in both argument orders (seven
    operators per pair), and the numeric comparisons on top of the server's
    [numeric_in] and [numeric_cmp].  Each pair of types is one [CmpFamily], the
    set of operators a btree operator class is made of; the laws are proved
    once against that interface. *)
From stdpp Require Import base list numbers strings.
From S2P Require Import Prelude FixedDecimal.

(** The three-way comparison every [*_cmp] function ends with. *)
Definition cmp3 (val1 val2 : Z) : Z :=
  if val1 =? val2 then 0 else if val1 <? val2 then -1 else 1.

(** ** MONEY against MONEY *)

Definition fixeddecimaleq (val1 val2 : Z) : bool := val1 =? val2.
Definition fixeddecimalne (val1 val2 : Z) : bool := negb (val1 =? val2).
Definition fixeddecimallt (val1 val2 : Z) : bool := val1 <? val2.
Definition fixeddecimalgt (val1 val2 : Z) : bool := val2 <? val1.
Definition fixeddecimalle (val1 val2 : Z) : bool := val1 <=? val2.
Definition fixeddecimalge (val1 val2 : Z) : bool := val2 <=? val1.
Definition fixeddecimal_cmp (val1 val2 : Z) : Z := cmp3 val1 val2.

(** ** MONEY against smallint: the integer operand is scaled *)

Definition fixeddecimal_int2_eq (val1 arg2 : Z) : bool :=
  let val2 := i64 (arg2 * FIXEDDECIMAL_MULTIPLIER) in val1 =? val2.
Definition fixeddecimal_int2_ne (val1 arg2 : Z) : bool :=
  let val2 := i64 (arg2 * FIXEDDECIMAL_MULTIPLIER) in negb (val1 =? val2).
Definition fixeddecimal_int2_lt (val1 arg2 : Z) : bool :=
  let val2 := i64 (arg2 * FIXEDDECIMAL_MULTIPLIER) in val1 <? val2.
Definition fixeddecimal_int2_gt (val1 arg2 : Z) : bool :=
  let val2 := i64 (arg2 * FIXEDDECIMAL_MULTIPLIER) in val2 <? val1.
Definition fixeddecimal_int2_le (val1 arg2 : Z) : bool :=
  let val2 := i64 (arg2 * FIXEDDECIMAL_MULTIPLIER) in val1 <=? val2.
Definition fixeddecimal_int2_ge (val1 arg2 : Z) : bool :=
  let val2 := i64 (arg2 * FIXEDDECIMAL_MULTIPLIER) in val2 <=? val1.
Definition fixeddecimal_int2_cmp (val1 arg2 : Z) : Z :=
  let val2 := i64 (arg2 * FIXEDDECIMAL_MULTIPLIER) in cmp3 val1 val2.

Definition int2_fixeddecimal_eq (arg1 val2 : Z) : bool :=
  let val1 := i64 (arg1 * FIXEDDECIMAL_MULTIPLIER) in val1 =? val2.
Definition int2_fixeddecimal_ne (arg1 val2 : Z) : bool :=
  let val1 := i64 (arg1 * FIXEDDECIMAL_MULTIPLIER) in negb (val1 =? val2).
Definition int2_fixeddecimal_lt (arg1 val2 : Z) : bool :=
  let val1 := i64 (arg1 * FIXEDDECIMAL_MULTIPLIER) in val1 <? val2.
Definition int2_fixeddecimal_gt (arg1 val2 : Z) : bool :=
  let val1 := i64 (arg1 * FIXEDDECIMAL_MULTIPLIER) in val2 <? val1.
Definition int2_fixeddecimal_le (arg1 val2 : Z) : bool :=
  let val1 := i64 (arg1 * FIXEDDECIMAL_MULTIPLIER) in val1 <=? val2.
Definition int2_fixeddecimal_ge (arg1 val2 : Z) : bool :=
  let val1 := i64 (arg1 * FIXEDDECIMAL_MULTIPLIER) in val2 <=? val1.
Definition int2_fixeddecimal_cmp (arg1 val2 : Z) : Z :=
  let val1 := i64 (arg1 * FIXEDDECIMAL_MULTIPLIER) in cmp3 val1 val2.

(** ** MONEY against int: the integer operand is scaled *)

Definition fixeddecimal_int4_eq (val1 arg2 : Z) : bool :=
  let val2 := i64 (arg2 * FIXEDDECIMAL_MULTIPLIER) in val1 =? val2.
Definition fixeddecimal_int4_ne (val1 arg2 : Z) : bool :=
  let val2 := i64 (arg2 * FIXEDDECIMAL_MULTIPLIER) in negb (val1 =? val2).
Definition fixeddecimal_int4_lt (val1 arg2 : Z) : bool :=
  let val2 := i64 (arg2 * FIXEDDECIMAL_MULTIPLIER) in val1 <? val2.
Definition fixeddecimal_int4_gt (val1 arg2 : Z) : bool :=
  let val2 := i64 (arg2 * FIXEDDECIMAL_MULTIPLIER) in val2 <? val1.
Definition fixeddecimal_int4_le (val1 arg2 : Z) : bool :=
  let val2 := i64 (arg2 * FIXEDDECIMAL_MULTIPLIER) in val1 <=? val2.
Definition fixeddecimal_int4_ge (val1 arg2 : Z) : bool :=
  let val2 := i64 (arg2 * FIXEDDECIMAL_MULTIPLIER) in val2 <=? val1.
Definition fixeddecimal_int4_cmp (val1 arg2 : Z) : Z :=
  let val2 := i64 (arg2 * FIXEDDECIMAL_MULTIPLIER) in cmp3 val1 val2.

Definition int4_fixeddecimal_eq (arg1 val2 : Z) : bool :=
  let val1 := i64 (arg1 * FIXEDDECIMAL_MULTIPLIER) in val1 =? val2.
Definition int4_fixeddecimal_ne (arg1 val2 : Z) : bool :=
  let val1 := i64 (arg1 * FIXEDDECIMAL_MULTIPLIER) in negb (val1 =? val2).
Definition int4_fixeddecimal_lt (arg1 val2 : Z) : bool :=
  let val1 := i64 (arg1 * FIXEDDECIMAL_MULTIPLIER) in val1 <? val2.
Definition int4_fixeddecimal_gt (arg1 val2 : Z) : bool :=
  let val1 := i64 (arg1 * FIXEDDECIMAL_MULTIPLIER) in val2 <? val1.
Definition int4_fixeddecimal_le (arg1 val2 : Z) : bool :=
  let val1 := i64 (arg1 * FIXEDDECIMAL_MULTIPLIER) in val1 <=? val2.
Definition int4_fixeddecimal_ge (arg1 val2 : Z) : bool :=
  let val1 := i64 (arg1 * FIXEDDECIMAL_MULTIPLIER) in val2 <=? val1.
Definition int4_fixeddecimal_cmp (arg1 val2 : Z) : Z :=
  let val1 := i64 (arg1 * FIXEDDECIMAL_MULTIPLIER) in cmp3 val1 val2.

(** ** MONEY against bigint: operands MONEY cannot reach are decided first *)

Definition fixeddecimal_int8_eq (val1 val2 : Z) : bool :=
  if FIXEDDECIMAL_MAX <? val2 then false
  else if val2 <? FIXEDDECIMAL_MIN then false
  else let val2 := i64 (val2 * FIXEDDECIMAL_MULTIPLIER) in val1 =? val2.
Definition fixeddecimal_int8_ne (val1 val2 : Z) : bool :=
  if FIXEDDECIMAL_MAX <? val2 then true
  else if val2 <? FIXEDDECIMAL_MIN then true
  else let val2 := i64 (val2 * FIXEDDECIMAL_MULTIPLIER) in negb (val1 =? val2).
Definition fixeddecimal_int8_lt (val1 val2 : Z) : bool :=
  if FIXEDDECIMAL_MAX <? val2 then true
  else if val2 <? FIXEDDECIMAL_MIN then false
  else let val2 := i64 (val2 * FIXEDDECIMAL_MULTIPLIER) in val1 <? val2.
Definition fixeddecimal_int8_gt (val1 val2 : Z) : bool :=
  if FIXEDDECIMAL_MAX <? val2 then false
  else if val2 <? FIXEDDECIMAL_MIN then true
  else let val2 := i64 (val2 * FIXEDDECIMAL_MULTIPLIER) in val2 <? val1.
Definition fixeddecimal_int8_le (val1 val2 : Z) : bool :=
  if FIXEDDECIMAL_MAX <? val2 then true
  else if val2 <? FIXEDDECIMAL_MIN then false
  else let val2 := i64 (val2 * FIXEDDECIMAL_MULTIPLIER) in val1 <=? val2.
Definition fixeddecimal_int8_ge (val1 val2 : Z) : bool :=
  if FIXEDDECIMAL_MAX <? val2 then false
  else if val2 <? FIXEDDECIMAL_MIN then true
  else let val2 := i64 (val2 * FIXEDDECIMAL_MULTIPLIER) in val2 <=? val1.
Definition fixeddecimal_int8_cmp (val1 val2 : Z) : Z :=
  if FIXEDDECIMAL_MAX <? val2 then -1
  else if val2 <? FIXEDDECIMAL_MIN then 1
  else let val2 := i64 (val2 * FIXEDDECIMAL_MULTIPLIER) in cmp3 val1 val2.

Definition int8_fixeddecimal_eq (val1 val2 : Z) : bool :=
  if FIXEDDECIMAL_MAX <? val1 then false
  else if val1 <? FIXEDDECIMAL_MIN then false
  else let val1 := i64 (val1 * FIXEDDECIMAL_MULTIPLIER) in val1 =? val2.
Definition int8_fixeddecimal_ne (val1 val2 : Z) : bool :=
  if FIXEDDECIMAL_MAX <? val1 then true
  else if val1 <? FIXEDDECIMAL_MIN then true
  else let val1 := i64 (val1 * FIXEDDECIMAL_MULTIPLIER) in negb (val1 =? val2).
Definition int8_fixeddecimal_lt (val1 val2 : Z) : bool :=
  if FIXEDDECIMAL_MAX <? val1 then false
  else if val1 <? FIXEDDECIMAL_MIN then true
  else let val1 := i64 (val1 * FIXEDDECIMAL_MULTIPLIER) in val1 <? val2.
Definition int8_fixeddecimal_gt (val1 val2 : Z) : bool :=
  if FIXEDDECIMAL_MAX <? val1 then true
  else if val1 <? FIXEDDECIMAL_MIN then false
  else let val1 := i64 (val1 * FIXEDDECIMAL_MULTIPLIER) in val2 <? val1.
Definition int8_fixeddecimal_le (val1 val2 : Z) : bool :=
  if FIXEDDECIMAL_MAX <? val1 then false
  else if val1 <? FIXEDDECIMAL_MIN then true
  else let val1 := i64 (val1 * FIXEDDECIMAL_MULTIPLIER) in val1 <=? val2.
Definition int8_fixeddecimal_ge (val1 val2 : Z) : bool :=
  if FIXEDDECIMAL_MAX <? val1 then true
  else if val1 <? FIXEDDECIMAL_MIN then false
  else let val1 := i64 (val1 * FIXEDDECIMAL_MULTIPLIER) in val2 <=? val1.
Definition int8_fixeddecimal_cmp (val1 val2 : Z) : Z :=
  if FIXEDDECIMAL_MAX <? val1 then 1
  else if val1 <? FIXEDDECIMAL_MIN then -1
  else let val1 := i64 (val1 * FIXEDDECIMAL_MULTIPLIER) in cmp3 val1 val2.

(** ** Operator families *)

Record CmpFamily := {
  c_eq : Z -> Z -> bool;
  c_ne : Z -> Z -> bool;
  c_lt : Z -> Z -> bool;
  c_gt : Z -> Z -> bool;
  c_le : Z -> Z -> bool;
  c_ge : Z -> Z -> bool;
  c_cmp : Z -> Z -> Z;
}.

(** A type an operator family ranges over: which [Z]s are its values, and the
    amount each stands for, in ten-thousandths. *)
Record CmpType := {
  t_dom : Z -> bool;
  t_val : Z -> Z;
}.

Definition t_money : CmpType := {| t_dom := in_i64; t_val := fun z => z |}.
Definition t_int2 : CmpType := {| t_dom := in_i16; t_val := fun z => z * 10000 |}.
Definition t_int4 : CmpType := {| t_dom := in_i32; t_val := fun z => z * 10000 |}.
Definition t_int8 : CmpType := {| t_dom := in_i64; t_val := fun z => z * 10000 |}.

(** What the planner relies on: the seven operators are the order of the
    amounts. *)
Class FamilyOk (S T : CmpType) (F : CmpFamily) : Prop := {
  family_cmp : forall a b, t_dom S a = true -> t_dom T b = true ->
    c_cmp F a b = cmp3 (t_val S a) (t_val T b);
  family_ops : forall a b, t_dom S a = true -> t_dom T b = true ->
    c_eq F a b = (t_val S a =? t_val T b) /\
    c_ne F a b = negb (t_val S a =? t_val T b) /\
    c_lt F a b = (t_val S a <? t_val T b) /\
    c_gt F a b = (t_val T b <? t_val S a) /\
    c_le F a b = (t_val S a <=? t_val T b) /\
    c_ge F a b = (t_val T b <=? t_val S a);
}.

Definition money_money : CmpFamily := {|
  c_eq := fixeddecimaleq; c_ne := fixeddecimalne; c_lt := fixeddecimallt;
  c_gt := fixeddecimalgt; c_le := fixeddecimalle; c_ge := fixeddecimalge;
  c_cmp := fixeddecimal_cmp |}.
Definition money_int2 : CmpFamily := {|
  c_eq := fixeddecimal_int2_eq; c_ne := fixeddecimal_int2_ne; c_lt := fixeddecimal_int2_lt;
  c_gt := fixeddecimal_int2_gt; c_le := fixeddecimal_int2_le; c_ge := fixeddecimal_int2_ge;
  c_cmp := fixeddecimal_int2_cmp |}.
Definition int2_money : CmpFamily := {|
  c_eq := int2_fixeddecimal_eq; c_ne := int2_fixeddecimal_ne; c_lt := int2_fixeddecimal_lt;
  c_gt := int2_fixeddecimal_gt; c_le := int2_fixeddecimal_le; c_ge := int2_fixeddecimal_ge;
  c_cmp := int2_fixeddecimal_cmp |}.
Definition money_int4 : CmpFamily := {|
  c_eq := fixeddecimal_int4_eq; c_ne := fixeddecimal_int4_ne; c_lt := fixeddecimal_int4_lt;
  c_gt := fixeddecimal_int4_gt; c_le := fixeddecimal_int4_le; c_ge := fixeddecimal_int4_ge;
  c_cmp := fixeddecimal_int4_cmp |}.
Definition int4_money : CmpFamily := {|
  c_eq := int4_fixeddecimal_eq; c_ne := int4_fixeddecimal_ne; c_lt := int4_fixeddecimal_lt;
  c_gt := int4_fixeddecimal_gt; c_le := int4_fixeddecimal_le; c_ge := int4_fixeddecimal_ge;
  c_cmp := int4_fixeddecimal_cmp |}.
Definition money_int8 : CmpFamily := {|
  c_eq := fixeddecimal_int8_eq; c_ne := fixeddecimal_int8_ne; c_lt := fixeddecimal_int8_lt;
  c_gt := fixeddecimal_int8_gt; c_le := fixeddecimal_int8_le; c_ge := fixeddecimal_int8_ge;
  c_cmp := fixeddecimal_int8_cmp |}.
Definition int8_money : CmpFamily := {|
  c_eq := int8_fixeddecimal_eq; c_ne := int8_fixeddecimal_ne; c_lt := int8_fixeddecimal_lt;
  c_gt := int8_fixeddecimal_gt; c_le := int8_fixeddecimal_le; c_ge := int8_fixeddecimal_ge;
  c_cmp := int8_fixeddecimal_cmp |}.

Create HintDb money_cmp.
#[export] Hint Unfold
  fixeddecimal_int2_eq fixeddecimal_int2_ne fixeddecimal_int2_lt fixeddecimal_int2_gt
  fixeddecimal_int2_le fixeddecimal_int2_ge fixeddecimal_int2_cmp int2_fixeddecimal_eq
  int2_fixeddecimal_ne int2_fixeddecimal_lt int2_fixeddecimal_gt int2_fixeddecimal_le
  int2_fixeddecimal_ge int2_fixeddecimal_cmp fixeddecimal_int4_eq fixeddecimal_int4_ne
  fixeddecimal_int4_lt fixeddecimal_int4_gt fixeddecimal_int4_le fixeddecimal_int4_ge
  fixeddecimal_int4_cmp int4_fixeddecimal_eq int4_fixeddecimal_ne int4_fixeddecimal_lt
  int4_fixeddecimal_gt int4_fixeddecimal_le int4_fixeddecimal_ge int4_fixeddecimal_cmp
  fixeddecimal_int8_eq fixeddecimal_int8_ne fixeddecimal_int8_lt fixeddecimal_int8_gt
  fixeddecimal_int8_le fixeddecimal_int8_ge fixeddecimal_int8_cmp int8_fixeddecimal_eq
  int8_fixeddecimal_ne int8_fixeddecimal_lt int8_fixeddecimal_gt int8_fixeddecimal_le
  int8_fixeddecimal_ge int8_fixeddecimal_cmp : money_cmp.

(** ** Every family decides the order of the amounts *)

Lemma bigint_bounds n :
  in_i64 n = true ->
  ((FIXEDDECIMAL_MAX <? n) = true -> forall v, in_i64 v = true -> v < n * 10000) /\
  ((n <? FIXEDDECIMAL_MIN) = true -> forall v, in_i64 v = true -> n * 10000 < v) /\
  ((FIXEDDECIMAL_MAX <? n) = false -> (n <? FIXEDDECIMAL_MIN) = false ->
   i64 (n * FIXEDDECIMAL_MULTIPLIER) = n * 10000).
Proof.
  change FIXEDDECIMAL_MAX with 922337203685477. change FIXEDDECIMAL_MIN with (-922337203685477).
  unfold FIXEDDECIMAL_MULTIPLIER. intros Hn.
  split; [|split]; intros; [int_lia|int_lia|]. apply i64_id. int_lia.
Qed.

Lemma cmp3_spec a b :
  (cmp3 a b = 0 <-> a = b) /\ (cmp3 a b = -1 <-> a < b) /\ (cmp3 a b = 1 <-> b < a).
Proof. unfold cmp3. repeat case_match; lia. Qed.

Lemma cmp3_lt a b : a < b -> cmp3 a b = -1.
Proof. apply cmp3_spec. Qed.
Lemma cmp3_gt a b : b < a -> cmp3 a b = 1.
Proof. apply cmp3_spec. Qed.

#[export] Instance money_money_ok : FamilyOk t_money t_money money_money.
Proof. by split. Qed.

Ltac scaled_family :=
  split; intros a b Ha Hb; cbn in Ha, Hb |- *; repeat split;
  autounfold with money_cmp; cbv zeta;
  rewrite ?scaled_in_i64 by auto using in_i16_i32; done.

#[export] Instance money_int2_ok : FamilyOk t_money t_int2 money_int2.
Proof. scaled_family. Qed.
#[export] Instance int2_money_ok : FamilyOk t_int2 t_money int2_money.
Proof. scaled_family. Qed.
#[export] Instance money_int4_ok : FamilyOk t_money t_int4 money_int4.
Proof. scaled_family. Qed.
#[export] Instance int4_money_ok : FamilyOk t_int4 t_money int4_money.
Proof. scaled_family. Qed.

(** A bigint outside the range of MONEY is decided by the early returns, any
    other one after an exact scaling. *)
Ltac bigint_family n :=
  destruct (bigint_bounds n) as (Hhi & Hlo & Hmid); [done|];
  autounfold with money_cmp;
  destruct (FIXEDDECIMAL_MAX <? n) eqn:E1;
  [specialize (Hhi eq_refl); rewrite ?cmp3_lt, ?cmp3_gt by auto
  |destruct (n <? FIXEDDECIMAL_MIN) eqn:E2;
   [specialize (Hlo eq_refl); rewrite ?cmp3_lt, ?cmp3_gt by auto
   |rewrite Hmid by done]].

#[export] Instance money_int8_ok : FamilyOk t_money t_int8 money_int8.
Proof.
  split; intros a b Ha Hb; cbn in Ha, Hb |- *.
  - bigint_family b; done.
  - bigint_family b; try specialize (Hhi a Ha); try specialize (Hlo a Ha);
      repeat split; lia.
Qed.

#[export] Instance int8_money_ok : FamilyOk t_int8 t_money int8_money.
Proof.
  split; intros a b Ha Hb; cbn in Ha, Hb |- *.
  - bigint_family a; done.
  - bigint_family a; try specialize (Hhi b Hb); try specialize (Hlo b Hb);
      repeat split; lia.
Qed.

(** ** Laws the operator classes need, from the interface alone *)

Section families.
Context {R S T : CmpType} {F : CmpFamily} {G : CmpFamily} {H : CmpFamily}.
Context {FOk : FamilyOk R S F} {GOk : FamilyOk S T G} {HOk : FamilyOk R T H}.

(** Transitivity across three types: what lets the planner derive [a < c]
    from [a < b] and [b < c] inside one operator family. *)
Lemma family_trans a b c :
  t_dom R a = true -> t_dom S b = true -> t_dom T c = true ->
  c_le F a b = true -> c_lt G b c = true -> c_lt H a c = true.
Proof.
  intros Ha Hb Hc.
  destruct (family_ops (F := F) a b Ha Hb) as (_ & _ & _ & _ & -> & _).
  destruct (family_ops (F := G) b c Hb Hc) as (_ & _ & -> & _ & _ & _).
  destruct (family_ops (F := H) a c Ha Hc) as (_ & _ & -> & _ & _ & _). lia.
Qed.

(** The boolean operators are the signs of the support function. *)
Lemma family_cmp_signs a b :
  t_dom R a = true -> t_dom S b = true ->
  c_eq F a b = (c_cmp F a b =? 0) /\ c_lt F a b = (c_cmp F a b <? 0) /\
  c_gt F a b = (0 <? c_cmp F a b) /\ c_le F a b = (c_cmp F a b <=? 0) /\
  c_ge F a b = (0 <=? c_cmp F a b) /\ c_ne F a b = negb (c_cmp F a b =? 0).
Proof.
  intros Ha Hb. rewrite (family_cmp (F := F)) by done.
  destruct (family_ops (F := F) a b Ha Hb) as (-> & -> & -> & -> & -> & ->).
  unfold cmp3. repeat split; repeat case_match; lia.
Qed.
End families.

(** ** Properties *)

(** All 49 comparison operators (MONEY with MONEY, smallint, int and bigint
    in both orders) compare the exact amounts, including bigints whose scaled
    value does not fit in an int64, which the early returns decide. *)
Theorem comparison_families_ok :
  FamilyOk t_money t_money money_money /\
  FamilyOk t_money t_int2 money_int2 /\ FamilyOk t_int2 t_money int2_money /\
  FamilyOk t_money t_int4 money_int4 /\ FamilyOk t_int4 t_money int4_money /\
  FamilyOk t_money t_int8 money_int8 /\ FamilyOk t_int8 t_money int8_money.
Proof. split_and!; apply _. Qed.

(** The mixed operators form one order: commuted operators agree, and a
    chain bigint <= MONEY < int orders the two integers even when the bigint is
    outside the range of MONEY. *)
Theorem mixed_comparisons_consistent n m k :
  in_i64 n = true -> in_i64 m = true -> in_i32 k = true ->
  int8_fixeddecimal_lt n m = fixeddecimal_int8_gt m n /\
  int8_fixeddecimal_le n m = fixeddecimal_int8_ge m n /\
  int8_fixeddecimal_eq n m = fixeddecimal_int8_eq m n /\
  int8_fixeddecimal_cmp n m = - fixeddecimal_int8_cmp m n /\
  (int8_fixeddecimal_le n m = true -> fixeddecimal_int4_lt m k = true -> n < k).
Proof.
  intros Hn Hm Hk.
  destruct (family_ops (S := t_int8) (T := t_money) (F := int8_money) n m Hn Hm)
    as (E1 & _ & E2 & _ & E3 & _).
  destruct (family_ops (S := t_money) (T := t_int8) (F := money_int8) m n Hm Hn)
    as (E4 & _ & _ & E5 & _ & E6).
  destruct (family_ops (S := t_money) (T := t_int4) (F := money_int4) m k Hm Hk) as (_ & _ & E7 & _).
  pose proof (family_cmp (S := t_int8) (T := t_money) (F := int8_money) n m Hn Hm) as E8.
  pose proof (family_cmp (S := t_money) (T := t_int8) (F := money_int8) m n Hm Hn) as E9.
  cbn in E1, E2, E3, E4, E5, E6, E7, E8, E9.
  rewrite E1, E2, E3, E4, E5, E6, E7, E8, E9. unfold cmp3.
  repeat split; repeat case_match; lia.
Qed.

Lemma mixed_comparisons_consistent_witness :
  int8_fixeddecimal_lt 9223372036854775807 5 = fixeddecimal_int8_gt 5 9223372036854775807 /\
  -9223372036854775808 < 1.
Proof.
  destruct (mixed_comparisons_consistent 9223372036854775807 5 1) as (H & _);
    [reflexivity..|].
  split; [exact H|].
  apply (mixed_comparisons_consistent (-9223372036854775808) (-20000) 1); reflexivity.
Defined.
