(* ===== verification/FixedDecimalText.v ===== *)
(** * FixedDecimalText: printing and parsing MONEY values

    Models the formatting half of [babelfishpg_money/fixeddecimal.c]:
    [pg_int64tostr], [pg_int64tostr_zeropad], [fixeddecimal2str], the parser
    [scanfixeddecimal] with its currency symbols, signs, thousand separators,
    rounding and overflow checks, the type modifier functions, the input and
    output functions, and the numeric conversions and comparisons built on them.
    A string is the list of its bytes; a C pointer into a string is the list of
    the bytes from there on, so [*ptr] is [hd0]. *)
From stdpp Require Import base list numbers strings.
From S2P Require Import Prelude FixedDecimal.

(** ** Printing *)

(** The do-while loop of [pg_int64tostr]: least significant digit first.  An
    int64 has at most 19 digits, so 20 rounds are never exhausted
    ([digit_loop_spec]). *)
Fixpoint digit_loop (fuel : nat) (neg : bool) (value : Z) : list Z :=
  match fuel with
  | O => []
  | S fuel' =>
      let oldval := value in
      let value := Z.quot value 10 in
      let remainder := i64 (oldval - i64 (value * 10)) in
      (if neg then 48 + - remainder else 48 + remainder) ::
        (if value =? 0 then [] else digit_loop fuel' neg value)
  end.

(** [while (start < str) { swap = *start; *start++ = *str; *str-- = swap; }] *)
Fixpoint reverse_loop (fuel : nat) (start str : nat) (buf : list Z) : list Z :=
  match fuel with
  | O => buf
  | S fuel' =>
      if Nat.ltb start str then
        let swap := buf !!! start in
        reverse_loop fuel' (S start) (str - 1) (<[str := swap]> (<[start := buf !!! str]> buf))
      else buf
  end.

Definition pg_int64tostr (value : Z) : list Z :=
  let sign := if value <? 0 then [45] else [] in
  let buf := sign ++ digit_loop 20 (value <? 0) value in
  reverse_loop (length buf) (length sign) (length buf - 1) buf.

(** [while (padding--) { ... start[padding] = ...; }]: filled from the end. *)
Fixpoint zeropad_loop (padding : nat) (neg : bool) (num : Z) (written : list Z) : Z * list Z :=
  match padding with
  | O => (num, written)
  | S padding' =>
      let oldval := num in
      let num := Z.quot num 10 in
      let remainder := i64 (oldval - i64 (num * 10)) in
      zeropad_loop padding' neg num
        ((if neg then 48 + - remainder else 48 + remainder) :: written)
  end.

Definition pg_int64tostr_zeropad (value : Z) (padding : nat) : list Z :=
  let '(num, text) :=
    if value <? 0 then
      let '(num, ds) := zeropad_loop (padding - 1) true value [] in (num, 45 :: ds)
    else zeropad_loop padding false value [] in
  if negb (num =? 0) then pg_int64tostr value else text.

Definition fixeddecimal2str (val : Z) (fixeddecimal_multiplier fixeddecimal_scale : Z) : list Z :=
  let val :=
    if fixeddecimal_scale <? 4 then
      let scale_factor := Z.quot FIXEDDECIMAL_MULTIPLIER (fixeddecimal_multiplier * 10) in
      let last_digit := Z.rem (c_abs (Z.quot val scale_factor)) 10 in
      let val := Z.quot val fixeddecimal_multiplier in
      if 5 <=? last_digit then (if 0 <=? val then i64 (val + 1) else i64 (val - 1)) else val
    else val in
  let integralpart := Z.quot val fixeddecimal_multiplier in
  let fractionalpart := Z.rem val fixeddecimal_multiplier in
  let fractionalpart := if val <? 0 then i64 (- fractionalpart) else fractionalpart in
  let prefix := if (val <? 0) && (integralpart =? 0) then [45] else [] in
  prefix ++ pg_int64tostr integralpart ++ [46] ++
    pg_int64tostr_zeropad fractionalpart (Z.to_nat fixeddecimal_scale).

Definition fixeddecimalout (val : Z) : list Z :=
  fixeddecimal2str val FIXEDDECIMAL_MULTIPLIER FIXEDDECIMAL_SCALE.

(** ** Parsing *)

Definition valid_currency_symbols : list (list Z) := [
  [0x24];                (* dollar *)
  [0xC2; 0xA2];          (* cent *)
  [0xC2; 0xA4];          (* currency *)
  [0xC2; 0xA3];          (* pound *)
  [0xC2; 0xA5];          (* yen *)
  [0xE0; 0xA7; 0xB2];    (* bengali_rupee_mark *)
  [0xE0; 0xA7; 0xB3];    (* bengali_rupee_sign *)
  [0xE0; 0xB8; 0xBF];    (* thai_baht *)
  [0xE1; 0x9F; 0x9B];    (* khmer_riel *)
  [0xE2; 0x82; 0xA0];    (* euro_currency *)
  [0xE2; 0x82; 0xA1];    (* colon_sign *)
  [0xE2; 0x82; 0xA2];    (* cruzeiro *)
  [0xE2; 0x82; 0xA3];    (* franc *)
  [0xE2; 0x82; 0xA4];    (* lira *)
  [0xE2; 0x82; 0xA5];    (* mill *)
  [0xE2; 0x82; 0xA6];    (* naira *)
  [0xE2; 0x82; 0xA7];    (* peseta *)
  [0xE2; 0x82; 0xA8];    (* rupee *)
  [0xE2; 0x82; 0xA9];    (* won *)
  [0xE2; 0x82; 0xAA];    (* new_sheqel *)
  [0xE2; 0x82; 0xAB];    (* dong *)
  [0xE2; 0x82; 0xAC];    (* euro *)
  [0xE2; 0x82; 0xAD];    (* kip *)
  [0xE2; 0x82; 0xAE];    (* tugrik *)
  [0xE2; 0x82; 0xAF];    (* drachma *)
  [0xE2; 0x82; 0xB0];    (* german_penny *)
  [0xE2; 0x82; 0xB1];    (* peso *)
  [0xEF; 0xB7; 0xBC];    (* rial *)
  [0xEF; 0xB9; 0xA9];    (* small_dollar *)
  [0xEF; 0xBC; 0x84];    (* fullwidth_dollar *)
  [0xEF; 0xBF; 0xA0];    (* fullwidth_cent *)
  [0xEF; 0xBF; 0xA1];    (* fullwidth_pound *)
  [0xEF; 0xBF; 0xA5];    (* fullwidth_yen *)
  [0xEF; 0xBF; 0xA6]     (* fullwidth_won *)
].

(** [strncmp(ptr, symbol, strlen(symbol)) == 0] *)
Fixpoint starts_with (symbol ptr : list Z) : bool :=
  match symbol, ptr with
  | [], _ => true
  | c :: symbol', d :: ptr' => (c =? d) && starts_with symbol' ptr'
  | _ :: _, [] => false
  end.

(** The length of the first listed symbol the text starts with, else 0. *)
Definition is_valid_currency_symbol (ptr : list Z) : nat :=
  match List.find (fun symbol => starts_with symbol ptr) valid_currency_symbols with
  | Some symbol => length symbol
  | None => 0
  end.

Fixpoint skip_money_spaces (ptr : list Z) : list Z :=
  match ptr with
  | [] => []
  | c :: ptr1 =>
      if isspace c || (c =? 0xA0) then skip_money_spaces ptr1
      else match ptr1 with
           | d :: ptr2 => if (c =? 0xC2) && (d =? 0xA0) then skip_money_spaces ptr2 else ptr
           | [] => ptr
           end
  end.

(** The loop over the [n] skipped leading bytes that looks for an NBSP. *)
Fixpoint has_nbsp (n : nat) (check : list Z) : bool :=
  match n, check with
  | S n', c :: rest =>
      (c =? 0xA0) || ((c =? 0xC2) && (hd0 rest =? 0xA0)) || has_nbsp n' rest
  | _, _ => false
  end.

(** The digits of the integral part with their thousand separators:
    the loop "skip commas, then while at a digit: take it and skip commas"
    accepts any mix of digits and commas; every digit is accumulated with the
    sign of the number and checked by dividing back. *)
Fixpoint scan_integral (str : list Z) (negative : bool) (ptr : list Z)
    (integralpart vprecision : Z) : result money_error (list Z * Z * Z) :=
  match ptr with
  | [] => Ok ([], integralpart, vprecision)
  | c :: ptr' =>
      if c =? 44 then scan_integral str negative ptr' integralpart vprecision
      else if isdigit c then
        let tmp := if negative then i64 (i64 (integralpart * 10) - (c - 48))
                   else i64 (i64 (integralpart * 10) + (c - 48)) in
        if negb (Z.quot tmp 10 =? integralpart) then Err (value_out_of_range str)
        else scan_integral str negative ptr' tmp (vprecision + 1)
      else Ok (ptr, integralpart, vprecision)
  end.

(** Fraction digits, while there is a decimal place left to fill. *)
Fixpoint scan_fraction (ptr : list Z) (multiplier fractionalpart vscale : Z) : list Z * Z * Z :=
  match ptr with
  | [] => ([], fractionalpart, vscale)
  | c :: ptr' =>
      if c =? 44 then scan_fraction ptr' multiplier fractionalpart vscale
      else if isdigit c && (1 <? multiplier) then
        let multiplier := Z.quot multiplier 10 in
        scan_fraction ptr' multiplier (i64 (fractionalpart + (c - 48) * multiplier)) (vscale + 1)
      else (ptr, fractionalpart, vscale)
  end.

(** Excess digits are skipped and only counted. *)
Fixpoint scan_excess (ptr : list Z) (vscale : Z) : list Z * Z :=
  match ptr with
  | [] => ([], vscale)
  | c :: ptr' =>
      if c =? 44 then scan_excess ptr' vscale
      else if isdigit c then scan_excess ptr' (vscale + 1)
      else (ptr, vscale)
  end.

(** The part after the decimal point: four places, then one rounding digit. *)
Definition scan_decimals (ptr : list Z) : list Z * Z * Z :=
  let '(ptr, fractionalpart, vscale) := scan_fraction ptr FIXEDDECIMAL_MULTIPLIER 0 0 in
  let '(ptr, fractionalpart, vscale) :=
    if isdigit (hd0 ptr) && (53 <=? hd0 ptr)
    then (tail ptr, i64 (fractionalpart + 1), vscale + 1)
    else (ptr, fractionalpart, vscale) in
  let '(ptr, vscale) := scan_excess ptr vscale in
  (ptr, fractionalpart, vscale).

(** The final combination of the two parts, with its sign-based checks. *)
Definition combine_parts (str : list Z) (negative : bool) (integralpart fractionalpart : Z)
    : money_result :=
  let value := i64 (integralpart * FIXEDDECIMAL_MULTIPLIER) in
  if negative then
    if negb (value =? 0) &&
       (negb (SAMESIGN value integralpart) ||
        negb (SAMESIGN (i64 (value - fractionalpart)) value) ||
        negb (SAMESIGN (i64 (value - fractionalpart)) value))
    then Err (value_out_of_range str)
    else Ok (i64 (value - fractionalpart))
  else
    if negb (value =? 0) &&
       (negb (SAMESIGN value integralpart) ||
        negb (SAMESIGN (i64 (value - fractionalpart)) value) ||
        negb (SAMESIGN (i64 (value + fractionalpart)) value))
    then Err (value_out_of_range str)
    else Ok (i64 (value + fractionalpart)).

(** From the first digit on: whole part, fraction, trailing blanks, result
    ([value], [*precision], [*scale]). *)
Definition scan_number (str : list Z) (negative : bool) (ptr : list Z)
    : result money_error (Z * Z * Z) :=
  let! (ptr, integralpart, vprecision) := scan_integral str negative ptr 0 0 in
  let '(ptr, fractionalpart, vscale) :=
    if hd0 ptr =? 46 then scan_decimals (tail ptr) else (ptr, 0, 0) in
  let ptr := skip_money_spaces ptr in
  if negb (hd0 ptr =? 0) then Err (value_out_of_range str)
  else
  let! value := combine_parts str negative integralpart fractionalpart in
  Ok (value, vprecision, vscale).

(** After the currency symbol: second sign position, rejection of other bytes. *)
Definition scan_signed (str : list Z) (has_seen_sign negative : bool) (ptr : list Z)
    : result money_error (Z * Z * Z) :=
  let ptr := skip_money_spaces ptr in
  if negb (isdigit (hd0 ptr)) && negb (hd0 ptr =? 46) && negb (hd0 ptr =? 45) &&
     negb (hd0 ptr =? 44) && negb (hd0 ptr =? 43) && negb (hd0 ptr =? 0)
  then Err (invalid_characters str)
  else if hd0 ptr =? 45 then
    if has_seen_sign then Err (invalid_characters str)
    else scan_number str true (skip_money_spaces (tail ptr))
  else
    let negative := if negb has_seen_sign then false else negative in
    if hd0 ptr =? 43 then
      if has_seen_sign then Err (invalid_characters str)
      else scan_number str negative (skip_money_spaces (tail ptr))
    else scan_number str negative (skip_money_spaces ptr).

(** After the first sign position: blanks and the currency symbol. *)
Definition scan_priced (str : list Z) (has_seen_sign negative : bool) (ptr : list Z)
    : result money_error (Z * Z * Z) :=
  let ptr := skip_money_spaces ptr in
  let currency_symbol_len := is_valid_currency_symbol ptr in
  let ptr :=
    if Nat.ltb 0 currency_symbol_len then drop currency_symbol_len ptr
    else if hd0 ptr =? 92 then tail ptr
    else ptr in
  scan_signed str has_seen_sign negative ptr.

Definition scanfixeddecimal (str : list Z) : result money_error (Z * Z * Z) :=
  let ptr := skip_money_spaces str in
  if negb (Nat.eqb (length ptr) (length str)) && negb (hd0 ptr =? 0) &&
     has_nbsp (length str - length ptr) str
  then Err (invalid_characters str)
  else if hd0 ptr =? 45 then scan_priced str true true (tail ptr)
  else if hd0 ptr =? 43 then scan_priced str true false (tail ptr)
  else scan_priced str false false ptr.

(** ** Type modifiers, input functions and the length-coercion cast *)

Definition VARHDRSZ : Z := 4.

Definition apply_typmod (typmod precision scale : Z) : result money_error unit :=
  if typmod <? VARHDRSZ then Ok tt
  else
    let typmod := typmod - VARHDRSZ in
    let precisionlimit := Z.land (Z.shiftr typmod 16) 0xffff in
    let scalelimit := Z.land typmod 0xffff in
    let maxdigits := precisionlimit - scalelimit in
    if (scalelimit <? scale) && negb (scale =? FIXEDDECIMAL_SCALE)
    then Err (scale_must_be FIXEDDECIMAL_SCALE)
    else if maxdigits <? precision then Err (field_overflow precision scale maxdigits)
    else Ok tt.

Definition fixeddecimaltypmodin (tl : list Z) : money_result :=
  match tl with
  | [tl0; tl1] =>
      if (tl0 <? FIXEDDECIMAL_SCALE) || (FIXEDDECIMAL_MAX_PRECISION <? tl0)
      then Err (precision_must_be_between tl0 FIXEDDECIMAL_SCALE FIXEDDECIMAL_MAX_PRECISION)
      else if negb (tl1 =? FIXEDDECIMAL_SCALE) then Err (scale_must_be FIXEDDECIMAL_SCALE)
      else Ok (i32 (Z.lor (i32 (Z.shiftl tl0 16)) tl1 + VARHDRSZ))
  | [tl0] =>
      let val_precision := Z.land (Z.shiftr (i32 (tl0 - VARHDRSZ)) 16) 0xffff in
      let val_scale := Z.land (i32 (tl0 - VARHDRSZ)) 0xffff in
      if (val_precision <? FIXEDDECIMAL_SCALE) || (FIXEDDECIMAL_MAX_PRECISION <? val_precision)
      then Err (precision_must_be_between val_precision FIXEDDECIMAL_SCALE
                  FIXEDDECIMAL_MAX_PRECISION)
      else if negb (val_scale =? FIXEDDECIMAL_SCALE) then Err (scale_must_be FIXEDDECIMAL_SCALE)
      else Ok (i32 (Z.lor (i32 (Z.shiftl val_precision 16)) val_scale + VARHDRSZ))
  | _ => Err invalid_type_modifier
  end.

Definition fixeddecimalin (str : list Z) (typmod : Z) : money_result :=
  let! (value, precision, scale) := scanfixeddecimal str in
  let! _ := apply_typmod typmod precision scale in
  Ok value.

Definition char_to_fixeddecimal (str : list Z) : money_result :=
  let! (value, _, _) := scanfixeddecimal str in Ok value.

(** The cast MONEY -> MONEY(p,s): it only checks that the text form fits. *)
Definition fixeddecimal (num typmod : Z) : money_result :=
  if negb (typmod =? -1) then
    let! _ := fixeddecimalin (fixeddecimalout num) typmod in Ok num
  else Ok num.

(** ** Decimal texts *)

(** The number a text of digits stands for. *)
Definition dval (ds : list Z) : Z := foldl (fun acc c => acc * 10 + (c - 48)) 0 ds.

(** The canonical decimal notation of [n]: digits only, no leading zero. *)
Definition decimal_of (n : Z) (ds : list Z) : Prop :=
  Forall (fun c => isdigit c = true) ds /\ dval ds = n /\
  (hd0 ds = 48 -> ds = [48]) /\ ds <> [].

Lemma isdigit_iff c : isdigit c = true <-> 48 <= c <= 57.
Proof. unfold isdigit. lia. Qed.

Lemma dval_snoc ds c : dval (ds ++ [c]) = dval ds * 10 + (c - 48).
Proof. unfold dval. by rewrite foldl_app. Qed.

Lemma foldl_dval acc ds :
  foldl (fun acc c => acc * 10 + (c - 48)) acc ds = acc * 10 ^ Z.of_nat (length ds) + dval ds.
Proof.
  induction ds as [|c ds IH] using rev_ind; [cbn; lia|].
  rewrite foldl_app, dval_snoc, length_app, Nat2Z.inj_add, Z.pow_add_r by lia.
  cbn [foldl length]. rewrite IH. change (10 ^ Z.of_nat 1) with 10. lia.
Qed.

Lemma dval_app ds es : dval (ds ++ es) = dval ds * 10 ^ Z.of_nat (length es) + dval es.
Proof. unfold dval at 1. rewrite foldl_app. apply foldl_dval. Qed.

Lemma dval_cons c ds : dval (c :: ds) = (c - 48) * 10 ^ Z.of_nat (length ds) + dval ds.
Proof. change (c :: ds) with ([c] ++ ds). rewrite dval_app. cbn. lia. Qed.

Lemma dval_bound ds :
  Forall (fun c => isdigit c = true) ds -> 0 <= dval ds < 10 ^ Z.of_nat (length ds).
Proof.
  induction ds as [|c ds IH]; [cbn; lia|]. rewrite Forall_cons, isdigit_iff.
  intros [Hc Hds]. specialize (IH Hds). rewrite dval_cons.
  cbn [length]. rewrite Nat2Z.inj_succ, Z.pow_succ_r by lia. nia.
Qed.

(** ** The printing loops *)

(** What the loop bodies compute, on either side of zero. *)
Lemma digit_step v :
  in_i64 v = true ->
  i64 (v - i64 (Z.quot v 10 * 10)) = Z.rem v 10 /\
  v = Z.quot v 10 * 10 + Z.rem v 10 /\
  (0 <= v -> 0 <= Z.rem v 10 <= 9 /\ 0 <= Z.quot v 10 <= v) /\
  (v <= 0 -> -9 <= Z.rem v 10 <= 0 /\ v <= Z.quot v 10 <= 0).
Proof.
  intros Hv. pose proof (Z.quot_rem' v 10) as E.
  pose proof (Z.rem_bound_abs v 10) as Hb.
  assert (0 <= v -> 0 <= Z.rem v 10) by (intros; apply Z.rem_nonneg; lia).
  assert (v <= 0 -> Z.rem v 10 <= 0) by (intros; apply Z.rem_nonpos; lia).
  rewrite (i64_id (Z.quot v 10 * 10)) by int_lia.
  rewrite i64_id by int_lia. lia.
Qed.

(** The digit written for [v]: the same on both branches of the sign test. *)
Lemma digit_char v :
  in_i64 v = true ->
  let r := i64 (v - i64 (Z.quot v 10 * 10)) in
  let c := if v <? 0 then 48 + - r else 48 + r in
  isdigit c = true /\ Z.abs v = Z.abs (Z.quot v 10) * 10 + (c - 48).
Proof.
  intros Hv. destruct (digit_step v Hv) as (-> & E & Hp & Hn). cbv zeta.
  rewrite isdigit_iff. destruct (Z.ltb_spec v 0); lia.
Qed.

Lemma quot10_sign v : in_i64 v = true ->
  in_i64 (Z.quot v 10) = true /\
  (Z.quot v 10 <> 0 -> (Z.quot v 10 <? 0) = (v <? 0)) /\
  Z.abs (Z.quot v 10) * 10 <= Z.abs v.
Proof. intros Hv. destruct (digit_step v Hv) as (_ & E & Hp & Hn). split; int_lia. Qed.

Lemma digit_loop_spec fuel v :
  in_i64 v = true -> Z.abs v < 10 ^ Z.of_nat fuel -> fuel <> 0%nat ->
  decimal_of (Z.abs v) (rev (digit_loop fuel (v <? 0) v)).
Proof.
  revert v. induction fuel as [|fuel IH]; intros v Hv Hlt Hf; [done|]. clear Hf.
  rewrite Nat2Z.inj_succ, Z.pow_succ_r in Hlt by lia.
  destruct (digit_char v Hv) as [Hc E]. destruct (quot10_sign v Hv) as (Hq & Hs & Hle).
  cbn [digit_loop] in *. cbv zeta in Hc, E |- *. set (c := if v <? 0 then _ else _) in *.
  destruct (Z.eqb_spec (Z.quot v 10) 0) as [Hz|Hz].
  - cbn. rewrite Hz in E. rewrite E. unfold decimal_of. repeat split; [by constructor|..|done].
    cbn. intros ->. done.
  - cbn [rev]. rewrite <- (Hs Hz).
    destruct (IH (Z.quot v 10)) as (HF & Hd & Hh & Hn); [done|lia|intros ->; cbn in *; lia|].
    set (ds := rev _) in *. unfold decimal_of.
    destruct ds as [|d ds]; [done|]. rewrite dval_snoc, Hd, Forall_app.
    repeat split; [done|by constructor|lia| |done].
    cbn in Hh |- *. intros ->. specialize (Hh eq_refl). simplify_eq.
    cbn in Hd. lia.
Qed.

(** The swap loop reverses the slice between its two indices. *)
Lemma reverse_loop_spec fuel pre mid post :
  (length mid <= fuel)%nat ->
  reverse_loop fuel (length pre) (length pre + length mid - 1) (pre ++ mid ++ post)
  = pre ++ rev mid ++ post.
Proof.
  revert pre mid post. induction fuel as [|fuel IH]; intros pre mid post Hlen.
  { destruct mid; [done|cbn in Hlen; lia]. }
  destruct mid as [|x mid]; cbn [reverse_loop].
  { destruct (Nat.ltb_spec (length pre) (length pre + length (@nil Z) - 1)); [cbn in *; lia|done]. }
  destruct mid as [|y mid _] using rev_ind.
  { destruct (Nat.ltb_spec (length pre) (length pre + length [x] - 1)); [cbn in *; lia|done]. }
  cbn [length] in *. rewrite length_app in *. cbn [length] in *.
  destruct (Nat.ltb_spec (length pre) (length pre + S (length mid + 1) - 1)); [|lia].
  replace (length pre + S (length mid + 1) - 1)%nat with (length pre + S (length mid + 0))%nat by lia.
  assert (pre ++ (x :: mid ++ [y]) ++ post = pre ++ x :: mid ++ y :: post) as ->
    by (cbn; by rewrite <- app_assoc).
  rewrite list_lookup_total_middle by done.
  assert ((pre ++ x :: mid ++ y :: post) !!! (length pre + S (length mid + 0))%nat = y) as ->.
  { rewrite lookup_total_app_r by lia.
    replace (length pre + S (length mid + 0) - length pre)%nat with (S (length mid)) by lia.
    cbn. by apply list_lookup_total_middle. }
  rewrite (insert_app_r_alt pre) by lia. rewrite Nat.sub_diag. cbn [insert list_insert].
  rewrite (insert_app_r_alt pre) by lia.
  replace (length pre + S (length mid + 0) - length pre)%nat with (S (length mid)) by lia.
  cbn [insert list_insert].
  rewrite (insert_app_r_alt mid) by lia. rewrite Nat.sub_diag. cbn [insert list_insert].
  specialize (IH (pre ++ [y]) mid (x :: post)).
  rewrite length_app in IH. cbn [length] in IH. rewrite <- !app_assoc in IH. cbn [app] in IH.
  replace (S (length pre)) with (length pre + 1)%nat by lia.
  replace (length pre + S (length mid + 0) - 1)%nat with (length pre + 1 + length mid - 1)%nat by lia.
  rewrite IH by lia. cbn [rev]. rewrite rev_app_distr. cbn. by rewrite <- app_assoc.
Qed.

Lemma pg_int64tostr_rev v :
  pg_int64tostr v =
  (if v <? 0 then [45] else []) ++ rev (digit_loop 20 (v <? 0) v).
Proof.
  unfold pg_int64tostr. set (sign := if v <? 0 then [45] else []).
  set (ds := digit_loop _ _ _).
  pose proof (reverse_loop_spec (length (sign ++ ds)) sign ds []) as H.
  rewrite length_app, !app_nil_r in *. apply H. lia.
Qed.

(** [pg_int64tostr] writes the canonical decimal notation. *)
Lemma pg_int64tostr_spec v :
  in_i64 v = true ->
  exists ds, pg_int64tostr v = (if v <? 0 then [45] else []) ++ ds /\ decimal_of (Z.abs v) ds.
Proof.
  intros Hv. eexists. split; [apply pg_int64tostr_rev|].
  apply digit_loop_spec; [done| |done].
  change (10 ^ Z.of_nat 20) with 100000000000000000000. int_lia.
Qed.

(** The zero-padding loop splits off [padding] digits. *)
Lemma zeropad_loop_spec padding num written :
  0 <= num -> in_i64 num = true ->
  exists ds, zeropad_loop padding false num written
             = (num / 10 ^ Z.of_nat padding, ds ++ written) /\
    length ds = padding /\ Forall (fun c => isdigit c = true) ds /\
    dval ds = num mod 10 ^ Z.of_nat padding.
Proof.
  revert num written. induction padding as [|padding IH]; intros num written Hn Hi.
  { exists []. cbn. rewrite Z.div_1_r, Z.mod_1_r. done. }
  cbn [zeropad_loop]. cbv zeta.
  destruct (digit_step num Hi) as (-> & E & Hp & _). specialize (Hp Hn) as [Hr Hq].
  destruct (IH (Z.quot num 10) ((48 + Z.rem num 10) :: written)) as (ds & -> & Hl & HF & Hd);
    [lia|int_lia|].
  exists (ds ++ [48 + Z.rem num 10]). rewrite dval_snoc, Hd, Forall_app, length_app.
  rewrite Z.quot_div_nonneg, Z.rem_mod_nonneg in * by lia.
  rewrite Nat2Z.inj_succ, Z.pow_succ_r by lia.
  split; [|split; [cbn; lia|split; [split; [done|constructor; [rewrite isdigit_iff; lia|done]]|]]].
  - by rewrite Zdiv.Zdiv_Zdiv, <- app_assoc by lia.
  - rewrite (Z.rem_mul_r num 10) by lia. lia.
Qed.

Lemma pg_int64tostr_zeropad_spec n padding :
  0 <= n < 10 ^ Z.of_nat padding -> in_i64 n = true ->
  let ds := pg_int64tostr_zeropad n padding in
  length ds = padding /\ Forall (fun c => isdigit c = true) ds /\ dval ds = n.
Proof.
  intros Hn Hi. unfold pg_int64tostr_zeropad.
  assert ((n <? 0) = false) as -> by lia.
  destruct (zeropad_loop_spec padding n []) as (ds & -> & Hl & HF & Hd); [lia|done|].
  rewrite Z.div_small, Z.mod_small, app_nil_r in * by lia. cbn. done.
Qed.

(** A number [w] at [k] decimals is written as sign, whole part, point and [k]
    digits. *)
Definition decimal_text (w : Z) (k : nat) (text : list Z) : Prop :=
  exists ds fs,
    text = (if w <? 0 then [45] else []) ++ ds ++ [46] ++ fs /\
    decimal_of (Z.abs w / 10 ^ Z.of_nat k) ds /\
    length fs = k /\ Forall (fun c => isdigit c = true) fs /\
    dval fs = Z.abs w mod 10 ^ Z.of_nat k.

(** The last part of [fixeddecimal2str]: split, sign of a zero whole part, join. *)
Lemma join_parts_spec w m k :
  in_i64 w = true -> 1 < m <= 10000 -> m = 10 ^ Z.of_nat k ->
  decimal_text w k
    ((if (w <? 0) && (Z.quot w m =? 0) then [45] else []) ++ pg_int64tostr (Z.quot w m) ++ [46] ++
     pg_int64tostr_zeropad (if w <? 0 then i64 (- Z.rem w m) else Z.rem w m) k).
Proof.
  intros Hw Hm Hk. apply in_i64_iff in Hw.
  pose proof (Z.quot_rem' w m) as E. pose proof (Z.rem_bound_abs w m ltac:(lia)) as Hr.
  assert (0 <= w -> 0 <= Z.rem w m) by (intros; apply Z.rem_nonneg; lia).
  assert (w <= 0 -> Z.rem w m <= 0) by (intros; apply Z.rem_nonpos; lia).
  assert (0 <= w -> 0 <= Z.quot w m) by (intros; apply Z.quot_pos; lia).
  assert (w <= 0 -> Z.quot w m <= 0)
    by (intros; pose proof (Z.quot_pos (- w) m); rewrite Z.quot_opp_l in *; lia).
  assert (in_i64 (Z.quot w m) = true) as Hq by (apply in_i64_iff; nia).
  destruct (pg_int64tostr_spec _ Hq) as (ds & -> & Hds).
  assert (Z.abs (Z.quot w m) = Z.abs w / m) as Eq
    by (apply Z.div_unique with (r := Z.abs (Z.rem w m)); nia).
  assert ((if w <? 0 then i64 (- Z.rem w m) else Z.rem w m) = Z.abs w mod m) as ->.
  { rewrite i64_id by (apply in_i64_iff; lia).
    apply Z.mod_unique with (q := Z.abs (Z.quot w m)); destruct (Z.ltb_spec w 0); nia. }
  assert (0 <= Z.abs w mod m < m) as Hb by (apply Z.mod_pos_bound; lia).
  destruct (pg_int64tostr_zeropad_spec (Z.abs w mod m) k) as (Hl & HF & Hd);
    [by rewrite <- Hk|apply in_i64_iff; lia|].
  exists ds, (pg_int64tostr_zeropad (Z.abs w mod m) k). rewrite <- Hk, <- Eq.
  split; [|done]. rewrite !app_assoc. do 2 f_equal.
  destruct (Z.ltb_spec w 0), (Z.eqb_spec (Z.quot w m) 0), (Z.ltb_spec (Z.quot w m) 0);
    cbn; done || nia.
Qed.

(** The text of a MONEY value. *)
Lemma fixeddecimalout_spec v : in_i64 v = true -> decimal_text v 4 (fixeddecimalout v).
Proof. intros Hv. by apply (join_parts_spec v 10000 4). Qed.

(** ** The parsing loops *)

(** Digits and the separators the parser skips between them. *)
Definition digit_or_comma (c : Z) : bool := isdigit c || (c =? 44).
Definition digits (cs : list Z) : list Z := List.filter isdigit cs.

Lemma digits_Forall cs : Forall (fun c => isdigit c = true) (digits cs).
Proof. unfold digits. apply List.Forall_forall. intros c Hc. by apply List.filter_In in Hc as [_ Hc]. Qed.

Lemma digits_id ds : Forall (fun c => isdigit c = true) ds -> digits ds = ds.
Proof. induction 1 as [|c ds Hc _ IH]; unfold digits in *; cbn; [done|]. by rewrite Hc, IH. Qed.

Definition stops (rest : list Z) : Prop := digit_or_comma (hd0 rest) = false.

Lemma quot10_unique a v : 0 <= a /\ a * 10 <= v <= a * 10 + 9 \/
  a <= 0 /\ a * 10 - 9 <= v <= a * 10 -> Z.quot v 10 = a.
Proof.
  intros H. pose proof (Z.quot_rem' v 10). pose proof (Z.rem_bound_abs v 10).
  assert (0 <= v -> 0 <= Z.rem v 10) by (intros; apply Z.rem_nonneg; lia).
  assert (v <= 0 -> Z.rem v 10 <= 0) by (intros; apply Z.rem_nonpos; lia). lia.
Qed.

Lemma scan_integral_spec str (neg : bool) cs rest acc prec :
  Forall (fun c => digit_or_comma c = true) cs -> stops rest ->
  let sgn := if neg then -1 else 1 in
  let total := acc * 10 ^ Z.of_nat (length (digits cs)) + sgn * dval (digits cs) in
  0 <= sgn * acc -> in_i64 total = true ->
  scan_integral str neg (cs ++ rest) acc prec =
    Ok (rest, total, prec + Z.of_nat (length (digits cs))).
Proof.
  intros Hcs Hrest. revert acc prec.
  induction Hcs as [|c cs Hc _ IH]; intros acc prec sgn total Hacc Ht; subst total.
  - change (digits []) with (@nil Z). change (dval []) with 0. cbn [length app].
    rewrite Z.mul_0_r, !Z.add_0_r. change (10 ^ Z.of_nat 0) with 1. rewrite Z.mul_1_r.
    unfold stops, digit_or_comma in Hrest.
    destruct rest as [|c rest]; cbn [scan_integral hd0] in *; [done|].
    by apply orb_false_iff in Hrest as [-> ->].
  - cbn [app scan_integral]. unfold digit_or_comma in Hc.
    destruct (Z.eqb_spec c 44) as [->|H44].
    { cbn in *. by apply IH. }
    destruct (isdigit c) eqn:Ed; [|done].
    assert (digits (c :: cs) = c :: digits cs) as Hd by (cbn; by rewrite Ed).
    rewrite Hd in *. cbn [length] in *. rewrite dval_cons in *.
    pose proof (dval_bound _ (digits_Forall cs)) as Hb. apply isdigit_iff in Ed.
    set (k := 10 ^ Z.of_nat (length (digits cs))) in *.
    assert (1 <= k) by (unfold k; pose proof (Z.pow_pos_nonneg 10 (Z.of_nat (length (digits cs)))); lia).
    rewrite Nat2Z.inj_succ, Z.pow_succ_r in * by lia. fold k in Ht |- *.
    set (tmp := acc * 10 + sgn * (c - 48)).
    assert (acc * (10 * k) + sgn * ((c - 48) * k + dval (digits cs))
            = tmp * k + sgn * dval (digits cs)) as Et by (subst tmp; lia).
    assert (in_i64 tmp = true /\ in_i64 (acc * 10) = true /\ 0 <= sgn * tmp
            /\ Z.quot tmp 10 = acc) as (Hi & Hi2 & Hs & Hq).
    { rewrite Et in Ht. destruct neg; cbn in sgn; subst sgn tmp; int_unfold;
        (split; [nia|]); (split; [nia|]); (split; [lia|]).
      - apply quot10_unique; lia.
      - apply quot10_unique; lia. }
    assert ((if neg then i64 (i64 (acc * 10) - (c - 48)) else i64 (i64 (acc * 10) + (c - 48)))
            = tmp) as ->.
    { rewrite (i64_id (acc * 10)) by done. rewrite <- (i64_id tmp) by done.
      subst sgn tmp. destruct neg; f_equal; cbv iota; ring. }
    rewrite Hq, Z.eqb_refl. cbn [negb]. rewrite Et in Ht |- *.
    rewrite (IH tmp (prec + 1)) by done. fold sgn k. do 2 f_equal; lia.
Qed.

Lemma scan_excess_spec cs rest vscale :
  Forall (fun c => digit_or_comma c = true) cs -> stops rest ->
  scan_excess (cs ++ rest) vscale = (rest, vscale + Z.of_nat (length (digits cs))).
Proof.
  intros Hcs Hrest. revert vscale. induction Hcs as [|c cs Hc _ IH]; intros vscale.
  - cbn. rewrite Z.add_0_r. unfold stops, digit_or_comma in Hrest.
    destruct rest as [|c rest]; cbn in *; [done|].
    by apply orb_false_iff in Hrest as [-> ->].
  - cbn [app scan_excess digits List.filter]. unfold digit_or_comma in Hc.
    destruct (Z.eqb_spec c 44) as [->|H44]; [apply IH|].
    destruct (isdigit c) eqn:Ed; [|done]. rewrite IH. unfold digits. cbn [length].
    f_equal. lia.
Qed.

(** The first loop takes [k] digits and stops in front of the next one. *)
Lemma scan_fraction_spec (k : nat) cs rest frac vscale :
  Forall (fun c => digit_or_comma c = true) cs -> stops rest ->
  let taken := take k (digits cs) in
  (k <= 4)%nat -> 0 <= frac <= 10000 - 10 ^ Z.of_nat k ->
  exists cs', scan_fraction (cs ++ rest) (10 ^ Z.of_nat k) frac vscale =
      (cs' ++ rest, frac + dval taken * 10 ^ Z.of_nat (k - length taken),
       vscale + Z.of_nat (length taken)) /\
    Forall (fun c => digit_or_comma c = true) cs' /\
    digits cs' = drop k (digits cs) /\ hd0 (cs' ++ rest) <> 44.
Proof.
  intros Hcs Hrest. revert k frac vscale.
  induction Hcs as [|c cs Hc Hcs IH]; intros k frac vscale taken Hk Hf; subst taken.
  - exists []. change (digits []) with (@nil Z). rewrite take_nil, drop_nil. cbn [app length].
    change (dval []) with 0. rewrite Z.mul_0_l, !Z.add_0_r.
    unfold stops, digit_or_comma in Hrest.
    destruct rest as [|c rest]; cbn [hd0 scan_fraction] in *; [done|].
    apply orb_false_iff in Hrest as [Hd H44]. rewrite H44, Hd.
    split; [done|]. split; [constructor|split; [done|by apply Z.eqb_neq]].
  - cbn [app scan_fraction]. unfold digit_or_comma in Hc.
    destruct (Z.eqb_spec c 44) as [->|H44]; [by apply IH|].
    destruct (isdigit c) eqn:Ed; [|done].
    assert (digits (c :: cs) = c :: digits cs) as Hd by (unfold digits; cbn; by rewrite Ed).
    rewrite Hd. destruct k as [|k].
    + cbn. change (dval []) with 0. exists (c :: cs). rewrite Hd. cbn [app].
      split; [change (1 <? 10 ^ Z.of_nat 0) with false; cbv iota; tuple_lia|].
      split; [|done]. constructor; [|done]. unfold digit_or_comma. by rewrite Ed.
    + cbn [take drop length]. apply isdigit_iff in Ed.
      rewrite Nat2Z.inj_succ, Z.pow_succ_r by lia.
      set (m := 10 ^ Z.of_nat k).
      assert (1 <= m <= 1000) by (unfold m; destruct k as [|[|[|[|]]]]; cbn; lia).
      assert ((1 <? 10 * m) = true) as -> by lia. cbn [andb].
      replace (Z.quot (10 * m) 10) with m by (symmetry; apply quot10_unique; lia).
      rewrite Nat2Z.inj_succ, Z.pow_succ_r in Hf by lia. fold m in Hf.
      rewrite i64_id by (apply in_i64_iff; nia).
      destruct (IH k (frac + (c - 48) * m) (vscale + 1)) as (cs' & E & HF & Hdr & Hh);
        [lia|fold m; nia|].
      fold m in E. rewrite E. exists cs'. split; [|done].
      assert (length (take k (digits cs)) <= k)%nat as Hl by (rewrite length_take; lia).
      rewrite Nat.sub_succ, dval_cons.
      assert (10 ^ Z.of_nat (length (take k (digits cs)))
              * 10 ^ Z.of_nat (k - length (take k (digits cs))) = m) as Em.
      { unfold m. rewrite <- Z.pow_add_r by lia. f_equal. lia. }
      f_equal; [f_equal; nia|lia].
Qed.

(** Four decimals of the fraction [0.ds], halves rounded up. *)
Definition round4 (ds : list Z) : Z :=
  let k := 10 ^ Z.of_nat (length ds) in (2 * dval ds * 10000 + k) / (2 * k).

Lemma round4_short ds :
  (length ds <= 4)%nat -> round4 ds = dval ds * 10 ^ Z.of_nat (4 - length ds).
Proof.
  intros Hl. unfold round4. cbv zeta. set (k := 10 ^ Z.of_nat (length ds)).
  set (j := 10 ^ Z.of_nat (4 - length ds)).
  assert (10000 = k * j) as Ek.
  { unfold k, j. rewrite <- Z.pow_add_r by lia.
    replace (Z.of_nat (length ds) + Z.of_nat (4 - length ds)) with 4 by lia. done. }
  assert (0 < k) by (apply Z.pow_pos_nonneg; lia).
  symmetry. apply Z.div_unique with (r := k); [lia|]. rewrite Ek. ring.
Qed.

Lemma round4_long f d e :
  length f = 4%nat -> Forall (fun c => isdigit c = true) e ->
  round4 (f ++ d :: e) = dval f + (if 53 <=? d then 1 else 0) \/ ~ 48 <= d <= 57.
Proof.
  intros Hf He. destruct (decide (48 <= d <= 57)) as [Hd|]; [left|by right].
  unfold round4. cbv zeta. rewrite dval_app, dval_cons, length_app, Hf. cbn [length].
  pose proof (dval_bound e He) as Hb.
  rewrite Nat2Z.inj_add, Z.pow_add_r, Nat2Z.inj_succ, Z.pow_succ_r by lia.
  change (10 ^ Z.of_nat 4) with 10000. set (m := 10 ^ Z.of_nat (length e)) in *.
  symmetry. destruct (Z.leb_spec 53 d).
  - apply Z.div_unique with (r := 10000 * (2 * ((d - 48) * m + dval e) - 10 * m)); [nia|ring].
  - apply Z.div_unique with (r := 10000 * (2 * ((d - 48) * m + dval e) + 10 * m)); [nia|ring].
Qed.

Lemma scan_decimals_spec cs rest :
  Forall (fun c => digit_or_comma c = true) cs -> stops rest ->
  scan_decimals (cs ++ rest) =
    (rest, round4 (digits cs), Z.of_nat (length (digits cs))).
Proof.
  intros Hcs Hrest. unfold scan_decimals, FIXEDDECIMAL_MULTIPLIER.
  destruct (scan_fraction_spec 4 cs rest 0 0) as (cs' & E & HF & Hdr & Hh); [done|done|done|cbn; lia|].
  change (10 ^ Z.of_nat 4) with 10000 in E. rewrite E.
  pose proof (digits_Forall cs) as HD.
  destruct (digits cs') as [|d e] eqn:Ed.
  - (* at most four digits: nothing to round *)
    assert (length (digits cs) <= 4)%nat as Hl.
    { apply (f_equal length) in Hdr. rewrite length_drop in Hdr. cbn in Hdr. lia. }
    rewrite (take_ge (digits cs)) by lia.
    assert (isdigit (hd0 (cs' ++ rest)) = false) as Hnd.
    { destruct cs' as [|c cs']; cbn [app hd0] in *.
      - unfold stops, digit_or_comma in Hrest. by apply orb_false_iff in Hrest as [-> _].
      - unfold digits in Ed. cbn in Ed. by destruct (isdigit c). }
    rewrite Hnd. cbn [andb]. rewrite scan_excess_spec by done. rewrite Ed.
    rewrite round4_short by done. cbn [length]. tuple_lia.
  - (* the fifth digit decides the rounding *)
    destruct cs' as [|c cs']; [done|]. rewrite Forall_cons in HF. destruct HF as [Hc HF].
    assert (c = d /\ digits cs' = e) as [-> <-].
    { unfold digits in *. cbn in Ed, Hh |- *. unfold digit_or_comma in Hc.
      destruct (isdigit c); [by simplify_eq|]. cbn in Hc. lia. }
    assert (digits cs = take 4 (digits cs) ++ d :: digits cs') as Hsplit
      by (rewrite Hdr; symmetry; apply take_drop).
    assert (length (take 4 (digits cs)) = 4%nat) as H4.
    { rewrite length_take. apply (f_equal length) in Hdr.
      rewrite length_drop in Hdr. cbn in Hdr. lia. }
    remember (take 4 (digits cs)) as T eqn:ET. clear ET.
    rewrite Hsplit, Forall_app, Forall_cons in HD. destruct HD as (HDt & HDd & HDe).
    destruct (round4_long T d (digits cs') H4 HDe) as [Hr|Hr];
      [|apply isdigit_iff in HDd; lia].
    rewrite Hsplit, Hr, H4. cbn [app hd0 tail]. rewrite HDd, length_app, H4. cbn [length andb].
    pose proof (dval_bound _ HDt) as Hb. rewrite H4 in Hb. change (10 ^ Z.of_nat 4) with 10000 in Hb.
    change (4 - 4)%nat with 0%nat. change (10 ^ Z.of_nat 0) with 1.
    destruct (53 <=? d).
    + rewrite scan_excess_spec by done. rewrite i64_id by int_lia.
      tuple_lia.
    + change (d :: cs' ++ rest) with ((d :: cs') ++ rest). rewrite scan_excess_spec by (done || by constructor).
      assert (digits (d :: cs') = d :: digits cs') as -> by (unfold digits; cbn; by rewrite HDd).
      cbn [length].
      tuple_lia.
Qed.

(** ** The accepted texts

    The patterns the comment of [scanfixeddecimal] lists: blanks, an optional
    sign before or after an optional currency symbol, digits with thousand
    separators, an optional fraction, blanks. *)

Record money_text := {
  mt_sp0 : list Z;
  mt_sign1 : list Z;
  mt_sp1 : list Z;
  mt_currency : list Z;
  mt_sp2 : list Z;
  mt_sign2 : list Z;
  mt_sp3 : list Z;
  mt_int : list Z;
  mt_frac : option (list Z);
  mt_sp4 : list Z;
}.

Definition mt_body (t : money_text) : list Z :=
  mt_int t ++ match mt_frac t with Some cs => 46 :: cs | None => [] end ++ mt_sp4 t.
Definition mt_signed (t : money_text) : list Z := mt_sign2 t ++ mt_sp3 t ++ mt_body t.
Definition mt_priced (t : money_text) : list Z := mt_currency t ++ mt_sp2 t ++ mt_signed t.
Definition render (t : money_text) : list Z :=
  mt_sp0 t ++ mt_sign1 t ++ mt_sp1 t ++ mt_priced t.

Definition blanks (s : list Z) : Prop := Forall (fun c => isspace c = true) s.
Definition sign_text (s : list Z) : Prop := s = [] \/ s = [45] \/ s = [43].
Definition currency_text (s : list Z) : Prop :=
  s = [] \/ s = [92] \/ In s valid_currency_symbols.

Record money_text_ok (t : money_text) : Prop := {
  ok_sp0 : blanks (mt_sp0 t);
  ok_sp1 : blanks (mt_sp1 t);
  ok_sp2 : blanks (mt_sp2 t);
  ok_sp3 : blanks (mt_sp3 t);
  ok_sp4 : blanks (mt_sp4 t);
  ok_sign1 : sign_text (mt_sign1 t);
  ok_sign2 : sign_text (mt_sign2 t);
  ok_one_sign : mt_sign1 t = [] \/ mt_sign2 t = [];
  ok_currency : currency_text (mt_currency t);
  ok_int : Forall (fun c => digit_or_comma c = true) (mt_int t);
  ok_frac : Forall (fun c => digit_or_comma c = true) (default [] (mt_frac t));
  ok_nonempty : mt_int t <> [] \/ mt_frac t <> None;
}.

Definition mt_negative (t : money_text) : bool :=
  (hd0 (mt_sign1 t) =? 45) || (hd0 (mt_sign2 t) =? 45).

(** The amount written: whole part and rounded fraction, with the sign. *)
Definition mt_value (t : money_text) : Z :=
  (if mt_negative t then -1 else 1) *
  (dval (digits (mt_int t)) * 10000 + round4 (digits (default [] (mt_frac t)))).

(** ** Skipping *)

Lemma skip_blanks s r : blanks s -> skip_money_spaces (s ++ r) = skip_money_spaces r.
Proof. induction 1 as [|c s Hc _ IH]; cbn; [done|]. by rewrite Hc. Qed.

(** A byte no space starts with. *)
Definition solid (c : Z) : Prop := isspace c = false /\ c <> 0xA0 /\ c <> 0xC2.

Lemma skip_solid r : r = [] \/ solid (hd0 r) -> skip_money_spaces r = r.
Proof.
  intros [->|(H1 & H2 & H3)]; [done|]. destruct r as [|c r]; [done|]. cbn in *.
  rewrite H1. assert ((c =? 160) = false /\ (c =? 194) = false) as [-> ->] by lia.
  by destruct r.
Qed.

Lemma skip_to s r : blanks s -> r = [] \/ solid (hd0 r) -> skip_money_spaces (s ++ r) = r.
Proof. intros. by rewrite skip_blanks, skip_solid. Qed.

Lemma has_nbsp_blanks s r : blanks s -> has_nbsp (length s) (s ++ r) = false.
Proof.
  induction 1 as [|c s Hc _ IH]; cbn; [done|]. rewrite IH. unfold isspace in Hc.
  assert ((c =? 160) = false /\ (c =? 194) = false) as [-> ->] by lia. done.
Qed.

(** Bytes that begin no currency symbol. *)
Lemma no_currency r : hd0 r <> 36 -> hd0 r < 128 -> is_valid_currency_symbol r = 0%nat.
Proof.
  intros H36 H128. unfold is_valid_currency_symbol.
  enough (List.find (fun symbol => starts_with symbol r) valid_currency_symbols = None) as -> by done.
  enough (Forall (fun symbol => starts_with symbol r = false) valid_currency_symbols) as HF.
  { induction HF as [|s l Hs _ IH]; cbn; [done|]. by rewrite Hs. }
  apply List.Forall_forall. intros s Hin.
  assert (s <> [] /\ (hd0 s = 36 \/ 128 <= hd0 s)) as [Hs Hh]
    by (cbn in Hin; repeat (destruct Hin as [<-|Hin]; [cbn; split; [done|lia]|]); done).
  destruct s as [|k s]; [done|]. destruct r as [|c r]; [done|]. cbn in *.
  by assert ((k =? c) = false) as -> by lia.
Qed.

(** Each listed symbol is recognised with its own length, and is not blank. *)
Lemma currency_found s r :
  In s valid_currency_symbols ->
  is_valid_currency_symbol (s ++ r) = length s /\ skip_money_spaces (s ++ r) = s ++ r /\
  s <> [] /\ hd0 (s ++ r) <> 45 /\ hd0 (s ++ r) <> 43 /\ hd0 (s ++ r) <> 0.
Proof.
  intros Hin. cbn in Hin.
  repeat (destruct Hin as [<-|Hin];
    [split; [reflexivity|split; [try reflexivity; by destruct r|done]]|]).
  done.
Qed.

(** ** Stage lemmas *)

Lemma combine_parts_spec str (neg : bool) whole frac :
  let sgn := if neg then -1 else 1 in
  0 <= whole -> 0 <= frac <= 10000 -> in_i64 (sgn * (whole * 10000 + frac)) = true ->
  combine_parts str neg (sgn * whole) frac = Ok (sgn * (whole * 10000 + frac)).
Proof.
  intros sgn Hw Hf Hi. unfold combine_parts, FIXEDDECIMAL_MULTIPLIER, SAMESIGN. subst sgn.
  destruct neg; cbv iota in *.
  - rewrite (i64_id (-1 * whole * 10000)) by int_lia.
    rewrite (i64_id (-1 * whole * 10000 - frac)) by int_lia.
    destruct (negb _ && _) eqn:E; [|f_equal; lia]. exfalso. lia.
  - rewrite (i64_id (1 * whole * 10000)) by int_lia.
    rewrite (i64_id (1 * whole * 10000 - frac)) by int_lia.
    rewrite (i64_id (1 * whole * 10000 + frac)) by int_lia.
    destruct (negb _ && _) eqn:E; [|f_equal; lia]. exfalso. lia.
Qed.

Lemma round4_bound ds :
  Forall (fun c => isdigit c = true) ds -> 0 <= round4 ds <= 10000.
Proof.
  intros H. pose proof (dval_bound ds H) as Hb. unfold round4. cbv zeta.
  set (k := 10 ^ Z.of_nat (length ds)) in *. Z.div_mod_to_equations. nia.
Qed.

Lemma blanks_stop s : blanks s -> stops s.
Proof.
  destruct 1 as [|c s Hc _]; [done|]. unfold stops, digit_or_comma, isdigit, isspace in *.
  cbn. lia.
Qed.

Lemma scan_number_spec str (neg : bool) t :
  money_text_ok t ->
  let v := (if neg then -1 else 1) *
           (dval (digits (mt_int t)) * 10000 + round4 (digits (default [] (mt_frac t)))) in
  in_i64 v = true ->
  scan_number str neg (mt_body t) =
    Ok (v, Z.of_nat (length (digits (mt_int t))),
        Z.of_nat (length (digits (default [] (mt_frac t))))).
Proof.
  intros Hok v Hv. destruct Hok as [_ _ _ _ H4 _ _ _ _ Hi Hf _].
  pose proof (dval_bound _ (digits_Forall (mt_int t))) as Hb.
  pose proof (round4_bound _ (digits_Forall (default [] (mt_frac t)))) as Hr.
  unfold scan_number, mt_body.
  rewrite scan_integral_spec;
    [|done|destruct (mt_frac t); [done|by apply blanks_stop]|lia
     |destruct neg; subst v; cbv iota in *; int_lia].
  cbn [rbind]. rewrite Z.mul_0_l, Z.add_0_l.
  assert ((if hd0 (match mt_frac t with Some cs => 46 :: cs | None => [] end ++ mt_sp4 t) =? 46
           then scan_decimals (tail (match mt_frac t with Some cs => 46 :: cs | None => [] end ++ mt_sp4 t))
           else (match mt_frac t with Some cs => 46 :: cs | None => [] end ++ mt_sp4 t, 0, 0))
          = (mt_sp4 t, round4 (digits (default [] (mt_frac t))),
             Z.of_nat (length (digits (default [] (mt_frac t)))))) as ->.
  { destruct (mt_frac t) as [cs|]; cbn [app hd0 tail default] in *.
    - cbn [Z.eqb Pos.eqb]. apply scan_decimals_spec; [done|by apply blanks_stop].
    - destruct H4 as [|c s Hc Hs]; [done|]. cbn. unfold isspace in Hc.
      by assert ((c =? 46) = false) as -> by lia. }
  rewrite <- (app_nil_r (mt_sp4 t)), skip_to by auto. cbn [hd0 negb Z.eqb].
  rewrite combine_parts_spec by (done || lia). cbn [rbind]. do 2 f_equal.
Qed.

(** What the number itself begins with. *)
Definition numeric_head (r : list Z) : Prop := digit_or_comma (hd0 r) = true \/ hd0 r = 46.

Lemma numeric_head_facts r :
  numeric_head r ->
  solid (hd0 r) /\ hd0 r <> 36 /\ hd0 r < 128 /\ hd0 r <> 92 /\ hd0 r <> 45 /\ hd0 r <> 43 /\
  hd0 r <> 0 /\
  negb (isdigit (hd0 r)) && negb (hd0 r =? 46) && negb (hd0 r =? 45) &&
    negb (hd0 r =? 44) && negb (hd0 r =? 43) && negb (hd0 r =? 0) = false.
Proof.
  unfold numeric_head, solid, digit_or_comma, isdigit, isspace. intros [H|H]; [|rewrite H]; lia.
Qed.

Lemma body_head t : money_text_ok t -> numeric_head (mt_body t).
Proof.
  intros Hok. destruct (ok_nonempty t Hok) as [H|H]; unfold mt_body, numeric_head.
  - pose proof (ok_int t Hok) as Hi. destruct (mt_int t); [done|]. left.
    by apply Forall_cons in Hi as [? _].
  - pose proof (ok_int t Hok) as Hi. destruct (mt_int t) as [|c cs].
    + destruct (mt_frac t); [by right|done].
    + left. by apply Forall_cons in Hi as [? _].
Qed.

(** Past the currency: blanks, then the number. *)
Lemma priced_number str (seen neg : bool) s r :
  blanks s -> numeric_head r ->
  scan_signed str seen neg (s ++ r) = scan_number str (seen && neg) r.
Proof.
  intros Hs Hr. destruct (numeric_head_facts r Hr) as (H1 & H2 & H3 & H4 & H5 & H6 & H7 & H8).
  unfold scan_signed.
  rewrite skip_to by auto. cbv zeta. rewrite H8.
  rewrite (proj2 (Z.eqb_neq (hd0 r) 45)), (proj2 (Z.eqb_neq (hd0 r) 43)) by done.
  rewrite skip_solid by auto. by destruct seen.
Qed.

(** Past the currency: blanks, a sign when none was seen, blanks, the number. *)
Lemma priced_sign str neg ch s s' r :
  blanks s -> blanks s' -> ch = 45 \/ ch = 43 -> numeric_head r ->
  scan_signed str false neg (s ++ ch :: s' ++ r) = scan_number str (ch =? 45) r.
Proof.
  intros Hs Hs' Hch Hr. destruct (numeric_head_facts r Hr) as (H1 & _).
  unfold scan_signed.
  rewrite skip_to; [|done|right; destruct Hch as [->| ->]; unfold solid; cbn; lia].
  destruct Hch as [->| ->]; cbn [hd0 tail]; cbv zeta; cbn [Z.eqb Pos.eqb negb andb];
    rewrite skip_to by auto; done.
Qed.

(** Without a currency symbol. *)
Lemma scan_priced_plain str seen neg s r :
  blanks s -> numeric_head r ->
  scan_priced str seen neg (s ++ r) = scan_number str (seen && neg) r.
Proof.
  intros Hs Hr. destruct (numeric_head_facts r Hr) as (H1 & H2 & H3 & H4 & _).
  unfold scan_priced. rewrite skip_to by auto. rewrite no_currency by done.
  rewrite (proj2 (Z.eqb_neq (hd0 r) 92)) by done. cbn [Nat.ltb Nat.leb].
  apply (priced_number str seen neg []); [by constructor|done].
Qed.

(** With one: it is stripped whatever follows. *)
Lemma scan_priced_currency str seen neg s c r :
  blanks s -> c <> [] -> currency_text c ->
  scan_priced str seen neg (s ++ c ++ r) = scan_signed str seen neg r.
Proof.
  intros Hs Hc [->|[->|Hin]]; [done|..]; unfold scan_priced.
  - rewrite skip_to; [|done|right; unfold solid; cbn; lia].
    rewrite no_currency by (cbn; lia). done.
  - destruct (currency_found c r Hin) as (Hl & Hsk & _). rewrite skip_blanks, Hsk, Hl by done.
    destruct (Nat.ltb_spec 0 (length c)) as [|H]; [|destruct c; [done|cbn in H; lia]].
    by rewrite drop_app_length.
Qed.

(** The leading blanks: nothing is refused, the first sign is looked for. *)
Lemma scan_front s r :
  blanks s -> skip_money_spaces r = r ->
  scanfixeddecimal (s ++ r) =
    if hd0 r =? 45 then scan_priced (s ++ r) true true (tail r)
    else if hd0 r =? 43 then scan_priced (s ++ r) true false (tail r)
    else scan_priced (s ++ r) false false r.
Proof.
  intros Hs Hr. unfold scanfixeddecimal. rewrite skip_blanks, Hr by done.
  rewrite length_app. replace (length s + length r - length r)%nat with (length s) by lia.
  rewrite has_nbsp_blanks by done. by rewrite andb_false_r.
Qed.

Lemma blanks_app a b : blanks a -> blanks b -> blanks (a ++ b).
Proof. intros. by apply Forall_app. Qed.

Lemma sign_text_cases s : sign_text s -> s = [] \/ exists ch, s = [ch] /\ (ch = 45 \/ ch = 43).
Proof. intros [->|[->| ->]]; eauto. Qed.

(** Whatever the order of sign and currency, the parser reaches the number with
    the right sign. *)
Lemma scan_to_number t :
  money_text_ok t ->
  scanfixeddecimal (render t) = scan_number (render t) (mt_negative t) (mt_body t).
Proof.
  intros Hok. pose proof (body_head t Hok) as Hh.
  destruct (numeric_head_facts _ Hh) as (Hsol & _ & _ & _ & H45 & H43 & _).
  destruct Hok as [H0 H1 H2 H3 _ S1 S2 One Cur _ _ _].
  unfold mt_negative. set (str := render t).
  assert (str = mt_sp0 t ++ mt_sign1 t ++ mt_sp1 t ++ mt_currency t ++ mt_sp2 t ++
                mt_sign2 t ++ mt_sp3 t ++ mt_body t) as Estr by done.
  clearbody str. generalize dependent (mt_body t). intros body Hh Hsol H45 H43 Estr.
  destruct (sign_text_cases _ S1) as [E1|(ch & E1 & Hch)]; rewrite E1 in *.
  - destruct (decide (mt_currency t = [])) as [Ec|Ec].
    + (* no currency: one sign at most, taken as the first *)
      rewrite Ec in Estr. cbn [app hd0 Z.eqb orb] in *.
      destruct (sign_text_cases _ S2) as [E2|(ch & E2 & Hch)]; rewrite E2 in *; cbn [app] in Estr.
      * rewrite !app_assoc in Estr. subst str.
        rewrite scan_front by (auto using blanks_app, skip_solid).
        rewrite (proj2 (Z.eqb_neq _ 45)), (proj2 (Z.eqb_neq _ 43)) by done.
        apply (scan_priced_plain _ false false []); [constructor|done].
      * rewrite !(app_assoc _ _ (ch :: _)) in Estr. subst str.
        rewrite scan_front;
          [|auto using blanks_app
           |apply skip_solid; right; destruct Hch as [->| ->]; unfold solid; cbn; lia].
        destruct Hch as [->| ->]; cbn [hd0 tail Z.eqb Pos.eqb orb];
          by rewrite scan_priced_plain.
    + (* currency first, then possibly a sign *)
      cbn [app hd0 Z.eqb orb] in *. rewrite app_assoc in Estr. subst str.
      assert (forall r, skip_money_spaces (mt_currency t ++ r) = mt_currency t ++ r /\
                hd0 (mt_currency t ++ r) <> 45 /\ hd0 (mt_currency t ++ r) <> 43) as Hc.
      { intros r. destruct Cur as [Ec'|[->|Hin]]; [done|..].
        - split; [apply skip_solid; right; unfold solid; cbn; lia|done].
        - apply currency_found with (r := r) in Hin. tauto. }
      specialize (Hc (mt_sp2 t ++ mt_sign2 t ++ mt_sp3 t ++ body)) as (Hc1 & Hc2 & Hc3).
      rewrite scan_front by auto using blanks_app.
      rewrite (proj2 (Z.eqb_neq _ 45)), (proj2 (Z.eqb_neq _ 43)) by done.
      change (mt_currency t ++ mt_sp2 t ++ mt_sign2 t ++ mt_sp3 t ++ body)
        with ([] ++ mt_currency t ++ mt_sp2 t ++ mt_sign2 t ++ mt_sp3 t ++ body) at 2.
      rewrite scan_priced_currency by (done || constructor).
      destruct (sign_text_cases _ S2) as [E2|(ch & E2 & Hch)]; rewrite E2; cbn [app].
      * rewrite (app_assoc (mt_sp2 t) (mt_sp3 t) body), priced_number by auto using blanks_app. done.
      * rewrite priced_sign by done. done.
  - (* a sign first; then no second one *)
    destruct One as [?|E2]; [done|]. rewrite E2 in *. cbn [app hd0] in *.
    rewrite orb_false_r. subst str.
    rewrite scan_front;
      [|done|apply skip_solid; right; destruct Hch as [->| ->]; unfold solid; cbn; lia].
    assert (forall str neg, scan_priced str true neg
              (mt_sp1 t ++ mt_currency t ++ mt_sp2 t ++ mt_sp3 t ++ body)
            = scan_number str neg body) as Hp.
    { intros str neg. destruct (decide (mt_currency t = [])) as [->|Ec]; cbn [app].
      - rewrite !app_assoc, scan_priced_plain by auto using blanks_app. done.
      - rewrite scan_priced_currency by done.
        rewrite (app_assoc (mt_sp2 t)), priced_number by auto using blanks_app. done. }
    destruct Hch as [->| ->]; cbn [hd0 tail Z.eqb Pos.eqb]; apply Hp.
Qed.

(** ** Properties *)

(** C7: A text in the documented MONEY syntax (blanks, one optional sign before or
    after an optional currency symbol, digits with thousand separators, optional
    fraction) whose amount fits in an int64 parses to exactly that amount, the
    fraction rounded half up at the fourth decimal, with the digit counts of
    both parts. *)
Theorem scanfixeddecimal_correct t :
  money_text_ok t -> in_i64 (mt_value t) = true ->
  scanfixeddecimal (render t) =
    Ok (mt_value t, Z.of_nat (length (digits (mt_int t))),
        Z.of_nat (length (digits (default [] (mt_frac t))))).
Proof.
  intros Hok Hv. rewrite scan_to_number by done. by apply scan_number_spec.
Qed.

(** The text [fixeddecimalout] writes, as a text of the accepted syntax. *)
Lemma fixeddecimalout_text v :
  in_i64 v = true ->
  exists t, fixeddecimalout v = render t /\ money_text_ok t /\ mt_value t = v /\
    decimal_of (Z.abs v / 10000) (mt_int t) /\
    digits (mt_int t) = mt_int t /\ length (digits (default [] (mt_frac t))) = 4%nat.
Proof.
  intros Hv. destruct (fixeddecimalout_spec v Hv) as (ds & fs & E & Hds & Hl & HF & Hd).
  change (10 ^ Z.of_nat 4) with 10000 in *. destruct Hds as (HFd & Hdd & Hh & Hne).
  assert (forall l, Forall (fun c => isdigit c = true) l ->
            Forall (fun c => digit_or_comma c = true) l) as Hdc.
  { intros l HFl. eapply Forall_impl; [exact HFl|]. intros c Hc. unfold digit_or_comma. by rewrite Hc. }
  exists {| mt_sp0 := []; mt_sign1 := if v <? 0 then [45] else []; mt_sp1 := [];
            mt_currency := []; mt_sp2 := []; mt_sign2 := []; mt_sp3 := [];
            mt_int := ds; mt_frac := Some fs; mt_sp4 := [] |}.
  split; [unfold render, mt_priced, mt_signed, mt_body; cbn; by rewrite E, app_nil_r|].
  split.
  { split; cbn; try (by constructor); try (by left); auto.
    destruct (v <? 0); [right; by left|by left]. }
  split; [|by rewrite !digits_id].
  unfold mt_value, mt_negative. cbn [mt_sign1 mt_sign2 mt_int mt_frac].
  change (default [] (Some fs)) with fs.
  rewrite !digits_id, round4_short, Hdd, Hd, Hl by (done || lia).
  change (10 ^ Z.of_nat (4 - 4)) with 1.
  assert ((hd0 (if v <? 0 then [45] else []) =? 45) || (hd0 (@nil Z) =? 45) = (v <? 0)) as ->
    by (by destruct (v <? 0)).
  destruct (Z.ltb_spec v 0); Z.div_mod_to_equations; lia.
Qed.

(** C31: Printing any MONEY value, the smallest int64 included, and parsing the
    text back returns the value. *)
Theorem money_text_roundtrip v :
  in_i64 v = true ->
  char_to_fixeddecimal (fixeddecimalout v) = Ok v /\ fixeddecimalin (fixeddecimalout v) (-1) = Ok v.
Proof.
  intros Hv. destruct (fixeddecimalout_text v Hv) as (t & -> & Hok & Ev & _).
  unfold char_to_fixeddecimal, fixeddecimalin. rewrite scan_to_number by done.
  rewrite scan_number_spec by (done || by rewrite <- Ev in Hv). cbn [rbind].
  fold (mt_value t). by rewrite Ev.
Qed.

(** Canonical notation: the number of digits bounds the number, and back. *)
Lemma decimal_of_length n ds (k : nat) :
  decimal_of n ds -> (length ds <= S k)%nat <-> n < 10 ^ Z.of_nat (S k).
Proof.
  intros (HF & <- & Hh & Hne). pose proof (dval_bound ds HF) as Hb.
  destruct ds as [|c ds]; [done|]. cbn [length] in *.
  assert (forall a b : nat, (a <= b)%nat -> 10 ^ Z.of_nat a <= 10 ^ Z.of_nat b) as Hmono
    by (intros; apply Z.pow_le_mono_r; lia).
  split; intros H.
  - specialize (Hmono _ _ H). lia.
  - destruct (decide (S (length ds) <= S k)%nat) as [|Hgt]; [done|exfalso].
    apply Forall_cons in HF as [Hc HF]. pose proof (dval_bound ds HF).
    rewrite isdigit_iff in Hc. rewrite dval_cons in *.
    specialize (Hmono (S k) (length ds) ltac:(lia)).
    destruct (decide (c = 48)) as [->|]; [|nia].
    cbn in Hh. specialize (Hh eq_refl). simplify_eq. cbn in Hgt. lia.
Qed.

Definition typmod_of (p : Z) : Z := p * 65536 + 4 + 4.

Lemma typmod_of_fields p :
  4 <= p <= 19 ->
  fixeddecimaltypmodin [p; 4] = Ok (typmod_of p) /\
  fixeddecimaltypmodin [typmod_of p] = Ok (typmod_of p) /\
  (typmod_of p <? VARHDRSZ) = false /\ (typmod_of p =? -1) = false /\
  Z.land (Z.shiftr (typmod_of p - VARHDRSZ) 16) 0xffff = p /\
  Z.land (typmod_of p - VARHDRSZ) 0xffff = 4.
Proof.
  intros Hp.
  assert (p = 4 \/ p = 5 \/ p = 6 \/ p = 7 \/ p = 8 \/ p = 9 \/ p = 10 \/ p = 11 \/ p = 12 \/
          p = 13 \/ p = 14 \/ p = 15 \/ p = 16 \/ p = 17 \/ p = 18 \/ p = 19) as Hc by lia.
  repeat (destruct Hc as [->|Hc]; [vm_compute; tauto|]). subst p. vm_compute; tauto.
Qed.

(** A declared precision p (4 to 19, scale 4) is stored in the type modifier
    unchanged and reread as itself, and for p > 4 the cast to it accepts exactly
    the values below 10^(p-4); every other value gets the field-overflow error. *)
Theorem typmod_precision_enforced p v :
  4 < p <= 19 -> in_i64 v = true ->
  fixeddecimaltypmodin [p; 4] = Ok (typmod_of p) /\
  fixeddecimaltypmodin [typmod_of p] = Ok (typmod_of p) /\
  (Z.abs v / 10000 < 10 ^ (p - 4) -> fixeddecimal v (typmod_of p) = Ok v) /\
  (10 ^ (p - 4) <= Z.abs v / 10000 ->
   exists d, fixeddecimal v (typmod_of p) = Err (field_overflow d 4 (p - 4))).
Proof.
  intros Hp Hv. destruct (typmod_of_fields p ltac:(lia)) as (H1 & H2 & H3 & H4 & H5 & H6).
  split; [done|]. split; [done|].
  destruct (fixeddecimalout_text v Hv) as (t & Et & Hok & Ev & Hd & Hdi & Hfl).
  pose proof (decimal_of_length _ _ (Z.to_nat (p - 5)) Hd) as Hlen.
  replace (Z.of_nat (S (Z.to_nat (p - 5)))) with (p - 4) in Hlen by lia.
  unfold fixeddecimal, fixeddecimalin. rewrite H4, Et, scan_to_number by done.
  rewrite scan_number_spec by (done || by rewrite <- Ev in Hv). cbn [negb rbind].
  unfold apply_typmod. rewrite H3, H5, H6, Hdi, Hfl. cbn [Z.of_nat].
  change (4 <? Z.of_nat 4) with false. cbn [andb].
  destruct (Z.ltb_spec (p - 4) (Z.of_nat (length (mt_int t)))) as [Hlt|Hge]; cbn [rbind].
  - split; intros H; [|eauto]. apply Hlen in H. lia.
  - split; intros H; [done|]. exfalso. apply Z.le_ngt in H. apply H, Hlen. lia.
Qed.

(** FIXEDDECIMAL(4,4) accepts no value at all, not even 0: the printed whole
    part always has a digit, while the error detail promises that any value
    that rounds to less than 1 is allowed. *)
Theorem typmod_scale_only_rejects v :
  in_i64 v = true ->
  exists d, fixeddecimal v (typmod_of 4) = Err (field_overflow d 4 0).
Proof.
  intros Hv. destruct (typmod_of_fields 4 ltac:(lia)) as (_ & _ & H3 & H4 & H5 & H6).
  destruct (fixeddecimalout_text v Hv) as (t & Et & Hok & Ev & (_ & _ & _ & Hne) & Hdi & Hfl).
  unfold fixeddecimal, fixeddecimalin. rewrite H4, Et, scan_to_number by done.
  rewrite scan_number_spec by (done || by rewrite <- Ev in Hv). cbn [negb rbind].
  unfold apply_typmod. rewrite H3, H5, H6, Hdi, Hfl.
  assert (length (mt_int t) <> 0%nat) by (destruct (mt_int t); done).
  assert ((4 - 4 <? Z.of_nat (length (mt_int t))) = true) as -> by lia.
  eauto.
Qed.

Lemma quot_rem_abs v d :
  0 < d ->
  Z.abs (Z.quot v d) = Z.abs v / d /\ Z.abs (Z.rem v d) = Z.abs v mod d /\
  (0 <= v -> Z.quot v d = Z.abs v / d) /\ (v <= 0 -> Z.quot v d = - (Z.abs v / d)).
Proof.
  intros Hd. destruct (Z.le_gt_cases 0 v) as [Hv|Hv].
  - rewrite (Z.abs_eq v) by lia. rewrite Z.quot_div_nonneg, Z.rem_mod_nonneg by lia.
    pose proof (Z.div_pos v d). pose proof (Z.mod_pos_bound v d).
    assert (v <= 0 -> v / d = 0) by (intros; replace v with 0 by lia; apply Z.div_0_l; lia). lia.
  - rewrite (Z.abs_neq v) by lia.
    assert (Z.quot v d = - (- v / d) /\ Z.rem v d = - (- v mod d)) as [-> ->].
    { rewrite <- (Z.quot_div_nonneg (- v) d), <- (Z.rem_mod_nonneg (- v) d) by lia.
      rewrite Z.quot_opp_l, Z.rem_opp_l by lia. lia. }
    pose proof (Z.div_pos (- v) d). pose proof (Z.mod_pos_bound (- v) d). lia.
Qed.

(** The two-decimal text used by casts to VARCHAR writes the value rounded to
    cents, halves away from zero, for non-negative values and values of at
    least a cent, as long as the value in thousandths fits in an int. *)
Theorem fixeddecimal2str_cents v :
  0 <= v \/ v <= -100 -> Z.abs (Z.quot v 10) <= INT32_MAX ->
  decimal_text (round_half_away v 100) 2 (fixeddecimal2str v 100 2).
Proof.
  intros Hs Hi. unfold INT32_MAX in Hi.
  destruct (quot_rem_abs v 10) as (A1 & _ & _); [lia|].
  destruct (quot_rem_abs v 100) as (A2 & A3 & A4 & A5); [lia|].
  assert (Z.quot v 100 + (if 100 <=? 2 * Z.abs (Z.rem v 100) then Z.sgn v else 0) =
          (if 5 <=? Z.rem (c_abs (Z.quot v 10)) 10
           then if 0 <=? Z.quot v 100 then i64 (Z.quot v 100 + 1) else i64 (Z.quot v 100 - 1)
           else Z.quot v 100)) as E.
  { unfold c_abs. rewrite (i32_id (Z.quot v 10)) by int_lia.
    assert ((if Z.quot v 10 <? 0 then i32 (- Z.quot v 10) else Z.quot v 10) = Z.abs v / 10) as ->.
    { rewrite <- A1. destruct (Z.ltb_spec (Z.quot v 10) 0); [rewrite i32_id by int_lia|]; lia. }
    rewrite (Z.rem_mod_nonneg (Z.abs v / 10) 10) by (Z.div_mod_to_equations; lia).
    rewrite A3, !i64_id by int_lia.
    destruct (Z.leb_spec 0 (Z.quot v 100)), (Z.leb_spec 5 ((Z.abs v / 10) mod 10)),
      (Z.leb_spec 100 (2 * (Z.abs v mod 100))); Z.div_mod_to_equations; lia. }
  pose proof (join_parts_spec (round_half_away v 100) 100 2) as H.
  unfold round_half_away in *. rewrite E in *. apply H; [|lia|done].
  clear H E. repeat case_match; rewrite ?i64_range; auto using i64_range. int_lia.
Qed.

(** A negative value of less than a cent that rounds away from zero loses its
    sign: -0.0050 is written 0.01, the text of plus one cent. *)
Theorem fixeddecimal2str_small_negative :
  fixeddecimal2str (-50) 100 2 = bytes_of_string "0.01" /\ round_half_away (-50) 100 = -1.
Proof. split; reflexivity. Qed.

(** The rounding digit is taken from an int: for 2147483.6550 the truncation
    to 32 bits changes it and the text is 2147483.65 instead of 2147483.66. *)
Theorem fixeddecimal2str_truncates_to_int :
  fixeddecimal2str 21474836550 100 2 = bytes_of_string "2147483.65" /\
  round_half_away 21474836550 100 = 214748366.
Proof. split; reflexivity. Qed.

(** The final overflow check of the parser only compares signs: the text
    1844674407370956, far outside the range of MONEY, is accepted and parsed
    as 0.8384, the product reduced modulo 2^64. *)
Theorem scan_overflow_accepted :
  char_to_fixeddecimal (bytes_of_string "1844674407370956") = Ok 8384 /\
  in_i64 (1844674407370956 * 10000) = false.
Proof. split; vm_compute; reflexivity. Qed.

(** ** Concrete instances *)

(** " -$ 1,234.56785 " *)
Definition sample_text : money_text :=
  {| mt_sp0 := [32]; mt_sign1 := [45]; mt_sp1 := []; mt_currency := [36]; mt_sp2 := [32];
     mt_sign2 := []; mt_sp3 := []; mt_int := [49; 44; 50; 51; 52];
     mt_frac := Some [53; 54; 55; 56; 53]; mt_sp4 := [32] |}.

Lemma sample_text_ok : money_text_ok sample_text.
Proof.
  split; cbn; try (by repeat constructor); by left || by right || (right; by left).
Qed.

Lemma scanfixeddecimal_correct_witness :
  scanfixeddecimal (bytes_of_string " -$ 1,234.56785 ") = Ok (-12345679, 4, 5).
Proof. exact (scanfixeddecimal_correct sample_text sample_text_ok eq_refl). Defined.

Lemma money_text_roundtrip_witness :
  char_to_fixeddecimal (fixeddecimalout INT64_MIN) = Ok INT64_MIN /\
  fixeddecimalin (fixeddecimalout INT64_MIN) (-1) = Ok INT64_MIN.
Proof. exact (money_text_roundtrip INT64_MIN eq_refl). Defined.

Lemma typmod_precision_enforced_witness :
  fixeddecimal 999999 (typmod_of 6) = Ok 999999 /\
  exists d, fixeddecimal 1000000 (typmod_of 6) = Err (field_overflow d 4 2).
Proof.
  split.
  - apply (typmod_precision_enforced 6 999999); [lia|reflexivity|reflexivity].
  - apply (typmod_precision_enforced 6 1000000); [lia|reflexivity|vm_compute; discriminate].
Defined.

Lemma typmod_scale_only_rejects_witness :
  exists d, fixeddecimal 0 (typmod_of 4) = Err (field_overflow d 4 0).
Proof. exact (typmod_scale_only_rejects 0 eq_refl). Defined.

Lemma fixeddecimal2str_cents_witness : decimal_text (-124) 2 (fixeddecimal2str (-12350) 100 2).
Proof. apply (fixeddecimal2str_cents (-12350)); [right; lia|vm_compute; discriminate]. Defined.
