(* ===== verification/FixedDecimalNumeric.v ===== *)
(** * FixedDecimalNumeric: MONEY and the server's numeric type

    Models the conversions between MONEY and numeric and the fourteen mixed
    comparison operators of [babelfishpg_money/fixeddecimal.c].  The numeric type
    is the server's: its functions are parameters ([Numeric]) and what the
    extension relies on is stated over the value of a numeric as a rational
    ([NumericOk]). *)
From Stdlib Require Import QArith.
From stdpp Require Import base list numbers strings.
From S2P Require Import Prelude FixedDecimal FixedDecimalText FixedDecimalCmp.
#[local] Open Scope Z_scope.

Class Numeric := {
  numeric : Type;
  numeric_in : list Z -> numeric;
  numeric_out : numeric -> list Z;
  numeric_cmp : numeric -> numeric -> Z;
  numeric_is_nan : numeric -> bool;
}.

Section operators.
Context {A : Numeric}.

Definition fixeddecimal_numeric (num : Z) : numeric := numeric_in (fixeddecimalout num).

Definition numeric_fixeddecimal (num : numeric) : money_result :=
  if numeric_is_nan num then Err cannot_convert_nan
  else fixeddecimalin (numeric_out num) (-1).

Definition fixeddecimal_numeric_cmp (arg1 : Z) (val2 : numeric) : Z :=
  numeric_cmp (fixeddecimal_numeric arg1) val2.
Definition fixeddecimal_numeric_eq (val1 : Z) (val2 : numeric) : bool :=
  fixeddecimal_numeric_cmp val1 val2 =? 0.
Definition fixeddecimal_numeric_ne (val1 : Z) (val2 : numeric) : bool :=
  negb (fixeddecimal_numeric_cmp val1 val2 =? 0).
Definition fixeddecimal_numeric_lt (val1 : Z) (val2 : numeric) : bool :=
  fixeddecimal_numeric_cmp val1 val2 <? 0.
Definition fixeddecimal_numeric_gt (val1 : Z) (val2 : numeric) : bool :=
  0 <? fixeddecimal_numeric_cmp val1 val2.
Definition fixeddecimal_numeric_le (val1 : Z) (val2 : numeric) : bool :=
  fixeddecimal_numeric_cmp val1 val2 <=? 0.
Definition fixeddecimal_numeric_ge (val1 : Z) (val2 : numeric) : bool :=
  0 <=? fixeddecimal_numeric_cmp val1 val2.

Definition numeric_fixeddecimal_cmp (val1 : numeric) (arg2 : Z) : Z :=
  numeric_cmp val1 (fixeddecimal_numeric arg2).
Definition numeric_fixeddecimal_eq (val1 : numeric) (val2 : Z) : bool :=
  numeric_fixeddecimal_cmp val1 val2 =? 0.
Definition numeric_fixeddecimal_ne (val1 : numeric) (val2 : Z) : bool :=
  negb (numeric_fixeddecimal_cmp val1 val2 =? 0).
Definition numeric_fixeddecimal_lt (val1 : numeric) (val2 : Z) : bool :=
  numeric_fixeddecimal_cmp val1 val2 <? 0.
Definition numeric_fixeddecimal_gt (val1 : numeric) (val2 : Z) : bool :=
  0 <? numeric_fixeddecimal_cmp val1 val2.
Definition numeric_fixeddecimal_le (val1 : numeric) (val2 : Z) : bool :=
  numeric_fixeddecimal_cmp val1 val2 <=? 0.
Definition numeric_fixeddecimal_ge (val1 : numeric) (val2 : Z) : bool :=
  0 <=? numeric_fixeddecimal_cmp val1 val2.
End operators.

(** The sign of a three-way comparison, as [numeric_cmp] documents it. *)
Definition sign_of (c : comparison) : Z := match c with Lt => -1 | Eq => 0 | Gt => 1 end.

(** What the extension relies on: reading a plain decimal literal gives its value
    and keeps its notation, comparing compares the values. *)
Class NumericOk (A : Numeric) := {
  numeric_value : numeric -> Q;
  numeric_in_value : forall w k text, decimal_text w k text ->
    (numeric_value (numeric_in text) == w # Z.to_pos (10 ^ Z.of_nat k))%Q;
  numeric_in_number : forall w k text, decimal_text w k text ->
    numeric_is_nan (numeric_in text) = false;
  numeric_out_in : forall w k text, decimal_text w k text -> numeric_out (numeric_in text) = text;
  numeric_cmp_value : forall a b, numeric_is_nan a = false -> numeric_is_nan b = false ->
    numeric_cmp a b = sign_of (numeric_value a ?= numeric_value b)%Q;
}.

Section properties.
Context {A : Numeric} {AOk : NumericOk A}.

(** The value of MONEY [v] as a rational. *)
Definition money_value (v : Z) : Q := v # 10000.

Lemma fixeddecimal_numeric_value v :
  in_i64 v = true ->
  numeric_is_nan (fixeddecimal_numeric v) = false /\
  (numeric_value (fixeddecimal_numeric v) == money_value v)%Q.
Proof.
  intros Hv. pose proof (fixeddecimalout_spec v Hv) as Ht. unfold fixeddecimal_numeric.
  split; [by eapply numeric_in_number|]. rewrite (numeric_in_value v 4) by done. done.
Qed.

(** MONEY compares with numeric by exact value, in both argument orders, for
    all seven operators: no rounding to four decimals is applied to the numeric
    side. *)
Theorem numeric_comparisons_exact v n :
  in_i64 v = true -> numeric_is_nan n = false ->
  let c := sign_of (money_value v ?= numeric_value n)%Q in
  let d := sign_of (numeric_value n ?= money_value v)%Q in
  fixeddecimal_numeric_cmp v n = c /\ numeric_fixeddecimal_cmp n v = d /\ d = - c /\
  fixeddecimal_numeric_eq v n = (c =? 0) /\ fixeddecimal_numeric_ne v n = negb (c =? 0) /\
  fixeddecimal_numeric_lt v n = (c <? 0) /\ fixeddecimal_numeric_gt v n = (0 <? c) /\
  fixeddecimal_numeric_le v n = (c <=? 0) /\ fixeddecimal_numeric_ge v n = (0 <=? c) /\
  numeric_fixeddecimal_eq n v = (c =? 0) /\ numeric_fixeddecimal_ne n v = negb (c =? 0) /\
  numeric_fixeddecimal_lt n v = (0 <? c) /\ numeric_fixeddecimal_gt n v = (c <? 0) /\
  numeric_fixeddecimal_le n v = (0 <=? c) /\ numeric_fixeddecimal_ge n v = (c <=? 0).
Proof.
  intros Hv Hn c d. destruct (fixeddecimal_numeric_value v Hv) as [Hnan Hval].
  assert (fixeddecimal_numeric_cmp v n = c) as E1.
  { unfold fixeddecimal_numeric_cmp. rewrite numeric_cmp_value by done. by rewrite Hval. }
  assert (numeric_fixeddecimal_cmp n v = d) as E2.
  { unfold numeric_fixeddecimal_cmp. rewrite numeric_cmp_value by done. by rewrite Hval. }
  assert (d = - c) as E3.
  { subst c d. rewrite <- (Qcompare_antisym (money_value v)).
    by destruct (money_value v ?= numeric_value n)%Q. }
  unfold fixeddecimal_numeric_eq, fixeddecimal_numeric_ne, fixeddecimal_numeric_lt,
    fixeddecimal_numeric_gt, fixeddecimal_numeric_le, fixeddecimal_numeric_ge,
    numeric_fixeddecimal_eq, numeric_fixeddecimal_ne, numeric_fixeddecimal_lt,
    numeric_fixeddecimal_gt, numeric_fixeddecimal_le, numeric_fixeddecimal_ge.
  rewrite E1, E2, E3. repeat split; lia.
Qed.

(** Converting a MONEY value to numeric and back is the identity. *)
Theorem numeric_roundtrip v :
  in_i64 v = true -> numeric_fixeddecimal (fixeddecimal_numeric v) = Ok v.
Proof.
  intros Hv. destruct (fixeddecimal_numeric_value v Hv) as [Hnan _].
  unfold numeric_fixeddecimal. rewrite Hnan. unfold fixeddecimal_numeric.
  rewrite (numeric_out_in v 4) by by apply fixeddecimalout_spec.
  unfold fixeddecimalin.
  destruct (fixeddecimalout_text v Hv) as (t & -> & Hok & Ev & _).
  rewrite scan_to_number by done.
  rewrite scan_number_spec by (done || by rewrite <- Ev in Hv). cbn [rbind].
  fold (mt_value t). by rewrite Ev.
Qed.
End properties.

(** ** A concrete numeric

    Decimal literals kept as text, compared by value: enough to run the
    operators on concrete inputs, and a model of [NumericOk]. *)

Fixpoint after_dot (text : list Z) : list Z :=
  match text with
  | [] => []
  | c :: text' => if c =? 46 then text' else after_dot text'
  end.

Definition literal_value (text : list Z) : Q :=
  ((if hd0 text =? 45 then -1 else 1) * dval (digits text))
    # Z.to_pos (10 ^ Z.of_nat (length (digits (after_dot text)))).

#[export] Instance literal_numeric : Numeric := {|
  numeric := list Z;
  numeric_in := fun text => text;
  numeric_out := fun text => text;
  numeric_cmp := fun a b => sign_of (literal_value a ?= literal_value b)%Q;
  numeric_is_nan := fun _ => false;
|}.

Lemma digits_app a b : digits (a ++ b) = digits a ++ digits b.
Proof. apply List.filter_app. Qed.

Lemma after_dot_digits ds r :
  Forall (fun c => isdigit c = true) ds -> after_dot (ds ++ 46 :: r) = r.
Proof.
  induction 1 as [|c ds Hc _ IH]; cbn; [done|]. rewrite isdigit_iff in Hc.
  by assert ((c =? 46) = false) as -> by lia.
Qed.

Lemma literal_value_text w k text :
  decimal_text w k text -> literal_value text = w # Z.to_pos (10 ^ Z.of_nat k).
Proof.
  intros (ds & fs & -> & (HF & Hd & _ & Hne) & Hl & HFf & Hdf). unfold literal_value.
  assert (hd0 ds <> 45) as H45.
  { destruct ds; [done|]. apply Forall_cons in HF as [Hc _]. rewrite isdigit_iff in Hc. cbn. lia. }
  assert (after_dot ((if w <? 0 then [45] else []) ++ ds ++ [46] ++ fs) = fs) as ->
    by (destruct (w <? 0); cbn; by apply after_dot_digits).
  assert (digits ((if w <? 0 then [45] else []) ++ ds ++ [46] ++ fs) = ds ++ fs) as ->.
  { rewrite !digits_app, (digits_id ds), (digits_id fs) by done. by destruct (w <? 0). }
  assert ((hd0 ((if w <? 0 then [45] else []) ++ ds ++ [46] ++ fs) =? 45) = (w <? 0)) as ->.
  { destruct (w <? 0); [done|]. destruct ds; [done|]. cbn in *. by apply Z.eqb_neq. }
  rewrite (digits_id fs), Hl by done. f_equal. rewrite dval_app, Hd, Hl, Hdf.
  pose proof (Z.pow_pos_nonneg 10 (Z.of_nat k) ltac:(lia) ltac:(lia)).
  pose proof (Z.div_mod (Z.abs w) (10 ^ Z.of_nat k) ltac:(lia)).
  destruct (Z.ltb_spec w 0); lia.
Qed.

#[export] Instance literal_numeric_ok : NumericOk literal_numeric.
Proof.
  apply (Build_NumericOk literal_numeric literal_value); cbn; try done.
  intros w k text H. by rewrite (literal_value_text w k text H).
Defined.

(** ** Concrete instances *)

Lemma numeric_comparisons_exact_witness :
  fixeddecimal_numeric_lt (A := literal_numeric) 12345 (bytes_of_string "1.23451") = true /\
  numeric_fixeddecimal_eq (A := literal_numeric) (bytes_of_string "-1.50") (-15000) = true.
Proof.
  destruct (numeric_comparisons_exact (A := literal_numeric) 12345 (bytes_of_string "1.23451"))
    as (_ & _ & _ & _ & _ & H1 & _); [reflexivity..|].
  destruct (numeric_comparisons_exact (A := literal_numeric) (-15000) (bytes_of_string "-1.50"))
    as (_ & _ & _ & _ & _ & _ & _ & _ & _ & H2 & _); [reflexivity..|].
  split; [exact H1|exact H2].
Defined.

Lemma numeric_roundtrip_witness :
  numeric_fixeddecimal (fixeddecimal_numeric INT64_MIN) = Ok INT64_MIN.
Proof. exact (numeric_roundtrip INT64_MIN eq_refl). Defined.
