(* ===== verification/FixedDecimalAgg.v ===== *)
(** * FixedDecimalAgg: SUM and AVG over MONEY

    Models the aggregate support of [babelfishpg_money/fixeddecimal.c]: the
    transition function, the final functions, the combine function of parallel
    aggregation and the (de)serialisation of the transition state.  A NULL
    argument is [None]; a NULL state is [None]. *)
From stdpp Require Import base list numbers strings.
From S2P Require Import Prelude FixedDecimal.

(** [agg_context] only says where the state is allocated and is left out. *)
Record FixedDecimalAggState := {
  agg_N : Z;
  agg_sumX : Z;
}.

#[export] Instance agg_state_eq_dec : EqDecision FixedDecimalAggState.
Proof. solve_decision. Defined.

(** [palloc0]: all fields zero. *)
Definition makeFixedDecimalAggState : FixedDecimalAggState := {| agg_N := 0; agg_sumX := 0 |}.

Definition fixeddecimal_accum (state : FixedDecimalAggState) (newval : Z)
    : result money_error FixedDecimalAggState :=
  let N := agg_N state in
  let N' := i64 (N + 1) in
  if 0 <? N then
    let result := i64 (agg_sumX state + newval) in
    if SAMESIGN (agg_sumX state) newval && negb (SAMESIGN result (agg_sumX state))
    then Err fixeddecimal_out_of_range
    else Ok {| agg_N := N'; agg_sumX := result |}
  else Ok {| agg_N := N'; agg_sumX := newval |}.

Definition fixeddecimal_avg_accum (state : option FixedDecimalAggState) (arg : option Z)
    : result money_error FixedDecimalAggState :=
  let state := default makeFixedDecimalAggState state in
  match arg with
  | Some newval => fixeddecimal_accum state newval
  | None => Ok state
  end.

Definition fixeddecimal_avg (state : option FixedDecimalAggState) : option Z :=
  match state with
  | None => None
  | Some s => if agg_N s =? 0 then None else Some (Z.quot (agg_sumX s) (agg_N s))
  end.

Definition fixeddecimal_sum (state : option FixedDecimalAggState) : option Z :=
  match state with
  | None => None
  | Some s => if agg_N s =? 0 then None else Some (agg_sumX s)
  end.

(** The server's bigint addition, which raises "bigint out of range". *)
Class Int8Pl := int8pl : Z -> Z -> money_result.
Class Int8PlOk (I : Int8Pl) : Prop :=
  int8pl_ok : forall a b, in_i64 a = true -> in_i64 b = true ->
    int8pl a b = if in_i64 (a + b) then Ok (a + b) else Err bigint_out_of_range.

#[export] Instance int8pl_checked : Int8Pl :=
  fun a b => if in_i64 (a + b) then Ok (a + b) else Err bigint_out_of_range.
#[export] Instance int8pl_checked_ok : Int8PlOk int8pl_checked.
Proof. done. Qed.

Section agg.
Context {P : PgInt} {I : Int8Pl} {F : PgFormat}.

Definition fixeddecimalaggstatecombine (collectstate transstate : option FixedDecimalAggState)
    : result money_error FixedDecimalAggState :=
  let collectstate := default {| agg_N := 0; agg_sumX := 0 |} collectstate in
  match transstate with
  | None => Ok collectstate
  | Some t =>
      let! sumX := fixeddecimalpl (agg_sumX collectstate) (agg_sumX t) in
      let! N := int8pl (agg_N collectstate) (agg_N t) in
      Ok {| agg_N := N; agg_sumX := sumX |}
  end.

Definition fixeddecimalaggstateserialize (state : option FixedDecimalAggState) : option (list Z) :=
  match state with
  | None => None
  | Some s =>
      let buf := pq_sendint64 [] (agg_N s) in
      let buf := pq_sendint64 buf (agg_sumX s) in
      Some buf
  end.

(** [None] is an error of the message reader (too short, or bytes left over). *)
Definition fixeddecimalaggstatedeserialize (sstate : list Z) : option FixedDecimalAggState :=
  match pq_getmsgint64 sstate with
  | Some (N, buf) =>
      match pq_getmsgint64 buf with
      | Some (sumX, buf) =>
          if pq_getmsgend buf then Some {| agg_N := N; agg_sumX := sumX |} else None
      | None => None
      end
  | None => None
  end.

(** The executor's loop over the rows of one group. *)
Definition agg_from (acc : result money_error (option FixedDecimalAggState))
    (rows : list (option Z)) : result money_error (option FixedDecimalAggState) :=
  foldl (fun acc row =>
           let! state := acc in
           let! state := fixeddecimal_avg_accum state row in
           Ok (Some state)) acc rows.

Definition agg_run (rows : list (option Z)) : result money_error (option FixedDecimalAggState) :=
  agg_from (Ok None) rows.

End agg.

(** ** Reference: the non-null inputs, their count and their exact sum *)

Definition values (rows : list (option Z)) : list Z := omap id rows.
Definition Zsum (l : list Z) : Z := foldr Z.add 0 l.

(** Every partial sum fits. *)
Fixpoint sums_fit (acc : Z) (l : list Z) : bool :=
  match l with
  | [] => true
  | x :: l' => in_i64 (acc + x) && sums_fit (acc + x) l'
  end.

(** The state after rows with [n] non-null values adding up to [s]. *)
Definition state_is (st : option FixedDecimalAggState) (n s : Z) : Prop :=
  match st with
  | None => n = 0 /\ s = 0
  | Some a => agg_N a = n /\ agg_sumX a = s
  end.

Lemma accum_spec st n s x :
  state_is st n s -> 0 <= n < INT64_MAX -> (n = 0 -> s = 0) ->
  in_i64 s = true -> in_i64 x = true ->
  fixeddecimal_avg_accum st (Some x) =
    if in_i64 (s + x) then Ok {| agg_N := n + 1; agg_sumX := s + x |}
    else Err fixeddecimal_out_of_range.
Proof.
  intros Hst Hn H0 Hs Hx. unfold fixeddecimal_avg_accum, fixeddecimal_accum.
  assert (agg_N (default makeFixedDecimalAggState st) = n /\
          agg_sumX (default makeFixedDecimalAggState st) = s) as [-> ->]
    by (destruct st; cbn in *; lia).
  unfold INT64_MAX in Hn. rewrite (i64_id (n + 1)) by int_lia.
  destruct (Z.ltb_spec 0 n).
  - pose proof (add_samesign_exact s x Hs Hx) as E. unfold add_samesign, exact in E.
    destruct (in_i64 (s + x)), (SAMESIGN s x && _); congruence.
  - rewrite (H0 ltac:(lia)). by rewrite Z.add_0_l, Hx.
Qed.

Lemma values_some x rows : values (Some x :: rows) = x :: values rows.
Proof. done. Qed.
Lemma values_none rows : values (None :: rows) = values rows.
Proof. done. Qed.
Lemma agg_from_err e rows : agg_from (Err e) rows = Err e.
Proof. by induction rows. Qed.

(** The loop invariant of the executor over the remaining rows. *)
Lemma agg_from_spec rows st n s :
  state_is st n s -> (n = 0 -> s = 0) -> 0 <= n -> n + Z.of_nat (length rows) <= INT64_MAX ->
  in_i64 s = true -> Forall (fun x => in_i64 x = true) (values rows) ->
  if sums_fit s (values rows)
  then exists st', agg_from (Ok st) rows = Ok st' /\
         state_is st' (n + Z.of_nat (length (values rows))) (s + Zsum (values rows))
  else agg_from (Ok st) rows = Err fixeddecimal_out_of_range.
Proof.
  revert st n s. induction rows as [|[x|] rows IH]; intros st n s Hst H0 Hn Hlen Hs HF.
  - exists st. cbn. by rewrite !Z.add_0_r.
  - cbn [length] in Hlen. rewrite values_some in *. apply Forall_cons in HF as [Hx HF].
    cbn [agg_from foldl rbind sums_fit]. rewrite (accum_spec st n s x) by (done || lia).
    destruct (in_i64 (s + x)) eqn:E; cbn [rbind andb]; [|apply agg_from_err].
    specialize (IH (Some {| agg_N := n + 1; agg_sumX := s + x |}) (n + 1) (s + x)).
    destruct (sums_fit (s + x) (values rows)); [|by apply IH; try done; lia].
    destruct IH as (st' & E' & Hst'); try done; try lia.
    exists st'. split; [exact E'|].
    change (Zsum (x :: values rows)) with (x + Zsum (values rows)). cbn [length].
    replace (n + Z.of_nat (S (length (values rows))))
      with (n + 1 + Z.of_nat (length (values rows))) by lia.
    by rewrite Z.add_assoc.
  - cbn [length] in Hlen. rewrite values_none in *.
    apply (IH (Some (default makeFixedDecimalAggState st)) n s); try done; try lia.
    destruct st; cbn in *; [done|lia].
Qed.

Lemma length_values rows : (length (values rows) <= length rows)%nat.
Proof. induction rows as [|[x|] rows IH]; [done|..]; rewrite ?values_some, ?values_none; cbn; lia. Qed.

Lemma Zsum_app l1 l2 : Zsum (l1 ++ l2) = Zsum l1 + Zsum l2.
Proof. induction l1 as [|x l1 IH]; cbn; [done|]. unfold Zsum in *. cbn. rewrite IH. lia. Qed.

Lemma sums_fit_total acc l : in_i64 acc = true -> sums_fit acc l = true -> in_i64 (acc + Zsum l) = true.
Proof.
  revert acc. induction l as [|x l IH]; intros acc Ha H; cbn in *; [by rewrite Z.add_0_r|].
  apply andb_true_iff in H as [H1 H2]. rewrite Z.add_assoc. by apply IH.
Qed.

(** What a successful run leaves behind. *)
Lemma agg_run_state rows st :
  Z.of_nat (length rows) <= INT64_MAX -> Forall (fun x => in_i64 x = true) (values rows) ->
  agg_run rows = Ok st ->
  state_is st (Z.of_nat (length (values rows))) (Zsum (values rows)) /\
  in_i64 (Zsum (values rows)) = true.
Proof.
  intros Hl HF E. pose proof (agg_from_spec rows None 0 0) as H. fold (agg_run rows) in H.
  destruct (sums_fit 0 (values rows)) eqn:Hf; [|rewrite H in E; done].
  destruct H as (st' & E' & Hst); try done. rewrite E in E'. simplify_eq.
  split; [done|]. by apply (sums_fit_total 0).
Qed.

(** ** Properties *)

(** Aggregating the rows of a group keeps the exact count and sum of its
    non-null values; SUM and AVG are NULL for a group without values, otherwise
    the exact sum and the sum divided by the count truncated toward zero; the
    out-of-range error occurs exactly when some running sum leaves int64. *)
Theorem aggregate_sequential rows :
  Z.of_nat (length rows) <= INT64_MAX -> Forall (fun x => in_i64 x = true) (values rows) ->
  let n := Z.of_nat (length (values rows)) in
  if sums_fit 0 (values rows)
  then exists st, agg_run rows = Ok st /\
         fixeddecimal_sum st = (if n =? 0 then None else Some (Zsum (values rows))) /\
         fixeddecimal_avg st = (if n =? 0 then None else Some (Z.quot (Zsum (values rows)) n))
  else agg_run rows = Err fixeddecimal_out_of_range.
Proof.
  intros Hl HF n. pose proof (agg_from_spec rows None 0 0) as H. fold (agg_run rows) in H.
  destruct (sums_fit 0 (values rows)); [|by apply H].
  destruct H as (st & E & Hst); try done. exists st. split; [done|]. rewrite !Z.add_0_l in Hst.
  fold n in Hst. destruct st as [a|]; cbn in *; [destruct Hst as [-> ->]; done|].
  by destruct Hst as [-> _].
Qed.

Section parallel.
Context {P : PgInt} {POk : PgIntOk P} {I : Int8Pl} {IOk : Int8PlOk I}.

(** Parallel aggregation is exact: combining the states of two parts of a
    group gives a state whose SUM and AVG are those of all the values together,
    and fails only when the total sum leaves int64. *)
Theorem aggregate_combine rows1 rows2 st1 st2 :
  let vs := values rows1 ++ values rows2 in
  let n := Z.of_nat (length vs) in
  Z.of_nat (length rows1) + Z.of_nat (length rows2) <= INT64_MAX ->
  Forall (fun x => in_i64 x = true) vs ->
  agg_run rows1 = Ok st1 -> agg_run rows2 = Ok st2 ->
  if in_i64 (Zsum vs)
  then exists st, fixeddecimalaggstatecombine st1 st2 = Ok st /\
         fixeddecimal_sum (Some st) = (if n =? 0 then None else Some (Zsum vs)) /\
         fixeddecimal_avg (Some st) = (if n =? 0 then None else Some (Z.quot (Zsum vs) n))
  else fixeddecimalaggstatecombine st1 st2 = Err fixeddecimal_out_of_range.
Proof.
  intros vs n Hl HF E1 E2. subst vs. apply Forall_app in HF as [HF1 HF2].
  destruct (agg_run_state rows1 st1) as (S1 & R1); [lia|done..|].
  destruct (agg_run_state rows2 st2) as (S2 & R2); [lia|done..|].
  unfold fixeddecimalaggstatecombine. rewrite Zsum_app.
  pose proof (length_values rows1) as L1. pose proof (length_values rows2) as L2.
  subst n. rewrite length_app, Nat2Z.inj_add.
  set (n1 := Z.of_nat (length (values rows1))) in *.
  set (n2 := Z.of_nat (length (values rows2))) in *.
  assert (agg_N (default {| agg_N := 0; agg_sumX := 0 |} st1) = n1 /\
          agg_sumX (default {| agg_N := 0; agg_sumX := 0 |} st1) = Zsum (values rows1)) as [A1 A2]
    by (destruct st1; cbn in *; lia).
  destruct st2 as [t|]; cbn in S2.
  - destruct S2 as [-> ->]. rewrite A1, A2, fixeddecimalpl_exact by done. unfold exact.
    destruct (in_i64 (Zsum (values rows1) + Zsum (values rows2))); cbn [rbind]; [|done].
    unfold INT64_MAX in Hl. rewrite int8pl_ok by int_lia.
    assert (in_i64 (n1 + n2) = true) as -> by int_lia. cbn [rbind]. eexists. split; [done|]. done.
  - destruct S2 as [-> ->]. rewrite !Z.add_0_r, R1. eexists. split; [done|].
    cbn. by rewrite A1, A2.
Qed.
End parallel.

Section serialisation.
Context {F : PgFormat} {FOk : PgFormatOk F}.

(** A transition state that is serialised by a worker and deserialised by the
    leader comes back unchanged. *)
Theorem aggregate_state_roundtrip s buf :
  in_i64 (agg_N s) = true -> in_i64 (agg_sumX s) = true ->
  fixeddecimalaggstateserialize (Some s) = Some buf ->
  fixeddecimalaggstatedeserialize buf = Some s.
Proof.
  intros HN HX E. cbn in E. simplify_eq. unfold fixeddecimalaggstatedeserialize.
  destruct (pq_int64_roundtrip (pq_sendint64 [] (agg_N s)) (agg_sumX s) [] HX) as (e2 & -> & D2).
  destruct (pq_int64_roundtrip [] (agg_N s) e2 HN) as (e1 & -> & D1).
  cbn [app]. rewrite D1. rewrite app_nil_r in D2. rewrite D2.
  rewrite (proj2 (pq_getmsgend_ok []) eq_refl). by destruct s.
Qed.
End serialisation.

(** ** Concrete instances *)

Lemma aggregate_sequential_witness :
  exists st, agg_run [Some 10000; None; Some 5001] = Ok st /\
    fixeddecimal_sum st = Some 15001 /\ fixeddecimal_avg st = Some 7500.
Proof.
  apply (aggregate_sequential [Some 10000; None; Some 5001]);
    [vm_compute; discriminate|repeat constructor].
Defined.

Lemma aggregate_combine_witness :
  exists st, fixeddecimalaggstatecombine (Some {| agg_N := 1; agg_sumX := 7 |})
               (Some {| agg_N := 2; agg_sumX := -4 |}) = Ok st /\
    fixeddecimal_sum (Some st) = Some 3 /\ fixeddecimal_avg (Some st) = Some 1.
Proof.
  apply (aggregate_combine [Some 7] [Some (-5); Some 1]
           (Some {| agg_N := 1; agg_sumX := 7 |}) (Some {| agg_N := 2; agg_sumX := -4 |}));
    [vm_compute; discriminate|repeat constructor|reflexivity..].
Defined.

Lemma aggregate_state_roundtrip_witness :
  fixeddecimalaggstatedeserialize [0; 0; 0; 0; 0; 0; 0; 3; 255; 255; 255; 255; 255; 255; 255; 254]
  = Some {| agg_N := 3; agg_sumX := -2 |}.
Proof.
  apply (aggregate_state_roundtrip {| agg_N := 3; agg_sumX := -2 |}); reflexivity.
Defined.
