(* ===== verification/SmallMoney.v ===== *)
(** * SmallMoney: arithmetic of the SMALLMONEY type

    Models [babelfishpg_money/smallmoney.c] except the four divisions of an
    integer by a SMALLMONEY, which go through double precision.  A SMALLMONEY is
    a domain over MONEY whose values fit in 32 bits; arguments arrive as int64
    and are narrowed where the called function takes int32. *)
From stdpp Require Import base list numbers strings.
From S2P Require Import Prelude FixedDecimal.

Section smallmoney.
Context {P : PgInt}.

Definition smallmoneypl (arg1 arg2 : Z) : money_result :=
  or_overflow (pg_add_s32_overflow (i32 arg1) (i32 arg2)) smallmoney_out_of_range.

Definition smallmoneymi (arg1 arg2 : Z) : money_result :=
  or_overflow (pg_sub_s32_overflow (i32 arg1) (i32 arg2)) smallmoney_out_of_range.

(** [if (result > INT32_MAX || result < INT32_MIN) ereport(ERROR, ...)] *)
Definition check_int32 (result : Z) : money_result :=
  if (INT32_MAX <? result) || (result <? INT32_MIN) then Err smallmoney_out_of_range
  else Ok result.

Definition smallmoneymul (arg1 arg2 : Z) : money_result :=
  let result := Z.quot (i64 (arg1 * arg2)) FIXEDDECIMAL_MULTIPLIER in
  let result :=
    if mul_roundup arg1 arg2
    then if result <? 0 then i64 (result - 1) else i64 (result + 1)
    else result in
  check_int32 result.

Definition smallmoneydiv (arg1 arg2 : Z) : money_result :=
  if arg2 =? 0 then Err division_by_zero
  else check_int32 (Z.quot (i64 (arg1 * FIXEDDECIMAL_MULTIPLIER)) arg2).

(** *** With bigint *)

Definition smallmoneyint8pl (arg1 arg2 : Z) : money_result :=
  let! adder := or_overflow (pg_mul_s64_overflow arg2 FIXEDDECIMAL_MULTIPLIER)
                  smallmoney_out_of_range in
  check_int32 (i64 (arg1 + adder)).

Definition smallmoneyint8mi (arg1 arg2 : Z) : money_result :=
  let! subtractor := or_overflow (pg_mul_s64_overflow arg2 FIXEDDECIMAL_MULTIPLIER)
                       smallmoney_out_of_range in
  check_int32 (i64 (arg1 - subtractor)).

Definition smallmoneyint8mul (arg1 arg2 : Z) : money_result := check_int32 (i128 (arg1 * arg2)).

(** Division by an integer of any width; by -1 it is a checked negation. *)
Definition div_int32 (arg1 arg2 : Z) : money_result :=
  if arg2 =? 0 then Err division_by_zero
  else if arg2 =? -1 then
    if arg1 =? INT32_MIN then Err smallmoney_out_of_range else Ok (i64 (- arg1))
  else Ok (Z.quot arg1 arg2).

Definition smallmoneyint8div (arg1 arg2 : Z) : money_result := div_int32 arg1 arg2.

Definition int8smallmoneypl (arg1 arg2 : Z) : money_result :=
  let! adder := or_overflow (pg_mul_s64_overflow arg1 FIXEDDECIMAL_MULTIPLIER)
                  smallmoney_out_of_range in
  check_int32 (i64 (adder + arg2)).

Definition int8smallmoneymi (arg1 arg2 : Z) : money_result :=
  let! subtractor := or_overflow (pg_mul_s64_overflow arg1 FIXEDDECIMAL_MULTIPLIER)
                       smallmoney_out_of_range in
  check_int32 (i64 (subtractor - arg2)).

Definition int8smallmoneymul (arg1 arg2 : Z) : money_result := check_int32 (i128 (arg1 * arg2)).

(** *** With int *)

Definition smallmoneyint4pl (arg1 arg2 : Z) : money_result :=
  let! adder := or_overflow (pg_mul_s32_overflow arg2 (i32 FIXEDDECIMAL_MULTIPLIER))
                  smallmoney_out_of_range in
  or_overflow (pg_add_s32_overflow (i32 arg1) adder) smallmoney_out_of_range.

Definition smallmoneyint4mi (arg1 arg2 : Z) : money_result :=
  let! subtractor := or_overflow (pg_mul_s32_overflow arg2 (i32 FIXEDDECIMAL_MULTIPLIER))
                       smallmoney_out_of_range in
  or_overflow (pg_sub_s32_overflow (i32 arg1) subtractor) smallmoney_out_of_range.

Definition smallmoneyint4mul (arg1 arg2 : Z) : money_result :=
  or_overflow (pg_mul_s32_overflow (i32 arg1) arg2) smallmoney_out_of_range.

Definition smallmoneyint4div (arg1 arg2 : Z) : money_result := div_int32 arg1 arg2.

Definition int4smallmoneypl (arg1 arg2 : Z) : money_result :=
  let! adder := or_overflow (pg_mul_s32_overflow arg1 (i32 FIXEDDECIMAL_MULTIPLIER))
                  smallmoney_out_of_range in
  or_overflow (pg_add_s32_overflow adder (i32 arg2)) smallmoney_out_of_range.

Definition int4smallmoneymi (arg1 arg2 : Z) : money_result :=
  let! subtractor := or_overflow (pg_mul_s32_overflow arg1 (i32 FIXEDDECIMAL_MULTIPLIER))
                       smallmoney_out_of_range in
  or_overflow (pg_sub_s32_overflow subtractor (i32 arg2)) smallmoney_out_of_range.

Definition int4smallmoneymul (arg1 arg2 : Z) : money_result :=
  or_overflow (pg_mul_s32_overflow arg1 (i32 arg2)) smallmoney_out_of_range.

(** *** With smallint *)

Definition smallmoneyint2pl (arg1 arg2 : Z) : money_result :=
  let adder := i32 (arg2 * i32 FIXEDDECIMAL_MULTIPLIER) in
  or_overflow (pg_add_s32_overflow (i32 arg1) adder) smallmoney_out_of_range.

Definition smallmoneyint2mi (arg1 arg2 : Z) : money_result :=
  let subtractor := i32 (arg2 * i32 FIXEDDECIMAL_MULTIPLIER) in
  or_overflow (pg_sub_s32_overflow (i32 arg1) subtractor) smallmoney_out_of_range.

Definition smallmoneyint2mul (arg1 arg2 : Z) : money_result :=
  or_overflow (pg_mul_s32_overflow (i32 arg1) arg2) smallmoney_out_of_range.

(** Here the result variable is an int32. *)
Definition smallmoneyint2div (arg1 arg2 : Z) : money_result :=
  if arg2 =? 0 then Err division_by_zero
  else if arg2 =? -1 then
    if arg1 =? INT32_MIN then Err smallmoney_out_of_range else Ok (i32 (i64 (- arg1)))
  else Ok (i32 (Z.quot arg1 arg2)).

Definition int2smallmoneypl (arg1 arg2 : Z) : money_result :=
  let adder := i32 (i64 (arg1 * FIXEDDECIMAL_MULTIPLIER)) in
  or_overflow (pg_add_s32_overflow adder (i32 arg2)) smallmoney_out_of_range.

Definition int2smallmoneymi (arg1 arg2 : Z) : money_result :=
  let subtractor := i32 (i64 (arg1 * FIXEDDECIMAL_MULTIPLIER)) in
  or_overflow (pg_sub_s32_overflow subtractor (i32 arg2)) smallmoney_out_of_range.

Definition int2smallmoneymul (arg1 arg2 : Z) : money_result :=
  or_overflow (pg_mul_s32_overflow arg1 (i32 arg2)) smallmoney_out_of_range.

End smallmoney.

(** ** Reference *)

Definition exact32 (z : Z) : money_result :=
  if in_i32 z then Ok z else Err smallmoney_out_of_range.

Lemma check_int32_exact z : check_int32 z = exact32 z.
Proof. unfold check_int32, exact32, in_i32. repeat case_match; done || lia. Qed.

Lemma in_i32_i64 z : in_i32 z = true -> in_i64 z = true.
Proof. int_lia. Qed.

(** An int64 sum of a SMALLMONEY and anything may wrap, but never into the
    range of SMALLMONEY. *)
Lemma exact32_wrapped a b :
  in_i32 a = true -> in_i64 b = true ->
  exact32 (i64 (a + b)) = exact32 (a + b) /\ exact32 (i64 (a - b)) = exact32 (a - b) /\
  exact32 (i64 (b - a)) = exact32 (b - a).
Proof.
  intros Ha Hb. unfold exact32.
  assert (forall x, INT64_MIN - 2147483648 <= x <= INT64_MAX + 2147483648 ->
            (if in_i32 (i64 x) then Ok (i64 x) else Err smallmoney_out_of_range)
            = (if in_i32 x then Ok x else @Err money_error Z smallmoney_out_of_range)) as H.
  { intros x Hx. destruct (in_i64 x) eqn:E; [by rewrite i64_id|].
    assert (in_i32 x = false /\ in_i32 (i64 x) = false) as [-> ->]; [|done].
    clear Ha Hb. split; int_lia. }
  repeat split; apply H; int_lia.
Qed.

Section properties.
Context {P : PgInt} {POk : PgIntOk P}.

Lemma or_overflow_exact32 f op a b :
  overflow_contract in_i32 op f -> in_i32 a = true -> in_i32 b = true ->
  or_overflow (f a b) smallmoney_out_of_range = exact32 (op a b).
Proof. intros. by apply or_overflow_spec. Qed.

Lemma add32 x y : in_i32 x = true -> in_i32 y = true ->
  or_overflow (pg_add_s32_overflow x y) smallmoney_out_of_range = exact32 (x + y).
Proof. apply or_overflow_exact32, pg_add_s32_ok. Qed.
Lemma sub32 x y : in_i32 x = true -> in_i32 y = true ->
  or_overflow (pg_sub_s32_overflow x y) smallmoney_out_of_range = exact32 (x - y).
Proof. apply or_overflow_exact32, pg_sub_s32_ok. Qed.
Lemma mul32 x y : in_i32 x = true -> in_i32 y = true ->
  or_overflow (pg_mul_s32_overflow x y) smallmoney_out_of_range = exact32 (x * y).
Proof. apply or_overflow_exact32, pg_mul_s32_ok. Qed.

(** An int operand is scaled in 32 bits: the rest runs only if that fits. *)
Lemma scale_int4 n (g : Z -> money_result) (r : Z) :
  in_i32 n = true -> (in_i32 (n * 10000) = true -> g (n * 10000) = exact32 r) ->
  rbind (or_overflow (pg_mul_s32_overflow n (i32 FIXEDDECIMAL_MULTIPLIER))
           smallmoney_out_of_range) g
  = if in_i32 (n * 10000) then exact32 r else Err smallmoney_out_of_range.
Proof.
  intros Hn Hg. change (i32 FIXEDDECIMAL_MULTIPLIER) with 10000. rewrite mul32 by done.
  unfold exact32 at 1. destruct (in_i32 (n * 10000)) eqn:E; cbn; [by apply Hg|done].
Qed.

(** A bigint operand is scaled in 64 bits; one that does not fit cannot bring
    the result back into 32 bits. *)
Lemma scale_int8 m (g : Z -> money_result) r :
  in_i64 m = true -> (in_i64 (m * 10000) = true -> g (m * 10000) = exact32 r) ->
  Z.abs (Z.abs r - Z.abs (m * 10000)) <= 2147483648 ->
  rbind (or_overflow (pg_mul_s64_overflow m FIXEDDECIMAL_MULTIPLIER) smallmoney_out_of_range) g
  = exact32 r.
Proof.
  intros Hm Hg Hr. rewrite (or_overflow_spec in_i64 Z.mul) by (done || apply pg_mul_s64_ok).
  unfold FIXEDDECIMAL_MULTIPLIER. destruct (in_i64 (m * 10000)) eqn:E; cbn [rbind]; [by apply Hg|].
  unfold exact32. assert (in_i32 r = false) as ->; [|done]. int_lia.
Qed.

Lemma scale_int2 k :
  in_i16 k = true ->
  i32 (k * i32 FIXEDDECIMAL_MULTIPLIER) = k * 10000 /\
  i32 (i64 (k * FIXEDDECIMAL_MULTIPLIER)) = k * 10000 /\ in_i32 (k * 10000) = true.
Proof.
  intros Hk. change (i32 FIXEDDECIMAL_MULTIPLIER) with 10000. unfold FIXEDDECIMAL_MULTIPLIER.
  assert (in_i32 (k * 10000) = true) as H by int_lia.
  rewrite (i64_id (k * 10000)) by (by apply in_i32_i64). by rewrite i32_id.
Qed.

(** Sums and differences of SMALLMONEY values and with a smallint are exact or
    out of range; with a bigint too, although the int64 sum may wrap; with an
    int the operation is exact whenever the int itself, scaled, fits. *)
Theorem smallmoney_additive_exact a b k n m :
  in_i32 a = true -> in_i32 b = true -> in_i16 k = true -> in_i32 n = true -> in_i64 m = true ->
  let lift r := if in_i32 (n * 10000) then exact32 r else Err smallmoney_out_of_range in
  smallmoneypl a b = exact32 (a + b) /\ smallmoneymi a b = exact32 (a - b) /\
  smallmoneyint2pl a k = exact32 (a + k * 10000) /\
  smallmoneyint2mi a k = exact32 (a - k * 10000) /\
  int2smallmoneypl k a = exact32 (k * 10000 + a) /\
  int2smallmoneymi k a = exact32 (k * 10000 - a) /\
  smallmoneyint4pl a n = lift (a + n * 10000) /\ smallmoneyint4mi a n = lift (a - n * 10000) /\
  int4smallmoneypl n a = lift (n * 10000 + a) /\ int4smallmoneymi n a = lift (n * 10000 - a) /\
  smallmoneyint8pl a m = exact32 (a + m * 10000) /\
  smallmoneyint8mi a m = exact32 (a - m * 10000) /\
  int8smallmoneypl m a = exact32 (m * 10000 + a) /\
  int8smallmoneymi m a = exact32 (m * 10000 - a).
Proof.
  intros Ha Hb Hk Hn Hm lift. subst lift. destruct (scale_int2 k Hk) as (K1 & K2 & K3).
  unfold smallmoneypl, smallmoneymi, smallmoneyint2pl, smallmoneyint2mi, int2smallmoneypl,
    int2smallmoneymi, smallmoneyint4pl, smallmoneyint4mi, int4smallmoneypl, int4smallmoneymi,
    smallmoneyint8pl, smallmoneyint8mi, int8smallmoneypl, int8smallmoneymi.
  cbv zeta. rewrite K1, K2, !(i32_id a), !(i32_id b) by done.
  split_and!; try (apply scale_int4; [done|intros H]); try (apply scale_int8; [done|intros H|int_lia]);
    rewrite ?check_int32_exact; try (apply add32; done); try (apply sub32; done);
    destruct (exact32_wrapped a (m * 10000) Ha H) as (E1 & E2 & E3);
    rewrite ?(Z.add_comm _ a); done.
Qed.

(** Scaling a SMALLMONEY by an integer of any width, in either order, is exact
    or out of range. *)
Theorem smallmoney_scaling_exact a k n m :
  in_i32 a = true -> in_i16 k = true -> in_i32 n = true -> in_i64 m = true ->
  smallmoneyint2mul a k = exact32 (a * k) /\ int2smallmoneymul k a = exact32 (k * a) /\
  smallmoneyint4mul a n = exact32 (a * n) /\ int4smallmoneymul n a = exact32 (n * a) /\
  smallmoneyint8mul a m = exact32 (a * m) /\ int8smallmoneymul m a = exact32 (m * a).
Proof.
  intros Ha Hk Hn Hm. pose proof (in_i16_i32 k Hk).
  unfold smallmoneyint2mul, int2smallmoneymul, smallmoneyint4mul, int4smallmoneymul,
    smallmoneyint8mul, int8smallmoneymul.
  rewrite (i32_id a), !product_i128, !check_int32_exact by auto using in_i32_i64.
  split_and!; done || by apply mul32.
Qed.

(** Dividing a SMALLMONEY by an integer truncates toward zero and overflows
    only for the smallest value divided by -1; SMALLMONEY / SMALLMONEY is the
    exact quotient truncated to four decimals, or out of range. *)
Theorem smallmoney_division_truncates a b n :
  in_i32 a = true -> in_i32 b = true -> in_i64 n = true ->
  let spec := if n =? 0 then Err division_by_zero else exact32 (Z.quot a n) in
  smallmoneydiv a b =
    (if b =? 0 then Err division_by_zero else exact32 (Z.quot (a * 10000) b)) /\
  smallmoneyint8div a n = spec /\
  (in_i32 n = true -> smallmoneyint4div a n = spec) /\
  (in_i16 n = true -> smallmoneyint2div a n = spec).
Proof.
  intros Ha Hb Hn spec.
  assert (div_int32 a n = spec /\ smallmoneyint2div a n = spec) as [E1 E2].
  { subst spec. unfold smallmoneyint2div, div_int32. destruct (Z.eqb_spec n 0) as [|H0]; [done|].
    unfold exact32. destruct (Z.eqb_spec n (-1)) as [->|H1].
    - change (-1) with (Z.opp 1). rewrite Z.quot_opp_r, Z.quot_1_r by done.
      destruct (Z.eqb_spec a INT32_MIN) as [->|H2]; [done|]. unfold INT32_MIN in H2.
      rewrite (i64_id (- a)) by int_lia. assert (in_i32 (- a) = true) as E by int_lia.
      by rewrite E, i32_id.
    - assert (in_i32 (Z.quot a n) = true) as E.
      { pose proof (Z.quot_rem' a n). pose proof (Z.rem_bound_abs a n H0).
        apply in_i32_iff in Ha. apply in_i32_iff.
        assert (0 <= a -> 0 <= Z.rem a n) by (intros; apply Z.rem_nonneg; lia).
        assert (a <= 0 -> Z.rem a n <= 0) by (intros; apply Z.rem_nonpos; lia). nia. }
      by rewrite E, i32_id. }
  split; [|done]. unfold smallmoneydiv, FIXEDDECIMAL_MULTIPLIER. destruct (b =? 0); [done|].
  rewrite check_int32_exact, i64_id by int_lia. done.
Qed.

Lemma smallmoneymul_unfold a b :
  in_i32 a = true -> in_i32 b = true ->
  smallmoneymul a b =
  exact32 (let q := Z.quot (a * b) 10000 in
           if 10000 <=? 2 * Z.abs (Z.rem (a * b) 10000)
           then if q <? 0 then q - 1 else q + 1 else q).
Proof.
  intros Ha Hb. unfold smallmoneymul. cbv zeta. unfold FIXEDDECIMAL_MULTIPLIER.
  apply in_i32_iff in Ha. apply in_i32_iff in Hb. pose proof (rem_small_bound a) as Hr.
  assert (-9223372036854775808 <= a * b <= 9223372036854775807) as Hab by nia.
  destruct (quot_rem_10000 (a * b)) as (E & _). pose proof (rem_small_bound (a * b)).
  rewrite mul_roundup_exact by (apply in_i64_iff; nia).
  rewrite check_int32_exact, !i64_id by (apply in_i64_iff; lia). done.
Qed.

(** SMALLMONEY * SMALLMONEY is the product rounded half away from zero at four
    decimals, or out of range, except that a negative product of less than one
    ten-thousandth that should round to -0.0001 becomes +0.0001. *)
Theorem smallmoneymul_rounds a b :
  in_i32 a = true -> in_i32 b = true ->
  smallmoneymul a b =
    if (-10000 <? a * b) && (a * b <=? -5000) then Ok 1
    else exact32 (round_half_away (a * b) 10000).
Proof.
  intros Ha Hb. rewrite smallmoneymul_unfold by done. unfold round_half_away. cbv zeta.
  destruct (quot_rem_10000 (a * b)) as (E & Hp & Hn). pose proof (rem_small_bound (a * b)) as Hr.
  set (q := Z.quot (a * b) 10000) in *. set (r := Z.rem (a * b) 10000) in *.
  destruct ((-10000 <? a * b) && (a * b <=? -5000)) eqn:C.
  - assert (q = 0) by lia. assert ((10000 <=? 2 * Z.abs r) = true) as -> by lia.
    by assert ((q <? 0) = false) as -> by lia; replace (q + 1) with 1 by lia.
  - f_equal. destruct (Z.leb_spec 10000 (2 * Z.abs r)); [|lia].
    destruct (Z.ltb_spec q 0), (Z.sgn_spec (a * b)); lia.
Qed.
End properties.

(** ** Concrete instances *)

Lemma smallmoney_additive_exact_witness :
  smallmoneypl INT32_MAX 1 = Err smallmoney_out_of_range /\
  smallmoneyint4pl (-1000000000) 250000 = Err smallmoney_out_of_range /\
  smallmoneyint8pl (-1000000000) 250000 = Ok 1500000000.
Proof.
  destruct (smallmoney_additive_exact INT32_MAX 1 0 0 0) as (H1 & _); [reflexivity..|].
  destruct (smallmoney_additive_exact (-1000000000) 0 0 250000 250000)
    as (_ & _ & _ & _ & _ & _ & H2 & _ & _ & _ & H3 & _); [reflexivity..|].
  split; [exact H1|]. split; [exact H2|exact H3].
Defined.

Lemma smallmoney_scaling_exact_witness :
  smallmoneyint2mul 30000 (-2) = Ok (-60000) /\
  smallmoneyint8mul INT32_MAX INT64_MAX = Err smallmoney_out_of_range.
Proof.
  destruct (smallmoney_scaling_exact 30000 (-2) 1 1) as (H1 & _); [reflexivity..|].
  destruct (smallmoney_scaling_exact INT32_MAX 1 1 INT64_MAX) as (_ & _ & _ & _ & H2 & _);
    [reflexivity..|].
  split; [exact H1|exact H2].
Defined.

Lemma smallmoney_division_truncates_witness :
  smallmoneydiv 20000 30000 = Ok 6666 /\
  smallmoneyint8div INT32_MIN (-1) = Err smallmoney_out_of_range.
Proof.
  destruct (smallmoney_division_truncates 20000 30000 1) as (H1 & _); [reflexivity..|].
  destruct (smallmoney_division_truncates INT32_MIN 1 (-1)) as (_ & H2 & _); [reflexivity..|].
  split; [exact H1|exact H2].
Defined.

Lemma smallmoneymul_rounds_witness :
  smallmoneymul 15000 (-10001) = Ok (-15002) /\ smallmoneymul (-1) 5000 = Ok 1.
Proof.
  split; [exact (smallmoneymul_rounds 15000 (-10001) eq_refl eq_refl)|].
  exact (smallmoneymul_rounds (-1) 5000 eq_refl eq_refl).
Defined.
