(* ===== verification/DynaVec.v ===== *)
(** * DynaVec: the growing vectors of the compiler ([dynavec.c], [dynastack.c])

    A vector is a byte buffer with a capacity, a size and an element size, all in
    bytes.  The analyzer, the code generator and the executor keep their stacks
    and code arrays in them; this file shows that they behave as the lists the
    other models use, as long as the initial capacity is not zero. *)
From stdpp Require Import base numbers list.
From S2P Require Import Prelude.
#[local] Open Scope nat_scope.

Definition DEFAULT_INIT_NUM_ELEMS : nat := 16.

Record DynaVec := mk_vec {
  data : list Z;
  capacity : nat;
  size : nat;
  elem_size : nat
}.

(** Results: a value, the allocator's error, or an access outside the buffer. *)
Inductive mem (A : Type) :=
| Mok (a : A)
| Alloc_error
| Out_of_bounds.
Arguments Mok {A} _.
Arguments Alloc_error {A}.
Arguments Out_of_bounds {A}.

Definition mem_bind {A B} (m : mem A) (k : A -> mem B) : mem B :=
  match m with
  | Mok a => k a
  | Alloc_error => Alloc_error
  | Out_of_bounds => Out_of_bounds
  end.
Notation "'let!!' a ':=' m 'in' k" := (mem_bind m (fun a => k))
  (at level 10, a name, m at level 100, k at level 200).

(** [memcpy(buf + off, bs, |bs|)]. *)
Definition store (buf : list Z) (off : nat) (bs : list Z) : mem (list Z) :=
  if decide (off + length bs <= length buf)
  then Mok (take off buf ++ bs ++ drop (off + length bs) buf)
  else Out_of_bounds.

(** [n] bytes at [off]. *)
Definition load (buf : list Z) (off n : nat) : mem (list Z) :=
  if decide (off + n <= length buf) then Mok (take n (drop off buf)) else Out_of_bounds.

Section dynavec.
(** The largest request [palloc] and [repalloc] grant. *)
Variable MaxAllocSize : nat.

(** [fresh]: what [repalloc] finds behind the old contents. *)
Variable fresh : nat -> list Z.
Hypothesis fresh_length : forall n, length (fresh n) = n.

Definition palloc0 (n : nat) : mem (list Z) :=
  if decide (n <= MaxAllocSize) then Mok (replicate n 0%Z) else Alloc_error.

Definition repalloc (buf : list Z) (n : nat) : mem (list Z) :=
  if decide (n <= MaxAllocSize) then Mok (take n buf ++ fresh (n - length buf)) else Alloc_error.

Definition create_vector2 (elem_size init_num_elems : nat) : mem DynaVec :=
  let total_bytes := elem_size * init_num_elems in
  let!! data := palloc0 total_bytes in
  Mok (mk_vec data total_bytes 0 elem_size).

Definition create_vector (elem_size : nat) : mem DynaVec :=
  create_vector2 elem_size DEFAULT_INIT_NUM_ELEMS.

Definition vec_expand (vec : DynaVec) : mem DynaVec :=
  let new_cap := capacity vec * 2 in
  let!! data := repalloc (data vec) new_cap in
  Mok (mk_vec data new_cap (size vec) (elem_size vec)).

Definition vec_push_back (vec : DynaVec) (elem : list Z) : mem DynaVec :=
  let!! vec := (if decide (capacity vec - size vec < elem_size vec) then vec_expand vec else Mok vec) in
  let!! data := store (data vec) (size vec) elem in
  Mok (mk_vec data (capacity vec) (size vec + elem_size vec) (elem_size vec)).

Definition vec_pop_back (vec : DynaVec) : DynaVec :=
  if decide (0 < size vec)
  then mk_vec (data vec) (capacity vec) (size vec - elem_size vec) (elem_size vec)
  else vec.

(** The address [vec_at] computes, and the element there. *)
Definition vec_at (vec : DynaVec) (index : nat) : nat := index * elem_size vec.
Definition elem_at (vec : DynaVec) (off : nat) : mem (list Z) := load (data vec) off (elem_size vec).

Definition vec_back (vec : DynaVec) : option nat :=
  if decide (size vec < elem_size vec) then None
  else Some (vec_at vec (size vec `div` elem_size vec - 1)).

Definition vec_size (vec : DynaVec) : nat := size vec `div` elem_size vec.

Fixpoint fill (n i : nat) (init_val : list Z) (vec : DynaVec) : mem DynaVec :=
  match n with
  | 0 => Mok vec
  | S n' =>
      let!! d := store (data vec) (vec_at vec i) init_val in
      fill n' (S i) init_val (mk_vec d (capacity vec) (size vec) (elem_size vec))
  end.

Definition create_vector3 (elem_size init_num_elems : nat) (init_val : list Z) : mem DynaVec :=
  let!! vec := create_vector2 elem_size init_num_elems in
  fill init_num_elems 0 init_val vec.

Definition create_vector_copy (src : DynaVec) : mem DynaVec :=
  let!! vec := create_vector2 (elem_size src) (vec_size src) in
  let!! bytes := load (data src) 0 (size src) in
  let!! d := store (data vec) 0 bytes in
  Mok (mk_vec d (capacity vec) (size src) (elem_size vec)).

Definition create_stack (elem_size : nat) : mem DynaVec := create_vector elem_size.
Definition create_stack2 (elem_size init_num_elems : nat) : mem DynaVec :=
  create_vector2 elem_size init_num_elems.
Definition stack_top (stack : DynaVec) : option nat := vec_back stack.
Definition stack_pop (stack : DynaVec) : DynaVec := vec_pop_back stack.
Definition stack_push (stack : DynaVec) (elem : list Z) : mem DynaVec := vec_push_back stack elem.
Definition stack_is_empty (stack : DynaVec) : bool := bool_decide (size stack = 0).
Definition stack_size (stack : DynaVec) : nat := vec_size stack.

(** ** The list a vector represents *)

(** The bytes of [xs], elements of [es] bytes each, fill the buffer from the start. *)
Definition represents (vec : DynaVec) (es : nat) (xs : list (list Z)) : Prop :=
  0 < es /\ elem_size vec = es /\ length (data vec) = capacity vec /\ Forall (fun x => length x = es) xs /\
  size vec = es * length xs /\ size vec <= capacity vec /\ take (size vec) (data vec) = concat xs.

(** A vector that can grow. *)
Definition growing (vec : DynaVec) : Prop := elem_size vec <= capacity vec.

Lemma length_concat_same es (xs : list (list Z)) :
  Forall (fun x => length x = es) xs -> length (concat xs) = es * length xs.
Proof. induction 1 as [|x xs Hx _ IH]; cbn; [lia|]. rewrite length_app, IH, Hx. lia. Qed.

Lemma size_div es n : 0 < es -> (es * n) `div` es = n.
Proof. intros. rewrite Nat.mul_comm. apply Nat.div_mul. lia. Qed.

Lemma vec_size_length vec es xs : represents vec es xs -> vec_size vec = length xs.
Proof. intros (He & Hes & _ & _ & Hs & _). unfold vec_size. rewrite Hes, Hs. by apply size_div. Qed.

Lemma concat_lookup es (xs : list (list Z)) i x :
  Forall (fun x => length x = es) xs -> xs !! i = Some x -> take es (drop (i * es) (concat xs)) = x.
Proof.
  intros Hall. revert i. induction Hall as [|y xs Hy _ IH]; intros [|i] Hi; try done; cbn in *.
  - injection Hi as ->. rewrite drop_0. by apply take_app_length'.
  - rewrite drop_app_ge by lia. replace (es + i * es - length y) with (i * es) by lia. by apply IH.
Qed.

(** Reading an element gives the element. *)
Lemma elem_at_lookup vec es xs i x :
  represents vec es xs -> xs !! i = Some x -> elem_at vec (vec_at vec i) = Mok x.
Proof.
  intros (He & Hes & Hd & Hall & Hs & Hle & Ht) Hi. unfold elem_at, vec_at, load. rewrite Hes.
  pose proof (lookup_lt_Some _ _ _ Hi) as Hlt.
  assert (i * es + es <= size vec) by (rewrite Hs; nia).
  rewrite decide_True by lia. f_equal. rewrite <-(concat_lookup es xs i x) by done. rewrite <-Ht.
  rewrite skipn_firstn_comm, take_take. f_equal. lia.
Qed.

Lemma vec_expand_ok vec es xs :
  represents vec es xs -> growing vec ->
  vec_expand vec = Alloc_error \/
  exists vec', vec_expand vec = Mok vec' /\ represents vec' es xs /\ growing vec' /\
    es <= capacity vec' - size vec'.
Proof.
  intros (He & Hes & Hd & Hall & Hs & Hle & Ht) Hg. unfold vec_expand, repalloc, growing in *.
  case_decide; [|by left]. right. eexists. split; [done|]. unfold represents. cbn.
  rewrite length_app, length_take, fresh_length. split_and!; try done; try lia.
  rewrite (take_ge (data vec)) by lia. by rewrite take_app_le by lia.
Qed.

Lemma store_ok buf off bs :
  off + length bs <= length buf -> store buf off bs = Mok (take off buf ++ bs ++ drop (off + length bs) buf).
Proof. intros. unfold store. by rewrite decide_True. Qed.

Lemma vec_push_back_ok vec es xs x :
  represents vec es xs -> growing vec -> length x = es ->
  vec_push_back vec x = Alloc_error \/
  exists vec', vec_push_back vec x = Mok vec' /\ represents vec' es (xs ++ [x]) /\ growing vec'.
Proof.
  intros Hr Hg Hx. unfold vec_push_back.
  assert ((if decide (capacity vec - size vec < elem_size vec) then vec_expand vec else Mok vec) = Alloc_error \/
    exists v, (if decide (capacity vec - size vec < elem_size vec) then vec_expand vec else Mok vec) = Mok v /\
      represents v es xs /\ growing v /\ es <= capacity v - size v) as [->|(v & -> & Hv & Hgv & Hroom)].
  { case_decide; [by apply vec_expand_ok|]. right. exists vec. pose proof Hr as (_ & Hes & _).
    split_and!; try done. lia. }
  { by left. }
  right. destruct Hv as (He & Hes & Hd & Hall & Hs & Hle & Ht). cbn [mem_bind].
  rewrite store_ok by lia. eexists. split; [done|]. unfold represents, growing in *. cbn.
  rewrite Hes, length_app, concat_app. cbn. rewrite app_nil_r, !length_app, length_take, length_drop.
  split_and!; try done; try lia.
  - apply Forall_app; auto.
  - cbn. lia.
  - rewrite <-Ht, app_assoc. apply take_app_length'. rewrite length_app, length_take. lia.
Qed.

Lemma vec_pop_back_ok vec es xs :
  represents vec es xs -> growing vec ->
  represents (vec_pop_back vec) es (take (length xs - 1) xs) /\ growing (vec_pop_back vec).
Proof.
  intros (He & Hes & Hd & Hall & Hs & Hle & Ht) Hg. unfold vec_pop_back. case_decide as Hpos.
  - split; [|done]. unfold represents. cbn.
    assert (0 < length xs) by nia. destruct xs as [|x xs _] using rev_ind; [cbn in *; lia|].
    rewrite length_app. cbn. replace (length xs + 1 - 1) with (length xs) by lia.
    rewrite take_app_length. apply Forall_app in Hall as [Hall Hx].
    rewrite length_app in Hs. cbn in Hs. rewrite Hes.
    split_and!; try done; try nia.
    rewrite concat_app in Ht. apply (f_equal (take (size vec - es))) in Ht.
    rewrite take_take in Ht. replace ((size vec - es) `min` size vec) with (size vec - es) in Ht by lia.
    rewrite Ht. rewrite take_app_le by (rewrite (length_concat_same es) by done; nia).
    rewrite take_ge; [done|]. rewrite (length_concat_same es) by done. nia.
  - assert (length xs = 0) as Hl by nia. destruct xs; [|done]. done.
Qed.

(** ** Sequences of operations *)

(** What a client does with a vector or a stack. *)
Inductive vec_op :=
| Push (elem : list Z)
| Pop
| At (index : nat)
| Back
| Size
| Is_empty.

(** What it sees: an element, a size, a null pointer, nothing. *)
Inductive vec_obs :=
| O_elem (elem : list Z)
| O_null
| O_size (n : nat)
| O_bool (b : bool)
| O_unit.

Definition run_vec (op : vec_op) (vec : DynaVec) : mem (vec_obs * DynaVec) :=
  match op with
  | Push x => let!! vec := vec_push_back vec x in Mok (O_unit, vec)
  | Pop => Mok (O_unit, vec_pop_back vec)
  | At i => let!! x := elem_at vec (vec_at vec i) in Mok (O_elem x, vec)
  | Back =>
      match vec_back vec with
      | None => Mok (O_null, vec)
      | Some off => let!! x := elem_at vec off in Mok (O_elem x, vec)
      end
  | Size => Mok (O_size (vec_size vec), vec)
  | Is_empty => Mok (O_bool (stack_is_empty vec), vec)
  end.

Fixpoint run_vecs (ops : list vec_op) (vec : DynaVec) : mem (list vec_obs * DynaVec) :=
  match ops with
  | [] => Mok ([], vec)
  | op :: ops' =>
      let!! r := run_vec op vec in
      let!! rs := run_vecs ops' (snd r) in
      Mok (fst r :: fst rs, snd rs)
  end.

(** The same operations on a list; [None]: an index outside it. *)
Definition run_list (op : vec_op) (xs : list (list Z)) : option (vec_obs * list (list Z)) :=
  match op with
  | Push x => Some (O_unit, xs ++ [x])
  | Pop => Some (O_unit, take (length xs - 1) xs)
  | At i => x ← xs !! i; Some (O_elem x, xs)
  | Back => Some (match last xs with Some x => O_elem x | None => O_null end, xs)
  | Size => Some (O_size (length xs), xs)
  | Is_empty => Some (O_bool (bool_decide (xs = [])), xs)
  end.

Fixpoint run_lists (ops : list vec_op) (xs : list (list Z)) : option (list vec_obs * list (list Z)) :=
  match ops with
  | [] => Some ([], xs)
  | op :: ops' =>
      r ← run_list op xs;
      rs ← run_lists ops' (snd r);
      Some (fst r :: fst rs, snd rs)
  end.

Definition elems_of_size (es : nat) (op : vec_op) : Prop :=
  match op with Push x => length x = es | _ => True end.

Lemma vec_back_ok vec es xs :
  represents vec es xs ->
  match last xs with
  | None => vec_back vec = None
  | Some x => exists off, vec_back vec = Some off /\ elem_at vec off = Mok x
  end.
Proof.
  intros Hr. pose proof (vec_size_length _ _ _ Hr) as Hv. unfold vec_size in Hv.
  pose proof Hr as (He & Hes & _ & _ & Hs & _). unfold vec_back. rewrite Hv, Hes.
  destruct (last xs) as [x|] eqn:Hl.
  - assert (xs <> []) as Hne by (by intros ->). rewrite last_lookup in Hl.
    assert (length xs <> 0) by (by destruct xs). rewrite decide_False by nia.
    eexists. split; [done|]. replace (pred (length xs)) with (length xs - 1) in Hl by lia.
    by apply (elem_at_lookup vec es xs).
  - apply last_None in Hl as ->. rewrite decide_True by (cbn in Hs; lia). done.
Qed.

Lemma run_vec_ok op vec es xs obs xs' :
  represents vec es xs -> growing vec -> elems_of_size es op -> run_list op xs = Some (obs, xs') ->
  run_vec op vec = Alloc_error \/
  exists vec', run_vec op vec = Mok (obs, vec') /\ represents vec' es xs' /\ growing vec'.
Proof.
  intros Hr Hg Hop Hl. destruct op as [x| |i| | |]; cbn in *.
  - injection Hl as <- <-. destruct (vec_push_back_ok vec es xs x Hr Hg Hop) as [->|(v & -> & ? & ?)];
      [by left|right]. exists v. done.
  - injection Hl as <- <-. right. eexists. split; [done|]. by apply vec_pop_back_ok.
  - destruct (xs !! i) as [x|] eqn:Hi; [|done]. injection Hl as <- <-. right.
    rewrite (elem_at_lookup _ _ _ _ _ Hr Hi). by eexists.
  - injection Hl as <- <-. right. pose proof (vec_back_ok _ _ _ Hr) as Hb. destruct (last xs) as [x|].
    + destruct Hb as (off & -> & ->). by eexists.
    + rewrite Hb. by eexists.
  - injection Hl as <- <-. right. rewrite (vec_size_length _ _ _ Hr). by eexists.
  - injection Hl as <- <-. right. eexists. split; [|done]. do 2 f_equal. f_equal. unfold stack_is_empty.
    apply bool_decide_ext. destruct Hr as (He & _ & _ & _ & Hs & _). rewrite Hs.
    split; [|by intros ->; cbn; lia]. intros H. destruct xs; [done|]. cbn in H. nia.
Qed.

Lemma run_vecs_ok ops : forall vec es xs obs xs',
  represents vec es xs -> growing vec -> Forall (elems_of_size es) ops ->
  run_lists ops xs = Some (obs, xs') ->
  run_vecs ops vec = Alloc_error \/
  exists vec', run_vecs ops vec = Mok (obs, vec') /\ represents vec' es xs' /\ growing vec'.
Proof.
  induction ops as [|op ops IH]; intros vec es xs obs xs' Hr Hg Ho Hl; cbn in *.
  { injection Hl as <- <-. right. by eexists. }
  apply Forall_cons in Ho as [Ho1 Ho]. destruct (run_list op xs) as [[o ys]|] eqn:H1; [|done]. cbn in Hl.
  destruct (run_lists ops ys) as [[os zs]|] eqn:H2; [|done]. injection Hl as <- <-.
  destruct (run_vec_ok op vec es xs o ys Hr Hg Ho1 H1) as [->|(v & -> & Hv & Hgv)]; [by left|].
  cbn. destruct (IH v es ys os zs Hv Hgv Ho H2) as [->|(v' & -> & ? & ?)]; [by left|right].
  exists v'. done.
Qed.

Lemma create_vector2_ok es n :
  0 < es -> 0 < n ->
  create_vector2 es n = Alloc_error \/
  exists vec, create_vector2 es n = Mok vec /\ represents vec es [] /\ growing vec.
Proof.
  intros He Hn. unfold create_vector2, palloc0. case_decide; [|by left]. right.
  eexists. split; [done|]. unfold represents, growing. cbn. rewrite length_replicate.
  split_and!; try done; try nia.
Qed.

(** C32: A vector (or stack) created with room for at least one element behaves as a list under every sequence of push, pop, indexed read, back, size and emptiness test within bounds: it never touches memory outside its buffer, however often it grows, unless the allocator refuses. *)
Theorem dynavec_refines_list es n ops obs xs :
  0 < es -> 0 < n -> Forall (elems_of_size es) ops -> run_lists ops [] = Some (obs, xs) ->
  (let!! vec := create_vector2 es n in run_vecs ops vec) = Alloc_error \/
  exists vec, (let!! v := create_vector2 es n in run_vecs ops v) = Mok (obs, vec) /\
    represents vec es xs /\ growing vec.
Proof.
  intros He Hn Ho Hl. destruct (create_vector2_ok es n He Hn) as [->|(v & -> & Hr & Hg)]; [by left|].
  by apply (run_vecs_ok ops v es [] obs xs).
Qed.

(** ** Copies and initialised vectors *)

Lemma create_vector_copy_ok vec es xs :
  represents vec es xs ->
  create_vector_copy vec = Alloc_error \/
  exists vec', create_vector_copy vec = Mok vec' /\ represents vec' es xs /\ capacity vec' = size vec'.
Proof.
  intros Hr. pose proof (vec_size_length _ _ _ Hr) as Hv.
  destruct Hr as (He & Hes & Hd & Hall & Hs & Hle & Ht). unfold create_vector_copy, create_vector2, palloc0.
  rewrite Hv, Hes. case_decide; [right|by left]. cbn [mem_bind]. unfold load. rewrite decide_True by lia.
  cbn [mem_bind data capacity elem_size]. rewrite drop_0, Ht.
  assert (length (concat xs) = es * length xs) as Hc by (by apply length_concat_same).
  rewrite store_ok by (rewrite length_replicate; lia). eexists. split; [done|]. cbn.
  unfold represents. cbn. rewrite !length_app, length_take, length_drop, length_replicate, Hc, Hs.
  split_and!; try done; try lia.
  rewrite drop_ge by (rewrite length_replicate; lia). rewrite app_nil_r, take_0.
  cbn. rewrite take_ge by lia. done.
Qed.

(** A copy of a vector has the same elements; the copy of an empty vector, however, has capacity zero, doubling keeps it at zero, and the first push writes outside its buffer. *)
Theorem vector_copy vec es xs :
  represents vec es xs ->
  create_vector_copy vec = Alloc_error \/
  exists vec', create_vector_copy vec = Mok vec' /\ represents vec' es xs /\
    (xs <> [] -> growing vec') /\
    (xs = [] -> forall x, length x = es -> vec_push_back vec' x = Out_of_bounds).
Proof.
  intros Hr. destruct (create_vector_copy_ok vec es xs Hr) as [->|(v & -> & Hv & Hcap)]; [by left|right].
  exists v. pose proof Hv as (He & Hes & Hd & Hall & Hs & Hle & Ht). split_and!; try done.
  - intros Hx. unfold growing. destruct xs; [done|]. cbn in Hs. nia.
  - intros -> x Hx. cbn in Hs. unfold vec_push_back. rewrite decide_True by lia.
    unfold vec_expand, repalloc. rewrite decide_True by lia. cbn [mem_bind data size].
    unfold store. rewrite decide_False; [done|].
    rewrite length_app, length_take, fresh_length. lia.
Qed.

Lemma fill_size n : forall i x vec vec', fill n i x vec = Mok vec' -> size vec' = size vec.
Proof.
  induction n as [|n IH]; intros i x vec vec' Hf; cbn in Hf; [by injection Hf as <-|].
  destruct (store _ _ _); try done. cbn in Hf. by apply IH in Hf.
Qed.

(** [create_vector3] writes its initial elements but leaves the size at zero: the vector it returns reports no elements. *)
Theorem create_vector3_reports_empty es n x vec :
  0 < es -> create_vector3 es n x = Mok vec -> vec_size vec = 0 /\ vec_back vec = None.
Proof.
  intros He Hc. unfold create_vector3, create_vector2, palloc0 in Hc. case_decide; [|done]. cbn in Hc.
  assert (forall m i v v', fill m i x v = Mok v' -> elem_size v' = elem_size v) as Hesz.
  { induction m as [|m IH]; intros i v v' Hf; cbn in Hf; [by injection Hf as <-|].
    destruct (store _ _ _); try done. cbn in Hf. by apply IH in Hf. }
  pose proof (fill_size _ _ _ _ _ Hc) as Hs. pose proof (Hesz _ _ _ _ Hc) as Hz. cbn in Hs, Hz.
  unfold vec_size, vec_back. rewrite Hs, Hz, decide_True by lia. split; [|done].
  apply Nat.div_small. lia.
Qed.
End dynavec.

Lemma dynavec_refines_list_witness :
  (let!! vec := create_vector2 1000 2 1 in
   run_vecs 1000 (fun n => replicate n 0%Z) [Push [1; 2]; Push [3; 4]; Back; Pop; At 0; Size]%Z vec) = Alloc_error \/
  exists vec, (let!! v := create_vector2 1000 2 1 in
     run_vecs 1000 (fun n => replicate n 0%Z) [Push [1; 2]; Push [3; 4]; Back; Pop; At 0; Size]%Z v) =
     Mok ([O_unit; O_unit; O_elem [3; 4]; O_unit; O_elem [1; 2]; O_size 1]%Z, vec) /\
    represents vec 2 [[1; 2]]%Z /\ growing vec.
Proof.
  apply (dynavec_refines_list 1000 (fun n => replicate n 0%Z) (fun n => length_replicate n 0%Z) 2 1
           [Push [1; 2]; Push [3; 4]; Back; Pop; At 0; Size]%Z); try lia; [|reflexivity].
  repeat constructor.
Defined.

Lemma vector_copy_witness :
  create_vector_copy 1000 (mk_vec [0; 0]%Z 2 0 2) = Alloc_error \/
  exists vec', create_vector_copy 1000 (mk_vec [0; 0]%Z 2 0 2) = Mok vec' /\ represents vec' 2 [] /\
    (@nil (list Z) <> [] -> growing vec') /\
    (@nil (list Z) = [] -> forall x, length x = 2 ->
       vec_push_back 1000 (fun n => replicate n 0%Z) vec' x = Out_of_bounds).
Proof.
  apply (vector_copy 1000 (fun n => replicate n 0%Z) (fun n => length_replicate n 0%Z)
           (mk_vec [0; 0]%Z 2 0 2) 2 []).
  unfold represents. cbn. repeat split; try lia. constructor.
Defined.

Lemma create_vector3_reports_empty_witness :
  vec_size (mk_vec [7; 8; 7; 8]%Z 4 0 2) = 0 /\ vec_back (mk_vec [7; 8; 7; 8]%Z 4 0 2) = None.
Proof.
  apply (create_vector3_reports_empty 1000 2 2 [7; 8]%Z (mk_vec [7; 8; 7; 8]%Z 4 0 2)); [lia|].
  vm_compute. reflexivity.
Defined.
