(* ===== verification/PltsqlAst.v ===== *)
(** * PltsqlAst: the PL/tsql statement tree and its walker

    The statement nodes of [pltsql.h] that steer control flow, the leaf
    statements by kind, and the traversal of [stmt_walker.c].  A node is known
    by its address; expressions and the contents of leaf statements are opaque,
    as they are to the analyzer and the code generator. *)
From stdpp Require Import base list numbers strings gmap.
From S2P Require Import Prelude.
#[global] Open Scope nat_scope.

(** The address of a node, and an opaque condition expression. *)
Definition ptr : Type := nat.
Definition PLtsql_expr : Type := nat.

(** What every node starts with. *)
Record hdr := { addr : ptr; lineno : Z }.

(** Leaf statements of [PLtsql_stmt_type].  [ST_plpgsql] stands for the kinds
    inherited from PL/pgSQL that no T-SQL program contains (CASE, LOOP, FORI,
    FORS, FORC, FOREACH_A, RETURN_NEXT, RAISE, ASSERT, DYNEXECUTE, DYNFORS,
    GETDIAG, PERFORM, CALL, SET), by their number. *)
Inductive stmt_type :=
| ST_ASSIGN | ST_RETURN_QUERY | ST_EXECSQL | ST_OPEN | ST_FETCH | ST_CLOSE
| ST_COMMIT | ST_ROLLBACK | ST_PRINT | ST_KILL | ST_QUERY_SET | ST_PUSH_RESULT
| ST_EXEC | ST_EXEC_BATCH | ST_EXEC_SP | ST_DECL_TABLE | ST_RETURN_TABLE
| ST_DEALLOCATE | ST_DECL_CURSOR | ST_RAISERROR | ST_THROW | ST_USEDB
| ST_GRANTDB | ST_CHANGE_DBOWNER | ST_FULLTEXTINDEX | ST_GRANTSCHEMA
| ST_PARTITION_FUNCTION | ST_PARTITION_SCHEME | ST_INSERT_BULK | ST_DBCC
| ST_SET_EXPLAIN_MODE | ST_ALTER_DB
| ST_plpgsql (n : nat).

(** A statement pointer; [Snull] is the null pointer. *)
Inductive stmt :=
| Snull
| Sblock (h : hdr) (body : list stmt)
| Sif (h : hdr) (cond : PLtsql_expr) (then_body else_body : stmt)
| Swhile (h : hdr) (cond : PLtsql_expr) (body : list stmt)
| Sexit (h : hdr) (is_exit : bool)
| Sreturn (h : hdr)
| Sgoto (h : hdr) (target_label : string)
| Slabel (h : hdr) (label : string)
| Stry_catch (h : hdr) (body handler : stmt)
| Sinit (h : hdr) (inits : list stmt)
| Ssimple (h : hdr) (cmd_type : stmt_type).

Definition is_null (s : stmt) : bool :=
  match s with Snull => true | _ => false end.

(** Induction with the hypothesis for the members of statement lists. *)
Section stmt_induction.
Variable P : stmt -> Prop.
Hypothesis Pnull : P Snull.
Hypothesis Pblock : forall h body, Forall P body -> P (Sblock h body).
Hypothesis Pif : forall h c t e, P t -> P e -> P (Sif h c t e).
Hypothesis Pwhile : forall h c body, Forall P body -> P (Swhile h c body).
Hypothesis Pexit : forall h b, P (Sexit h b).
Hypothesis Preturn : forall h, P (Sreturn h).
Hypothesis Pgoto : forall h l, P (Sgoto h l).
Hypothesis Plabel : forall h l, P (Slabel h l).
Hypothesis Ptry : forall h b c, P b -> P c -> P (Stry_catch h b c).
Hypothesis Pinit : forall h inits, Forall P inits -> P (Sinit h inits).
Hypothesis Psimple : forall h ty, P (Ssimple h ty).

Fixpoint stmt_nested_ind (s : stmt) : P s :=
  let all := fix all (ss : list stmt) : Forall P ss :=
    match ss with
    | [] => Forall_nil_2 P
    | s :: ss' => Forall_cons_2 P s ss' (stmt_nested_ind s) (all ss')
    end in
  match s with
  | Snull => Pnull
  | Sblock h body => Pblock h body (all body)
  | Sif h c t e => Pif h c t e (stmt_nested_ind t) (stmt_nested_ind e)
  | Swhile h c body => Pwhile h c body (all body)
  | Sexit h b => Pexit h b
  | Sreturn h => Preturn h
  | Sgoto h l => Pgoto h l
  | Slabel h l => Plabel h l
  | Stry_catch h b c => Ptry h b c (stmt_nested_ind b) (stmt_nested_ind c)
  | Sinit h inits => Pinit h inits (all inits)
  | Ssimple h ty => Psimple h ty
  end.
End stmt_induction.

(** [foreach]: run the visitor on every member of a statement list. *)
Definition foreach {S E : Type} (visit : stmt -> S -> result E S)
    : list stmt -> S -> result E S :=
  fix go ss st :=
    match ss with
    | [] => Ok st
    | s :: ss' => let! st := visit s st in go ss' st
    end.

(** [stmt_walker]: visit the children of a node. *)
Definition stmt_walker {S E : Type} (walker : stmt -> S -> result E S) (s : stmt) (st : S)
    : result E S :=
  match s with
  | Sblock _ body => foreach walker body st
  | Sif _ _ then_body else_body =>
      let! st := walker then_body st in
      if is_null else_body then Ok st else walker else_body st
  | Swhile _ _ body => foreach walker body st
  | Sinit _ inits => foreach walker inits st
  | Stry_catch _ body handler => let! st := walker body st in walker handler st
  | Snull | Sexit _ _ | Sreturn _ | Sgoto _ _ | Slabel _ _ | Ssimple _ _ => Ok st
  end.

(** The kinds [general_walker_func] dispatches; the others are an error. *)
Definition walker_supports (ty : stmt_type) : bool :=
  match ty with ST_plpgsql _ => false | _ => true end.

(** Label names are hash keys of [NAMEDATALEN] bytes: at most 63 characters and
    the terminator are kept. *)
Definition NAMEDATALEN : nat := 64.
Definition label_key (l : string) : string := String.substring 0 (NAMEDATALEN - 1) l.

(** ** Parts of a tree *)

(** The headers of all nodes, in traversal order. *)
Fixpoint hdrs (s : stmt) : list hdr :=
  match s with
  | Snull => []
  | Sblock h ss | Swhile h _ ss | Sinit h ss => h :: flat_map hdrs ss
  | Sif h _ a b | Stry_catch h a b => h :: hdrs a ++ hdrs b
  | Sexit h _ | Sreturn h | Sgoto h _ | Slabel h _ | Ssimple h _ => [h]
  end.

Definition addrs (s : stmt) : list ptr := map addr (hdrs s).

(** The user labels a tree defines, as hash keys, in traversal order. *)
Fixpoint user_labels (s : stmt) : list string :=
  match s with
  | Slabel _ l => [label_key l]
  | Sblock _ ss | Swhile _ _ ss | Sinit _ ss => flat_map user_labels ss
  | Sif _ _ a b | Stry_catch _ a b => user_labels a ++ user_labels b
  | _ => []
  end.

(** The GOTO statements of a tree, in traversal order. *)
Fixpoint gotos_of (s : stmt) : list (hdr * string) :=
  match s with
  | Sgoto h l => [(h, l)]
  | Sblock _ ss | Swhile _ _ ss | Sinit _ ss => flat_map gotos_of ss
  | Sif _ _ a b | Stry_catch _ a b => gotos_of a ++ gotos_of b
  | _ => []
  end.

(** A property of all members of a list, in a form recursive definitions accept. *)
Definition every (P : stmt -> Prop) : list stmt -> Prop :=
  fix go ss := match ss with [] => True | s :: ss' => P s /\ go ss' end.

Lemma every_Forall P ss : every P ss <-> Forall P ss.
Proof. induction ss as [|s ss IH]; cbn; [done|]. by rewrite Forall_cons, IH. Qed.

Lemma foreach_app {S E} (visit : stmt -> S -> result E S) ss1 ss2 st :
  foreach visit (ss1 ++ ss2) st = rbind (foreach visit ss1 st) (foreach visit ss2).
Proof.
  revert st; induction ss1 as [|s ss1 IH]; intros st; cbn; [done|].
  destruct (visit s st); cbn; [apply IH | done].
Qed.
