(* ===== verification/Analyzer.v ===== *)
(** * Analyzer: scopes, labels and the GOTO checks ([analyzer.c])

    The walk records, for every GOTO, label, loop, BREAK/CONTINUE and RETURN,
    which TRY/CATCH blocks and loops enclose it, and rejects programs that jump
    into such a block.  The code generator uses the recorded scopes. *)
From stdpp Require Import base list numbers strings gmap.
From S2P Require Import Prelude PltsqlAst.

(** [TryCatchInfo]: an enclosing TRY/CATCH and which of its halves. *)
Record TryCatchInfo := { tc_stmt : ptr; in_try_block : bool }.

#[global] Instance TryCatchInfo_eq_dec : EqDecision TryCatchInfo.
Proof. solve_decision. Defined.

Record ScopeContext := {
  nesting_trycatch_infos : list TryCatchInfo;
  nesting_loops : list ptr
}.

(** [CompileContext], passed on to the code generator. *)
Record CompileContext := {
  stmt_scope_context : gmap ptr ScopeContext;
  label_stmt_map : gmap string hdr
}.

(** [AnalyzerContext].  Vectors are lists with the back element last. *)
Record AnalyzerContext := {
  trycatch_info_stack : list TryCatchInfo;
  loop_stack : list ptr;
  gotos : list (hdr * string);
  cmpl_ctx : CompileContext
}.

Inductive analyze_error :=
| unsupported_statement (ty : stmt_type)
| label_not_unique (l : string) (line previous_line : Z)
| break_outside_loop (line : Z)
| continue_outside_loop (line : Z)
| goto_label_not_defined (l : string)
| goto_into_try_catch (l : string)
| goto_into_loop (l : string)
| null_dereference.

Definition set_trycatch_stack (v : list TryCatchInfo) (a : AnalyzerContext) : AnalyzerContext :=
  {| trycatch_info_stack := v; loop_stack := loop_stack a; gotos := gotos a;
     cmpl_ctx := cmpl_ctx a |}.

Definition set_loop_stack (v : list ptr) (a : AnalyzerContext) : AnalyzerContext :=
  {| trycatch_info_stack := trycatch_info_stack a; loop_stack := v; gotos := gotos a;
     cmpl_ctx := cmpl_ctx a |}.

(** The vector without its back element. *)
Definition pop_back {A} (v : list A) : list A := take (length v - 1) v.

Definition save_scope (h : hdr) (a : AnalyzerContext) : AnalyzerContext :=
  {| trycatch_info_stack := trycatch_info_stack a; loop_stack := loop_stack a; gotos := gotos a;
     cmpl_ctx :=
       {| stmt_scope_context :=
            <[addr h := {| nesting_trycatch_infos := trycatch_info_stack a;
                           nesting_loops := loop_stack a |}]> (stmt_scope_context (cmpl_ctx a));
          label_stmt_map := label_stmt_map (cmpl_ctx a) |} |}.

Definition push_goto (h : hdr) (l : string) (a : AnalyzerContext) : AnalyzerContext :=
  {| trycatch_info_stack := trycatch_info_stack a; loop_stack := loop_stack a;
     gotos := gotos a ++ [(h, l)]; cmpl_ctx := cmpl_ctx a |}.

Definition set_label (l : string) (h : hdr) (a : AnalyzerContext) : AnalyzerContext :=
  {| trycatch_info_stack := trycatch_info_stack a; loop_stack := loop_stack a; gotos := gotos a;
     cmpl_ctx := {| stmt_scope_context := stmt_scope_context (cmpl_ctx a);
                    label_stmt_map := <[label_key l := h]> (label_stmt_map (cmpl_ctx a)) |} |}.

Definition visitor : Type := stmt -> AnalyzerContext -> result analyze_error AnalyzerContext.

Definition analyzer_try_catch_act (walk : visitor) (h : hdr) (body handler : stmt)
    (a : AnalyzerContext) : result analyze_error AnalyzerContext :=
  let a := set_trycatch_stack
             (trycatch_info_stack a ++ [{| tc_stmt := addr h; in_try_block := true |}]) a in
  let! a := walk body a in
  match last (trycatch_info_stack a) with
  | None => Err null_dereference
  | Some info =>
      let a := set_trycatch_stack
                 (pop_back (trycatch_info_stack a) ++
                  [{| tc_stmt := tc_stmt info; in_try_block := false |}]) a in
      let! a := walk handler a in
      Ok (set_trycatch_stack (pop_back (trycatch_info_stack a)) a)
  end.

Definition analyzer_goto_act (h : hdr) (l : string) (a : AnalyzerContext)
    : result analyze_error AnalyzerContext :=
  Ok (push_goto h l (save_scope h a)).

Definition analyzer_label_act (h : hdr) (l : string) (a : AnalyzerContext)
    : result analyze_error AnalyzerContext :=
  match label_stmt_map (cmpl_ctx a) !! label_key l with
  | Some previous => Err (label_not_unique l (lineno h) (lineno previous))
  | None => Ok (save_scope h (set_label l h a))
  end.

Definition analyzer_while_act (walk : visitor) (h : hdr) (body : list stmt) (a : AnalyzerContext)
    : result analyze_error AnalyzerContext :=
  let a := save_scope h (set_loop_stack (loop_stack a ++ [addr h]) a) in
  let! a := foreach walk body a in
  Ok (set_loop_stack (pop_back (loop_stack a)) a).

Definition analyzer_exit_act (h : hdr) (is_exit : bool) (a : AnalyzerContext)
    : result analyze_error AnalyzerContext :=
  if decide (length (loop_stack a) = 0) then
    Err (if is_exit then break_outside_loop (lineno h) else continue_outside_loop (lineno h))
  else Ok (save_scope h a).

Definition analyzer_return_act (h : hdr) (a : AnalyzerContext)
    : result analyze_error AnalyzerContext := Ok (save_scope h a).

(** [general_walker_func] with the analyzer's actions. *)
Fixpoint analyzer_walk (s : stmt) (a : AnalyzerContext) {struct s}
    : result analyze_error AnalyzerContext :=
  match s with
  | Snull => Ok a
  | Stry_catch h body handler => analyzer_try_catch_act analyzer_walk h body handler a
  | Sgoto h l => analyzer_goto_act h l a
  | Slabel h l => analyzer_label_act h l a
  | Swhile h _ body => analyzer_while_act analyzer_walk h body a
  | Sexit h is_exit => analyzer_exit_act h is_exit a
  | Sreturn h => analyzer_return_act h a
  | Sblock h body => stmt_walker analyzer_walk (Sblock h body) a
  | Sinit h inits => stmt_walker analyzer_walk (Sinit h inits) a
  | Sif h c t e => stmt_walker analyzer_walk (Sif h c t e) a
  | Ssimple h ty => if walker_supports ty then Ok a else Err (unsupported_statement ty)
  end.

(** Both checks compare index by index up to the destination's depth. *)
Fixpoint same_nesting {A} `{EqDecision A} (src dest : list A) : bool :=
  match src, dest with
  | x :: src', y :: dest' => if decide (x = y) then same_nesting src' dest' else false
  | _, _ => true
  end.

Definition check_goto_try_catch (src_stack dest_stack : list TryCatchInfo) : bool :=
  if decide (length src_stack < length dest_stack) then false
  else same_nesting src_stack dest_stack.

Definition check_goto_loop (src_stack dest_stack : list ptr) : bool :=
  if decide (length src_stack < length dest_stack) then false
  else same_nesting src_stack dest_stack.

Definition check_goto (c : CompileContext) (g : hdr * string) : result analyze_error unit :=
  let '(h, l) := g in
  match label_stmt_map c !! label_key l with
  | None => Err (goto_label_not_defined l)
  | Some label =>
      match stmt_scope_context c !! addr h, stmt_scope_context c !! addr label with
      | Some src, Some dest =>
          if negb (check_goto_try_catch (nesting_trycatch_infos src) (nesting_trycatch_infos dest))
          then Err (goto_into_try_catch l)
          else if negb (check_goto_loop (nesting_loops src) (nesting_loops dest))
          then Err (goto_into_loop l)
          else Ok tt
      | _, _ => Err null_dereference
      end
  end.

Fixpoint check_unsupported_goto (c : CompileContext) (gs : list (hdr * string))
    : result analyze_error unit :=
  match gs with
  | [] => Ok tt
  | g :: gs' => let! _ := check_goto c g in check_unsupported_goto c gs'
  end.

Definition create_compile_context : CompileContext :=
  {| stmt_scope_context := ∅; label_stmt_map := ∅ |}.

Definition make_analyzer_context (c : CompileContext) : AnalyzerContext :=
  {| trycatch_info_stack := []; loop_stack := []; gotos := []; cmpl_ctx := c |}.

(** [analyze], for a function that has no generated code yet: the function body
    is walked through its children, then the GOTOs are checked. *)
Definition analyze (action : stmt) (c : CompileContext) : result analyze_error CompileContext :=
  let! a := stmt_walker analyzer_walk action (make_analyzer_context c) in
  let! _ := check_unsupported_goto (cmpl_ctx a) (gotos a) in
  Ok (cmpl_ctx a).

(** ** What a successful analysis records *)

(** [scoped c tc loops s]: below the TRY/CATCH blocks [tc] and loops [loops],
    the context [c] holds the scope of every statement of [s] that needs one,
    every label, and only permitted jumps. *)
Section scoped.
Variable c : CompileContext.

Definition scope_is (h : hdr) (tc : list TryCatchInfo) (loops : list ptr) : Prop :=
  stmt_scope_context c !! addr h =
    Some {| nesting_trycatch_infos := tc; nesting_loops := loops |}.

Fixpoint scoped (tc : list TryCatchInfo) (loops : list ptr) (s : stmt) {struct s} : Prop :=
  match s with
  | Snull => True
  | Sblock _ ss | Sinit _ ss => every (scoped tc loops) ss
  | Sif _ _ a b => scoped tc loops a /\ scoped tc loops b
  | Swhile h _ ss =>
      scope_is h tc (loops ++ [addr h]) /\ every (scoped tc (loops ++ [addr h])) ss
  | Sexit h _ => scope_is h tc loops /\ loops <> []
  | Sreturn h => scope_is h tc loops
  | Sgoto h l => scope_is h tc loops /\ check_goto c (h, l) = Ok tt
  | Slabel h l => scope_is h tc loops /\ label_stmt_map c !! label_key l = Some h
  | Stry_catch h a b =>
      scoped (tc ++ [{| tc_stmt := addr h; in_try_block := true |}]) loops a /\
      scoped (tc ++ [{| tc_stmt := addr h; in_try_block := false |}]) loops b
  | Ssimple _ ty => walker_supports ty = true
  end.
End scoped.

(** Specifications of analyzer steps [f] that visit the nodes [ps], the labels
    [ls] and the GOTOs [gs], against the final compile context [c]. *)
Section walk_spec.
Variable c : CompileContext.

Definition walk_ext (ps : list ptr) (ls : list string) (gs : list (hdr * string))
    (a a' : AnalyzerContext) : Prop :=
  trycatch_info_stack a' = trycatch_info_stack a /\ loop_stack a' = loop_stack a /\
  gotos a' = gotos a ++ gs /\
  (forall p, p ∉ ps ->
     stmt_scope_context (cmpl_ctx a') !! p = stmt_scope_context (cmpl_ctx a) !! p) /\
  (forall l, l ∉ ls -> label_stmt_map (cmpl_ctx a') !! l = label_stmt_map (cmpl_ctx a) !! l) /\
  (forall l, l ∈ ls -> label_stmt_map (cmpl_ctx a) !! l = None /\
                       is_Some (label_stmt_map (cmpl_ctx a') !! l)) /\
  NoDup ls.

Definition final_for (ps : list ptr) (ls : list string) (gs : list (hdr * string))
    (a' : AnalyzerContext) : Prop :=
  (forall p, p ∈ ps -> stmt_scope_context c !! p = stmt_scope_context (cmpl_ctx a') !! p) /\
  (forall l, l ∈ ls -> label_stmt_map c !! l = label_stmt_map (cmpl_ctx a') !! l) /\
  (forall g, g ∈ gs -> check_goto c g = Ok tt).

Definition walk_spec (f : AnalyzerContext -> result analyze_error AnalyzerContext)
    (tc : list TryCatchInfo) (loops : list ptr) (ps : list ptr) (ls : list string)
    (gs : list (hdr * string)) (P : Prop) : Prop :=
  forall a a', trycatch_info_stack a = tc -> loop_stack a = loops -> f a = Ok a' ->
  walk_ext ps ls gs a a' /\ (final_for ps ls gs a' -> P).

Lemma walk_spec_seq f1 f2 tc loops ps1 ps2 ls1 ls2 gs1 gs2 P1 P2 :
  walk_spec f1 tc loops ps1 ls1 gs1 P1 -> walk_spec f2 tc loops ps2 ls2 gs2 P2 ->
  ps1 ## ps2 ->
  walk_spec (fun a => rbind (f1 a) f2) tc loops (ps1 ++ ps2) (ls1 ++ ls2) (gs1 ++ gs2)
    (P1 /\ P2).
Proof.
  intros H1 H2 Hd a a' Htc Hl [a1 [E1 E2]]%rbind_ok.
  destruct (H1 _ _ Htc Hl E1) as [(T1 & L1 & G1 & S1 & M1 & F1 & N1) Q1].
  destruct (H2 a1 a' ltac:(congruence) ltac:(congruence) E2)
    as [(T2 & L2 & G2 & S2 & M2 & F2 & N2) Q2].
  assert (Hls : forall l, l ∈ ls1 -> l ∈ ls2 -> False).
  { intros l In1 In2. destruct (F1 l In1) as [_ [h Hh]], (F2 l In2). congruence. }
  split.
  - split_and!; try congruence.
    + by rewrite G2, G1, app_assoc.
    + intros p Hp. rewrite S2, S1; set_solver.
    + intros l Hp. rewrite M2, M1; set_solver.
    + intros l [Hin|Hin]%elem_of_app.
      * destruct (F1 l Hin). rewrite M2; [done|]. eauto.
      * destruct (F2 l Hin). split; [|done]. rewrite <- M1; [done|]. eauto.
    + apply NoDup_app; split_and!; eauto.
  - intros (FS & FM & FG). split.
    + apply Q1. split_and!; [| |set_solver].
      * intros p Hp. rewrite FS by set_solver. apply S2. set_solver.
      * intros l Hp. rewrite FM by set_solver. apply M2. eauto.
    + apply Q2. split_and!; set_solver.
Qed.

Lemma walk_spec_mono f tc loops ps ls gs (P Q : Prop) :
  walk_spec f tc loops ps ls gs P -> (P -> Q) -> walk_spec f tc loops ps ls gs Q.
Proof. intros H HPQ a a' ???. destruct (H a a') as []; auto. Qed.

Lemma walk_spec_same f f' tc loops ps ls gs P :
  walk_spec f tc loops ps ls gs P ->
  (forall a a', trycatch_info_stack a = tc -> loop_stack a = loops ->
     f' a = Ok a' -> f a = Ok a') ->
  walk_spec f' tc loops ps ls gs P.
Proof. intros H Hf a a' ?? E. apply H; auto. Qed.

Lemma walk_spec_skip tc loops : walk_spec Ok tc loops [] [] [] True.
Proof.
  intros a a' ?? [= <-]. split; [|done]. split_and!; try done.
  - by rewrite app_nil_r.
  - intros l ?%not_elem_of_nil. done.
  - constructor.
Qed.

(** A step that only stores the scope of node [h]. *)
Lemma walk_spec_save h tc loops :
  walk_spec (fun a => Ok (save_scope h a)) tc loops [addr h] [] [] (scope_is c h tc loops).
Proof.
  intros a a' Htc Hl [= <-]. split; [split_and!|]; try done; cbn.
  - by rewrite app_nil_r.
  - intros p Hp. apply lookup_insert_ne. set_solver.
  - intros l ?%not_elem_of_nil. done.
  - constructor.
  - intros (FS & _). unfold scope_is. rewrite FS by set_solver. cbn.
    rewrite lookup_insert_eq, Htc, Hl. done.
Qed.

Lemma walk_spec_foreach tc loops ss :
  Forall (fun s => NoDup (addrs s) ->
    walk_spec (analyzer_walk s) tc loops (addrs s) (user_labels s) (gotos_of s)
      (scoped c tc loops s)) ss ->
  NoDup (map addr (flat_map hdrs ss)) ->
  walk_spec (foreach analyzer_walk ss) tc loops (map addr (flat_map hdrs ss))
    (flat_map user_labels ss) (flat_map gotos_of ss) (every (scoped c tc loops) ss).
Proof.
  induction 1 as [|s ss Hs _ IH]; cbn; intros Hnd; [apply walk_spec_skip|].
  rewrite map_app in *. apply NoDup_app in Hnd as (N1 & Hd & N2).
  apply (walk_spec_seq (analyzer_walk s)); eauto; set_solver.
Qed.
End walk_spec.

Section analyze_spec.
Variable c : CompileContext.

Notation spec s tc loops :=
  (walk_spec c (analyzer_walk s) tc loops (addrs s) (user_labels s) (gotos_of s)
     (scoped c tc loops s)).

(** The node itself, before its children. *)
Lemma walk_spec_node p f tc loops ps ls gs P :
  walk_spec c f tc loops ps ls gs P -> walk_spec c f tc loops (p :: ps) ls gs P.
Proof.
  intros H a a' Ht Hl E. destruct (H a a' Ht Hl E) as [(T & L & G & S & M & F & N) Q].
  split; [split_and!; set_solver|].
  intros (FS & FM & FG). apply Q. split_and!; set_solver.
Qed.

Lemma pop_back_snoc {A} (v : list A) x : pop_back (v ++ [x]) = v.
Proof.
  unfold pop_back. rewrite length_app; cbn. rewrite take_app_le by lia.
  apply take_ge. lia.
Qed.

(** Running [f] with one more TRY/CATCH half, or one more loop, on the stack. *)
Lemma walk_spec_scope x f tc loops ps ls gs P :
  walk_spec c f (tc ++ [x]) loops ps ls gs P ->
  walk_spec c (fun a => let! a := f (set_trycatch_stack (tc ++ [x]) a) in
                        Ok (set_trycatch_stack tc a)) tc loops ps ls gs P.
Proof.
  intros H a a' Ht Hl [a1 [E [= <-]]]%rbind_ok.
  destruct (H (set_trycatch_stack (tc ++ [x]) a) a1 eq_refl Hl E)
    as [(T & L & G & S & M & F & N) Q].
  split; [split_and!; cbn in *; try done|done].
Qed.

Lemma walk_spec_loop p f tc loops ps ls gs P :
  walk_spec c f tc (loops ++ [p]) ps ls gs P ->
  walk_spec c (fun a => let! a := f (set_loop_stack (loops ++ [p]) a) in
                        Ok (set_loop_stack loops a)) tc loops ps ls gs P.
Proof.
  intros H a a' Ht Hl [a1 [E [= <-]]]%rbind_ok.
  destruct (H (set_loop_stack (loops ++ [p]) a) a1 Ht eq_refl E)
    as [(T & L & G & S & M & F & N) Q].
  split; [split_and!; cbn in *; try done|done].
Qed.

Lemma walk_spec_stacks f tc loops ps ls gs P a a' :
  walk_spec c f tc loops ps ls gs P -> f a = Ok a' ->
  trycatch_info_stack a = tc -> loop_stack a = loops ->
  trycatch_info_stack a' = tc /\ loop_stack a' = loops.
Proof. intros H E Ht Hl. destruct (H a a' Ht Hl E) as [(-> & -> & _) _]. done. Qed.

Lemma walk_spec_try_catch h x y tc loops :
  spec x (tc ++ [{| tc_stmt := addr h; in_try_block := true |}]) loops ->
  spec y (tc ++ [{| tc_stmt := addr h; in_try_block := false |}]) loops ->
  addrs x ## addrs y ->
  spec (Stry_catch h x y) tc loops.
Proof.
  intros Hx Hy Hd. unfold addrs. cbn [hdrs map user_labels gotos_of scoped].
  rewrite map_app. apply walk_spec_node.
  eapply walk_spec_same.
  { apply walk_spec_seq; [apply walk_spec_scope, Hx | apply walk_spec_scope, Hy | done]. }
  intros a a' Ht Hl. cbn [analyzer_walk]. unfold analyzer_try_catch_act. rewrite Ht.
  destruct (analyzer_walk x _) as [a1|e] eqn:E1; cbn; [|done].
  destruct (walk_spec_stacks _ _ _ _ _ _ _ _ _ Hx E1 eq_refl Hl) as [T1 L1].
  rewrite T1, last_snoc, pop_back_snoc. cbn.
  destruct (analyzer_walk y _) as [a2|e] eqn:E2; cbn; [|done].
  destruct (walk_spec_stacks _ _ _ _ _ _ _ _ _ Hy E2 eq_refl L1) as [T2 L2].
  by rewrite T2, pop_back_snoc.
Qed.

Lemma walk_spec_while h e ss tc loops :
  walk_spec c (foreach analyzer_walk ss) tc (loops ++ [addr h]) (map addr (flat_map hdrs ss))
    (flat_map user_labels ss) (flat_map gotos_of ss)
    (every (scoped c tc (loops ++ [addr h])) ss) ->
  addr h ∉ map addr (flat_map hdrs ss) ->
  spec (Swhile h e ss) tc loops.
Proof.
  intros Hss Hh. cbn.
  eapply walk_spec_same.
  { apply (walk_spec_loop (addr h)).
    apply (walk_spec_seq c _ _ _ _ [addr h] _ [] _ [] _ _ _ (walk_spec_save c h _ _) Hss).
    set_solver. }
  intros a a' Ht Hl. cbn [analyzer_walk]. unfold analyzer_while_act. rewrite Hl. cbn.
  destruct (foreach _ _ _) as [a1|er] eqn:E1; cbn; [|done].
  destruct (walk_spec_stacks _ _ _ _ _ _ _ _ _ Hss E1 Ht eq_refl) as [T1 L1].
  by rewrite L1, pop_back_snoc.
Qed.

Lemma walk_spec_label h l tc loops : spec (Slabel h l) tc loops.
Proof.
  intros a a' Ht Hl. cbn. unfold analyzer_label_act.
  destruct (label_stmt_map _ !! _) eqn:Hf; [done|]. intros [= <-].
  split; [split_and!|]; cbn; try done.
  - by rewrite app_nil_r.
  - intros p Hp. apply lookup_insert_ne. set_solver.
  - intros l' Hp. apply lookup_insert_ne. set_solver.
  - intros l' ->%list_elem_of_singleton. rewrite lookup_insert_eq. eauto.
  - apply NoDup_singleton.
  - intros (FS & FM & _). split; [unfold scope_is; rewrite FS by set_solver | rewrite FM by set_solver];
      cbn; rewrite lookup_insert_eq; congruence.
Qed.

Lemma walk_spec_goto h l tc loops : spec (Sgoto h l) tc loops.
Proof.
  intros a a' Ht Hl [= <-].
  destruct (walk_spec_save c h tc loops a _ Ht Hl eq_refl) as [(T & L & G & S & M & F & N) Q].
  split; [split_and!; cbn in *; try done|].
  intros (FS & FM & FG). split; [apply Q; split_and!; set_solver | apply FG; set_solver].
Qed.

Lemma analyzer_walk_spec s : forall tc loops, NoDup (addrs s) -> spec s tc loops.
Proof.
  induction s as [|h ss IH|h e x y IHx IHy|h e ss IH|h b|h|h l|h l|h x y IHx IHy|h ss IH|h ty]
    using stmt_nested_ind; intros tc loops Hnd; unfold addrs in *; cbn in *;
    try rewrite map_app in *; try (apply NoDup_cons in Hnd as [Hh Hnd]);
    try (apply NoDup_app in Hnd as (N1 & Hd & N2)).
  - apply walk_spec_skip.
  - apply walk_spec_node, walk_spec_foreach; [|done].
    eapply Forall_impl; [exact IH|]. cbn; eauto.
  - apply walk_spec_node. eapply walk_spec_same.
    { apply (walk_spec_seq c (analyzer_walk x) (analyzer_walk y)); [eauto|eauto|set_solver]. }
    intros a a' _ _. cbn beta. destruct (analyzer_walk x a); cbn; [|done].
    by destruct y.
  - apply (walk_spec_while h e); [|done]. apply walk_spec_foreach; [|done].
    eapply Forall_impl; [exact IH|]. cbn; eauto.
  - eapply walk_spec_same.
    + apply (walk_spec_mono c (fun a => if decide (loops = []) then Err null_dereference
               else Ok (save_scope h a)) tc loops [addr h] [] [] (scope_is c h tc loops /\ loops <> []));
        [|done].
      intros a a' Ht Hl. case_decide as Hne; [done|]. intros E.
      destruct (walk_spec_save c h tc loops a a' Ht Hl E) as [X Q]. naive_solver.
    + intros a a' Ht Hl. unfold analyzer_exit_act. rewrite Hl.
      destruct loops; cbn; [by destruct b | done].
  - apply walk_spec_save.
  - apply walk_spec_goto.
  - apply walk_spec_label.
  - pose proof (walk_spec_try_catch h x y tc loops) as H.
    unfold addrs in H; cbn in H; rewrite map_app in H.
    apply H; [by apply IHx|by apply IHy|set_solver].
  - apply walk_spec_node, walk_spec_foreach; [|done].
    eapply Forall_impl; [exact IH|]. cbn; eauto.
  - intros a a' Ht Hl E. destruct (walker_supports ty) eqn:Hty; [|done].
    destruct (walk_spec_node (addr h) _ _ _ _ _ _ _ (walk_spec_skip c tc loops) a a' Ht Hl E).
    done.
Qed.

(** A successful analysis of a tree with distinct nodes. *)
Lemma analyze_scoped h body :
  NoDup (addrs (Sblock h body)) ->
  analyze (Sblock h body) create_compile_context = Ok c ->
  every (scoped c [] []) body /\ NoDup (flat_map user_labels body) /\
  (forall key, is_Some (label_stmt_map c !! key) -> key ∈ flat_map user_labels body).
Proof.
  intros Hnd Ha. unfold analyze in Ha. apply rbind_ok in Ha as [a [Hw Ha]].
  apply rbind_ok in Ha as [[] [Hg [= Hc]]].
  destruct (analyzer_walk_spec (Sblock h body) [] [] Hnd
              (make_analyzer_context create_compile_context) a eq_refl eq_refl Hw)
    as [(T & L & G & S & M & F & N) Q].
  split_and!; [|done|].
  - apply Q. unfold final_for. rewrite Hc. split_and!; [done|done|].
    intros g Hin. cbn in G. rewrite G in Hg. rewrite Hc in Hg. cbn in Hin.
    clear -Hin Hg. induction Hin as [g gs|g x gs _ IH]; cbn in Hg;
      apply rbind_ok in Hg as [[] [? ?]]; auto.
  - intros key [lh Hk]. destruct (decide (key ∈ flat_map user_labels body)) as [|Hn]; [done|].
    rewrite <- Hc, M in Hk by done. cbn in Hk. by rewrite lookup_empty in Hk.
Qed.
End analyze_spec.

(** ** The GOTO checks *)

Lemma same_nesting_prefix {A} `{EqDecision A} (src dest : list A) :
  length dest <= length src -> same_nesting src dest = true <-> dest `prefix_of` src.
Proof.
  revert dest; induction src as [|x src IH]; intros [|y dest] Hlen; cbn in *;
    [split; intros; try done; apply prefix_nil | lia | split; intros; try done; apply prefix_nil |].
  case_decide as Hxy; subst.
  - rewrite IH by lia. split; [apply prefix_cons | apply prefix_cons_inv_2].
  - split; [done|]. intros ?%prefix_cons_inv_1. congruence.
Qed.

Lemma check_goto_try_catch_prefix src dest :
  check_goto_try_catch src dest = true <-> dest `prefix_of` src.
Proof.
  unfold check_goto_try_catch. case_decide as Hlen.
  - split; [done|]. intros ?%prefix_length. lia.
  - apply same_nesting_prefix. lia.
Qed.

Lemma check_goto_loop_prefix src dest : check_goto_loop src dest = true <-> dest `prefix_of` src.
Proof.
  unfold check_goto_loop. case_decide as Hlen.
  - split; [done|]. intros ?%prefix_length. lia.
  - apply same_nesting_prefix. lia.
Qed.

(** An accepted GOTO: its label exists and lies in scopes that enclose the GOTO. *)
Lemma check_goto_ok c h l :
  check_goto c (h, l) = Ok tt <->
  exists label src dest,
    label_stmt_map c !! label_key l = Some label /\
    stmt_scope_context c !! addr h = Some src /\ stmt_scope_context c !! addr label = Some dest /\
    nesting_trycatch_infos dest `prefix_of` nesting_trycatch_infos src /\
    nesting_loops dest `prefix_of` nesting_loops src.
Proof.
  unfold check_goto. split.
  - destruct (label_stmt_map c !! _) as [label|]; [|done].
    destruct (stmt_scope_context c !! addr h) as [src|]; [|done].
    destruct (stmt_scope_context c !! addr label) as [dest|] eqn:Hd; [|done].
    destruct (check_goto_try_catch _ _) eqn:H1; [|done].
    destruct (check_goto_loop _ _) eqn:H2; [|done]. intros _.
    apply check_goto_try_catch_prefix in H1. apply check_goto_loop_prefix in H2.
    by exists label, src, dest.
  - intros (label & src & dest & -> & -> & -> & H1 & H2).
    apply check_goto_try_catch_prefix in H1. apply check_goto_loop_prefix in H2.
    by rewrite H1, H2.
Qed.
