(* ===== verification/Codegen.v ===== *)
(** * Codegen: from statement trees to execution codes ([codegen.c])

    IF, WHILE, BREAK, CONTINUE, RETURN, GOTO and TRY/CATCH become conditional
    and unconditional jumps to labels and save/restore codes for the error
    context; every other statement is copied.  A last pass replaces labels by
    positions. *)
From stdpp Require Import base list numbers strings gmap.
From S2P Require Import Prelude PltsqlAst Analyzer.

(** Label texts.  The generated ones are printed from a kind, a line number and
    the address of the statement ("$LOOP_BEGIN_%d_-0x%p" and so on), which
    determine the text and are determined by it; they are shorter than
    [LABEL_LEN] and start with a dollar sign, which no T-SQL label does.
    [END_OF_PROC] is printed from the address of the walker. *)
Inductive gen_label :=
| LOOP_BEGIN | LOOP_END | CATCH_BEGIN | CATCH_END | ELSE_BEGIN | ELSE_END.

Inductive label_text :=
| GEN (kind : gen_label) (line : Z) (p : ptr)
| END_OF_PROC
| USER (key : string).

#[global] Instance gen_label_eq_dec : EqDecision gen_label.
Proof. solve_decision. Defined.
#[global] Instance label_text_eq_dec : EqDecision label_text.
Proof. solve_decision. Defined.

Definition gen_label_code (k : gen_label) : nat :=
  match k with
  | LOOP_BEGIN => 0 | LOOP_END => 1 | CATCH_BEGIN => 2
  | CATCH_END => 3 | ELSE_BEGIN => 4 | ELSE_END => 5
  end.
Definition gen_label_of (n : nat) : gen_label :=
  match n with
  | 0 => LOOP_BEGIN | 1 => LOOP_END | 2 => CATCH_BEGIN
  | 3 => CATCH_END | 4 => ELSE_BEGIN | _ => ELSE_END
  end.

#[global] Instance gen_label_countable : Countable gen_label.
Proof. apply (inj_countable' gen_label_code gen_label_of). by intros []. Defined.

Definition label_text_enc (l : label_text) : (gen_label * Z * ptr) + (unit + string) :=
  match l with
  | GEN k n p => inl (k, n, p)
  | END_OF_PROC => inr (inl tt)
  | USER s => inr (inr s)
  end.
Definition label_text_dec (x : (gen_label * Z * ptr) + (unit + string)) : label_text :=
  match x with
  | inl (k, n, p) => GEN k n p
  | inr (inl _) => END_OF_PROC
  | inr (inr s) => USER s
  end.

#[global] Instance label_text_countable : Countable label_text.
Proof. apply (inj_countable' label_text_enc label_text_dec). by intros []. Defined.

(** The executable nodes. *)
Inductive code :=
| Csimple (h : hdr) (cmd_type : stmt_type)
| Creturn (h : hdr)
| Cgoto (line : Z) (cond : option PLtsql_expr) (target_label : label_text) (target_pc : Z)
| Csave_ctx (line : Z) (target_label : label_text) (target_pc : Z)
| Crestore_ctx_full (line : Z)
| Crestore_ctx_partial (line : Z).

(** [CodegenContext]; a loop context is the header of its WHILE. *)
Record CodegenContext := {
  codes : list code;
  label_index : gmap label_text nat;
  loop_contexts : list hdr
}.

Inductive codegen_error :=
| unsupported_in_codegen (ty : stmt_type)
| label_not_found (l : label_text)
| codegen_null_dereference.

Definition gen_result : Type := result codegen_error CodegenContext.

Definition add_stmt (c : code) (g : CodegenContext) : CodegenContext :=
  {| codes := codes g ++ [c]; label_index := label_index g; loop_contexts := loop_contexts g |}.

Definition create_goto (line : Z) (cond : option PLtsql_expr) (l : label_text) : code :=
  Cgoto line cond l (-1).

Definition create_save_ctx (line : Z) (l : label_text) : code := Csave_ctx line l (-1).

Definition create_and_register_label (l : label_text) (g : CodegenContext) : CodegenContext :=
  {| codes := codes g; label_index := <[l := length (codes g)]> (label_index g);
     loop_contexts := loop_contexts g |}.

(** Restore codes for the enclosing TRY/CATCH blocks, deepest first. *)
Definition restore_code (line : Z) (info : TryCatchInfo) : code :=
  if in_try_block info then Crestore_ctx_full line else Crestore_ctx_partial line.

Definition add_restores (line : Z) (infos : list TryCatchInfo) (g : CodegenContext)
    : CodegenContext :=
  foldl (fun g info => add_stmt (restore_code line info) g) g (reverse infos).

Section codegen.
Variable cmpl_ctx : CompileContext.

Definition trycatch_infos_of (h : hdr) : result codegen_error (list TryCatchInfo) :=
  match stmt_scope_context cmpl_ctx !! addr h with
  | Some scope => Ok (nesting_trycatch_infos scope)
  | None => Err codegen_null_dereference
  end.

(** The loop runs from [src_depth] down to [dst_depth] and does nothing when
    the destination is deeper. *)
Definition cleanup_exception_context (src dst : hdr) (g : CodegenContext) : gen_result :=
  let! src_trycatch_infos := trycatch_infos_of src in
  let! dst_trycatch_infos := trycatch_infos_of dst in
  Ok (add_restores (lineno src) (drop (length dst_trycatch_infos) src_trycatch_infos) g).

Definition cleanup_all_exception_context (src : hdr) (g : CodegenContext) : gen_result :=
  let! src_trycatch_infos := trycatch_infos_of src in
  Ok (add_restores (lineno src) src_trycatch_infos g).

Definition codegen_supports (ty : stmt_type) : bool :=
  match ty with ST_plpgsql _ => false | _ => true end.

Definition stmt_default_act (h : hdr) (ty : stmt_type) (g : CodegenContext) : gen_result :=
  if codegen_supports ty then Ok (add_stmt (Csimple h ty) g)
  else Err (unsupported_in_codegen ty).

Definition stmt_if_act (walk : stmt -> CodegenContext -> gen_result) (h : hdr)
    (cond : PLtsql_expr) (then_body else_body : stmt) (g : CodegenContext) : gen_result :=
  let else_begin := GEN ELSE_BEGIN (lineno h) (addr h) in
  let else_end := GEN ELSE_END (lineno h) (addr h) in
  let goto1 := create_goto (lineno h) (Some cond)
                 (if is_null else_body then else_end else else_begin) in
  let! g := walk then_body (add_stmt goto1 g) in
  let! g :=
    if is_null else_body then Ok g
    else
      let goto2 := create_goto (lineno h) None else_end in
      walk else_body (create_and_register_label else_begin (add_stmt goto2 g)) in
  Ok (create_and_register_label else_end g).

Definition stmt_label_act (l : string) (g : CodegenContext) : gen_result :=
  Ok (create_and_register_label (USER (label_key l)) g).

Definition stmt_try_catch_act (walk : stmt -> CodegenContext -> gen_result) (h : hdr)
    (body handler : stmt) (g : CodegenContext) : gen_result :=
  let catch_begin := GEN CATCH_BEGIN (lineno h) (addr h) in
  let catch_end := GEN CATCH_END (lineno h) (addr h) in
  let! g := walk body (add_stmt (create_save_ctx (lineno h) catch_begin) g) in
  let g := add_stmt (Crestore_ctx_full (lineno h)) g in
  let g := add_stmt (create_goto (lineno h) None catch_end) g in
  let! g := walk handler (create_and_register_label catch_begin g) in
  Ok (create_and_register_label catch_end (add_stmt (Crestore_ctx_partial (lineno h)) g)).

Definition push_loop (h : hdr) (g : CodegenContext) : CodegenContext :=
  {| codes := codes g; label_index := label_index g; loop_contexts := loop_contexts g ++ [h] |}.

Definition pop_loop (g : CodegenContext) : CodegenContext :=
  {| codes := codes g; label_index := label_index g;
     loop_contexts := pop_back (loop_contexts g) |}.

Definition stmt_while_act (walk : stmt -> CodegenContext -> gen_result) (h : hdr)
    (cond : PLtsql_expr) (body : list stmt) (g : CodegenContext) : gen_result :=
  let loop_begin := GEN LOOP_BEGIN (lineno h) (addr h) in
  let loop_end := GEN LOOP_END (lineno h) (addr h) in
  let g := create_and_register_label loop_begin (push_loop h g) in
  let! g := foreach walk body (add_stmt (create_goto (lineno h) (Some cond) loop_end) g) in
  let g := add_stmt (create_goto (lineno h) None loop_begin) g in
  Ok (pop_loop (create_and_register_label loop_end g)).

Definition stmt_exit_act (h : hdr) (is_exit : bool) (g : CodegenContext) : gen_result :=
  match last (loop_contexts g) with
  | None => Err codegen_null_dereference
  | Some stmt_while =>
      let target := if is_exit then GEN LOOP_END (lineno stmt_while) (addr stmt_while)
                    else GEN LOOP_BEGIN (lineno stmt_while) (addr stmt_while) in
      let! g := cleanup_exception_context h stmt_while g in
      Ok (add_stmt (create_goto (lineno h) None target) g)
  end.

Definition stmt_return_act (h : hdr) (g : CodegenContext) : gen_result :=
  let! g := cleanup_all_exception_context h (add_stmt (Creturn h) g) in
  Ok (add_stmt (create_goto (lineno h) None END_OF_PROC) g).

Definition stmt_goto_act (h : hdr) (l : string) (g : CodegenContext) : gen_result :=
  match label_stmt_map cmpl_ctx !! label_key l with
  | None => Err codegen_null_dereference
  | Some dest_stmt =>
      let! g := cleanup_exception_context h dest_stmt g in
      Ok (add_stmt (create_goto (lineno h) None (USER (label_key l))) g)
  end.

(** [general_walker_func] with the code generator's actions. *)
Fixpoint codegen_walk (s : stmt) (g : CodegenContext) {struct s} : gen_result :=
  match s with
  | Snull => Ok g
  | Sblock h body => stmt_walker codegen_walk (Sblock h body) g
  | Sif h cond t e => stmt_if_act codegen_walk h cond t e g
  | Swhile h cond body => stmt_while_act codegen_walk h cond body g
  | Sexit h is_exit => stmt_exit_act h is_exit g
  | Sreturn h => stmt_return_act h g
  | Sgoto h l => stmt_goto_act h l g
  | Slabel h l => stmt_label_act l g
  | Stry_catch h body handler => stmt_try_catch_act codegen_walk h body handler g
  | Sinit h inits => stmt_walker codegen_walk (Sinit h inits) g
  | Ssimple h ty =>
      if walker_supports ty then stmt_default_act h ty g else Err (unsupported_in_codegen ty)
  end.

Definition get_label_index (index : gmap label_text nat) (l : label_text)
    : result codegen_error Z :=
  match index !! l with
  | Some pc => Ok (i32 (Z.of_nat pc))
  | None => Err (label_not_found l)
  end.

Definition resolve_code (index : gmap label_text nat) (c : code) : result codegen_error code :=
  match c with
  | Cgoto line cond l _ => let! pc := get_label_index index l in Ok (Cgoto line cond l pc)
  | Csave_ctx line l _ => let! pc := get_label_index index l in Ok (Csave_ctx line l pc)
  | c => Ok c
  end.

Fixpoint resolve_labels (index : gmap label_text nat) (cs : list code)
    : result codegen_error (list code) :=
  match cs with
  | [] => Ok []
  | c :: cs' =>
      let! c := resolve_code index c in
      let! cs' := resolve_labels index cs' in
      Ok (c :: cs')
  end.

Definition make_codegen_context : CodegenContext :=
  {| codes := []; label_index := ∅; loop_contexts := [] |}.

(** [gen_exec_code], for a function without generated code. *)
Definition gen_exec_code (action : stmt) : result codegen_error (list code) :=
  let! g := stmt_walker codegen_walk action make_codegen_context in
  let g := create_and_register_label END_OF_PROC g in
  resolve_labels (label_index g) (codes g).
End codegen.
