(* ===== verification/CodegenProofs.v ===== *)
(** * CodegenProofs: where generated code is

    [layout] says at which positions of the resolved code each statement was
    placed and that its jumps lead where the tree says.  The code generator is
    proved to succeed on every analyzed program and to produce such a layout. *)
From stdpp Require Import base list numbers strings gmap.
From S2P Require Import Prelude PltsqlAst Analyzer Codegen.

(** ** Layouts *)

(** The labels a statement registers, in no particular order. *)
Fixpoint labels_of (s : stmt) : list label_text :=
  match s with
  | Sblock _ ss | Sinit _ ss => flat_map labels_of ss
  | Sif h _ a b =>
      labels_of a ++
      (if is_null b then [] else GEN ELSE_BEGIN (lineno h) (addr h) :: labels_of b) ++
      [GEN ELSE_END (lineno h) (addr h)]
  | Swhile h _ ss =>
      GEN LOOP_BEGIN (lineno h) (addr h) :: flat_map labels_of ss ++
      [GEN LOOP_END (lineno h) (addr h)]
  | Slabel _ l => [USER (label_key l)]
  | Stry_catch h a b =>
      labels_of a ++ [GEN CATCH_BEGIN (lineno h) (addr h)] ++ labels_of b ++
      [GEN CATCH_END (lineno h) (addr h)]
  | _ => []
  end.

Section layout.
(** The compile context, the line of the TRY/CATCH at an address, the label
    positions and the resolved code. *)
Variable c : CompileContext.
Variable line_of : ptr -> Z.
Variable LI : gmap label_text nat.
Variable C : list code.

(** Scopes of the statement a label names, innermost first. *)
Definition label_scope (key : string) : option (list TryCatchInfo) :=
  label ← label_stmt_map c !! key;
  scope ← stmt_scope_context c !! addr label;
  Some (reverse (nesting_trycatch_infos scope)).

Definition tgt (t : nat) : Z := i32 (Z.of_nat t).

(** A jump at [p] to label [l], which is at [t]. *)
Definition goto_at (p : nat) (line : Z) (cond : option PLtsql_expr) (l : label_text) (t : nat)
    : Prop :=
  C !! p = Some (Cgoto line cond l (tgt t)) /\ LI !! l = Some t.

Definition restores_at (p : nat) (line : Z) (infos : list TryCatchInfo) : Prop :=
  forall i info, infos !! i = Some info -> C !! (p + i) = Some (restore_code line info).

(** [layout sc lps s p p']: inside the TRY/CATCH halves [sc] (innermost first)
    and the loops [lps] (with the scopes they were entered in), the code of [s]
    is at positions [p] to [p' - 1]. *)
Fixpoint layout (sc : list TryCatchInfo) (lps : list (hdr * list TryCatchInfo)) (s : stmt)
    (p p' : nat) {struct s} : Prop :=
  let layouts := fix layouts sc lps (ss : list stmt) (p p' : nat) : Prop :=
    match ss with
    | [] => p' = p
    | s :: ss' => exists q, layout sc lps s p q /\ layouts sc lps ss' q p'
    end in
  match s with
  | Snull => p' = p
  | Sblock _ ss | Sinit _ ss => layouts sc lps ss p p'
  | Sif h cond a b =>
      exists q,
        layout sc lps a (S p) q /\
        LI !! GEN ELSE_END (lineno h) (addr h) = Some p' /\
        if is_null b then
          goto_at p (lineno h) (Some cond) (GEN ELSE_END (lineno h) (addr h)) q /\ p' = q
        else
          goto_at p (lineno h) (Some cond) (GEN ELSE_BEGIN (lineno h) (addr h)) (S q) /\
          goto_at q (lineno h) None (GEN ELSE_END (lineno h) (addr h)) p' /\
          layout sc lps b (S q) p'
  | Swhile h cond ss =>
      exists q,
        goto_at p (lineno h) (Some cond) (GEN LOOP_END (lineno h) (addr h)) p' /\
        layouts sc ((h, sc) :: lps) ss (S p) q /\
        goto_at q (lineno h) None (GEN LOOP_BEGIN (lineno h) (addr h)) p /\ p' = S q
  | Sexit h is_exit =>
      exists hw scw lps' fl t,
        lps = (hw, scw) :: lps' /\ sc = fl ++ scw /\ restores_at p (lineno h) fl /\
        goto_at (p + length fl) (lineno h) None
          (GEN (if is_exit then LOOP_END else LOOP_BEGIN) (lineno hw) (addr hw)) t /\
        p' = S (p + length fl)
  | Sreturn h =>
      exists t,
        C !! p = Some (Creturn h) /\ restores_at (S p) (lineno h) sc /\
        goto_at (S p + length sc) (lineno h) None END_OF_PROC t /\
        p' = S (S p + length sc)
  | Sgoto h l =>
      exists fl scd t,
        label_scope (label_key l) = Some scd /\ sc = fl ++ scd /\
        restores_at p (lineno h) fl /\
        goto_at (p + length fl) (lineno h) None (USER (label_key l)) t /\
        p' = S (p + length fl)
  | Slabel h l =>
      LI !! USER (label_key l) = Some p /\ label_scope (label_key l) = Some sc /\ p' = p
  | Stry_catch h a b =>
      exists q r,
        line_of (addr h) = lineno h /\
        C !! p = Some (Csave_ctx (lineno h) (GEN CATCH_BEGIN (lineno h) (addr h)) (tgt (S (S q)))) /\
        LI !! GEN CATCH_BEGIN (lineno h) (addr h) = Some (S (S q)) /\
        layout ({| tc_stmt := addr h; in_try_block := true |} :: sc) lps a (S p) q /\
        C !! q = Some (Crestore_ctx_full (lineno h)) /\
        goto_at (S q) (lineno h) None (GEN CATCH_END (lineno h) (addr h)) p' /\
        layout ({| tc_stmt := addr h; in_try_block := false |} :: sc) lps b (S (S q)) r /\
        C !! r = Some (Crestore_ctx_partial (lineno h)) /\ p' = S r
  | Ssimple h ty => C !! p = Some (Csimple h ty) /\ p' = S p
  end.

Fixpoint layouts (sc : list TryCatchInfo) (lps : list (hdr * list TryCatchInfo))
    (ss : list stmt) (p p' : nat) : Prop :=
  match ss with
  | [] => p' = p
  | s :: ss' => exists q, layout sc lps s p q /\ layouts sc lps ss' q p'
  end.
End layout.

(** ** Specifications of code generation steps *)

Definition target_label (cd : code) : option label_text :=
  match cd with
  | Cgoto _ _ l _ | Csave_ctx _ l _ => Some l
  | _ => None
  end.

(** The code with its targets filled in from [LI]. *)
Definition resolved (LI : gmap label_text nat) (cd : code) : code :=
  match cd with
  | Cgoto line cond l _ => Cgoto line cond l (tgt (default 0 (LI !! l)))
  | Csave_ctx line l _ => Csave_ctx line l (tgt (default 0 (LI !! l)))
  | cd => cd
  end.

(** Registered labels are positions of the code or its end. *)
Definition index_ok (g : CodegenContext) : Prop :=
  forall l p, label_index g !! l = Some p -> p <= length (codes g).

(** Step [f] registers the labels [ls]; [g'] is the state after it. *)
Definition gen_ext (ls : list label_text) (g g' : CodegenContext) : Prop :=
  codes g `prefix_of` codes g' /\ loop_contexts g' = loop_contexts g /\
  (forall l, l ∉ ls -> label_index g' !! l = label_index g !! l) /\
  (forall l, l ∈ ls -> is_Some (label_index g' !! l)) /\
  (index_ok g -> index_ok g').

Section gen_spec.
Variable LI : gmap label_text nat.
Variable C : list code.

(** [LI] and [C] are final for what step [f] did. *)
Definition gen_final (ls : list label_text) (g' : CodegenContext) : Prop :=
  map (resolved LI) (codes g') `prefix_of` C /\
  (forall l, l ∈ ls -> LI !! l = label_index g' !! l).

(** [gen_spec f loops ls U lay]: with the loops [loops] open, [f] succeeds and
    registers the labels [ls]; if the labels [U] exist in the end, the new code
    uses only labels that exist and lies as [lay] says. *)
Definition gen_spec (f : CodegenContext -> gen_result) (loops : list hdr)
    (ls : list label_text) (U : label_text -> Prop) (lay : nat -> nat -> Prop) : Prop :=
  forall g, loop_contexts g = loops ->
  exists g', f g = Ok g' /\ gen_ext ls g g' /\
    (gen_final ls g' -> (forall l, U l -> is_Some (LI !! l)) ->
     lay (length (codes g)) (length (codes g')) /\
     forall i cd l, length (codes g) <= i -> codes g' !! i = Some cd ->
       target_label cd = Some l -> is_Some (LI !! l)).

Lemma gen_spec_seq f1 f2 loops ls1 ls2 (U1 U2 U : label_text -> Prop) lay1 lay2 :
  gen_spec f1 loops ls1 U1 lay1 -> gen_spec f2 loops ls2 U2 lay2 -> ls1 ## ls2 ->
  (forall l, U1 l -> U l \/ l ∈ ls1 ++ ls2) -> (forall l, U2 l -> U l \/ l ∈ ls1 ++ ls2) ->
  gen_spec (fun g => rbind (f1 g) f2) loops (ls1 ++ ls2) U
    (fun p p' => exists q, lay1 p q /\ lay2 q p').
Proof.
  intros H1 H2 Hd HU1 HU2 g Hg.
  destruct (H1 g Hg) as (g1 & E1 & (X1 & L1 & N1 & R1 & I1) & Q1).
  destruct (H2 g1 ltac:(congruence)) as (g2 & E2 & (X2 & L2 & N2 & R2 & I2) & Q2).
  exists g2. rewrite E1. split_and!; [done| |].
  - split_and!; [by etrans|congruence| | |auto].
    + intros l Hl. rewrite N2, N1; set_solver.
    + intros l [Hl|Hl]%elem_of_app; [|by apply R2].
      rewrite N2 by set_solver. by apply R1.
  - intros [FC FL] HU.
    assert (F1 : gen_final ls1 g1).
    { split; [|intros l Hl; rewrite FL by set_solver; apply N2; set_solver].
      etrans; [|exact FC]. destruct X2 as [new ->]. rewrite map_app. by eexists. }
    assert (F2 : gen_final ls2 g2) by (split; [done | intros l Hl; apply FL; set_solver]).
    assert (Hls : forall l, l ∈ ls1 ++ ls2 -> is_Some (LI !! l)).
    { intros l Hl. rewrite FL by done. apply elem_of_app in Hl as [Hl|Hl]; [|by apply R2].
      rewrite N2 by set_solver. by apply R1. }
    destruct (Q1 F1) as [Lay1 D1]; [intros l [?|?]%HU1; auto|].
    destruct (Q2 F2) as [Lay2 D2]; [intros l [?|?]%HU2; auto|].
    split; [eauto|]. intros i cd l Hi Hcd Hl.
    destruct (decide (i < length (codes g1))) as [Hlt|]; [|apply (D2 i cd l); [lia|done..]].
    destruct X2 as [new Hnew]. rewrite Hnew, lookup_app_l in Hcd by done. by apply (D1 i cd l).
Qed.

Lemma gen_spec_mono f f' loops ls ls' (U U' : label_text -> Prop) (lay lay' : nat -> nat -> Prop) :
  gen_spec f loops ls U lay -> (forall g, loop_contexts g = loops -> f' g = f g) ->
  (forall l, l ∈ ls <-> l ∈ ls') -> (forall l, U l -> U' l) ->
  (forall p p', (forall l, l ∈ ls -> is_Some (LI !! l)) -> (forall l, U' l -> is_Some (LI !! l)) ->
     lay p p' -> lay' p p') ->
  gen_spec f' loops ls' U' lay'.
Proof.
  intros H Hf Hls HU Hlay g Hg. destruct (H g Hg) as (g' & E & (X & L & N & R & I) & Q).
  exists g'. rewrite Hf by done. split_and!; [done| |].
  - split_and!; [done|done| | |done]; intros l Hl; rewrite <- Hls in Hl; auto.
  - intros [FC FL] HUl.
    destruct Q as [Lay D]; [split; [done|]; intros l Hl; apply FL; by rewrite <- Hls|auto|].
    split; [|done]. apply Hlay; [|done|done].
    intros l Hl. rewrite FL by (by rewrite <- Hls). auto.
Qed.

Lemma gen_spec_skip loops : gen_spec Ok loops [] (fun _ => False) (fun p p' => p' = p).
Proof.
  intros g Hg. exists g. split_and!; [done| |].
  - split_and!; try done. by intros l ?%not_elem_of_nil.
  - intros _ _. split; [done|]. intros i cd l Hi Hcd. apply lookup_lt_Some in Hcd. lia.
Qed.

Lemma gen_spec_add cd loops :
  gen_spec (fun g => Ok (add_stmt cd g)) loops [] (fun l => target_label cd = Some l)
    (fun p p' => C !! p = Some (resolved LI cd) /\ p' = S p).
Proof.
  intros g Hg. exists (add_stmt cd g). split_and!; [done| |].
  - split_and!; try done; [by eexists | by intros l ?%not_elem_of_nil |].
    intros I l p Hl. cbn in *. rewrite length_app. apply I in Hl. lia.
  - intros [FC _] HU. cbn in *. rewrite length_app. cbn. split_and!; [|lia|].
    + destruct FC as [rest ->]. rewrite map_app, lookup_app_l, lookup_app_r;
        rewrite ?length_app, ?length_map; cbn; [|lia..]. by rewrite Nat.sub_diag.
    + intros i cd' l Hi Hcd Hl. rewrite lookup_app_r in Hcd by done.
      apply list_lookup_singleton_Some in Hcd as [_ <-]. auto.
Qed.

Lemma gen_spec_register l loops :
  gen_spec (fun g => Ok (create_and_register_label l g)) loops [l] (fun _ => False)
    (fun p p' => LI !! l = Some p /\ p' = p).
Proof.
  intros g Hg. exists (create_and_register_label l g). split_and!; [done| |].
  - split_and!; try done.
    + intros l' Hl. cbn. apply lookup_insert_ne. set_solver.
    + intros l' ->%list_elem_of_singleton. cbn. rewrite lookup_insert_eq. eauto.
    + intros I l' p Hl. cbn in *. destruct (decide (l = l')) as [<-|].
      * rewrite lookup_insert_eq in Hl. by injection Hl as <-.
      * rewrite lookup_insert_ne in Hl by done. by apply I in Hl.
  - intros [_ FL] _. split_and!; [|done|].
    + rewrite FL by set_solver. cbn. by rewrite lookup_insert_eq.
    + intros i cd l' Hi Hcd. apply lookup_lt_Some in Hcd. cbn in Hcd. lia.
Qed.
End gen_spec.

(** ** The actions *)

Section actions.
Variable c : CompileContext.
Variable line_of : ptr -> Z.
Variable LI : gmap label_text nat.
Variable C : list code.

Notation spec := (gen_spec LI C).
Notation gadd cd := (fun g => Ok (add_stmt cd g)).
Notation greg l := (fun g => Ok (create_and_register_label l g)).

Lemma goto_resolved p line cond l t :
  C !! p = Some (resolved LI (create_goto line cond l)) -> LI !! l = Some t ->
  goto_at LI C p line cond l t.
Proof. intros Hp Hl. split; [|done]. rewrite Hp. cbn. by rewrite Hl. Qed.

Lemma gen_spec_restores line fl loops :
  spec (fun g => Ok (add_restores line (reverse fl) g)) loops [] (fun _ => False)
    (fun p p' => restores_at C p line fl /\ p' = p + length fl).
Proof.
  unfold add_restores. rewrite reverse_involutive.
  induction fl as [|info fl IH]; cbn.
  - eapply gen_spec_mono; [apply gen_spec_skip|done..|]. cbn.
    intros p p' _ _ ->. split; [intros i info Hi; by rewrite lookup_nil in Hi | lia].
  - eapply gen_spec_mono.
    { apply (gen_spec_seq LI C (gadd (restore_code line info))
               (fun g => Ok (foldl (fun g i => add_stmt (restore_code line i) g) g fl))
               loops [] [] _ _ (fun _ => False) _ _ (gen_spec_add _ _ _ _) IH); [set_solver| |done].
      unfold restore_code. destruct (in_try_block info); done. }
    { done. } { done. } { done. }
    intros p p' _ _ (q & [Hp ->] & Hr & ->). split; [|cbn; lia].
    intros [|i] info' Hi; cbn in Hi.
    + injection Hi as <-. rewrite Nat.add_0_r, Hp. unfold restore_code.
      by destruct (in_try_block info).
    + rewrite Nat.add_succ_r. by apply (Hr i).
Qed.

(** Labels that exist outside the statement itself. *)
Definition outer_label (loops : list hdr) (l : label_text) : Prop :=
  l = END_OF_PROC \/ (exists key, l = USER key /\ is_Some (label_stmt_map c !! key)) \/
  (exists hw k, hw ∈ loops /\ (k = LOOP_BEGIN \/ k = LOOP_END) /\
     l = GEN k (lineno hw) (addr hw)).

(** The open loops, with the scopes recorded for them. *)
Definition loops_ok (tc : list TryCatchInfo) (loops : list hdr)
    (lps : list (hdr * list TryCatchInfo)) : Prop :=
  map fst lps = reverse loops /\
  Forall (fun lp => (exists ls, scope_is c (fst lp) (reverse (snd lp)) ls) /\
                    snd lp `suffix_of` reverse tc) lps.

Definition stmt_spec (s : stmt) (tc : list TryCatchInfo) (loops : list hdr)
    (lps : list (hdr * list TryCatchInfo)) : Prop :=
  spec (codegen_walk c s) loops (labels_of s) (outer_label loops)
    (layout c line_of LI C (reverse tc) lps s).

Lemma cleanup_spec h dst fl scd ls1 ls2 tc loops :
  scope_is c h tc ls1 -> scope_is c dst (reverse scd) ls2 -> reverse tc = fl ++ scd ->
  spec (cleanup_exception_context c h dst) loops [] (fun _ => False)
    (fun p p' => restores_at C p (lineno h) fl /\ p' = p + length fl).
Proof.
  intros Hh Hdst Hfl. eapply gen_spec_mono; [apply (gen_spec_restores (lineno h) fl)| |done..|].
  - intros g _. unfold cleanup_exception_context, trycatch_infos_of.
    rewrite Hh, Hdst. cbn. do 2 f_equal.
    by rewrite <- (reverse_involutive tc), Hfl, reverse_app, drop_app_length.
  - done.
Qed.

Lemma exit_spec h b tc loops lps :
  scoped c tc (map addr loops) (Sexit h b) -> loops_ok tc loops lps ->
  stmt_spec (Sexit h b) tc loops lps.
Proof.
  intros [Hh Hne] [Hfst Hall].
  destruct loops as [|hw loops _] using rev_ind; [done|].
  rewrite reverse_snoc in Hfst. destruct lps as [|[hw' scw] lps]; [done|].
  cbn in Hfst. injection Hfst as -> Hfst.
  apply Forall_cons in Hall as [[[ls Hw] [fl Hfl]] Hall]. cbn in Hw, Hfl.
  set (k := if b then LOOP_END else LOOP_BEGIN).
  eapply gen_spec_mono.
  { apply (gen_spec_seq LI C (cleanup_exception_context c h hw)
             (gadd (create_goto (lineno h) None (GEN k (lineno hw) (addr hw)))) (loops ++ [hw]) [] []
             _ _ (fun l => l = GEN k (lineno hw) (addr hw)) _ _
             (cleanup_spec _ _ _ _ _ _ _ _ Hh Hw Hfl) (gen_spec_add _ _ _ _)); set_solver. }
  - intros g Hg. cbn [codegen_walk]. unfold stmt_exit_act. rewrite Hg, last_snoc.
    unfold k. by destruct b.
  - done.
  - intros l ->. right; right. exists hw, k. split_and!; [set_solver|unfold k; destruct b; auto|done].
  - intros p p' _ HU (q & [Hr ->] & Hg & ->).
    destruct (HU (GEN k (lineno hw) (addr hw))) as [tg Ht].
    { right; right. exists hw, k. split_and!; [set_solver|unfold k; destruct b; auto|done]. }
    cbn. exists hw, scw, lps, fl, tg. split_and!; try done.
    apply goto_resolved; [|done]. exact Hg.
Qed.

Lemma return_spec h tc loops lps :
  scoped c tc (map addr loops) (Sreturn h) -> stmt_spec (Sreturn h) tc loops lps.
Proof.
  intros Hh. cbn in Hh.
  assert (Hcl : spec (cleanup_all_exception_context c h) loops [] (fun _ => False)
            (fun p p' => restores_at C p (lineno h) (reverse tc) /\ p' = p + length (reverse tc))).
  { eapply gen_spec_mono; [apply (gen_spec_restores (lineno h) (reverse tc))| |done..].
    intros g _. unfold cleanup_all_exception_context, trycatch_infos_of. rewrite Hh. cbn.
    by rewrite reverse_involutive. }
  eapply gen_spec_mono.
  { apply (gen_spec_seq LI C (gadd (Creturn h)) _ loops [] [] _ _ (fun l => l = END_OF_PROC) _ _
             (gen_spec_add _ _ _ _)
             (gen_spec_seq LI C _ (gadd (create_goto (lineno h) None END_OF_PROC)) loops [] []
               _ _ (fun l => l = END_OF_PROC) _ _ Hcl (gen_spec_add _ _ _ _)
               ltac:(set_solver) ltac:(set_solver) ltac:(set_solver))); set_solver. }
  - done.
  - done.
  - intros l ->. by left.
  - intros p p' _ HU (q1 & [Hp ->] & q2 & [Hr ->] & Hg & ->).
    destruct (HU END_OF_PROC) as [tg Ht]; [by left|].
    cbn. exists tg. rewrite length_reverse in *. split_and!; [done|done| |done].
    by apply goto_resolved.
Qed.

Lemma goto_spec h l tc loops lps :
  scoped c tc (map addr loops) (Sgoto h l) -> stmt_spec (Sgoto h l) tc loops lps.
Proof.
  intros [Hh Hok]. apply check_goto_ok in Hok as (lab & src & dest & Hlab & Hsrc & Hdest & Hpre & _).
  rewrite Hh in Hsrc. injection Hsrc as <-. cbn in Hpre. destruct Hpre as [fl Hfl].
  assert (Hd : scope_is c lab (reverse (reverse (nesting_trycatch_infos dest))) (nesting_loops dest)).
  { unfold scope_is. rewrite Hdest, reverse_involutive. by destruct dest. }
  assert (Hrev : reverse tc = reverse fl ++ reverse (nesting_trycatch_infos dest))
    by (by rewrite Hfl, reverse_app).
  set (key := USER (label_key l)).
  eapply gen_spec_mono.
  { apply (gen_spec_seq LI C (cleanup_exception_context c h lab)
             (gadd (create_goto (lineno h) None key)) loops [] []
             _ _ (fun l => l = key) _ _
             (cleanup_spec _ _ _ _ _ _ _ _ Hh Hd Hrev) (gen_spec_add _ _ _ _)); set_solver. }
  - intros g Hg. cbn [codegen_walk]. unfold stmt_goto_act. by rewrite Hlab.
  - done.
  - intros ? ->. right; left. exists (label_key l). by rewrite Hlab.
  - intros p p' _ HU (q & [Hr ->] & Hg & ->).
    destruct (HU key) as [tg Ht]; [right; left; exists (label_key l); by rewrite Hlab|].
    cbn. exists (reverse fl), (reverse (nesting_trycatch_infos dest)), tg. split_and!; try done.
    + unfold label_scope. rewrite Hlab. cbn. by rewrite Hdest.
    + apply goto_resolved; [|done]. exact Hg.
Qed.

Lemma label_spec h l tc loops lps :
  scoped c tc (map addr loops) (Slabel h l) -> stmt_spec (Slabel h l) tc loops lps.
Proof.
  intros [Hh Hl]. eapply gen_spec_mono; [apply gen_spec_register|done|done|done|].
  intros p p' _ _ [Hp ->]. cbn. split_and!; [done| |done].
  unfold label_scope. rewrite Hl. cbn. by rewrite Hh.
Qed.

Lemma simple_spec h ty tc loops lps :
  scoped c tc (map addr loops) (Ssimple h ty) -> stmt_spec (Ssimple h ty) tc loops lps.
Proof.
  intros Hty. cbn in Hty. eapply gen_spec_mono; [apply (gen_spec_add LI C (Csimple h ty))| |done..].
  intros g _. cbn [codegen_walk]. rewrite Hty. unfold stmt_default_act.
  by destruct ty.
Qed.

Lemma foreach_spec ss tc loops lps :
  Forall (fun s => stmt_spec s tc loops lps) ss -> NoDup (flat_map labels_of ss) ->
  spec (foreach (codegen_walk c) ss) loops (flat_map labels_of ss) (outer_label loops)
    (layouts c line_of LI C (reverse tc) lps ss).
Proof.
  induction 1 as [|s ss Hs _ IH]; cbn; intros Hnd.
  - eapply gen_spec_mono; [apply gen_spec_skip|done..].
  - apply NoDup_app in Hnd as (N1 & Hd & N2).
    apply (gen_spec_seq LI C (codegen_walk c s) _ loops _ _ _ _ _ _ _ Hs (IH N2)); set_solver.
Qed.

Lemma if_spec h e a b tc loops lps :
  stmt_spec a tc loops lps -> stmt_spec b tc loops lps -> NoDup (labels_of (Sif h e a b)) ->
  stmt_spec (Sif h e a b) tc loops lps.
Proof.
  intros Ha Hb Hnd. unfold stmt_spec. cbn [labels_of] in *.
  set (eb := GEN ELSE_BEGIN (lineno h) (addr h)) in *.
  set (ee := GEN ELSE_END (lineno h) (addr h)) in *.
  set (goto1 := create_goto (lineno h) (Some e) (if is_null b then ee else eb)).
  set (goto2 := create_goto (lineno h) None ee).
  set (lsb := if is_null b then [] else eb :: labels_of b) in *.
  set (layb := fun p p' => if is_null b then p' = p else exists t,
         C !! p = Some (resolved LI goto2) /\ LI !! eb = Some (S p) /\ t = S p /\
         layout c line_of LI C (reverse tc) lps b t p').
  apply NoDup_app in Hnd as (N1 & Hd & N2). apply NoDup_app in N2 as (N2 & Hd2 & _).
  assert (Helse : spec (fun g => if is_null b then Ok g else
            codegen_walk c b (create_and_register_label eb (add_stmt goto2 g))) loops lsb
            (fun l => outer_label loops l \/ l = ee) layb).
  { unfold lsb, layb. destruct (is_null b) eqn:Hnull.
    - eapply gen_spec_mono; [apply gen_spec_skip|done..].
    - eapply gen_spec_mono.
      { apply (gen_spec_seq LI C (gadd goto2) _ loops [] ([eb] ++ labels_of b) _ (outer_label loops)
                 (fun l => outer_label loops l \/ l = ee) _ _ (gen_spec_add _ _ _ _)
                 (gen_spec_seq LI C (greg eb) (codegen_walk c b) loops [eb] (labels_of b)
                    _ _ (outer_label loops) _ _ (gen_spec_register _ _ _ _) Hb
                    ltac:(unfold lsb in N2; rewrite ?Hnull in N2; apply NoDup_cons in N2; set_solver)
                    ltac:(set_solver) ltac:(set_solver)));
          [set_solver|cbn; intros l [= <-]; auto|set_solver]. }
      + done.
      + done.
      + done.
      + intros p p' _ _ (q & [Hp ->] & q2 & [Hl ->] & Hlay). eauto. }
  eapply gen_spec_mono.
  { apply (gen_spec_seq LI C (gadd goto1) _ loops [] (labels_of a ++ lsb ++ [ee]) _
             (fun l => outer_label loops l \/ l = ee) (outer_label loops) _ _
             (gen_spec_add _ _ _ _)
             (gen_spec_seq LI C (codegen_walk c a) _ loops (labels_of a) (lsb ++ [ee]) _
                (fun l => outer_label loops l \/ l = ee)
                (fun l => outer_label loops l \/ l = ee) _ _ Ha
                (gen_spec_seq LI C _ (greg ee) loops lsb [ee] _ _
                   (fun l => outer_label loops l \/ l = ee) _ _ Helse (gen_spec_register _ _ _ _)
                   ltac:(set_solver) ltac:(set_solver) ltac:(set_solver))
                ltac:(set_solver) ltac:(set_solver) ltac:(set_solver)));
      [set_solver| |set_solver].
    cbn. unfold goto1, create_goto. cbn. intros l [= <-]. right.
    unfold lsb. destruct (is_null b); set_solver. }
  - intros g _. cbn [codegen_walk]. unfold stmt_if_act. fold eb ee goto1. cbn [rbind].
    destruct (codegen_walk c a (add_stmt goto1 g)) as [g1|]; cbn [rbind]; [|done].
    by destruct (is_null b).
  - done.
  - done.
  - intros p p' _ _ (q1 & [Hp ->] & q2 & Hla & q3 & Hlb & Hee & ->).
    cbn. fold ee eb. exists q2. split_and!; [done|done|].
    unfold layb in Hlb. unfold goto1 in Hp. destruct (is_null b).
    + subst q3. split; [|done]. by apply goto_resolved.
    + destruct Hlb as (t & Hg2 & Heb & -> & Hlb).
      split_and!; [by apply goto_resolved|by apply goto_resolved|done].
Qed.

Lemma gen_spec_loop f h loops ls U lay :
  spec f (loops ++ [h]) ls U lay ->
  spec (fun g => let! g := f (push_loop h g) in Ok (pop_loop g)) loops ls U lay.
Proof.
  intros H g Hg. destruct (H (push_loop h g)) as (g' & E & (X & L & N & R & I) & Q).
  { cbn. by rewrite Hg. }
  exists (pop_loop g'). rewrite E. split_and!; [done| |done].
  split_and!; cbn in *; try done. rewrite L. apply pop_back_snoc.
Qed.

Lemma while_spec h e ss tc loops lps :
  let lb := GEN LOOP_BEGIN (lineno h) (addr h) in
  let le := GEN LOOP_END (lineno h) (addr h) in
  spec (foreach (codegen_walk c) ss) (loops ++ [h]) (flat_map labels_of ss)
    (outer_label (loops ++ [h])) (layouts c line_of LI C (reverse tc) ((h, reverse tc) :: lps) ss) ->
  NoDup (labels_of (Swhile h e ss)) -> stmt_spec (Swhile h e ss) tc loops lps.
Proof.
  intros lb le Hss Hnd. unfold stmt_spec. cbn [labels_of] in *. fold lb le in Hnd |- *.
  set (goto1 := create_goto (lineno h) (Some e) le).
  set (goto2 := create_goto (lineno h) None lb).
  set (ls := flat_map labels_of ss) in *.
  set (U := fun l => outer_label loops l \/ l = lb \/ l = le).
  apply NoDup_cons in Hnd as [Hlb Hnd]. apply NoDup_app in Hnd as (N1 & Hd & _).
  assert (Houter : forall l, outer_label (loops ++ [h]) l -> U l).
  { unfold U. intros l [->|[?|(hw & k & [?|Hin]%elem_of_app & Hk & ->)]].
    - left; by left.
    - left; right; by left.
    - left; right; right. by exists hw, k.
    - apply list_elem_of_singleton in Hin as ->. destruct Hk as [-> | ->]; auto. }
  eapply gen_spec_mono.
  { eapply gen_spec_loop.
    apply (gen_spec_seq LI C (greg lb) _ (loops ++ [h]) [lb] (ls ++ [le]) _ U (outer_label loops)
             _ _ (gen_spec_register _ _ _ _)
             (gen_spec_seq LI C (gadd goto1) _ _ [] (ls ++ [le]) _ U U _ _ (gen_spec_add _ _ _ _)
               (gen_spec_seq LI C (foreach (codegen_walk c) ss) _ _ ls [le] _ U U _ _ Hss
                 (gen_spec_seq LI C (gadd goto2) (greg le) _ [] [le] _ _ U _ _
                    (gen_spec_add _ _ _ _) (gen_spec_register _ _ _ _)
                    ltac:(set_solver) ltac:(cbn; intros l [= <-]; left; unfold U; auto)
                    ltac:(done))
                 ltac:(set_solver) ltac:(intros l Hl; left; by apply Houter) ltac:(auto))
               ltac:(set_solver) ltac:(cbn; intros l [= <-]; left; unfold U; auto) ltac:(auto)));
      [set_solver|done|unfold U; set_solver]. }
  - intros g _. cbn [codegen_walk]. unfold stmt_while_act. fold lb le goto1 goto2. cbn [rbind].
    by destruct (foreach (codegen_walk c) ss _).
  - done.
  - done.
  - intros p p' _ _ (q0 & [Hlbp ->] & q1 & [Hp ->] & q2 & Hl & q3 & [Hq ->] & Hle & ->).
    cbn. fold lb le. exists q2. split_and!; [by apply goto_resolved|done|by apply goto_resolved|done].
Qed.

Lemma try_catch_spec h a b tc loops lps :
  stmt_spec a (tc ++ [{| tc_stmt := addr h; in_try_block := true |}]) loops lps ->
  stmt_spec b (tc ++ [{| tc_stmt := addr h; in_try_block := false |}]) loops lps ->
  line_of (addr h) = lineno h -> NoDup (labels_of (Stry_catch h a b)) ->
  stmt_spec (Stry_catch h a b) tc loops lps.
Proof.
  intros Ha Hb Hline Hnd. unfold stmt_spec in *. cbn [labels_of] in *. rewrite !reverse_snoc in *.
  set (cb := GEN CATCH_BEGIN (lineno h) (addr h)) in *.
  set (ce := GEN CATCH_END (lineno h) (addr h)) in *.
  set (save := create_save_ctx (lineno h) cb).
  set (goto := create_goto (lineno h) None ce).
  set (U := fun l => outer_label loops l \/ l = cb \/ l = ce).
  apply NoDup_app in Hnd as (N1 & Hd1 & Hnd). apply NoDup_app in Hnd as (_ & Hd2 & Hnd).
  apply NoDup_app in Hnd as (N2 & Hd3 & _).
  eapply gen_spec_mono.
  { apply (gen_spec_seq LI C (gadd save) _ loops [] (labels_of a ++ [cb] ++ labels_of b ++ [ce])
             _ U (outer_label loops) _ _ (gen_spec_add _ _ _ _)
            (gen_spec_seq LI C (codegen_walk c a) _ _ (labels_of a) ([cb] ++ labels_of b ++ [ce])
               _ U U _ _ Ha
            (gen_spec_seq LI C (gadd (Crestore_ctx_full (lineno h))) _ _ []
               ([cb] ++ labels_of b ++ [ce]) _ U U _ _ (gen_spec_add _ _ _ _)
            (gen_spec_seq LI C (gadd goto) _ _ [] ([cb] ++ labels_of b ++ [ce])
               _ U U _ _ (gen_spec_add _ _ _ _)
            (gen_spec_seq LI C (greg cb) _ _ [cb] (labels_of b ++ [ce])
               _ U U _ _ (gen_spec_register _ _ _ _)
            (gen_spec_seq LI C (codegen_walk c b) _ _ (labels_of b) [ce] _ U U _ _ Hb
            (gen_spec_seq LI C (gadd (Crestore_ctx_partial (lineno h))) (greg ce) _ [] [ce]
               _ _ U _ _ (gen_spec_add _ _ _ _) (gen_spec_register _ _ _ _)
              ltac:(set_solver) ltac:(done) ltac:(done))
              ltac:(set_solver) ltac:(unfold U; auto) ltac:(auto))
              ltac:(set_solver) ltac:(done) ltac:(auto))
              ltac:(set_solver) ltac:(cbn; intros l [= <-]; left; unfold U; auto) ltac:(auto))
              ltac:(set_solver) ltac:(done) ltac:(auto))
              ltac:(set_solver) ltac:(unfold U; auto) ltac:(auto)));
      [set_solver|cbn; intros l [= <-]; set_solver|unfold U; set_solver]. }
  - intros g _. cbn [codegen_walk]. unfold stmt_try_catch_act. fold cb ce save goto. cbn [rbind].
    destruct (codegen_walk c a _) as [g1|]; cbn [rbind]; [|done].
    by destruct (codegen_walk c b _).
  - done.
  - done.
  - intros p p' _ _ (q1 & [Hp ->] & q2 & Hla & q3 & [Hr ->] & q4 & [Hg ->] & q5 & [Hcb ->] &
      q6 & Hlb & q7 & [Hrp ->] & Hce & ->).
    cbn. fold cb ce. exists q2, q6. split_and!; try done.
    + rewrite Hp. unfold save, create_save_ctx. cbn. by rewrite Hcb.
    + by apply goto_resolved.
Qed.
End actions.

(** ** Distinct labels *)

(** A label of a tree names one of its nodes or is one of its user labels. *)
Definition label_from (ps : list ptr) (keys : list string) (l : label_text) : Prop :=
  match l with
  | GEN _ _ p => p ∈ ps
  | USER key => key ∈ keys
  | END_OF_PROC => False
  end.

Lemma label_from_mono ps ps' keys keys' l :
  label_from ps keys l -> ps ⊆ ps' -> keys ⊆ keys' -> label_from ps' keys' l.
Proof. destruct l; cbn; set_solver. Qed.

(** Case analysis on where a list element comes from. *)
Ltac mem_cases H :=
  repeat first
    [ apply elem_of_app in H as [H|H]
    | apply elem_of_cons in H as [->|H]
    | by apply not_elem_of_nil in H ].

Lemma labels_of_from s : forall l, l ∈ labels_of s -> label_from (addrs s) (user_labels s) l.
Proof.
  unfold addrs.
  assert (Hflat : forall ss,
    Forall (fun s => forall l, l ∈ labels_of s ->
      label_from (map addr (hdrs s)) (user_labels s) l) ss ->
    forall l, l ∈ flat_map labels_of ss ->
      label_from (map addr (flat_map hdrs ss)) (flat_map user_labels ss) l).
  { induction 1 as [|s' ss Hs _ IH]; cbn; intros l Hl; [by mem_cases Hl|].
    rewrite map_app. apply elem_of_app in Hl as [Hl|Hl]; [apply Hs in Hl | apply IH in Hl];
      (eapply label_from_mono; [exact Hl|set_solver..]). }
  induction s as [|h ss IH|h e x y IHx IHy|h e ss IH|h b|h|h lb|h lb|h x y IHx IHy|h ss IH|h ty]
    using stmt_nested_ind; intros l Hl; cbn in *; rewrite ?map_app;
    try destruct (is_null y); mem_cases Hl; try (cbn; set_solver).
  all: try (eapply label_from_mono; [by apply (Hflat ss)|set_solver..]).
  all: try (eapply label_from_mono; [by apply IHx|set_solver..]).
  all: try (eapply label_from_mono; [by apply IHy|set_solver..]).
Qed.

Lemma label_from_disjoint ps1 ps2 keys1 keys2 l :
  ps1 ## ps2 -> keys1 ## keys2 -> label_from ps1 keys1 l -> label_from ps2 keys2 l -> False.
Proof. destruct l; cbn; set_solver. Qed.

Lemma labels_of_list_from ss l :
  l ∈ flat_map labels_of ss ->
  label_from (map addr (flat_map hdrs ss)) (flat_map user_labels ss) l.
Proof.
  induction ss as [|s ss IH]; cbn; [by intros ?%not_elem_of_nil|].
  rewrite map_app. intros [Hl%labels_of_from|Hl%IH]%elem_of_app;
    (eapply label_from_mono; [exact Hl|unfold addrs; set_solver..]).
Qed.

Lemma labels_of_nodup s : NoDup (addrs s) -> NoDup (user_labels s) -> NoDup (labels_of s).
Proof.
  assert (Hflat : forall ss,
    Forall (fun s => NoDup (addrs s) -> NoDup (user_labels s) -> NoDup (labels_of s)) ss ->
    NoDup (map addr (flat_map hdrs ss)) -> NoDup (flat_map user_labels ss) ->
    NoDup (flat_map labels_of ss)).
  { induction 1 as [|s' ss Hs Hss IH]; cbn; intros Hp Hk; [constructor|].
    rewrite map_app in Hp. apply NoDup_app in Hp as (P1 & Pd & P2), Hk as (K1 & Kd & K2).
    apply NoDup_app. split_and!; auto. intros l Hl%labels_of_from Hl2%labels_of_list_from.
    eapply label_from_disjoint; [| |exact Hl|exact Hl2]; unfold addrs; set_solver. }
  induction s as [|h ss IH|h e x y IHx IHy|h e ss IH|h b|h|h lb|h lb|h x y IHx IHy|h ss IH|h ty]
    using stmt_nested_ind; unfold addrs in *; cbn; rewrite ?map_app; intros Hp Hk;
    try (apply NoDup_cons in Hp as [Hh Hp]); try (by constructor); try (by apply Hflat).
  - apply NoDup_app in Hp as (P1 & Pd & P2), Hk as (K1 & Kd & K2).
    assert (Hx : forall k, GEN k (lineno h) (addr h) ∉ labels_of x)
      by (intros k Hl%labels_of_from; cbn in Hl; unfold addrs in Hl; set_solver).
    assert (Hy : forall k, GEN k (lineno h) (addr h) ∉ labels_of y)
      by (intros k Hl%labels_of_from; cbn in Hl; unfold addrs in Hl; set_solver).
    assert (Hxy : forall l, l ∈ labels_of x -> l ∉ labels_of y).
    { intros l H1%labels_of_from H2%labels_of_from.
      eapply label_from_disjoint; [| |exact H1|exact H2]; unfold addrs; set_solver. }
    apply NoDup_app. split_and!; [auto| |].
    + intros l Hl. destruct (is_null y); set_solver.
    + apply NoDup_app. split_and!; [|destruct (is_null y); set_solver|apply NoDup_singleton].
      destruct (is_null y); constructor; auto.
  - assert (Hs : forall k, GEN k (lineno h) (addr h) ∉ flat_map labels_of ss)
      by (intros k Hl%labels_of_list_from; by cbn in Hl).
    constructor; [set_solver|]. apply NoDup_app.
    split_and!; [by apply Hflat|set_solver|apply NoDup_singleton].
  - apply NoDup_singleton.
  - apply NoDup_app in Hp as (P1 & Pd & P2), Hk as (K1 & Kd & K2).
    assert (Hx : forall k, GEN k (lineno h) (addr h) ∉ labels_of x)
      by (intros k Hl%labels_of_from; cbn in Hl; unfold addrs in Hl; set_solver).
    assert (Hy : forall k, GEN k (lineno h) (addr h) ∉ labels_of y)
      by (intros k Hl%labels_of_from; cbn in Hl; unfold addrs in Hl; set_solver).
    assert (Hxy : forall l, l ∈ labels_of x -> l ∉ labels_of y).
    { intros l H1%labels_of_from H2%labels_of_from.
      eapply label_from_disjoint; [| |exact H1|exact H2]; unfold addrs; set_solver. }
    apply NoDup_app. split_and!; [auto|set_solver|].
    constructor; [set_solver|]. apply NoDup_app. split_and!; [auto|set_solver|apply NoDup_singleton].
Qed.

(** ** Analyzed programs *)

Lemma suffix_of_push {A} (sc : list A) tc x :
  sc `suffix_of` reverse tc -> sc `suffix_of` reverse (tc ++ [x]).
Proof. intros H. rewrite reverse_snoc. by apply suffix_cons_r. Qed.

Lemma loops_ok_push c tc loops lps x :
  loops_ok c tc loops lps -> loops_ok c (tc ++ [x]) loops lps.
Proof.
  intros [Hf Hall]. split; [done|]. eapply Forall_impl; [exact Hall|].
  intros lp [? ?]. split; [done|]. by apply suffix_of_push.
Qed.

Lemma codegen_walk_spec c line_of LI C s : forall tc loops lps,
  Forall (fun h => line_of (addr h) = lineno h) (hdrs s) ->
  scoped c tc (map addr loops) s -> NoDup (labels_of s) -> loops_ok c tc loops lps ->
  stmt_spec c line_of LI C s tc loops lps.
Proof.
  assert (Hall : forall ss, Forall (fun s => forall tc loops lps,
      Forall (fun h => line_of (addr h) = lineno h) (hdrs s) ->
      scoped c tc (map addr loops) s -> NoDup (labels_of s) -> loops_ok c tc loops lps ->
      stmt_spec c line_of LI C s tc loops lps) ss ->
    forall tc loops lps, Forall (fun h => line_of (addr h) = lineno h) (flat_map hdrs ss) ->
      every (scoped c tc (map addr loops)) ss ->
      NoDup (flat_map labels_of ss) -> loops_ok c tc loops lps ->
      Forall (fun s => stmt_spec c line_of LI C s tc loops lps) ss).
  { induction 1 as [|s' ss Hs _ IH]; cbn; intros tc loops lps Hln Hsc Hnd Hl; [constructor|].
    apply Forall_app in Hln as [? ?].
    apply NoDup_app in Hnd as (? & _ & ?). destruct Hsc. constructor; eauto. }
  induction s as [|h ss IH|h e x y IHx IHy|h e ss IH|h b|h|h lb|h lb|h x y IHx IHy|h ss IH|h ty]
    using stmt_nested_ind; intros tc loops lps Hln Hsc Hnd Hl; cbn in Hln;
    try (apply Forall_cons in Hln as [Hlh Hln]); try (apply Forall_app in Hln as [Hlx Hly]).
  - eapply gen_spec_mono; [apply gen_spec_skip|done..].
  - apply foreach_spec; [|done]. by apply Hall.
  - destruct Hsc as [Hx Hy]. apply if_spec; [apply IHx| |done]; try done.
    + cbn in Hnd. by apply NoDup_app in Hnd as (? & _ & _).
    + apply IHy; [done|done| |done]. cbn in Hnd. apply NoDup_app in Hnd as (_ & _ & Hnd).
      apply NoDup_app in Hnd as (Hnd & _ & _). destruct y; try by constructor;
        cbn [is_null] in Hnd; apply NoDup_cons in Hnd as [_ Hnd].
      all: cbn [is_null] in Hnd; by apply NoDup_cons in Hnd as [_ Hnd].
  - destruct Hsc as [Hh Hsc]. apply while_spec; [|done].
    cbn in Hnd. apply NoDup_cons in Hnd as [_ Hnd]. apply NoDup_app in Hnd as (Hnd & _ & _).
    apply foreach_spec; [|done]. apply Hall; [done|done| |done|].
    + by rewrite map_app.
    + destruct Hl as [Hf Hl]. split; [cbn; by rewrite reverse_snoc, Hf|].
      constructor; [|done]. cbn [fst snd]. rewrite reverse_involutive. eauto.
  - by apply exit_spec.
  - by apply return_spec.
  - by apply goto_spec.
  - by apply label_spec.
  - destruct Hsc as [Hx Hy]. pose proof Hnd as Hnd0. cbn in Hnd.
    apply NoDup_app in Hnd as (N1 & _ & Hnd). apply NoDup_cons in Hnd as [_ Hnd].
    apply NoDup_app in Hnd as (N2 & _ & _).
    apply try_catch_spec; [apply IHx|apply IHy|done|done]; auto using loops_ok_push.
  - apply foreach_spec; [|done]. by apply Hall.
  - by apply simple_spec.
Qed.

(** Every user label of a tree is registered. *)
Lemma user_label_registered s key : key ∈ user_labels s -> USER key ∈ labels_of s.
Proof.
  assert (Hflat : forall ss,
    Forall (fun s => key ∈ user_labels s -> USER key ∈ labels_of s) ss ->
    key ∈ flat_map user_labels ss -> USER key ∈ flat_map labels_of ss).
  { induction 1 as [|s' ss Hs _ IH]; cbn; [by intros ?%not_elem_of_nil|].
    rewrite !elem_of_app. naive_solver. }
  induction s as [|h ss IH|h e x y IHx IHy|h e ss IH|h b|h|h lb|h lb|h x y IHx IHy|h ss IH|h ty]
    using stmt_nested_ind; cbn; intros Hl; try (by mem_cases Hl); try (by apply Hflat);
    mem_cases Hl; try set_solver.
  destruct y; cbn [is_null]; set_solver.
Qed.

Lemma resolve_labels_ok LI cs :
  (forall i cd l, cs !! i = Some cd -> target_label cd = Some l -> is_Some (LI !! l)) ->
  resolve_labels LI cs = Ok (map (resolved LI) cs).
Proof.
  induction cs as [|cd cs IH]; intros H; cbn; [done|].
  assert (Hcd : resolve_code LI cd = Ok (resolved LI cd)).
  { specialize (H 0 cd). destruct cd as [| |line cond l pc|line l pc| |]; cbn in *; try done;
      destruct (H l eq_refl eq_refl) as [t Ht]; unfold get_label_index; by rewrite Ht. }
  rewrite Hcd. cbn. rewrite IH; [done|]. intros i cd' l Hi. apply (H (S i) cd' l Hi).
Qed.

(** Labels are unique once the nodes are and the analysis succeeded. *)
Lemma analyzed_labels_nodup h body c :
  NoDup (addrs (Sblock h body)) -> analyze (Sblock h body) create_compile_context = Ok c ->
  NoDup (flat_map labels_of body).
Proof.
  intros Hnd Ha. destruct (analyze_scoped c h body Hnd Ha) as (_ & Hu & _).
  apply (labels_of_nodup (Sblock h body)); done.
Qed.

(** The line of a node is a function of its address. *)
Lemma lines_of_tree s :
  NoDup (addrs s) -> exists line_of, Forall (fun h => line_of (addr h) = lineno h) (hdrs s).
Proof.
  intros Hnd.
  pose (m := list_to_map (map (fun h => (addr h, lineno h)) (hdrs s)) : gmap ptr Z).
  exists (fun p => default 0%Z (m !! p)). apply Forall_forall. intros h Hh.
  unfold m. erewrite elem_of_list_to_map_1; [done| |].
  - rewrite map_map. exact Hnd.
  - apply list_elem_of_fmap. by exists h.
Qed.

(** A jump leads to a code of the program or to its end. *)
Definition target_in (C : list code) (cd : code) : Prop :=
  match cd with
  | Cgoto _ _ _ t | Csave_ctx _ _ t => exists p, t = tgt p /\ p <= length C
  | _ => True
  end.

(** The code generator succeeds on an analyzed program, and its code is laid out
    as the tree says. *)
Lemma gen_exec_code_layout h body c :
  NoDup (addrs (Sblock h body)) -> analyze (Sblock h body) create_compile_context = Ok c ->
  exists line_of LI C, gen_exec_code c (Sblock h body) = Ok C /\
    Forall (target_in C) C /\ LI !! END_OF_PROC = Some (length C) /\ layouts c line_of LI C [] [] body 0 (length C).
Proof.
  intros Hnd Ha. destruct (lines_of_tree (Sblock h body) Hnd) as [line_of Hlines].
  pose proof (analyzed_labels_nodup h body c Hnd Ha) as Hls.
  destruct (analyze_scoped c h body Hnd Ha) as (Hsc & Hu & Hdom).
  assert (Hspec : forall LI C,
    gen_spec LI C (foreach (codegen_walk c) body) [] (flat_map labels_of body) (outer_label c [])
      (layouts c line_of LI C [] [] body)).
  { intros LI C.
    apply (codegen_walk_spec c line_of LI C (Sblock h body) [] [] []); [done|done|done|].
    split; [done|constructor]. }
  destruct (Hspec ∅ [] make_codegen_context eq_refl) as (g & E & (_ & _ & N & R & I) & _).
  set (LI := <[END_OF_PROC := length (codes g)]> (label_index g)).
  set (C := map (resolved LI) (codes g)).
  destruct (Hspec LI C make_codegen_context eq_refl) as (g' & E' & _ & Q).
  assert (g' = g) as -> by congruence.
  assert (Hend : END_OF_PROC ∉ flat_map labels_of body)
    by (by intros Hin%labels_of_list_from).
  destruct Q as [Lay D].
  - split; [done|]. intros l Hl. unfold LI. rewrite lookup_insert_ne; [done|]. set_solver.
  - intros l [->|[(key & -> & Hkey)|(hw & k & Hin%not_elem_of_nil & _)]]; [| |done].
    + unfold LI. rewrite lookup_insert_eq. eauto.
    + apply Hdom in Hkey. unfold LI. rewrite lookup_insert_ne by done. apply R.
      clear -Hkey. induction body as [|s ss IH]; cbn in *; [by mem_cases Hkey|].
      apply elem_of_app in Hkey as [Hkey|Hkey]; apply elem_of_app; [left|right; auto].
      clear IH. by apply user_label_registered.
  - exists line_of, LI, C. assert (Hlen : length C = length (codes g)) by apply length_map.
    split_and!.
    + unfold gen_exec_code. cbn [stmt_walker]. rewrite E. cbn.
      apply resolve_labels_ok. intros i cd l Hi Hl. apply (D i cd l); [cbn; lia|done..].
    + apply Forall_fmap, Forall_forall. intros cd [i Hi]%list_elem_of_lookup.
      assert (Hin : forall l, target_label cd = Some l -> default 0 (LI !! l) <= length C).
      { intros l Hl. destruct (D i cd l) as [q Hq]; [cbn; lia|done..|]. rewrite Hq, Hlen. cbn.
        unfold LI in Hq. destruct (decide (l = END_OF_PROC)) as [->|].
        - rewrite lookup_insert_eq in Hq. by injection Hq as <-.
        - rewrite lookup_insert_ne in Hq by done. apply I in Hq; [done|].
          intros ?? Hempty. cbn in Hempty. by rewrite lookup_empty in Hempty. }
      destruct cd; cbn in *; try done; eauto.
    + rewrite Hlen. apply lookup_insert_eq.
    + rewrite Hlen. exact Lay.
Qed.
