(* ===== verification/ErrHandler.v ===== *)
(** * ErrHandler: classification of errors ([babelfishpg_tsql/src/err_handler.c])

    Which T-SQL errors terminate only their statement, their batch, or doom the
    transaction.  The tables are those of the C [switch] statements; the code that
    identifies an error is [latest_error_code], or the server's error code when
    the T-SQL table has no entry. *)
From stdpp Require Import base numbers list.
From S2P Require Import Prelude PltsqlAst.
#[local] Open Scope Z_scope.

Definition IGNORABLE_ERROR : Z := 0x01.
Definition CUR_BATCH_ABORTING_ERROR : Z := 0x02.
Definition TXN_ABORTING_ERROR : Z := 0x04.
Definition IGNORE_XACT_ERROR : Z := 0x08.

Definition SQL_ERROR_547 : Z := 547.

Definition ignorable_codes : list Z :=
  [232; 3902; 3903; 574; 8115; 3701; 2627; 6401; 220; 8134; 512; 515; 306; 477; 16915;
   1801; 545; 550; 3914; 8143; 8152; 1752; 16950; 517; 266; 2787; 2732; 8179; 9809; 201;
   206; 8144; 8145; 8146; 213; 6615; 155; 9810; 535; 13600; 15003]%Z.

Definition current_batch_aborting_codes : list Z :=
  [306; 477; 1752; 10793]%Z.

Definition batch_txn_aborting_codes : list Z :=
  [628; 3723; 3726; 3729; 3732; 4712; 1505; 2714; 217; 547; 219; 11700; 11705; 11706;
   11708; 4708; 4920; 10610; 8107; 1768; 1778; 3728; 1715; 1765; 556; 4901; 1946; 293;
   289; 3623; 3609; 4514; 1205; 11702; 11703; 8106; 9441; 9451; 11701; 3616; 911]%Z.

Definition ignore_xact_abort_codes : list Z :=
  [3701; 129; 2787; 266; 180; 132; 133; 135; 136; 1049; 1034; 134; 141; 10733; 10727;
   11555; 487; 153; 11709; 15003]%Z.

Definition xact_abort_compilation_codes : list Z :=
  [2747; 8159; 11717; 16948]%Z.

Definition in_table (code : Z) (table : list Z) : bool := bool_decide (code ∈ table).

(** The flag decides alone when it is set. *)
Definition overridden (override_flag bit : Z) (otherwise : bool) : bool :=
  if negb (override_flag =? 0) then negb (Z.land override_flag bit =? 0) else otherwise.

(** [dml]: the statement has a plan, and its command is INSERT, UPDATE or DELETE. *)
Definition override_txn_behaviour (latest_error_code : Z) (execsql dml : bool) : Z :=
  if (latest_error_code =? SQL_ERROR_547) && execsql && dml
  then Z.lor 0 IGNORABLE_ERROR else 0.

Section classify.
(** The server's error code of RAISERROR. *)
Variable ERRCODE_PLTSQL_RAISERROR : Z.
Variable latest_error_code : Z.

Definition is_ignorable_error (pg_error_code override_flag : Z) : bool :=
  overridden override_flag IGNORABLE_ERROR
    (if in_table latest_error_code ignorable_codes then true
     else pg_error_code =? ERRCODE_PLTSQL_RAISERROR).

Definition is_current_batch_aborting_error (override_flag : Z) : bool :=
  overridden override_flag CUR_BATCH_ABORTING_ERROR
    (in_table latest_error_code current_batch_aborting_codes).

Definition is_batch_txn_aborting_error (override_flag : Z) : bool :=
  overridden override_flag TXN_ABORTING_ERROR (in_table latest_error_code batch_txn_aborting_codes).

Definition ignore_xact_abort_error (pg_error_code override_flag : Z) : bool :=
  overridden override_flag IGNORE_XACT_ERROR
    (if in_table latest_error_code ignore_xact_abort_codes then true
     else pg_error_code =? ERRCODE_PLTSQL_RAISERROR).
End classify.

Definition is_txn_aborting_compilation_error (sql_error_code : Z) : bool := false.

Definition is_xact_abort_txn_compilation_error (sql_error_code : Z) : bool :=
  in_table sql_error_code xact_abort_compilation_codes.
