(* ===== verification/Dispatch.v ===== *)
(** * Dispatch: one statement with its transaction and error handling
    ([dispatch_stmt_handle_error] of [babelfishpg_tsql/src/iterative_exec.c])

    Implicit transaction, internal savepoint, the statement itself, release of the
    savepoint; or, after an error, recovery of the transaction, classification of
    the error, and the decision whether it is thrown or only reported.  The
    transaction machinery of the server is a parameter; the variables of the
    extension that take part are fields. *)
From stdpp Require Import base numbers list.
From S2P Require Import Prelude PltsqlAst ErrHandler.

(** [PLtsql_estate_err]: what ERROR_MESSAGE() and friends report in a CATCH
    block. [procedure] is the address of an allocated string. *)
Record PLtsql_estate_err (E : Type) := {
  error : option E;
  procedure : option ptr;
  number : Z;
  severity : Z;
  state : Z
}.
Arguments error {E} _.
Arguments procedure {E} _.
Arguments number {E} _.
Arguments severity {E} _.
Arguments state {E} _.

(** [PLtsqlErrorData] of the top call stack entry. *)
Record PLtsqlErrorData := {
  xact_abort_on : bool;
  rethrow_error : bool;
  trigger_error : bool;
  error_estate : option ptr;
  error_procedure : option ptr;
  error_number : Z;
  error_severity : Z;
  error_state : Z
}.

(** Variables of the extension, over the state [V] of the server (database,
    T-SQL variables, transaction). *)
Record session (V : Type) := mk_session {
  srv : V;
  latest_error_code : Z;
  latest_pg_error_code : Z;
  last_error_mapping_failed : bool;
  AbortCurTransaction : bool;
  pltsql_non_tsql_proc_entry_count : Z;
  pltsql_sys_func_entry_count : Z
}.
Arguments mk_session {V} _ _ _ _ _ _ _.
Arguments srv {V} _.
Arguments latest_error_code {V} _.
Arguments latest_pg_error_code {V} _.
Arguments last_error_mapping_failed {V} _.
Arguments AbortCurTransaction {V} _.
Arguments pltsql_non_tsql_proc_entry_count {V} _.
Arguments pltsql_sys_func_entry_count {V} _.

(** [estate->tsql_trigger_flags] and, of [estate->impl_txn_type], is it
    [PLTSQL_IMPL_TRAN_START]?  Both are set at the start of every dispatch. *)
Record txn_flags := {
  TSQL_TRIGGER_STARTED : bool;
  TSQL_TRAN_STARTED : bool;
  IMPL_TRAN_START : bool
}.

(** What a statement leaves behind: session, current error, error data of the
    call stack entry (set by RAISERROR and THROW, copied from called batches),
    flags, and its value or the error it raised. *)
Definition attempt (V E A : Type) : Type :=
  session V * PLtsql_estate_err E * PLtsqlErrorData * txn_flags * (E + A).

(** The statements [dispatch_stmt] executes and the server.

    - [rt_simple], [rt_return], [rt_eval_boolean]: a leaf statement, the value of
      RETURN, the condition of a jump;
    - the transaction functions of the server, and settings, on its state;
    - constants of the execution state: is it a function other than a trigger or
      an anonymous block, does it run a trigger, is some caller running one or
      inside TRY/CATCH, its address, the entry counts at its start. *)
Record runtime (V E : Type) := {
  rt_simple : hdr -> stmt_type -> session V -> PLtsql_estate_err E -> PLtsqlErrorData -> bool ->
              attempt V E unit;
  rt_return : hdr -> session V -> PLtsql_estate_err E -> PLtsqlErrorData -> bool -> attempt V E unit;
  rt_eval_boolean : PLtsql_expr -> session V -> PLtsql_estate_err E -> PLtsqlErrorData -> bool ->
              attempt V E (option bool);
  sqlerrcode : E -> Z;
  get_tsql_error : E -> V -> bool * Z;
  tran_count_mismatch : Z -> Z -> E;
  seterror : hdr -> bool;
  set_tran_isolation : hdr -> bool;
  plan_is_dml : hdr -> V -> bool;
  IS_TDS_CLIENT : bool;
  pltsql_implicit_transactions : V -> bool;
  pltsql_xact_abort : V -> bool;
  pltsql_disable_internal_savepoint : V -> bool;
  IsTransactionBlockActive : V -> bool;
  lxid : V -> Z;
  GetCurrentSubTransactionId : V -> Z;
  NestedTranCount : V -> Z;
  pltsql_start_txn : V -> V;
  pltsql_rollback_txn : V -> V;
  BeginInternalSubTransaction : V -> V;
  ReleaseCurrentSubTransaction : V -> V;
  RollbackAndReleaseCurrentSubTransaction : V -> V;
  HoldPinnedPortals : V -> V;
  AbortCurrentTransaction : V -> V;
  StartTransactionCommand : V -> V;
  EndCompositeTriggers : V -> V;
  add_failed_transaction : V -> V;
  ro_func_cleanup : V -> V;
  send_env_change_token_on_txn_abort : V -> V;
  EmitErrorReport : E -> V -> V;
  insert_exec_error_at_trycatch_level : V -> bool;
  insert_exec_active : V -> bool;
  ERRCODE_PLTSQL_RAISERROR : Z;
  ERRCODE_T_R_INTEGRITY_CONSTRAINT_VIOLATION : Z;
  ERRCODE_UNDEFINED_TABLE : Z;
  ERRCODE_UNDEFINED_COLUMN : Z;
  ERRCODE_DATATYPE_MISMATCH : Z;
  this_estate : ptr;
  get_proc_name : V -> option ptr;
  ro_func : bool;
  runs_trigger : bool;
  callers_run_trigger : bool;
  callers_in_trycatch : bool;
  active_non_tsql_procs : Z;
  active_sys_functions : Z;
  stmt_resets_error : V -> bool
}.

(** What is dispatched: jumps and RETURN are control commands. *)
Inductive dispatched_stmt :=
| D_simple (h : hdr) (ty : stmt_type)
| D_return (h : hdr)
| D_goto.

(** How a dispatch ends: a value, an error that was only reported, an error that
    leaves the loop. *)
Inductive dispatch_end (E A : Type) :=
| Completed (a : A)
| Reported
| Thrown (e : E).
Arguments Completed {E A} _.
Arguments Reported {E A}.
Arguments Thrown {E A} _.

Section dispatch.
Context {V E : Type} (rt : runtime V E).

Abbreviation W := (session V).
Abbreviation estate_err := (PLtsql_estate_err E).

(** ** Session variables *)

Definition on_srv (f : V -> V) (w : W) : W :=
  mk_session (f (srv w)) (latest_error_code w) (latest_pg_error_code w) (last_error_mapping_failed w)
    (AbortCurTransaction w) (pltsql_non_tsql_proc_entry_count w) (pltsql_sys_func_entry_count w).

Definition exec_set_error (error pg_error : Z) (error_mapping_failed : bool) (w : W) : W :=
  mk_session (srv w) error pg_error error_mapping_failed (AbortCurTransaction w)
    (pltsql_non_tsql_proc_entry_count w) (pltsql_sys_func_entry_count w).

Definition set_abort (w : W) : W :=
  mk_session (srv w) (latest_error_code w) (latest_pg_error_code w) (last_error_mapping_failed w) true
    (pltsql_non_tsql_proc_entry_count w) (pltsql_sys_func_entry_count w).

Definition set_counts (procs funcs : Z) (w : W) : W :=
  mk_session (srv w) (latest_error_code w) (latest_pg_error_code w) (last_error_mapping_failed w)
    (AbortCurTransaction w) procs funcs.

Definition restore_counts : W -> W :=
  set_counts (active_non_tsql_procs _ _ rt) (active_sys_functions _ _ rt).

Definition pltsql_support_tsql_transactions (w : W) : bool :=
  if IS_TDS_CLIENT _ _ rt
  then (pltsql_non_tsql_proc_entry_count w =? 0)%Z && (pltsql_sys_func_entry_count w =? 0)%Z
  else false.

Definition pltsql_sys_function_pop (w : W) : W * bool :=
  if (pltsql_sys_func_entry_count w >? 0)%Z then
    (set_counts (pltsql_non_tsql_proc_entry_count w) 0 w,
     (pltsql_non_tsql_proc_entry_count w =? 0)%Z && IS_TDS_CLIENT _ _ rt)
  else (w, false).

(** ** Kinds of statements *)

Definition is_batch_command (d : dispatched_stmt) : bool :=
  match d with
  | D_simple _ ty => match ty with ST_EXEC | ST_EXEC_BATCH | ST_EXEC_SP => true | _ => false end
  | _ => false
  end.

Definition is_start_implicit_txn_command (d : dispatched_stmt) : bool :=
  match d with
  | D_simple _ ty =>
      match ty with
      | ST_DECL_CURSOR | ST_OPEN | ST_FETCH | ST_EXECSQL | ST_QUERY_SET | ST_RETURN_QUERY
      | ST_PUSH_RESULT => true
      | _ => false
      end
  | _ => false
  end.

Definition is_set_tran_isolation (d : dispatched_stmt) : bool :=
  match d with D_simple h ST_EXECSQL => set_tran_isolation _ _ rt h | _ => false end.

Definition is_seterror_on (d : dispatched_stmt) : bool :=
  match d with D_simple h ST_RAISERROR => seterror _ _ rt h | _ => false end.

(** RETURN and GOTO; the restore codes are not dispatched here. *)
Definition is_control_command (d : dispatched_stmt) : bool :=
  match d with D_simple _ _ => false | _ => true end.

Definition override_flag (d : dispatched_stmt) (w : W) : Z :=
  match d with
  | D_simple h ty =>
      override_txn_behaviour (latest_error_code w) (match ty with ST_EXECSQL => true | _ => false end)
        (plan_is_dml _ _ rt h (srv w))
  | _ => 0
  end.

(** ** Error data *)

(** [reset_exec_error_data], which precedes every statement.  (For a trigger
    [trigger_error] is kept, but it is consulted only together with
    [is_part_of_pltsql_trigger].) *)
Definition reset_exec_error_data : PLtsqlErrorData :=
  {| xact_abort_on := false; rethrow_error := false; trigger_error := false; error_estate := None;
     error_procedure := None; error_number := -1; error_severity := -1; error_state := -1 |}.

Definition record_error_state (w : W) (ed : PLtsqlErrorData) : PLtsqlErrorData :=
  match error_estate ed with
  | Some _ => ed
  | None =>
      {| xact_abort_on := if pltsql_xact_abort _ _ rt (srv w) then true else xact_abort_on ed;
         rethrow_error := rethrow_error ed;
         trigger_error := if runs_trigger _ _ rt then true else trigger_error ed;
         error_estate := Some (this_estate _ _ rt);
         error_procedure := get_proc_name _ _ rt (srv w);
         error_number := error_number ed; error_severity := error_severity ed;
         error_state := error_state ed |}
  end.

Definition is_error_raising_batch (ed : PLtsqlErrorData) : bool :=
  bool_decide (error_estate ed = Some (this_estate _ _ rt)).

Definition is_part_of_pltsql_trigger : bool := runs_trigger _ _ rt || callers_run_trigger _ _ rt.

(** ** Decisions *)

Section decisions.
Variable trycatch : bool. (** the value of [is_part_of_pltsql_trycatch_block] *)

Definition abort_transaction (w : W) (ed : PLtsqlErrorData) (e : E) (flag : Z) : bool :=
  if is_batch_txn_aborting_error (latest_error_code w) flag then true
  else if is_part_of_pltsql_trigger || trigger_error ed then true
  else if (sqlerrcode _ _ rt e =? ERRCODE_T_R_INTEGRITY_CONSTRAINT_VIOLATION _ _ rt)%Z && trycatch
  then true
  else if xact_abort_on ed then
    if trycatch then true
    else negb (ignore_xact_abort_error (ERRCODE_PLTSQL_RAISERROR _ _ rt) (latest_error_code w)
                 (sqlerrcode _ _ rt e) flag)
  else false.

Definition abort_only_current_batch (w : W) (ed : PLtsqlErrorData) (flag : Z) : bool :=
  is_current_batch_aborting_error (latest_error_code w) flag && is_error_raising_batch ed.

(** Returns the decision and the new [terminate_batch]. *)
Definition abort_execution (w : W) (ed : PLtsqlErrorData) (e : E) (flag : Z) (tb : bool)
    : bool * bool :=
  if negb (ErrHandler.is_ignorable_error (ERRCODE_PLTSQL_RAISERROR _ _ rt) (latest_error_code w)
             (sqlerrcode _ _ rt e) flag) then (true, tb)
  else if abort_only_current_batch w ed flag then (true, true)
  else if is_part_of_pltsql_trigger || trigger_error ed then (true, tb)
  else if rethrow_error ed then (true, tb)
  else if trycatch then (true, tb)
  else if xact_abort_on ed &&
          negb (ignore_xact_abort_error (ERRCODE_PLTSQL_RAISERROR _ _ rt) (latest_error_code w)
                  (sqlerrcode _ _ rt e) flag) then (true, tb)
  else (false, tb).

(** Returns session, error data, is the error thrown, [terminate_batch].  The
    evaluation contexts, which only hold memory, are left out. *)
Definition handle_error (d : dispatched_stmt) (w : W) (ed : PLtsqlErrorData) (e : E) (tb : bool)
    : W * PLtsqlErrorData * bool * bool :=
  let flag := override_flag d w in
  let ed := record_error_state w ed in
  let w :=
    if IsTransactionBlockActive _ _ rt (srv w) &&
       (last_error_mapping_failed w || abort_transaction w ed e flag)
    then on_srv (send_env_change_token_on_txn_abort _ _ rt) (set_abort w) else w in
  let '(abort, tb) :=
    if last_error_mapping_failed w then (true, tb) else abort_execution w ed e flag tb in
  if abort || ro_func _ _ rt then (w, ed, true, tb)
  else (on_srv (EmitErrorReport _ _ rt e) w, ed, false, tb).

Definition rollback_current_transaction (w : W) : W :=
  on_srv (fun v => StartTransactionCommand _ _ rt (AbortCurrentTransaction _ _ rt
                     (HoldPinnedPortals _ _ rt v))) w.

(** The error part of [dispatch_stmt_handle_error].  [sp]: an internal savepoint was
    started; [same_sp w]: it is still the current one. *)
Definition dispatch_failed {A} (d : dispatched_stmt) (sp : bool) (same_sp : W -> bool)
    (w : W) (ce : estate_err) (ed : PLtsqlErrorData) (fl : txn_flags) (tb : bool) (e : E)
    : W * estate_err * PLtsqlErrorData * bool * dispatch_end E A :=
  let support_tsql_trans := pltsql_support_tsql_transactions w in
  let w := if TSQL_TRIGGER_STARTED fl then on_srv (EndCompositeTriggers _ _ rt) w else w in
  let w := on_srv (add_failed_transaction _ _ rt) w in
  let '(w, pg_semantics) :=
    if support_tsql_trans then (w, false)
    else let '(w, popped) := pltsql_sys_function_pop w in (w, negb popped) in
  if pg_semantics then
    let w :=
      if sp then on_srv (RollbackAndReleaseCurrentSubTransaction _ _ rt) w
      else if negb (IsTransactionBlockActive _ _ rt (srv w)) then
        if trycatch then rollback_current_transaction w else w
      else set_abort w in
    (w, ce, ed, tb, Thrown e)
  else if ro_func _ _ rt then (on_srv (ro_func_cleanup _ _ rt) w, ce, ed, tb, Thrown e)
  else
    let '(error_mapped, last_error) := get_tsql_error _ _ rt e (srv w) in
    let w := exec_set_error last_error (sqlerrcode _ _ rt e) (negb error_mapped) w in
    let w :=
      if sp && same_sp w then on_srv (RollbackAndReleaseCurrentSubTransaction _ _ rt) w
      else if negb (IsTransactionBlockActive _ _ rt (srv w)) then rollback_current_transaction w
      else if TSQL_TRAN_STARTED fl then
        on_srv (fun v => pltsql_rollback_txn _ _ rt (HoldPinnedPortals _ _ rt v)) w
      else w in
    let w :=
      if pltsql_implicit_transactions _ _ rt (srv w) && IsTransactionBlockActive _ _ rt (srv w) &&
         IMPL_TRAN_START fl
      then on_srv (pltsql_rollback_txn _ _ rt) w else w in
    let '(w, ed, throw, tb) := handle_error d w ed e tb in
    (w, ce, ed, tb, if throw then Thrown e else Reported).

(** [dispatch] executes the statement, given session, current error, error data and
    whether an implicit transaction was started. *)
Definition dispatch_stmt_handle_error {A} (d : dispatched_stmt)
    (dispatch : W -> estate_err -> PLtsqlErrorData -> bool -> attempt V E A)
    (w : W) (ce : estate_err) (tb : bool)
    : W * estate_err * PLtsqlErrorData * bool * dispatch_end E A :=
  let before_lxid := lxid _ _ rt (srv w) in
  let before_tran_count := NestedTranCount _ _ rt (srv w) in
  let start_implicit :=
    pltsql_support_tsql_transactions w && pltsql_implicit_transactions _ _ rt (srv w) &&
    negb (IsTransactionBlockActive _ _ rt (srv w)) && is_start_implicit_txn_command d in
  let w := if start_implicit then on_srv (pltsql_start_txn _ _ rt) w else w in
  let internal_sp_started :=
    negb (ro_func _ _ rt) && negb (pltsql_disable_internal_savepoint _ _ rt (srv w)) &&
    negb (is_batch_command d) && IsTransactionBlockActive _ _ rt (srv w) &&
    negb (is_set_tran_isolation d) in
  let w := if internal_sp_started then on_srv (BeginInternalSubTransaction _ _ rt) w else w in
  let before_subtxn_id :=
    if internal_sp_started then GetCurrentSubTransactionId _ _ rt (srv w) else 0%Z in
  let same_sp w := (before_lxid =? lxid _ _ rt (srv w))%Z &&
                   (before_subtxn_id =? GetCurrentSubTransactionId _ _ rt (srv w))%Z in
  let '(w, ce, ed, fl, r) := dispatch w ce reset_exec_error_data start_implicit in
  match r with
  | inl e => dispatch_failed d internal_sp_started same_sp w ce ed fl tb e
  | inr a =>
      let w := restore_counts w in
      let w := if internal_sp_started && same_sp w
               then on_srv (ReleaseCurrentSubTransaction _ _ rt) w else w in
      if negb (pltsql_implicit_transactions _ _ rt (srv w)) && is_batch_command d &&
         negb is_part_of_pltsql_trigger &&
         negb (before_tran_count =? NestedTranCount _ _ rt (srv w))%Z
      then dispatch_failed d internal_sp_started same_sp w ce ed
             {| TSQL_TRIGGER_STARTED := TSQL_TRIGGER_STARTED fl;
                TSQL_TRAN_STARTED := TSQL_TRAN_STARTED fl; IMPL_TRAN_START := false |}
             tb (tran_count_mismatch _ _ rt before_tran_count (NestedTranCount _ _ rt (srv w)))
      else (w, ce, ed, tb, Completed a)
  end.
End decisions.

(** The end of an iteration: @@ERROR is cleared unless the statement asked for it,
    is a control or batch command, or an error was recorded. *)
Definition after_stmt (d : dispatched_stmt) (ed : PLtsqlErrorData) (w : W) : W :=
  if negb (is_seterror_on d) && negb (is_control_command d) && negb (is_batch_command d) &&
     bool_decide (error_estate ed = None)
  then exec_set_error 0 0 false w else w.

(** ** CATCH blocks *)

Definition ignore_catch_block_for_unmapped_error (w : W) (ed : PLtsqlErrorData) : bool :=
  if last_error_mapping_failed w then
    if negb is_part_of_pltsql_trigger && negb (is_error_raising_batch ed) &&
       ((latest_pg_error_code w =? ERRCODE_UNDEFINED_TABLE _ _ rt)%Z ||
        (latest_pg_error_code w =? ERRCODE_UNDEFINED_COLUMN _ _ rt)%Z)
    then false else true
  else false.

Definition ignore_catch_block_for_insert_exec (w : W) (e : E) : bool :=
  if insert_exec_error_at_trycatch_level _ _ rt (srv w) || negb (insert_exec_active _ _ rt (srv w))
  then false
  else (sqlerrcode _ _ rt e =? ERRCODE_DATATYPE_MISMATCH _ _ rt)%Z.

Definition ignore_catch (w : W) (ed : PLtsqlErrorData) (e : E) (tb : bool) : bool :=
  ignore_catch_block_for_insert_exec w e || ignore_catch_block_for_unmapped_error w ed || tb.

(** The current error inside the CATCH block that caught [e]. *)
Definition caught (ed : PLtsqlErrorData) (e : E) : estate_err :=
  {| error := Some e; procedure := error_procedure ed; number := error_number ed;
     severity := error_severity ed; state := error_state ed |}.

(** The rest of the iteration that entered a CATCH block.  C leaves the loop's
    statement variable indeterminate after the [siglongjmp]; [stmt_resets_error] is
    what the tests on it answer. *)
Definition catch_tail (ed : PLtsqlErrorData) (w : W) : W :=
  let w := restore_counts w in
  if stmt_resets_error _ _ rt (srv w) && bool_decide (error_estate ed = None)
  then exec_set_error 0 0 false w else w.
End dispatch.
