(* ===== verification/DispatchTheorems.v ===== *)
(** * DispatchTheorems: errors, statements and transactions

    What [dispatch_stmt_handle_error] guarantees about a failed statement, and a
    concrete server to evaluate the definitions on. *)
From stdpp Require Import base numbers list.
From S2P Require Import Prelude PltsqlAst ErrHandler Dispatch.

Section proofs.
Context {V E : Type} (rt : runtime V E).
Implicit Types w : session V.

(** No server procedure or system function is being executed around the loop. *)
Definition counts_ok w : Prop :=
  pltsql_non_tsql_proc_entry_count w = 0%Z /\ pltsql_sys_func_entry_count w = 0%Z.

(** What jumps rely on: the loop was entered outside such functions, and an internal
    savepoint in which nothing happened leaves no trace. *)
Record runtime_ok : Prop := {
  entered_outside : active_non_tsql_procs _ _ rt = 0%Z /\ active_sys_functions _ _ rt = 0%Z;
  empty_savepoint : forall v, IsTransactionBlockActive _ _ rt v = true ->
    lxid _ _ rt (BeginInternalSubTransaction _ _ rt v) = lxid _ _ rt v /\
    ReleaseCurrentSubTransaction _ _ rt (BeginInternalSubTransaction _ _ rt v) = v
}.

Hypothesis Hok : runtime_ok.

Lemma restore_counts_ok w : counts_ok (restore_counts rt w).
Proof. destruct (entered_outside Hok). done. Qed.

Lemma on_srv_counts f w : counts_ok w -> counts_ok (on_srv f w).
Proof. done. Qed.

Lemma after_stmt_counts d ed w : counts_ok w -> counts_ok (after_stmt rt d ed w).
Proof. intros. unfold after_stmt. by case_match. Qed.

Lemma catch_tail_counts ed w : counts_ok (catch_tail rt ed w).
Proof.
  pose proof (restore_counts_ok w) as H. unfold catch_tail. by case_match.
Qed.

(** ** Jumps *)

Lemma session_eta w :
  mk_session (srv w) (latest_error_code w) (latest_pg_error_code w) (last_error_mapping_failed w)
    (AbortCurTransaction w) (pltsql_non_tsql_proc_entry_count w) (pltsql_sys_func_entry_count w) = w.
Proof. by destruct w. Qed.

(** A jump without condition changes nothing. *)
Lemma goto_neutral (dispatch : session V -> PLtsql_estate_err E -> PLtsqlErrorData -> bool -> attempt V E (option bool)) trycatch w ce tb :
  (forall w ce ed impl, exists fl, dispatch w ce ed impl = (w, ce, ed, fl, inr None)) ->
  counts_ok w ->
  dispatch_stmt_handle_error rt trycatch D_goto dispatch w ce tb =
  (w, ce, reset_exec_error_data, tb, Completed None).
Proof.
  intros Hd [Hp Hf]. destruct (entered_outside Hok) as [Hap Haf].
  unfold dispatch_stmt_handle_error, restore_counts. rewrite Hap, Haf.
  cbn [is_start_implicit_txn_command is_batch_command is_set_tran_isolation].
  rewrite !andb_false_r, !andb_true_r. cbn [negb].
  destruct (_ && _) eqn:Hsp; edestruct Hd as [fl ->]; rewrite !andb_false_r; cbn [andb].
  - assert (IsTransactionBlockActive _ _ rt (srv w) = true) as Ht
      by (rewrite !andb_true_iff in Hsp; tauto).
    destruct (empty_savepoint Hok _ Ht) as [Hlx Hrel]. destruct w. cbn in *. subst.
    rewrite Hlx, !Z.eqb_refl. unfold on_srv. cbn. by rewrite Hrel.
  - destruct w. cbn in *. by subst.
Qed.

(** ** Counts after a dispatch *)

(** Errors are handled the T-SQL way only outside server procedures and system
    functions, or after leaving the latter. *)
Lemma tsql_semantics_counts w w0 :
  (pltsql_non_tsql_proc_entry_count w, pltsql_sys_func_entry_count w) =
  (pltsql_non_tsql_proc_entry_count w0, pltsql_sys_func_entry_count w0) ->
  (if pltsql_support_tsql_transactions rt w0 then (w, false)
   else let '(w, popped) := pltsql_sys_function_pop rt w in (w, negb popped)).2 = false ->
  counts_ok (if pltsql_support_tsql_transactions rt w0 then (w, false)
   else let '(w, popped) := pltsql_sys_function_pop rt w in (w, negb popped)).1.
Proof.
  intros [= Hp Hf]. unfold pltsql_support_tsql_transactions, pltsql_sys_function_pop.
  destruct (IS_TDS_CLIENT _ _ rt) eqn:Htds.
  - destruct (_ && _) eqn:Hz.
    + apply andb_true_iff in Hz as [?%Z.eqb_eq ?%Z.eqb_eq]. intros _. split; cbn; congruence.
    + destruct (_ >? _)%Z; cbn; [|done]. rewrite andb_true_r, negb_false_iff. intros ?%Z.eqb_eq. done.
  - destruct (_ >? _)%Z; cbn; [|done]. by rewrite andb_false_r.
Qed.

Lemma handle_error_counts trycatch d w ed e tb :
  counts_ok w -> counts_ok (handle_error rt trycatch d w ed e tb).1.1.1.
Proof.
  intros Hw. unfold handle_error. cbv zeta. destruct (_ && _); cbn; repeat case_match; done.
Qed.

Lemma dispatch_failed_counts {A} trycatch d sp same_sp w ce ed fl tb e :
  match dispatch_failed (A := A) rt trycatch d sp same_sp w ce ed fl tb e with
  | (_, _, _, _, Thrown _) => True
  | (w', _, _, _, Reported) => counts_ok w'
  | (_, _, _, _, Completed _) => False
  end.
Proof.
  unfold dispatch_failed. cbv zeta.
  set (w1 := on_srv (add_failed_transaction _ _ rt) _).
  pose proof (tsql_semantics_counts w1 w) as Hc. specialize (Hc ltac:(unfold w1; by destruct (TSQL_TRIGGER_STARTED fl))).
  destruct (if pltsql_support_tsql_transactions rt w then (w1, false) else _) as [w2 pg]. cbn in Hc.
  destruct pg; [done|]. specialize (Hc eq_refl). destruct (ro_func _ _ rt); [done|].
  destruct (get_tsql_error _ _ rt e (srv w2)) as [mapped last].
  match goal with |- context [handle_error rt trycatch d ?x ed e tb] => set (w3 := x) end.
  assert (counts_ok w3) as Hw3 by (unfold w3; repeat case_match; done).
  pose proof (handle_error_counts trycatch d w3 ed e tb Hw3) as H.
  destruct (handle_error _ _ _ _ _ _ _) as [[[w4 ed4] [|]] tb4]; [done|]. exact H.
Qed.

(** Unless an error is thrown, the counts are those of the entry. *)
Lemma dispatch_counts {A} trycatch d (dispatch : _ -> _ -> _ -> _ -> attempt V E A) w ce tb :
  match dispatch_stmt_handle_error rt trycatch d dispatch w ce tb with
  | (_, _, _, _, Thrown _) => True
  | (w', _, _, _, _) => counts_ok w'
  end.
Proof.
  unfold dispatch_stmt_handle_error. cbv zeta.
  destruct (dispatch _ _ _ _) as [[[[w1 ce1] ed1] fl1] [e|a]].
  - match goal with |- context [dispatch_failed ?a ?b ?c ?d ?e ?f ?g ?h ?i ?j ?k] =>
      pose proof (dispatch_failed_counts (A := A) b c d e f g h i j k) as H end.
    destruct (dispatch_failed _ _ _ _ _ _ _ _ _ _ _) as [[[[? ?] ?] ?] [| |]]; done.
  - match goal with |- context [if ?b then dispatch_failed _ _ _ _ _ _ _ _ _ _ _ else _] =>
      destruct b end.
    + match goal with |- context [dispatch_failed ?a ?b ?c ?d ?e ?f ?g ?h ?i ?j ?k] =>
        pose proof (dispatch_failed_counts (A := A) b c d e f g h i j k) as H end.
      destruct (dispatch_failed _ _ _ _ _ _ _ _ _ _ _) as [[[[? ?] ?] ?] [| |]]; done.
    + pose proof (restore_counts_ok w1). by case_match.
Qed.
End proofs.

(** ** Failed statements *)

(** ** Error tables *)

Lemma in_table_disjoint t1 t2 code :
  forallb (fun c => negb (in_table c t2)) t1 = true ->
  in_table code t1 = true -> in_table code t2 = false.
Proof.
  rewrite forallb_forall. intros H Hin%bool_decide_eq_true. apply list_elem_of_In in Hin.
  by apply H, negb_true_iff in Hin.
Qed.

(** An error that only terminates its statement does not end the transaction,
    with or without the override for constraint violations in DML. *)
Lemma ignorable_not_txn_aborting raiserror latest pg execsql dml :
  pg <> raiserror ->
  is_ignorable_error raiserror latest pg (override_txn_behaviour latest execsql dml) = true ->
  is_batch_txn_aborting_error latest (override_txn_behaviour latest execsql dml) = false.
Proof.
  intros Hpg. unfold is_ignorable_error, is_batch_txn_aborting_error, override_txn_behaviour.
  destruct (_ && _); [done|]. unfold overridden. cbn.
  destruct (in_table latest ignorable_codes) eqn:Hin.
  - intros _. apply (in_table_disjoint ignorable_codes); [vm_compute; reflexivity|done].
  - intros ?%Z.eqb_eq. done.
Qed.

Lemma raiserror_not_txn_aborting latest execsql dml :
  (50000 <= latest)%Z ->
  is_batch_txn_aborting_error latest (override_txn_behaviour latest execsql dml) = false.
Proof.
  intros H. unfold is_batch_txn_aborting_error, override_txn_behaviour.
  destruct (_ && _); [done|]. unfold overridden. cbn. unfold in_table.
  apply bool_decide_eq_false. intros Hin.
  assert (Forall (fun c => (c < 50000)%Z) batch_txn_aborting_codes) as Hall
    by (apply (bool_decide_eq_true_1 _); vm_compute; reflexivity).
  rewrite Forall_forall in Hall. specialize (Hall _ Hin). lia.
Qed.

(** ** Decisions about an error *)

Section errors.
Context {V E : Type} (rt : runtime V E).

Lemma abort_execution_try w ed e flag tb : (abort_execution rt true w ed e flag tb).1 = true.
Proof. unfold abort_execution. repeat case_match; done. Qed.

Lemma continue_not_try trycatch w ed e flag tb tb' :
  abort_execution rt trycatch w ed e flag tb = (false, tb') ->
  tb' = tb /\ trycatch = false.
Proof. unfold abort_execution. repeat case_match; naive_solver. Qed.

Lemma override_flag_eq d w :
  exists execsql dml, override_flag rt d w = override_txn_behaviour (latest_error_code w) execsql dml.
Proof.
  destruct d; cbn; eauto; exists false, false; unfold override_txn_behaviour;
    by rewrite andb_false_r.
Qed.

(** When execution goes on after an error, nothing dooms the transaction. *)
Lemma continue_keeps_transaction trycatch d w ed e tb :
  (sqlerrcode _ _ rt e = ERRCODE_PLTSQL_RAISERROR _ _ rt -> (50000 <= latest_error_code w)%Z) ->
  (abort_execution rt trycatch w ed e (override_flag rt d w) tb).1 = false ->
  abort_transaction rt trycatch w ed e (override_flag rt d w) = false.
Proof.
  unfold abort_execution, abort_transaction. intros Hraise.
  destruct (is_ignorable_error _ _ _ _) eqn:Hign; [|done]. cbn [negb].
  destruct (abort_only_current_batch _ _ _ _); [done|].
  destruct (is_part_of_pltsql_trigger rt || trigger_error ed); [done|].
  destruct (rethrow_error ed); [done|]. destruct trycatch; [done|].
  assert (is_batch_txn_aborting_error (latest_error_code w) (override_flag rt d w) = false) as ->.
  { destruct (override_flag_eq d w) as (execsql & dml & Hfl). rewrite Hfl in *.
    destruct (decide (sqlerrcode _ _ rt e = ERRCODE_PLTSQL_RAISERROR _ _ rt)) as [Heq|Hne];
      [by apply raiserror_not_txn_aborting, Hraise | by eapply ignorable_not_txn_aborting]. }
  rewrite andb_false_r. by destruct (xact_abort_on ed), (ignore_xact_abort_error _ _ _ _).
Qed.

Lemma handle_error_try d w ed e tb :
  (handle_error rt true d w ed e tb).1.2 = true.
Proof.
  unfold handle_error. cbv zeta. set (w1 := if _ && _ then _ else w).
  destruct (last_error_mapping_failed w1); [done|].
  pose proof (abort_execution_try w1 (record_error_state rt w ed) e (override_flag rt d w) tb) as H.
  destruct (abort_execution _ _ _ _ _ _ _) as [[] tb1]; [done|]. discriminate H.
Qed.

Lemma handle_error_continues trycatch d w ed e tb w' ed' tb' :
  (sqlerrcode _ _ rt e = ERRCODE_PLTSQL_RAISERROR _ _ rt -> (50000 <= latest_error_code w)%Z) ->
  handle_error rt trycatch d w ed e tb = (w', ed', false, tb') ->
  w' = on_srv (EmitErrorReport _ _ rt e) w /\ tb' = tb /\ trycatch = false.
Proof.
  intros Hraise. unfold handle_error. cbv zeta. set (ed1 := record_error_state rt w ed).
  pose proof (continue_keeps_transaction trycatch d w ed1 e tb Hraise) as Hkeep.
  destruct (_ && _) eqn:Hdoom.
  - cbn [last_error_mapping_failed on_srv set_abort].
    change (abort_execution rt trycatch (on_srv _ (set_abort w)) ed1 e (override_flag rt d w) tb)
      with (abort_execution rt trycatch w ed1 e (override_flag rt d w) tb).
    destruct (last_error_mapping_failed w); [done|].
    destruct (abort_execution _ _ _ _ _ _ _) as [[] tb1]; [done|].
    rewrite Hkeep, andb_false_r in Hdoom; done.
  - destruct (last_error_mapping_failed w); [done|].
    pose proof (continue_not_try trycatch w ed1 e (override_flag rt d w) tb) as Htry.
    destruct (abort_execution _ _ _ _ _ _ _) as [[] tb1]; [done|]. cbn [orb].
    destruct (ro_func _ _ rt); [done|]. intros [= <- <- <-].
    destruct (Htry _ eq_refl) as [-> ->]. done.
Qed.
Lemma dispatch_failed_try {A} d sp same_sp w ce ed fl tb e :
  (dispatch_failed (A := A) rt true d sp same_sp w ce ed fl tb e).2 = Thrown e.
Proof.
  unfold dispatch_failed. cbv zeta.
  destruct (if pltsql_support_tsql_transactions rt w then _ else _) as [w2 []]; [done|].
  destruct (ro_func _ _ rt); [done|]. destruct (get_tsql_error _ _ rt e (srv w2)) as [mapped last].
  match goal with |- context [handle_error rt true d ?x ed e tb] =>
    pose proof (handle_error_try d x ed e tb) as Ht;
    destruct (handle_error rt true d x ed e tb) as [[[w4 ed4] throw] tb4] end.
  by cbn in Ht; subst.
Qed.

(** A statement that failed inside the internal savepoint started for it on [v]: the
    savepoint is still the current one, and rolling it back returns to [v]. *)
Record failed_in_savepoint (v : V) (w1 : session V) (fl : txn_flags) : Prop := {
  same_transaction : lxid _ _ rt (srv w1) = lxid _ _ rt v;
  same_savepoint : GetCurrentSubTransactionId _ _ rt (srv w1) =
    GetCurrentSubTransactionId _ _ rt (BeginInternalSubTransaction _ _ rt v);
  savepoint_undoes : RollbackAndReleaseCurrentSubTransaction _ _ rt
    (add_failed_transaction _ _ rt (srv w1)) = v;
  failed_recorded : GetCurrentSubTransactionId _ _ rt (add_failed_transaction _ _ rt (srv w1)) =
    GetCurrentSubTransactionId _ _ rt (srv w1) /\
    lxid _ _ rt (add_failed_transaction _ _ rt (srv w1)) = lxid _ _ rt (srv w1);
  left_functions : counts_ok w1;
  no_trigger : TSQL_TRIGGER_STARTED fl = false /\ IMPL_TRAN_START fl = false
}.

(** The session when the error is handled: the server is back at [v], the error is
    the latest one. *)
Definition undone (v : V) (w1 : session V) (e : E) : session V :=
  let '(mapped, code) := get_tsql_error _ _ rt e (add_failed_transaction _ _ rt (srv w1)) in
  exec_set_error code (sqlerrcode _ _ rt e) (negb mapped) (on_srv (fun _ => v) w1).

Lemma dispatch_failed_undone {A} trycatch d (w w1 : session V) ce ed fl tb e :
  IS_TDS_CLIENT _ _ rt = true -> ro_func _ _ rt = false ->
  failed_in_savepoint (srv w) w1 fl ->
  dispatch_failed (A := A) rt trycatch d true
    (fun w' => (lxid _ _ rt (srv w) =? lxid _ _ rt (srv w'))%Z &&
       (GetCurrentSubTransactionId _ _ rt (BeginInternalSubTransaction _ _ rt (srv w)) =?
        GetCurrentSubTransactionId _ _ rt (srv w'))%Z) w1 ce ed fl tb e =
  let '(w', ed', throw, tb') := handle_error rt trycatch d (undone (srv w) w1 e) ed e tb in
  (w', ce, ed', tb', if throw then Thrown e else Reported).
Proof.
  intros Htds Hro [Hlx Hsp Hundo [Hf1 Hf2] [Hp Hf] [Htr Himp]].
  unfold dispatch_failed, pltsql_support_tsql_transactions, undone. cbv zeta.
  rewrite Htds, Hp, Hf, Htr, Hro, Himp. cbn [Z.eqb andb negb].
  cbn. destruct (get_tsql_error _ _ rt e _) as [mapped code]. cbn. rewrite Hf1, Hf2, Hlx, Hsp, !Z.eqb_refl. cbn. rewrite andb_false_r.
  unfold exec_set_error, on_srv. cbn. by rewrite Hundo.
Qed.
(** An error that is thrown leaves the server as it is, or dooms the transaction. *)
Lemma handle_error_thrown trycatch d w ed e tb w' ed' tb' :
  handle_error rt trycatch d w ed e tb = (w', ed', true, tb') ->
  w' = w \/ w' = on_srv (send_env_change_token_on_txn_abort _ _ rt) (set_abort w).
Proof.
  unfold handle_error. cbv zeta. destruct (_ && _).
  - destruct (if last_error_mapping_failed _ then _ else _) as [ab tb1]. destruct (ab || _); intros [= <- <- <-]; auto.
  - destruct (if last_error_mapping_failed _ then _ else _) as [ab tb1]. destruct (ab || _); intros [= <- <- <-]; auto.
Qed.

(** XACT_ABORT in a TRY block. *)
Lemma handle_error_xact_abort d w ed e tb :
  IsTransactionBlockActive _ _ rt (srv w) = true -> pltsql_xact_abort _ _ rt (srv w) = true ->
  error_estate ed = None ->
  AbortCurTransaction (handle_error rt true d w ed e tb).1.1.1 = true.
Proof.
  intros Htx Hx Hed. unfold handle_error, record_error_state. cbv zeta. rewrite Htx, Hed, Hx.
  unfold abort_transaction. cbn [xact_abort_on andb].
  match goal with |- context [if ?b then on_srv _ (set_abort w) else w] =>
    assert (b = true) as -> by (repeat case_match; by rewrite ?orb_true_r) end.
  destruct (if last_error_mapping_failed _ then _ else _) as [ab tb1]. by destruct (ab || _).
Qed.
End errors.

(** ** Properties *)

(** C28: A statement that fails inside a transaction is undone: the server returns to
    the state before the statement, and then either the error is only reported, the
    batch goes on and the transaction stays committable; or the error is thrown, and
    nothing else happens except that the transaction may be marked for rollback. *)
Theorem failed_statement_undone {V E A} (rt : runtime V E) trycatch d
    (dispatch : session V -> PLtsql_estate_err E -> PLtsqlErrorData -> bool -> attempt V E A)
    w ce tb w1 ce1 ed1 fl e :
  IS_TDS_CLIENT _ _ rt = true -> ro_func _ _ rt = false ->
  pltsql_disable_internal_savepoint _ _ rt (srv w) = false ->
  IsTransactionBlockActive _ _ rt (srv w) = true ->
  is_batch_command d = false -> is_set_tran_isolation rt d = false ->
  dispatch (on_srv (BeginInternalSubTransaction _ _ rt) w) ce reset_exec_error_data false =
    (w1, ce1, ed1, fl, inl e) ->
  failed_in_savepoint rt (srv w) w1 fl ->
  (forall v, sqlerrcode _ _ rt e = ERRCODE_PLTSQL_RAISERROR _ _ rt ->
     (50000 <= (get_tsql_error _ _ rt e v).2)%Z) ->
  match dispatch_stmt_handle_error rt trycatch d dispatch w ce tb with
  | (w', ce', _, tb', Reported) =>
      srv w' = EmitErrorReport _ _ rt e (srv w) /\ ce' = ce1 /\ tb' = tb /\ trycatch = false /\
      AbortCurTransaction w' = AbortCurTransaction w1
  | (w', ce', _, _, Thrown e') =>
      e' = e /\ ce' = ce1 /\
      (srv w' = srv w /\ AbortCurTransaction w' = AbortCurTransaction w1 \/
       srv w' = send_env_change_token_on_txn_abort _ _ rt (srv w) /\ AbortCurTransaction w' = true)
  | (_, _, _, _, Completed _) => False
  end.
Proof.
  intros Htds Hro Hdis Htx Hbc Hiso Hd Hin Hraise. unfold dispatch_stmt_handle_error. cbv zeta.
  rewrite Htx, Hro, Hbc, Hiso. cbn [negb andb]. rewrite !andb_false_r. cbn [andb].
  rewrite Hdis, Htx. cbn [negb andb]. rewrite Hd.
  pose proof (dispatch_failed_undone (A := A) rt trycatch d w w1 ce1 ed1 fl tb e Htds Hro Hin) as Hf.
  cbn [srv on_srv] in *. rewrite Hf. clear Hf.
  destruct (handle_error rt trycatch d _ ed1 e tb) as [[[w' ed'] []] tb'] eqn:Hh.
  - split; [done|]. split; [done|]. unfold undone in Hh.
    destruct (get_tsql_error _ _ rt e _) as [mapped code].
    destruct (handle_error_thrown _ _ _ _ _ _ _ _ _ _ Hh) as [-> | ->]; cbn; auto.
  - unfold undone in Hh. specialize (Hraise (add_failed_transaction _ _ rt (srv w1))).
    destruct (get_tsql_error _ _ rt e _) as [mapped code].
    apply handle_error_continues in Hh as (-> & -> & ->); [done|]. cbn. exact Hraise.
Qed.

(** Inside a TRY block no error is swallowed: every failing statement throws its
    error to the CATCH block; and with XACT_ABORT on an error handled in a TRY block
    always dooms an open transaction. *)
Theorem error_in_try_thrown {V E A} (rt : runtime V E) d
    (dispatch : session V -> PLtsql_estate_err E -> PLtsqlErrorData -> bool -> attempt V E A)
    w ce tb e :
  (forall w ce ed impl, (dispatch w ce ed impl).2 = inl e) ->
  (dispatch_stmt_handle_error rt true d dispatch w ce tb).2 = Thrown e /\
  (forall w ed, IsTransactionBlockActive _ _ rt (srv w) = true ->
     pltsql_xact_abort _ _ rt (srv w) = true -> error_estate ed = None ->
     AbortCurTransaction (handle_error rt true d w ed e tb).1.1.1 = true).
Proof.
  intros Hd. split; [|intros; by apply handle_error_xact_abort].
  unfold dispatch_stmt_handle_error. cbv zeta.
  match goal with |- context [dispatch ?a ?b ?c ?d] =>
    pose proof (Hd a b c d) as He; destruct (dispatch a b c d) as [[[[w1 ce1] ed1] fl1] r] end.
  cbn in He. subst r. apply dispatch_failed_try.
Qed.

(** Error 10793 is listed among the errors that abort only the current batch, but
    it is not ignorable: it aborts the batch and every calling batch, and never sets
    [terminate_batch], so unlike the others of its list it can be caught. *)
Theorem error_10793_not_batch_aborting {V E} (rt : runtime V E) trycatch w ed e tb :
  latest_error_code w = 10793%Z -> sqlerrcode _ _ rt e <> ERRCODE_PLTSQL_RAISERROR _ _ rt ->
  is_current_batch_aborting_error (latest_error_code w) 0 = true /\
  abort_execution rt trycatch w ed e 0 tb = (true, tb).
Proof.
  intros Hl Hr. unfold abort_execution. rewrite Hl. split; [by vm_compute|].
  unfold is_ignorable_error, overridden. cbn -[in_table].
  assert (in_table 10793 ignorable_codes = false) as -> by (by vm_compute).
  by rewrite (proj2 (Z.eqb_neq _ _) Hr).
Qed.

(** ** A concrete server *)

(** A server: statements executed, is a transaction open, what its savepoints
    return to, errors reported to the client. *)
Record log := mk_log {
  executed : list ptr;
  in_txn : bool;
  savepoints : list (list ptr);
  reported : list ptr
}.

Definition quiet_flags : txn_flags :=
  {| TSQL_TRIGGER_STARTED := false; TSQL_TRAN_STARTED := false; IMPL_TRAN_START := false |}.

Definition logged (a : ptr) (w : session log) : session log :=
  on_srv (fun l => mk_log (a :: executed l) (in_txn l) (savepoints l) (reported l)) w.

(** A runtime that logs the statements it executes, newest first, and fails on
    the statements chosen by [fails]; the error is the statement's address, its
    T-SQL code [code], and its procedure name a string allocated at that address
    plus 100. *)
Definition log_runtime (fails : ptr -> bool) (code : Z) (xact_abort : bool)
    (conds : PLtsql_expr -> list ptr -> bool) : runtime log ptr :=
  {| rt_simple h _ w ce ed _ :=
       (logged (addr h) w, ce, ed, quiet_flags,
        if fails (addr h) then inl (addr h) else inr tt);
     rt_return h w ce ed _ := (logged (addr h) w, ce, ed, quiet_flags, inr tt);
     rt_eval_boolean e w ce ed _ := (w, ce, ed, quiet_flags, inr (Some (conds e (executed (srv w)))));
     sqlerrcode _ := 0%Z;
     get_tsql_error _ _ := (true, code);
     tran_count_mismatch _ _ := 0;
     seterror _ := false;
     set_tran_isolation _ := false;
     plan_is_dml _ _ := false;
     IS_TDS_CLIENT := true;
     pltsql_implicit_transactions _ := false;
     pltsql_xact_abort _ := xact_abort;
     pltsql_disable_internal_savepoint _ := false;
     IsTransactionBlockActive l := in_txn l;
     lxid _ := 1%Z;
     GetCurrentSubTransactionId l := Z.of_nat (length (savepoints l));
     NestedTranCount l := (if in_txn l then 1 else 0)%Z;
     pltsql_start_txn l := mk_log (executed l) true (savepoints l) (reported l);
     pltsql_rollback_txn l := mk_log (executed l) false [] (reported l);
     BeginInternalSubTransaction l :=
       mk_log (executed l) (in_txn l) (executed l :: savepoints l) (reported l);
     ReleaseCurrentSubTransaction l :=
       mk_log (executed l) (in_txn l) (tail (savepoints l)) (reported l);
     RollbackAndReleaseCurrentSubTransaction l :=
       mk_log (default (executed l) (head (savepoints l))) (in_txn l) (tail (savepoints l)) (reported l);
     HoldPinnedPortals l := l;
     AbortCurrentTransaction l := l;
     StartTransactionCommand l := l;
     EndCompositeTriggers l := l;
     add_failed_transaction l := l;
     ro_func_cleanup l := l;
     send_env_change_token_on_txn_abort l := l;
     EmitErrorReport e l := mk_log (executed l) (in_txn l) (savepoints l) (e :: reported l);
     insert_exec_error_at_trycatch_level _ := false;
     insert_exec_active _ := false;
     ERRCODE_PLTSQL_RAISERROR := 1%Z;
     ERRCODE_T_R_INTEGRITY_CONSTRAINT_VIOLATION := 2%Z;
     ERRCODE_UNDEFINED_TABLE := 3%Z;
     ERRCODE_UNDEFINED_COLUMN := 4%Z;
     ERRCODE_DATATYPE_MISMATCH := 5%Z;
     this_estate := 1;
     get_proc_name l := (fun a => 100 + a) <$> head (executed l);
     ro_func := false;
     runs_trigger := false;
     callers_run_trigger := false;
     callers_in_trycatch := false;
     active_non_tsql_procs := 0%Z;
     active_sys_functions := 0%Z;
     stmt_resets_error _ := false |}.

Lemma log_runtime_ok fails code xact_abort conds :
  runtime_ok (log_runtime fails code xact_abort conds).
Proof. split; [done|]. intros [] _. done. Qed.

Definition start_session (l : log) : session log := mk_session l 0 0 false false 0 0.
Definition outside_txn : session log := start_session (mk_log [] false [] []).
Definition inside_txn : session log := start_session (mk_log [] true [] []).

Definition no_error : PLtsql_estate_err ptr :=
  {| error := None; procedure := None; number := 0; severity := 0; state := 0 |}.

(** Statement 7 divides by zero in a transaction, after statement 3. *)
Definition failing : runtime log ptr := log_runtime (fun _ => true) 8134 false (fun _ _ => true).
Definition in_transaction : session log := start_session (mk_log [3] true [] []).

Lemma failed_statement_undone_witness :
  srv (dispatch_stmt_handle_error failing false (D_simple {| addr := 7; lineno := 1 |} ST_EXECSQL)
         (rt_simple _ _ failing {| addr := 7; lineno := 1 |} ST_EXECSQL)
         in_transaction no_error false).1.1.1.1 = mk_log [3] true [] [7].
Proof.
  pose proof (failed_statement_undone failing false (D_simple {| addr := 7; lineno := 1 |} ST_EXECSQL)
    (rt_simple _ _ failing {| addr := 7; lineno := 1 |} ST_EXECSQL) in_transaction no_error false
    (start_session (mk_log [7; 3] true [[3]] [])) no_error reset_exec_error_data quiet_flags 7
    eq_refl eq_refl eq_refl eq_refl eq_refl eq_refl eq_refl) as H.
  assert (failed_in_savepoint failing (srv in_transaction) (start_session (mk_log [7; 3] true [[3]] []))
            quiet_flags) as Hin by (split; try split; reflexivity).
  specialize (H Hin ltac:(discriminate)). vm_compute in H. vm_compute. apply H.
Defined.

Lemma error_in_try_thrown_witness :
  (dispatch_stmt_handle_error failing true (D_simple {| addr := 7; lineno := 1 |} ST_EXECSQL)
     (rt_simple _ _ failing {| addr := 7; lineno := 1 |} ST_EXECSQL)
     in_transaction no_error false).2 = Thrown 7.
Proof. apply (error_in_try_thrown failing). reflexivity. Defined.

Lemma error_10793_not_batch_aborting_witness :
  abort_execution failing true (exec_set_error 10793 0 false in_transaction) reset_exec_error_data 7 0
    false = (true, false).
Proof. apply (error_10793_not_batch_aborting failing); [reflexivity|discriminate]. Defined.
