(* ===== verification/ErrorTable.v ===== *)
(** * ErrorTable: the error mapping of [babelfishpg_tds/error_mapping.txt]

    One entry per line of the file, in its order, as the header generated from it
    lists them: SQLSTATE, message format, T-SQL error code and severity, keywords
    joined by #.  [PRId64] is the format of a 64-bit integer. *)
From Stdlib Require Import String Ascii ZArith List.
Import ListNotations.
#[local] Open Scope string_scope.
#[local] Open Scope Z_scope.

(** [error_map_details]; the pointers may be NULL. *)
Record error_map_details := mk_error_map_details {
  sql_state : string;
  error_message : option string;
  tsql_error_code : Z;
  tsql_error_severity : Z;
  error_msg_keywords : option string
}.

Definition entry (state message : string) (code severity : Z) (keywords : string) : error_map_details :=
  mk_error_map_details state (Some message) code severity (Some keywords).

(** The double quote. *)
Definition dq : string := String (ascii_of_nat 34) EmptyString.

Definition error_mapping : list error_map_details := [
  entry "0A000" "mixture of ISO syntax and T-SQL extended syntax" 1049 15 EmptyString;
  entry "42601" "syntax error near %s at line %lu and character position %lu" 1051 16 "VARYING";
  entry "42601" "syntax error near %s at line %lu and character position %lu" 142 15 "REFERENCES";
  entry "42601" "syntax error near %s at line %lu and character position %lu" 10727 15 "INSERT";
  entry "42601" "syntax error near %s at line %lu and character position %lu" 10727 15 "DELETE";
  entry "42601" "syntax error near %s at line %lu and character position %lu" 10727 15 "UPDATE";
  entry "42601" "syntax error near %s at line %lu and character position %lu" 10733 15 "MERGE";
  entry "42601" "syntax error near %s at line %lu and character position %lu" 11717 15 "OVER";
  entry "42601" "syntax error near %s at line %lu and character position %lu" 487 15 "BEGIN";
  entry "42601" "syntax error near %s at line %lu and character position %lu" 11709 15 "WITH";
  entry "42601" "syntax error near %s at line %lu and character position %lu" 153 15 "FILEGROWTH";
  entry "42601" "Too many substitution parameters for RAISERROR. Cannot exceed 20 substitution parameters." 2747 16 EmptyString;
  entry "P0001" "%s" 289 16 "Cannot construct data type datetime, some of the arguments have values which are not valid.";
  entry "42601" "A SELECT statement that assigns a value to a variable must not be combined with data-retrieval operations" 141 15 EmptyString;
  entry "09000" "An error was raised during trigger execution. The batch has been aborted and the user transaction, if any, has been rolled back." 3616 16 EmptyString;
  entry "42601" "duplicate declaration" 134 15 EmptyString;
  entry "42804" ("variable " ++ dq ++ "%s" ++ dq ++ " must be of type cursor or refcursor") 16948 16 EmptyString;
  entry "2200N" "%s" 9451 16 "invalid XML content";
  entry "2200N" "%s" 9441 16 "invalid XML content#invalid XML declaration";
  entry "P0001" "%s" 9809 16 "is not supported for conversions from";
  entry "22003" (dq ++ "%s" ++ dq ++ " is out of range for type real") 232 16 EmptyString;
  entry "42809" (dq ++ "%s" ++ dq ++ " is not a table") 4708 16 EmptyString;
  entry "42809" "The request for procedure '%s' failed because '%s' is a table valued function object." 2809 16 EmptyString;
  entry "42601" ("%s at or near " ++ dq ++ "%s" ++ dq) 1051 15 "VARYING";
  entry "42601" ("%s at or near " ++ dq ++ "%s" ++ dq) 3914 16 "SAVE";
  entry "42601" ("%s at or near " ++ dq ++ "%s" ++ dq) 1034 15 "duplicate trigger events specified";
  entry "42601" ("%s at or near " ++ dq ++ "%s" ++ dq) 10793 15 "INDEX";
  entry "42601" ("%s at or near " ++ dq ++ "%s" ++ dq) 11555 15 "NOT";
  entry "25P01" "%s can only be used in transaction blocks" 3902 16 "COMMIT";
  entry "25P01" "%s can only be used in transaction blocks" 3903 16 "ROLLBACK";
  entry "25P01" "%s can only be used in transaction blocks" 628 16 "SAVEPOINT";
  entry "25P01" "%s can only be used in transaction blocks" 3903 16 "ROLLBACK TO SAVEPOINT";
  entry "25001" "%s cannot run inside a transaction block" 574 16 EmptyString;
  entry "25001" "%s command cannot be used inside user transactions." 6615 16 EmptyString;
  entry "42809" (dq ++ "%s" ++ dq ++ " is not a table or materialized view") 10610 16 EmptyString;
  entry "42809" ("cannot create index on relation " ++ dq ++ "%s" ++ dq) 10610 16 EmptyString;
  entry "42809" "%s parameter should be of %s type" 16902 16 EmptyString;
  entry "22004" "%s parameter should not be null" 16902 16 EmptyString;
  entry "42601" ("argument name " ++ dq ++ "%s" ++ dq ++ " used more than once") 8143 16 EmptyString;
  entry "22003" "bigint out of range" 8115 16 EmptyString;
  entry "55006" ("cannot %s " ++ dq ++ "%s" ++ dq ++ " because it is being used by active queries in this session") 556 16 EmptyString;
  entry "2BP01" "cannot drop %s because %s requires it" 3723 16 EmptyString;
  entry "2BP01" "cannot drop %s because other objects depend on it" 3732 16 "type";
  entry "2BP01" "cannot drop %s because other objects depend on it" 3729 16 "function";
  entry "2BP01" "cannot drop %s because other objects depend on it" 3726 16 "table";
  entry "2201E" "cannot take logarithm of a negative number" 3623 16 EmptyString;
  entry "2201F" "cannot take square root of a negative number" 3623 16 EmptyString;
  entry "0A000" "cannot truncate a table referenced in a foreign key constraint" 4712 16 EmptyString;
  entry "22023" "CACHE (%ld) must be greater than zero" 11706 16 EmptyString;
  entry "23514" ("check constraint " ++ dq ++ "%s" ++ dq ++ " of relation " ++ dq ++ "%s" ++ dq ++ " is violated by some row") 547 16 EmptyString;
  entry "2F005" "The transaction ended in the trigger. The batch has been aborted." 3609 16 EmptyString;
  entry "23502" ("column " ++ dq ++ "%s" ++ dq ++ " of relation " ++ dq ++ "%s" ++ dq ++ " contains null values") 4901 16 EmptyString;
  entry "42601" ("column " ++ dq ++ "%s" ++ dq ++ " of relation " ++ dq ++ "%s" ++ dq ++ " is a generated column") 1752 16 EmptyString;
  entry "XX000" "CREATE FUNCTION failed because a column name is not specified for column %d" 4514 16 EmptyString;
  entry "42601" "CREATE VIEW specifies more column names than columns" 8159 16 EmptyString;
  entry "42704" ("constraint " ++ dq ++ "%s" ++ dq ++ " of relation " ++ dq ++ "%s" ++ dq ++ " does not exist") 3728 16 EmptyString;
  entry "23505" ("could not create unique index " ++ dq ++ "%s" ++ dq) 1505 16 EmptyString;
  entry "42883" ("could not find a function named " ++ dq ++ "%s" ++ dq) 3701 11 EmptyString;
  entry "42883" ("could not find a procedure named " ++ dq ++ "%s" ++ dq) 3701 11 EmptyString;
  entry "42883" "could not identify an equality operator for type %s" 306 16 EmptyString;
  entry "42883" "could not identify an ordering operator for type %s" 306 16 EmptyString;
  entry "42883" ("%s %s expects parameter " ++ dq ++ "%s" ++ dq ++ ", which was not supplied.") 201 16 EmptyString;
  entry "42883" "Procedure or function '%s' expects parameter '%s', which was not supplied." 201 16 EmptyString;
  entry "42883" "%s %s has no parameters and arguments were supplied." 8146 16 EmptyString;
  entry "42883" "%s %s has too many arguments specified." 8144 16 EmptyString;
  entry "42883" (dq ++ "%s" ++ dq ++ " is not an parameter for %s %s.") 8145 16 EmptyString;
  entry "42883" "The %s %s is found but cannot be used. Possibly due to datatype mismatch and implicit casting is not allowed." 206 16 EmptyString;
  entry "42P03" ("cursor " ++ dq ++ "%s" ++ dq ++ " already exists") 16915 16 EmptyString;
  entry "42704" "cursor %d doesn't exist" 16916 16 EmptyString;
  entry "22004" ("cursor variable " ++ dq ++ "%s" ++ dq ++ " is null") 16950 16 EmptyString;
  entry "42P04" ("database " ++ dq ++ "%s" ++ dq ++ " already exists") 1801 16 EmptyString;
  entry "3D000" ("database " ++ dq ++ "%s" ++ dq ++ " does not exist") 911 16 EmptyString;
  entry "22008" "data out of range for datetime" 517 16 EmptyString;
  entry "40P01" "deadlock detected" 1205 13 EmptyString;
  entry "22012" "division by zero" 8134 16 EmptyString;
  entry "0A000" "Do not support BREAK outside of a WHILE loop, line %d" 135 15 EmptyString;
  entry "0A000" "Do not support CONTINUE outside of a WHILE loop, line %d" 136 15 EmptyString;
  entry "23505" ("duplicate key value violates unique constraint " ++ dq ++ "%s" ++ dq) 2627 14 EmptyString;
  entry "42703" "Explicit value must be specified for identity column in table '%s' when IDENTITY_INSERT is set to ON" 545 16 EmptyString;
  entry "42804" ("foreign key constraint " ++ dq ++ "%s" ++ dq ++ " cannot be implemented") 1778 16 EmptyString;
  entry "22013" "frame ending offset must not be negative" 102 15 EmptyString;
  entry "22013" "frame starting offset must not be negative" 102 15 EmptyString;
  entry "42723" ("function " ++ dq ++ "%s" ++ dq ++ " already exists with same argument types") 2714 16 EmptyString;
  entry "42723" "Function '%s' already exists with the same name" 2714 16 EmptyString;
  entry "54023" "functions cannot have more than %d argument" 180 15 EmptyString;
  entry "0A000" "GOTO target Label %s not defined" 133 15 EmptyString;
  entry "23001" "IDENTITY_INSERT is already ON for table '%s.%s.%s'" 8107 16 EmptyString;
  entry "22023" "INCREMENT must not be zero" 11700 16 EmptyString;
  entry "22003" "input is out of range" 3623 16 EmptyString;
  entry "54000" ("index row size %zu exceeds btree version %u maximum %zu for index " ++ dq ++ "%s" ++ dq) 1946 16 EmptyString;
  entry "23503" ("insert or update on table " ++ dq ++ "%s" ++ dq ++ " violates foreign key constraint " ++ dq ++ "%s" ++ dq) 547 16 EmptyString;
  entry "22003" "integer out of range" 8115 16 EmptyString;
  entry "42601" "invalid %s action for foreign key constraint containing generated column" 1715 16 "ON UPDATE";
  entry "42601" "invalid %s action for foreign key constraint containing generated column" 1765 16 "ON DELETE";
  entry "22003" ("invalid characters found: cannot cast value " ++ dq ++ "%s" ++ dq ++ " to money") 293 16 EmptyString;
  entry "22023" "invalid cursor fetch type %X" 155 15 EmptyString;
  entry "22023" "Invalid format specification: %s" 2787 16 EmptyString;
  entry "22023" "invalid nrow value 0 for cursor type %X" 16902 16 EmptyString;
  entry "08P01" ("Invalid parameter %d (" ++ dq ++ "%s" ++ dq ++ "): Data type 0x%02X is a deprecated large object, or LOB, but is marked as output parameter. Deprecated types are not supported as output parameters. Use current large object types instead.") 8018 16 EmptyString;
  entry "22025" "invalid escape string" 506 16 EmptyString;
  entry "0A000" "Label %s not unique wihtin one procedure in line %d, previous defined in line %d" 132 15 EmptyString;
  entry "08004" ("Login failed for user " ++ dq ++ "%s" ++ dq) 18456 14 EmptyString;
  entry "22023" "MAXVALUE (%lld) is out of range for sequence data type tinyint" 11708 16 EmptyString;
  entry "22023" "MAXVALUE (%ld) is out of range for sequence data type %s" 11708 16 EmptyString;
  entry "22023" "MINVALUE (%ld) must be less than MAXVALUE (%ld)" 11705 16 EmptyString;
  entry "21000" "more than one row returned by a subquery used as an expression" 512 16 EmptyString;
  entry "21000" "%s command cannot affect row a second time" 8672 16 "MERGE";
  entry "42601" "A MERGE statement must be terminated by a semi-colon (;)." 10713 15 EmptyString;
  entry "23514" ("new row for relation " ++ dq ++ "%s" ++ dq ++ " violates check constraint " ++ dq ++ "%s" ++ dq) 547 16 EmptyString;
  entry "XX000" "no owned sequence found" 550 16 EmptyString;
  entry "44000" ("new row violates check option for view " ++ dq ++ "%s" ++ dq) 550 16 EmptyString;
  entry "23502" ("null value in column " ++ dq ++ "%s" ++ dq ++ " of relation " ++ dq ++ "%s" ++ dq ++ " violates not-null constraint") 515 16 EmptyString;
  entry "22023" "msg_id argument of RAISERROR should be no less than 50000" 2732 16 EmptyString;
  entry "42704" "Prepared statement not found: %d" 8179 16 EmptyString;
  entry "22004" "Prepared statement not found: %d" 8179 16 EmptyString;
  entry "42809" ("referenced relation " ++ dq ++ "%s" ++ dq ++ " is not a table") 1768 16 EmptyString;
  entry "42P07" ("relation " ++ dq ++ "%s" ++ dq ++ " already exists") 2714 16 EmptyString;
  entry "3B001" ("savepoint " ++ dq ++ "%s" ++ dq ++ " does not exist") 6401 16 EmptyString;
  entry "22023" "sequence type must be smallint, integer, or bigint" 11702 16 EmptyString;
  entry "22003" "smallint out of range" 220 16 EmptyString;
  entry "54001" "stack depth limit exceeded" 217 16 EmptyString;
  entry "0A000" "SP_PREPEXECRPC not supported yet" 16901 16 EmptyString;
  entry "22023" "START value (%ld) cannot be greater than MAXVALUE (%ld)" 11703 16 EmptyString;
  entry "22023" "START value (%ld) cannot be less than MINVALUE (%ld)" 11703 16 EmptyString;
  entry "42703" "Table '%s.%s' does not have the identity property. Cannot perform SET operation." 8106 16 EmptyString;
  entry "08P01" ("Table-valued parameter %d (" ++ dq ++ "%s" ++ dq ++ "), row %d, column %d: Data type 0x%02X (user-defined table type). The specified column is computed or default and has ordering or uniqueness set. Ordering and uniqueness can only be set on columns that have client supplied data.") 8057 16 EmptyString;
  entry "2202H" "TABLESAMPLE parameter cannot be null" 477 15 EmptyString;
  entry "2202G" "TABLESAMPLE REPEATABLE parameter cannot be null" 477 15 EmptyString;
  entry "22023" "The absolute value of the increment must be less than or equal to the difference between the minimum and maximum value of the sequence object." 11701 16 EmptyString;
  entry "40000" "The current transaction cannot be committed and cannot support operations that write to the log file. Roll back the transaction." 3930 16 EmptyString;
  entry "XX000" ("The parameter " ++ dq ++ "%s" ++ dq ++ " can not be declared READONLY since it is not a table-valued parameter.") 346 15 EmptyString;
  entry "XX000" ("The table-valued parameter " ++ dq ++ "%s" ++ dq ++ " must be declared with the READONLY option.") 352 15 EmptyString;
  entry "08P01" ("The incoming tabular data stream (TDS) remote procedure call (RPC) protocol stream is incorrect. Parameter %d (" ++ dq ++ "%s" ++ dq ++ "): Data type 0x%02X has an invalid data length or metadata length.") 8016 16 EmptyString;
  entry "08P01" ("The incoming tabular data stream (TDS) remote procedure call (RPC) protocol stream is incorrect. Parameter %d (" ++ dq ++ "%s" ++ dq ++ "): Data type 0x%02X (sql_variant) has an invalid length for type-specific metadata.") 8011 16 EmptyString;
  entry "08P01" ("The incoming tabular data stream (TDS) remote procedure call (RPC) protocol stream is incorrect. Parameter %d (" ++ dq ++ "%s" ++ dq ++ "): Data type 0x%02X is unknown.") 8009 16 EmptyString;
  entry "08P01" ("The incoming tabular data stream (TDS) remote procedure call (RPC) protocol stream is incorrect. Parameter %d (" ++ dq ++ "%s" ++ dq ++ "): The chunking format is incorrect for a large object parameter of type 0x%02X.") 8007 16 EmptyString;
  entry "08P01" ("The incoming tabular data stream (TDS) remote procedure call (RPC) protocol stream is incorrect. Parameter %d (" ++ dq ++ "%s" ++ dq ++ "): The supplied length is not valid for data type CHAR/NCHAR/VARCHAR/NVARCHAR. Check the source data for invalid lengths. An example of an invalid length is data of nchar type with an odd length in bytes.") 8028 16 EmptyString;
  entry "08P01" ("The incoming tabular data stream (TDS) remote procedure call (RPC) protocol stream is incorrect. Parameter %d (" ++ dq ++ "%s" ++ dq ++ "): The supplied value is not a valid instance of data type Numeric/Decimal. Check the source data for invalid values. An example of an invalid value is data of numeric type with scale greater than precision") 8023 16 EmptyString;
  entry "08P01" "The incoming tabular data stream (TDS) remote procedure call (RPC) protocol stream is incorrect. The RPC name is invalid." 8004 16 EmptyString;
  entry "08P01" "The incoming tabular data stream (TDS) remote procedure call (RPC) protocol stream is incorrect. Too many parameters were provided in this RPC request. The maximum is %d" 8003 16 EmptyString;
  entry "08P01" ("The incoming tabular data stream (TDS) remote procedure call (RPC) protocol stream is incorrect. Table-valued parameter %d (" ++ dq ++ "%s" ++ dq ++ "), row %d, column %d: Data type 0x%02X (user-defined table type) has a non-zero length database name specified. Database name is not allowed with a table-valued parameter, only schema name and type name are valid.") 8047 16 EmptyString;
  entry "08P01" ("The incoming tabular data stream (TDS) remote procedure call (RPC) protocol stream is incorrect. Table-valued parameter %d (" ++ dq ++ "%s" ++ dq ++ "), row %d, column %d: Data type 0x%02X (user-defined table type) has an invalid column count specified.") 8050 16 EmptyString;
  entry "08P01" ("The incoming tabular data stream (TDS) remote procedure call (RPC) protocol stream is incorrect. Table-valued parameter %d (" ++ dq ++ "%s" ++ dq ++ "), row %d, column %d: Data type 0x%02X (user-defined table type) unexpected token encountered processing a table-valued parameter.") 8029 16 EmptyString;
  entry "08P01" ("The incoming tabular data stream (TDS) remote procedure call (RPC) protocol stream is incorrect. Table-valued parameter %d (" ++ dq ++ "%s" ++ dq ++ "), row %d, column %d: Data type 0x%02X has an invalid data length or metadata length.") 8037 16 EmptyString;
  entry "08P01" ("The incoming tabular data stream (TDS) remote procedure call (RPC) protocol stream is incorrect. Table-valued parameter %d (" ++ dq ++ "%s" ++ dq ++ "), row %d, column %d: Data type 0x%02X is unknown.") 8032 16 EmptyString;
  entry "08P01" ("The incoming tabular data stream (TDS) remote procedure call (RPC) protocol stream is incorrect. Table-valued parameter %d (" ++ dq ++ "%s" ++ dq ++ "), row %d, column %d: The chunking format is incorrect for a large object parameter of data type 0x%02X.") 8031 16 EmptyString;
  entry "08P01" ("The incoming tabular data stream (TDS) remote procedure call (RPC) protocol stream is incorrect. Table-valued parameter %d (" ++ dq ++ "%s" ++ dq ++ "), row %d, column %d: The supplied value is not a valid instance of data type Numeric/Decimal. Check the source data for invalid values. An example of an invalid value is data of numeric type with scale greater than precision.") 8043 16 EmptyString;
  entry "08P01" "The incoming tabular data stream (TDS) remote procedure call (RPC) protocol stream is incorrect. Table-valued parameter %d, to a parameterized string has no table type defined." 8058 16 EmptyString;
  entry "08P01" "The minimum number of parameters should be %d" 16903 16 EmptyString;
  entry "42830" ("there is no unique constraint matching given keys for referenced table " ++ dq ++ "%s" ++ dq) 1776 16 EmptyString;
  entry "40002" "Transaction count after execution indicates a mismatch number of BEGIN and COMMIT statements. Previous count %u current count %u" 266 16 EmptyString;
  entry "42704" ("trigger " ++ dq ++ "%s" ++ dq ++ " does not exist") 3701 11 EmptyString;
  entry "42704" ("trigger " ++ dq ++ "%s" ++ dq ++ " for table " ++ dq ++ "%s" ++ dq ++ " does not exist") 4920 16 EmptyString;
  entry "42710" ("type " ++ dq ++ "%s" ++ dq ++ " already exists") 219 16 EmptyString;
  entry "23503" ("update or delete on table " ++ dq ++ "%s" ++ dq ++ " violates foreign key constraint " ++ dq ++ "%s" ++ dq ++ " on table " ++ dq ++ "%s" ++ dq) 547 16 EmptyString;
  entry "22001" "value too long for type character(%d)" 8152 16 EmptyString;
  entry "22001" "value too long for type character varying(%d)" 8152 16 EmptyString;
  entry "23514" ("value for domain %s violates check constraint " ++ dq ++ "%s" ++ dq) 220 16 EmptyString;
  entry "42P01" ("view " ++ dq ++ "%s" ++ dq ++ " does not exist") 3701 16 EmptyString;
  entry "42P01" ("table " ++ dq ++ "%s" ++ dq ++ " does not exist") 3701 16 EmptyString;
  entry "42P13" "PL/tsql functions cannot return type %s" 2733 16 EmptyString;
  entry "0A000" "Column name or number of supplied values does not match table definition." 213 16 EmptyString;
  entry "42501" "Only members of the sysadmin role can execute this stored procedure." 15003 16 EmptyString;
  entry "42809" ("The target " ++ dq ++ "%s" ++ dq ++ " of the OUTPUT INTO clause cannot be a view or common table expression.") 330 16 EmptyString;
  entry "22008" "The %s function resulted in an overflow. The number of dateparts separating two date/time instances is too large. Try to use %s with a less precise datepart." 535 16 EmptyString;
  entry "22023" "'%s' is not a recognized %s option" 155 15 EmptyString;
  entry "22023" "The datepart %s is not supported by date function %s for data type %s." 9810 16 EmptyString;
  entry "22008" "Adding a value to a '%s' column caused an overflow." 517 16 EmptyString;
  entry "42P01" "FOR JSON AUTO requires at least one table for generating JSON objects. Use FOR JSON PATH or add a FROM clause with a table name." 13600 16 EmptyString;
  entry "42P01" "sub-select and values for json auto are not currently supported." 13600 16 EmptyString
].
