(* ===== verification/ErrorMapping.v ===== *)
(** * ErrorMapping: from server errors to T-SQL errors
    ([babelfishpg_tds/src/backend/tds/err_handler.c])

    The hash table of error details, the search in it, and the numbers of
    user-defined errors ([tdsresponse.c], [pltsql_utils.c]).  The hash function,
    the encoding of SQLSTATEs and the server's error codes are parameters. *)
From Stdlib Require Import String Ascii.
From stdpp Require Import base numbers strings list gmap.
From S2P Require Import Prelude Dispatch ErrorTable.
#[local] Open Scope Z_scope.

(** ** C strings *)

Fixpoint prefix_nocase (p s : string) : bool :=
  match p, s with
  | EmptyString, _ => true
  | String a p, String b s => bool_decide (tolower a = tolower b) && prefix_nocase p s
  | _, EmptyString => false
  end.

(** Does [needle] occur in the haystack, ignoring case? *)
Fixpoint strcasestr (haystack needle : string) : bool :=
  prefix_nocase needle haystack ||
  match haystack with EmptyString => false | String _ s => strcasestr s needle end.

(** The tokens [strtok] returns one after the other: maximal runs without the
    delimiter. [cur] is the token being read, reversed. *)
Fixpoint strtok_aux (delim : ascii) (s : string) (cur : list ascii) : list string :=
  let flush := match cur with [] => [] | _ => [string_of_list_ascii (reverse cur)] end in
  match s with
  | EmptyString => flush
  | String c s =>
      if decide (c = delim) then flush ++ strtok_aux delim s [] else strtok_aux delim s (c :: cur)
  end.

Definition strtok (delim : ascii) (s : string) : list string := strtok_aux delim s [].

(** ** Data *)

(** What the mapping reads of the server's [ErrorData]. *)
Record ErrorData := mk_ErrorData { sqlerrcode : Z; message_id : option string; message : string }.

Record error_map_node := mk_node {
  node_keywords : option string;
  node_code : Z;
  node_severity : Z
}.

(** [elog(FATAL)] ends the session. *)
Inductive fatal := NULL_keyword.

(** Returned flag, error code, severity, state. *)
Definition details : Type := bool * Z * Z * Z.

Section mapping.
Variable hash_any : string -> Z.
Variable MAKE_SQLSTATE : string -> Z.
Variables ERRCODE_PLTSQL_RAISERROR ERRCODE_PLTSQL_THROW ERRCODE_PLTSQL_ERROR_NOT_MAPPED : Z.
(** The lines of the generated header. *)
Variable included : list error_map_details.

Definition error_list : list error_map_details :=
  included ++ [mk_error_map_details "00000" None 0 0 None].

Abbreviation error_map_hash := (gmap (Z * Z) (list error_map_node)).

Definition error_map_key (sqlerrcode : Z) (message : option string) : Z * Z :=
  (u32 (hash_any (default EmptyString message)), sqlerrcode).

Definition entry_key (e : error_map_details) : Z * Z :=
  error_map_key (MAKE_SQLSTATE (sql_state e)) (error_message e).

Definition entry_node (e : error_map_details) : error_map_node :=
  mk_node (error_msg_keywords e) (tsql_error_code e) (tsql_error_severity e).

(** One round of the loading loop: a new node at the head of the key's list. *)
Definition load_entry (h : error_map_hash) (e : error_map_details) : error_map_hash :=
  match h !! entry_key e with
  | Some head => <[entry_key e := entry_node e :: head]> h
  | None => <[entry_key e := [entry_node e]]> h
  end.

Definition load_error_mapping (h : option error_map_hash) : error_map_hash :=
  match h with
  | Some h => h
  | None => foldl load_entry ∅ (take (length error_list - 1) error_list)
  end.

Definition is_user_defined_error (pg_error_code : Z) : bool :=
  (pg_error_code =? ERRCODE_PLTSQL_RAISERROR) || (pg_error_code =? ERRCODE_PLTSQL_THROW).

(** The loop over the nodes of a key. *)
Fixpoint search_nodes (msg : string) (nodes : list error_map_node) (flag : bool) (code severity : Z)
    : result fatal (bool * Z * Z) :=
  match nodes with
  | [] => Ok (flag, code, severity)
  | tmp :: next =>
      match node_keywords tmp with
      | None => Err NULL_keyword
      | Some keywords =>
          if (String.length keywords =? 0)%nat
          then search_nodes msg next true (node_code tmp) (node_severity tmp)
          else if forallb (strcasestr msg) (strtok "#"%char keywords)
          then Ok (true, node_code tmp, node_severity tmp)
          else search_nodes msg next false code severity
      end
  end.

(** ** Numbers of user-defined errors *)

(** Number, severity and state kept by the protocol layer; -1 is "none". *)
Record tds_error := mk_tds_error {
  cur_error_number : Z;
  cur_error_severity : Z;
  cur_error_state : Z
}.

(** [es] is the error data of the top of the call stack. *)
Definition pltsql_get_errdata (es : option PLtsqlErrorData) : option (Z * Z * Z) :=
  match es with
  | None => None
  | Some ed =>
      if error_number ed <? 50000 then None
      else Some (error_number ed, error_severity ed, error_state ed)
  end.

Definition GetTdsEstateErrorData (tds_estate : option tds_error) (es : option PLtsqlErrorData)
    : option (Z * Z * Z) :=
  match tds_estate with
  | Some t =>
      if negb (cur_error_number t =? -1) && negb (cur_error_severity t =? -1) &&
         negb (cur_error_state t =? -1)
      then Some (cur_error_number t, cur_error_severity t, cur_error_state t)
      else pltsql_get_errdata es
  | None => pltsql_get_errdata es
  end.

Definition SetTdsEstateErrorData (tds_estate : tds_error) (es : option PLtsqlErrorData) : tds_error :=
  match GetTdsEstateErrorData (Some tds_estate) es with
  | Some (number, severity, state) => mk_tds_error number severity state
  | None => tds_estate
  end.

Definition ResetTdsEstateErrorData : tds_error := mk_tds_error (-1) (-1) (-1).

(** ** The mapping *)

Definition get_tsql_error_details (hash : option error_map_hash) (tds_estate : option tds_error)
    (es : option PLtsqlErrorData) (edata : ErrorData)
    : result fatal (option error_map_hash * details) :=
  if is_user_defined_error (sqlerrcode edata) then
    match GetTdsEstateErrorData tds_estate es with
    | Some (number, severity, state) => Ok (hash, (true, number, severity, state))
    | None => Ok (hash, (true, 50000, 16, 1))
    end
  else
    let h := load_error_mapping hash in
    match h !! error_map_key (sqlerrcode edata) (message_id edata) with
    | None => Ok (Some h, (false, ERRCODE_PLTSQL_ERROR_NOT_MAPPED, 16, 1))
    | Some head =>
        let! (flag, code, severity) := search_nodes (message edata) head false 0 0 in
        if (flag : bool) then Ok (Some h, (true, code, severity, 1))
        else Ok (Some h, (false, ERRCODE_PLTSQL_ERROR_NOT_MAPPED, 16, 1))
    end.
End mapping.

(** ** Reference *)

Section reference.
Variable hash_any : string -> Z.
Variable MAKE_SQLSTATE : string -> Z.

Abbreviation key := (entry_key hash_any MAKE_SQLSTATE).

(** An entry applies to an error: same key, and all its keywords in the message. *)
Definition applies (edata : ErrorData) (e : error_map_details) : bool :=
  bool_decide (key e = error_map_key hash_any (sqlerrcode edata) (message_id edata)) &&
  forallb (strcasestr (message edata)) (strtok "#"%char (default EmptyString (error_msg_keywords e))).

(** The last line of the table that applies. *)
Definition last_match (table : list error_map_details) (edata : ErrorData)
    : option error_map_details :=
  last (List.filter (applies edata) table).

(** Keywords are present, and a line without keywords is the first of its key. *)
Fixpoint well_formed (seen : list (Z * Z)) (table : list error_map_details) : bool :=
  match table with
  | [] => true
  | e :: table =>
      match error_msg_keywords e with
      | None => false
      | Some k => negb (String.length k =? 0)%nat || bool_decide (key e ∉ seen)
      end && well_formed (key e :: seen) table
  end.

(** *** The hash table holds, per key, the lines in reverse order *)

Definition lines_of (k : Z * Z) (table : list error_map_details) : list error_map_details :=
  List.filter (fun e => bool_decide (key e = k)) table.

Lemma lines_of_snoc k table e :
  lines_of k (table ++ [e]) = lines_of k table ++ (if bool_decide (key e = k) then [e] else []).
Proof. unfold lines_of. rewrite List.filter_app. cbn. by destruct (bool_decide _). Qed.

Lemma load_lookup table k :
  foldl (load_entry hash_any MAKE_SQLSTATE) ∅ table !! k =
  match lines_of k table with [] => None | l => Some (entry_node <$> reverse l) end.
Proof.
  induction table as [|e table IH] using rev_ind; [done|].
  rewrite foldl_snoc, lines_of_snoc. unfold load_entry at 1.
  destruct (decide (key e = k)) as [<-|Hne].
  - rewrite bool_decide_true by done. rewrite IH.
    destruct (lines_of (key e) table) as [|a l]; rewrite lookup_insert_eq; [done|].
    cbn [app]. by rewrite app_comm_cons, reverse_app.
  - rewrite bool_decide_false, app_nil_r by done. rewrite <- IH.
    by destruct (_ !! key e); rewrite lookup_insert_ne.
Qed.

(** *** The search *)

(** Only the last node may be without keywords. *)
Fixpoint good_nodes (nodes : list error_map_node) : Prop :=
  match nodes with
  | [] => True
  | n :: next =>
      (exists k, node_keywords n = Some k /\ (String.length k <> 0%nat \/ next = [])) /\
      good_nodes next
  end.

Definition node_applies (msg : string) (n : error_map_node) : bool :=
  forallb (strcasestr msg) (strtok "#"%char (default EmptyString (node_keywords n))).

Lemma search_good msg nodes c s :
  good_nodes nodes ->
  search_nodes msg nodes false c s =
  Ok (match List.find (node_applies msg) nodes with
      | Some n => (true, node_code n, node_severity n)
      | None => (false, c, s)
      end).
Proof.
  induction nodes as [|n nodes IH]; [done|]. intros [(k & Hk & Hgen) Hgood].
  cbn [search_nodes List.find]. rewrite Hk. unfold node_applies at 1. rewrite Hk. cbn [default].
  destruct (Nat.eqb_spec (String.length k) 0) as [Hz|Hz].
  - destruct Hgen as [| ->]; [done|]. by destruct k.
  - destruct (forallb _ _); [done|]. by apply IH.
Qed.

(** Lines outside [seen] keep the promise of [well_formed]. *)
Lemma well_formed_good seen table k :
  well_formed seen table = true ->
  forall nodes, good_nodes nodes -> (nodes <> [] -> k ∈ seen) ->
  good_nodes ((entry_node <$> reverse (lines_of k table)) ++ nodes).
Proof.
  revert seen. induction table as [|e table IH]; intros seen; [done|].
  cbn [well_formed]. intros [He Ht]%andb_true_iff nodes Hn Hseen.
  destruct (error_msg_keywords e) as [kw|] eqn:Hkw; [|done].
  unfold lines_of. cbn [List.filter]. fold (lines_of k table).
  destruct (decide (key e = k)) as [<-|Hne].
  - rewrite bool_decide_true, reverse_cons, fmap_app, <- app_assoc by done. cbn.
    apply (IH _ Ht); [|set_solver]. split; [|done]. exists kw. split; [done|].
    apply orb_true_iff in He as [He|He].
    + left. by apply negb_true_iff, Nat.eqb_neq in He.
    + right. apply bool_decide_eq_true in He. destruct nodes; [done|]. destruct He. by apply Hseen.
  - rewrite bool_decide_false by done. apply (IH _ Ht); [done|set_solver].
Qed.

Lemma find_reverse {A} (f : A -> bool) l : List.find f (reverse l) = last (List.filter f l).
Proof.
  induction l as [|a l IH] using rev_ind; [done|].
  rewrite reverse_app, List.filter_app. cbn.
  destruct (f a); [by rewrite last_snoc|]. by rewrite app_nil_r.
Qed.

Lemma filter_filter_and {A} (f g : A -> bool) l :
  List.filter g (List.filter f l) = List.filter (fun x => f x && g x) l.
Proof. induction l as [|a l IH]; cbn; [done|]. destruct (f a); cbn; by rewrite IH. Qed.

Lemma find_fmap {A B} (f : A -> B) (p : B -> bool) l :
  List.find p (f <$> l) = f <$> List.find (fun x => p (f x)) l.
Proof. induction l as [|a l IH]; cbn; [done|]. by destruct (p (f a)). Qed.

Lemma last_match_find table edata :
  last_match table edata =
  List.find (fun e => node_applies (message edata) (entry_node e))
    (reverse (lines_of (error_map_key hash_any (sqlerrcode edata) (message_id edata)) table)).
Proof. rewrite find_reverse. unfold lines_of. by rewrite filter_filter_and. Qed.
End reference.

(** *** User-defined errors *)

(** The protocol layer has no number, or that of a user-defined error. *)
Definition tds_error_ok (t : tds_error) : Prop :=
  cur_error_number t = -1 \/ 50000 <= cur_error_number t.

Lemma pltsql_get_errdata_number es n sev st :
  pltsql_get_errdata es = Some (n, sev, st) -> 50000 <= n.
Proof. destruct es; cbn; [|done]. destruct (Z.ltb_spec (error_number p) 50000); naive_solver. Qed.

Lemma GetTdsEstateErrorData_number t es n sev st :
  (forall t', t = Some t' -> tds_error_ok t') ->
  GetTdsEstateErrorData t es = Some (n, sev, st) -> 50000 <= n.
Proof.
  intros Ht. unfold GetTdsEstateErrorData. destruct t as [t|]; [|apply pltsql_get_errdata_number].
  destruct (_ && _) eqn:Hb; [|apply pltsql_get_errdata_number]. intros [= <- _ _].
  apply andb_true_iff in Hb as [[Hb _]%andb_true_iff _].
  apply negb_true_iff, Z.eqb_neq in Hb. by destruct (Ht t eq_refl).
Qed.

(** ** Properties *)

(** C37: The mapping of server errors other than those of RAISERROR and THROW: for every table in which a line without keywords
    is the first of its key, [get_tsql_error_details] yields code and severity of the
    last line whose SQLSTATE and message hash are those of the error and whose keywords
    all occur in its message, and reports the error as unmapped when there is none;
    loading the table beforehand or on demand makes no difference. *)
Theorem error_mapping_last_match hash_any MAKE_SQLSTATE RAISERROR THROW NOT_MAPPED table tds es edata h :
  well_formed hash_any MAKE_SQLSTATE [] table = true ->
  is_user_defined_error RAISERROR THROW (sqlerrcode edata) = false ->
  h = None \/ h = Some (load_error_mapping hash_any MAKE_SQLSTATE table None) ->
  get_tsql_error_details hash_any MAKE_SQLSTATE RAISERROR THROW NOT_MAPPED table h tds es edata =
  Ok (Some (load_error_mapping hash_any MAKE_SQLSTATE table None),
      match last_match hash_any MAKE_SQLSTATE table edata with
      | Some e => (true, tsql_error_code e, tsql_error_severity e, 1)
      | None => (false, NOT_MAPPED, 16, 1)
      end).
Proof.
  intros Hwf Hu Hh. unfold get_tsql_error_details. rewrite Hu.
  assert (load_error_mapping hash_any MAKE_SQLSTATE table h =
          load_error_mapping hash_any MAKE_SQLSTATE table None) as -> by (by destruct Hh as [-> | ->]).
  cbv zeta. set (k := error_map_key _ _ _).
  assert (load_error_mapping hash_any MAKE_SQLSTATE table None !! k =
          match lines_of hash_any MAKE_SQLSTATE k table with
          | [] => None | l => Some (entry_node <$> reverse l) end) as ->.
  { cbn. unfold error_list. rewrite length_app, Nat.add_sub, take_app_length. apply load_lookup. }
  rewrite last_match_find. fold k.
  pose proof (well_formed_good hash_any MAKE_SQLSTATE [] table k Hwf [] I) as Hg.
  rewrite app_nil_r in Hg. specialize (Hg ltac:(done)).
  destruct (lines_of hash_any MAKE_SQLSTATE k table) as [|a l]; [done|].
  rewrite (search_good _ _ 0 0 Hg), find_fmap. cbn [rbind].
  by destruct (List.find _ _).
Qed.

(** RAISERROR and THROW always get a number of at least 50000, whatever the
    protocol layer recorded before: it keeps no other numbers across recording and
    resetting. *)
Theorem user_defined_error_number hash_any MAKE_SQLSTATE RAISERROR THROW NOT_MAPPED table h t es edata :
  tds_error_ok t -> is_user_defined_error RAISERROR THROW (sqlerrcode edata) = true ->
  tds_error_ok (SetTdsEstateErrorData t es) /\ tds_error_ok ResetTdsEstateErrorData /\
  exists number severity state,
    get_tsql_error_details hash_any MAKE_SQLSTATE RAISERROR THROW NOT_MAPPED table h (Some t) es edata =
      Ok (h, (true, number, severity, state)) /\ 50000 <= number.
Proof.
  intros Ht Hu. split_and!; [| by left |].
  - unfold SetTdsEstateErrorData. destruct (GetTdsEstateErrorData _ _) as [[[n sev] st]|] eqn:Hg; [|done].
    right. eapply GetTdsEstateErrorData_number; [|exact Hg]. naive_solver.
  - unfold get_tsql_error_details. rewrite Hu.
    destruct (GetTdsEstateErrorData _ _) as [[[n sev] st]|] eqn:Hg.
    + exists n, sev, st. split; [done|]. eapply GetTdsEstateErrorData_number; [|exact Hg]. naive_solver.
    + by exists 50000, 16, 1.
Qed.

(** ** The shipped table *)

(** Concrete parameters: a polynomial hash, the server's six bits per character. *)
Definition poly_hash (s : string) : Z :=
  foldl (fun h c => u32 (h * 131 + Z.of_nat (nat_of_ascii c))) 7 (list_ascii_of_string s).

Definition six_bits (s : string) : Z :=
  foldr (fun c n => n * 64 + Z.land (Z.of_nat (nat_of_ascii c) - 48) 63) 0 (list_ascii_of_string s).

(** Rolling back to a savepoint outside a transaction: three lines apply, the last
    decides. *)
Definition rollback_outside : ErrorData :=
  mk_ErrorData (six_bits "25P01") (Some "%s can only be used in transaction blocks"%string)
    "ROLLBACK TO SAVEPOINT can only be used in transaction blocks"%string.

Lemma shipped_well_formed : well_formed poly_hash six_bits [] error_mapping = true.
Proof. vm_compute. reflexivity. Qed.

Lemma rollback_outside_match :
  option_map (fun e => (tsql_error_code e, tsql_error_severity e))
    (last_match poly_hash six_bits error_mapping rollback_outside) = Some (3903, 16).
Proof. vm_compute. reflexivity. Qed.

Lemma error_mapping_last_match_witness :
  exists h, get_tsql_error_details poly_hash six_bits (-10) (-11) 33557097 error_mapping None None None
    rollback_outside = Ok (Some h, (true, 3903, 16, 1)).
Proof.
  pose proof (error_mapping_last_match poly_hash six_bits (-10) (-11) 33557097 error_mapping None None
    rollback_outside None shipped_well_formed eq_refl (or_introl eq_refl)) as H.
  pose proof rollback_outside_match as Hm.
  destruct (last_match poly_hash six_bits error_mapping rollback_outside) as [e|]; [|discriminate Hm].
  injection Hm as Hc Hs. rewrite Hc, Hs in H. exact (ex_intro _ _ H).
Defined.

Lemma user_defined_error_number_witness :
  exists number severity state,
    get_tsql_error_details poly_hash six_bits 5 6 33557097 error_mapping None
      (Some ResetTdsEstateErrorData) None (mk_ErrorData 5 None EmptyString) =
      Ok (None, (true, number, severity, state)) /\ 50000 <= number.
Proof.
  apply (user_defined_error_number poly_hash six_bits 5 6 33557097 error_mapping None
    ResetTdsEstateErrorData None (mk_ErrorData 5 None EmptyString)); [by left | reflexivity].
Defined.
