(* ===== verification/IterExec.v ===== *)
(** * IterExec: the executor loop and its error contexts ([iterative_exec.c])

    The loop of [exec_stmt_iterative] over the execution codes: program counter,
    jumps, the stack of error contexts that implements TRY/CATCH with
    [sigsetjmp]/[siglongjmp], and the decision which errors are thrown and which
    only terminate their statement. *)
From stdpp Require Import base list numbers strings gmap.
From S2P Require Import Prelude PltsqlAst Analyzer Codegen Dispatch.

(** The loop ends, or an error with its error data leaves it. *)
Inductive outcome (V E : Type) :=
| Returned (return_called : bool) (w : session V)
| Failed (e : E) (ed : PLtsqlErrorData) (w : session V).
Arguments Returned {V E} _ _.
Arguments Failed {V E} _ _ _.

(** Does a run go on, end, or perform an operation C leaves undefined (a read
    outside a vector, a null dereference, a jump to a released buffer)? *)
Inductive progress (S O : Type) :=
| Step (s : S)
| Halt (o : O)
| Undefined.
Arguments Step {S O} _.
Arguments Halt {S O} _.
Arguments Undefined {S O}.

(** [run f n s]: at most [n] steps. *)
Fixpoint run {S O} (f : S -> progress S O) (n : nat) (s : S) : progress S O :=
  match n with
  | 0 => Step s
  | Datatypes.S n' => match f s with Step s' => run f n' s' | r => r end
  end.

Section exec.
Context {V E : Type} (rt : runtime V E).

Abbreviation W := (session V).
Abbreviation estate_err := (PLtsql_estate_err E).

(** [PLtsql_errctx]; [local_sigjmp_buf] is the identity of its jump buffer. *)
Record errctx := mk_errctx {
  local_sigjmp_buf : nat;
  save_exception_stack : option nat;
  target_pc : Z;
  save_cur_error : estate_err;
  partial_restored : bool
}.

(** The executor's state.  [exception_stack] is [PG_exception_stack]: [None] is
    the handler of [exec_stmt_iterative] itself.  [throwing] holds between a
    [siglongjmp] and its arrival.  [pfreed] logs the procedure names released
    by [restore_ctx_partial2]. *)
Record exec_state := mk_exec {
  pc : Z;
  rc_return : bool;
  world : W;
  cur_error : estate_err;
  err_ctx_stack : list errctx;
  cur_err_ctx_idx : nat;
  exception_stack : option nat;
  terminate_batch : bool;
  throwing : option (E * PLtsqlErrorData);
  next_buf : nat;
  pfreed : list ptr
}.

Definition is_part_of_pltsql_trycatch_block (stack : list errctx) : bool :=
  match stack with
  | [] => callers_in_trycatch _ _ rt
  | [err_ctx] => negb (partial_restored err_ctx) || callers_in_trycatch _ _ rt
  | _ => true
  end.

(** ** Error contexts *)

(** Search from index [i - 1] down for a context that has not caught an error;
    [None] is a read outside the vector. *)
Fixpoint find_active (stack : list errctx) (i cur : nat) : option nat :=
  match i with
  | 0 => Some cur
  | S j =>
      match stack !! j with
      | None => None
      | Some err_ctx => if partial_restored err_ctx then find_active stack j cur else Some j
      end
  end.

Definition set_ctxs (v : exec_state) (stack : list errctx) (idx : nat) (exc : option nat)
    (ce : estate_err) : exec_state :=
  mk_exec (pc v) (rc_return v) (world v) ce stack idx exc (terminate_batch v) (throwing v)
    (next_buf v) (pfreed v).

Definition restore_ctx_full (v : exec_state) : option exec_state :=
  match err_ctx_stack v !! cur_err_ctx_idx v with
  | None => None
  | Some cur_err_ctx =>
      let stack := pop_back (err_ctx_stack v) in
      match find_active stack (cur_err_ctx_idx v) (cur_err_ctx_idx v) with
      | None => None
      | Some idx => Some (set_ctxs v stack idx (save_exception_stack cur_err_ctx) (cur_error v))
      end
  end.

(** Marks the active context and takes its exception handler off. *)
Definition restore_ctx_partial1 (v : exec_state) : option exec_state :=
  match err_ctx_stack v !! cur_err_ctx_idx v with
  | None => None
  | Some c =>
      let c' := mk_errctx (local_sigjmp_buf c) (save_exception_stack c) (target_pc c)
                  (save_cur_error c) true in
      Some (set_ctxs v (<[cur_err_ctx_idx v := c']> (err_ctx_stack v)) (cur_err_ctx_idx v)
              (save_exception_stack c) (cur_error v))
  end.

Definition restore_ctx_partial2 (v : exec_state) : option exec_state :=
  match last (err_ctx_stack v) with
  | None => None
  | Some cur_err_ctx =>
      let saved := save_cur_error cur_err_ctx in
      Some (mk_exec (pc v) (rc_return v) (world v) saved (pop_back (err_ctx_stack v))
              (cur_err_ctx_idx v) (exception_stack v) (terminate_batch v) (throwing v)
              (next_buf v) (pfreed v ++ option_list (procedure saved)))
  end.

(** [create_error_ctx] and the first return of [sigsetjmp]. *)
Definition save_ctx (v : exec_state) (target : Z) : exec_state :=
  let ctx := mk_errctx (next_buf v) (exception_stack v) target (cur_error v) false in
  mk_exec (pc v) (rc_return v) (world v) (cur_error v) (err_ctx_stack v ++ [ctx])
    (length (err_ctx_stack v)) (Some (next_buf v)) (terminate_batch v) (throwing v)
    (S (next_buf v)) (pfreed v).

Fixpoint cleanup_dangling (n : nat) (v : exec_state) : option exec_state :=
  match n with
  | 0 => Some v
  | S n' => match restore_ctx_partial2 v with None => None | Some v => cleanup_dangling n' v end
  end.

Definition advance (v : exec_state) : exec_state :=
  mk_exec (u64 (pc v + 1)) (rc_return v) (world v) (cur_error v) (err_ctx_stack v)
    (cur_err_ctx_idx v) (exception_stack v) (terminate_batch v) (throwing v) (next_buf v)
    (pfreed v).

Definition jump (v : exec_state) (target : Z) : exec_state :=
  mk_exec (u64 (target - 1)) (rc_return v) (world v) (cur_error v) (err_ctx_stack v)
    (cur_err_ctx_idx v) (exception_stack v) (terminate_batch v) (throwing v) (next_buf v)
    (pfreed v).

(** Session state, current error, [terminate_batch], thrown error and return
    code after a dispatched statement. *)
Definition set_result (v : exec_state) (w : W) (ce : estate_err) (tb : bool)
    (thrown : option (E * PLtsqlErrorData)) (returned : bool) : exec_state :=
  mk_exec (pc v) (rc_return v || returned) w ce (err_ctx_stack v) (cur_err_ctx_idx v)
    (exception_stack v) tb thrown (next_buf v) (pfreed v).

(** The second return of [sigsetjmp]: clean up inner contexts, make the error
    current, go to the CATCH block or throw again. *)
Definition catch_error (v : exec_state) (e : E) (ed : PLtsqlErrorData) : option exec_state :=
  match err_ctx_stack v !! cur_err_ctx_idx v with
  | None => None
  | Some cur_err_ctx1 =>
      match cleanup_dangling (length (err_ctx_stack v) - 1 - cur_err_ctx_idx v) v with
      | None => None
      | Some v =>
      match restore_ctx_partial1 v with
      | None => None
      | Some v =>
      match find_active (err_ctx_stack v) (cur_err_ctx_idx v) (cur_err_ctx_idx v) with
      | None => None
      | Some idx =>
          let v := set_ctxs v (err_ctx_stack v) idx (exception_stack v) (caught ed e) in
          let v := jump v (target_pc cur_err_ctx1) in
          if ignore_catch rt (world v) ed e (terminate_batch v) then Some v
          else Some (advance (set_result v (catch_tail rt ed (world v)) (cur_error v)
                                (terminate_batch v) None false))
      end end end
  end.

(** A statement in [dispatch_stmt_handle_error].  A thrown error leaves the loop body
    by [siglongjmp]; otherwise [ok] is the effect of the value on the loop's own
    state. *)
Definition exec_dispatch {A} (v : exec_state) (d : dispatched_stmt)
    (dispatch : W -> estate_err -> PLtsqlErrorData -> bool -> attempt V E A)
    (ok : A -> exec_state -> exec_state) : exec_state :=
  let '(w, ce, ed, tb, r) :=
    dispatch_stmt_handle_error rt (is_part_of_pltsql_trycatch_block (err_ctx_stack v)) d dispatch
      (world v) (cur_error v) (terminate_batch v) in
  match r with
  | Thrown e => set_result v w ce tb (Some (e, ed)) false
  | Reported => advance (set_result v (after_stmt rt d ed w) ce tb None false)
  | Completed a => advance (ok a (set_result v (after_stmt rt d ed w) ce tb None false))
  end.

(** [exec_stmt_goto]: jump unless the condition is true. *)
Definition exec_stmt_goto (target : Z) (value : option bool) (v : exec_state) : exec_state :=
  match value with Some true => v | _ => jump v target end.

(** An unconditional jump evaluates nothing. *)
Definition no_condition (w : W) (ce : estate_err) (ed : PLtsqlErrorData) (impl : bool)
    : attempt V E (option bool) :=
  (w, ce, ed, {| TSQL_TRIGGER_STARTED := false; TSQL_TRAN_STARTED := false; IMPL_TRAN_START := impl |},
   inr None).

Definition mark_return (v : exec_state) : exec_state :=
  set_result v (world v) (cur_error v) (terminate_batch v) None true.

Definition exec_code (v : exec_state) (c : code) : option exec_state :=
  match c with
  | Csave_ctx _ _ target =>
      let v := save_ctx v target in
      Some (advance (set_result v (exec_set_error 0 0 false (world v)) (cur_error v)
                       (terminate_batch v) None false))
  | Crestore_ctx_full _ => advance <$> restore_ctx_full v
  | Crestore_ctx_partial _ => advance <$> restore_ctx_partial2 v
  | Cgoto _ None _ target => Some (exec_dispatch v D_goto no_condition (exec_stmt_goto target))
  | Cgoto _ (Some cond) _ target =>
      Some (exec_dispatch v D_goto (rt_eval_boolean _ _ rt cond) (exec_stmt_goto target))
  | Csimple h ty => Some (exec_dispatch v (D_simple h ty) (rt_simple _ _ rt h ty) (fun _ v => v))
  | Creturn h => Some (exec_dispatch v (D_return h) (rt_return _ _ rt h) (fun _ v => mark_return v))
  end.

(** One round: arrive at the exception handler, or execute the code at [pc]. *)
Definition exec_step (cs : list code) (v : exec_state) : progress exec_state (outcome V E) :=
  match throwing v with
  | Some (e, ed) =>
      match exception_stack v with
      | None => Halt (Failed e ed (world v))
      | Some buf =>
          if decide (buf ∈ map local_sigjmp_buf (err_ctx_stack v)) then
            match catch_error v e ed with Some v => Step v | None => Undefined end
          else Undefined
      end
  | None =>
      if (pc v <? Z.of_nat (length cs))%Z then
        match cs !! Z.to_nat (pc v) with
        | None => Undefined
        | Some c => match exec_code v c with Some v => Step v | None => Undefined end
        end
      else Halt (Returned (rc_return v) (world v))
  end.

Definition exec_init (w : W) (ce : estate_err) : exec_state :=
  mk_exec 0 false w ce [] 0 None false None 0 [].

(** [exec_stmt_iterative], for at most [fuel] rounds. *)
Definition exec_stmt_iterative (cs : list code) (fuel : nat) (w : W) (ce : estate_err)
    : progress exec_state (outcome V E) :=
  run (exec_step cs) fuel (exec_init w ce).
End exec.
