(* ===== verification/TsqlSemantics.v ===== *)
(** * TsqlSemantics: structured meaning of PL/tsql statement trees

    The abstract specification of statement execution: a statement is run under
    a continuation that says what follows it, what the enclosing loop is and
    which TRY/CATCH blocks enclose it.  There are no jumps, positions, exception
    buffers or index variables here; the executor on generated code is proved to
    implement this machine. *)
From stdpp Require Import base list numbers strings gmap.
From S2P Require Import Prelude PltsqlAst Analyzer Codegen Dispatch IterExec.

(** What remains to be done after the current statement. *)
Inductive kont :=
| Kstop
| Kseq (ss : list stmt) (k : kont)
| Kloop (h : hdr) (cond : PLtsql_expr) (body : list stmt) (k : kont)
| Ktry (h : hdr) (handler : stmt) (k : kont)
| Kcatch (h : hdr) (k : kont).

(** The TRY/CATCH halves a continuation is inside of, innermost first. *)
Fixpoint scopes (k : kont) : list TryCatchInfo :=
  match k with
  | Kstop => []
  | Kseq _ k | Kloop _ _ _ k => scopes k
  | Ktry h _ k => {| tc_stmt := addr h; in_try_block := true |} :: scopes k
  | Kcatch h k => {| tc_stmt := addr h; in_try_block := false |} :: scopes k
  end.

(** The continuation that starts right after label [l]. *)
Section find_label.
Variable l : string.

Definition first_of (a b : option kont) : option kont :=
  match a with Some _ => a | None => b end.

Fixpoint find_label (s : stmt) (k : kont) {struct s} : option kont :=
  let find_list := fix find_list (ss : list stmt) (k : kont) : option kont :=
    match ss with
    | [] => None
    | s :: ss' => first_of (find_label s (Kseq ss' k)) (find_list ss' k)
    end in
  match s with
  | Slabel _ l' => if decide (label_key l' = label_key l) then Some k else None
  | Sblock _ ss | Sinit _ ss => find_list ss k
  | Sif _ _ a b => first_of (find_label a k) (find_label b k)
  | Swhile h c ss => find_list ss (Kloop h c ss k)
  | Stry_catch h a b => first_of (find_label a (Ktry h b k)) (find_label b (Kcatch h k))
  | _ => None
  end.

Fixpoint find_label_list (ss : list stmt) (k : kont) : option kont :=
  match ss with
  | [] => None
  | s :: ss' => first_of (find_label s (Kseq ss' k)) (find_label_list ss' k)
  end.
End find_label.

(** Where a jump goes once the TRY/CATCH blocks it leaves are closed. *)
Inductive jump_to :=
| To_next (k : kont)              (* continue after [k]'s statement *)
| To_loop (h : hdr) (cond : PLtsql_expr) (body : list stmt) (k : kont)  (* next iteration *)
| To_end.                         (* leave the procedure *)

Inductive control (E : Type) :=
| Exec (s : stmt) (k : kont)
| Next (k : kont)
| Leave (n : nat) (k : kont) (dest : jump_to)
| Raise (e : E) (ed : PLtsqlErrorData) (k : kont).
Arguments Exec {E} _ _.
Arguments Next {E} _.
Arguments Leave {E} _ _ _.
Arguments Raise {E} _ _ _.

Section semantics.
Context {V E : Type} (rt : runtime V E) (body : list stmt).

Abbreviation W := (session V).

(** Beside the control: session state, current error, the errors that were
    current when the enclosing TRY/CATCH blocks were entered (innermost
    first), batch termination, has RETURN been executed. *)
Record sem_state := mk_sem {
  ctl : control E;
  s_world : W;
  s_error : PLtsql_estate_err E;
  saved : list (PLtsql_estate_err E);
  s_terminate : bool;
  s_returned : bool
}.

(** Is some TRY or CATCH active?  The executor's test counts any two nested
    blocks, and a single one only in its TRY half. *)
Definition in_trycatch (sc : list TryCatchInfo) : bool :=
  match sc with
  | [] => callers_in_trycatch _ _ rt
  | [info] => in_try_block info || callers_in_trycatch _ _ rt
  | _ => true
  end.

(** The loop enclosing the current statement and the number of TRY/CATCH
    blocks between. *)
Fixpoint enclosing_loop (k : kont) : option (nat * kont) :=
  match k with
  | Kstop => None
  | Kseq _ k => enclosing_loop k
  | Kloop _ _ _ _ => Some (0, k)
  | Ktry _ _ k | Kcatch _ k =>
      match enclosing_loop k with Some (n, k') => Some (S n, k') | None => None end
  end.

(** A dispatched operation: the next control on success and on an error that
    only ends its statement; other errors are raised. *)
Definition dispatched {A} (s : sem_state) (k : kont) (d : dispatched_stmt)
    (dispatch : W -> PLtsql_estate_err E -> PLtsqlErrorData -> bool -> attempt V E A)
    (ok : A -> control E) (returned : bool) (failed : control E) : sem_state :=
  let '(w, ce, ed, tb, r) :=
    dispatch_stmt_handle_error rt (in_trycatch (scopes k)) d dispatch (s_world s) (s_error s)
      (s_terminate s) in
  match r with
  | Thrown e => mk_sem (Raise e ed k) w ce (saved s) tb (s_returned s)
  | Reported => mk_sem failed (after_stmt rt d ed w) ce (saved s) tb (s_returned s)
  | Completed a =>
      mk_sem (ok a) (after_stmt rt d ed w) ce (saved s) tb (s_returned s || returned)
  end.

Definition goto_control (c : control E) (s : sem_state) : progress sem_state (outcome V E) :=
  Step (mk_sem c (s_world s) (s_error s) (saved s) (s_terminate s) (s_returned s)).

Definition exec_stmt (s : sem_state) (st : stmt) (k : kont)
    : progress sem_state (outcome V E) :=
  match st with
  | Snull | Slabel _ _ => goto_control (Next k) s
  | Sblock _ ss | Sinit _ ss => goto_control (Next (Kseq ss k)) s
  | Ssimple h ty =>
      Step (dispatched s k (D_simple h ty) (rt_simple _ _ rt h ty) (fun _ => Next k) false (Next k))
  | Sif _ c a b =>
      Step (dispatched s k D_goto (rt_eval_boolean _ _ rt c)
              (fun v => if decide (v = Some true) then Exec a k else Exec b k) false (Exec a k))
  | Swhile h c ss =>
      let enter := Next (Kseq ss (Kloop h c ss k)) in
      Step (dispatched s k D_goto (rt_eval_boolean _ _ rt c)
              (fun v => if decide (v = Some true) then enter else Next k) false enter)
  | Sexit _ is_exit =>
      match enclosing_loop k with
      | Some (n, Kloop h c ss k') =>
          goto_control (Leave n k (if is_exit then To_next k' else To_loop h c ss k')) s
      | _ => Undefined
      end
  | Sgoto _ l =>
      match find_label_list l body Kstop with
      | Some k' => goto_control (Leave (length (scopes k) - length (scopes k')) k (To_next k')) s
      | None => Undefined
      end
  | Sreturn h =>
      let leave := Leave (length (scopes k)) k To_end in
      Step (dispatched s k (D_return h) (rt_return _ _ rt h) (fun _ => leave) true leave)
  | Stry_catch h b handler =>
      Step (mk_sem (Exec b (Ktry h handler k)) (exec_set_error 0 0 false (s_world s)) (s_error s)
              (s_error s :: saved s) (s_terminate s) (s_returned s))
  end.

(** The statement before [k] is done.  The end of a CATCH block makes the error
    that was current before the TRY current again. *)
Definition next_step (s : sem_state) (k : kont) : progress sem_state (outcome V E) :=
  match k with
  | Kstop => Halt (Returned (s_returned s) (s_world s))
  | Kseq [] k => goto_control (Next k) s
  | Kseq (st :: ss) k => goto_control (Exec st (Kseq ss k)) s
  | Kloop h c ss k => goto_control (Exec (Swhile h c ss) k) s
  | Ktry _ _ k =>
      Step (mk_sem (Next k) (s_world s) (s_error s) (tail (saved s)) (s_terminate s)
              (s_returned s))
  | Kcatch _ k =>
      Step (mk_sem (Next k) (s_world s) (default (s_error s) (head (saved s))) (tail (saved s))
              (s_terminate s) (s_returned s))
  end.

Definition arrive (s : sem_state) (dest : jump_to) : progress sem_state (outcome V E) :=
  match dest with
  | To_next k => goto_control (Next k) s
  | To_loop h c ss k => goto_control (Exec (Swhile h c ss) k) s
  | To_end => goto_control (Next Kstop) s
  end.

(** Close [n] TRY/CATCH blocks, as their normal ends do, then go on at [dest]. *)
Definition leave_step (s : sem_state) (n : nat) (k : kont) (dest : jump_to)
    : progress sem_state (outcome V E) :=
  match n, k with
  | 0, _ => arrive s dest
  | S n', Ktry _ _ k =>
      Step (mk_sem (Leave n' k dest) (s_world s) (s_error s) (tail (saved s)) (s_terminate s)
              (s_returned s))
  | S n', Kcatch _ k =>
      Step (mk_sem (Leave n' k dest) (s_world s) (default (s_error s) (head (saved s)))
              (tail (saved s)) (s_terminate s) (s_returned s))
  | _, Kseq _ k | _, Kloop _ _ _ k => goto_control (Leave n k dest) s
  | _, Kstop => Undefined
  end.

(** An error unwinds to the innermost TRY, whose CATCH block runs with it as the
    current error, unless the error ignores CATCH blocks. *)
Definition raise_step (s : sem_state) (e : E) (ed : PLtsqlErrorData) (k : kont)
    : progress sem_state (outcome V E) :=
  match k with
  | Kstop => Halt (Failed e ed (s_world s))
  | Kseq _ k | Kloop _ _ _ k => goto_control (Raise e ed k) s
  | Kcatch _ k =>
      Step (mk_sem (Raise e ed k) (s_world s) (s_error s) (tail (saved s)) (s_terminate s)
              (s_returned s))
  | Ktry h handler k =>
      if ignore_catch rt (s_world s) ed e (s_terminate s) then goto_control (Raise e ed (Kcatch h k)) s
      else Step (mk_sem (Exec handler (Kcatch h k)) (catch_tail rt ed (s_world s))
                   (caught ed e) (saved s) (s_terminate s) (s_returned s))
  end.

Definition sem_step (s : sem_state) : progress sem_state (outcome V E) :=
  match ctl s with
  | Exec st k => exec_stmt s st k
  | Next k => next_step s k
  | Leave n k dest => leave_step s n k dest
  | Raise e ed k => raise_step s e ed k
  end.

Definition sem_init (w : W) (ce : PLtsql_estate_err E) : sem_state :=
  mk_sem (Next (Kseq body Kstop)) w ce [] false false.
End semantics.
