(* ===== verification/ExecCorrect.v ===== *)
(** * ExecCorrect: generated code implements the structured semantics

    A relation between the states of [TsqlSemantics] and of the executor running
    generated code, preserved by the steps of both.  It yields that a program
    and its code have the same outcomes, that the executor never performs an
    undefined operation, and that its exception stack is always consistent. *)
From stdpp Require Import base list numbers strings gmap.
From S2P Require Import Prelude PltsqlAst Analyzer Codegen CodegenProofs IterExec TsqlSemantics.

(** ** Simulations of deterministic machines *)

Section simulation.
Context {S V O : Type} (f : S -> progress S O) (g : V -> progress V O).
Context (M : S -> V -> Prop) (mu : S -> nat) (nu : V -> nat).

(** Related states move alone, with a decreasing measure, or together. *)
Definition related_move (s : S) (v : V) : Prop :=
  (exists s', f s = Step s' /\ M s' v /\ mu s' < mu s) \/
  (exists v', g v = Step v' /\ M s v' /\ nu v' < nu v) \/
  (exists s' v', f s = Step s' /\ g v = Step v' /\ M s' v') \/
  (exists o, f s = Halt o /\ g v = Halt o).

Hypothesis sim : forall s v, M s v -> related_move s v.

(** The steps the source takes alone come to an end. *)
Lemma source_settles s v :
  M s v -> exists n s', run f n s = Step s' /\ M s' v /\
    ((exists v', g v = Step v' /\ M s' v' /\ nu v' < nu v) \/
     (exists s'' v', f s' = Step s'' /\ g v = Step v' /\ M s'' v') \/
     (exists o, f s' = Halt o /\ g v = Halt o)).
Proof.
  remember (mu s) as k eqn:Hk. revert s Hk.
  induction k as [k IH] using lt_wf_ind. intros s -> HM.
  destruct (sim _ _ HM) as [(s1 & E & HM1 & Hlt)|Hrest]; [|by exists 0, s].
  destruct (IH _ Hlt s1 eq_refl HM1) as (n & s' & Hr & HM' & Hrest).
  exists (1 + n), s'. cbn. by rewrite E.
Qed.

Lemma run_forward n : forall s v o,
  M s v -> run f n s = Halt o -> exists m, run g m v = Halt o.
Proof.
  induction n as [|n IH]; [done|]. intros s v o.
  remember (nu v) as k eqn:Hk. revert v Hk.
  induction k as [k IHv] using lt_wf_ind. intros v -> HM Hr. pose proof Hr as Hr'. cbn in Hr.
  destruct (sim _ _ HM)
    as [(s' & E & HM' & _)|[(v' & E & HM' & Hlt)|[(s' & v' & E & E' & HM')|(o' & E & E')]]].
  - rewrite E in Hr. eauto.
  - destruct (IHv _ Hlt v' eq_refl HM' Hr') as [m Hm]. exists (1 + m). cbn. by rewrite E.
  - rewrite E in Hr. destruct (IH _ _ _ HM' Hr) as [m Hm]. exists (1 + m). cbn. by rewrite E'.
  - rewrite E in Hr. injection Hr as <-. exists 1. cbn. by rewrite E'.
Qed.

Lemma run_add {A} (h : A -> progress A O) n m s s' :
  run h n s = Step s' -> run h (n + m) s = run h m s'.
Proof.
  revert s; induction n as [|n IH]; cbn; intros s Hr; [congruence|].
  destruct (h s); [by apply IH|done..].
Qed.

Lemma run_backward m : forall s v,
  M s v ->
  match run g m v with
  | Step v' => exists n s', run f n s = Step s' /\ M s' v'
  | Halt o => exists n, run f n s = Halt o
  | Undefined => False
  end.
Proof.
  induction m as [|m IH]; cbn; intros s v HM; [by exists 0, s|].
  destruct (source_settles s v HM) as (n & s' & Hr & HM' & Hrest).
  destruct Hrest as [(v' & E & HM1 & _)|[(s1 & v' & E & E' & HM1)|(o & E & E')]].
  - rewrite E. specialize (IH s' v' HM1). destruct (run g m v') as [v2|o|]; [| |done].
    + destruct IH as (n2 & s2 & H2 & HM2). exists (n + n2), s2.
      by rewrite (run_add f n n2 s s').
    + destruct IH as [n2 H2]. exists (n + n2). by rewrite (run_add f n n2 s s').
  - rewrite E'. specialize (IH s1 v' HM1). destruct (run g m v') as [v2|o|]; [| |done].
    + destruct IH as (n2 & s2 & H2 & HM2). exists (n + (1 + n2)), s2.
      rewrite (run_add f n _ s s') by done. cbn. by rewrite E.
    + destruct IH as [n2 H2]. exists (n + (1 + n2)).
      rewrite (run_add f n _ s s') by done. cbn. by rewrite E.
  - rewrite E'. exists (n + 1). rewrite (run_add f n _ s s') by done. cbn. by rewrite E.
Qed.
End simulation.

(** ** Positions and continuations *)

Section positions.
Variable c : CompileContext.
Variable line_of : ptr -> Z.
Variable LI : gmap label_text nat.
Variable C : list code.

Notation layout := (layout c line_of LI C).
Notation layouts := (layouts c line_of LI C).
Notation goto_at := (goto_at LI C).

Definition try_half (h : hdr) : TryCatchInfo := {| tc_stmt := addr h; in_try_block := true |}.
Definition catch_half (h : hdr) : TryCatchInfo := {| tc_stmt := addr h; in_try_block := false |}.

(** [at_kont k sc lps p]: the code at [p], inside the scopes [sc] and loops
    [lps], does what the continuation [k] says. *)
Inductive at_kont : kont -> list TryCatchInfo -> list (hdr * list TryCatchInfo) -> nat -> Prop :=
| at_stop : at_kont Kstop [] [] (length C)
| at_seq ss k sc lps p p' :
    layouts sc lps ss p p' -> at_kont k sc lps p' -> at_kont (Kseq ss k) sc lps p
| at_loop h cond ss k sc lps p b e :
    goto_at p (lineno h) None (GEN LOOP_BEGIN (lineno h) (addr h)) b ->
    layout sc lps (Swhile h cond ss) b e -> at_kont k sc lps e ->
    at_kont (Kloop h cond ss k) sc ((h, sc) :: lps) p
| at_try h handler k sc lps p r :
    line_of (addr h) = lineno h ->
    C !! p = Some (Crestore_ctx_full (lineno h)) ->
    goto_at (S p) (lineno h) None (GEN CATCH_END (lineno h) (addr h)) (S r) ->
    LI !! GEN CATCH_BEGIN (lineno h) (addr h) = Some (S (S p)) ->
    layout (catch_half h :: sc) lps handler (S (S p)) r ->
    C !! r = Some (Crestore_ctx_partial (lineno h)) ->
    at_kont k sc lps (S r) -> at_kont (Ktry h handler k) (try_half h :: sc) lps p
| at_catch h k sc lps p :
    C !! p = Some (Crestore_ctx_partial (lineno h)) ->
    at_kont k sc lps (S p) -> at_kont (Kcatch h k) (catch_half h :: sc) lps p
| at_jump k sc lps p line l t :
    goto_at p line None l t -> p < t -> at_kont k sc lps t -> at_kont k sc lps p.

Lemma at_kont_scopes k sc lps p : at_kont k sc lps p -> scopes k = sc.
Proof. induction 1; cbn; unfold try_half, catch_half; congruence. Qed.

Lemma goto_at_lt p line cond l t : goto_at p line cond l t -> p < length C.
Proof. intros [H _]. by apply lookup_lt_Some in H. Qed.

Lemma layout_le s : forall sc lps p p', layout sc lps s p p' -> p <= p'.
Proof.
  assert (Hall : forall ss, Forall (fun s => forall sc lps p p', layout sc lps s p p' -> p <= p') ss ->
    forall sc lps p p', layouts sc lps ss p p' -> p <= p').
  { induction 1 as [|s' ss Hs _ IH]; cbn; intros sc lps p p'; [lia|].
    intros (q & ?%Hs & ?%IH). lia. }
  induction s as [|h ss IH|h e x y IHx IHy|h e ss IH|h b|h|h lb|h lb|h x y IHx IHy|h ss IH|h ty]
    using stmt_nested_ind; intros sc lps p p' Hl; cbn in Hl; try lia.
  - by apply (Hall ss IH) in Hl.
  - destruct Hl as (q & ?%IHx & _ & Hb). destruct (is_null y); [lia|].
    destruct Hb as (_ & _ & ?%IHy). lia.
  - destruct Hl as (q & _ & ?%(Hall ss IH) & _ & ->). lia.
  - destruct Hl as (? & ? & ? & fl & ? & _ & _ & _ & _ & ->). lia.
  - destruct Hl as (? & _ & _ & _ & ->). lia.
  - destruct Hl as (fl & ? & ? & _ & _ & _ & _ & ->). lia.
  - destruct Hl as (q & r & _ & _ & _ & ?%IHx & _ & _ & ?%IHy & _ & ->). lia.
  - by apply (Hall ss IH) in Hl.
Qed.

Lemma layouts_le ss : forall sc lps p p', layouts sc lps ss p p' -> p <= p'.
Proof.
  induction ss as [|s ss IH]; cbn; intros sc lps p p'; [lia|].
  intros (q & ?%layout_le & ?%IH). lia.
Qed.

Lemma at_kont_le k sc lps p : at_kont k sc lps p -> p <= length C.
Proof.
  induction 1 as [|ss k sc lps p p' Hl|h cond ss k sc lps p b e Hg
                 |h handler k sc lps p r _ Hp|h k sc lps p Hp|]; try lia.
  - apply layouts_le in Hl. lia.
  - apply goto_at_lt in Hg. lia.
  - apply lookup_lt_Some in Hp. lia.
Qed.

(** The innermost loop of a position is the one its continuation is in. *)
Lemma at_kont_loop k sc hw scw lps p :
  at_kont k sc ((hw, scw) :: lps) p ->
  exists fl cond ss k' b e,
    sc = fl ++ scw /\ enclosing_loop k = Some (length fl, Kloop hw cond ss k') /\
    layout scw lps (Swhile hw cond ss) b e /\ at_kont k' scw lps e /\
    LI !! GEN LOOP_BEGIN (lineno hw) (addr hw) = Some b /\
    LI !! GEN LOOP_END (lineno hw) (addr hw) = Some e.
Proof.
  remember ((hw, scw) :: lps) as lps0 eqn:Heq. intros Hk. revert hw scw lps Heq.
  induction Hk as [|ss k sc lps p p' Hl Hk IH|h cond ss k sc lps p b e Hg Hl Hk IH
                  |h handler k sc lps p r Hln Hp Hg Hc Hh Hr Hk IH|h k sc lps p Hp Hk IH
                  |k sc lps p line l t Hg Hlt Hk IH];
    intros hw scw lps1 Heq; cbn; eauto; [done| | |].
  - injection Heq as -> -> ->. pose proof Hl as (q & [_ He] & _ & [_ Hb] & ->).
    exists [], cond, ss, k, b, (S q). split_and!; done.
  - destruct (IH _ _ _ Heq) as (fl & cond & ss & k' & b & e & -> & -> & Hrest).
    exists (try_half h :: fl), cond, ss, k', b, e. split_and!; [done|done|apply Hrest..].
  - destruct (IH _ _ _ Heq) as (fl & cond & ss & k' & b & e & -> & -> & Hrest).
    exists (catch_half h :: fl), cond, ss, k', b, e. split_and!; [done|done|apply Hrest..].
Qed.

(** The continuation after the halves of the structured statements. *)
Lemma at_kont_then sc lps h e a b k p p' :
  layout sc lps (Sif h e a b) p p' -> at_kont k sc lps p' ->
  exists q, layout sc lps a (S p) q /\ at_kont k sc lps q.
Proof.
  intros (q & Ha & _ & Hb) Hk. exists q. split; [done|].
  destruct (is_null b); [by destruct Hb as [_ ->]|].
  destruct Hb as (_ & Hg & Hb). eapply at_jump; [exact Hg| |done].
  apply layout_le in Hb. lia.
Qed.

Lemma at_kont_else sc lps h e a b k p p' :
  layout sc lps (Sif h e a b) p p' -> at_kont k sc lps p' -> is_null b = false ->
  exists q, layout sc lps b q p' /\ goto_at p (lineno h) (Some e) (GEN ELSE_BEGIN (lineno h) (addr h)) q.
Proof.
  intros (q & Ha & _ & Hb) Hk Hn. rewrite Hn in Hb. destruct Hb as (Hg & _ & Hb). eauto.
Qed.

Lemma at_kont_body sc lps h e ss k p p' :
  layout sc lps (Swhile h e ss) p p' -> at_kont k sc lps p' ->
  exists q, layouts sc ((h, sc) :: lps) ss (S p) q /\
    at_kont (Kloop h e ss k) sc ((h, sc) :: lps) q.
Proof.
  intros Hl Hk. pose proof Hl as (q & _ & Hss & Hg & ->). exists q. split; [done|].
  eapply at_loop; eauto.
Qed.

Lemma at_kont_try sc lps h a b k p p' :
  layout sc lps (Stry_catch h a b) p p' -> at_kont k sc lps p' ->
  exists q r,
    layout (try_half h :: sc) lps a (S p) q /\ at_kont (Ktry h b k) (try_half h :: sc) lps q /\
    layout (catch_half h :: sc) lps b (S (S q)) r /\
    at_kont (Kcatch h k) (catch_half h :: sc) lps r.
Proof.
  intros (q & r & Hln & Hp & Hc & Ha & Hq & Hg & Hb & Hr & ->) Hk. exists q, r.
  split_and!; [done| |done|by apply at_catch].
  eapply at_try; eauto.
Qed.

Section labels.
Variable l : string.

Definition found_at (k : kont) : Prop :=
  exists sc lps t, LI !! USER (label_key l) = Some t /\
    label_scope c (label_key l) = Some sc /\ at_kont k sc lps t.

Lemma find_label_block h ss k : find_label l (Sblock h ss) k = find_label_list l ss k.
Proof. cbn. induction ss as [|s ss IH]; [done|]. cbn. by rewrite IH. Qed.

Lemma find_label_while h e ss k :
  find_label l (Swhile h e ss) k = find_label_list l ss (Kloop h e ss k).
Proof.
  cbn. generalize (Kloop h e ss k). induction ss as [|s ss IH]; [done|].
  intros k0. cbn. by rewrite IH.
Qed.

Lemma first_of_some a b k : first_of a b = Some k -> a = Some k \/ b = Some k.
Proof. destruct a; naive_solver. Qed.

Lemma find_label_at s : forall k sc lps p p' k',
  layout sc lps s p p' -> at_kont k sc lps p' -> find_label l s k = Some k' -> found_at k'.
Proof.
  assert (Hall : forall ss, Forall (fun s => forall k sc lps p p' k',
      layout sc lps s p p' -> at_kont k sc lps p' -> find_label l s k = Some k' -> found_at k') ss ->
    forall k sc lps p p' k', layouts sc lps ss p p' -> at_kont k sc lps p' ->
      find_label_list l ss k = Some k' -> found_at k').
  { induction 1 as [|s' ss Hs _ IH]; cbn; intros k sc lps p p' k'; [done|].
    intros (q & Hl & Hls) Hk [Hf|Hf]%first_of_some; [|by eapply IH].
    eapply Hs; [exact Hl| |exact Hf]. by eapply at_seq. }
  induction s as [|h ss IH|h e x y IHx IHy|h e ss IH|h b|h|h lb|h lb|h x y IHx IHy|h ss IH|h ty]
    using stmt_nested_ind; intros k sc lps p p' k' Hl Hk Hf; try done.
  - rewrite find_label_block in Hf. by eapply (Hall ss).
  - cbn in Hf. apply first_of_some in Hf as [Hf|Hf].
    + destruct (at_kont_then _ _ _ _ _ _ _ _ _ Hl Hk) as (q & Ha & Hk'). by eapply IHx.
    + destruct (is_null y) eqn:Hn; [by destruct y|].
      destruct (at_kont_else _ _ _ _ _ _ _ _ _ Hl Hk Hn) as (q & Hb & _). by eapply IHy.
  - rewrite find_label_while in Hf.
    destruct (at_kont_body _ _ _ _ _ _ _ _ Hl Hk) as (q & Hss & Hk'). by eapply (Hall ss).
  - cbn in Hf. case_decide as Heq; [|done]. injection Hf as <-.
    destruct Hl as (Ht & Hs & ->). rewrite Heq in *. by exists sc, lps, p.
  - cbn in Hf. destruct (at_kont_try _ _ _ _ _ _ _ _ Hl Hk) as (q & r & Ha & Hka & Hb & Hkb).
    apply first_of_some in Hf as [Hf|Hf]; [by eapply IHx|by eapply IHy].
  - change (find_label l (Sblock h ss) k = Some k') in Hf.
    rewrite find_label_block in Hf. by eapply (Hall ss).
Qed.

Lemma find_label_list_at ss k sc lps p p' k' :
  layouts sc lps ss p p' -> at_kont k sc lps p' -> find_label_list l ss k = Some k' ->
  found_at k'.
Proof.
  intros Hl Hk Hf. apply (find_label_at (Sblock (Build_hdr 0 0) ss) k sc lps p p'); [done..|].
  by rewrite find_label_block.
Qed.
End labels.
End positions.

(** A label of the tree is found. *)
Lemma find_label_some l s : forall k,
  label_key l ∈ user_labels s -> is_Some (find_label l s k).
Proof.
  assert (Hall : forall ss, Forall (fun s => forall k,
      label_key l ∈ user_labels s -> is_Some (find_label l s k)) ss ->
    forall k, label_key l ∈ flat_map user_labels ss -> is_Some (find_label_list l ss k)).
  { induction 1 as [|s' ss Hs _ IH]; cbn; intros k Hk; [by mem_cases Hk|].
    apply elem_of_app in Hk as [Hk|Hk].
    - destruct (Hs (Kseq ss k) Hk) as [k' ->]. cbn. eauto.
    - destruct (find_label l s' (Kseq ss k)); cbn; eauto. }
  induction s as [|h ss IH|h e x y IHx IHy|h e ss IH|h b|h|h lb|h lb|h x y IHx IHy|h ss IH|h ty]
    using stmt_nested_ind; intros k Hk; try (by cbn in Hk; mem_cases Hk).
  - rewrite find_label_block. by apply Hall.
  - cbn in *. apply elem_of_app in Hk as [Hk|Hk].
    + destruct (IHx k Hk) as [k' ->]. cbn. eauto.
    + destruct (find_label l x k); cbn; eauto.
  - rewrite find_label_while. by apply Hall.
  - cbn in *. mem_cases Hk. rewrite decide_True by done. eauto.
  - cbn in *. apply elem_of_app in Hk as [Hk|Hk].
    + destruct (IHx (Ktry h y k) Hk) as [k' ->]. cbn. eauto.
    + destruct (find_label l x (Ktry h y k)); cbn; eauto.
  - change (is_Some (find_label l (Sblock h ss) k)). rewrite find_label_block. by apply Hall.
Qed.
