(* ===== verification/ExecMatch.v ===== *)
(** * ExecMatch: error contexts and the relation between the two machines

    How the operations of [IterExec] act on a well-formed stack of error
    contexts, and the simulation between [TsqlSemantics] and the executor. *)
From stdpp Require Import base list numbers strings gmap.
From S2P Require Import Prelude PltsqlAst Analyzer Codegen CodegenProofs Dispatch DispatchTheorems.
From S2P Require Import IterExec TsqlSemantics ExecCorrect.

#[local] Arguments reverse : simpl never.

Section contexts.
Context {V E : Type}.
Implicit Types (c : errctx (E := E)) (st : list (errctx (E := E))).
Implicit Types (v : exec_state (V := V) (E := E)).

(** The innermost context that has not caught an error, with its index.
    Stacks are written innermost first here. *)
Fixpoint active (st : list (errctx (E := E))) : option (nat * errctx (E := E)) :=
  match st with
  | [] => None
  | c :: st' => if partial_restored c then active st' else Some (length st', c)
  end.

Definition active_buf (st : list (errctx (E := E))) : option nat :=
  local_sigjmp_buf ∘ snd <$> active st.

(** The executor's context registers describe the stack [st]. *)
Definition ctxs_are v st : Prop :=
  err_ctx_stack v = reverse st /\ exception_stack v = active_buf st /\
  (forall i c, active st = Some (i, c) -> cur_err_ctx_idx v = i).

(** [v'] differs from [v] in the context registers only. *)
Definition same_regs v v' : Prop :=
  pc v' = pc v /\ rc_return v' = rc_return v /\ world v' = world v /\
  terminate_batch v' = terminate_batch v /\ throwing v' = throwing v.

Lemma same_regs_trans v1 v2 v3 : same_regs v1 v2 -> same_regs v2 v3 -> same_regs v1 v3.
Proof. unfold same_regs. intros; destruct_and!; split_and!; congruence. Qed.

Lemma active_partial_app d st :
  Forall (fun c => partial_restored c = true) d -> active (d ++ st) = active st.
Proof. induction 1 as [|c d Hc _ IH]; cbn; [done|]. by rewrite Hc. Qed.

Lemma find_active_reverse st rest cur :
  find_active (reverse st ++ rest) (length st) cur =
    Some (match active st with Some (i, _) => i | None => cur end).
Proof.
  revert rest; induction st as [|c st IH]; intros rest; cbn [find_active length]; [done|].
  rewrite reverse_cons, <- app_assoc, lookup_app_r by (by rewrite length_reverse).
  rewrite length_reverse, Nat.sub_diag. cbn [app lookup list_lookup active].
  destruct (partial_restored c); [apply IH|done].
Qed.

Lemma lookup_reverse_app (d : list (errctx (E := E))) c st :
  reverse (d ++ c :: st) !! length st = Some c.
Proof.
  rewrite reverse_app, reverse_cons, <- app_assoc, lookup_app_r by (by rewrite length_reverse).
  by rewrite length_reverse, Nat.sub_diag.
Qed.

Lemma lookup_reverse_cons c st : reverse (c :: st) !! length st = Some c.
Proof. apply (lookup_reverse_app []). Qed.

Lemma pop_back_reverse {A} (x : A) l : pop_back (reverse (x :: l)) = reverse l.
Proof. rewrite reverse_cons. apply pop_back_snoc. Qed.

Lemma restore_ctx_full_spec v c st :
  ctxs_are v (c :: st) -> partial_restored c = false ->
  save_exception_stack c = active_buf st ->
  exists v', restore_ctx_full v = Some v' /\ ctxs_are v' st /\ same_regs v v' /\
    cur_error v' = cur_error v.
Proof.
  intros (Hs & _ & Hi) Hp He. cbn in Hi. rewrite Hp in Hi.
  specialize (Hi _ _ eq_refl). unfold restore_ctx_full. rewrite Hs, Hi.
  rewrite lookup_reverse_cons, pop_back_reverse.
  pose proof (find_active_reverse st [] (length st)) as Hf. rewrite app_nil_r in Hf. rewrite Hf.
  eexists. split; [done|]. split_and!; cbn; try done.
  split_and!; [done|done|]. intros i c' ->. done.
Qed.

Lemma restore_ctx_partial2_spec v c st :
  ctxs_are v (c :: st) -> partial_restored c = true ->
  exists v', restore_ctx_partial2 v = Some v' /\ ctxs_are v' st /\ same_regs v v' /\
    cur_error v' = save_cur_error c.
Proof.
  intros (Hs & He & Hi) Hp. unfold active_buf in He. cbn in He, Hi. rewrite Hp in He, Hi.
  unfold restore_ctx_partial2. rewrite Hs, reverse_cons, last_snoc, pop_back_snoc.
  eexists. split; [done|]. split_and!; [|done|done]. by split_and!.
Qed.

Lemma cleanup_dangling_spec d : forall v st,
  ctxs_are v (d ++ st) -> Forall (fun c => partial_restored c = true) d ->
  exists v', cleanup_dangling (length d) v = Some v' /\ ctxs_are v' st /\ same_regs v v'.
Proof.
  induction d as [|c d IH]; intros v st Hv Hd; cbn.
  - exists v. split_and!; done.
  - apply Forall_cons in Hd as [Hc Hd].
    destruct (restore_ctx_partial2_spec v c (d ++ st) Hv Hc) as (v1 & -> & Hv1 & R1 & _).
    destruct (IH v1 st Hv1 Hd) as (v2 & -> & Hv2 & R2). exists v2.
    eauto using same_regs_trans.
Qed.

Definition mark c : errctx :=
  mk_errctx (local_sigjmp_buf c) (save_exception_stack c) (target_pc c) (save_cur_error c) true.

Lemma restore_ctx_partial1_spec v c st :
  ctxs_are v (c :: st) -> partial_restored c = false ->
  save_exception_stack c = active_buf st ->
  exists v', restore_ctx_partial1 v = Some v' /\ err_ctx_stack v' = reverse (mark c :: st) /\
    exception_stack v' = active_buf st /\ cur_err_ctx_idx v' = length st /\ same_regs v v'.
Proof.
  intros (Hs & _ & Hi) Hp He. cbn in Hi. rewrite Hp in Hi.
  specialize (Hi _ _ eq_refl). unfold restore_ctx_partial1. rewrite Hs, Hi.
  rewrite lookup_reverse_cons. eexists. split; [done|].
  split_and!; try done. cbn [set_ctxs err_ctx_stack].
  rewrite !reverse_cons, insert_app_r_alt by (by rewrite length_reverse).
  by rewrite length_reverse, Nat.sub_diag.
Qed.

Lemma active_buf_live st b : active_buf st = Some b -> b ∈ map local_sigjmp_buf (reverse st).
Proof.
  unfold active_buf. intros Hb. destruct (active st) as [[i c]|] eqn:Ha; [|done].
  cbn in Hb. injection Hb as <-. apply list_elem_of_fmap. exists c. split; [done|].
  rewrite elem_of_reverse. revert Ha. clear. induction st as [|c' st IH]; cbn; [done|].
  destruct (partial_restored c'); set_solver.
Qed.

(** The registers agree with the stack itself. *)
Lemma ctxs_exception_stack v st :
  ctxs_are v st ->
  match exception_stack v with
  | Some buf => exists ctx, err_ctx_stack v !! cur_err_ctx_idx v = Some ctx /\
                  local_sigjmp_buf ctx = buf /\ partial_restored ctx = false
  | None => Forall (fun ctx => partial_restored ctx = true) (err_ctx_stack v)
  end.
Proof.
  intros (Hs & -> & Hi). unfold active_buf. destruct (active st) as [[i c]|] eqn:Ha; cbn.
  - rewrite (Hi i c eq_refl), Hs. exists c. clear -Ha.
    induction st as [|c' st IH]; cbn in Ha; [done|].
    destruct (partial_restored c') eqn:Hp.
    + destruct (IH Ha) as (Hl & ? & ?). split_and!; [|done..].
      rewrite reverse_cons. by apply lookup_app_l_Some.
    + injection Ha as <- <-. split_and!; [apply lookup_reverse_cons|done..].
  - rewrite Hs. apply Forall_reverse. clear -Ha. induction st as [|c' st IH]; cbn in Ha; [done|].
    destruct (partial_restored c') eqn:Hp; [|done]. constructor; auto.
Qed.

(** Arriving at the handler of the innermost active context. *)
Lemma catch_error_spec (rt : runtime V E) v d c st e ed :
  ctxs_are v (d ++ c :: st) -> Forall (fun c => partial_restored c = true) d ->
  partial_restored c = false -> save_exception_stack c = active_buf st -> throwing v = Some (e, ed) ->
  exists v', catch_error rt v e ed = Some v' /\ ctxs_are v' (mark c :: st) /\
    cur_error v' = caught ed e /\ terminate_batch v' = terminate_batch v /\
    rc_return v' = rc_return v /\
    if ignore_catch rt (world v) ed e (terminate_batch v)
    then throwing v' = Some (e, ed) /\ world v' = world v
    else throwing v' = None /\ world v' = catch_tail rt ed (world v) /\
         pc v' = u64 (u64 (target_pc c - 1) + 1).
Proof.
  intros Hv Hd Hp He Ht. pose proof Hv as (Hs & _ & Hi).
  rewrite active_partial_app in Hi by done. cbn in Hi. rewrite Hp in Hi.
  specialize (Hi _ _ eq_refl). unfold catch_error. rewrite Hs, Hi, lookup_reverse_app.
  destruct (cleanup_dangling_spec d v (c :: st) Hv Hd) as (v1 & E1 & Hv1 & R1).
  replace (length (reverse (d ++ c :: st)) - 1 - length st) with (length d)
    by (rewrite length_reverse, length_app; cbn; lia).
  rewrite E1. destruct (restore_ctx_partial1_spec v1 c st Hv1 Hp He)
    as (v2 & -> & Hs2 & He2 & Hi2 & R2).
  assert (R : same_regs v v2) by eauto using same_regs_trans.
  destruct R as (Rpc & Rrc & Rw & Rtb & Rt).
  rewrite Hs2, Hi2, reverse_cons, find_active_reverse.
  assert (Hctx : forall v', err_ctx_stack v' = reverse (mark c :: st) ->
    exception_stack v' = active_buf st ->
    cur_err_ctx_idx v' = match active st with Some (i, _) => i | None => length st end ->
    ctxs_are v' (mark c :: st)).
  { intros v' Hs' He' Hi'. split_and!; [done|done|]. cbn. intros i c' Ha. by rewrite Ha in Hi'. }
  cbn [world jump set_ctxs terminate_batch cur_error]. rewrite Rw, Rtb.
  destruct (ignore_catch rt (world v) ed e (terminate_batch v)).
  - eexists. split; [done|]. split_and!; try (by cbn; congruence).
    apply Hctx; [|done|done]. cbn [err_ctx_stack jump set_ctxs]. by rewrite reverse_cons.
  - eexists. split; [done|]. split_and!; try (by cbn; rewrite ?orb_false_r; congruence).
    apply Hctx; [|done|done]. cbn [err_ctx_stack jump set_ctxs advance set_result].
    by rewrite reverse_cons.
Qed.
End contexts.

(** ** The relation *)

Section matching.
Context {V E : Type} (rt : runtime V E).
Hypothesis Hrt : runtime_ok rt.
Variable c : CompileContext.
Variable line_of : ptr -> Z.
Variable LI : gmap label_text nat.
Variable C : list code.
Variable body : list stmt.

Hypothesis Hend : LI !! END_OF_PROC = Some (length C).
Hypothesis Hbody : layouts c line_of LI C [] [] body 0 (length C).
Hypothesis Hsize : (Z.of_nat (length C) <= INT32_MAX)%Z.
Hypothesis Hlabels : forall key,
  is_Some (label_stmt_map c !! key) -> key ∈ flat_map user_labels body.

Notation layout := (layout c line_of LI C).
Notation layouts := (layouts c line_of LI C).
Notation goto_at := (goto_at LI C).
Notation at_kont := (at_kont c line_of LI C).
Notation step := (exec_step rt C).

(** The error contexts [st] implement the TRY/CATCH halves [sc] entered with
    the current errors [sv]. *)
Fixpoint ctx_ok (sc : list TryCatchInfo) (sv : list (PLtsql_estate_err E))
    (st : list (errctx (E := E))) : Prop :=
  match sc, sv, st with
  | [], [], [] => True
  | info :: sc', ce :: sv', ctx :: st' =>
      partial_restored ctx = negb (in_try_block info) /\ save_cur_error ctx = ce /\
      (in_try_block info = true ->
         save_exception_stack ctx = active_buf st' /\
         exists t, LI !! GEN CATCH_BEGIN (line_of (tc_stmt info)) (tc_stmt info) = Some t /\
           target_pc ctx = tgt t) /\
      ctx_ok sc' sv' st'
  | _, _, _ => False
  end.

Definition dest_at (dest : jump_to) (sc : list TryCatchInfo) (t : nat) : Prop :=
  match dest with
  | To_next k => exists lps, at_kont k sc lps t
  | To_loop h cond ss k => exists lps e, layout sc lps (Swhile h cond ss) t e /\ at_kont k sc lps e
  | To_end => t = length C /\ sc = []
  end.

(** Between statements nothing is being thrown and the entry counts are in order. *)
Definition quiet (v : exec_state (V := V) (E := E)) : Prop :=
  throwing v = None /\ counts_ok (world v).

Definition matches (s : sem_state (V := V) (E := E)) (v : exec_state (V := V) (E := E)) : Prop :=
  s_world s = world v /\ s_terminate s = terminate_batch v /\ s_returned s = rc_return v /\
  match ctl s with
  | Exec x k =>
      s_error s = cur_error v /\ quiet v /\
      exists sc lps p p' st, pc v = Z.of_nat p /\ layout sc lps x p p' /\
        at_kont k sc lps p' /\ ctxs_are v st /\ ctx_ok sc (saved s) st
  | Next k =>
      s_error s = cur_error v /\ quiet v /\
      exists sc lps p st, pc v = Z.of_nat p /\ at_kont k sc lps p /\
        ctxs_are v st /\ ctx_ok sc (saved s) st
  | Leave n k dest =>
      s_error s = cur_error v /\ quiet v /\
      exists p line l t st, pc v = Z.of_nat p /\ n <= length (scopes k) /\
        restores_at C p line (take n (scopes k)) /\ goto_at (p + n) line None l t /\
        dest_at dest (drop n (scopes k)) t /\ ctxs_are v st /\ ctx_ok (scopes k) (saved s) st
  | Raise e ed k =>
      throwing v = Some (e, ed) /\
      exists sc lps p d st, at_kont k sc lps p /\ ctxs_are v (d ++ st) /\
        Forall (fun ctx => partial_restored ctx = true) d /\ ctx_ok sc (saved s) st
  end.

(** Measures: work the semantics does without the executor moving, and the
    forward jumps the executor does alone. *)
Fixpoint weight (s : stmt) : nat :=
  match s with
  | Sblock _ ss | Sinit _ ss => 2 + list_sum (map (fun s => 1 + weight s) ss)
  | _ => 1
  end.

Definition weights (ss : list stmt) : nat := list_sum (map (fun s => 1 + weight s) ss).

Fixpoint kont_weight (k : kont) : nat :=
  match k with
  | Kstop => 0
  | Kseq ss k => 1 + weights ss + kont_weight k
  | Kloop _ _ _ k | Ktry _ _ k | Kcatch _ k => 1 + kont_weight k
  end.

Definition mu (s : sem_state (V := V) (E := E)) : nat :=
  match ctl s with
  | Exec x k => weight x + kont_weight k
  | Next k | Leave _ k _ | Raise _ _ k => kont_weight k
  end.

Definition nu (v : exec_state (V := V) (E := E)) : nat := length C - Z.to_nat (pc v).

Notation move := (related_move (sem_step rt body) step matches mu nu).

(** *** Program counter *)

Lemma pc_next p : p < length C -> u64 (Z.of_nat p + 1) = Z.of_nat (S p).
Proof. intros Hp. unfold u64, uwrap. unfold INT32_MAX in Hsize. rewrite Z.mod_small; lia. Qed.

Lemma pc_jump t : t <= length C -> u64 (u64 (tgt t - 1) + 1) = Z.of_nat t.
Proof.
  intros Ht. unfold tgt. unfold INT32_MAX in *.
  rewrite i32_id by (apply in_i32_iff; unfold INT32_MIN, INT32_MAX; lia).
  unfold u64, uwrap. rewrite Zplus_mod_idemp_l. replace (Z.of_nat t - 1 + 1)%Z with (Z.of_nat t) by lia.
  apply Z.mod_small. lia.
Qed.

Lemma step_at v p cd :
  throwing v = None -> pc v = Z.of_nat p -> C !! p = Some cd ->
  step v = match exec_code rt v cd with Some v => Step v | None => Undefined end.
Proof.
  intros Ht Hp Hc. unfold exec_step. rewrite Ht, Hp.
  assert (Hlt : p < length C) by (by apply lookup_lt_Some in Hc).
  assert (Hb : (Z.of_nat p <? Z.of_nat (length C))%Z = true) by (apply Z.ltb_lt; lia).
  by rewrite Hb, Nat2Z.id, Hc.
Qed.

(** *** The test for an active TRY/CATCH *)

Lemma trycatch_matches sc sv st :
  ctx_ok sc sv st ->
  is_part_of_pltsql_trycatch_block rt (reverse st) = in_trycatch rt sc.
Proof.
  destruct sc as [|i1 [|i2 sc]], sv as [|e1 [|e2 sv]], st as [|c1 [|c2 st]]; cbn [ctx_ok]; try done;
    try (by intros (_ & _ & _ & [])).
  - intros (Hp & _). change (reverse [c1]) with [c1]. cbn. by rewrite Hp, negb_involutive.
  - intros _. unfold is_part_of_pltsql_trycatch_block. cbn [in_trycatch].
    rewrite !reverse_cons.
    destruct (reverse st) as [|x l]; [done|]. destruct l; done.
Qed.

(** *** Shapes of matches and moves *)

Definition regs (s : sem_state (V := V) (E := E)) (v : exec_state (V := V) (E := E)) : Prop :=
  s_world s = world v /\ s_terminate s = terminate_batch v /\ s_returned s = rc_return v.

(** Registers of a state that is not raising. *)
Definition live_regs (s : sem_state (V := V) (E := E)) (v : exec_state (V := V) (E := E)) : Prop :=
  regs s v /\ s_error s = cur_error v /\ quiet v.

Ltac regs_ok :=
  unfold live_regs, regs, quiet, counts_ok in *; destruct_and?; cbn in *; rewrite ?orb_false_r;
  split_and!; congruence.

Lemma matches_exec s v x k sc lps p p' st :
  ctl s = Exec x k -> live_regs s v -> pc v = Z.of_nat p -> layout sc lps x p p' ->
  at_kont k sc lps p' -> ctxs_are v st -> ctx_ok sc (saved s) st -> matches s v.
Proof.
  intros Hs ((? & ? & ?) & ? & ?) **. unfold matches. rewrite Hs. do 5 (split; [done|]).
  by exists sc, lps, p, p', st.
Qed.

Lemma matches_next s v k sc lps p st :
  ctl s = Next k -> live_regs s v -> pc v = Z.of_nat p -> at_kont k sc lps p ->
  ctxs_are v st -> ctx_ok sc (saved s) st -> matches s v.
Proof.
  intros Hs ((? & ? & ?) & ? & ?) **. unfold matches. rewrite Hs. do 5 (split; [done|]).
  by exists sc, lps, p, st.
Qed.

Lemma matches_leave s v n k dest p line l t st :
  ctl s = Leave n k dest -> live_regs s v -> pc v = Z.of_nat p -> n <= length (scopes k) ->
  restores_at C p line (take n (scopes k)) -> goto_at (p + n) line None l t ->
  dest_at dest (drop n (scopes k)) t -> ctxs_are v st -> ctx_ok (scopes k) (saved s) st ->
  matches s v.
Proof.
  intros Hs ((? & ? & ?) & ? & ?) **. unfold matches. rewrite Hs. do 5 (split; [done|]).
  by exists p, line, l, t, st.
Qed.

Lemma matches_raise s v e ed k sc lps p d st :
  ctl s = Raise e ed k -> regs s v -> throwing v = Some (e, ed) -> at_kont k sc lps p ->
  ctxs_are v (d ++ st) -> Forall (fun ctx => partial_restored ctx = true) d ->
  ctx_ok sc (saved s) st -> matches s v.
Proof.
  intros Hs (? & ? & ?) **. unfold matches. rewrite Hs. do 4 (split; [done|]).
  by exists sc, lps, p, d, st.
Qed.

Lemma move_both s v s' v' :
  sem_step rt body s = Step s' -> step v = Step v' -> matches s' v' -> move s v.
Proof. intros. right; right; left. eauto. Qed.

Lemma move_source s v s' :
  sem_step rt body s = Step s' -> matches s' v -> mu s' < mu s -> move s v.
Proof. intros. left. eauto. Qed.

(** A dispatched operation: both machines raise, or both go on. *)
Lemma dispatch_matches {A} s v k d (f : _ -> _ -> _ -> _ -> attempt V E A) okc r failed
    (ok : A -> exec_state -> exec_state) sc lps p p' st :
  live_regs s v -> pc v = Z.of_nat p -> p < length C -> at_kont k sc lps p' ->
  ctxs_are v st -> ctx_ok sc (saved s) st ->
  (forall s1 v1, ctl s1 = failed -> saved s1 = saved s -> live_regs s1 v1 ->
     pc v1 = Z.of_nat (S p) -> ctxs_are v1 st -> matches s1 v1) ->
  (forall a s1 v1, ctl s1 = okc a -> saved s1 = saved s -> regs s1 v1 -> s_error s1 = cur_error v1 ->
     quiet v1 -> s_returned s1 = s_returned s -> pc v1 = Z.of_nat p -> ctxs_are v1 st ->
     matches (mk_sem (ctl s1) (s_world s1) (s_error s1) (saved s1) (s_terminate s1) (s_returned s1 || r))
       (advance (ok a v1))) ->
  matches (dispatched rt s k d f okc r failed) (exec_dispatch rt v d f ok).
Proof.
  intros ((Hw & Htb & Hrc) & Hce & [Ht Hcnt]) Hpc Hlt Hk Hv Hctx Hgo Hdone.
  unfold dispatched, exec_dispatch.
  pose proof Hv as (-> & _). rewrite (trycatch_matches _ _ _ Hctx).
  rewrite (at_kont_scopes _ _ _ _ _ _ _ _ Hk), Htb, Hw, Hce.
  pose proof (dispatch_counts rt Hrt (in_trycatch rt sc) d f (world v) (cur_error v)
                (terminate_batch v)) as Hc.
  destruct (dispatch_stmt_handle_error _ _ _ _ _ _ _) as [[[[w ce] ed] tb] [a| |e]].
  - pose proof (after_stmt_counts rt d ed w Hc) as Hc'.
    set (v1 := set_result v _ _ _ _ _).
    apply (Hdone a (mk_sem (okc a) (after_stmt rt d ed w) ce (saved s) tb (s_returned s)) v1); try done.
    unfold v1, regs. cbn. rewrite orb_false_r. done.
  - pose proof (after_stmt_counts rt d ed w Hc) as Hc'. apply Hgo; try done.
    + unfold live_regs, regs, quiet. cbn. rewrite orb_false_r. done.
    + cbn. rewrite Hpc. by apply pc_next.
  - eapply (matches_raise _ _ e ed k sc lps p' [] st); try done.
    unfold regs. cbn. rewrite orb_false_r. done.
Qed.

(** *** Statements *)

Lemma sim_simple s v h ty k sc lps p p' st :
  ctl s = Exec (Ssimple h ty) k -> live_regs s v ->
  pc v = Z.of_nat p -> layout sc lps (Ssimple h ty) p p' -> at_kont k sc lps p' ->
  ctxs_are v st -> ctx_ok sc (saved s) st -> move s v.
Proof.
  intros Hs Hregs Hpc [Hc ->] Hk Hv Hctx. pose proof Hregs as (_ & _ & [Ht _]).
  assert (Hlt : p < length C) by (by apply lookup_lt_Some in Hc).
  pose proof (step_at v p _ Ht Hpc Hc) as Hstep. cbn [exec_code] in Hstep.
  eapply move_both; [unfold sem_step; rewrite Hs; reflexivity|exact Hstep|].
  eapply dispatch_matches; eauto.
  - intros s1 v1 H1 Hsv Hr1 Hpc1 Hv1. eapply matches_next; eauto. by rewrite Hsv.
  - intros [] s1 v1 H1 Hsv Hr1 He1 Hq1 Hret Hpc1 Hv1.
    eapply matches_next; [done| |cbn; rewrite Hpc1; by apply pc_next|done|done|by rewrite <- Hsv in Hctx].
    regs_ok.
Qed.

Lemma sim_return s v h k sc lps p p' st :
  ctl s = Exec (Sreturn h) k -> live_regs s v ->
  pc v = Z.of_nat p -> layout sc lps (Sreturn h) p p' -> at_kont k sc lps p' ->
  ctxs_are v st -> ctx_ok sc (saved s) st -> move s v.
Proof.
  intros Hs Hregs Hpc (t & Hc & Hr & Hg & ->) Hk Hv Hctx.
  pose proof Hregs as (_ & _ & [Ht _]).
  assert (Hlt : p < length C) by (by apply lookup_lt_Some in Hc).
  assert (Ht' : t = length C) by (destruct Hg as [_ Hg]; rewrite Hend in Hg; congruence).
  pose proof (at_kont_scopes _ _ _ _ _ _ _ _ Hk) as Hsc.
  assert (Hleave : forall s1 v1, ctl s1 = Leave (length (scopes k)) k To_end ->
    saved s1 = saved s -> live_regs s1 v1 -> pc v1 = Z.of_nat (S p) -> ctxs_are v1 st ->
    matches s1 v1).
  { intros s1 v1 H1 Hsv Hr1 Hpc1 Hv1. subst sc.
    eapply (matches_leave s1 v1 _ k _ (S p) (lineno h) END_OF_PROC t st); try done.
    - by rewrite take_ge.
    - split; [done|]. by rewrite drop_ge.
    - by rewrite Hsv. }
  pose proof (step_at v p _ Ht Hpc Hc) as Hstep. cbn [exec_code] in Hstep.
  eapply move_both; [unfold sem_step; rewrite Hs; reflexivity|exact Hstep|].
  eapply dispatch_matches; eauto.
  intros [] s1 v1 H1 Hsv Hr1 He1 Hq1 Hret Hpc1 Hv1.
  apply Hleave; [done|done| |cbn; rewrite Hpc1; by apply pc_next|done].
  regs_ok.
Qed.

(** A conditional jump at [p]: fall through on true or a tolerated error, else to [t]. *)
Lemma sim_cond s v e k sc lps p p' st line l t c_true c_false :
  live_regs s v -> pc v = Z.of_nat p -> goto_at p line (Some e) l t -> t <= length C ->
  at_kont k sc lps p' -> ctxs_are v st -> ctx_ok sc (saved s) st ->
  sem_step rt body s =
    Step (dispatched rt s k D_goto (rt_eval_boolean _ _ rt e)
            (fun b => if decide (b = Some true) then c_true else c_false) false c_true) ->
  (forall s1 v1, ctl s1 = c_true -> saved s1 = saved s -> live_regs s1 v1 ->
     pc v1 = Z.of_nat (S p) -> ctxs_are v1 st -> matches s1 v1) ->
  (forall s1 v1, ctl s1 = c_false -> saved s1 = saved s -> live_regs s1 v1 ->
     pc v1 = Z.of_nat t -> ctxs_are v1 st -> matches s1 v1) ->
  move s v.
Proof.
  intros Hregs Hpc [Hc _] Htl Hk Hv Hctx Hsem Htrue Hfalse.
  pose proof Hregs as (_ & _ & [Ht _]).
  assert (Hlt : p < length C) by (by apply lookup_lt_Some in Hc).
  pose proof (step_at v p _ Ht Hpc Hc) as Hstep. cbn [exec_code] in Hstep.
  eapply move_both; [exact Hsem|exact Hstep|].
  eapply dispatch_matches; eauto.
  intros b s1 v1 H1 Hsv Hr1 He1 Hq1 Hret Hpc1 Hv1.
  assert (Hb : (b = Some true) \/ (b <> Some true)) by (destruct b as [[]|]; auto).
  destruct Hb as [-> |Hb].
  - apply Htrue; [done|done| |cbn; rewrite Hpc1; by apply pc_next|done]. regs_ok.
  - rewrite decide_False in H1 by done.
    assert (exec_stmt_goto (tgt t) b v1 = jump v1 (tgt t)) as -> by (by destruct b as [[]|]).
    apply Hfalse; [done|done| |cbn; by apply pc_jump|done]. regs_ok.
Qed.

Lemma sim_if s v h e a b k sc lps p p' st :
  ctl s = Exec (Sif h e a b) k -> live_regs s v ->
  pc v = Z.of_nat p -> layout sc lps (Sif h e a b) p p' -> at_kont k sc lps p' ->
  ctxs_are v st -> ctx_ok sc (saved s) st -> move s v.
Proof.
  intros Hs Hregs Hpc Hl Hk Hv Hctx.
  destruct (at_kont_then _ _ _ _ _ _ _ _ _ _ _ _ _ Hl Hk) as (q & Ha & Hkq).
  assert (Htrue : forall s1 v1, ctl s1 = Exec a k -> saved s1 = saved s -> live_regs s1 v1 ->
     pc v1 = Z.of_nat (S p) -> ctxs_are v1 st -> matches s1 v1).
  { intros. eapply matches_exec; eauto. congruence. }
  destruct (is_null b) eqn:Hn.
  - pose proof Hl as (q' & _ & _ & Hg). rewrite Hn in Hg. destruct Hg as [Hg ->].
    eapply (sim_cond s v e k sc lps p q' st); eauto.
    + by apply at_kont_le in Hk.
    + unfold sem_step. by rewrite Hs.
    + intros. destruct b; try done. eapply (matches_exec _ _ Snull k sc lps q' q'); eauto; [done|].
      congruence.
  - destruct (at_kont_else _ _ _ _ _ _ _ _ _ _ _ _ _ Hl Hk Hn) as (q' & Hb & Hg).
    eapply (sim_cond s v e k sc lps p p' st); eauto.
    + apply layout_le in Hb. apply at_kont_le in Hk. lia.
    + unfold sem_step. by rewrite Hs.
    + intros. eapply matches_exec; eauto. congruence.
Qed.

Lemma sim_while s v h e ss k sc lps p p' st :
  ctl s = Exec (Swhile h e ss) k -> live_regs s v ->
  pc v = Z.of_nat p -> layout sc lps (Swhile h e ss) p p' -> at_kont k sc lps p' ->
  ctxs_are v st -> ctx_ok sc (saved s) st -> move s v.
Proof.
  intros Hs Hregs Hpc Hl Hk Hv Hctx.
  destruct (at_kont_body _ _ _ _ _ _ _ _ _ _ _ _ Hl Hk) as (q & Hss & Hkq).
  pose proof Hl as (q' & Hg & _). pose proof (at_kont_le _ _ _ _ _ _ _ _ Hk) as Hle.
  eapply (sim_cond s v e k sc lps p p' st); eauto.
  - unfold sem_step. by rewrite Hs.
  - intros. eapply matches_next; eauto; [by eapply at_seq|congruence].
  - intros. eapply matches_next; eauto. congruence.
Qed.

Lemma sim_exit s v h b k sc lps p p' st :
  ctl s = Exec (Sexit h b) k -> live_regs s v ->
  pc v = Z.of_nat p -> layout sc lps (Sexit h b) p p' -> at_kont k sc lps p' ->
  ctxs_are v st -> ctx_ok sc (saved s) st -> move s v.
Proof.
  intros Hs Hregs Hpc (hw & scw & lps' & fl & t & -> & Hfl & Hr & Hg & ->) Hk Hv Hctx.
  destruct (at_kont_loop _ _ _ _ _ _ _ _ _ _ Hk)
    as (fl' & cond & ss & k' & lb & le & Hfl' & Hloop & Hlay & Hk' & Hlb & Hle).
  assert (fl' = fl) as -> by (rewrite Hfl in Hfl'; by apply app_inv_tail in Hfl').
  pose proof (at_kont_scopes _ _ _ _ _ _ _ _ Hk) as Hsc.
  eapply move_source with (s' := mk_sem (Leave (length fl) k (if b then To_next k' else To_loop hw cond ss k'))
    (s_world s) (s_error s) (saved s) (s_terminate s) (s_returned s)).
  - unfold sem_step. rewrite Hs. cbn [exec_stmt]. by rewrite Hloop.
  - eapply (matches_leave _ _ _ k _ p (lineno h) _ t st); [done|done|done| | |exact Hg| |done|].
    + rewrite Hsc, Hfl, length_app. lia.
    + by rewrite Hsc, Hfl, take_app_length.
    + rewrite Hsc, Hfl, drop_app_length. destruct Hg as [_ Hg].
      destruct b; cbn.
      * assert (t = le) as -> by congruence. eauto.
      * assert (t = lb) as -> by congruence. eauto.
    + by rewrite Hsc.
  - unfold mu. rewrite Hs. cbn. lia.
Qed.

Lemma sim_goto s v h l k sc lps p p' st :
  ctl s = Exec (Sgoto h l) k -> live_regs s v ->
  pc v = Z.of_nat p -> layout sc lps (Sgoto h l) p p' -> at_kont k sc lps p' ->
  ctxs_are v st -> ctx_ok sc (saved s) st -> move s v.
Proof.
  intros Hs Hregs Hpc (fl & scd & t & Hscope & Hfl & Hr & Hg & ->) Hk Hv Hctx.
  assert (Hin : label_key l ∈ flat_map user_labels body).
  { apply Hlabels. unfold label_scope in Hscope.
    destruct (label_stmt_map c !! label_key l); [eauto|done]. }
  destruct (find_label_some l (Sblock (Build_hdr 0 0) body) Kstop Hin) as [k' Hf].
  rewrite find_label_block in Hf.
  destruct (find_label_list_at c line_of LI C l body Kstop [] [] 0 (length C) k' Hbody
              (at_stop _ _ _ _) Hf) as (scd' & lpsd & td & Htd & Hscd & Hkd).
  assert (scd' = scd) as -> by congruence. assert (td = t) as -> by (destruct Hg; congruence).
  pose proof (at_kont_scopes _ _ _ _ _ _ _ _ Hk) as Hsc.
  pose proof (at_kont_scopes _ _ _ _ _ _ _ _ Hkd) as Hscd'.
  assert (Hn : length (scopes k) - length (scopes k') = length fl)
    by (rewrite Hsc, Hscd', Hfl, length_app; lia).
  eapply move_source with (s' := mk_sem (Leave (length fl) k (To_next k'))
    (s_world s) (s_error s) (saved s) (s_terminate s) (s_returned s)).
  - unfold sem_step. rewrite Hs. cbn [exec_stmt]. by rewrite Hf, Hn.
  - eapply (matches_leave _ _ _ k _ p (lineno h) _ t st); [done|done|done| | |exact Hg| |done|].
    + rewrite Hsc, Hfl, length_app. lia.
    + by rewrite Hsc, Hfl, take_app_length.
    + rewrite Hsc, Hfl, drop_app_length. cbn. eauto.
    + by rewrite Hsc.
  - unfold mu. rewrite Hs. cbn. lia.
Qed.

Lemma sim_try s v h a b k sc lps p p' st :
  ctl s = Exec (Stry_catch h a b) k -> live_regs s v ->
  pc v = Z.of_nat p -> layout sc lps (Stry_catch h a b) p p' -> at_kont k sc lps p' ->
  ctxs_are v st -> ctx_ok sc (saved s) st -> move s v.
Proof.
  intros Hs Hregs Hpc Hl Hk Hv Hctx. pose proof Hregs as ((Hw & Htb & Hrc) & Hce & Ht).
  pose proof Hl as (q0 & r0 & Hln & Hc & Hcb & Ha0 & _).
  destruct (at_kont_try _ _ _ _ _ _ _ _ _ _ _ _ Hl Hk) as (q & r & Ha & Hka & Hb & Hkb).
  assert (Hlt : p < length C) by (by apply lookup_lt_Some in Hc).
  pose proof (step_at v p _ (proj1 Ht) Hpc Hc) as Hstep. cbn [exec_code] in Hstep.
  eapply move_both; [unfold sem_step; rewrite Hs; reflexivity|exact Hstep|].
  destruct Hv as (Hst & Hexc & Hidx).
  eapply (matches_exec _ _ a _ (try_half h :: sc) lps (S p) q
            (mk_errctx (next_buf v) (exception_stack v) (tgt (S (S q0))) (cur_error v) false :: st));
    [done|regs_ok|cbn; rewrite Hpc; by apply pc_next|done|done| |].
  - split_and!.
    + cbn. by rewrite Hst, reverse_cons.
    + done.
    + intros i ctx [= <- <-]. cbn. by rewrite Hst, length_reverse.
  - cbn. split_and!; [done|congruence| |done].
    intros _. split; [done|]. exists (S (S q0)). by rewrite Hln.
Qed.

Lemma sim_seq s v ss x k sc lps p p' st :
  ctl s = Exec x k -> (exists h, x = Sblock h ss \/ x = Sinit h ss) -> live_regs s v ->
  pc v = Z.of_nat p -> layout sc lps x p p' -> at_kont k sc lps p' ->
  ctxs_are v st -> ctx_ok sc (saved s) st -> move s v.
Proof.
  intros Hs Hx Hregs Hpc Hl Hk Hv Hctx.
  eapply move_source with (s' := mk_sem (Next (Kseq ss k)) (s_world s) (s_error s) (saved s)
    (s_terminate s) (s_returned s)).
  - unfold sem_step. rewrite Hs. by destruct Hx as [h [-> | ->]].
  - eapply matches_next; eauto. eapply at_seq; [|exact Hk]. by destruct Hx as [h [-> | ->]].
  - assert (Hwt : weight x = 2 + weights ss) by (by destruct Hx as [h [-> | ->]]).
    unfold mu. rewrite Hs. cbn [ctl kont_weight]. lia.
Qed.

Lemma sim_skip s v x k sc lps p p' st :
  ctl s = Exec x k -> (x = Snull \/ exists h l, x = Slabel h l) -> live_regs s v ->
  pc v = Z.of_nat p -> layout sc lps x p p' -> at_kont k sc lps p' ->
  ctxs_are v st -> ctx_ok sc (saved s) st -> move s v.
Proof.
  intros Hs Hx Hregs Hpc Hl Hk Hv Hctx.
  assert (p' = p) as -> by (destruct Hx as [-> |(h & l & ->)]; [done | apply Hl]).
  eapply move_source with (s' := mk_sem (Next k) (s_world s) (s_error s) (saved s)
    (s_terminate s) (s_returned s)).
  - unfold sem_step. rewrite Hs. by destruct Hx as [-> |(h & l & ->)].
  - eapply matches_next; eauto.
  - unfold mu. rewrite Hs. destruct Hx as [-> |(h & l & ->)]; cbn; lia.
Qed.

Lemma sim_exec s v x k :
  ctl s = Exec x k -> matches s v -> move s v.
Proof.
  intros Hs HM. unfold matches in HM. rewrite Hs in HM.
  destruct HM as (Hw & Htb & Hrc & Hce & Ht & sc & lps & p & p' & st & Hpc & Hl & Hk & Hv & Hctx).
  assert (Hregs : live_regs s v) by (by split_and!).
  destruct x.
  - eapply sim_skip; eauto.
  - eapply sim_seq; eauto.
  - eapply sim_if; eauto.
  - eapply sim_while; eauto.
  - eapply sim_exit; eauto.
  - eapply sim_return; eauto.
  - eapply sim_goto; eauto.
  - eapply sim_skip; eauto.
  - eapply sim_try; eauto.
  - eapply sim_seq; eauto.
  - eapply sim_simple; eauto.
Qed.

(** *** Leaving TRY/CATCH halves *)

Lemma ctx_ok_cons info sc sv st :
  ctx_ok (info :: sc) sv st ->
  exists ce sv' ctx st', sv = ce :: sv' /\ st = ctx :: st' /\
    partial_restored ctx = negb (in_try_block info) /\ save_cur_error ctx = ce /\
    (in_try_block info = true ->
       save_exception_stack ctx = active_buf st' /\
       exists t, LI !! GEN CATCH_BEGIN (line_of (tc_stmt info)) (tc_stmt info) = Some t /\
         target_pc ctx = tgt t) /\
    ctx_ok sc sv' st'.
Proof.
  destruct sv as [|ce sv'], st as [|ctx st']; cbn; try done. intros. by exists ce, sv', ctx, st'.
Qed.

(** The restore code of a half, in both machines. *)
Lemma restore_half v info sc sv st p line :
  ctx_ok (info :: sc) sv st -> ctxs_are v st -> throwing v = None -> pc v = Z.of_nat p ->
  C !! p = Some (restore_code line info) ->
  exists v', step v = Step v' /\ pc v' = Z.of_nat (S p) /\ world v' = world v /\
    rc_return v' = rc_return v /\ terminate_batch v' = terminate_batch v /\ throwing v' = None /\
    cur_error v' = (if in_try_block info then cur_error v else default (cur_error v) (head sv)) /\
    ctxs_are v' (tail st) /\ ctx_ok sc (tail sv) (tail st).
Proof.
  intros (ce & sv' & ctx & st' & -> & -> & Hp & Hsv & Htry & Hok)%ctx_ok_cons Hv Ht Hpc Hc.
  assert (Hlt : p < length C) by (by apply lookup_lt_Some in Hc).
  rewrite (step_at v p _ Ht Hpc Hc). unfold restore_code.
  destruct (in_try_block info) eqn:Hin; cbn [exec_code].
  - destruct (Htry eq_refl) as [Hexc _].
    destruct (restore_ctx_full_spec v ctx st' Hv Hp Hexc) as (v' & -> & Hv' & R & Hce).
    destruct R as (Rpc & Rrc & Rw & Rtb & Rt). exists (advance v'). cbn.
    split_and!; try done; try congruence. rewrite Rpc, Hpc. by apply pc_next.
  - destruct (restore_ctx_partial2_spec v ctx st' Hv Hp) as (v' & -> & Hv' & R & Hce).
    destruct R as (Rpc & Rrc & Rw & Rtb & Rt). exists (advance v'). cbn.
    split_and!; try done; try congruence. rewrite Rpc, Hpc. by apply pc_next.
Qed.

Lemma set_result_id (v : exec_state (V := V) (E := E)) :
  throwing v = None ->
  set_result v (world v) (cur_error v) (terminate_batch v) None false = v.
Proof. destruct v. cbn. intros ->. unfold set_result. cbn. by rewrite orb_false_r. Qed.

Lemma step_goto v p line l t :
  quiet v -> pc v = Z.of_nat p -> goto_at p line None l t -> t <= length C ->
  step v = Step (advance (jump v (tgt t))) /\ pc (advance (jump v (tgt t))) = Z.of_nat t.
Proof.
  intros [Ht Hcnt] Hpc [Hc _] Hle. split; [|cbn; by apply pc_jump].
  rewrite (step_at v p _ Ht Hpc Hc). cbn [exec_code]. unfold exec_dispatch.
  rewrite (goto_neutral rt Hrt) by (eauto || done).
  unfold after_stmt. cbn [is_control_command negb]. rewrite andb_false_r. cbn [andb].
  by rewrite (set_result_id v Ht).
Qed.

Lemma sim_next s v k : ctl s = Next k -> matches s v -> move s v.
Proof.
  intros Hs HM. unfold matches in HM. rewrite Hs in HM.
  destruct HM as (Hw & Htb & Hrc & Hce & Ht & sc & lps & p & st & Hpc & Hk & Hv & Hctx).
  assert (Hregs : live_regs s v) by (by split_and!).
  destruct Hk as [|ss k sc lps p p' Hl Hk|h cond ss k sc lps p b e Hg Hl Hk
                 |h handler k sc lps p r Hln Hp Hg Hc Hh Hr Hk|h k sc lps p Hp Hk
                 |k sc lps p line l t Hg Hlt Hk].
  - right; right; right. exists (Returned (rc_return v) (world v)).
    unfold sem_step. rewrite Hs. cbn. rewrite Hw, Hrc. split; [done|].
    unfold exec_step. by rewrite (proj1 Ht), Hpc, Z.ltb_irrefl.
  - destruct ss as [|x ss].
    + cbn in Hl. subst p'.
      eapply move_source; [unfold sem_step; rewrite Hs; reflexivity| |unfold mu; rewrite Hs; cbn; lia].
      eapply matches_next; eauto.
    + destruct Hl as (q & Hx & Hl).
      assert (Hwt : weights (x :: ss) = 1 + weight x + weights ss) by done.
      eapply move_source; [unfold sem_step; rewrite Hs; reflexivity|
                          |unfold mu; rewrite Hs; cbn [ctl kont_weight]; lia].
      eapply matches_exec; eauto. by eapply at_seq.
  - pose proof (layout_le _ _ _ _ _ _ _ _ _ Hl) as Hle1.
    pose proof (at_kont_le _ _ _ _ _ _ _ _ Hk) as Hle2.
    destruct (step_goto v p _ _ b Ht Hpc Hg) as [Hstep Hpc']; [lia|].
    eapply move_both; [unfold sem_step; rewrite Hs; reflexivity|exact Hstep|].
    eapply matches_exec; eauto.
  - destruct (restore_half v (try_half h) sc (saved s) st p (lineno h) Hctx Hv (proj1 Ht) Hpc Hp)
      as (v' & Hstep & Hpc' & Rw & Rrc & Rtb & Rt & Rce & Hv' & Hctx').
    cbn [in_try_block try_half] in Rce.
    eapply move_both; [unfold sem_step; rewrite Hs; reflexivity|exact Hstep|].
    eapply (matches_next _ _ k sc lps (S p)); [done|regs_ok|done| |done|done].
    apply layout_le in Hh. eapply at_jump; [exact Hg|lia|done].
  - destruct (restore_half v (catch_half h) sc (saved s) st p (lineno h) Hctx Hv (proj1 Ht) Hpc Hp)
      as (v' & Hstep & Hpc' & Rw & Rrc & Rtb & Rt & Rce & Hv' & Hctx').
    cbn [in_try_block catch_half] in Rce.
    eapply move_both; [unfold sem_step; rewrite Hs; reflexivity|exact Hstep|].
    eapply (matches_next _ _ k sc lps (S p)); [done|regs_ok|done..].
  - pose proof (at_kont_le _ _ _ _ _ _ _ _ Hk) as Hle.
    destruct (step_goto v p _ _ t Ht Hpc Hg Hle) as [Hstep Hpc'].
    right; left. eexists. split; [exact Hstep|]. split; [by eapply matches_next; eauto|].
    unfold nu. rewrite Hpc', Hpc, !Nat2Z.id. lia.
Qed.

Lemma dest_at_le dest sc t : dest_at dest sc t -> t <= length C.
Proof.
  destruct dest as [k|h cond ss k|]; cbn [dest_at].
  - intros [lps ?%at_kont_le]. done.
  - intros (lps & e & ?%layout_le & ?%at_kont_le). lia.
  - intros [-> _]. done.
Qed.

Lemma restores_at_tail line info fl p :
  restores_at C p line (info :: fl) ->
  C !! p = Some (restore_code line info) /\ restores_at C (S p) line fl.
Proof.
  intros H. split.
  - specialize (H 0 info eq_refl). by rewrite Nat.add_0_r in H.
  - intros i x Hi. specialize (H (S i) x Hi). by rewrite Nat.add_succ_r in H.
Qed.

Lemma sim_leave s v n k dest : ctl s = Leave n k dest -> matches s v -> move s v.
Proof.
  intros Hs HM. unfold matches in HM. rewrite Hs in HM.
  destruct HM as (Hw & Htb & Hrc & Hce & Ht & p & line & l & t & st & Hpc & Hn & Hr & Hg & Hd & Hv & Hctx).
  assert (Hregs : live_regs s v) by (by split_and!).
  destruct n as [|n].
  - rewrite Nat.add_0_r in Hg. cbn in Hd. rewrite drop_0 in Hd.
    destruct (step_goto v p _ _ t Ht Hpc Hg (dest_at_le _ _ _ Hd)) as [Hstep Hpc'].
    destruct dest as [kd|h cond ss kd|].
    + destruct Hd as [lps Hd].
      eapply move_both; [unfold sem_step; rewrite Hs; reflexivity|exact Hstep|].
      eapply matches_next; eauto.
    + destruct Hd as (lps & e & Hl & Hd).
      eapply move_both; [unfold sem_step; rewrite Hs; reflexivity|exact Hstep|].
      eapply matches_exec; eauto.
    + destruct Hd as [-> Hsc]. rewrite Hsc in Hctx.
      eapply move_both; [unfold sem_step; rewrite Hs; reflexivity|exact Hstep|].
      eapply matches_next; eauto. apply at_stop.
  - destruct k as [|ss k|h cond ss k|h handler k|h k].
    + cbn in Hn. lia.
    + eapply move_source; [unfold sem_step; rewrite Hs; reflexivity| |unfold mu; rewrite Hs; cbn; lia].
      eapply matches_leave; eauto.
    + eapply move_source; [unfold sem_step; rewrite Hs; reflexivity| |unfold mu; rewrite Hs; cbn; lia].
      eapply matches_leave; eauto.
    + cbn in Hr, Hd, Hctx, Hn. apply restores_at_tail in Hr as [Hp Hr].
      destruct (restore_half v (try_half h) _ (saved s) st p line Hctx Hv (proj1 Ht) Hpc Hp)
        as (v' & Hstep & Hpc' & Rw & Rrc & Rtb & Rt & Rce & Hv' & Hctx').
      cbn [in_try_block try_half] in Rce.
      eapply move_both; [unfold sem_step; rewrite Hs; reflexivity|exact Hstep|].
      eapply (matches_leave _ _ n k dest (S p) line l t); [done|regs_ok|done|lia|done| |done|done|done].
      by rewrite Nat.add_succ_comm.
    + cbn in Hr, Hd, Hctx, Hn. apply restores_at_tail in Hr as [Hp Hr].
      destruct (restore_half v (catch_half h) _ (saved s) st p line Hctx Hv (proj1 Ht) Hpc Hp)
        as (v' & Hstep & Hpc' & Rw & Rrc & Rtb & Rt & Rce & Hv' & Hctx').
      cbn [in_try_block catch_half] in Rce.
      eapply move_both; [unfold sem_step; rewrite Hs; reflexivity|exact Hstep|].
      eapply (matches_leave _ _ n k dest (S p) line l t); [done|regs_ok|done|lia|done| |done|done|done].
      by rewrite Nat.add_succ_comm.
Qed.

(** *** Raising *)

(** What encloses a position, whatever jumps are in between. *)
Lemma at_kont_inv k0 sc lps p :
  at_kont k0 sc lps p ->
  match k0 with
  | Kstop => sc = []
  | Kseq _ k | Kloop _ _ _ k => exists lps' p', at_kont k sc lps' p'
  | Kcatch h k => exists sc' lps' p', sc = catch_half h :: sc' /\ at_kont k sc' lps' p'
  | Ktry h handler k =>
      exists sc' q r, sc = try_half h :: sc' /\ line_of (addr h) = lineno h /\
        LI !! GEN CATCH_BEGIN (lineno h) (addr h) = Some (S (S q)) /\
        layout (catch_half h :: sc') lps handler (S (S q)) r /\
        at_kont (Kcatch h k) (catch_half h :: sc') lps r
  end.
Proof.
  induction 1 as [|ss k sc lps p p' Hl Hk _|h cond ss k sc lps p b e Hg Hl Hk _
                 |h handler k sc lps p r Hln Hp Hg Hc Hh Hr Hk _|h k sc lps p Hp Hk _
                 |k sc lps p line l t Hg Hlt Hk IH]; eauto.
  exists sc, p, r. split_and!; try done. by apply at_catch.
Qed.

Lemma sim_raise_kept s v e ed k k' :
  ctl s = Raise e ed k -> matches s v ->
  sem_step rt body s = Step (mk_sem (Raise e ed k') (s_world s) (s_error s) (saved s)
                               (s_terminate s) (s_returned s)) ->
  (forall sc lps p, at_kont k sc lps p -> exists lps' p', at_kont k' sc lps' p') ->
  kont_weight k' < kont_weight k -> move s v.
Proof.
  intros Hs HM Hsem Hk' Hlt. unfold matches in HM. rewrite Hs in HM.
  destruct HM as (Hw & Htb & Hrc & Ht & sc & lps & p & d & st & Hk & Hv & Hd & Hctx).
  destruct (Hk' _ _ _ Hk) as (lps' & p' & Hkk).
  eapply move_source; [exact Hsem| |unfold mu; rewrite Hs; cbn; lia].
  eapply matches_raise; eauto. regs_ok.
Qed.

Lemma sim_raise_try s v e ed h handler k :
  ctl s = Raise e ed (Ktry h handler k) -> matches s v -> move s v.
Proof.
  intros Hs HM. unfold matches in HM. rewrite Hs in HM.
  destruct HM as (Hw & Htb & Hrc & Ht & sc & lps & p & d & st & Hk & Hv & Hd & Hctx).
  apply at_kont_inv in Hk as (sc' & q & r & -> & Hln & Hcb & Hh & Hk).
  pose proof Hctx as (ce & sv' & ctx & st' & Hsv & -> & Hp & Hce & Htry & Hok)%ctx_ok_cons.
  destruct (Htry eq_refl) as (Hexc & t & Hcb' & Htgt). cbn [tc_stmt try_half] in Hcb'.
  rewrite Hln, Hcb in Hcb'. injection Hcb' as <-.
  assert (Hle : S (S q) <= length C)
    by (apply layout_le in Hh; apply at_kont_le in Hk; lia).
  destruct (catch_error_spec rt v d ctx st' e ed Hv Hd Hp Hexc Ht)
    as (v' & Ecatch & Hv' & Rce & Rtb & Rrc & Hign).
  assert (Hstep : step v = Step v').
  { unfold exec_step. rewrite Ht. destruct Hv as (Hst & Hex & _). rewrite Hex.
    assert (Hb : active_buf (d ++ ctx :: st') = Some (local_sigjmp_buf ctx)).
    { unfold active_buf. rewrite active_partial_app by done. cbn. by rewrite Hp. }
    rewrite Hb. rewrite decide_True; [by rewrite Ecatch|].
    rewrite Hst. by apply active_buf_live. }
  assert (Hctx' : ctx_ok (catch_half h :: sc') (saved s) (mark ctx :: st'))
    by (rewrite Hsv; cbn; by split_and!).
  destruct (ignore_catch rt (world v) ed e (terminate_batch v)) eqn:Hi.
  - eapply move_both; [unfold sem_step; rewrite Hs; cbn [raise_step]; rewrite Hw, Htb, Hi; reflexivity
                      |exact Hstep|].
    destruct Hign as [Rt Rw].
    eapply (matches_raise _ _ e ed _ (catch_half h :: sc') lps r [] (mark ctx :: st')); try done.
    regs_ok.
  - eapply move_both; [unfold sem_step; rewrite Hs; cbn [raise_step]; rewrite Hw, Htb, Hi; reflexivity
                      |exact Hstep|].
    destruct Hign as (Rt & Rw & Rpc). rewrite Htgt, pc_jump in Rpc by done.
    assert (quiet v') by (split; [done|rewrite Rw; by apply catch_tail_counts]).
    eapply (matches_exec _ _ handler _ (catch_half h :: sc') lps); try done. regs_ok.
Qed.

Lemma sim_raise s v e ed k : ctl s = Raise e ed k -> matches s v -> move s v.
Proof.
  intros Hs HM. destruct k as [|ss k|h cond ss k|h handler k|h k].
  - unfold matches in HM. rewrite Hs in HM.
    destruct HM as (Hw & Htb & Hrc & Ht & sc & lps & p & d & st & Hk & Hv & Hd & Hctx).
    apply at_kont_inv in Hk as ->. cbn in Hctx.
    destruct (saved s), st; try done. destruct Hv as (_ & Hexc & _).
    unfold active_buf in Hexc. rewrite active_partial_app in Hexc by done. cbn in Hexc.
    right; right; right. exists (Failed e ed (world v)). unfold sem_step. rewrite Hs. cbn.
    rewrite Hw. split; [done|]. unfold exec_step. by rewrite Ht, Hexc.
  - eapply sim_raise_kept; [done|done|unfold sem_step; by rewrite Hs| |cbn; lia].
    intros sc lps p Hk. by apply at_kont_inv in Hk.
  - eapply sim_raise_kept; [done|done|unfold sem_step; by rewrite Hs| |cbn; lia].
    intros sc lps p Hk. by apply at_kont_inv in Hk.
  - by eapply sim_raise_try.
  - unfold matches in HM. rewrite Hs in HM.
    destruct HM as (Hw & Htb & Hrc & Ht & sc & lps & p & d & st & Hk & Hv & Hd & Hctx).
    apply at_kont_inv in Hk as (sc' & lps' & p' & -> & Hk).
    apply ctx_ok_cons in Hctx as (ce & sv' & ctx & st' & Hsv & -> & Hp & Hce & _ & Hok).
    eapply move_source; [unfold sem_step; rewrite Hs; reflexivity| |unfold mu; rewrite Hs; cbn; lia].
    eapply (matches_raise _ _ e ed k sc' lps' p' (d ++ [ctx]) st'); try done.
    + by rewrite <- app_assoc.
    + apply Forall_app. split; [done|]. by constructor.
    + cbn. by rewrite Hsv.
Qed.

Lemma matches_move s v : matches s v -> move s v.
Proof.
  intros HM. destruct (ctl s) eqn:Hs;
    [eapply sim_exec|eapply sim_next|eapply sim_leave|eapply sim_raise]; eauto.
Qed.

Lemma init_matches w ce : counts_ok w -> matches (sem_init body w ce) (exec_init w ce).
Proof.
  intros Hw. eapply (matches_next _ _ _ [] [] 0 []); try done.
  eapply at_seq; [exact Hbody|]. apply at_stop.
Qed.
End matching.
