(* ===== verification/ExecTheorems.v ===== *)
(** * ExecTheorems: what analysis, code generation and execution guarantee

    The properties of the compiler and executor for analyzed programs, and
    concrete programs that exercise them. *)
From stdpp Require Import base list numbers strings gmap.
From S2P Require Import Prelude PltsqlAst Analyzer Codegen CodegenProofs Dispatch DispatchTheorems.
From S2P Require Import DispatchTheorems IterExec TsqlSemantics ExecCorrect ExecMatch.

#[local] Arguments reverse : simpl never.

(** A position at the end of the code is outside all TRY/CATCH blocks. *)
Lemma at_kont_end c line_of LI C k sc lps p :
  at_kont c line_of LI C k sc lps p -> p = length C -> sc = [].
Proof.
  induction 1 as [|ss k sc lps p p' Hl Hk IH|h cond ss k sc lps p b e [Hg _]
                 |h handler k sc lps p r Hln Hp|h k sc lps p Hp|k sc lps p line l t [Hg _]];
    intros Heq; try done.
  - apply IH. apply layouts_le in Hl. apply at_kont_le in Hk. lia.
  - apply lookup_lt_Some in Hg. lia.
  - apply lookup_lt_Some in Hp. lia.
  - apply lookup_lt_Some in Hp. lia.
  - apply lookup_lt_Some in Hg. lia.
Qed.

Section compiled.
Context {V E : Type} (rt : runtime V E).
Hypothesis Hrt : runtime_ok rt.
Variables (h : hdr) (body : list stmt) (c : CompileContext) (C : list code).
Hypothesis Hnd : NoDup (addrs (Sblock h body)).
Hypothesis Ha : analyze (Sblock h body) create_compile_context = Ok c.
Hypothesis Hgen : gen_exec_code c (Sblock h body) = Ok C.
Hypothesis Hsize : (Z.of_nat (length C) <= INT32_MAX)%Z.

(** The executor on generated code and the semantics, related from the start. *)
Lemma compiled_simulation w ce :
  counts_ok w ->
  exists M : sem_state (V := V) (E := E) -> exec_state (V := V) (E := E) -> Prop,
    M (sem_init body w ce) (exec_init w ce) /\
    (forall s v, M s v ->
       related_move (sem_step rt body) (exec_step rt C) M mu (nu C) s v) /\
    (forall s v, M s v -> exists d st, ctxs_are v (d ++ st) /\
       Forall (fun ctx => partial_restored ctx = true) d /\
       (throwing v = None -> (Z.of_nat (length C) <= pc v)%Z -> d ++ st = [])).
Proof.
  intros Hcnt. destruct (gen_exec_code_layout h body c Hnd Ha) as (line_of & LI & C' & Hgen' & _ & Hend & Hlay).
  assert (C' = C) as -> by congruence.
  destruct (analyze_scoped c h body Hnd Ha) as (_ & _ & Hdom).
  exists (matches c line_of LI C). split_and!.
  - by apply init_matches.
  - intros s v HM. by eapply matches_move.
  - intros s v (_ & _ & _ & HM). destruct (ctl s) as [x k|k|n k dest|e ed k].
    + destruct HM as (_ & _ & sc & lps & p & p' & st & Hpc & Hx & Hk & Hv & Hctx).
      exists [], st. split_and!; [done|constructor|]. intros _ Hle. rewrite Hpc in Hle. cbn.
      apply layout_le in Hx. pose proof (at_kont_le _ _ _ _ _ _ _ _ Hk) as Hkl.
      rewrite (at_kont_end _ _ _ _ _ _ _ _ Hk) in Hctx by lia.
      by destruct (saved s), st.
    + destruct HM as (_ & _ & sc & lps & p & st & Hpc & Hk & Hv & Hctx).
      exists [], st. split_and!; [done|constructor|]. intros _ Hle. rewrite Hpc in Hle. cbn.
      pose proof (at_kont_le _ _ _ _ _ _ _ _ Hk) as Hkl.
      rewrite (at_kont_end _ _ _ _ _ _ _ _ Hk) in Hctx by lia.
      by destruct (saved s), st.
    + destruct HM as (_ & _ & p & line & l & t & st & Hpc & _ & _ & [Hg _] & _ & Hv & Hctx).
      exists [], st. split_and!; [done|constructor|]. intros _ Hle. rewrite Hpc in Hle.
      apply lookup_lt_Some in Hg. lia.
    + destruct HM as (Ht & sc & lps & p & d & st & Hk & Hv & Hd & Hctx).
      exists d, st. split_and!; [done|done|]. congruence.
Qed.
End compiled.

(** ** Properties *)

(** C22: Every program that passes the analysis compiles: code generation meets
    no missing scope, loop or label, and every jump and every error context of
    the generated code leads to a code of the program or to its end. *)
Theorem analyzed_program_compiles h body c :
  NoDup (addrs (Sblock h body)) -> analyze (Sblock h body) create_compile_context = Ok c ->
  exists C, gen_exec_code c (Sblock h body) = Ok C /\ Forall (target_in C) C.
Proof.
  intros Hnd Ha. destruct (gen_exec_code_layout h body c Hnd Ha) as (? & ? & C & ? & ? & _). eauto.
Qed.

(** C1: Compiler correctness: the executor running the generated code and the
    structured semantics of the statement tree have the same outcomes: the same
    final session state, return code and escaping error, and one terminates exactly
    when the other does.  The loop is entered outside of server procedures and system
    functions, an empty internal savepoint leaves no trace, and the program has fewer
    than 2^31 codes. *)
Theorem exec_equivalence {V E} (rt : runtime V E) h body c C w ce o :
  runtime_ok rt -> counts_ok w ->
  NoDup (addrs (Sblock h body)) -> analyze (Sblock h body) create_compile_context = Ok c ->
  gen_exec_code c (Sblock h body) = Ok C -> (Z.of_nat (length C) <= INT32_MAX)%Z ->
  (exists n, run (sem_step rt body) n (sem_init body w ce) = Halt o) <->
  (exists m, exec_stmt_iterative rt C m w ce = Halt o).
Proof.
  intros Hrt Hw Hnd Ha Hgen Hsize.
  destruct (compiled_simulation rt Hrt h body c C Hnd Ha Hgen Hsize w ce Hw) as (M & Hinit & Hsim & _).
  split.
  - intros [n Hn]. by eapply run_forward.
  - intros [m Hm]. pose proof (run_backward _ _ _ _ _ Hsim m _ _ Hinit) as Hb.
    unfold exec_stmt_iterative in Hm. by rewrite Hm in Hb.
Qed.

(** C16: Executing the code of an analyzed program never reads outside the error
    context stack, dereferences a missing context or jumps to a released buffer;
    whenever a TRY is active, [PG_exception_stack] is the buffer of the live
    context at [cur_err_ctx_idx], otherwise no context is active; and a run that
    reaches the end has no context left. *)
Theorem exec_exception_stack_safe {V E} (rt : runtime V E) h body c C w ce fuel :
  runtime_ok rt -> counts_ok w ->
  NoDup (addrs (Sblock h body)) -> analyze (Sblock h body) create_compile_context = Ok c ->
  gen_exec_code c (Sblock h body) = Ok C -> (Z.of_nat (length C) <= INT32_MAX)%Z ->
  match exec_stmt_iterative rt C fuel w ce with
  | Undefined => False
  | Halt _ => True
  | Step v =>
      match exception_stack v with
      | Some buf => exists ctx, err_ctx_stack v !! cur_err_ctx_idx v = Some ctx /\
                      local_sigjmp_buf ctx = buf /\ partial_restored ctx = false
      | None => Forall (fun ctx => partial_restored ctx = true) (err_ctx_stack v)
      end /\
      (throwing v = None -> (Z.of_nat (length C) <= pc v)%Z ->
         err_ctx_stack v = [] /\ exception_stack v = None)
  end.
Proof.
  intros Hrt Hw Hnd Ha Hgen Hsize.
  destruct (compiled_simulation rt Hrt h body c C Hnd Ha Hgen Hsize w ce Hw) as (M & Hinit & Hsim & Hctx).
  pose proof (run_backward _ _ _ _ _ Hsim fuel _ _ Hinit) as Hb.
  unfold exec_stmt_iterative. destruct (run (exec_step rt C) fuel (exec_init w ce)) as [v| |]; try done.
  destruct Hb as (n & s & _ & HM). destruct (Hctx s v HM) as (d & st & Hv & _ & Hfin).
  split; [by eapply ctxs_exception_stack|].
  intros Ht Hp. specialize (Hfin Ht Hp). rewrite Hfin in Hv. by destruct Hv as (-> & -> & _).
Qed.

(** The analysis records scopes faithfully: in the compile context of an
    analyzed program every GOTO, label, loop, BREAK, CONTINUE and RETURN has
    exactly the TRY/CATCH halves and loops that enclose it in the tree, no BREAK
    or CONTINUE is outside a loop, and every GOTO has a unique label that lies
    only in blocks enclosing the GOTO as well. *)
Theorem analyze_records_scopes h body c :
  NoDup (addrs (Sblock h body)) -> analyze (Sblock h body) create_compile_context = Ok c ->
  every (scoped c [] []) body /\ NoDup (flat_map user_labels body) /\
  forall g l, check_goto c (g, l) = Ok tt ->
    exists label src dest,
      label_stmt_map c !! label_key l = Some label /\
      stmt_scope_context c !! addr g = Some src /\ stmt_scope_context c !! addr label = Some dest /\
      nesting_trycatch_infos dest `prefix_of` nesting_trycatch_infos src /\
      nesting_loops dest `prefix_of` nesting_loops src.
Proof.
  intros Hnd Ha. destruct (analyze_scoped c h body Hnd Ha) as (? & ? & _).
  split_and!; [done|done|]. intros g l. apply check_goto_ok.
Qed.

(** ** Concrete programs *)

Definition at_line (a : nat) : hdr := {| addr := a; lineno := Z.of_nat a |}.
Definition simple (a : nat) : stmt := Ssimple (at_line a) ST_EXECSQL.

Definition context_of (body : list stmt) : CompileContext :=
  match analyze (Sblock (at_line 0) body) create_compile_context with
  | Ok c => c
  | Err _ => create_compile_context
  end.
Definition code_of (body : list stmt) : list code :=
  match gen_exec_code (context_of body) (Sblock (at_line 0) body) with
  | Ok C => C
  | Err _ => []
  end.

(** WHILE log is short: TRY { fail; } CATCH { IF done BREAK; GOTO out } ...; out: RETURN *)
Definition loop_program : list stmt :=
  [ Swhile (at_line 1) 0
      [ simple 2;
        Stry_catch (at_line 3)
          (Sblock (at_line 4) [simple 5; simple 6])
          (Sif (at_line 7) 1 (Sexit (at_line 8) true) (Sexit (at_line 9) false));
        simple 10 ];
    Sgoto (at_line 11) "out"; simple 12; Slabel (at_line 13) "out"; Sreturn (at_line 14) ].

(** Division by zero in statement 5. *)
Definition loop_runtime : runtime log ptr :=
  log_runtime (fun a => bool_decide (a = 5)) 8134 false (fun e w => bool_decide (e = 0 \/ 2 <= length w)).

Lemma loop_program_distinct : NoDup (addrs (Sblock (at_line 0) loop_program)).
Proof. apply (bool_decide_eq_true_1 _). vm_compute. reflexivity. Qed.

Lemma loop_program_analyzed :
  analyze (Sblock (at_line 0) loop_program) create_compile_context = Ok (context_of loop_program).
Proof. vm_compute. reflexivity. Qed.

Lemma loop_program_code :
  gen_exec_code (context_of loop_program) (Sblock (at_line 0) loop_program) =
    Ok (code_of loop_program).
Proof. vm_compute. reflexivity. Qed.

Lemma analyzed_program_compiles_witness :
  exists C, gen_exec_code (context_of loop_program) (Sblock (at_line 0) loop_program) = Ok C /\
    Forall (target_in C) C.
Proof.
  apply (analyzed_program_compiles (at_line 0) loop_program);
    [exact loop_program_distinct | exact loop_program_analyzed].
Defined.

(** Two rounds of the loop, the second left by BREAK from inside the CATCH. *)
Lemma exec_equivalence_witness :
  exists m, exec_stmt_iterative loop_runtime (code_of loop_program) m inside_txn no_error =
    Halt (Returned true (mk_session (mk_log [14; 2; 2] true [] []) 8134 0 false false 0 0)).
Proof.
  apply (exec_equivalence loop_runtime (at_line 0) loop_program (context_of loop_program));
    [apply log_runtime_ok | split; reflexivity | exact loop_program_distinct
    | exact loop_program_analyzed | exact loop_program_code |vm_compute; discriminate|].
  exists 60. vm_compute. reflexivity.
Defined.

Lemma exec_exception_stack_safe_witness :
  exec_stmt_iterative loop_runtime (code_of loop_program) 4 inside_txn no_error <> Undefined.
Proof.
  pose proof (exec_exception_stack_safe loop_runtime (at_line 0) loop_program
    (context_of loop_program) (code_of loop_program) inside_txn no_error 4
    (log_runtime_ok _ _ _ _) (conj eq_refl eq_refl) loop_program_distinct
    loop_program_analyzed loop_program_code ltac:(vm_compute; discriminate)) as H.
  intros Hu. rewrite Hu in H. exact H.
Defined.

Lemma analyze_records_scopes_witness :
  every (scoped (context_of loop_program) [] []) loop_program.
Proof.
  apply (analyze_records_scopes (at_line 0) loop_program);
    [exact loop_program_distinct | exact loop_program_analyzed].
Defined.

(** TRY { fail } CATCH { TRY { fail } CATCH { stmt }  TRY { fail } CATCH { stmt } } *)
Definition nested_catch_program : list stmt :=
  [ Stry_catch (at_line 1) (simple 2)
      (Sblock (at_line 3)
         [ Stry_catch (at_line 4) (simple 5) (simple 6);
           Stry_catch (at_line 7) (simple 8) (simple 9) ]) ].

Definition nested_catch_runtime : runtime log ptr :=
  log_runtime (fun a => bool_decide (a ∈ [2; 5; 8])) 8134 false (fun _ _ => true).

(** Inside a CATCH block that is nested in another CATCH block no TRY block
    is active, yet the test for one answers yes as soon as two contexts are on
    the stack, contrary to its comment that at least one TRY is then active. *)
Theorem nested_catch_counts_as_try :
  exists fuel v,
    exec_stmt_iterative nested_catch_runtime (code_of nested_catch_program) fuel outside_txn no_error = Step v /\
    map partial_restored (err_ctx_stack v) = [true; true] /\ exception_stack v = None /\
    is_part_of_pltsql_trycatch_block nested_catch_runtime (err_ctx_stack v) = true.
Proof. exists 6. eexists. split; [vm_compute; reflexivity|]. split_and!; reflexivity. Qed.

(** Leaving a CATCH block releases the saved procedure name while the current
    error still refers to it, so two CATCH blocks inside a CATCH block release
    the same string twice. *)
Theorem procedure_name_freed_twice :
  exists fuel v,
    exec_stmt_iterative nested_catch_runtime (code_of nested_catch_program) fuel outside_txn no_error = Step v /\
    procedure (cur_error v) = Some 102 /\ pfreed v = [102; 102].
Proof. exists 13. eexists. split; [vm_compute; reflexivity|]. split; reflexivity. Qed.
