(* ===== verification/TdsComm.v ===== *)
(** * TdsComm: the TDS packet layer ([babelfishpg_tds/src/backend/tds/tdscomm.c])

    Messages are cut into packets with an 8-byte header.  The file-level
    variables of the C file are the fields of [comm]; the socket is an arbitrary
    sequence of events, so every way the network can split, delay, interrupt or
    end the byte stream is covered. *)
From stdpp Require Import base list numbers.
From S2P Require Import Prelude.
#[global] Open Scope nat_scope.

Definition TDS_PACKET_HEADER_SIZE : nat := 8.
Definition TDS_BULK_LOAD : Z := 0x07.
Definition TDS_PACKET_HEADER_STATUS_EOM : Z := 0x01.

(** What [tds_secure_read] meets: bytes that have arrived, an interrupted call, a
    failure.  At the end of the list the peer has closed the connection. *)
Inductive read_event :=
| R_data (bs : list Z)
| R_eintr
| R_error.

(** What [tds_secure_write] meets: it accepts up to [S n] bytes, is interrupted,
    would block, or fails.  After the listed events it accepts everything. *)
Inductive write_event :=
| W_accept (n : nat)
| W_eintr
| W_again
| W_error.

Record comm := mk_comm {
  TdsBufferSize : nat;
  TdsSendBuffer : list Z;
  TdsSendCur : nat;
  TdsSendStart : nat;
  TdsSendMessageType : Z;
  TdsDoProcessHeader : bool;
  TdsRecvBuffer : list Z;
  TdsRecvStart : nat;
  TdsRecvEnd : nat;
  TdsRecvMessageType : Z;
  TdsRecvPacketStatus : Z;
  TdsLeftInPacket : nat;
  reads : list read_event;
  writes : list write_event;
  wire : list Z;
  ClientConnectionLost : bool
}.

Inductive comm_error :=
| packet_not_consumed
| packet_length_exceeds (len size : nat)
| packet_with_insufficient_data
| start_beyond_end
| buffers_inconsistent
| last_write_not_flushed
| write_in_progress (ty : Z)
| unexpected_out_of_band
| invalid_message_type (got expected : Z).

(** Results: a value, the return code [EOF], an [ereport] of
    level ERROR or FATAL, a copy outside a
    buffer, or more loop iterations than [fuel]. *)
Inductive io (A : Type) :=
| Done (a : A) (s : comm)
| Eof (s : comm)
| Raise (e : comm_error) (s : comm)
| Overrun
| OutOfFuel.
Arguments Done {A} _ _.
Arguments Eof {A} _.
Arguments Raise {A} _ _.
Arguments Overrun {A}.
Arguments OutOfFuel {A}.

Definition io_bind {A B} (m : io A) (k : A -> comm -> io B) : io B :=
  match m with
  | Done a s => k a s
  | Eof s => Eof s
  | Raise e s => Raise e s
  | Overrun => Overrun
  | OutOfFuel => OutOfFuel
  end.
Notation "'do!' a , s ':=' m 'in' k" := (io_bind m (fun a s => k))
  (at level 10, a name, s name, m at level 100, k at level 200).

(** ** Memory *)

Definition slice (buf : list Z) (from til : nat) : list Z := take (til - from) (drop from buf).

(** [memcpy(buf + off, bs, |bs|)]; [None] outside the buffer. *)
Definition blit (buf : list Z) (off : nat) (bs : list Z) : option (list Z) :=
  if decide (off + length bs <= length buf)
  then Some (take off buf ++ bs ++ drop (off + length bs) buf)
  else None.

Definition set_recv (s : comm) (buf : list Z) (start til : nat) (evs : list read_event) : comm :=
  mk_comm (TdsBufferSize s) (TdsSendBuffer s) (TdsSendCur s) (TdsSendStart s) (TdsSendMessageType s)
    (TdsDoProcessHeader s) buf start til (TdsRecvMessageType s) (TdsRecvPacketStatus s)
    (TdsLeftInPacket s) evs (writes s) (wire s) (ClientConnectionLost s).

Definition set_packet (s : comm) (ty status : Z) (left start : nat) (do_header : bool) : comm :=
  mk_comm (TdsBufferSize s) (TdsSendBuffer s) (TdsSendCur s) (TdsSendStart s) (TdsSendMessageType s)
    do_header (TdsRecvBuffer s) start (TdsRecvEnd s) ty status left (reads s) (writes s) (wire s)
    (ClientConnectionLost s).

Definition set_send (s : comm) (buf : list Z) (cur start : nat) (ty : Z) : comm :=
  mk_comm (TdsBufferSize s) buf cur start ty (TdsDoProcessHeader s) (TdsRecvBuffer s)
    (TdsRecvStart s) (TdsRecvEnd s) (TdsRecvMessageType s) (TdsRecvPacketStatus s)
    (TdsLeftInPacket s) (reads s) (writes s) (wire s) (ClientConnectionLost s).

(** The socket took [bs], leaving the events [evs]. *)
Definition sent (s : comm) (bs : list Z) (evs : list write_event) : comm :=
  mk_comm (TdsBufferSize s) (TdsSendBuffer s) (TdsSendCur s) (TdsSendStart s + length bs)
    (TdsSendMessageType s) (TdsDoProcessHeader s) (TdsRecvBuffer s) (TdsRecvStart s) (TdsRecvEnd s)
    (TdsRecvMessageType s) (TdsRecvPacketStatus s) (TdsLeftInPacket s) (reads s) evs (wire s ++ bs)
    (ClientConnectionLost s).

Definition set_writes (s : comm) (evs : list write_event) (lost : bool) : comm :=
  mk_comm (TdsBufferSize s) (TdsSendBuffer s) (TdsSendCur s) (TdsSendStart s)
    (TdsSendMessageType s) (TdsDoProcessHeader s) (TdsRecvBuffer s) (TdsRecvStart s) (TdsRecvEnd s)
    (TdsRecvMessageType s) (TdsRecvPacketStatus s) (TdsLeftInPacket s) (reads s) evs (wire s) lost.

(** ** Receiving *)

(** The read loop of [TdsReadsocket] for a request of [n] bytes: what it got, or
    nothing on end of file or failure. *)
Fixpoint socket_read (evs : list read_event) (n : nat) : option (list Z) * list read_event :=
  match evs with
  | [] => (None, [])
  | R_eintr :: evs' => socket_read evs' n
  | R_error :: evs' => (None, evs')
  | R_data bs :: evs' =>
      let r := Nat.min n (length bs) in
      if decide (r = 0) then (None, evs)
      else (Some (take r bs), if decide (r < length bs) then R_data (drop r bs) :: evs' else evs')
  end.

Definition left_justify (s : comm) : option comm :=
  if decide (0 < TdsRecvStart s) then
    if decide (TdsRecvStart s < TdsRecvEnd s) then
      match blit (TdsRecvBuffer s) 0 (slice (TdsRecvBuffer s) (TdsRecvStart s) (TdsRecvEnd s)) with
      | Some buf => Some (set_recv s buf 0 (TdsRecvEnd s - TdsRecvStart s) (reads s))
      | None => None
      end
    else Some (set_recv s (TdsRecvBuffer s) 0 0 (reads s))
  else Some s.

Definition TdsReadsocket (s : comm) : io unit :=
  match left_justify s with
  | None => Overrun
  | Some s =>
      match socket_read (reads s) (TdsBufferSize s - TdsRecvEnd s) with
      | (None, evs) => Eof (set_recv s (TdsRecvBuffer s) (TdsRecvStart s) (TdsRecvEnd s) evs)
      | (Some bs, evs) =>
          match blit (TdsRecvBuffer s) (TdsRecvEnd s) bs with
          | Some buf => Done tt (set_recv s buf (TdsRecvStart s) (TdsRecvEnd s + length bs) evs)
          | None => Overrun
          end
      end
  end.

(** Read until a header is in the buffer. *)
Fixpoint read_header (fuel : nat) (s : comm) : io unit :=
  if decide (TdsRecvEnd s - TdsRecvStart s < TDS_PACKET_HEADER_SIZE) then
    match fuel with
    | 0 => OutOfFuel
    | S fuel' => do! _, s := TdsReadsocket s in read_header fuel' s
    end
  else Done tt s.

Definition TdsProcessHeader (s : comm) : io unit :=
  if decide (TdsLeftInPacket s <> 0) then Raise packet_not_consumed s
  else
  do! _, s := read_header TDS_PACKET_HEADER_SIZE s in
  match slice (TdsRecvBuffer s) (TdsRecvStart s) (TdsRecvStart s + 8) with
  | [ty; status; hi; lo; _; _; _; _] =>
      let data16 := Z.to_nat (hi * 256 + lo) in
      if decide (TdsBufferSize s < data16) then
        Raise (packet_length_exceeds data16 (TdsBufferSize s))
          (set_packet s ty status (TdsLeftInPacket s) (TdsRecvStart s) (TdsDoProcessHeader s))
      else if decide (data16 < TDS_PACKET_HEADER_SIZE) then
        Raise packet_with_insufficient_data
          (set_packet s ty status 0 (TdsRecvStart s + TDS_PACKET_HEADER_SIZE) (TdsDoProcessHeader s))
      else Done tt (set_packet s ty status (data16 - TDS_PACKET_HEADER_SIZE)
                      (TdsRecvStart s + TDS_PACKET_HEADER_SIZE) false)
  | _ => Overrun
  end.

(** The part of [TdsRecvbuf] for an empty buffer. *)
Definition recv_more (s : comm) : io unit :=
  if decide (TdsRecvStart s = TdsRecvEnd s) then
    do! _, s := TdsReadsocket s in
    if decide (TdsLeftInPacket s = 0) then
      do! _, s := (if TdsDoProcessHeader s then TdsProcessHeader s else Done tt s) in
      if decide (TdsRecvStart s = TdsRecvEnd s /\ 0 < TdsLeftInPacket s) then TdsReadsocket s
      else Done tt s
    else Done tt s
  else Done tt s.

Definition check_start (s : comm) : io unit :=
  if decide (TdsRecvEnd s < TdsRecvStart s) then Raise start_beyond_end s else Done tt s.

Definition TdsRecvbuf (s : comm) : io unit :=
  if decide (TdsLeftInPacket s = 0 /\ TdsRecvStart s < TdsRecvEnd s) then
    do! _, s := TdsProcessHeader s in
    if decide (TdsLeftInPacket s = 0) then Done tt s
    else do! _, s := recv_more s in check_start s
  else do! _, s := recv_more s in check_start s.

Fixpoint TdsReadNextBuffer (fuel : nat) (s : comm) : io unit :=
  if decide ((0 < TdsLeftInPacket s /\ TdsRecvEnd s <= TdsRecvStart s) \/ TdsDoProcessHeader s = true)
  then
    match fuel with
    | 0 => OutOfFuel
    | S fuel' => do! _, s := TdsRecvbuf s in TdsReadNextBuffer fuel' s
    end
  else Done tt s.

Definition TdsConsumedBytes (s : comm) (bytes : nat) : comm :=
  let left := TdsLeftInPacket s - bytes in
  set_packet s (TdsRecvMessageType s) (TdsRecvPacketStatus s) left (TdsRecvStart s)
    (if decide (left = 0) then true else TdsDoProcessHeader s).

(** The inner loop of [TdsGetbytes]: wait for bytes of the current packet. *)
Fixpoint wait_data (fuel : nat) (s : comm) : io unit :=
  if decide (TdsLeftInPacket s = 0 \/ TdsRecvEnd s <= TdsRecvStart s) then
    match fuel with
    | 0 => OutOfFuel
    | S fuel' => do! _, s := TdsRecvbuf s in wait_data fuel' s
    end
  else Done tt s.

(** [TdsGetbytes]: the bytes copied out. *)
Fixpoint TdsGetbytes (fuel : nat) (len : nat) (s : comm) : io (list Z) :=
  if decide (0 < len) then
    match fuel with
    | 0 => OutOfFuel
    | S fuel' =>
        do! _, s := wait_data fuel s in
        let amount := Nat.min len (Nat.min (TdsLeftInPacket s) (TdsRecvEnd s - TdsRecvStart s)) in
        let bs := slice (TdsRecvBuffer s) (TdsRecvStart s) (TdsRecvStart s + amount) in
        let s := set_recv s (TdsRecvBuffer s) (TdsRecvStart s + amount) (TdsRecvEnd s) (reads s) in
        do! rest, s := TdsGetbytes fuel' (len - amount) (TdsConsumedBytes s amount) in
        Done (bs ++ rest) s
    end
  else Done [] s.

Fixpoint TdsDiscardbytes (fuel : nat) (len : nat) (s : comm) : io unit :=
  if decide (0 < len) then
    match fuel with
    | 0 => OutOfFuel
    | S fuel' =>
        do! _, s := wait_data fuel s in
        let amount := Nat.min len (Nat.min (TdsLeftInPacket s) (TdsRecvEnd s - TdsRecvStart s)) in
        let s := set_recv s (TdsRecvBuffer s) (TdsRecvStart s + amount) (TdsRecvEnd s) (reads s) in
        TdsDiscardbytes fuel' (len - amount) (TdsConsumedBytes s amount)
    end
  else Done tt s.

Definition set_do_header (s : comm) (b : bool) : comm :=
  set_packet s (TdsRecvMessageType s) (TdsRecvPacketStatus s) (TdsLeftInPacket s) (TdsRecvStart s) b.

Definition eom (status : Z) : bool := negb (Z.land status TDS_PACKET_HEADER_STATUS_EOM =? 0)%Z.

(** [TdsReadNextRequest]: message, status and message type.  [first] holds the two
    bytes saved from the first header. *)
Fixpoint read_request (fuel : nat) (message : list Z) (first : option (Z * Z)) (s : comm)
    : io (list Z * Z * Z) :=
  match fuel with
  | 0 => OutOfFuel
  | S fuel' =>
      do! _, s := TdsReadNextBuffer fuel s in
      let first := default (TdsRecvMessageType s, TdsRecvPacketStatus s) first in
      do! bs, s := TdsGetbytes fuel (TdsLeftInPacket s) s in
      let message := message ++ bs in
      if eom (TdsRecvPacketStatus s) then
        Done (message, snd first, fst first)
          (if decide (TdsLeftInPacket s = 0 /\ TdsRecvStart s = TdsRecvEnd s)
           then set_do_header s true else s)
      else if decide (TdsRecvMessageType s = TDS_BULK_LOAD) then
        Done (message, snd first, fst first) (set_do_header s true)
      else read_request fuel' message (Some first) s
  end.

Definition TdsReadNextRequest (fuel : nat) (s : comm) : io (list Z * Z * Z) :=
  read_request fuel [] None s.

Definition TdsGetRecvPacketEomStatus (s : comm) : bool := eom (TdsRecvPacketStatus s).

Definition TdsReadMessage (fuel : nat) (messageType : Z) (s : comm) : io (list Z) :=
  if decide (TdsSendStart s <> 0 \/ TdsSendCur s <> TDS_PACKET_HEADER_SIZE) then
    Raise last_write_not_flushed s
  else
    do! r, s := TdsReadNextRequest fuel s in
    let '(message, status, curMsgType) := r in
    if decide (messageType <> curMsgType) then Raise (invalid_message_type curMsgType messageType) s
    else Done message s.

(** Returns the payload read and whether it was the last packet. *)
Definition TdsReadNextPendingBcpRequest (fuel : nat) (s : comm) : io (list Z * bool) :=
  do! _, s := TdsReadNextBuffer fuel s in
  if decide (TdsRecvMessageType s <> TDS_BULK_LOAD) then Raise unexpected_out_of_band s
  else
    do! bs, s := TdsGetbytes fuel (TdsLeftInPacket s) s in
    Done (bs, eom (TdsRecvPacketStatus s)) s.

Fixpoint TdsDiscardAllPendingBcpRequest (fuel : nat) (s : comm) : io unit :=
  match fuel with
  | 0 => OutOfFuel
  | S fuel' =>
      do! _, s := TdsReadNextBuffer fuel s in
      do! _, s := TdsDiscardbytes fuel (TdsLeftInPacket s) s in
      if eom (TdsRecvPacketStatus s) then Done tt s
      else TdsDiscardAllPendingBcpRequest fuel' s
  end.

(** ** Sending *)

Definition header_bytes (ty : Z) (last : bool) (len : nat) : list Z :=
  [ty; (if last then 1 else 0)%Z; u8 (Z.shiftr (u16 (Z.of_nat len)) 8); u8 (Z.of_nat len); 0; 0; 0; 0]%Z.

Definition TdsFillHeader (last : bool) (s : comm) : option comm :=
  match blit (TdsSendBuffer s) 0 (header_bytes (TdsSendMessageType s) last
                                    (TdsSendCur s - TdsSendStart s)) with
  | Some buf => Some (set_send s buf (TdsSendCur s) (TdsSendStart s) (TdsSendMessageType s))
  | None => None
  end.

Definition reset_send (s : comm) : comm :=
  set_send s (TdsSendBuffer s) TDS_PACKET_HEADER_SIZE 0 (TdsSendMessageType s).

(** The send loop of [InternalFlush]. *)
Fixpoint flush_loop (evs : list write_event) (s : comm) : io unit :=
  if decide (TdsSendStart s < TdsSendCur s) then
    let pending := slice (TdsSendBuffer s) (TdsSendStart s) (TdsSendCur s) in
    match evs with
    | [] => Done tt (reset_send (sent s pending []))
    | W_accept n :: evs' => flush_loop evs' (sent s (take (S n) pending) evs')
    | W_eintr :: evs' => flush_loop evs' (set_writes s evs' (ClientConnectionLost s))
    | W_again :: evs' => Done tt (set_writes s evs' (ClientConnectionLost s))
    | W_error :: evs' => Eof (reset_send (set_writes s evs' true))
    end
  else Done tt (reset_send s).

Definition InternalFlush (lastPacket : bool) (s : comm) : io unit :=
  match (if decide (TdsSendStart s = 0) then TdsFillHeader lastPacket s else Some s) with
  | None => Overrun
  | Some s =>
      let s := if lastPacket then set_send s (TdsSendBuffer s) (TdsSendCur s) (TdsSendStart s) 0
               else s in
      flush_loop (writes s) s
  end.

Fixpoint InternalPutbytes (fuel : nat) (bs : list Z) (s : comm) : io unit :=
  if decide (0 < length bs) then
    match fuel with
    | 0 => OutOfFuel
    | S fuel' =>
        do! _, s := (if decide (TdsBufferSize s <= TdsSendCur s) then InternalFlush false s
                     else Done tt s) in
        let amount := Nat.min (TdsBufferSize s - TdsSendCur s) (length bs) in
        match blit (TdsSendBuffer s) (TdsSendCur s) (take amount bs) with
        | None => Overrun
        | Some buf =>
            InternalPutbytes fuel' (drop amount bs)
              (set_send s buf (TdsSendCur s + amount) (TdsSendStart s) (TdsSendMessageType s))
        end
    end
  else Done tt s.

Definition TdsPutbytes := InternalPutbytes.
Definition TdsSocketFlush (s : comm) : io unit := InternalFlush true s.
Definition FlushBuffer (s : comm) : io unit := InternalFlush false s.
Definition GetAvailableBufferSize (s : comm) : nat := TdsBufferSize s - TdsSendCur s.
Definition TdsSetMessageType (msgType : Z) (s : comm) : comm :=
  set_send s (TdsSendBuffer s) (TdsSendCur s) (TdsSendStart s) msgType.
Definition TdsCheckMessageType (msgType : Z) (s : comm) : bool := (TdsRecvMessageType s =? msgType)%Z.

Definition TdsPutInt8 (fuel : nat) (v : Z) (s : comm) := InternalPutbytes fuel (le_bytes 1 v) s.
Definition TdsPutUInt8 (fuel : nat) (v : Z) (s : comm) := InternalPutbytes fuel (le_bytes 1 v) s.
Definition TdsPutInt16LE (fuel : nat) (v : Z) (s : comm) := InternalPutbytes fuel (le_bytes 2 v) s.
Definition TdsPutUInt16LE (fuel : nat) (v : Z) (s : comm) := InternalPutbytes fuel (le_bytes 2 v) s.
Definition TdsPutDate (fuel : nat) (v : Z) (s : comm) := InternalPutbytes fuel (le_bytes 3 v) s.
Definition TdsPutInt32LE (fuel : nat) (v : Z) (s : comm) := InternalPutbytes fuel (le_bytes 4 v) s.
Definition TdsPutUInt32LE (fuel : nat) (v : Z) (s : comm) := InternalPutbytes fuel (le_bytes 4 v) s.
Definition TdsPutInt64LE (fuel : nat) (v : Z) (s : comm) := InternalPutbytes fuel (le_bytes 8 v) s.
Definition TdsPutUInt64LE (fuel : nat) (v : Z) (s : comm) := InternalPutbytes fuel (le_bytes 8 v) s.

Definition TdsWriteMessage (fuel : nat) (message : list Z) (messageType : Z) (s : comm) : io unit :=
  if decide (TdsSendMessageType s <> 0%Z) then Raise (write_in_progress (TdsSendMessageType s)) s
  else
    do! _, s := TdsPutbytes fuel message (TdsSetMessageType messageType s) in
    TdsSocketFlush s.

(** ** Life cycle *)

(** [rbuf], [sbuf]: the freshly allocated buffers. *)
Definition TdsCommReset (rbuf sbuf : list Z) (s : comm) : comm :=
  mk_comm (TdsBufferSize s) sbuf TDS_PACKET_HEADER_SIZE 0 0 (TdsDoProcessHeader s) rbuf 0 0 0 0 0
    (reads s) (writes s) (wire s) (ClientConnectionLost s).

Definition TdsCommInit (bufferSize : nat) (rbuf sbuf : list Z) (s : comm) : comm :=
  TdsCommReset rbuf sbuf
    (mk_comm bufferSize (TdsSendBuffer s) (TdsSendCur s) (TdsSendStart s) (TdsSendMessageType s) true
       (TdsRecvBuffer s) (TdsRecvStart s) (TdsRecvEnd s) (TdsRecvMessageType s)
       (TdsRecvPacketStatus s) (TdsLeftInPacket s) (reads s) (writes s) (wire s)
       (ClientConnectionLost s)).

(** [repalloc] keeps the common prefix; [fill] is the fresh memory behind it. *)
Definition repalloc (buf fill : list Z) (newSize : nat) : list Z := take newSize (buf ++ fill).

Definition TdsSetBufferSize (newSize : nat) (rfill sfill : list Z) (s : comm) : io unit :=
  if decide (newSize = TdsBufferSize s) then Done tt s
  else if decide (TdsSendStart s <> 0 \/ TdsSendCur s <> TDS_PACKET_HEADER_SIZE \/
                  TdsRecvStart s <> TdsRecvEnd s \/ TdsLeftInPacket s <> 0)
  then Raise buffers_inconsistent s
  else Done tt (mk_comm newSize (repalloc (TdsSendBuffer s) sfill newSize) (TdsSendCur s)
                  (TdsSendStart s) (TdsSendMessageType s) (TdsDoProcessHeader s)
                  (repalloc (TdsRecvBuffer s) rfill newSize) 0 0 (TdsRecvMessageType s)
                  (TdsRecvPacketStatus s) 0 (reads s) (writes s) (wire s)
                  (ClientConnectionLost s)).
