(* ===== verification/TdsRecv.v ===== *)
(** * TdsRecv: the receiving side refines a parser of the byte stream

    [request] is what a TDS message is, as a function of the bytes the peer sent;
    it knows nothing of buffers or of how the socket delivers them.  The C code,
    with its window into a circularly reused buffer, is shown to compute it for
    every sequence of socket events. *)
From stdpp Require Import base list numbers.
From S2P Require Import Prelude TdsComm.

(** ** The abstract stream *)

(** The bytes the socket will still deliver. *)
Fixpoint flat (evs : list read_event) : list Z :=
  match evs with
  | R_data (b :: bs) :: evs' => (b :: bs) ++ flat evs'
  | R_eintr :: evs' => flat evs'
  | _ => []
  end.

Definition unread (s : comm) : list Z :=
  slice (TdsRecvBuffer s) (TdsRecvStart s) (TdsRecvEnd s) ++ flat (reads s).

Definition avail (s : comm) : nat := TdsRecvEnd s - TdsRecvStart s.

Definition recv_ok (s : comm) : Prop :=
  length (TdsRecvBuffer s) = TdsBufferSize s /\ TdsRecvStart s <= TdsRecvEnd s <= TdsBufferSize s /\
  TDS_PACKET_HEADER_SIZE <= TdsBufferSize s.

(** The position in the current packet, and the state the receiving side leaves
    alone. *)
Definition packet (s : comm) : bool * Z * Z * nat :=
  (TdsDoProcessHeader s, TdsRecvMessageType s, TdsRecvPacketStatus s, TdsLeftInPacket s).

Definition outside (s : comm) :=
  (TdsBufferSize s, TdsSendBuffer s, TdsSendCur s, TdsSendStart s, TdsSendMessageType s, writes s,
   wire s, ClientConnectionLost s).

(** [s'] presents the stream [bs] at the packet position [p]. *)
Definition at_stream (s s' : comm) (p : bool * Z * Z * nat) (bs : list Z) : Prop :=
  recv_ok s' /\ unread s' = bs /\ packet s' = p /\ outside s' = outside s.

Definition moved (s s' : comm) : Prop := at_stream s s' (packet s) (unread s).

(** The header at the head of a stream. *)
Inductive header_result :=
| H_ok (ty status : Z) (left : nat) (rest : list Z)
| H_too_long (len : nat)
| H_too_short
| H_eof.

Definition next_header (size : nat) (bs : list Z) : header_result :=
  match bs with
  | ty :: status :: hi :: lo :: _ :: _ :: _ :: _ :: rest =>
      let len := Z.to_nat (hi * 256 + lo) in
      if decide (size < len) then H_too_long len
      else if decide (len < 8) then H_too_short
      else H_ok ty status (len - 8) rest
  | _ => H_eof
  end.

(** ** Lists *)

#[global] Arguments slice : simpl never.
#[global] Arguments TDS_PACKET_HEADER_SIZE : simpl never.


Lemma length_slice buf a b : b <= length buf -> length (slice buf a b) = b - a.
Proof. intros. unfold slice. rewrite length_take, length_drop. lia. Qed.

Lemma slice_nil buf a b : b <= a -> slice buf a b = [].
Proof. intros. unfold slice. by replace (b - a) with 0 by lia. Qed.

Lemma slice_app buf a b c :
  a <= b <= c -> c <= length buf -> slice buf a b ++ slice buf b c = slice buf a c.
Proof.
  intros. unfold slice. replace (drop b buf) with (drop (b - a) (drop a buf))
    by (rewrite drop_drop; f_equal; lia).
  rewrite take_take_drop. f_equal; lia.
Qed.

Lemma slice_drop buf a b n : slice buf (a + n) b = drop n (slice buf a b).
Proof.
  unfold slice. rewrite skipn_firstn_comm, drop_drop. f_equal. lia.
Qed.

Lemma slice_take buf a b n : a + n <= b -> slice buf a (a + n) = take n (slice buf a b).
Proof. intros. unfold slice. rewrite take_take. f_equal. lia. Qed.

Lemma length_blit buf off bs buf' : blit buf off bs = Some buf' -> length buf' = length buf.
Proof.
  unfold blit. case_decide; [|done]. intros [= <-]. rewrite !length_app, length_take, length_drop. lia.
Qed.

Lemma blit_ok buf off bs :
  off + length bs <= length buf -> blit buf off bs = Some (take off buf ++ bs ++ drop (off + length bs) buf).
Proof. intros. unfold blit. by rewrite decide_True. Qed.

Lemma slice_blit_same buf off bs buf' :
  blit buf off bs = Some buf' -> slice buf' off (off + length bs) = bs.
Proof.
  unfold blit. case_decide; [|done]. intros [= <-]. unfold slice.
  rewrite drop_app_length' by (rewrite length_take; lia).
  replace (off + length bs - off) with (length bs) by lia. apply take_app_length.
Qed.

Lemma slice_blit_before buf off bs buf' a b :
  blit buf off bs = Some buf' -> a <= b <= off -> slice buf' a b = slice buf a b.
Proof.
  unfold blit. case_decide; [|done]. intros [= <-] Hab. unfold slice.
  rewrite drop_app_le by (rewrite length_take; lia).
  rewrite take_app_le by (rewrite length_drop, length_take; lia).
  rewrite skipn_firstn_comm, take_take. f_equal. lia.
Qed.

Lemma slice_blit_after buf off bs buf' a b :
  blit buf off bs = Some buf' -> off + length bs <= a -> slice buf' a b = slice buf a b.
Proof.
  unfold blit. case_decide; [|done]. intros [= <-] Ha. unfold slice. f_equal.
  rewrite !drop_app_ge by (rewrite ?length_take; lia). rewrite drop_drop, length_take. f_equal. lia.
Qed.

(** ** The socket *)

Lemma socket_read_none evs n :
  0 < n -> flat evs = [] -> exists evs', socket_read evs n = (None, evs').
Proof.
  intros Hn. induction evs as [|[[|b bs]| |] evs IH]; cbn; intros Hf; eauto; [|done].
  rewrite Nat.min_0_r. cbn. eauto.
Qed.

Lemma socket_read_some evs n :
  0 < n -> flat evs <> [] ->
  exists bs evs', socket_read evs n = (Some bs, evs') /\ bs ++ flat evs' = flat evs /\
    0 < length bs <= n.
Proof.
  intros Hn. induction evs as [|[[|b bs]| |] evs IH]; cbn; intros Hf; eauto; try done.
  rewrite decide_False by lia. eexists _, _. split; [done|].
  destruct n as [|n]; [lia|]. cbn [Nat.min]. rewrite length_take. cbn.
  split; [|lia]. case_decide as Hlt.
  - cbn. assert (length (drop (n `min` length bs) bs) <> 0) as Hne by (rewrite length_drop; lia).
    destruct (drop (n `min` length bs) bs) as [|c cs] eqn:E; [done|].
    change (c :: cs ++ flat evs) with ((c :: cs) ++ flat evs). rewrite <-E.
    rewrite app_assoc, take_drop. done.
  - rewrite take_ge by lia. done.
Qed.

(** ** [TdsReadsocket] *)

Lemma moved_refl s : recv_ok s -> moved s s.
Proof. by intros. Qed.

Lemma at_stream_trans s1 s2 s3 p2 bs2 p bs :
  at_stream s1 s2 p2 bs2 -> at_stream s2 s3 p bs -> at_stream s1 s3 p bs.
Proof. intros (_ & _ & _ & O1) (? & ? & ? & O2). split_and!; congruence. Qed.

Lemma moved_trans s1 s2 s3 : moved s1 s2 -> moved s2 s3 -> moved s1 s3.
Proof.
  intros H12 H23. pose proof (at_stream_trans _ _ _ _ _ _ _ H12 H23) as H.
  destruct H12 as (_ & Hu & Hp & _). unfold moved. by rewrite <-Hu, <-Hp.
Qed.

Lemma outside_size s s' : outside s' = outside s -> TdsBufferSize s' = TdsBufferSize s.
Proof. unfold outside. congruence. Qed.

Lemma packet_fields s b ty st left :
  packet s = (b, ty, st, left) ->
  TdsDoProcessHeader s = b /\ TdsRecvMessageType s = ty /\ TdsRecvPacketStatus s = st /\
  TdsLeftInPacket s = left.
Proof. unfold packet. by intros [= <- <- <- <-]. Qed.

Lemma left_justify_ok s :
  recv_ok s -> exists s', left_justify s = Some s' /\ moved s s' /\ avail s' = avail s /\
    TdsRecvEnd s' = avail s'.
Proof.
  intros (Hl & Hse & H8). unfold left_justify. case_decide; [case_decide|].
  - rewrite blit_ok by (rewrite length_slice; lia).
    eexists. split; [done|]. cbn. rewrite length_slice by lia.
    unfold moved, at_stream, recv_ok, avail, unread. cbn. split_and!; try done; try lia.
    + rewrite !length_app, length_take, length_slice, length_drop by lia. lia.
    + f_equal. unfold slice at 1. rewrite take_0, drop_0, Nat.sub_0_r. cbn [app]. apply take_app_length'.
      rewrite length_slice; lia.
  - eexists. split; [done|]. unfold moved, at_stream, recv_ok, avail, unread. cbn. split_and!; try done; try lia.
    + f_equal. by rewrite !slice_nil by lia.
  - exists s. split; [done|]. unfold avail. split_and!; try done; try lia.
Qed.

(** A read with room in the buffer fails exactly when nothing more arrives; else the
    window grows. *)
Lemma TdsReadsocket_spec s :
  recv_ok s -> avail s < TdsBufferSize s ->
  if decide (flat (reads s) = []) then exists s', TdsReadsocket s = Eof s'
  else exists s', TdsReadsocket s = Done tt s' /\ moved s s' /\ avail s < avail s'.
Proof.
  intros Hok Hroom. destruct (left_justify_ok s Hok) as (s1 & Hj & Hm & Ha & He).
  unfold TdsReadsocket. rewrite Hj.
  destruct Hm as (Hok1 & Hu & Hp & Ho).
  assert (reads s1 = reads s /\ TdsBufferSize s1 = TdsBufferSize s) as [Hr Hsz].
  { revert Hj. unfold left_justify, blit. repeat case_decide; intros [= <-]; done. }
  assert (0 < TdsBufferSize s1 - TdsRecvEnd s1) by lia.
  rewrite <-Hr. case_decide as Hf.
  - destruct (socket_read_none (reads s1) (TdsBufferSize s1 - TdsRecvEnd s1)) as (evs' & ->); eauto.
  - destruct (socket_read_some (reads s1) (TdsBufferSize s1 - TdsRecvEnd s1))
      as (bs & evs' & -> & Hfl & Hlen); [done..|].
    destruct Hok1 as (Hl & Hse & H8).
    rewrite blit_ok by lia. eexists. split; [done|].
    destruct (blit (TdsRecvBuffer s1) (TdsRecvEnd s1) bs) as [b|] eqn:Hb;
      [|rewrite blit_ok in Hb by lia; done].
    rewrite blit_ok in Hb by lia. injection Hb as Hb. rewrite Hb.
    assert (blit (TdsRecvBuffer s1) (TdsRecvEnd s1) bs = Some b) as Hb'
      by (rewrite blit_ok, Hb by lia; done).
    unfold moved, at_stream, recv_ok, unread, avail. cbn. rewrite (length_blit _ _ _ _ Hb').
    split_and!; try done; try lia.
    + etrans; [|exact Hu]. unfold unread. rewrite <-Hfl, app_assoc. f_equal.
      rewrite <-(slice_app b _ (TdsRecvEnd s1)) by (rewrite ?(length_blit _ _ _ _ Hb'); lia).
      rewrite (slice_blit_same _ _ _ _ Hb'). by rewrite (slice_blit_before _ _ _ _ _ _ Hb') by lia.
    + unfold avail in *. lia.
Qed.

Lemma length_unread s : recv_ok s -> length (unread s) = avail s + length (flat (reads s)).
Proof. intros (?&?&?). unfold unread. rewrite length_app, length_slice by lia. done. Qed.

Lemma flat_nil_avail s : recv_ok s -> flat (reads s) = [] -> length (unread s) = avail s.
Proof. intros Hok Hf. rewrite length_unread, Hf by done. cbn. lia. Qed.

(** The first [n] bytes of the stream, once they are in the window. *)
Lemma slice_unread s n :
  recv_ok s -> n <= avail s ->
  slice (TdsRecvBuffer s) (TdsRecvStart s) (TdsRecvStart s + n) = take n (unread s) /\
  slice (TdsRecvBuffer s) (TdsRecvStart s + n) (TdsRecvEnd s) ++ flat (reads s) = drop n (unread s).
Proof.
  intros (Hl & Hse & _) Hn. unfold avail in Hn. unfold unread. split.
  - rewrite (slice_take _ _ (TdsRecvEnd s)) by lia. rewrite take_app_le; [done|].
    rewrite length_slice; lia.
  - rewrite slice_drop, drop_app_le; [done|]. rewrite length_slice; lia.
Qed.

(** ** Headers *)

(** Eight reads are enough for a header, since each one brings a byte. *)
Lemma read_header_spec n s :
  recv_ok s -> TDS_PACKET_HEADER_SIZE <= n + avail s ->
  if decide (length (unread s) < TDS_PACKET_HEADER_SIZE)
  then exists s', read_header n s = Eof s'
  else exists s', read_header n s = Done tt s' /\ moved s s' /\ TDS_PACKET_HEADER_SIZE <= avail s'.
Proof.
  revert s. induction n as [|n IH]; intros s Hok Hn.
  - rewrite decide_False by (rewrite length_unread by done; lia). cbn [read_header].
    rewrite decide_False by (unfold avail in *; lia). exists s. split_and!; try done.
  - cbn [read_header]. destruct (decide (TdsRecvEnd s - TdsRecvStart s < TDS_PACKET_HEADER_SIZE)) as [Hlt|Hge].
    2:{ rewrite decide_False by (rewrite length_unread by done; unfold avail; lia).
        exists s. split_and!; try done. unfold avail. lia. }
    assert (avail s < TdsBufferSize s) as Hroom by (destruct Hok as (?&?&?); unfold avail; lia).
    pose proof (TdsReadsocket_spec s Hok Hroom) as Hrd. case_decide as Hf.
    + destruct Hrd as [s1 ->]. rewrite decide_True; [by eexists|].
      rewrite flat_nil_avail by done. done.
    + destruct Hrd as (s1 & -> & Hm & Hav). cbn [io_bind]. pose proof Hm as (Hok1 & Hu & _).
      specialize (IH s1 Hok1 ltac:(lia)). rewrite Hu in IH. case_decide; [done|].
      destruct IH as (s2 & E & Hm2 & ?). exists s2. eauto using moved_trans.
Qed.

Lemma TdsProcessHeader_spec s b ty0 st0 :
  recv_ok s -> packet s = (b, ty0, st0, 0) ->
  match next_header (TdsBufferSize s) (unread s) with
  | H_ok ty st n rest =>
      exists s', TdsProcessHeader s = Done tt s' /\ at_stream s s' (false, ty, st, n) rest
  | H_too_long len =>
      exists s', TdsProcessHeader s = Raise (packet_length_exceeds len (TdsBufferSize s)) s'
  | H_too_short => exists s', TdsProcessHeader s = Raise packet_with_insufficient_data s'
  | H_eof => exists s', TdsProcessHeader s = Eof s'
  end.
Proof.
  intros Hok (? & ? & ? & Hleft)%packet_fields. unfold TdsProcessHeader. rewrite decide_False by lia.
  pose proof (read_header_spec TDS_PACKET_HEADER_SIZE s Hok ltac:(lia)) as Hh.
  case_decide as Hlen.
  { destruct Hh as [s1 ->]. unfold TDS_PACKET_HEADER_SIZE in Hlen.
    destruct (unread s) as [|? [|? [|? [|? [|? [|? [|? [|? ?]]]]]]]]; try by eexists.
    cbn in Hlen. lia. }
  destruct Hh as (s1 & -> & (Hok1 & Hu & Hp & Ho) & Hav). cbn [io_bind].
  destruct (slice_unread s1 8 Hok1 Hav) as [Ht Hd]. rewrite Ht, Hu.
  rewrite (outside_size _ _ Ho). rewrite Hu in Hd.
  unfold TDS_PACKET_HEADER_SIZE in Hlen.
  destruct (unread s) as [|x0 [|x1 [|x2 [|x3 [|x4 [|x5 [|x6 [|x7 rest]]]]]]]]; cbn in Hlen; try lia.
  cbn [next_header take]. case_decide; [by eexists|]. unfold TDS_PACKET_HEADER_SIZE.
  case_decide; [by eexists|]. eexists. split; [done|]. cbn [drop] in Hd.
  destruct Hok1 as (?&?&?). unfold TDS_PACKET_HEADER_SIZE, avail in *.
  split_and!; cbn; try done; try lia.
  unfold recv_ok, TDS_PACKET_HEADER_SIZE. cbn. lia.
Qed.

(** ** Packets *)

Lemma TdsReadsocket_room s :
  recv_ok s -> TdsRecvStart s = TdsRecvEnd s ->
  if decide (unread s = []) then exists s', TdsReadsocket s = Eof s'
  else exists s', TdsReadsocket s = Done tt s' /\ moved s s' /\ 0 < avail s'.
Proof.
  intros Hok Heq. assert (avail s = 0) as Hav by (unfold avail; lia).
  assert (unread s = flat (reads s)) as Hu by (unfold unread; rewrite slice_nil by lia; done).
  pose proof (TdsReadsocket_spec s Hok) as H. rewrite Hav in H. rewrite Hu. apply H.
  destruct Hok as (_ & _ & ?). unfold TDS_PACKET_HEADER_SIZE in *. lia.
Qed.

Lemma check_start_ok s : recv_ok s -> check_start s = Done tt s.
Proof. intros (_ & ? & _). unfold check_start. by rewrite decide_False by lia. Qed.

Lemma TdsRecvbuf_inside s :
  0 < TdsLeftInPacket s -> TdsRecvbuf s = (do! _, s := recv_more s in check_start s).
Proof. intros. unfold TdsRecvbuf. by rewrite decide_False by lia. Qed.

(** Inside a packet [TdsRecvbuf] makes a byte available, or meets the end. *)
Lemma TdsRecvbuf_body s :
  recv_ok s -> 0 < TdsLeftInPacket s ->
  if decide (unread s = []) then exists s', TdsRecvbuf s = Eof s'
  else exists s', TdsRecvbuf s = Done tt s' /\ moved s s' /\ 0 < avail s'.
Proof.
  intros Hok Hl. rewrite TdsRecvbuf_inside by done. unfold recv_more.
  destruct (decide (TdsRecvStart s = TdsRecvEnd s)) as [Heq|Hne].
  - pose proof (TdsReadsocket_room s Hok Heq) as Hr. case_decide as Hu.
    { destruct Hr as [s1 ->]. by eexists. }
    destruct Hr as (s1 & -> & Hm & Hav). cbn [io_bind].
    pose proof Hm as (Hok1 & _ & Hp & _). injection Hp as _ _ _ Hp.
    rewrite decide_False by lia.
    cbn [io_bind]. rewrite check_start_ok by done. eauto.
  - cbn [io_bind]. rewrite check_start_ok by done. destruct Hok as (? & ? & ?).
    rewrite decide_False.
    + exists s. split_and!; try done. unfold avail. lia.
    + intros Hu. apply (f_equal length) in Hu. rewrite length_unread in Hu by done.
      unfold avail in Hu. cbn in Hu. lia.
Qed.

(** At a packet boundary [TdsRecvbuf] reads a header, and a byte of the payload when
    there is one. *)
Definition boundary_spec (s : comm) (r : io unit) : Prop :=
  match next_header (TdsBufferSize s) (unread s) with
  | H_ok ty st n rest =>
      if decide (0 < n /\ rest = []) then exists s', r = Eof s'
      else exists s', r = Done tt s' /\ at_stream s s' (false, ty, st, n) rest /\ (0 < n -> 0 < avail s')
  | H_too_long len => exists s', r = Raise (packet_length_exceeds len (TdsBufferSize s)) s'
  | H_too_short => exists s', r = Raise packet_with_insufficient_data s'
  | H_eof => exists s', r = Eof s'
  end.

Lemma moved_boundary s s' r : moved s s' -> boundary_spec s' r -> boundary_spec s r.
Proof.
  intros Hm. pose proof Hm as (_ & Hu & _ & Ho). unfold boundary_spec.
  rewrite Hu, (outside_size _ _ Ho). destruct (next_header _ _); try done.
  case_decide; [done|]. intros (s2 & ? & Hat & ?). exists s2. split_and!; try done.
  by apply (at_stream_trans _ _ _ _ _ _ _ Hm Hat).
Qed.

(** A header, then the first byte of the payload, whichever way it is read. *)
Lemma boundary_intro s b ty0 st0 (k : comm -> io unit) :
  recv_ok s -> packet s = (b, ty0, st0, 0) ->
  (forall s1 n ty st rest, recv_ok s1 -> packet s1 = (false, ty, st, n) -> unread s1 = rest ->
     if decide (0 < n /\ rest = []) then exists s', k s1 = Eof s'
     else exists s', k s1 = Done tt s' /\ moved s1 s' /\ (0 < n -> 0 < avail s')) ->
  boundary_spec s (do! _, s1 := TdsProcessHeader s in k s1).
Proof.
  intros Hok Hp Hk. pose proof (TdsProcessHeader_spec s b ty0 st0 Hok Hp) as H. unfold boundary_spec.
  destruct (next_header _ _) as [ty st n rest| | |]; [|by destruct H as [s' ->]; eexists..].
  destruct H as (s1 & -> & Hat). cbn [io_bind]. pose proof Hat as (Hok1 & Hu1 & Hp1 & _).
  specialize (Hk s1 n ty st rest Hok1 Hp1 Hu1). case_decide; [done|].
  destruct Hk as (s2 & -> & Hm & ?). exists s2. split_and!; try done.
  unfold moved in Hm. rewrite Hp1, Hu1 in Hm. by apply (at_stream_trans _ _ _ _ _ _ _ Hat Hm).
Qed.

Lemma packet_left s b ty st n : packet s = (b, ty, st, n) -> TdsLeftInPacket s = n.
Proof. by intros [= _ _ _ ->]. Qed.

Lemma TdsRecvbuf_boundary s ty0 st0 :
  recv_ok s -> packet s = (true, ty0, st0, 0) -> boundary_spec s (TdsRecvbuf s).
Proof.
  intros Hok Hp. pose proof (packet_left _ _ _ _ _ Hp) as Hl. unfold TdsRecvbuf.
  destruct (decide (TdsLeftInPacket s = 0 /\ TdsRecvStart s < TdsRecvEnd s)) as [Hc|Hc].
  - apply (boundary_intro s true ty0 st0); [done..|].
    intros s1 n ty st rest Hok1 Hp1 Hu1. pose proof (packet_left _ _ _ _ _ Hp1) as Hl1.
    rewrite Hl1. destruct (decide (n = 0)) as [->|Hn].
    { rewrite decide_False by lia. exists s1. split_and!; try done. lia. }
    pose proof (TdsRecvbuf_body s1 Hok1 ltac:(lia)) as Hb.
    rewrite TdsRecvbuf_inside, Hu1 in Hb by lia.
    destruct (decide (rest = [])) as [->|Hr].
    + rewrite decide_True by (split; [lia|done]). done.
    + rewrite decide_False by naive_solver. destruct Hb as (s2 & -> & ? & ?). eauto.
  - assert (TdsRecvStart s = TdsRecvEnd s) as Heq by (destruct Hok as (_ & ? & _); lia).
    unfold recv_more. rewrite (decide_True _ _ Heq).
    pose proof (TdsReadsocket_room s Hok Heq) as Hr. case_decide as Hu.
    { destruct Hr as [s1 ->]. unfold boundary_spec. rewrite Hu. by eexists. }
    destruct Hr as (s1 & -> & Hm & _). cbn [io_bind]. apply (moved_boundary s s1); [done|].
    destruct Hm as (Hok1 & _ & Hp1 & _). rewrite Hp in Hp1.
    pose proof (packet_fields _ _ _ _ _ Hp1) as (Hdo & _ & _ & Hl1).
    rewrite (decide_True _ _ Hl1), Hdo.
    match goal with |- boundary_spec _ (io_bind (io_bind ?m ?k1) ?k2) =>
      replace (io_bind (io_bind m k1) k2) with (do! a, s := m in io_bind (k1 a s) k2)
        by (by destruct m) end.
    apply (boundary_intro s1 true ty0 st0); [done..|].
    intros s2 n ty st rest Hok2 Hp2 Hu2. rewrite (packet_left _ _ _ _ _ Hp2).
    destruct (decide (TdsRecvStart s2 = TdsRecvEnd s2 /\ 0 < n)) as [[Heq2 Hn]|Hn].
    + pose proof (TdsReadsocket_room s2 Hok2 Heq2) as Hr. rewrite Hu2 in Hr. case_decide as Hu'.
      * destruct Hr as [s3 ->]. rewrite decide_True by done. by eexists.
      * destruct Hr as (s3 & -> & Hm3 & ?). rewrite decide_False by naive_solver.
        cbn [io_bind]. rewrite check_start_ok by apply Hm3. eauto.
    + cbn [io_bind]. rewrite check_start_ok by done. pose proof Hok2 as (_ & ? & _).
      rewrite decide_False.
      * exists s2. split_and!; try done. unfold avail. lia.
      * intros [? Hr]. apply (f_equal length) in Hr. rewrite <-Hu2, length_unread in Hr by done.
        unfold avail in Hr. cbn in Hr. lia.
Qed.

Lemma TdsReadNextBuffer_boundary fuel s ty0 st0 :
  recv_ok s -> packet s = (true, ty0, st0, 0) -> boundary_spec s (TdsReadNextBuffer (S fuel) s).
Proof.
  intros Hok Hp. pose proof (TdsRecvbuf_boundary s ty0 st0 Hok Hp) as H.
  pose proof (packet_fields _ _ _ _ _ Hp) as (Hdo & _). cbn [TdsReadNextBuffer].
  rewrite decide_True by auto. unfold boundary_spec in *.
  destruct (next_header _ _) as [ty st n rest| | |]; [|by destruct H as [s' ->]; eexists..].
  case_decide; [by destruct H as [s' ->]; eexists|].
  destruct H as (s1 & -> & Hat & Hav). cbn [io_bind]. exists s1. split; [|done].
  pose proof Hat as (_ & _ & (Hdo1 & _ & _ & Hl1)%packet_fields & _).
  unfold avail in Hav. destruct fuel; cbn [TdsReadNextBuffer];
    rewrite decide_False by (rewrite Hdo1, Hl1; intros [?|?]; [lia|done]); done.
Qed.

(** ** Payloads *)

(** [TdsGetbytes] inside a packet: the next bytes of the stream, or the end. *)
Lemma wait_data_spec fuel s :
  recv_ok s -> 0 < TdsLeftInPacket s ->
  if decide (unread s = []) then exists s', wait_data (S fuel) s = Eof s'
  else exists s', wait_data (S fuel) s = Done tt s' /\ moved s s' /\ 0 < avail s'.
Proof.
  intros Hok Hl. pose proof (TdsRecvbuf_body s Hok Hl) as Hb. cbn [wait_data].
  destruct (decide (TdsLeftInPacket s = 0 \/ TdsRecvEnd s <= TdsRecvStart s)) as [Hc|Hc].
  - case_decide; [by destruct Hb as [s' ->]; eexists|].
    destruct Hb as (s1 & -> & Hm & Hav). cbn [io_bind]. exists s1. split; [|done].
    pose proof Hm as (_ & _ & Hp & _). injection Hp as _ _ _ Hp. unfold avail in Hav.
    destruct fuel; cbn [wait_data]; rewrite decide_False by lia; done.
  - rewrite decide_False.
    + exists s. split_and!; try done. unfold avail. lia.
    + intros Hu. apply (f_equal length) in Hu. rewrite length_unread in Hu by done.
      unfold avail in Hu. cbn in Hu. lia.
Qed.

Definition after (b : bool) (left : nat) : bool := if decide (left = 0) then true else b.

Lemma consume_spec s b ty st n amount :
  recv_ok s -> packet s = (b, ty, st, n) -> amount <= avail s ->
  at_stream s
    (TdsConsumedBytes (set_recv s (TdsRecvBuffer s) (TdsRecvStart s + amount) (TdsRecvEnd s) (reads s))
       amount)
    (after b (n - amount), ty, st, n - amount) (drop amount (unread s)).
Proof.
  intros Hok Hp Ha. destruct (slice_unread s amount Hok Ha) as [_ Hd].
  pose proof (packet_fields _ _ _ _ _ Hp) as (Hdo & Hty & Hst & Hl). destruct Hok as (? & ? & ?).
  unfold avail in Ha. split_and!; [|done| |done].
  - unfold recv_ok. cbn. lia.
  - unfold packet, TdsConsumedBytes. cbn. by rewrite Hdo, Hty, Hst, Hl.
Qed.

Lemma TdsGetbytes_spec fuel len s b ty st n :
  recv_ok s -> packet s = (b, ty, st, n) -> len <= n -> len <= fuel \/ length (unread s) < fuel ->
  if decide (length (unread s) < len) then exists s', TdsGetbytes fuel len s = Eof s'
  else exists s', TdsGetbytes fuel len s = Done (take len (unread s)) s' /\
         at_stream s s' (if decide (len = 0) then b else after b (n - len), ty, st, n - len)
           (drop len (unread s)).
Proof.
  revert len s b n. induction fuel as [|fuel IH]; intros len s b n Hok Hp Hn Hf.
  { assert (len = 0) as -> by lia. cbn. exists s. split; [done|].
    rewrite drop_0, Nat.sub_0_r. done. }
  cbn [TdsGetbytes]. destruct (decide (0 < len)) as [Hlen|Hlen].
  2:{ assert (len = 0) as -> by lia. cbn. exists s. split; [done|].
      rewrite drop_0, Nat.sub_0_r. done. }
  pose proof (packet_left _ _ _ _ _ Hp) as Hl.
  pose proof (wait_data_spec fuel s Hok ltac:(lia)) as Hw. case_decide as Hu.
  { destruct Hw as [s1 ->]. rewrite Hu, decide_True by (cbn; lia). by eexists. }
  destruct Hw as (s1 & -> & Hm & Hav). cbn [io_bind]. pose proof Hm as (Hok1 & Hu1 & Hp1 & _).
  rewrite Hp in Hp1. rewrite (packet_left _ _ _ _ _ Hp1).
  set (amount := len `min` _). assert (0 < amount <= len) as Ha by (unfold amount, avail in *; lia).
  assert (amount <= avail s1) as Ha1 by (unfold amount, avail; lia).
  pose proof (consume_spec s1 b ty st n amount Hok1 Hp1 Ha1) as Hc.
  destruct (slice_unread s1 amount Hok1 Ha1) as [-> _]. rewrite Hu1 in Hc |- *.
  pose proof (length_unread s1 Hok1) as Hlu. rewrite Hu1 in Hlu.
  pose proof Hc as (Hok2 & Hu2 & Hp2 & _).
  specialize (IH (len - amount) _ _ _ Hok2 Hp2 ltac:(lia) ltac:(rewrite Hu2, length_drop; lia)).
  rewrite Hu2, length_drop in IH. case_decide as Hs.
  - rewrite decide_True by lia. destruct IH as [s3 ->]. by eexists.
  - rewrite decide_False by lia.
    destruct IH as (s3 & -> & Hat). cbn [io_bind]. exists s3. split.
    + f_equal. rewrite take_take_drop. f_equal. lia.
    + rewrite decide_False by lia.
      pose proof (at_stream_trans _ _ _ _ _ _ _ Hm (at_stream_trans _ _ _ _ _ _ _ Hc Hat)) as Hat'.
      rewrite drop_drop in Hat'. replace (amount + (len - amount)) with len in Hat' by lia.
      replace (n - amount - (len - amount)) with (n - len) in Hat' by lia.
      revert Hat'. unfold after. repeat case_decide; try done; try lia.
Qed.

Lemma TdsDiscardbytes_getbytes fuel len s :
  TdsDiscardbytes fuel len s = (do! _, s := TdsGetbytes fuel len s in Done tt s).
Proof.
  revert len s. induction fuel as [|fuel IH]; intros len s; cbn; [by case_decide|].
  case_decide; [|done]. destruct (if decide _ then _ else _) as [[] s1| | | |]; try done. cbn.
  rewrite IH. by destruct (TdsGetbytes _ _ _).
Qed.

(** ** Requests *)

(** A message of the stream: payload, status and type of the first header, what
    follows, and whether the last packet carried no payload.  [Q_spin] is a packet
    without payload that is not the last one. *)
Inductive request_result :=
| Q_message (message : list Z) (status ty : Z) (rest : list Z) (empty_last : bool)
| Q_error (e : comm_error)
| Q_eof
| Q_spin.

Fixpoint request (n size : nat) (bs : list Z) : request_result :=
  match n with
  | 0 => Q_eof
  | S n' =>
      match next_header size bs with
      | H_too_long len => Q_error (packet_length_exceeds len size)
      | H_too_short => Q_error packet_with_insufficient_data
      | H_eof => Q_eof
      | H_ok ty st k body =>
          if decide (length body < k) then Q_eof
          else if eom st then Q_message (take k body) st ty (drop k body) (bool_decide (k = 0))
          else if decide (ty = TDS_BULK_LOAD) then Q_message (take k body) st ty (drop k body) false
          else if decide (k = 0) then Q_spin
          else match request n' size (drop k body) with
               | Q_message m _ _ rest e => Q_message (take k body ++ m) st ty rest e
               | q => q
               end
      end
  end.

(** A packet without payload that is not final: every further turn of the loop finds
    the same state. *)
Lemma read_request_spins fuel message first s ty st :
  packet s = (false, ty, st, 0) -> eom st = false -> ty <> TDS_BULK_LOAD ->
  read_request fuel message first s = OutOfFuel.
Proof.
  intros (Hdo & Hty & Hst & Hl)%packet_fields He Hb. revert message first.
  induction fuel as [|fuel IH]; intros message first; [done|]. cbn [read_request].
  cbn [TdsReadNextBuffer]. rewrite decide_False by (rewrite Hl, Hdo; intros [?|?]; [lia|done]).
  cbn [io_bind]. rewrite Hl. cbn [TdsGetbytes]. rewrite decide_False by lia. cbn [io_bind].
  rewrite Hst, He, Hty, decide_False by done. apply IH.
Qed.

Definition request_spec (s : comm) (message : list Z) (first : option (Z * Z)) (q : request_result)
    (r : io (list Z * Z * Z)) : Prop :=
  match q with
  | Q_message m st ty rest e =>
      let f := default (ty, st) first in
      exists s' ty' st', r = Done (message ++ m, snd f, fst f) s' /\
        at_stream s s' (negb (e && bool_decide (0 < avail s')), ty', st', 0) rest /\
        (eom st' = true \/ ty' = TDS_BULK_LOAD)
  | Q_error e => exists s', r = Raise e s'
  | Q_eof => exists s', r = Eof s'
  | Q_spin => r = OutOfFuel
  end.

Lemma next_header_length size bs ty st k body :
  next_header size bs = H_ok ty st k body -> length bs = 8 + length body.
Proof.
  unfold next_header. do 8 (destruct bs as [|? bs]; [done|]). do 2 (case_decide; [done|]).
  by intros [= _ _ _ ->].
Qed.

Lemma set_do_header_at s s' b ty st n bs b' :
  at_stream s s' (b, ty, st, n) bs -> at_stream s (set_do_header s' b') (b', ty, st, n) bs.
Proof. intros (? & ? & [= _ <- <- <-] & ?). done. Qed.

(** The payload of the current packet. *)
Lemma read_payload fuel s b ty st k :
  recv_ok s -> packet s = (b, ty, st, k) -> length (unread s) < fuel ->
  if decide (length (unread s) < k) then exists s', TdsGetbytes fuel (TdsLeftInPacket s) s = Eof s'
  else exists s', TdsGetbytes fuel (TdsLeftInPacket s) s = Done (take k (unread s)) s' /\
         at_stream s s' (if decide (k = 0) then b else true, ty, st, 0) (drop k (unread s)).
Proof.
  intros Hok Hp Hf. rewrite (packet_left _ _ _ _ _ Hp).
  pose proof (TdsGetbytes_spec fuel k s b ty st k Hok Hp ltac:(lia) ltac:(lia)) as H.
  rewrite Nat.sub_diag in H. exact H.
Qed.

(** After the last packet the header of the next message is due, except that a
    packet without payload leaves the flag down when more bytes are in the buffer. *)
Lemma end_of_message s s2 ty st k bs :
  at_stream s s2 (if decide (k = 0) then false else true, ty, st, 0) bs ->
  exists s', (if decide (0 = 0 /\ TdsRecvStart s2 = TdsRecvEnd s2) then set_do_header s2 true
              else s2) = s' /\
    at_stream s s' (negb (bool_decide (k = 0) && bool_decide (0 < avail s')), ty, st, 0) bs.
Proof.
  intros Hat. pose proof Hat as ((_ & Hse & _) & _).
  destruct (decide (0 = 0 /\ TdsRecvStart s2 = TdsRecvEnd s2)) as [Heq|Heq];
    (eexists; split; [done|]).
  - replace (avail (set_do_header s2 true)) with 0 by (unfold avail; cbn; lia).
    rewrite andb_false_r. by eapply set_do_header_at.
  - unfold avail. rewrite (bool_decide_eq_true_2 (0 < _)) by lia. rewrite andb_true_r.
    case_decide; [rewrite bool_decide_eq_true_2 by done|rewrite bool_decide_eq_false_2 by done];
      exact Hat.
Qed.

Lemma read_request_spec n : forall fuel message first s ty0 st0,
  recv_ok s -> packet s = (true, ty0, st0, 0) ->
  length (unread s) < n -> length (unread s) < fuel ->
  request_spec s message first (request n (TdsBufferSize s) (unread s))
    (read_request fuel message first s).
Proof.
  induction n as [|n IH]; intros fuel message first s ty0 st0 Hok Hp Hn Hf; [lia|].
  destruct fuel as [|fuel]; [lia|]. cbn [read_request request].
  pose proof (TdsReadNextBuffer_boundary fuel s ty0 st0 Hok Hp) as Hb. unfold boundary_spec in Hb.
  destruct (next_header _ _) as [ty st k body| | |] eqn:Hh; [|by destruct Hb as [s' ->]; eexists..].
  pose proof (next_header_length _ _ _ _ _ _ Hh) as Hlen.
  destruct (decide (0 < k /\ body = [])) as [[Hk ->]|Hnb].
  { destruct Hb as [s' ->]. rewrite decide_True by (cbn; lia). by eexists. }
  destruct Hb as (s1 & -> & Hat1 & _). cbn [io_bind]. pose proof Hat1 as (Hok1 & Hu1 & Hp1 & Ho1).
  pose proof (read_payload (S fuel) s1 _ _ _ _ Hok1 Hp1 ltac:(rewrite Hu1; lia)) as Hg. rewrite Hu1 in Hg.
  pose proof (packet_fields _ _ _ _ _ Hp1) as (_ & Hty1 & Hst1 & _). rewrite Hty1, Hst1.
  destruct (decide (length body < k)) as [Hs|Hs].
  { destruct Hg as [s2 ->]. by eexists. }
  destruct Hg as (s2 & -> & Hat2'). cbn [io_bind].
  pose proof (at_stream_trans _ _ _ _ _ _ _ Hat1 Hat2') as Hat2.
  pose proof Hat2 as (Hok2 & Hu2 & (Hdo2 & Hty2 & Hst2 & Hl2)%packet_fields & Ho2).
  rewrite Hst2, Hty2, Hl2.
  destruct (eom st) eqn:He; [|destruct (decide (ty = TDS_BULK_LOAD)) as [Hbk|Hbk]].
  - destruct (end_of_message s s2 ty st k (drop k body) Hat2) as (s3 & -> & Hat3).
    exists s3, ty, st. auto.
  - exists (set_do_header s2 true), ty, st. split_and!; auto.
    eapply set_do_header_at. exact Hat2.
  - destruct (decide (k = 0)) as [->|Hk].
    + cbn [request_spec]. eapply read_request_spins; [|done..].
      destruct Hat2 as (_ & _ & ? & _). done.
    + specialize (IH fuel (message ++ take k body) (Some (default (ty, st) first)) s2 ty st Hok2).
      rewrite Hu2, length_drop, (outside_size _ _ Ho2) in IH.
      destruct Hat2 as (_ & _ & Hp2 & _).
      specialize (IH Hp2 ltac:(lia) ltac:(lia)).
      destruct (request n _ _) as [m st' ty' rest e| | |]; try done.
      destruct IH as (s' & ty2 & st2 & -> & Hat' & ?). exists s', ty2, st2. split_and!; auto.
      * cbn. by rewrite <-app_assoc.
      * exact (at_stream_trans _ _ _ _ _ _ _ (at_stream_trans _ _ _ _ _ _ _ Hat1 Hat2') Hat').
Qed.
