(* ===== verification/TdsSend.v ===== *)
(** * TdsSend: the sending side produces the packets of the message

    [packets] cuts a message into packets.  Whatever the caller's pattern of puts
    and whichever way the socket accepts the bytes, the wire carries exactly that. *)
From stdpp Require Import base list numbers.
From S2P Require Import Prelude TdsComm TdsRecv.

(** ** The packets of a message *)

Fixpoint packetize (n size : nat) (ty : Z) (bs : list Z) : list Z :=
  match n with
  | 0 => []
  | S n' =>
      if decide (length bs <= size - TDS_PACKET_HEADER_SIZE)
      then header_bytes ty true (TDS_PACKET_HEADER_SIZE + length bs) ++ bs
      else header_bytes ty false size ++ take (size - TDS_PACKET_HEADER_SIZE) bs ++
           packetize n' size ty (drop (size - TDS_PACKET_HEADER_SIZE) bs)
  end.

Definition packets (size : nat) (ty : Z) (bs : list Z) : list Z := packetize (S (length bs)) size ty bs.

(** The send buffer can hold a header and a byte, and its size fits the 16-bit
    length field. *)
Definition size_ok (size : nat) : Prop := TDS_PACKET_HEADER_SIZE < size /\ (Z.of_nat size <= 65535)%Z.

Lemma packetize_fuel size ty n m bs :
  size_ok size -> length bs < n -> length bs < m -> packetize n size ty bs = packetize m size ty bs.
Proof.
  intros [Hs _]. revert m bs. induction n as [|n IH]; intros [|m] bs Hn Hm; try lia.
  cbn [packetize]. case_decide; [done|]. do 2 f_equal. apply IH; rewrite length_drop; lia.
Qed.

Lemma packets_last size ty bs :
  length bs <= size - TDS_PACKET_HEADER_SIZE ->
  packets size ty bs = header_bytes ty true (TDS_PACKET_HEADER_SIZE + length bs) ++ bs.
Proof. intros. unfold packets. cbn [packetize]. by rewrite decide_True. Qed.

Lemma packets_more size ty bs more :
  size_ok size -> length bs = size - TDS_PACKET_HEADER_SIZE -> more <> [] ->
  packets size ty (bs ++ more) = header_bytes ty false size ++ bs ++ packets size ty more.
Proof.
  intros Hs Hl Hm. unfold packets at 1. cbn [packetize]. destruct more as [|b more]; [done|].
  rewrite length_app. cbn [length]. rewrite decide_False by lia.
  rewrite take_app_length', drop_app_length' by done. do 2 f_equal.
  pose proof Hs as [Hs' _]. apply packetize_fuel; [done|cbn; lia..].
Qed.

(** ** The send loop *)

(** A socket in blocking mode never answers that it would block. *)
Definition blocking (evs : list write_event) : Prop := Forall (fun e => e <> W_again) evs.

(** What the sending side leaves alone. *)
Definition inside (s : comm) :=
  (TdsBufferSize s, TdsDoProcessHeader s, TdsRecvBuffer s, TdsRecvStart s, TdsRecvEnd s,
   TdsRecvMessageType s, TdsRecvPacketStatus s, TdsLeftInPacket s, reads s).

(** [r] sent [bs] and continues in a state satisfying [Q], or the connection was lost
    after a part of [bs]. *)
Definition sends (s : comm) (bs : list Z) (r : io unit) (Q : comm -> Prop) : Prop :=
  (exists s', r = Done tt s' /\ wire s' = wire s ++ bs /\ inside s' = inside s /\
     blocking (writes s') /\ Q s') \/
  (exists s' part, r = Eof s' /\ wire s' = wire s ++ part /\ part `prefix_of` bs /\
     inside s' = inside s /\ ClientConnectionLost s' = true).

Definition send_fields (s : comm) := (TdsSendBuffer s, TdsSendCur s, TdsSendStart s, TdsSendMessageType s).

(** Sending [bs1], then [bs2]. *)
Lemma sends_step s s1 bs1 bs2 r Q :
  wire s1 = wire s ++ bs1 -> inside s1 = inside s -> sends s1 bs2 r Q -> sends s (bs1 ++ bs2) r Q.
Proof.
  intros Hw Hi [(s' & -> & Hw' & Hi' & Hb & HQ)|(s' & p & -> & Hw' & Hp & Hi' & Hl)].
  - left. exists s'. split_and!; try done; [by rewrite Hw', Hw, app_assoc|congruence].
  - right. exists s', (bs1 ++ p). split_and!; try done; [by rewrite Hw', Hw, app_assoc| |congruence].
    by apply prefix_app.
Qed.

Lemma flush_loop_spec evs : forall s,
  TdsSendStart s <= TdsSendCur s <= length (TdsSendBuffer s) -> writes s = evs -> blocking evs ->
  sends s (slice (TdsSendBuffer s) (TdsSendStart s) (TdsSendCur s)) (flush_loop evs s)
    (fun s' => send_fields s' = (TdsSendBuffer s, TDS_PACKET_HEADER_SIZE, 0, TdsSendMessageType s)).
Proof.
  induction evs as [|e evs IH]; intros s Hr Hw Hb; cbn [flush_loop].
  - left. case_decide; (eexists; split; [done|]); cbn; split_and!; try done.
    + rewrite slice_nil by lia. by rewrite app_nil_r.
    + by rewrite Hw.
  - inversion Hb as [|? ? He Hb']; subst. case_decide as Hlt.
    2:{ left. eexists. split; [done|]. cbn. rewrite slice_nil, app_nil_r by lia.
        split_and!; try done. by rewrite Hw. }
    destruct e as [n| | |]; [|..|done|].
    + set (bs := slice _ _ _). assert (length bs = TdsSendCur s - TdsSendStart s) as Hl
        by (apply length_slice; lia).
      assert (take (S n) bs ++ slice (TdsSendBuffer s) (TdsSendStart s + length (take (S n) bs))
                (TdsSendCur s) = bs) as Happ.
      { rewrite slice_drop. fold bs. rewrite length_take, Hl.
        destruct (decide (S n <= length bs)) as [?|?].
        - rewrite Nat.min_l by lia. apply take_drop.
        - rewrite Nat.min_r, take_ge, drop_ge by lia. apply app_nil_r. }
      pose proof (IH (sent s (take (S n) bs) evs)) as H. cbn in H.
      specialize (H ltac:(rewrite length_take; lia) eq_refl Hb').
      apply (sends_step s _ (take (S n) bs)) in H; [|done..]. by rewrite Happ in H.
    + exact (IH (set_writes s evs (ClientConnectionLost s)) Hr eq_refl Hb').
    + right. eexists _, []. split_and!; try done; [cbn; by rewrite app_nil_r|apply prefix_nil].
Qed.

(** ** [InternalFlush] *)

(** The send buffer holds [rest] behind the room for a header. *)
Definition loaded (s : comm) (ty : Z) (rest : list Z) : Prop :=
  length (TdsSendBuffer s) = TdsBufferSize s /\ size_ok (TdsBufferSize s) /\ TdsSendStart s = 0 /\
  TdsSendCur s = TDS_PACKET_HEADER_SIZE + length rest /\ TdsSendCur s <= TdsBufferSize s /\
  slice (TdsSendBuffer s) TDS_PACKET_HEADER_SIZE (TdsSendCur s) = rest /\
  TdsSendMessageType s = ty /\ blocking (writes s).

Lemma inside_size s s' : inside s' = inside s -> TdsBufferSize s' = TdsBufferSize s.
Proof. unfold inside. congruence. Qed.

Lemma InternalFlush_spec last s ty rest :
  loaded s ty rest ->
  sends s (header_bytes ty last (TDS_PACKET_HEADER_SIZE + length rest) ++ rest) (InternalFlush last s)
    (fun s' => loaded s' (if last then 0%Z else ty) []).
Proof.
  intros (Hl & Hsz & Hst & Hcur & Hle & Hsl & Hty & Hb). unfold InternalFlush, TdsFillHeader.
  rewrite (decide_True _ _ Hst), Hst, Hty, Nat.sub_0_r, Hcur.
  set (hdr := header_bytes _ _ _). assert (length hdr = 8) as Hh by done.
  destruct (blit (TdsSendBuffer s) 0 hdr) as [buf|] eqn:Hbl.
  2:{ rewrite blit_ok in Hbl; [done|]. rewrite Hh, Hl. destruct Hsz. unfold TDS_PACKET_HEADER_SIZE in *. lia. }
  pose proof (length_blit _ _ _ _ Hbl) as Hlb.
  set (s1 := set_send s _ _ _ _).
  set (s2 := if last then _ else s1).
  assert (inside s2 = inside s /\ wire s2 = wire s /\ writes s2 = writes s) as (Hi & Hw & Hwr)
    by (unfold s2, s1; by destruct last).
  assert (TdsSendBuffer s2 = buf /\ TdsSendCur s2 = TDS_PACKET_HEADER_SIZE + length rest /\
    TdsSendStart s2 = 0 /\ TdsSendMessageType s2 = if last then 0%Z else ty) as (Hf1 & Hf2 & Hf3 & Hf4)
    by (unfold s2, s1; by destruct last).
  pose proof (flush_loop_spec (writes s2) s2) as H. rewrite Hf1, Hf2, Hf3, Hf4, Hwr in H.
  specialize (H ltac:(lia) eq_refl Hb). rewrite Hwr.
  replace (slice buf 0 (TDS_PACKET_HEADER_SIZE + length rest)) with ([] ++ hdr ++ rest) in H.
  - apply (sends_step s _ []) in H; [|by rewrite app_nil_r|done].
    destruct H as [(s' & E & Hw' & Hi' & Hb' & Hq)|Hlost]; [left|by right].
    exists s'. split_and!; try done. injection Hq as Hq1 Hq2 Hq3 Hq4.
    assert (TdsBufferSize s' = TdsBufferSize s) as Hsz' by (by apply inside_size).
    unfold loaded. rewrite Hq1, Hq2, Hq3, Hq4, Hsz'. destruct Hsz.
    split_and!; try done; try lia.
  - rewrite <-(slice_app buf 0 TDS_PACKET_HEADER_SIZE) by lia. cbn [app]. f_equal.
    + exact (eq_sym (slice_blit_same _ _ _ _ Hbl)).
    + by rewrite (slice_blit_after _ _ _ _ _ _ Hbl), <-Hcur by (rewrite Hh; done).
Qed.

(** ** Puts *)

(** After puts of [data] since [w0]: full packets are on the wire and the rest is in
    the buffer, whatever is put later. *)
Definition pending (w0 : list Z) (ty : Z) (data : list Z) (s : comm) : Prop :=
  exists out rest, loaded s ty rest /\ wire s = w0 ++ out /\
    forall more, packets (TdsBufferSize s) ty (data ++ more) =
                 out ++ packets (TdsBufferSize s) ty (rest ++ more).

Lemma loaded_pending s ty : loaded s ty [] -> pending (wire s) ty [] s.
Proof. intros H. exists [], []. split_and!; [done|by rewrite app_nil_r|done]. Qed.

(** Copying bytes that fit behind what is loaded. *)
Lemma load_more s ty rest bs :
  loaded s ty rest -> TdsSendCur s + length bs <= TdsBufferSize s ->
  exists buf, blit (TdsSendBuffer s) (TdsSendCur s) bs = Some buf /\
    loaded (set_send s buf (TdsSendCur s + length bs) (TdsSendStart s) (TdsSendMessageType s)) ty
      (rest ++ bs).
Proof.
  intros (Hl & Hsz & Hst & Hcur & Hle & Hsl & Hty & Hb) Hfit.
  destruct (blit _ _ bs) as [buf|] eqn:Hbl; [|rewrite blit_ok in Hbl by lia; done].
  exists buf. split; [done|]. pose proof (length_blit _ _ _ _ Hbl) as Hlb.
  unfold loaded. cbn. rewrite length_app. split_and!; try done; try lia.
  rewrite <-(slice_app buf _ (TdsSendCur s)) by lia. f_equal.
  - rewrite (slice_blit_before _ _ _ _ _ _ Hbl) by lia. done.
  - apply (slice_blit_same _ _ _ _ Hbl).
Qed.

(** The two outcomes of puts: everything is pending, or the connection was lost after
    a part of what any continuation would have sent. *)
Definition put_spec (w0 : list Z) (ty : Z) (data : list Z) (s : comm) (r : io unit) : Prop :=
  (exists s', r = Done tt s' /\ pending w0 ty data s' /\ inside s' = inside s) \/
  (exists s' part, r = Eof s' /\ wire s' = w0 ++ part /\ inside s' = inside s /\
     ClientConnectionLost s' = true /\
     forall more, part `prefix_of` packets (TdsBufferSize s) ty (data ++ more)).

(** Making room: a full buffer goes out as a packet that is not the last. *)
Lemma make_room w0 ty data s :
  pending w0 ty data s ->
  let r := if decide (TdsBufferSize s <= TdsSendCur s) then InternalFlush false s else Done tt s in
  (exists s' out rest, r = Done tt s' /\ inside s' = inside s /\ TdsSendCur s' < TdsBufferSize s' /\
     loaded s' ty rest /\ wire s' = w0 ++ out /\
     forall x, x <> [] -> packets (TdsBufferSize s) ty (data ++ x) =
                          out ++ packets (TdsBufferSize s) ty (rest ++ x)) \/
  (exists s' part, r = Eof s' /\ wire s' = w0 ++ part /\ inside s' = inside s /\
     ClientConnectionLost s' = true /\
     forall x, x <> [] -> part `prefix_of` packets (TdsBufferSize s) ty (data ++ x)).
Proof.
  intros (out & rest & Hld & Hw & Heq) r. unfold r. clear r.
  case_decide as Hfull.
  2:{ left. exists s, out, rest. split_and!; auto; lia. }
  pose proof Hld as (_ & Hsz & _ & Hcur & Hle & _).
  assert (length rest = TdsBufferSize s - TDS_PACKET_HEADER_SIZE) as Hlen by lia.
  assert (forall x, x <> [] -> packets (TdsBufferSize s) ty (data ++ x) =
    (out ++ header_bytes ty false (TDS_PACKET_HEADER_SIZE + length rest) ++ rest) ++
    packets (TdsBufferSize s) ty x) as Heq'.
  { intros x Hx. rewrite Heq, (packets_more _ _ rest x Hsz Hlen Hx).
    rewrite <-!app_assoc. do 3 f_equal. lia. }
  destruct (InternalFlush_spec false s ty rest Hld)
    as [(s' & E & Hw' & Hi & _ & Hld')|(s' & p & E & Hw' & Hp & Hi & Hlost)].
  - left. eexists s', _, []. split_and!; [done..| |done| |exact Heq'].
    + destruct Hld' as (_ & [? _] & _ & -> & _). cbn. lia.
    + by rewrite Hw', Hw, <-app_assoc.
  - right. exists s', (out ++ p). split_and!; try done.
    + by rewrite Hw', Hw, <-app_assoc.
    + intros x Hx. rewrite (Heq' x Hx). apply prefix_app_r. by apply prefix_app.
Qed.

Lemma put_spec_inside w0 ty data s s1 r :
  inside s1 = inside s -> put_spec w0 ty data s1 r -> put_spec w0 ty data s r.
Proof.
  intros Hi [(s' & -> & Hp & Hi')|(s' & p & -> & Hw & Hi' & Hl & Hm)].
  - left. exists s'. split_and!; try done. congruence.
  - right. exists s', p. rewrite (inside_size _ _ Hi) in Hm. split_and!; try done. congruence.
Qed.

Lemma InternalPutbytes_spec fuel : forall bs s w0 ty data,
  pending w0 ty data s -> length bs <= fuel -> put_spec w0 ty (data ++ bs) s (InternalPutbytes fuel bs s).
Proof.
  induction fuel as [|fuel IH]; intros bs s w0 ty data Hp Hf.
  { destruct bs; [|cbn in Hf; lia]. cbn. left. exists s. rewrite app_nil_r. eauto. }
  cbn [InternalPutbytes]. destruct bs as [|b bs].
  { cbn. left. exists s. rewrite app_nil_r. eauto. }
  rewrite decide_True by (cbn; lia).
  destruct (make_room w0 ty data s Hp)
    as [(s1 & out & rest & -> & Hi & Hlt & Hld & Hw & Heq)|(s1 & p & -> & Hw & Hi & Hlost & Hpre)].
  2:{ right. exists s1, p. split_and!; try done. intros more. rewrite <-app_assoc. by apply Hpre. }
  cbn [io_bind]. set (amount := _ `min` _).
  assert (0 < amount <= length (b :: bs)) as Ha by (unfold amount; cbn; lia).
  assert (length (take amount (b :: bs)) = amount) as Hl by (rewrite length_take; lia).
  destruct (load_more s1 ty rest (take amount (b :: bs)) Hld) as (buf & -> & Hld').
  { rewrite Hl. unfold amount. lia. }
  rewrite Hl in Hld'. apply (put_spec_inside _ _ _ _ _ _ Hi).
  assert (data ++ b :: bs = (data ++ take amount (b :: bs)) ++ drop amount (b :: bs)) as ->
    by (by rewrite <-app_assoc, take_drop).
  eapply put_spec_inside; [|apply (IH (drop amount (b :: bs)) _ w0 ty (data ++ take amount (b :: bs)))].
  - done.
  - exists out, (rest ++ take amount (b :: bs)). split_and!; [done..|]. intros more.
    cbn [TdsBufferSize set_send]. rewrite (inside_size _ _ Hi), <-!app_assoc. apply Heq.
    intros Hn. apply (f_equal length) in Hn. rewrite length_app, Hl in Hn. cbn in Hn. lia.
  - rewrite length_drop. lia.
Qed.

(** The last flush completes the message. *)
Lemma TdsSocketFlush_spec w0 ty data s :
  pending w0 ty data s ->
  (exists s', TdsSocketFlush s = Done tt s' /\ wire s' = w0 ++ packets (TdsBufferSize s) ty data /\
     inside s' = inside s /\ loaded s' 0 []) \/
  (exists s' part, TdsSocketFlush s = Eof s' /\ wire s' = w0 ++ part /\
     part `prefix_of` packets (TdsBufferSize s) ty data /\ inside s' = inside s /\
     ClientConnectionLost s' = true).
Proof.
  intros (out & rest & Hld & Hw & Heq). specialize (Heq []). rewrite !app_nil_r in Heq.
  pose proof Hld as (_ & _ & _ & Hcur & Hle & _). rewrite (packets_last _ _ rest) in Heq by lia.
  destruct (InternalFlush_spec true s ty rest Hld)
    as [(s' & E & Hw' & Hi & _ & Hld')|(s' & p & E & Hw' & Hp & Hi & Hlost)].
  - left. exists s'. split_and!; try done. by rewrite Hw', Hw, <-app_assoc, Heq.
  - right. exists s', (out ++ p). split_and!; try done; [by rewrite Hw', Hw, <-app_assoc|].
    rewrite Heq. by apply prefix_app.
Qed.
