(* ===== verification/TdsTheorems.v ===== *)
(** * TdsTheorems: what the TDS packet layer guarantees *)
From stdpp Require Import base list numbers.
From S2P Require Import Prelude TdsComm TdsRecv TdsSend.

(** The receiver is at the start of a message. *)
Definition at_message (s : comm) : Prop :=
  recv_ok s /\ TdsDoProcessHeader s = true /\ TdsLeftInPacket s = 0.

Lemma at_message_packet s :
  at_message s ->
  recv_ok s /\ packet s = (true, TdsRecvMessageType s, TdsRecvPacketStatus s, 0).
Proof. intros (? & Hd & Hl). split; [done|]. unfold packet. by rewrite Hd, Hl. Qed.

(** The sender has nothing in progress. *)
Definition idle (s : comm) : Prop := loaded s 0 [].

(** ** Headers *)

Lemma u16_length len : (Z.of_nat len <= 65535)%Z ->
  (u8 (Z.shiftr (u16 (Z.of_nat len)) 8) * 256 + u8 (Z.of_nat len) = Z.of_nat len)%Z.
Proof.
  intros H. unfold u8, u16, uwrap. rewrite Z.shiftr_div_pow2 by lia.
  change (2 ^ 8)%Z with 256%Z. change (2 ^ 16)%Z with 65536%Z.
  rewrite (Z.mod_small (Z.of_nat len) 65536) by lia.
  rewrite (Z.mod_small (Z.of_nat len / 256)) by (split; [apply Z.div_pos|apply Z.div_lt_upper_bound]; lia).
  pose proof (Z.div_mod (Z.of_nat len) 256). lia.
Qed.

Lemma next_header_bytes size ty last len rest :
  TDS_PACKET_HEADER_SIZE <= len <= size -> (Z.of_nat len <= 65535)%Z ->
  next_header size (header_bytes ty last len ++ rest) =
  H_ok ty (if last then 1 else 0)%Z (len - TDS_PACKET_HEADER_SIZE) rest.
Proof.
  intros Hl H. unfold header_bytes. cbn [app next_header]. rewrite u16_length, Nat2Z.id by done.
  unfold TDS_PACKET_HEADER_SIZE in *. by rewrite !decide_False by lia.
Qed.

(** The packets of a message parse back to the message. *)
Lemma request_packetize k size size' ty : forall n bs extra,
  size_ok size -> size <= size' -> length bs < k -> length bs < n ->
  ty <> TDS_BULK_LOAD \/ length bs <= size - TDS_PACKET_HEADER_SIZE ->
  exists st, request n size' (packetize k size ty bs ++ extra) =
    Q_message bs st ty extra (bool_decide (bs = [])).
Proof.
  induction k as [|k IH]; intros n bs extra Hs Hle Hk Hn Hb; [lia|]. destruct n as [|n]; [lia|].
  pose proof Hs as [Hs1 Hs2]. unfold TDS_PACKET_HEADER_SIZE in Hs1.
  cbn [packetize request]. case_decide as Hfit.
  - rewrite <-app_assoc, next_header_bytes; unfold TDS_PACKET_HEADER_SIZE in *; [|lia..].
    replace (8 + length bs - 8) with (length bs) by lia.
    rewrite decide_False by (rewrite length_app; lia). cbn [eom]. change (eom 1) with true. cbn iota.
    rewrite take_app_length, drop_app_length. exists 1%Z. f_equal. by destruct bs.
  - rewrite <-!app_assoc, next_header_bytes; unfold TDS_PACKET_HEADER_SIZE in *; [|lia..].
    assert (length (take (size - 8) bs) = size - 8) as Hl by (rewrite length_take; lia).
    rewrite decide_False by (rewrite length_app, Hl; lia). change (eom 0) with false. cbn iota.
    rewrite decide_False by (destruct Hb; [done|lia]). rewrite decide_False by lia.
    rewrite take_app_length', drop_app_length' by done.
    destruct (IH n (drop (size - 8) bs) extra) as [st ->];
      [done|done|rewrite length_drop; lia..|left; destruct Hb; [done|lia]|].
    exists 0%Z. rewrite take_drop. f_equal. rewrite !bool_decide_eq_false_2; [done|..].
    + intros ->. cbn in Hfit. lia.
    + intros Hd. apply (f_equal length) in Hd. rewrite length_drop in Hd. cbn in Hd. lia.
Qed.

(** ** Receiving *)

(** What a request read from the stream [bs] comes to: the answer of the abstract
    parser, in a state that presents the rest of the stream. *)
Definition refines_request (s : comm) (r : io (list Z * Z * Z)) : Prop :=
  match request (S (length (unread s))) (TdsBufferSize s) (unread s) with
  | Q_message m st ty rest empty_last =>
      exists s', r = Done (m, st, ty) s' /\ recv_ok s' /\ unread s' = rest /\
        TdsLeftInPacket s' = 0 /\ outside s' = outside s /\
        TdsDoProcessHeader s' = negb (empty_last && bool_decide (0 < avail s'))
  | Q_error e => exists s', r = Raise e s'
  | Q_eof => exists s', r = Eof s'
  | Q_spin => r = OutOfFuel
  end.

(** C2: For every way the socket delivers, interrupts, fails or ends the byte stream, [TdsReadNextRequest] computes exactly the abstract parser [request] of the bytes still unread: the concatenated payloads with the first header's status and type, the two protocol errors, end of file, or (for a non-final packet without payload) no return; it never copies outside the receive buffer and leaves the rest of the stream and the sending side untouched. *)
Theorem TdsReadNextRequest_refines fuel s :
  at_message s -> length (unread s) < fuel -> refines_request s (TdsReadNextRequest fuel s).
Proof.
  intros [Hok Hp]%at_message_packet Hf.
  pose proof (read_request_spec (S (length (unread s))) fuel [] None s _ _ Hok Hp ltac:(lia) Hf) as H.
  unfold refines_request, request_spec, TdsReadNextRequest in *.
  destruct (request _ _ _) as [m st ty rest e| | |]; try done.
  destruct H as (s' & ty' & st' & E & (Hok' & Hu & (Hd & _ & _ & Hl)%packet_fields & Ho) & _).
  exists s'. split_and!; done.
Qed.

(** A packet that carries only its header and is not marked as the last one makes [TdsReadNextRequest] loop for ever: no number of iterations returns, because the header flag is cleared and never raised again. *)
Theorem empty_packet_never_returns fuel s ty st body :
  at_message s -> next_header (TdsBufferSize s) (unread s) = H_ok ty st 0 body ->
  eom st = false -> ty <> TDS_BULK_LOAD ->
  TdsReadNextRequest fuel s = OutOfFuel.
Proof.
  intros [Hok Hp]%at_message_packet Hh He Hb. destruct fuel as [|fuel]; [done|].
  unfold TdsReadNextRequest. cbn [read_request].
  pose proof (TdsReadNextBuffer_boundary fuel s _ _ Hok Hp) as H. unfold boundary_spec in H.
  rewrite Hh, decide_False in H by lia. destruct H as (s1 & -> & (_ & _ & Hp1 & _) & _).
  pose proof (packet_fields _ _ _ _ _ Hp1) as (Hd & Hty & Hst & Hl). cbn [io_bind].
  rewrite Hl, Hty, Hst. cbn [TdsGetbytes]. rewrite decide_False by lia. cbn [io_bind].
  rewrite Hty, Hst, He, decide_False by done. by apply (read_request_spins _ _ _ _ ty st).
Qed.

(** A final packet without payload whose header has been read. *)
Lemma read_request_empty fuel s ty st :
  packet s = (false, ty, st, 0) -> eom st = true ->
  read_request (S fuel) [] None s =
  Done ([], st, ty) (if decide (0 = 0 /\ TdsRecvStart s = TdsRecvEnd s) then set_do_header s true else s).
Proof.
  intros (Hd & Hty & Hst & Hl)%packet_fields He. cbn [read_request TdsReadNextBuffer].
  rewrite decide_False by (rewrite Hl, Hd; intros [?|?]; [lia|done]). cbn [io_bind].
  rewrite Hl, Hty, Hst. cbn [TdsGetbytes]. rewrite decide_False by lia. cbn [io_bind].
  by rewrite Hst, He, Hl.
Qed.

(** After a final packet without payload (an attention, for example) whose successor is already in the buffer, every further call of [TdsReadNextRequest] returns that same empty message again and leaves the state, and so the buffered request, where it is. *)
Theorem empty_message_repeats fuel fuel' s ty st body :
  at_message s -> next_header (TdsBufferSize s) (unread s) = H_ok ty st 0 body -> eom st = true ->
  exists s', TdsReadNextRequest (S fuel) s = Done ([], st, ty) s' /\ unread s' = body /\
    (0 < avail s' -> TdsReadNextRequest (S fuel') s' = Done ([], st, ty) s').
Proof.
  intros [Hok Hp]%at_message_packet Hh He.
  pose proof (TdsReadNextBuffer_boundary fuel s _ _ Hok Hp) as H. unfold boundary_spec in H.
  rewrite Hh, decide_False in H by lia. destruct H as (s1 & E & (Hok1 & Hu1 & Hp1 & _) & _).
  assert (TdsReadNextRequest (S fuel) s = read_request (S fuel) [] None s1) as ->.
  { unfold TdsReadNextRequest. cbn [read_request]. rewrite E. cbn [io_bind].
    pose proof (packet_fields _ _ _ _ _ Hp1) as (Hd & _ & _ & Hl). cbn [TdsReadNextBuffer].
    by rewrite decide_False by (rewrite Hl, Hd; intros [?|?]; [lia|done]). }
  rewrite (read_request_empty _ _ _ _ Hp1 He).
  destruct (decide (0 = 0 /\ TdsRecvStart s1 = TdsRecvEnd s1)) as [Heq|Heq]; (eexists; split_and!; [done..|]).
  - unfold avail. cbn. lia.
  - intros _. unfold TdsReadNextRequest. rewrite (read_request_empty _ _ _ _ Hp1 He). by rewrite decide_False.
Qed.

(** ** Sending *)

(** The calls that append to the current message. *)
Inductive put_op :=
| Put_bytes (bs : list Z)
| Put_Int8 (v : Z)
| Put_UInt8 (v : Z)
| Put_Int16 (v : Z)
| Put_UInt16 (v : Z)
| Put_Date (v : Z)
| Put_Int32 (v : Z)
| Put_UInt32 (v : Z)
| Put_Int64 (v : Z)
| Put_UInt64 (v : Z).

Definition run_put (fuel : nat) (op : put_op) : comm -> io unit :=
  match op with
  | Put_bytes bs => TdsPutbytes fuel bs
  | Put_Int8 v => TdsPutInt8 fuel v
  | Put_UInt8 v => TdsPutUInt8 fuel v
  | Put_Int16 v => TdsPutInt16LE fuel v
  | Put_UInt16 v => TdsPutUInt16LE fuel v
  | Put_Date v => TdsPutDate fuel v
  | Put_Int32 v => TdsPutInt32LE fuel v
  | Put_UInt32 v => TdsPutUInt32LE fuel v
  | Put_Int64 v => TdsPutInt64LE fuel v
  | Put_UInt64 v => TdsPutUInt64LE fuel v
  end.

(** The little-endian encoding each call stands for. *)
Definition bytes_of (op : put_op) : list Z :=
  match op with
  | Put_bytes bs => bs
  | Put_Int8 v | Put_UInt8 v => le_bytes 1 v
  | Put_Int16 v | Put_UInt16 v => le_bytes 2 v
  | Put_Date v => le_bytes 3 v
  | Put_Int32 v | Put_UInt32 v => le_bytes 4 v
  | Put_Int64 v | Put_UInt64 v => le_bytes 8 v
  end.

Fixpoint run_puts (fuel : nat) (ops : list put_op) (s : comm) : io unit :=
  match ops with
  | [] => Done tt s
  | op :: ops' => do! _, s := run_put fuel op s in run_puts fuel ops' s
  end.

Lemma run_put_spec fuel op s w0 ty data :
  pending w0 ty data s -> length (bytes_of op) <= fuel ->
  put_spec w0 ty (data ++ bytes_of op) s (run_put fuel op s).
Proof. intros Hp Hf. destruct op; by apply InternalPutbytes_spec. Qed.

Lemma run_puts_spec fuel ops : forall s w0 ty data,
  pending w0 ty data s -> Forall (fun op => length (bytes_of op) <= fuel) ops ->
  put_spec w0 ty (data ++ (ops ≫= bytes_of)) s (run_puts fuel ops s).
Proof.
  induction ops as [|op ops IH]; intros s w0 ty data Hp Hf; cbn [run_puts mbind list_bind].
  - left. exists s. rewrite app_nil_r. eauto.
  - inversion Hf; subst.
    destruct (run_put_spec fuel op s w0 ty data Hp) as [(s1 & -> & Hp1 & Hi)|(s1 & p & -> & Hw & Hi & Hl & Hm)];
      [done|..].
    + cbn [io_bind]. rewrite app_assoc. eapply put_spec_inside; [exact Hi|]. by apply IH.
    + right. exists s1, p. split_and!; try done. intros more. rewrite app_assoc, <-app_assoc.
      apply Hm.
Qed.

(** Setting the message type, putting, flushing. *)
Definition send_message (fuel : nat) (ty : Z) (ops : list put_op) (s : comm) : io unit :=
  do! _, s := run_puts fuel ops (TdsSetMessageType ty s) in TdsSocketFlush s.

Lemma idle_pending s ty : idle s -> pending (wire s) ty [] (TdsSetMessageType ty s).
Proof.
  intros (? & ? & ? & ? & ? & ? & ? & ?). apply (loaded_pending (TdsSetMessageType ty s)).
  unfold loaded. cbn. split_and!; done.
Qed.

Lemma send_message_spec fuel ty ops s :
  idle s -> Forall (fun op => length (bytes_of op) <= fuel) ops ->
  (exists s', send_message fuel ty ops s = Done tt s' /\ idle s' /\ inside s' = inside s /\
     wire s' = wire s ++ packets (TdsBufferSize s) ty (ops ≫= bytes_of)) \/
  (exists s' part, send_message fuel ty ops s = Eof s' /\ ClientConnectionLost s' = true /\
     inside s' = inside s /\ wire s' = wire s ++ part /\
     part `prefix_of` packets (TdsBufferSize s) ty (ops ≫= bytes_of)).
Proof.
  intros Hs Hf. unfold send_message.
  destruct (run_puts_spec fuel ops _ _ ty [] (idle_pending s ty Hs) Hf)
    as [(s1 & -> & Hp1 & Hi1)|(s1 & p & -> & Hw & Hi & Hl & Hm)]; cbn [io_bind app] in *.
  - pose proof (inside_size _ _ Hi1) as Hsz.
    destruct (TdsSocketFlush_spec _ _ _ _ Hp1)
      as [(s2 & -> & Hw2 & Hi2 & Hld)|(s2 & p & -> & Hw2 & Hpre & Hi2 & Hl)]; [left|right];
      rewrite Hsz in *.
    + exists s2. split_and!; try done. rewrite Hi2. exact Hi1.
    + exists s2, p. split_and!; try done. rewrite Hi2. exact Hi1.
  - right. exists s1, p. split_and!; try done. specialize (Hm []). by rewrite app_nil_r in Hm.
Qed.

(** C30: Any sequence of put calls followed by [TdsSocketFlush] sends exactly the packets of the concatenated little-endian bytes (full packets with status 0, the last one marked end-of-message, with correct lengths), however the blocking socket splits or interrupts the writes; if the connection fails, a prefix of them was sent, the buffer is dropped and the connection is marked lost. *)
Theorem puts_then_flush_send_packets fuel ty ops s :
  idle s -> Forall (fun op => length (bytes_of op) <= fuel) ops ->
  (exists s', send_message fuel ty ops s = Done tt s' /\ idle s' /\ inside s' = inside s /\
     wire s' = wire s ++ packets (TdsBufferSize s) ty (ops ≫= bytes_of)) \/
  (exists s' part, send_message fuel ty ops s = Eof s' /\ ClientConnectionLost s' = true /\
     inside s' = inside s /\ wire s' = wire s ++ part /\
     part `prefix_of` packets (TdsBufferSize s) ty (ops ≫= bytes_of)).
Proof. apply send_message_spec. Qed.

Lemma TdsWriteMessage_send fuel m ty s :
  idle s -> TdsWriteMessage fuel m ty s = send_message fuel ty [Put_bytes m] s.
Proof.
  intros (_ & _ & _ & _ & _ & _ & Hty & _). unfold TdsWriteMessage, send_message. cbn.
  rewrite decide_False by congruence. unfold TdsPutbytes. by destruct (InternalPutbytes _ _ _) as [[]| | | |].
Qed.

Lemma length_packetize k size ty : forall bs,
  size_ok size -> length bs < k -> length bs <= length (packetize k size ty bs).
Proof.
  induction k as [|k IH]; intros bs Hs Hk; [lia|]. cbn [packetize]. pose proof Hs as [Hs' _].
  case_decide as Hfit; rewrite !length_app; [cbn; lia|].
  specialize (IH (drop (size - TDS_PACKET_HEADER_SIZE) bs) Hs).
  rewrite length_drop, length_take in *. lia.
Qed.

Lemma outside_loaded s s' ty rest : outside s' = outside s -> loaded s ty rest -> loaded s' ty rest.
Proof. unfold outside, loaded. by intros [= -> -> -> -> -> -> _ _]. Qed.

(** C12: A message written with [TdsWriteMessage] is what [TdsReadMessage] returns at the other end, whatever the packet size of the writer (up to the reader's) and however the network cuts the bytes, and the reader is then positioned at what follows; a bulk load must fit one packet, since its reader takes one packet at a time. *)
Theorem write_then_read fuel fuel' m ty w w' r extra :
  idle w -> length m <= fuel -> TdsWriteMessage fuel m ty w = Done tt w' ->
  at_message r -> idle r -> TdsBufferSize w <= TdsBufferSize r ->
  wire w ++ unread r = wire w' ++ extra -> length (unread r) < fuel' ->
  ty <> TDS_BULK_LOAD \/ length m <= TdsBufferSize w - TDS_PACKET_HEADER_SIZE ->
  exists r', TdsReadMessage fuel' ty r = Done m r' /\ unread r' = extra /\ idle r' /\
    (m <> [] -> at_message r').
Proof.
  intros Hw Hf E Hr Hir Hsz Hun Hf' Hb. rewrite (TdsWriteMessage_send _ _ _ _ Hw) in E.
  destruct (send_message_spec fuel ty [Put_bytes m] w Hw) as [(w1 & E1 & _ & _ & Hwire)|(w1 & p & E1 & _)];
    [by repeat constructor| |congruence].
  rewrite E in E1. injection E1 as <-. cbn [mbind list_bind bytes_of] in Hwire.
  rewrite app_nil_r in Hwire.
  rewrite Hwire, <-app_assoc in Hun. apply app_inv_head in Hun.
  pose proof Hw as (_ & Hszw & _).
  destruct (request_packetize (S (length m)) (TdsBufferSize w) (TdsBufferSize r) ty
              (S (length (unread r))) m extra) as [st Hq]; try done; try lia.
  { rewrite Hun, length_app.
    assert (length m <= length (packets (TdsBufferSize w) ty m)) by (apply length_packetize; [done|lia]).
    lia. }
  pose proof (at_message_packet _ Hr) as [Hok Hp].
  pose proof (read_request_spec (S (length (unread r))) fuel' [] None r _ _ Hok Hp ltac:(lia) Hf') as H.
  change (packetize _ _ _ _) with (packets (TdsBufferSize w) ty m) in Hq. rewrite <-Hun in Hq.
  rewrite Hq in H. destruct H as (r' & ty' & st' & E' & (Hok' & Hu & Hp' & Ho) & _).
  pose proof (packet_fields _ _ _ _ _ Hp') as (Hd & _ & _ & Hl).
  pose proof Hir as (_ & _ & Hst & Hcur & _). exists r'. split_and!; try done.
  - unfold TdsReadMessage, TdsReadNextRequest. rewrite decide_False by (rewrite Hst, Hcur; cbn; naive_solver).
    rewrite E'. cbn. by rewrite decide_False by congruence.
  - by apply (outside_loaded r).
  - intros Hm. split_and!; try done. rewrite Hd, bool_decide_eq_false_2 by done. done.
Qed.

(** ** Bulk load *)

(** A complete packet at the head of the stream. *)
Lemma read_packet fuel s ty st k body :
  at_message s -> next_header (TdsBufferSize s) (unread s) = H_ok ty st k body ->
  k <= length body -> length (unread s) <= fuel ->
  exists s1, TdsReadNextBuffer (S fuel) s = Done tt s1 /\ at_stream s s1 (false, ty, st, k) body /\
    exists s2, TdsGetbytes (S fuel) (TdsLeftInPacket s1) s1 = Done (take k body) s2 /\
      at_stream s s2 (bool_decide (k <> 0), ty, st, 0) (drop k body).
Proof.
  intros [Hok Hp]%at_message_packet Hh Hk Hf. pose proof (next_header_length _ _ _ _ _ _ Hh) as Hlen.
  pose proof (TdsReadNextBuffer_boundary fuel s _ _ Hok Hp) as H. unfold boundary_spec in H.
  rewrite Hh, decide_False in H by (intros [? ->]; cbn in Hk; lia).
  destruct H as (s1 & E & Hat & _). exists s1. split_and!; [done..|].
  pose proof Hat as (Hok1 & Hu1 & Hp1 & _).
  pose proof (read_payload (S fuel) s1 _ _ _ _ Hok1 Hp1 ltac:(rewrite Hu1; lia)) as Hg.
  rewrite Hu1, decide_False in Hg by lia. destruct Hg as (s2 & E2 & Hat2). exists s2. split; [done|].
  pose proof (at_stream_trans _ _ _ _ _ _ _ Hat Hat2) as H. revert H.
  destruct (decide (k = 0)); [rewrite bool_decide_eq_false_2 by lia|rewrite bool_decide_eq_true_2 by lia];
    done.
Qed.

(** [TdsReadNextPendingBcpRequest] returns the payload of the next packet of the bulk load, and whether it is the last one, for every segmentation of the stream; a packet of another type is a protocol error. *)
Theorem bcp_packet_read fuel s ty st k body :
  at_message s -> next_header (TdsBufferSize s) (unread s) = H_ok ty st k body ->
  k <= length body -> length (unread s) <= fuel ->
  if decide (ty = TDS_BULK_LOAD)
  then exists s', TdsReadNextPendingBcpRequest (S fuel) s = Done (take k body, eom st) s' /\
         unread s' = drop k body /\ (k <> 0 -> at_message s')
  else exists s', TdsReadNextPendingBcpRequest (S fuel) s = Raise unexpected_out_of_band s'.
Proof.
  intros Hs Hh Hk Hf. destruct (read_packet fuel s ty st k body Hs Hh Hk Hf)
    as (s1 & E1 & (_ & _ & Hp1 & _) & s2 & E2 & (Hok2 & Hu2 & Hp2 & _)).
  unfold TdsReadNextPendingBcpRequest. rewrite E1. cbn [io_bind].
  pose proof (packet_fields _ _ _ _ _ Hp1) as (_ & Hty & _).
  pose proof (packet_fields _ _ _ _ _ Hp2) as (Hd2 & _ & Hst2 & Hl2). rewrite Hty.
  destruct (decide (ty = TDS_BULK_LOAD)) as [Hb|Hb].
  - rewrite decide_False by (by intros []). rewrite E2. cbn [io_bind]. rewrite Hst2.
    exists s2. split_and!; try done. intros Hk0. split_and!; try done.
    by rewrite Hd2, bool_decide_eq_true_2.
  - rewrite decide_True by done. by eexists.
Qed.

(** What follows the last packet of a message whose packets all carry data. *)
Fixpoint skip (n size : nat) (bs : list Z) : option (list Z) :=
  match n with
  | 0 => None
  | S n' =>
      match next_header size bs with
      | H_ok ty st k body =>
          if decide (k = 0 \/ length body < k) then None
          else if eom st then Some (drop k body)
          else skip n' size (drop k body)
      | _ => None
      end
  end.

(** [TdsDiscardAllPendingBcpRequest] throws away the rest of a bulk load and leaves the receiver at the start of the next message, for every segmentation of the stream (its packets carrying data). *)
Theorem discard_resynchronises n : forall fuel s rest,
  at_message s -> skip n (TdsBufferSize s) (unread s) = Some rest -> length (unread s) < fuel ->
  exists s', TdsDiscardAllPendingBcpRequest fuel s = Done tt s' /\ at_message s' /\ unread s' = rest /\
    outside s' = outside s.
Proof.
  induction n as [|n IH]; intros fuel s rest Hs Hsk Hf; [done|]. cbn [skip] in Hsk.
  destruct (next_header _ _) as [ty st k body| | |] eqn:Hh; try done. case_decide as Hk; [done|].
  destruct fuel as [|fuel]; [lia|]. pose proof (next_header_length _ _ _ _ _ _ Hh) as Hlen.
  destruct (read_packet fuel s ty st k body Hs Hh ltac:(lia) ltac:(lia))
    as (s1 & E1 & _ & s2 & E2 & (Hok2 & Hu2 & Hp2 & Ho2)).
  pose proof (packet_fields _ _ _ _ _ Hp2) as (Hd2 & _ & Hst2 & Hl2).
  rewrite bool_decide_eq_true_2 in Hd2 by lia.
  cbn [TdsDiscardAllPendingBcpRequest]. rewrite E1. cbn [io_bind].
  rewrite TdsDiscardbytes_getbytes, E2. cbn [io_bind]. rewrite Hst2.
  destruct (eom st).
  - injection Hsk as <-. exists s2. split_and!; done.
  - destruct (IH fuel s2 rest) as (s' & -> & ? & ? & ?); [done| | |].
    + by rewrite Hu2, (outside_size _ _ Ho2).
    + rewrite Hu2, length_drop. lia.
    + exists s'. split_and!; try done. congruence.
Qed.

(** [TdsSetBufferSize] between messages re-allocates both buffers and keeps the connection usable with the new packet size and the stream where it was; with bytes buffered on either side it is a protocol error instead. *)
Theorem TdsSetBufferSize_between_messages newSize rfill sfill s :
  at_message s -> idle s -> size_ok newSize -> newSize <= length rfill -> newSize <= length sfill ->
  (newSize = TdsBufferSize s /\ TdsSetBufferSize newSize rfill sfill s = Done tt s) \/
  (newSize <> TdsBufferSize s /\ TdsRecvStart s <> TdsRecvEnd s /\
   TdsSetBufferSize newSize rfill sfill s = Raise buffers_inconsistent s) \/
  (exists s', TdsSetBufferSize newSize rfill sfill s = Done tt s' /\ at_message s' /\ idle s' /\
     TdsBufferSize s' = newSize /\ unread s' = unread s).
Proof.
  intros ((Hl & Hse & H8) & Hd & Hleft) (Hls & Hsz & Hst & Hcur & Hle & Hsl & Hty & Hb) [Hn1 Hn2] Hr Hs.
  unfold TdsSetBufferSize. case_decide as Hnew; [by left|].
  destruct (decide (TdsRecvStart s = TdsRecvEnd s)) as [Heq|Hne].
  2:{ right. left. rewrite decide_True by auto. done. }
  right. right. rewrite decide_False by (rewrite Hst, Hcur; cbn; unfold TDS_PACKET_HEADER_SIZE; lia).
  eexists. split; [done|]. unfold at_message, idle, recv_ok, loaded, unread, repalloc. cbn.
  rewrite !length_take, !length_app, Hcur, !slice_nil by (rewrite ?Hcur; cbn; lia).
  unfold size_ok. cbn. rewrite Nat.add_0_r. split_and!; try done; lia.
Qed.

(** ** Concrete connections *)

Definition fresh (size : nat) (evs : list read_event) (wevs : list write_event) : comm :=
  TdsCommInit size (replicate size 0%Z) (replicate size 0%Z)
    (mk_comm 0 [] 0 0 0 false [] 0 0 0 0 0 evs wevs [] false).

#[local] Ltac compute_side :=
  vm_compute; repeat split; first [lia | reflexivity | discriminate | repeat constructor; discriminate].

(** Two packets of a batch (type 1), delivered in pieces that straddle the headers. *)
Definition demo_stream : list read_event :=
  [R_data [1; 0; 0; 12; 0]%Z; R_eintr; R_data [0; 0; 0; 65; 66; 67]%Z;
   R_data [68; 1; 1; 0; 10; 0; 0; 0; 0; 69]%Z; R_data [70]%Z].

Lemma TdsReadNextRequest_refines_witness :
  refines_request (fresh 12 demo_stream []) (TdsReadNextRequest 40 (fresh 12 demo_stream [])) /\
  request 40 12 (unread (fresh 12 demo_stream [])) = Q_message [65; 66; 67; 68; 69; 70]%Z 0 1 [] false.
Proof.
  split; [apply (TdsReadNextRequest_refines 40 (fresh 12 demo_stream [])); compute_side | reflexivity].
Defined.

Lemma empty_packet_never_returns_witness :
  TdsReadNextRequest 1000 (fresh 12 [R_data [1; 0; 0; 8; 0; 0; 0; 0]%Z] []) = OutOfFuel.
Proof.
  apply (empty_packet_never_returns 1000 (fresh 12 [R_data [1; 0; 0; 8; 0; 0; 0; 0]%Z] []) 1 0 []);
    compute_side.
Defined.

(** An attention (type 6) with the next batch behind it in the same segment. *)
Definition demo_attention : comm :=
  fresh 32 [R_data [6; 1; 0; 8; 0; 0; 0; 0; 1; 1; 0; 9; 0; 0; 0; 0; 65]%Z] [].

Lemma empty_message_repeats_witness :
  exists s', TdsReadNextRequest 20 demo_attention = Done ([], 1, 6)%Z s' /\
    unread s' = [1; 1; 0; 9; 0; 0; 0; 0; 65]%Z /\
    (0 < avail s' -> TdsReadNextRequest 20 s' = Done ([], 1, 6)%Z s').
Proof.
  apply (empty_message_repeats 19 19 demo_attention 6 1 [1; 1; 0; 9; 0; 0; 0; 0; 65]%Z); compute_side.
Defined.

Lemma puts_then_flush_send_packets_witness :
  let s := fresh 12 [] [W_accept 2; W_eintr; W_accept 0] in
  let ops := [Put_UInt8 0x81; Put_Int32 (-2); Put_bytes [65; 66]]%Z in
  (exists s', send_message 10 4 ops s = Done tt s' /\ idle s' /\ inside s' = inside s /\
     wire s' = wire s ++ packets 12 4 (ops ≫= bytes_of)) \/
  (exists s' part, send_message 10 4 ops s = Eof s' /\ ClientConnectionLost s' = true /\
     inside s' = inside s /\ wire s' = wire s ++ part /\ part `prefix_of` packets 12 4 (ops ≫= bytes_of)).
Proof.
  apply (puts_then_flush_send_packets 10 4
           [Put_UInt8 0x81; Put_Int32 (-2); Put_bytes [65; 66]]%Z
           (fresh 12 [] [W_accept 2; W_eintr; W_accept 0])).
  - compute_side.
  - repeat constructor; compute_side.
Defined.

Definition demo_writer : comm := fresh 12 [] [W_accept 5].
Definition demo_written : comm :=
  match TdsWriteMessage 10 [65; 66; 67; 68; 69]%Z 1 demo_writer with Done _ s => s | _ => demo_writer end.
Definition demo_reader : comm :=
  fresh 16 [R_data (take 9 (wire demo_written)); R_eintr; R_data (drop 9 (wire demo_written))] [].

Lemma write_then_read_witness :
  exists r', TdsReadMessage 40 1 demo_reader = Done [65; 66; 67; 68; 69]%Z r' /\ unread r' = [] /\
    idle r' /\ ([65; 66; 67; 68; 69]%Z <> [] -> at_message r').
Proof.
  apply (write_then_read 10 40 [65; 66; 67; 68; 69]%Z 1 demo_writer demo_written demo_reader []);
    try compute_side.
Defined.

Definition demo_bulk : comm :=
  fresh 16 [R_data [7; 0; 0; 10; 0; 0; 0; 0; 1; 2; 7; 1]%Z; R_data [0; 9; 0; 0; 0; 0; 3; 1]%Z] [].

Lemma bcp_packet_read_witness :
  exists s', TdsReadNextPendingBcpRequest 41 demo_bulk = Done ([1; 2]%Z, false) s' /\
    unread s' = [7; 1; 0; 9; 0; 0; 0; 0; 3; 1]%Z /\ (2 <> 0 -> at_message s').
Proof.
  apply (bcp_packet_read 40 demo_bulk 7 0 2 [1; 2; 7; 1; 0; 9; 0; 0; 0; 0; 3; 1]%Z); compute_side.
Defined.

Lemma discard_resynchronises_witness :
  exists s', TdsDiscardAllPendingBcpRequest 40 demo_bulk = Done tt s' /\ at_message s' /\
    unread s' = [1]%Z /\ outside s' = outside demo_bulk.
Proof. apply (discard_resynchronises 5 40 demo_bulk [1]%Z); compute_side. Defined.

Lemma TdsSetBufferSize_between_messages_witness :
  (32 = 12 /\ TdsSetBufferSize 32 (replicate 32 0%Z) (replicate 32 0%Z) (fresh 12 [] []) =
              Done tt (fresh 12 [] [])) \/
  (32 <> 12 /\ 0 <> 0 /\ TdsSetBufferSize 32 (replicate 32 0%Z) (replicate 32 0%Z) (fresh 12 [] []) =
              Raise buffers_inconsistent (fresh 12 [] [])) \/
  (exists s', TdsSetBufferSize 32 (replicate 32 0%Z) (replicate 32 0%Z) (fresh 12 [] []) = Done tt s' /\
     at_message s' /\ idle s' /\ TdsBufferSize s' = 32 /\ unread s' = unread (fresh 12 [] [])).
Proof.
  apply (TdsSetBufferSize_between_messages 32 (replicate 32 0%Z) (replicate 32 0%Z) (fresh 12 [] []));
    compute_side.
Defined.
