(* ===== verification/Applock.v ===== *)
(** * Applock: application locks ([babelfishpg_tsql/src/applock.c])

    [sp_getapplock], [sp_releaseapplock], APPLOCK_MODE, APPLOCK_TEST and the hook
    at the end of transactions and sessions.  Sessions run concurrently: a shared
    hash table maps lock keys to resource names, every session has a table of the
    locks it holds.  The shared table is only accessed under an LWLock, so one
    critical section is one step; between two steps other sessions may run.  The
    server's lock manager is an interface. *)
From Stdlib Require Import Ascii String.
From stdpp Require Import base numbers list strings gmap.
From S2P Require Import Prelude.

(** ** Lock modes *)

Inductive Applock_All_Lockmode :=
| APPLOCKMODE_NOLOCK
| APPLOCKMODE_INTENTEXCLUSIVE
| APPLOCKMODE_INTENTSHARED
| APPLOCKMODE_SHARED
| APPLOCKMODE_UPDATE
| APPLOCKMODE_EXCLUSIVE
| APPLOCKMODE_SHAREDINTENTEXCLUSIVE
| APPLOCKMODE_UPDATEINTENTEXCLUSIVE.

#[export] Instance lockmode_eq_dec : EqDecision Applock_All_Lockmode.
Proof. solve_decision. Defined.

(** The value of the C enumerator. *)
Definition mode_value (m : Applock_All_Lockmode) : nat :=
  match m with
  | APPLOCKMODE_NOLOCK => 0
  | APPLOCKMODE_INTENTEXCLUSIVE => 1
  | APPLOCKMODE_INTENTSHARED => 2
  | APPLOCKMODE_SHARED => 3
  | APPLOCKMODE_UPDATE => 4
  | APPLOCKMODE_EXCLUSIVE => 5
  | APPLOCKMODE_SHAREDINTENTEXCLUSIVE => 6
  | APPLOCKMODE_UPDATEINTENTEXCLUSIVE => 7
  end.

Definition AppLockModeStrings (m : Applock_All_Lockmode) : string :=
  match m with
  | APPLOCKMODE_NOLOCK => "NoLock"
  | APPLOCKMODE_INTENTEXCLUSIVE => "IntentExclusive"
  | APPLOCKMODE_INTENTSHARED => "IntentShared"
  | APPLOCKMODE_SHARED => "Shared"
  | APPLOCKMODE_UPDATE => "Update"
  | APPLOCKMODE_EXCLUSIVE => "Exclusive"
  | APPLOCKMODE_SHAREDINTENTEXCLUSIVE => "SharedIntentExclusive"
  | APPLOCKMODE_UPDATEINTENTEXCLUSIVE => "UpdateIntentExclusive"
  end.

(** The lock modes of the server that stand for them. *)
Inductive LOCKMODE :=
| NoLock
| RowShareLock
| RowExclusiveLock
| ShareUpdateExclusiveLock
| ShareLock
| ExclusiveLock.

#[export] Instance LOCKMODE_eq_dec : EqDecision LOCKMODE.
Proof. solve_decision. Defined.

Definition getPGLockMode (applockmode : Applock_All_Lockmode) : LOCKMODE :=
  match applockmode with
  | APPLOCKMODE_EXCLUSIVE => ExclusiveLock
  | APPLOCKMODE_SHARED => ShareLock
  | APPLOCKMODE_UPDATE => ShareUpdateExclusiveLock
  | APPLOCKMODE_INTENTSHARED => RowShareLock
  | APPLOCKMODE_INTENTEXCLUSIVE => RowExclusiveLock
  | _ => NoLock
  end.

(** The table of compatibility in the comment on the modes. *)
Definition compatible (a b : Applock_All_Lockmode) : bool :=
  match a, b with
  | APPLOCKMODE_INTENTSHARED,
      (APPLOCKMODE_INTENTSHARED | APPLOCKMODE_SHARED | APPLOCKMODE_UPDATE | APPLOCKMODE_INTENTEXCLUSIVE)
  | APPLOCKMODE_SHARED, (APPLOCKMODE_INTENTSHARED | APPLOCKMODE_SHARED | APPLOCKMODE_UPDATE)
  | APPLOCKMODE_UPDATE, (APPLOCKMODE_INTENTSHARED | APPLOCKMODE_SHARED)
  | APPLOCKMODE_INTENTEXCLUSIVE, (APPLOCKMODE_INTENTSHARED | APPLOCKMODE_INTENTEXCLUSIVE) => true
  | _, _ => false
  end.

(** [ApplockCheckLockmode] and [ApplockCheckLockowner]. *)
Definition ApplockCheckLockmode (lockmode : string) : option Applock_All_Lockmode :=
  if strcaseeq lockmode "IntentShared" then Some APPLOCKMODE_INTENTSHARED
  else if strcaseeq lockmode "Shared" then Some APPLOCKMODE_SHARED
  else if strcaseeq lockmode "Update" then Some APPLOCKMODE_UPDATE
  else if strcaseeq lockmode "IntentExclusive" then Some APPLOCKMODE_INTENTEXCLUSIVE
  else if strcaseeq lockmode "Exclusive" then Some APPLOCKMODE_EXCLUSIVE
  else None.

Definition ApplockCheckLockowner (lockowner : string) : option bool :=
  if strcaseeq lockowner "Session" then Some true
  else if strcaseeq lockowner "Transaction" then Some false
  else None.

(** ** Keys *)

Definition APPLOCK_MAX_RESOURCE_LENGTH : nat := 256.
Definition APPLOCK_MAX_TRY_SEARCH_KEY : nat := 5.

(** A character of a C string, signed. *)
Definition char_value (c : ascii) : Z := swrap 8 (Z.of_nat (nat_of_ascii c)).

(** One round of the hash loop on ([hash_value], [p_pow]). *)
Definition hash_round (st : Z * Z) (c : ascii) : Z * Z :=
  let '(hash_value, p_pow) := st in
  (u64 (hash_value + i64 ((char_value c - 97 + 1) * p_pow)) mod INT64_MAX,
   Z.rem (i64 (p_pow * 31)) INT64_MAX).

Definition applock_simple_hash (str : string) : Z :=
  i64 (foldl hash_round (0, 1) (list_ascii_of_string str)).1.

(** The next key to try, mindful of overflow. *)
Definition next_key (key : Z) : Z := Z.rem key INT64_MAX + 1.

(** ** Tables *)

Record AppLockCacheEnt := mk_ent {
  ent_resource : string;
  refcount : Z;
  mode_head : list Applock_All_Lockmode;
  is_session : bool
}.

(** A hash table with 64-bit keys; the key is also a field of the C struct. *)
Abbreviation table := (gmap Z AppLockCacheEnt).

(** Copies at most [APPLOCK_MAX_RESOURCE_LENGTH] characters. *)
Definition copy_resource (resource : string) : string :=
  String.substring 0 APPLOCK_MAX_RESOURCE_LENGTH resource.

(** The search loops of [AppLockSearchKeyLocal] and [AppLockSearchKeyGlobal]. *)
Fixpoint search_key (t : table) (resource : string) (key : Z) (tries : nat) : Z :=
  match tries with
  | O => -1
  | S tries =>
      match t !! key with
      | Some entry =>
          if decide (ent_resource entry = resource) then key
          else search_key t resource (next_key key) tries
      | None => search_key t resource (next_key key) tries
      end
  end.

Definition AppLockSearchKeyLocal (t : table) (resource : string) : Z :=
  search_key t resource (applock_simple_hash resource) APPLOCK_MAX_TRY_SEARCH_KEY.

Definition AppLockSearchKeyGlobal (t : table) (resource : string) : Z :=
  search_key t resource (applock_simple_hash resource) APPLOCK_MAX_TRY_SEARCH_KEY.

Definition set_refcount (e : AppLockCacheEnt) (n : Z) : AppLockCacheEnt :=
  mk_ent (ent_resource e) n (mode_head e) (is_session e).

Definition ApplockUnrefGlobalCache (key : Z) (g : table) : table :=
  match g !! key with
  | None => g
  | Some entry =>
      let n := u32 (refcount entry - 1) in
      if decide (n = 0) then delete key g else <[key := set_refcount entry n]> g
  end.

(** The first critical section of [ApplockGetUsableKey] after the search: the key is
    entered, not only looked up, so that an entry that was deleted in the meantime
    comes back with the contents [stale] of a free element. *)
Definition reference_found (stale : AppLockCacheEnt) (key : Z) (g : table) : table * bool :=
  match g !! key with
  | Some entry => (<[key := set_refcount entry (u32 (refcount entry + 1))]> g, true)
  | None => (<[key := stale]> g, false)
  end.

(** The second: either another session has entered the resource, or the first
    unused key is remembered. *)
Fixpoint find_usable (g : table) (resource : string) (key usable : Z) (tries : nat)
    : table * Z + Z :=
  match tries with
  | O => inr usable
  | S tries =>
      match g !! key with
      | Some entry =>
          if decide (ent_resource entry = resource)
          then inl (<[key := set_refcount entry (u32 (refcount entry + 1))]> g, key)
          else find_usable g resource (next_key key) usable tries
      | None =>
          find_usable g resource (next_key key) (if decide (usable = -1) then key else usable) tries
      end
  end.

Definition generate_key (stale : AppLockCacheEnt) (resource : string) (g : table) : table * Z :=
  match find_usable g resource (applock_simple_hash resource) (-1) APPLOCK_MAX_TRY_SEARCH_KEY with
  | inl found => found
  | inr usable_key =>
      if decide (usable_key = -1) then (g, -1)
      else (<[usable_key :=
               mk_ent (copy_resource resource) 1 (mode_head stale) (is_session stale)]> g, usable_key)
  end.

(** ** The lock manager *)

(** Locks of sessions on keys.  [LockRelease] returns [None] when the lock is not
    held. *)
Class LockManager (L : Type) := {
  held : L -> nat -> Z -> LOCKMODE -> bool -> nat;
  grantable : L -> nat -> Z -> LOCKMODE -> Prop;
  grant : L -> nat -> Z -> LOCKMODE -> bool -> L;
  LockRelease : L -> nat -> Z -> LOCKMODE -> bool -> option L;
  LockReleaseAll : L -> nat -> bool -> L
}.

(** Its documented behaviour.  Conflicts are those of the table in the comment on the
    modes, which is what the lock method of application locks implements. *)
Class LockManagerLaws (L : Type) `{LockManager L} : Prop := {
  held_grant l s k m o s' k' m' o' :
    held (grant l s k m o) s' k' m' o' =
    (held l s' k' m' o' + (if decide ((s, k, m, o) = (s', k', m', o')) then 1 else 0))%nat;
  held_release l s k m o l' s' k' m' o' : LockRelease l s k m o = Some l' ->
    held l s' k' m' o' =
    (held l' s' k' m' o' + (if decide ((s, k, m, o) = (s', k', m', o')) then 1 else 0))%nat;
  release_held l s k m o : (0 < held l s k m o)%nat -> is_Some (LockRelease l s k m o);
  held_release_all l s all s' k m o :
    held (LockReleaseAll l s all) s' k m o =
    if decide (s = s' /\ (all = true \/ o = false)) then 0%nat else held l s' k m o;
  grantable_compatible l s k m a s' o' : getPGLockMode m <> NoLock -> getPGLockMode a <> NoLock ->
    grantable l s k (getPGLockMode m) -> s <> s' ->
    (0 < held l s' k (getPGLockMode a) o')%nat -> compatible m a = true
}.

(** ** Sessions *)

(** What a call returns, or the error it raises. *)
Inductive outcome :=
| Ret (code : Z)
| Error_lock_not_held       (* LWLockRelease of an LWLock that is not held *)
| Error_no_transaction
| Panic
| Crash.                    (* NULL dereference *)

#[export] Instance outcome_eq_dec : EqDecision outcome.
Proof. solve_decision. Defined.

(** A checked request. [test]: made by APPLOCK_TEST. *)
Record request := mk_request {
  resource : string;
  mode : Applock_All_Lockmode;
  owner : bool;
  timeout : Z;
  test : bool
}.

(** Where a session is between two critical sections. *)
Inductive point :=
| Idle
| Searched (q : request) (key : Z)
| Generating (q : request)
| Acquiring (q : request) (key : Z) (saved : Z)
| Failing (q : request) (key : Z) (saved : Z) (errcode : Z) (elapsed : Z)
| Releasing (resource : string) (owner : bool) (test : bool)
| Unreferencing (key : Z) (result : Z)
| Removing (keys : list Z) (release_session : bool).

Record session := mk_session {
  appLockCacheLocal : option table;
  lock_timeout : Z;
  pc : point;
  returned : option outcome
}.

Definition goto (s : session) (p : point) : session :=
  mk_session (appLockCacheLocal s) (lock_timeout s) p (returned s).

(** Back to the caller. *)
Definition finish (s : session) (r : outcome) : session :=
  mk_session (appLockCacheLocal s) (lock_timeout s) Idle (Some r).

Definition set_cache (s : session) (t : table) : session :=
  mk_session (Some t) (lock_timeout s) (pc s) (returned s).

(** [ApplockSetLockTimeout], which tests the caller's [timeout]. *)
Definition ApplockSetLockTimeout (timeout val : Z) (s : session) : session :=
  if decide (timeout = -99) then s
  else mk_session (appLockCacheLocal s) val (pc s) (returned s).

(** [initApplockCache], if not done yet; the shared table exists once. *)
Definition initApplockCache (s : session) : session :=
  match appLockCacheLocal s with None => set_cache s ∅ | Some _ => s end.

Definition cache (s : session) : table := default ∅ (appLockCacheLocal s).

Section operations.
Context {L : Type} `{LockManager L}.
(** [text_to_cstring_buffer]; [IsInParallelMode] and the error codes of the server. *)
Variable text_to_cstring_buffer : string -> nat -> string.
Variables ERRCODE_LOCK_NOT_AVAILABLE ERRCODE_T_R_DEADLOCK_DETECTED : Z.
(** The contents of a free element of the shared hash table. *)
Variable stale : AppLockCacheEnt.

Record world := mk_world {
  appLockCacheGlobal : table;
  locks : L;
  sessions : list session
}.

Definition ApplockGetStringArg (arg : option string) (len : nat) : option string :=
  (fun s => text_to_cstring_buffer s len) <$> arg.

(** The checks at the start of [_sp_getapplock_internal]. *)
Definition check_get (resource lockmode lockowner : string) (timeout : Z) (parallel in_txn test : bool)
    : option request :=
  if parallel then None
  else match ApplockCheckLockmode lockmode with
  | None => None
  | Some mode =>
      match ApplockCheckLockowner lockowner with
      | None => None
      | Some is_session =>
          if strcaseeq lockowner "Transaction" && negb in_txn then None
          else Some (mk_request resource mode is_session timeout test)
      end
  end.

Definition begin_get (q : option request) (g : table) (s : session) : session :=
  match q with
  | None => finish s (Ret (-999))
  | Some q => goto s (Searched q (AppLockSearchKeyGlobal g (resource q)))
  end.

Definition sp_getapplock_function (resource lockmode lockowner : option string) (timeout : Z)
    (dbprincipal : option string) (parallel in_txn : bool) (g : table) (s : session) : session :=
  let s := initApplockCache s in
  match ApplockGetStringArg resource 256, ApplockGetStringArg lockmode 33,
        ApplockGetStringArg lockowner 33, ApplockGetStringArg dbprincipal 33 with
  | Some resource, Some lockmode, Some lockowner, Some _ =>
      begin_get (check_get resource lockmode lockowner timeout parallel in_txn false) g s
  | _, _, _, _ => finish s (Ret (-999))
  end.

Definition APPLOCK_TEST (dbprincipal resource lockmode lockowner : option string)
    (parallel in_txn : bool) (g : table) (s : session) : session :=
  let s := initApplockCache s in
  match ApplockGetStringArg dbprincipal 33, ApplockGetStringArg resource 256,
        ApplockGetStringArg lockmode 33, ApplockGetStringArg lockowner 33 with
  | Some _, Some resource, Some lockmode, Some lockowner =>
      if strcaseeq lockowner "Transaction" && negb in_txn then finish s Error_no_transaction
      else
        match check_get resource lockmode lockowner 0 parallel in_txn true with
        | None => finish s (Ret 0)
        | q => begin_get q g s
        end
  | _, _, _, _ => finish s (Ret (-999))
  end.

(** What the caller makes of a failure of [_sp_getapplock_internal]. *)
Definition get_result (q : request) (code : Z) : outcome :=
  if test q then Ret 0 else Ret code.

(** With a key: set the timeout and go to the lock manager. *)
Definition usable_key (q : request) (key : Z) (s : session) : session :=
  if decide (key < 0) then finish s (get_result q (-999))
  else
    let timeout := if decide (timeout q = -1) then 0 else timeout q in
    let cur_timeout := lock_timeout s in
    goto (ApplockSetLockTimeout timeout timeout s) (Acquiring q key cur_timeout).

(** A granted lock enters the session's table; APPLOCK_TEST releases it again. *)
Definition lock_acquired (q : request) (key saved : Z) (s : session) : session :=
  let timeout := if decide (timeout q = -1) then 0 else timeout q in
  let s := ApplockSetLockTimeout timeout saved s in
  let entry := default (mk_ent EmptyString 0 [] false) (cache s !! key) in
  let entry := mk_ent (copy_resource (resource q)) (u32 (refcount entry + 1))
                 (mode q :: mode_head entry) (owner q) in
  let s := set_cache s (<[key := entry]> (cache s)) in
  if test q then goto s (Releasing (resource q) (owner q) true) else finish s (Ret 0).

(** The end of the error path, after the reference is given back. *)
Definition lock_failed (q : request) (saved errcode elapsed : Z) (s : session) : session :=
  let timeout := if decide (timeout q = -1) then 0 else timeout q in
  let lock_timeout_occurred :=
    (0 <=? timeout) && (timeout * 1000 <? elapsed) && (errcode =? ERRCODE_LOCK_NOT_AVAILABLE) in
  let s := ApplockSetLockTimeout timeout saved s in
  finish s (get_result q
    (if lock_timeout_occurred then -1
     else if errcode =? ERRCODE_LOCK_NOT_AVAILABLE then -999
     else if errcode =? ERRCODE_T_R_DEADLOCK_DETECTED then -3 else -2)).

Definition sp_releaseapplock_function (resource lockowner dbprincipal : option string)
    (parallel : bool) (s : session) : session :=
  let s := initApplockCache s in
  match ApplockGetStringArg resource 256, ApplockGetStringArg lockowner 33,
        ApplockGetStringArg dbprincipal 33 with
  | Some resource, Some lockowner, Some _ =>
      if parallel then finish s (Ret (-999))
      else match ApplockCheckLockowner lockowner with
      | None => finish s (Ret (-999))
      | Some is_session => goto s (Releasing resource is_session false)
      end
  | _, _, _ => finish s (Ret (-999))
  end.

(** A failed release is a PANIC in APPLOCK_TEST. *)
Definition release_result (test : bool) (code : Z) : outcome :=
  if test then Panic else Ret code.

(** [_sp_releaseapplock_internal] up to the last critical section.  When the resource
    is unknown the LWLock is released a second time. *)
Definition release_lock (i : nat) (resource : string) (owner test : bool) (g : table) (l : L)
    (s : session) : L * session :=
  let key := AppLockSearchKeyGlobal g resource in
  if decide (key = -1) then (l, finish s Error_lock_not_held)
  else match cache s !! key with
  | None => (l, finish s (release_result test (-999)))
  | Some entry =>
      if bool_decide (owner = is_session entry) then
        match mode_head entry with
        | [] => (l, finish s Crash)
        | mode :: modes =>
            match LockRelease l i key (getPGLockMode mode) owner with
            | None => (l, finish s (release_result test (-999)))
            | Some l =>
                let n := u32 (refcount entry - 1) in
                let entry := mk_ent (ent_resource entry) n modes (is_session entry) in
                let t := if decide (n = 0) then delete key (cache s)
                         else <[key := entry]> (cache s) in
                (l, goto (set_cache s t) (Unreferencing key (if test then 1 else 0)))
            end
        end
      else (l, finish s (release_result test (-999)))
  end.

(** [ApplockRemoveCache]: the keys to give back, one per reference, and the entries
    that stay. *)
Definition removed (release_session : bool) (e : AppLockCacheEnt) : bool :=
  release_session || negb (is_session e).

Definition removed_keys (release_session : bool) (t : table) : list Z :=
  flat_map (fun '(k, e) => if removed release_session e then repeat k (Z.to_nat (refcount e)) else [])
    (map_to_list t).

Definition ApplockRemoveCache (release_session tsql : bool) (s : session) : session :=
  match appLockCacheLocal s with
  | Some t =>
      if tsql then
        goto (set_cache s (filter (fun ke => removed release_session ke.2 = false) t))
          (Removing (removed_keys release_session t) release_session)
      else s
  | None => s
  end.

(** APPLOCK_MODE: the highest mode, with two combinations. *)
Definition APPLOCK_MODE (resource : string) (s : session) : string :=
  let t := cache (initApplockCache s) in
  let key := AppLockSearchKeyLocal t resource in
  AppLockModeStrings
    (if decide (key < 0) then APPLOCKMODE_NOLOCK
     else match t !! key with
     | None => APPLOCKMODE_NOLOCK
     | Some entry =>
         let high_mode := foldl (fun h m => if (mode_value h <? mode_value m)%nat then m else h)
                            APPLOCKMODE_NOLOCK (mode_head entry) in
         let has_intent_exc := bool_decide (APPLOCKMODE_INTENTEXCLUSIVE ∈ mode_head entry) in
         if has_intent_exc && bool_decide (high_mode = APPLOCKMODE_INTENTSHARED)
         then APPLOCKMODE_SHAREDINTENTEXCLUSIVE
         else if has_intent_exc && bool_decide (high_mode = APPLOCKMODE_UPDATE)
         then APPLOCKMODE_UPDATEINTENTEXCLUSIVE
         else high_mode
     end).

(** ** Steps *)

Inductive event :=
| Call_get (resource lockmode lockowner : option string) (timeout : Z) (dbprincipal : option string)
    (parallel in_txn : bool)
| Call_release (resource lockowner dbprincipal : option string) (parallel : bool)
| Call_test (dbprincipal resource lockmode lockowner : option string) (parallel in_txn : bool)
| Call_remove (release_session tsql : bool)
| Continue                               (* the next critical section *)
| Lock_granted
| Lock_error (errcode elapsed : Z).      (* timeout, deadlock, cancel *)

Definition put (w : world) (i : nat) (g : table) (l : L) (s : session) : world :=
  mk_world g l (<[i := s]> (sessions w)).

(** One step of session [i]. *)
Definition exec (i : nat) (ev : event) (w : world) : option world :=
  match sessions w !! i with
  | None => None
  | Some s =>
      let g := appLockCacheGlobal w in
      let l := locks w in
      match pc s, ev with
      | Idle, Call_get r m o t d p x => Some (put w i g l (sp_getapplock_function r m o t d p x g s))
      | Idle, Call_release r o d p => Some (put w i g l (sp_releaseapplock_function r o d p s))
      | Idle, Call_test d r m o p x => Some (put w i g l (APPLOCK_TEST d r m o p x g s))
      | Idle, Call_remove a t => Some (put w i g l (ApplockRemoveCache a t s))
      | Searched q key, Continue =>
          if decide (key = -1) then Some (put w i g l (goto s (Generating q)))
          else let '(g, found) := reference_found stale key g in
               Some (put w i g l (if found then usable_key q key s else goto s (Generating q)))
      | Generating q, Continue =>
          let '(g, key) := generate_key stale (resource q) g in
          Some (put w i g l (usable_key q key s))
      | Acquiring q key saved, Lock_granted =>
          Some (put w i g (grant l i key (getPGLockMode (mode q)) (owner q))
                  (lock_acquired q key saved s))
      | Acquiring q key saved, Lock_error errcode elapsed =>
          Some (put w i g l (goto s (Failing q key saved errcode elapsed)))
      | Failing q key saved errcode elapsed, Continue =>
          Some (put w i (ApplockUnrefGlobalCache key g) l (lock_failed q saved errcode elapsed s))
      | Releasing r o t, Continue =>
          let '(l, s) := release_lock i r o t g l s in Some (put w i g l s)
      | Unreferencing key code, Continue =>
          Some (put w i (ApplockUnrefGlobalCache key g) l (finish s (Ret code)))
      | Removing [] all, Continue =>
          Some (put w i g (LockReleaseAll l i all) (goto s Idle))
      | Removing (key :: keys) all, Continue =>
          Some (put w i (ApplockUnrefGlobalCache key g) l (goto s (Removing keys all)))
      | _, _ => None
      end
  end.

(** A lock is granted only when the lock manager can grant it. *)
Definition may_grant (i : nat) (w : world) : Prop :=
  match sessions w !! i with
  | Some (mk_session _ _ (Acquiring q key _) _) =>
      grantable (locks w) i key (getPGLockMode (mode q))
  | _ => True
  end.

Inductive step (w w' : world) : Prop :=
| step_session i ev :
    exec i ev w = Some w' -> (ev = Lock_granted -> may_grant i w) -> step w w'.

(** The steps of a given interleaving. *)
Fixpoint run (tr : list (nat * event)) (w : world) : option world :=
  match tr with
  | [] => Some w
  | (i, ev) :: tr => match exec i ev w with Some w => run tr w | None => None end
  end.
End operations.
