(* ===== verification/ApplockProofs.v ===== *)
(** * ApplockProofs: reference counts and keys of application locks *)
From Stdlib Require Import Ascii String.
From stdpp Require Import base numbers list strings gmap relations.
From S2P Require Import Prelude Applock.

(** ** Keys *)

Lemma hash_round_range st c : 0 <= (hash_round st c).1 < INT64_MAX.
Proof. destruct st. cbn [hash_round fst]. apply Z.mod_pos_bound. reflexivity. Qed.

Lemma applock_simple_hash_range str : 0 <= applock_simple_hash str < INT64_MAX.
Proof.
  unfold applock_simple_hash.
  assert (H : forall l st, 0 <= st.1 < INT64_MAX -> 0 <= (foldl hash_round st l).1 < INT64_MAX).
  { induction l as [|c l IH]; intros st Hst; [done|]. apply IH, hash_round_range. }
  specialize (H (list_ascii_of_string str) (0, 1) ltac:(cbn; unfold INT64_MAX; lia)).
  rewrite i64_id; [done|]. rewrite in_i64_iff. unfold INT64_MAX in H. lia.
Qed.

Lemma next_key_range key : 0 <= key <= INT64_MAX -> 1 <= next_key key <= INT64_MAX.
Proof.
  unfold next_key. intros H. pose proof (Z.rem_bound_pos key INT64_MAX ltac:(lia) ltac:(done)). lia.
Qed.

(** The keys a resource may have. *)
Fixpoint keys_from (key : Z) (n : nat) : list Z :=
  match n with O => [] | S n => key :: keys_from (next_key key) n end.

Definition candidates (r : string) : list Z :=
  keys_from (applock_simple_hash r) APPLOCK_MAX_TRY_SEARCH_KEY.

Lemma keys_from_range key n k :
  0 <= key <= INT64_MAX -> k ∈ keys_from key n -> 0 <= k <= INT64_MAX.
Proof.
  revert key. induction n as [|n IH]; cbn; intros key Hk Hin; [set_solver|].
  apply elem_of_cons in Hin as [->|Hin]; [done|].
  eapply IH; [|exact Hin]. pose proof (next_key_range key Hk). lia.
Qed.

Lemma candidates_range r k : k ∈ candidates r -> 0 <= k <= INT64_MAX.
Proof. apply keys_from_range. pose proof (applock_simple_hash_range r). lia. Qed.

(** ** Searches *)

Lemma search_key_spec t r key n :
  (exists e, t !! search_key t r key n = Some e /\ ent_resource e = r /\
     search_key t r key n ∈ keys_from key n) \/
  (search_key t r key n = -1 /\
   forall k e, k ∈ keys_from key n -> t !! k = Some e -> ent_resource e <> r).
Proof.
  revert key. induction n as [|n IH]; intros key; cbn [search_key keys_from].
  - right. split; [done|]. set_solver.
  - destruct (t !! key) as [e|] eqn:Hk; [destruct (decide (ent_resource e = r)) as [He|He]|].
    + left. exists e. set_solver.
    + destruct (IH (next_key key)) as [(e' & H1 & H2 & H3)|[H1 H2]];
        [left; exists e'; set_solver|right]. split; [done|]. intros k e' Hin.
      apply elem_of_cons in Hin as [->|Hin]; [naive_solver|eauto].
    + destruct (IH (next_key key)) as [(e' & H1 & H2 & H3)|[H1 H2]];
        [left; exists e'; set_solver|right]. split; [done|]. intros k e' Hin.
      apply elem_of_cons in Hin as [->|Hin]; [naive_solver|eauto].
Qed.

(** The key of the shared table, or no candidate has the resource. *)
Lemma search_global_spec t r :
  (exists e, t !! AppLockSearchKeyGlobal t r = Some e /\ ent_resource e = r /\
     AppLockSearchKeyGlobal t r ∈ candidates r) \/
  (AppLockSearchKeyGlobal t r = -1 /\
   forall k e, k ∈ candidates r -> t !! k = Some e -> ent_resource e <> r).
Proof. apply search_key_spec. Qed.

Lemma find_usable_spec g r key usable n :
  match find_usable g r key usable n with
  | inl (g', k) => exists e, g !! k = Some e /\ ent_resource e = r /\ k ∈ keys_from key n /\
      g' = <[k := set_refcount e (u32 (refcount e + 1))]> g
  | inr u =>
      (forall k e, k ∈ keys_from key n -> g !! k = Some e -> ent_resource e <> r) /\
      (u = usable \/ usable = -1 /\ u ∈ keys_from key n /\ g !! u = None)
  end.
Proof.
  revert key usable. induction n as [|n IH]; intros key usable; cbn [find_usable keys_from].
  - split; [set_solver|by left].
  - destruct (g !! key) as [e|] eqn:Hk; [destruct (decide (ent_resource e = r)) as [He|He]|].
    + exists e. set_solver.
    + specialize (IH (next_key key) usable). destruct (find_usable _ _ _ _ n) as [[g' k]|u].
      * destruct IH as (e' & ? & ? & ? & ?). exists e'. set_solver.
      * destruct IH as [H1 H2]. split; [|set_solver]. intros k e' Hin.
        apply elem_of_cons in Hin as [->|Hin]; [naive_solver|eauto].
    + specialize (IH (next_key key) (if decide (usable = -1) then key else usable)).
      destruct (find_usable _ _ _ _ n) as [[g' k]|u].
      * destruct IH as (e' & ? & ? & ? & ?). exists e'. set_solver.
      * destruct IH as [H1 H2]. split.
        -- intros k e' Hin. apply elem_of_cons in Hin as [->|Hin]; [naive_solver|eauto].
        -- case_decide; set_solver.
Qed.

(** ** References *)

Fixpoint occurrences (k : Z) (keys : list Z) : nat :=
  match keys with
  | [] => 0
  | key :: keys => (if decide (key = k) then 1 else 0) + occurrences k keys
  end%nat.

(** References a session still has to give back, by the point it is at. *)
Definition pending (p : point) (k : Z) : nat :=
  match p with
  | Acquiring _ key _ | Failing _ key _ _ _ | Unreferencing key _ =>
      if decide (key = k) then 1 else 0
  | Removing keys _ => occurrences k keys
  | _ => 0
  end%nat.

Definition cached (t : table) (k : Z) : nat :=
  match t !! k with Some e => Z.to_nat (refcount e) | None => 0%nat end.

Definition refs (s : session) (k : Z) : nat := (cached (cache s) k + pending (pc s) k)%nat.

Definition total (ss : list session) (k : Z) : nat := sum_list_with (fun s => refs s k) ss.

Lemma total_insert ss i s s' k :
  ss !! i = Some s ->
  (total (<[i := s']> ss) k + refs s k = total ss k + refs s' k)%nat.
Proof.
  unfold total. revert i. induction ss as [|x ss IH]; intros [|i] Hi; cbn in *; [done..|simplify_eq; lia|].
  specialize (IH i Hi). unfold insert in *. lia.
Qed.

Lemma refs_le_total ss i s k : ss !! i = Some s -> (refs s k <= total ss k)%nat.
Proof.
  unfold total. revert i. induction ss as [|x ss IH]; intros [|i] Hi; cbn in *; [done..|simplify_eq; lia|].
  specialize (IH i Hi). lia.
Qed.

(** A session's own table: the count is the number of modes held. *)
Definition table_ok (t : table) : Prop :=
  forall k e, t !! k = Some e -> refcount e = Z.of_nat (length (mode_head e)) /\ mode_head e <> [].

(** Counts of the shared table are the references of all sessions. *)
Definition counted (g : table) (tot : Z -> nat) : Prop :=
  forall k, match g !! k with Some e => refcount e = Z.of_nat (tot k) | None => tot k = 0%nat end.

Lemma counted_ext g tot tot' : (forall k, tot k = tot' k) -> counted g tot -> counted g tot'.
Proof. intros H Hc k. rewrite <- H. apply Hc. Qed.

Lemma counted_ref g tot tot' k e :
  counted g tot -> g !! k = Some e -> (forall k', tot' k' = tot k' + if decide (k = k') then 1 else 0)%nat ->
  Z.of_nat (tot' k) < 2 ^ 32 ->
  counted (<[k := set_refcount e (u32 (refcount e + 1))]> g) tot'.
Proof.
  intros Hc He Ht Hb k'. pose proof (Hc k') as Hk'. specialize (Ht k') as Htk'.
  destruct (decide (k = k')) as [<-|Hne].
  - rewrite lookup_insert_eq. cbn. rewrite He in Hk'. rewrite u32_id; lia.
  - rewrite lookup_insert_ne by done. replace (tot' k') with (tot k') by lia. done.
Qed.

Lemma counted_new g tot tot' k e :
  counted g tot -> g !! k = None -> (forall k', tot' k' = tot k' + if decide (k = k') then 1 else 0)%nat ->
  refcount e = 1 -> counted (<[k := e]> g) tot'.
Proof.
  intros Hc He Ht Hr k'. pose proof (Hc k') as Hk'. specialize (Ht k') as Htk'.
  destruct (decide (k = k')) as [<-|Hne].
  - rewrite lookup_insert_eq. rewrite He in Hk'. lia.
  - rewrite lookup_insert_ne by done. replace (tot' k') with (tot k') by lia. done.
Qed.

Lemma counted_unref g tot tot' k :
  counted g tot -> (forall k', tot k' = tot' k' + if decide (k = k') then 1 else 0)%nat ->
  Z.of_nat (tot k) < 2 ^ 32 -> counted (ApplockUnrefGlobalCache k g) tot'.
Proof.
  intros Hc Ht Hb k'. unfold ApplockUnrefGlobalCache. pose proof (Hc k) as Hk. pose proof (Hc k') as Hk'.
  pose proof (Ht k) as Htk. specialize (Ht k') as Htk'. rewrite decide_True in Htk by done.
  destruct (g !! k) as [e|] eqn:He; [|lia].
  rewrite u32_id by lia. destruct (decide (k = k')) as [<-|Hne].
  - case_decide; [rewrite lookup_delete_eq; lia|]. rewrite lookup_insert_eq. cbn. lia.
  - replace (tot' k') with (tot k') by lia.
    case_decide; [by rewrite lookup_delete_ne|by rewrite lookup_insert_ne].
Qed.

(** ** The keys given back at the end of a transaction or session *)

Lemma occurrences_app k l1 l2 : (occurrences k (l1 ++ l2) = occurrences k l1 + occurrences k l2)%nat.
Proof. induction l1 as [|x l1 IH]; cbn; [done|]. rewrite IH. lia. Qed.

Lemma occurrences_repeat k x n : occurrences k (repeat x n) = if decide (x = k) then n else 0%nat.
Proof. induction n as [|n IH]; cbn; [by case_decide|]. rewrite IH. case_decide; lia. Qed.

Lemma removed_keys_list a k (l : list (Z * AppLockCacheEnt)) :
  NoDup l.*1 ->
  occurrences k (flat_map (fun '(k, e) => if removed a e then repeat k (Z.to_nat (refcount e)) else []) l) =
  match list_to_map (M := table) l !! k with
  | Some e => if removed a e then Z.to_nat (refcount e) else 0%nat
  | None => 0%nat
  end.
Proof.
  induction l as [|[x e] l IH]; intros Hnd; [done|].
  apply NoDup_cons in Hnd as [Hx Hnd]. cbn [flat_map list_to_map foldr].
  rewrite occurrences_app, (IH Hnd). cbn [fst snd]. destruct (decide (x = k)) as [->|Hne].
  - rewrite lookup_insert_eq. rewrite (not_elem_of_list_to_map_1 (M := gmap Z)) by done.
    destruct (removed a e); [rewrite occurrences_repeat, decide_True by done; lia|done].
  - rewrite lookup_insert_ne by done.
    destruct (removed a e); [rewrite occurrences_repeat, decide_False by done|]; done.
Qed.

Lemma removed_keys_spec a t k :
  (cached t k = cached (filter (fun ke => removed a ke.2 = false) t) k +
                occurrences k (removed_keys a t))%nat.
Proof.
  unfold removed_keys. rewrite removed_keys_list by apply NoDup_fst_map_to_list.
  rewrite list_to_map_to_list. unfold cached.
  destruct (t !! k) as [e|] eqn:He.
  - destruct (removed a e) eqn:Hr.
    + replace (filter _ t !! k) with (None : option AppLockCacheEnt); [done|].
      symmetry. apply map_lookup_filter_None. right. intros x Hx. cbn. congruence.
    + rewrite (map_lookup_filter_Some_2 _ _ k e) by done. lia.
  - replace (filter _ t !! k) with (None : option AppLockCacheEnt); [done|].
    symmetry. apply map_lookup_filter_None. by left.
Qed.

(** ** What one step does to references *)

Section steps.
Context {L : Type} `{LockManager L}.
Variable text_to_cstring_buffer : string -> nat -> string.
Variables ERRCODE_LOCK_NOT_AVAILABLE ERRCODE_T_R_DEADLOCK_DETECTED : Z.
Variable stale : AppLockCacheEnt.

Abbreviation exec := (exec text_to_cstring_buffer ERRCODE_LOCK_NOT_AVAILABLE
  ERRCODE_T_R_DEADLOCK_DETECTED stale).
Abbreviation step := (step text_to_cstring_buffer ERRCODE_LOCK_NOT_AVAILABLE
  ERRCODE_T_R_DEADLOCK_DETECTED stale).

(** Points without references. *)
Definition plain (p : point) : Prop := forall k, pending p k = 0%nat.

Lemma cache_init s : cache (initApplockCache s) = cache s.
Proof. unfold initApplockCache, cache. by destruct (appLockCacheLocal s) eqn:E; rewrite ?E. Qed.

Lemma cache_timeout t v s : cache (ApplockSetLockTimeout t v s) = cache s.
Proof. unfold ApplockSetLockTimeout. by case_decide. Qed.

Lemma begin_get_plain q g s : cache (begin_get q g s) = cache s /\ plain (pc (begin_get q g s)).
Proof. unfold begin_get. by destruct q. Qed.

(** Calls take no reference before their first critical section. *)
Lemma get_plain r m o t d p x g s :
  let s' := sp_getapplock_function text_to_cstring_buffer r m o t d p x g s in
  cache s' = cache s /\ plain (pc s').
Proof.
  cbn zeta. unfold sp_getapplock_function. rewrite <- (cache_init s).
  repeat case_match; try done. apply begin_get_plain.
Qed.

Lemma test_plain d r m o p x g s :
  let s' := APPLOCK_TEST text_to_cstring_buffer d r m o p x g s in
  cache s' = cache s /\ plain (pc s').
Proof.
  cbn zeta. unfold APPLOCK_TEST. rewrite <- (cache_init s).
  repeat case_match; try done; apply (begin_get_plain (Some _)).
Qed.

Lemma release_plain r o d p s :
  let s' := sp_releaseapplock_function text_to_cstring_buffer r o d p s in
  cache s' = cache s /\ plain (pc s').
Proof.
  cbn zeta. unfold sp_releaseapplock_function. rewrite <- (cache_init s).
  repeat case_match; done.
Qed.

(** A usable key is the one reference taken. *)
Lemma usable_key_refs q key s :
  0 <= key ->
  cache (usable_key q key s) = cache s /\
  forall k, pending (pc (usable_key q key s)) k = if decide (key = k) then 1%nat else 0%nat.
Proof.
  intros Hk. unfold usable_key. rewrite decide_False by lia.
  split; [apply cache_timeout|done].
Qed.

Lemma lock_failed_plain a b q saved errcode elapsed s :
  cache (lock_failed a b q saved errcode elapsed s) = cache s /\
  plain (pc (lock_failed a b q saved errcode elapsed s)).
Proof. unfold lock_failed. split; [apply cache_timeout|done]. Qed.

Lemma lock_acquired_refs q key saved s :
  pc s = Acquiring q key saved -> table_ok (cache s) -> Z.of_nat (refs s key) < 2 ^ 32 ->
  table_ok (cache (lock_acquired q key saved s)) /\
  (forall k, refs (lock_acquired q key saved s) k = refs s k).
Proof.
  intros Hpc Hok Hb. unfold lock_acquired. cbv zeta. rewrite !cache_timeout.
  set (e0 := default _ _). set (t' := <[key := _]> (cache s)).
  assert (He0 : refcount e0 = Z.of_nat (cached (cache s) key) /\
                refcount e0 = Z.of_nat (length (mode_head e0))).
  { unfold e0, cached. destruct (cache s !! key) as [e|] eqn:He; cbn; [|done].
    destruct (Hok _ _ He). lia. }
  unfold refs in Hb. rewrite Hpc in Hb. cbn in Hb. rewrite decide_True in Hb by done.
  assert (Hcache : forall r b, cache (if test q then goto (set_cache s t') r else finish (set_cache s t') b) = t')
    by (intros; by destruct (test q)).
  assert (table_ok t').
  { intros k e. unfold t'. destruct (decide (key = k)) as [<-|Hne].
    - rewrite lookup_insert_eq. intros [= <-]. cbn. rewrite u32_id by lia. split; [lia|done].
    - rewrite lookup_insert_ne by done. apply Hok. }
  assert (Hset : forall T V, set_cache (ApplockSetLockTimeout T V s) t' =
     ApplockSetLockTimeout T V (set_cache s t'))
    by (intros; unfold ApplockSetLockTimeout; by case_decide).
  split.
  - by destruct (test q).
  - intros k. unfold refs. rewrite Hpc. cbn [pending].
    replace (cached (cache (if test q then _ else _)) k) with (cached t' k) by (by destruct (test q)).
    replace (pending (pc (if test q then _ else _)) k) with 0%nat by (by destruct (test q)).
    unfold cached at 1, t'. destruct (decide (key = k)) as [<-|Hne].
    + rewrite lookup_insert_eq. cbn. rewrite u32_id by lia. lia.
    + rewrite lookup_insert_ne by done. fold (cached (cache s) k). lia.
Qed.

Lemma release_lock_refs i r o t g (l : L) s :
  pc s = Releasing r o t -> table_ok (cache s) -> (forall k, Z.of_nat (refs s k) < 2 ^ 32) ->
  table_ok (cache (release_lock i r o t g l s).2) /\
  (forall k, refs (release_lock i r o t g l s).2 k = refs s k).
Proof.
  intros Hpc Hok Hb. unfold release_lock. cbv zeta.
  generalize (AppLockSearchKeyGlobal g r). intros key.
  assert (Hfin : forall x, table_ok (cache (finish s x)) /\ forall k, refs (finish s x) k = refs s k).
  { intros x. split; [done|]. intros k. unfold refs. by rewrite Hpc. }
  case_decide; [apply Hfin|]. destruct (cache s !! key) as [e|] eqn:He; [|apply Hfin].
  destruct (bool_decide _); [|apply Hfin]. destruct (Hok _ _ He) as [Hcount Hne].
  destruct (mode_head e) as [|m ms] eqn:Hm; [done|].
  destruct (LockRelease _ _ _ _ _) as [l'|]; [|apply Hfin]. cbn [snd].
  assert (Hk : cached (cache s) key = S (length ms)) by (unfold cached; rewrite He, Hcount; cbn; lia).
  pose proof (Hb key) as Hbk. unfold refs in Hbk. rewrite Hpc, Hk in Hbk. cbn in Hbk, Hcount.
  rewrite u32_id by lia. split.
  - intros k e'. cbn. case_decide as Hz; destruct (decide (key = k)) as [<-|Hnk].
    + by rewrite lookup_delete_eq.
    + rewrite lookup_delete_ne by done. apply Hok.
    + rewrite lookup_insert_eq. intros [= <-]. cbn. split; [lia|]. intros ->. cbn in *. lia.
    + rewrite lookup_insert_ne by done. apply Hok.
  - intros k. unfold refs. rewrite Hpc. cbn. rewrite Nat.add_0_r.
    destruct (decide (key = k)) as [<-|Hnk].
    + rewrite Hk. unfold cached. case_decide; [rewrite lookup_delete_eq|rewrite lookup_insert_eq; cbn]; lia.
    + unfold cached. rewrite Nat.add_0_r.
      case_decide; [by rewrite lookup_delete_ne|by rewrite lookup_insert_ne].
Qed.

Lemma remove_refs a t s :
  pc s = Idle -> table_ok (cache s) ->
  table_ok (cache (ApplockRemoveCache a t s)) /\
  (forall k, refs (ApplockRemoveCache a t s) k = refs s k).
Proof.
  intros Hpc Hok. unfold ApplockRemoveCache.
  destruct (appLockCacheLocal s) as [tab|] eqn:Ht; [|done]. destruct t; [|done].
  assert (Hc : cache s = tab) by (unfold cache; by rewrite Ht). rewrite Hc in Hok. cbn. split.
  - intros k e [He _]%map_lookup_filter_Some. eauto.
  - intros k. unfold refs. cbn. rewrite Hpc, Hc. cbn. rewrite (removed_keys_spec a tab k). lia.
Qed.

(** *** The invariant of counts *)

Definition bounded (w : world (L := L)) : Prop := forall k, Z.of_nat (total (sessions w) k) < 2 ^ 32.

Definition point_ok (p : point) : Prop :=
  match p with Searched _ key => key = -1 \/ 0 <= key | _ => True end.

Definition session_ok (s : session) : Prop := table_ok (cache s) /\ point_ok (pc s).

Record counts_inv (w : world (L := L)) : Prop := {
  inv_sessions : Forall session_ok (sessions w);
  inv_counted : counted (appLockCacheGlobal w) (total (sessions w))
}.

Lemma counts_put w i g l s s' :
  counts_inv w -> sessions w !! i = Some s -> session_ok s' ->
  counted g (total (<[i := s']> (sessions w))) -> counts_inv (put w i g l s').
Proof. intros [Hs _] Hi Hok Hc. split; [by apply Forall_insert|done]. Qed.

(** A step that keeps the session's references and the shared table. *)
Lemma counts_keep w i l s s' :
  counts_inv w -> sessions w !! i = Some s -> session_ok s' -> (forall k, refs s' k = refs s k) ->
  counts_inv (put w i (appLockCacheGlobal w) l s').
Proof.
  intros Hinv Hi Hok Hr. eapply counts_put; [done|done|done|].
  eapply counted_ext; [|apply Hinv]. intros k.
  pose proof (total_insert (sessions w) i s s' k Hi). rewrite Hr in *. lia.
Qed.

Lemma counts_unref w i l s s' key :
  counts_inv w -> bounded w -> sessions w !! i = Some s -> session_ok s' ->
  (forall k, refs s k = refs s' k + if decide (key = k) then 1 else 0)%nat ->
  counts_inv (put w i (ApplockUnrefGlobalCache key (appLockCacheGlobal w)) l s').
Proof.
  intros Hinv Hb Hi Hok Hr. eapply counts_put; [done|done|done|].
  eapply counted_unref; [apply Hinv| |apply Hb]. intros k.
  pose proof (total_insert (sessions w) i s s' k Hi). specialize (Hr k). lia.
Qed.

Lemma total_ref (w : world (L := L)) i s s' key :
  sessions w !! i = Some s ->
  (forall k, refs s' k = refs s k + if decide (key = k) then 1 else 0)%nat ->
  forall k, (total (<[i := s']> (sessions w)) k = total (sessions w) k + if decide (key = k) then 1 else 0)%nat.
Proof. intros Hi Hr k. pose proof (total_insert (sessions w) i s s' k Hi). specialize (Hr k). lia. Qed.

Lemma refs_plain s s' : cache s' = cache s -> plain (pc s) -> plain (pc s') -> forall k, refs s' k = refs s k.
Proof. intros Hc H1 H2 k. unfold refs. by rewrite Hc, H1, H2. Qed.

Lemma search_point q g : point_ok (Searched q (AppLockSearchKeyGlobal g (resource q))).
Proof.
  destruct (search_global_spec g (resource q)) as [(e & _ & _ & Hin)|[-> _]]; [|by left].
  right. by destruct (candidates_range _ _ Hin).
Qed.

Lemma begin_get_ok q g s : pc s = Idle -> point_ok (pc (begin_get q g s)).
Proof. intros Hpc. destruct q; [apply search_point|done]. Qed.

Lemma calls_ok s :
  pc s = Idle ->
  (forall r m o t d p x g, point_ok (pc (sp_getapplock_function text_to_cstring_buffer r m o t d p x g s))) /\
  (forall d r m o p x g, point_ok (pc (APPLOCK_TEST text_to_cstring_buffer d r m o p x g s))) /\
  (forall r o d p, point_ok (pc (sp_releaseapplock_function text_to_cstring_buffer r o d p s))).
Proof.
  intros Hpc.
  assert (Hi : pc (initApplockCache s) = Idle) by (unfold initApplockCache; by case_match).
  split_and!; intros; unfold sp_getapplock_function, APPLOCK_TEST, sp_releaseapplock_function;
    repeat case_match; try done; by apply (begin_get_ok (Some _)) || by apply begin_get_ok.
Qed.

Lemma usable_key_ok q key s : session_ok s -> session_ok (usable_key q key s).
Proof.
  intros [Ht _]. unfold usable_key. case_decide; split; try done.
  intros k e. change (cache (goto ?s _)) with (cache s). rewrite cache_timeout. apply Ht.
Qed.

(** A key referenced for a session that had no reference pending. *)
Lemma usable_key_total (w : world (L := L)) i s q key :
  sessions w !! i = Some s -> plain (pc s) -> 0 <= key ->
  forall k, (total (<[i := usable_key q key s]> (sessions w)) k =
    total (sessions w) k + if decide (key = k) then 1 else 0)%nat.
Proof.
  intros Hi Hp Hk. apply (total_ref w i s _ key Hi). intros k.
  destruct (usable_key_refs q key s Hk) as [Hc Hpend]. unfold refs. by rewrite Hc, Hpend, Hp, Nat.add_0_r.
Qed.

Hypothesis stale_free : refcount stale = 0.

Lemma counts_reference w i s q key :
  counts_inv w -> sessions w !! i = Some s -> pc s = Searched q key -> key <> -1 ->
  (forall w', exec i Continue w = Some w' -> bounded w' -> counts_inv w').
Proof.
  intros Hinv Hi Hpc Hkey w' Hex Hb. unfold Applock.exec in Hex. rewrite Hi, Hpc in Hex.
  rewrite decide_False in Hex by done. unfold reference_found in Hex.
  pose proof (Forall_lookup_1 _ _ _ _ (inv_sessions _ Hinv) Hi) as Hok.
  pose proof Hok as [Ht Hp]. rewrite Hpc in Hp. destruct Hp as [|Hp]; [done|].
  destruct (appLockCacheGlobal w !! key) as [e|] eqn:He; injection Hex as <-.
  - eapply counts_put; [done|done|by apply usable_key_ok|].
    eapply counted_ref; [apply Hinv|done| |apply Hb].
    apply usable_key_total; [done|by rewrite Hpc|done].
  - eapply counts_put; [done|done|done|]. intros k.
    pose proof (total_insert (sessions w) i s (goto s (Generating q)) k Hi) as Htot.
    rewrite (refs_plain s (goto s (Generating q))) in Htot by (done || by rewrite Hpc).
    replace (total _ k) with (total (sessions w) k) by lia. pose proof (inv_counted _ Hinv k) as Hk.
    destruct (decide (key = k)) as [<-|Hne];
      [rewrite lookup_insert_eq; rewrite He in Hk; lia|by rewrite lookup_insert_ne].
Qed.

Lemma counts_generate w i s q :
  counts_inv w -> sessions w !! i = Some s -> pc s = Generating q ->
  (forall w', exec i Continue w = Some w' -> bounded w' -> counts_inv w').
Proof.
  intros Hinv Hi Hpc w' Hex Hb. unfold Applock.exec in Hex. rewrite Hi, Hpc in Hex.
  unfold generate_key in Hex.
  pose proof (Forall_lookup_1 _ _ _ _ (inv_sessions _ Hinv) Hi) as Hok.
  pose proof (find_usable_spec (appLockCacheGlobal w) (resource q)
    (applock_simple_hash (resource q)) (-1) APPLOCK_MAX_TRY_SEARCH_KEY) as Hf.
  destruct (find_usable _ _ _ _ _) as [[g' k]|u].
  - destruct Hf as (e & He & _ & Hin & ->). injection Hex as <-. apply candidates_range in Hin.
    eapply counts_put; [done|done|by apply usable_key_ok|].
    eapply counted_ref; [apply Hinv|done| |apply Hb].
    apply usable_key_total; [done|by rewrite Hpc|lia].
  - destruct Hf as [_ [->|(_ & Hin & Hnone)]].
    + injection Hex as <-. eapply counts_keep; [done|done|by apply usable_key_ok|].
      apply refs_plain; [done|by rewrite Hpc|done].
    + apply candidates_range in Hin. rewrite decide_False in Hex by lia. injection Hex as <-.
      eapply counts_put; [done|done|by apply usable_key_ok|].
      eapply counted_new; [apply Hinv|done| |done].
      apply usable_key_total; [done|by rewrite Hpc|lia].
Qed.

Lemma exec_counts i ev w w' :
  exec i ev w = Some w' -> counts_inv w -> bounded w -> bounded w' -> counts_inv w'.
Proof.
  intros Hex Hinv Hb Hb'. pose proof Hex as Hex0. unfold Applock.exec in Hex.
  destruct (sessions w !! i) as [s|] eqn:Hi; [|done].
  pose proof (Forall_lookup_1 _ _ _ _ (inv_sessions _ Hinv) Hi) as Hok. pose proof Hok as [Ht Hp].
  assert (Hrb : forall k, Z.of_nat (refs s k) < 2 ^ 32)
    by (intros k; pose proof (refs_le_total _ _ _ k Hi); specialize (Hb k); lia).
  destruct (pc s) as [|q key|q|q key saved|q key saved ec el|r o t|key code|[|key keys] all] eqn:Hpc;
    destruct ev; try done.
  - injection Hex as <-. destruct (get_plain resource lockmode lockowner timeout dbprincipal parallel in_txn
      (appLockCacheGlobal w) s) as [Hc Hpl].
    eapply counts_keep; [done|done| |by apply refs_plain; [|rewrite Hpc|]].
    split; [by rewrite Hc|by apply calls_ok].
  - injection Hex as <-. destruct (release_plain resource lockowner dbprincipal parallel s) as [Hc Hpl].
    eapply counts_keep; [done|done| |by apply refs_plain; [|rewrite Hpc|]].
    split; [by rewrite Hc|by apply calls_ok].
  - injection Hex as <-. destruct (test_plain dbprincipal resource lockmode lockowner parallel in_txn
      (appLockCacheGlobal w) s) as [Hc Hpl].
    eapply counts_keep; [done|done| |by apply refs_plain; [|rewrite Hpc|]].
    split; [by rewrite Hc|by apply calls_ok].
  - injection Hex as <-. destruct (remove_refs release_session tsql s Hpc Ht) as [Hc Hr].
    eapply counts_keep; [done|done| |done]. split; [done|].
    unfold ApplockRemoveCache. repeat case_match; done || by rewrite Hpc.
  - destruct (decide (key = -1)) as [->|Hne]; [|by eapply counts_reference].
    injection Hex as <-. eapply counts_keep; [done|done|done|]. by apply refs_plain; [|rewrite Hpc|].
  - by eapply counts_generate.
  - injection Hex as <-. destruct (lock_acquired_refs q key saved s Hpc Ht (Hrb key)) as [Hc Hr].
    eapply counts_keep; [done|done| |done]. split; [done|]. unfold lock_acquired. by destruct (test q).
  - injection Hex as <-. eapply counts_keep; [done|done|done|]. intros k. unfold refs. by rewrite Hpc.
  - injection Hex as <-.
    destruct (lock_failed_plain ERRCODE_LOCK_NOT_AVAILABLE ERRCODE_T_R_DEADLOCK_DETECTED q saved ec el s)
      as [Hc Hpl].
    eapply counts_unref; [done|done|done|split; [by rewrite Hc|done]|].
    intros k. unfold refs. rewrite Hc, Hpl, Hpc. cbn. lia.
  - destruct (release_lock_refs i r o t (appLockCacheGlobal w) (locks w) s Hpc Ht Hrb) as [Hc Hr].
    destruct (release_lock _ _ _ _ _ _ _) as [l' s'] eqn:Hrel. injection Hex as <-.
    eapply counts_keep; [done|done| |done]. split; [done|].
    unfold release_lock in Hrel. repeat case_match; simplify_eq; done.
  - injection Hex as <-. eapply counts_unref; [done|done|done|done|].
    intros k. unfold refs. rewrite Hpc. change (cache (finish s _)) with (cache s).
    cbn [pending pc finish]. lia.
  - injection Hex as <-. eapply counts_keep; [done|done|done|]. intros k. unfold refs. by rewrite Hpc.
  - injection Hex as <-. eapply counts_unref; [done|done|done|done|].
    intros k. unfold refs. rewrite Hpc. change (cache (goto s (Removing keys all))) with (cache s).
    cbn [pending pc goto occurrences]. lia.
Qed.
End steps.
