(* ===== verification/ApplockKeys.v ===== *)
(** * ApplockKeys: one key per resource, and mutual exclusion

    Runs in which no other session moves between the search for a key and the
    reference to it: every resource then has one key, which all its holders use. *)
From Stdlib Require Import Ascii String.
From stdpp Require Import base numbers list strings gmap relations.
From S2P Require Import Prelude Applock ApplockProofs.

#[local] Arguments AppLockSearchKeyGlobal : simpl never.

Definition resource_at (g : table) (k : Z) : option string := ent_resource <$> g !! k.

Lemma resource_at_ref g k e n j :
  g !! k = Some e -> resource_at (<[k := set_refcount e n]> g) j = resource_at g j.
Proof.
  intros He. unfold resource_at. destruct (decide (k = j)) as [<-|Hne];
    [by rewrite lookup_insert_eq, He|by rewrite lookup_insert_ne].
Qed.

(** Giving a reference back removes an entry or keeps its resource. *)
Lemma resource_at_unref g key k r :
  resource_at (ApplockUnrefGlobalCache key g) k = Some r -> resource_at g k = Some r.
Proof.
  unfold ApplockUnrefGlobalCache. destruct (g !! key) as [e|] eqn:He; [|done]. cbv zeta.
  case_decide; [|by rewrite (resource_at_ref _ _ _ _ _ He)].
  unfold resource_at. destruct (decide (key = k)) as [<-|Hne];
    [by rewrite lookup_delete_eq|by rewrite lookup_delete_ne].
Qed.

(** ** Requests *)

Definition acquirable (m : Applock_All_Lockmode) : Prop := getPGLockMode m <> NoLock.

Lemma getPGLockMode_inj m a : acquirable m -> getPGLockMode a = getPGLockMode m -> a = m.
Proof. unfold acquirable. destruct m, a; cbn; naive_solver. Qed.

Definition request_ok (q : request) : Prop :=
  copy_resource (resource q) = resource q /\ acquirable (mode q).

Lemma substring_all n s : (String.length s <= n)%nat -> String.substring 0 n s = s.
Proof.
  revert n. induction s as [|c s IH]; intros [|n] Hn; cbn in *; try done; [lia|].
  rewrite IH; [done|lia].
Qed.

Lemma check_lockmode_acquirable s m : ApplockCheckLockmode s = Some m -> acquirable m.
Proof. unfold ApplockCheckLockmode, acquirable. repeat case_match; naive_solver. Qed.

Lemma check_get_ok r lm lo t p x b q :
  (String.length r <= 256)%nat -> check_get r lm lo t p x b = Some q -> request_ok q /\ resource q = r.
Proof.
  intros Hr. unfold check_get. destruct p; [done|].
  destruct (ApplockCheckLockmode lm) as [m|] eqn:Hm; [|done]. destruct (ApplockCheckLockowner lo); [|done].
  destruct (_ && _); [done|]. intros [= <-]. split; [|done].
  split; [by apply substring_all|by eapply check_lockmode_acquirable].
Qed.

(** The request a session is working on. *)
Definition current (p : point) : option request :=
  match p with
  | Searched q _ | Generating q | Acquiring q _ _ | Failing q _ _ _ _ => Some q
  | _ => None
  end.

(** The key a session has referenced for its request. *)
Definition referenced (p : point) : option (Z * string) :=
  match p with
  | Acquiring q key _ | Failing q key _ _ _ => Some (key, resource q)
  | _ => None
  end.

Definition named (s : session) (k : Z) (r : string) : Prop :=
  resource_at (cache s) k = Some r \/ referenced (pc s) = Some (k, r).

Lemma named_refs s k r : table_ok (cache s) -> named s k r -> (0 < refs s k)%nat.
Proof.
  unfold refs. intros Hok [Hc|Hp].
  - unfold resource_at in Hc. unfold cached. destruct (cache s !! k) as [e|] eqn:He; [|done].
    destruct (Hok _ _ He) as [-> Hne]. destruct (mode_head e); [done|]. cbn. lia.
  - destruct (pc s); simplify_eq/=; rewrite decide_True by done; lia.
Qed.

Section keys.
Context {L : Type} `{LockManager L}.
Variable text_to_cstring_buffer : string -> nat -> string.
Variables ERRCODE_LOCK_NOT_AVAILABLE ERRCODE_T_R_DEADLOCK_DETECTED : Z.
Variable stale : AppLockCacheEnt.
Hypothesis stale_free : refcount stale = 0.
(** The buffer holds a terminating NUL as well. *)
Hypothesis buffer_size : forall s n, (0 < n)%nat -> (String.length (text_to_cstring_buffer s n) < n)%nat.

Abbreviation exec := (exec text_to_cstring_buffer ERRCODE_LOCK_NOT_AVAILABLE
  ERRCODE_T_R_DEADLOCK_DETECTED stale).

Record keys_inv (w : world (L := L)) : Prop := {
  k_counts : counts_inv w;
  k_named : forall s k r, s ∈ sessions w -> named s k r -> resource_at (appLockCacheGlobal w) k = Some r;
  k_searched : forall s q k, s ∈ sessions w -> pc s = Searched q k -> k <> -1 ->
    resource_at (appLockCacheGlobal w) k = Some (resource q);
  k_live : forall k e, appLockCacheGlobal w !! k = Some e -> 0 < refcount e;
  k_candidate : forall k r, resource_at (appLockCacheGlobal w) k = Some r -> k ∈ candidates r;
  k_unique : forall k k' r, resource_at (appLockCacheGlobal w) k = Some r ->
    resource_at (appLockCacheGlobal w) k' = Some r -> k = k';
  k_requests : forall s q, s ∈ sessions w -> current (pc s) = Some q -> request_ok q
}.

(** The step from [w] to [w'] deletes no entry that a session has found but not yet
    referenced. *)
Definition undisturbed (w w' : world (L := L)) : Prop :=
  forall s q k, s ∈ sessions w -> pc s = Searched q k -> k <> -1 -> is_Some (appLockCacheGlobal w' !! k).

(** *** How the shared table may change *)

Lemma elem_of_insert_session (ss : list session) i s s' x :
  ss !! i = Some s -> x ∈ <[i := s']> ss -> x = s' \/ exists j, j <> i /\ ss !! j = Some x.
Proof.
  intros Hi [j Hj]%list_elem_of_lookup. destruct (decide (i = j)) as [<-|Hne].
  - rewrite list_lookup_insert_eq in Hj by (by eapply lookup_lt_Some). left. congruence.
  - rewrite list_lookup_insert_ne in Hj by done. eauto.
Qed.

(** What a session brings along when it moves. *)
Definition follows (g : table) (s' : session) : Prop :=
  (forall k r, named s' k r -> resource_at g k = Some r) /\
  (forall q k, pc s' = Searched q k -> k <> -1 -> resource_at g k = Some (resource q)) /\
  (forall q, current (pc s') = Some q -> request_ok q).

(** A step after which the table knows at least the resources it knew, or only lost
    entries without references. *)
Lemma keys_put w i g l s s' :
  keys_inv w -> undisturbed w (put w i g l s') -> sessions w !! i = Some s ->
  counts_inv (put w i g l s') -> follows g s' ->
  (forall k r, resource_at (appLockCacheGlobal w) k = Some r -> is_Some (g !! k) -> resource_at g k = Some r) ->
  (forall j x k r, j <> i -> sessions w !! j = Some x -> named x k r -> resource_at g k = Some r) ->
  (forall k e, g !! k = Some e -> 0 < refcount e) ->
  (forall k r, resource_at g k = Some r -> k ∈ candidates r) ->
  (forall k k' r, resource_at g k = Some r -> resource_at g k' = Some r -> k = k') ->
  keys_inv (put w i g l s').
Proof.
  intros Hinv Hq Hi Hc (Hn & Hs & Hr) Hsame Hother Hlive Hcand Huniq.
  split; cbn [sessions appLockCacheGlobal put]; try done.
  - intros x k r Hx Hnx. destruct (elem_of_insert_session _ _ _ _ _ Hi Hx) as [->|(j & Hj & Hjx)]; eauto.
  - intros x q k Hx Hpc Hk. destruct (elem_of_insert_session _ _ _ _ _ Hi Hx) as [->|(j & Hj & Hjx)]; eauto.
    apply list_elem_of_lookup_2 in Hjx. apply Hsame; [|by eapply Hq]. by eapply (k_searched _ Hinv).
  - intros x q Hx Hcur. destruct (elem_of_insert_session _ _ _ _ _ Hi Hx) as [->|(j & Hj & Hjx)]; eauto.
    eapply (k_requests _ Hinv); [|done]. by eapply list_elem_of_lookup_2.
Qed.

Lemma keys_keep w i l s s' :
  keys_inv w -> undisturbed w (put w i (appLockCacheGlobal w) l s') -> sessions w !! i = Some s ->
  counts_inv (put w i (appLockCacheGlobal w) l s') -> follows (appLockCacheGlobal w) s' ->
  keys_inv (put w i (appLockCacheGlobal w) l s').
Proof.
  intros Hinv Hq Hi Hc Hf. eapply keys_put; eauto; try apply Hinv.
  intros j x k r Hj Hjx. eapply (k_named _ Hinv). by eapply list_elem_of_lookup_2.
Qed.

(** A new reference to an entry of the same resource. *)
Lemma keys_ref w i l s s' k e n :
  keys_inv w -> sessions w !! i = Some s -> appLockCacheGlobal w !! k = Some e ->
  0 < n -> let g := <[k := set_refcount e n]> (appLockCacheGlobal w) in
  undisturbed w (put w i g l s') -> counts_inv (put w i g l s') -> follows (appLockCacheGlobal w) s' -> keys_inv (put w i g l s').
Proof.
  intros Hinv Hi He Hpos g Hq Hc (Hf1 & Hf2 & Hf3).
  assert (Hres : forall j, resource_at g j = resource_at (appLockCacheGlobal w) j)
    by (intros j; by apply resource_at_ref).
  eapply keys_put; eauto.
  - split_and!; try done; intros; rewrite Hres; eauto.
  - intros k' r Hr _. by rewrite Hres.
  - intros j x k' r Hj Hjx Hn. rewrite Hres. eapply (k_named _ Hinv); [|done].
    by eapply list_elem_of_lookup_2.
  - intros k' e'. unfold g. destruct (decide (k = k')) as [<-|Hne];
      [rewrite lookup_insert_eq; by intros [= <-]|rewrite lookup_insert_ne by done; apply Hinv].
  - intros k' r. rewrite Hres. apply Hinv.
  - intros k1 k2 r. rewrite !Hres. apply Hinv.
Qed.

(** A reference given back. *)
Lemma keys_unref w i l s s' key :
  keys_inv w -> sessions w !! i = Some s ->
  let g := ApplockUnrefGlobalCache key (appLockCacheGlobal w) in
  undisturbed w (put w i g l s') -> counts_inv (put w i g l s') -> session_ok s' -> current (pc s') = None ->
  (forall k r, named s' k r -> named s k r) ->
  keys_inv (put w i g l s').
Proof.
  intros Hinv Hi g Hq Hc Hok Hcur Hn.
  assert (Hkeep : forall j x k r, sessions (put w i g l s') !! j = Some x -> named x k r ->
            resource_at (appLockCacheGlobal w) k = Some r -> resource_at g k = Some r).
  { intros j x k r Hj Hnx Hr. pose proof (Forall_lookup_1 _ _ _ _ (inv_sessions _ Hc) Hj) as [Ht _].
    pose proof (named_refs _ _ _ Ht Hnx) as Hpos. pose proof (refs_le_total _ _ _ k Hj) as Hle.
    pose proof (inv_counted _ Hc k) as Hk. cbn [appLockCacheGlobal put sessions] in *.
    destruct (g !! k) as [e|] eqn:He; [|lia].
    assert (Hg : resource_at g k = Some (ent_resource e)) by (unfold resource_at; by rewrite He).
    pose proof (resource_at_unref _ _ _ _ Hg). congruence. }
  assert (Hlen : (i < length (sessions w))%nat) by (by eapply lookup_lt_Some).
  eapply keys_put; eauto.
  - split_and!.
    + intros k r Hnx. eapply (Hkeep i s'); [by apply list_lookup_insert_eq|done|].
      eapply (k_named _ Hinv); [by eapply list_elem_of_lookup_2|by apply Hn].
    + intros q k Hpc. by rewrite Hpc in Hcur.
    + congruence.
  - intros k r Hr [e He]. assert (Hg : resource_at g k = Some (ent_resource e))
      by (unfold resource_at; by rewrite He). pose proof (resource_at_unref _ _ _ _ Hg). congruence.
  - intros j x k r Hj Hjx Hnx. eapply (Hkeep j x); [by cbn; rewrite list_lookup_insert_ne|done|].
    eapply (k_named _ Hinv); [by eapply list_elem_of_lookup_2|done].
  - intros k e. unfold g, ApplockUnrefGlobalCache.
    destruct (appLockCacheGlobal w !! key) as [e0|] eqn:He0; [|apply Hinv]. cbv zeta.
    case_decide as Hz.
    + intros [_ Hk]%lookup_delete_Some. by apply (k_live _ Hinv k).
    + destruct (decide (key = k)) as [<-|Hne];
        [|rewrite lookup_insert_ne by done; apply Hinv].
      rewrite lookup_insert_eq. intros [= <-]. cbn.
      pose proof (Z.mod_pos_bound (refcount e0 - 1) (2 ^ 32) ltac:(done)). unfold u32, uwrap in *. lia.
  - intros k r Hr. eapply (k_candidate _ Hinv), resource_at_unref, Hr.
  - intros k1 k2 r H1 H2. eapply (k_unique _ Hinv); eapply resource_at_unref; eauto.
Qed.

(** *** Each step *)

Lemma named_same s s' : cache s' = cache s -> referenced (pc s') = None ->
  forall k r, named s' k r -> named s k r.
Proof. intros Hc Hp k r [Hn|Hn]; [left; by rewrite <- Hc|congruence]. Qed.

Lemma follows_quiet w s s' :
  keys_inv w -> s ∈ sessions w -> (forall k r, named s' k r -> named s k r) ->
  (forall q k, pc s' <> Searched q k) -> (forall q, current (pc s') = Some q -> request_ok q) ->
  follows (appLockCacheGlobal w) s'.
Proof.
  intros Hinv Hs Hn Hq Hr. split_and!; [|intros q k Hpc; by destruct (Hq q k)|done].
  intros k r Hnx. eapply (k_named _ Hinv); eauto.
Qed.

Lemma begin_get_follows w s q :
  keys_inv w -> s ∈ sessions w -> (forall q', q = Some q' -> request_ok q') ->
  follows (appLockCacheGlobal w) (begin_get q (appLockCacheGlobal w) s).
Proof.
  intros Hinv Hs Hq. destruct (begin_get_plain q (appLockCacheGlobal w) s) as [Hc _].
  split_and!.
  - intros k r Hn. eapply (k_named _ Hinv); [done|]. revert k r Hn. apply named_same; [done|]. by destruct q.
  - intros q' k. destruct q as [q|]; [|done]. cbn. intros [= <- <-] Hk.
    destruct (search_global_spec (appLockCacheGlobal w) (resource q)) as [(e & He & Hr & _)|[Hm _]]; [|done].
    unfold resource_at. rewrite He. cbn. congruence.
  - intros q'. destruct q as [q|]; [|done]. cbn. intros [= <-]. eauto.
Qed.

Lemma begin_get_init w s q :
  keys_inv w -> s ∈ sessions w -> (forall q', q = Some q' -> request_ok q') ->
  follows (appLockCacheGlobal w) (begin_get q (appLockCacheGlobal w) (initApplockCache s)).
Proof.
  intros Hinv Hs Hq. pose proof (begin_get_follows w s q Hinv Hs Hq) as (H1 & H2 & H3).
  pose proof (begin_get_plain q (appLockCacheGlobal w) s) as [Hc _].
  pose proof (begin_get_plain q (appLockCacheGlobal w) (initApplockCache s)) as [Hc' _].
  assert (Hp : pc (begin_get q (appLockCacheGlobal w) (initApplockCache s)) =
               pc (begin_get q (appLockCacheGlobal w) s)) by (by destruct q).
  unfold follows, named in *. rewrite Hp, Hc', cache_init, <- Hc. done.
Qed.

Lemma finish_init_follows w s x :
  keys_inv w -> s ∈ sessions w -> follows (appLockCacheGlobal w) (finish (initApplockCache s) x).
Proof.
  intros Hinv Hs. eapply follows_quiet; eauto; try done.
  apply named_same; [apply cache_init|done].
Qed.

Lemma calls_follow w s :
  keys_inv w -> s ∈ sessions w ->
  (forall r m o t d p x, follows (appLockCacheGlobal w)
     (sp_getapplock_function text_to_cstring_buffer r m o t d p x (appLockCacheGlobal w) s)) /\
  (forall d r m o p x, follows (appLockCacheGlobal w)
     (APPLOCK_TEST text_to_cstring_buffer d r m o p x (appLockCacheGlobal w) s)) /\
  (forall r o d p, follows (appLockCacheGlobal w)
     (sp_releaseapplock_function text_to_cstring_buffer r o d p s)).
Proof.
  intros Hinv Hs.
  assert (Hreq : forall r lm lo t p x b q, check_get (text_to_cstring_buffer r 256) lm lo t p x b = Some q ->
            request_ok q).
  { intros. eapply check_get_ok; [|done]. pose proof (buffer_size r 256 ltac:(lia)). lia. }
  split_and!; intros; unfold sp_getapplock_function, APPLOCK_TEST, sp_releaseapplock_function.
  - destruct r, m, o, d; cbn; try by apply finish_init_follows. apply begin_get_init; eauto.
  - destruct d, r, m, o; cbn; try by apply finish_init_follows.
    destruct (_ && _); [by apply finish_init_follows|].
    destruct (check_get _ _ _ _ _ _ _) as [q|] eqn:Hq; [|by apply finish_init_follows].
    apply (begin_get_init w s (Some q)); eauto. intros q' [= <-]. eauto.
  - destruct r, o, d; cbn; try by apply finish_init_follows.
    destruct p; [by apply finish_init_follows|].
    destruct (ApplockCheckLockowner _); [|by apply finish_init_follows].
    eapply follows_quiet; eauto; try done. apply named_same; [apply cache_init|done].
Qed.

(** A usable key is that of the requested resource. *)
Lemma usable_key_follows w s q key :
  keys_inv w -> s ∈ sessions w -> current (pc s) = Some q ->
  (0 <= key -> resource_at (appLockCacheGlobal w) key = Some (resource q)) ->
  follows (appLockCacheGlobal w) (usable_key q key s).
Proof.
  intros Hinv Hs Hcur Hkey. unfold usable_key. case_decide as Hneg.
  - eapply follows_quiet; eauto; try done. by apply named_same.
  - split_and!; [|done|intros q' [= <-]; by eapply (k_requests _ Hinv)].
    intros k r [Hn|Hn].
    + change (cache (goto ?s _)) with (cache s) in Hn. rewrite cache_timeout in Hn.
      eapply (k_named _ Hinv); [done|by left].
    + cbn in Hn. injection Hn as <- <-. apply Hkey. lia.
Qed.

Lemma lock_acquired_named q key saved s :
  pc s = Acquiring q key saved -> request_ok q ->
  forall k r, named (lock_acquired q key saved s) k r -> named s k r.
Proof.
  intros Hpc [Hcopy _] k r. unfold lock_acquired. cbv zeta. rewrite !cache_timeout, Hcopy.
  intros [Hn|Hn]; [|by destruct (test q)].
  assert (Hn' : resource_at (<[key := mk_ent (resource q) 0 [] false]> (cache s)) k = Some r).
  { revert Hn. unfold resource_at. destruct (decide (key = k)) as [<-|Hne].
    - destruct (test q); cbn; by rewrite !lookup_insert_eq.
    - destruct (test q); cbn; by rewrite !lookup_insert_ne. }
  unfold resource_at in Hn'. destruct (decide (key = k)) as [<-|Hne].
  - rewrite lookup_insert_eq in Hn'. cbn in Hn'. right. rewrite Hpc. cbn. congruence.
  - rewrite lookup_insert_ne in Hn' by done. by left.
Qed.

Lemma release_lock_named i r o t g (l : L) s :
  pc s = Releasing r o t ->
  (forall k x, named (release_lock i r o t g l s).2 k x -> named s k x) /\
  current (pc (release_lock i r o t g l s).2) = None.
Proof.
  intros Hpc. unfold release_lock. cbv zeta. generalize (AppLockSearchKeyGlobal g r). intros key.
  assert (Hfin : forall x, (forall k y, named (finish s x) k y -> named s k y) /\
            current (pc (finish s x)) = None) by (intros; split; [by apply named_same|done]).
  case_decide; [apply Hfin|]. destruct (cache s !! key) as [e|] eqn:He; [|apply Hfin].
  destruct (bool_decide _); [|apply Hfin]. destruct (mode_head e); [apply Hfin|].
  destruct (LockRelease _ _ _ _ _); [|apply Hfin]. split; [|done].
  intros k x [Hn|Hn]; [|done]. left. revert Hn. unfold resource_at. cbn.
  destruct (decide (key = k)) as [<-|Hne]; case_decide.
  - by rewrite lookup_delete_eq.
  - by rewrite lookup_insert_eq, He.
  - by rewrite lookup_delete_ne.
  - by rewrite lookup_insert_ne.
Qed.

Lemma remove_named a t s :
  pc s = Idle -> (forall k r, named (ApplockRemoveCache a t s) k r -> named s k r) /\
  current (pc (ApplockRemoveCache a t s)) = None.
Proof.
  intros Hpc. unfold ApplockRemoveCache. destruct (appLockCacheLocal s) as [tab|] eqn:Ht;
    [|by rewrite Hpc]. destruct t; [|by rewrite Hpc].
  split; [|done]. intros k r [Hn|Hn]; [left|done]. unfold cache. rewrite Ht. revert Hn.
  unfold resource_at. cbn. destruct (filter _ tab !! k) as [e|] eqn:He; [|done].
  apply map_lookup_filter_Some in He as [-> _]. done.
Qed.

Lemma keys_reference w i s q key w' :
  keys_inv w -> sessions w !! i = Some s -> pc s = Searched q key -> key <> -1 ->
  exec i Continue w = Some w' -> undisturbed w w' -> bounded w' -> counts_inv w' -> keys_inv w'.
Proof.
  intros Hinv Hi Hpc Hkey Hex Hq Hb Hc. unfold Applock.exec in Hex. rewrite Hi, Hpc in Hex.
  rewrite decide_False in Hex by done. unfold reference_found in Hex.
  assert (Hs : s ∈ sessions w) by (by eapply list_elem_of_lookup_2).
  pose proof (k_searched _ Hinv s q key Hs Hpc Hkey) as Hr. unfold resource_at in Hr.
  destruct (appLockCacheGlobal w !! key) as [e|] eqn:He; [|done]. injection Hex as <-.
  pose proof (k_live _ Hinv _ _ He) as Hpos. pose proof (inv_counted _ (k_counts _ Hinv) key) as Hcnt.
  rewrite He in Hcnt.
  eapply keys_ref; [done|done|done| |done|done|].
  - specialize (Hb key). cbn in Hb.
    assert (Hk : 0 <= key).
    { pose proof (Forall_lookup_1 _ _ _ _ (inv_sessions _ (k_counts _ Hinv)) Hi) as [_ Hp].
      rewrite Hpc in Hp. by destruct Hp. }
    pose proof (usable_key_total w i s q key Hi ltac:(by rewrite Hpc) Hk key) as Ht.
    rewrite decide_True in Ht by done. unfold total in *. rewrite u32_id; lia.
  - eapply usable_key_follows; [done|done|by rewrite Hpc|]. intros _. unfold resource_at. by rewrite He.
Qed.

Lemma keys_generate w i s q w' :
  keys_inv w -> sessions w !! i = Some s -> pc s = Generating q ->
  exec i Continue w = Some w' -> undisturbed w w' -> bounded w' -> counts_inv w' -> keys_inv w'.
Proof.
  intros Hinv Hi Hpc Hex Hq Hb Hc. unfold Applock.exec in Hex. rewrite Hi, Hpc in Hex.
  unfold generate_key in Hex. assert (Hs : s ∈ sessions w) by (by eapply list_elem_of_lookup_2).
  assert (Hcur : current (pc s) = Some q) by (by rewrite Hpc).
  pose proof (find_usable_spec (appLockCacheGlobal w) (resource q)
    (applock_simple_hash (resource q)) (-1) APPLOCK_MAX_TRY_SEARCH_KEY) as Hf.
  fold (candidates (resource q)) in Hf.
  destruct (find_usable _ _ _ _ _) as [[g' k]|u].
  - destruct Hf as (e & He & Hr & Hin & ->). injection Hex as <-.
    apply candidates_range in Hin as [Hk _].
    pose proof (inv_counted _ (k_counts _ Hinv) k) as Hcnt. rewrite He in Hcnt.
    eapply keys_ref; [done|done|done| |done|done|].
    + specialize (Hb k). cbn in Hb.
      pose proof (usable_key_total w i s q k Hi ltac:(by rewrite Hpc) Hk k) as Ht.
      rewrite decide_True in Ht by done. unfold total in *. rewrite u32_id; lia.
    + eapply usable_key_follows; [done..|]. intros _. unfold resource_at. rewrite He. cbn. congruence.
  - destruct Hf as [Hnone [->|(_ & Hin & Hfree)]].
    + injection Hex as <-. eapply keys_keep; [done..|]. by eapply usable_key_follows.
    + pose proof (candidates_range _ _ Hin) as [Hk _]. rewrite decide_False in Hex by lia.
      destruct (k_requests _ Hinv s q Hs Hcur) as [Hcopy _]. rewrite Hcopy in Hex. injection Hex as <-.
      set (e' := mk_ent _ _ _ _). set (g := <[u := e']> _).
      assert (Hg : forall k r, resource_at g k = Some r ->
                (u = k /\ r = resource q) \/ (u <> k /\ resource_at (appLockCacheGlobal w) k = Some r)).
      { intros k r. unfold resource_at, g. destruct (decide (u = k)) as [<-|Hne];
          [rewrite lookup_insert_eq; cbn; naive_solver|rewrite lookup_insert_ne by done; auto]. }
      assert (Hkeep : forall k r, resource_at (appLockCacheGlobal w) k = Some r -> resource_at g k = Some r).
      { intros k r. unfold resource_at, g. destruct (decide (u = k)) as [<-|Hne];
          [by rewrite Hfree|by rewrite lookup_insert_ne]. }
      assert (Hno : forall k, resource_at (appLockCacheGlobal w) k <> Some (resource q)).
      { intros k Hr. pose proof (k_candidate _ Hinv _ _ Hr) as Hcand. unfold resource_at in Hr.
        destruct (appLockCacheGlobal w !! k) as [e|] eqn:He; [|done]. injection Hr as Hr.
        by apply (Hnone k e). }
      eapply keys_put; [done|done|done|done| | | | | |].
      * destruct (usable_key_refs q u s Hk) as [Hcache _]. split_and!.
        -- intros k r [Hn|Hn].
           ++ apply Hkeep. eapply (k_named _ Hinv); [done|left]. by rewrite <- Hcache.
           ++ unfold usable_key in Hn. rewrite decide_False in Hn by lia. cbn in Hn. simplify_eq.
              unfold resource_at, g. by rewrite lookup_insert_eq.
        -- unfold usable_key. by rewrite decide_False by lia.
        -- unfold usable_key. rewrite decide_False by lia. intros q' [= <-]. by eapply (k_requests _ Hinv).
      * auto.
      * intros j x k r Hj Hjx Hn. apply Hkeep. eapply (k_named _ Hinv); [|done].
        by eapply list_elem_of_lookup_2.
      * intros k e. unfold g. destruct (decide (u = k)) as [<-|Hne];
          [rewrite lookup_insert_eq; by intros [= <-]|rewrite lookup_insert_ne by done; apply Hinv].
      * intros k r [[<- ->]|[_ Hr]]%Hg; [done|by apply (k_candidate _ Hinv)].
      * intros k1 k2 r [[<- ->]|[_ Hr1]]%Hg [[<- ?]|[_ Hr2]]%Hg; simplify_eq; try done;
          try (by destruct (Hno _ Hr1)); try (by destruct (Hno _ Hr2)). by eapply (k_unique _ Hinv).
Qed.

Lemma exec_keys i ev w w' :
  exec i ev w = Some w' -> keys_inv w -> undisturbed w w' -> bounded w -> bounded w' -> keys_inv w'.
Proof.
  intros Hex Hinv Hq Hb Hb'.
  pose proof (exec_counts _ _ _ _ stale_free i ev w w' Hex (k_counts _ Hinv) Hb Hb') as Hc.
  pose proof Hex as Hex0. unfold Applock.exec in Hex.
  destruct (sessions w !! i) as [s|] eqn:Hi; [|done].
  assert (Hs : s ∈ sessions w) by (by eapply list_elem_of_lookup_2).
  destruct (calls_follow w s Hinv Hs) as (Hget & Htest & Hrel).
  pose proof (Forall_lookup_1 _ _ _ _ (inv_sessions _ (k_counts _ Hinv)) Hi) as Hok.
  destruct (pc s) as [|q key|q|q key saved|q key saved ec el|r o t|key code|[|key keys] all] eqn:Hpc;
    destruct ev; try done.
  1-3: injection Hex as <-; by eapply keys_keep.
  - injection Hex as <-. destruct (remove_named release_session tsql s Hpc) as [Hn Hcur].
    eapply keys_keep; [done..|]. eapply follows_quiet; eauto; [|congruence]. intros q k Hp.
    by rewrite Hp in Hcur.
  - destruct (decide (key = -1)) as [->|Hne]; [|by eapply keys_reference].
    injection Hex as <-. eapply keys_keep; [done..|]. eapply follows_quiet; eauto; try done.
    + by apply named_same.
    + intros q' [= <-]. by eapply (k_requests _ Hinv s); [|rewrite Hpc].
  - by eapply keys_generate.
  - injection Hex as <-. assert (Hr : request_ok q) by (by eapply (k_requests _ Hinv s); [|rewrite Hpc]).
    eapply keys_keep; [done..|]. eapply follows_quiet; eauto.
    + by apply lock_acquired_named.
    + intros q' k. unfold lock_acquired. by destruct (test q).
    + intros q'. unfold lock_acquired. by destruct (test q).
  - injection Hex as <-. eapply keys_keep; [done..|]. eapply follows_quiet; eauto; try done.
    + intros k r [Hn|Hn]; [by left|right]. by rewrite Hpc.
    + intros q' [= <-]. by eapply (k_requests _ Hinv s); [|rewrite Hpc].
  - injection Hex as <-. pose proof (lock_failed_plain ERRCODE_LOCK_NOT_AVAILABLE
      ERRCODE_T_R_DEADLOCK_DETECTED q saved ec el s) as [Hcache _].
    eapply keys_unref; [done..| |done|by apply named_same].
    destruct Hok. split; [by rewrite Hcache|done].
  - destruct (release_lock_named i r o t (appLockCacheGlobal w) (locks w) s Hpc) as [Hn Hcur].
    destruct (release_lock _ _ _ _ _ _ _) as [l' s'] eqn:Hl. injection Hex as <-. cbn [snd] in Hn, Hcur.
    eapply keys_keep; [done..|]. eapply follows_quiet; [done..| |congruence].
    intros q k Hp. by rewrite Hp in Hcur.
  - injection Hex as <-. destruct Hok. eapply keys_unref; [done..|by split|done|by apply named_same].
  - injection Hex as <-. eapply keys_keep; [done..|]. eapply follows_quiet; eauto; try done.
    by apply named_same.
  - injection Hex as <-. destruct Hok. eapply keys_unref; [done..|by split|done|by apply named_same].
Qed.
End keys.
