(* ===== verification/ApplockLocks.v ===== *)
(** * ApplockLocks: what the lock manager holds for the sessions

    Locks of different sessions on one key never conflict, and what a session's own
    table lists is what the lock manager holds for it, as long as no resource is
    locked for two owners. *)
From Stdlib Require Import Ascii String.
From stdpp Require Import base numbers list strings gmap relations.
From S2P Require Import Prelude Applock ApplockProofs ApplockKeys.

#[local] Arguments AppLockSearchKeyGlobal : simpl never.

Lemma compatible_sym a b : compatible a b = compatible b a.
Proof. by destruct a, b. Qed.

Definition mode_count (m : Applock_All_Lockmode) (l : list Applock_All_Lockmode) : nat :=
  length (filter (fun x => x = m) l).

Lemma mode_count_cons m x l :
  mode_count m (x :: l) = ((if decide (x = m) then 1 else 0) + mode_count m l)%nat.
Proof. unfold mode_count. rewrite filter_cons. by case_decide. Qed.

Lemma mode_count_pos m l : m ∈ l -> (0 < mode_count m l)%nat.
Proof. induction 1; rewrite mode_count_cons; case_decide; lia || done. Qed.

Lemma mode_count_0 m l : m ∉ l -> mode_count m l = 0%nat.
Proof.
  induction l as [|x l IH]; intros Hn; [done|]. apply not_elem_of_cons in Hn as [Hx Hl].
  rewrite mode_count_cons, decide_False by congruence. auto.
Qed.

Section locks.
Context {L : Type} `{LockManagerLaws L}.
Variable text_to_cstring_buffer : string -> nat -> string.
Variables ERRCODE_LOCK_NOT_AVAILABLE ERRCODE_T_R_DEADLOCK_DETECTED : Z.
Variable stale : AppLockCacheEnt.

Abbreviation exec := (exec text_to_cstring_buffer ERRCODE_LOCK_NOT_AVAILABLE
  ERRCODE_T_R_DEADLOCK_DETECTED stale).

(** ** Conflicts *)

Definition exclusive (l : L) : Prop :=
  forall i j k a b o o', i <> j -> acquirable a -> acquirable b ->
    (0 < held l i k (getPGLockMode a) o)%nat -> (0 < held l j k (getPGLockMode b) o')%nat ->
    compatible a b = true.

Definition fewer (l l' : L) : Prop := forall i k m o, (held l' i k m o <= held l i k m o)%nat.

Lemma exclusive_fewer l l' : fewer l l' -> exclusive l -> exclusive l'.
Proof.
  intros Hf He i j k a b o o' Hij Ha Hb H1 H2. pose proof (Hf i k (getPGLockMode a) o).
  pose proof (Hf j k (getPGLockMode b) o'). apply (He i j k a b o o'); done || lia.
Qed.

Lemma exclusive_grant l i k m o :
  exclusive l -> acquirable m -> grantable l i k (getPGLockMode m) ->
  exclusive (grant l i k (getPGLockMode m) o).
Proof.
  intros He Hm Hg.
  assert (Hnew : forall j b o', i <> j -> acquirable b -> (0 < held l j k (getPGLockMode b) o')%nat ->
            compatible m b = true) by (intros; by eapply grantable_compatible).
  intros i' j' k' a b o1 o2 Hij Ha Hb. rewrite !held_grant.
  destruct (decide (_ = (i', _, _, _))) as [Hi|Hi]; destruct (decide (_ = (j', _, _, _))) as [Hj|Hj];
    [congruence| | |rewrite !Nat.add_0_r; by eapply He]; rewrite Nat.add_0_r; intros H1 H2.
  - injection Hi as <- <- Hma <-. rewrite (getPGLockMode_inj m a) by done. eauto.
  - injection Hj as <- <- Hmb <-. rewrite (getPGLockMode_inj m b), compatible_sym by done. eauto.
Qed.

Lemma release_fewer l i k m o l' : LockRelease l i k m o = Some l' -> fewer l l'.
Proof. intros Hr i' k' m' o'. rewrite (held_release _ _ _ _ _ _ i' k' m' o' Hr). lia. Qed.

Lemma release_all_fewer l i a : fewer l (LockReleaseAll l i a).
Proof. intros i' k m o. rewrite held_release_all. case_decide; lia. Qed.

Lemma release_lock_fewer i r o t g l s : fewer l (release_lock i r o t g l s).1.
Proof.
  unfold release_lock. cbv zeta. generalize (AppLockSearchKeyGlobal g r). intros key.
  assert (Hrefl : fewer l l) by (intros ? ? ? ?; lia).
  case_decide; [done|]. destruct (cache s !! key) as [e|]; [|done].
  destruct (bool_decide _); [|done]. destruct (mode_head e); [done|].
  destruct (LockRelease _ _ _ _ _) eqn:Hr; [|done]. by eapply release_fewer.
Qed.

(** How a step changes the locks. *)
Lemma exec_locks i ev w w' :
  exec i ev w = Some w' ->
  (exists s q key saved, sessions w !! i = Some s /\ pc s = Acquiring q key saved /\ ev = Lock_granted /\
     locks w' = grant (locks w) i key (getPGLockMode (mode q)) (owner q)) \/
  fewer (locks w) (locks w').
Proof.
  intros Hex. unfold Applock.exec in Hex. destruct (sessions w !! i) as [s|] eqn:Hi; [|done].
  assert (Hrefl : fewer (locks w) (locks w)) by (intros ? ? ? ?; lia).
  destruct (pc s) as [|q key|q|q key saved|q key saved ec el|r o t|key code|[|key keys] all] eqn:Hpc;
    destruct ev; try done; try (injection Hex as <-; right; exact Hrefl).
  - right. destruct (decide (key = -1)); [by injection Hex as <-|].
    destruct (reference_found _ _ _). by injection Hex as <-.
  - right. destruct (generate_key _ _ _). by injection Hex as <-.
  - left. injection Hex as <-. by exists s, q, key, saved.
  - right. pose proof (release_lock_fewer i r o t (appLockCacheGlobal w) (locks w) s) as Hf.
    destruct (release_lock _ _ _ _ _ _ _). by injection Hex as <-.
  - right. injection Hex as <-. apply release_all_fewer.
Qed.

Lemma exec_exclusive i ev w w' :
  exec i ev w = Some w' -> (ev = Lock_granted -> may_grant i w) ->
  (forall s q, s ∈ sessions w -> current (pc s) = Some q -> request_ok q) ->
  exclusive (locks w) -> exclusive (locks w').
Proof.
  intros Hex Hg Hr He. destruct (exec_locks _ _ _ _ Hex) as [(s & q & key & saved & Hi & Hpc & Hev & ->)|Hf];
    [|by eapply exclusive_fewer].
  apply exclusive_grant; [done| |].
  - eapply (Hr s q); [by eapply list_elem_of_lookup_2|by rewrite Hpc].
  - specialize (Hg Hev). unfold may_grant in Hg. rewrite Hi in Hg. destruct s. cbn in Hpc.
    by rewrite Hpc in Hg.
Qed.

(** ** What sessions hold *)

(** Every mode in a session's table is held for the owner in the table; a session
    that gives its locks back has removed their entries already. *)
Record holds (l : L) (i : nat) (s : session) : Prop := {
  h_count : forall k e m, cache s !! k = Some e ->
    (mode_count m (mode_head e) <= held l i k (getPGLockMode m) (is_session e))%nat;
  h_modes : forall k e m, cache s !! k = Some e -> m ∈ mode_head e -> acquirable m;
  h_removing : forall keys all k e, pc s = Removing keys all -> cache s !! k = Some e ->
    removed all e = false
}.

(** No session acquires a resource for another owner than it holds it for. *)
Definition one_owner (w : world (L := L)) : Prop :=
  forall s q key saved e, s ∈ sessions w -> pc s = Acquiring q key saved ->
    cache s !! key = Some e -> is_session e = owner q.

(** Steps of the other sessions. *)
Lemma exec_others i ev w w' j k m o :
  exec i ev w = Some w' -> j <> i -> held (locks w') j k m o = held (locks w) j k m o.
Proof.
  intros Hex Hij. unfold Applock.exec in Hex. destruct (sessions w !! i) as [s|] eqn:Hi; [|done].
  destruct (pc s) as [|q key|q|q key saved|q key saved ec el|r ow t|key code|[|key keys] all] eqn:Hpc;
    destruct ev; try done; try (by injection Hex as <-).
  - destruct (decide (key = -1)); [by injection Hex as <-|].
    destruct (reference_found _ _ _). by injection Hex as <-.
  - destruct (generate_key _ _ _). by injection Hex as <-.
  - injection Hex as <-. cbn. rewrite held_grant, decide_False by congruence. lia.
  - destruct (release_lock _ _ _ _ _ _ _) as [l' s'] eqn:Hr. injection Hex as <-. cbn.
    revert Hr. unfold release_lock. cbv zeta. generalize (AppLockSearchKeyGlobal (appLockCacheGlobal w) r).
    intros key. case_decide; [congruence|]. destruct (cache s !! key) as [e|]; [|congruence].
    destruct (bool_decide _); [|congruence]. destruct (mode_head e); [congruence|].
    destruct (LockRelease _ _ _ _ _) as [l''|] eqn:Hl; [|congruence]. intros [= -> _].
    rewrite (held_release _ _ _ _ _ _ j k m o Hl), decide_False by congruence. lia.
  - injection Hex as <-. cbn. rewrite held_release_all, decide_False by naive_solver. done.
Qed.

Lemma holds_same l i s s' :
  holds l i s -> cache s' = cache s -> (forall keys all, pc s' <> Removing keys all) -> holds l i s'.
Proof. intros [Hcn Hmo Hrm] Hc Hp. split; rewrite ?Hc; auto. intros ? ? ? ? Hr. by destruct (Hp _ _ Hr). Qed.

Lemma holds_remove l i a t s : pc s = Idle -> holds l i s -> holds l i (ApplockRemoveCache a t s).
Proof.
  intros Hpc Hh. unfold ApplockRemoveCache. destruct (appLockCacheLocal s) as [tab|] eqn:Ht; [|done].
  destruct t; [|done]. destruct Hh as [Hcn Hmo _].
  assert (Hc : cache s = tab) by (unfold cache; by rewrite Ht). rewrite Hc in Hcn, Hmo.
  split; cbn.
  - intros k e m [He _]%map_lookup_filter_Some. by apply Hcn.
  - intros k e m [He _]%map_lookup_filter_Some. by apply Hmo with (k := k).
  - intros keys all k e [= <- <-] [_ He]%map_lookup_filter_Some. done.
Qed.

Lemma holds_release_all l i all s :
  pc s = Removing [] all -> holds l i s -> holds (LockReleaseAll l i all) i (goto s Idle).
Proof.
  intros Hpc [Hcn Hmo Hrm]. split; cbn; [|done|done]. intros k e m He.
  pose proof (Hrm _ _ _ _ Hpc He) as Hr. unfold removed in Hr. rewrite held_release_all, decide_False.
  - by apply Hcn.
  - destruct all, (is_session e); naive_solver.
Qed.

Lemma holds_grant l i q key saved s :
  pc s = Acquiring q key saved -> holds l i s -> request_ok q ->
  (forall e, cache s !! key = Some e -> is_session e = owner q) ->
  holds (grant l i key (getPGLockMode (mode q)) (owner q)) i (lock_acquired q key saved s).
Proof.
  intros Hpc [Hcn Hmo Hrm] [_ Hm] Hown. unfold lock_acquired. cbv zeta. rewrite !cache_timeout.
  set (e0 := default _ _). set (t' := <[key := _]> (cache s)).
  assert (Hcache : cache (lock_acquired q key saved s) = t')
    by (unfold lock_acquired; cbv zeta; rewrite !cache_timeout; by destruct (test q)).
  unfold lock_acquired in Hcache. cbv zeta in Hcache. rewrite !cache_timeout in Hcache.
  fold e0 t' in Hcache.
  assert (Hcnt : forall m, (mode_count m (mode_head e0) <= held l i key (getPGLockMode m) (owner q))%nat).
  { intros m. unfold e0. destruct (cache s !! key) as [e|] eqn:He; cbn; [|unfold mode_count; cbn; lia].
    rewrite <- (Hown e) by done. by apply Hcn. }
  split; rewrite ?Hcache; unfold t'.
  - intros k e m. destruct (decide (key = k)) as [<-|Hne].
    + rewrite lookup_insert_eq. intros [= <-]. cbn [mode_head is_session]. rewrite mode_count_cons, held_grant.
      specialize (Hcnt m). destruct (decide (mode q = m)) as [->|Hmm]; [rewrite decide_True by done|]; lia.
    + rewrite lookup_insert_ne by done. intros He. rewrite held_grant. specialize (Hcn k e m He). lia.
  - intros k e m. destruct (decide (key = k)) as [<-|Hne]; [|rewrite lookup_insert_ne by done; apply Hmo].
    rewrite lookup_insert_eq. intros [= <-]. cbn [mode_head]. intros [->|Hin]%elem_of_cons; [done|].
    unfold e0 in Hin. destruct (cache s !! key) as [e|] eqn:He; [by eapply Hmo|by apply not_elem_of_nil in Hin].
  - intros keys all k e Hp. by destruct (test q).
Qed.

Lemma holds_release_lock l i r o t g s :
  pc s = Releasing r o t -> holds l i s -> table_ok (cache s) -> (forall k, Z.of_nat (refs s k) < 2 ^ 32) ->
  holds (release_lock i r o t g l s).1 i (release_lock i r o t g l s).2.
Proof.
  intros Hpc Hh Hok Hb. unfold release_lock. cbv zeta. generalize (AppLockSearchKeyGlobal g r). intros key.
  assert (Hfin : forall x, holds l i (finish s x)) by (intros; by eapply holds_same).
  case_decide; [apply Hfin|]. destruct (cache s !! key) as [e|] eqn:He; [|apply Hfin].
  destruct (bool_decide _) eqn:Ho; [|apply Hfin]. apply bool_decide_eq_true in Ho.
  destruct (mode_head e) as [|m0 ms] eqn:Hm; [apply Hfin|].
  destruct (LockRelease _ _ _ _ _) as [l'|] eqn:Hr; [|apply Hfin]. cbn [fst snd].
  destruct Hh as [Hcn Hmo Hrm].
  set (e' := mk_ent _ _ _ _). set (n := u32 _).
  assert (Hlook : forall k x, (if decide (n = 0) then delete key (cache s) else <[key := e']> (cache s)) !! k =
            Some x -> (k = key /\ x = e') \/ (k <> key /\ cache s !! k = Some x)).
  { intros k x. case_decide.
    - intros [Hne Hx]%lookup_delete_Some. by right.
    - intros [[-> <-]|[Hne Hx]]%lookup_insert_Some; [by left|by right]. }
  split; cbn.
  - intros k x m [[-> ->]|[Hne Hx]]%Hlook.
    + specialize (Hcn key e m He). rewrite Hm, mode_count_cons in Hcn. cbn [mode_head is_session e'].
      rewrite (held_release _ _ _ _ _ _ i key (getPGLockMode m) (is_session e) Hr) in Hcn.
      destruct (decide (m0 = m)) as [->|Hmm]; [rewrite decide_True in Hcn by congruence; lia|].
      destruct (decide (_ = (i, key, getPGLockMode m, is_session e))) as [Heq|]; [|lia].
      injection Heq as Hpg. destruct (decide (m ∈ ms)) as [Hin|Hin].
      * destruct Hmm. eapply getPGLockMode_inj; [|done]. eapply (Hmo key e); [done|]. rewrite Hm. by right.
      * rewrite (mode_count_0 m ms) by done. lia.
    + specialize (Hcn k x m Hx). rewrite (held_release _ _ _ _ _ _ i k (getPGLockMode m) (is_session x) Hr) in Hcn.
      rewrite decide_False in Hcn by congruence. lia.
  - intros k x m [[-> ->]|[Hne Hx]]%Hlook; [|by apply Hmo with (k := k)].
    cbn. intros Hin. eapply (Hmo key e); [done|]. rewrite Hm. by right.
  - done.
Qed.

Definition all_hold (w : world (L := L)) : Prop :=
  forall i s, sessions w !! i = Some s -> holds (locks w) i s.

Lemma calls_holds l i s g : pc s = Idle -> holds l i s ->
  (forall r m o t d p x, holds l i (sp_getapplock_function text_to_cstring_buffer r m o t d p x g s)) /\
  (forall d r m o p x, holds l i (APPLOCK_TEST text_to_cstring_buffer d r m o p x g s)) /\
  (forall r o d p, holds l i (sp_releaseapplock_function text_to_cstring_buffer r o d p s)).
Proof.
  intros Hpc Hh.
  assert (Hinit : pc (initApplockCache s) = Idle) by (unfold initApplockCache; by case_match).
  split_and!; intros; (eapply holds_same; [done|apply get_plain || apply test_plain || apply release_plain|]);
    intros keys all; unfold sp_getapplock_function, APPLOCK_TEST, sp_releaseapplock_function, begin_get;
    repeat case_match; done || congruence.
Qed.

(** The session that moves. *)
Lemma exec_holds i ev w w' s :
  exec i ev w = Some w' -> sessions w !! i = Some s -> holds (locks w) i s -> session_ok s ->
  (forall k, Z.of_nat (refs s k) < 2 ^ 32) ->
  (forall q, current (pc s) = Some q -> request_ok q) ->
  (forall q key saved e, pc s = Acquiring q key saved -> cache s !! key = Some e -> is_session e = owner q) ->
  exists s', sessions w' = <[i := s']> (sessions w) /\ holds (locks w') i s'.
Proof.
  intros Hex Hi Hh [Ht _] Hb Hreq Hown. unfold Applock.exec in Hex. rewrite Hi in Hex.
  destruct (pc s) as [|q key|q|q key saved|q key saved ec el|r ow t|key code|[|key keys] all] eqn:Hpc;
    destruct ev; try done.
  1-3: destruct (calls_holds (locks w) i s (appLockCacheGlobal w) Hpc Hh) as (Hg & Hte & Hr);
    injection Hex as <-; eexists; (split; [done|apply Hg || apply Hte || apply Hr]).
  - injection Hex as <-. eexists. split; [done|by apply holds_remove].
  - destruct (decide (key = -1)); [injection Hex as <-; eexists; split; [done|by eapply holds_same]|].
    destruct (reference_found _ _ _) as [g' found]. injection Hex as <-. eexists. split; [done|].
    destruct found; [|by eapply holds_same].
    eapply holds_same; [done| |]; unfold usable_key; case_decide; try done. apply cache_timeout.
  - destruct (generate_key _ _ _) as [g' key]. injection Hex as <-. eexists. split; [done|].
    eapply holds_same; [done| |]; unfold usable_key; case_decide; try done. apply cache_timeout.
  - injection Hex as <-. eexists. split; [done|]. apply holds_grant; eauto.
  - injection Hex as <-. eexists. split; [done|]. by eapply holds_same.
  - injection Hex as <-. eexists. split; [done|].
    eapply holds_same; [done|apply lock_failed_plain|done].
  - pose proof (holds_release_lock (locks w) i r ow t (appLockCacheGlobal w) s Hpc Hh Ht Hb) as Hr.
    destruct (release_lock _ _ _ _ _ _ _) as [l' s']. injection Hex as <-. by exists s'.
  - injection Hex as <-. eexists. split; [done|]. by eapply holds_same.
  - injection Hex as <-. eexists. split; [done|]. by apply holds_release_all.
  - injection Hex as <-. eexists. split; [done|]. destruct Hh as [Hcn Hmo Hrm].
    split; [done..|]. intros ? ? k e [= <- <-]. by eapply Hrm.
Qed.

Lemma exec_all_hold i ev w w' :
  exec i ev w = Some w' -> counts_inv w -> bounded w ->
  (forall s q, s ∈ sessions w -> current (pc s) = Some q -> request_ok q) -> one_owner w ->
  all_hold w -> all_hold w'.
Proof.
  intros Hex Hc Hb Hreq Hown Hall.
  assert (exists s, sessions w !! i = Some s) as [s Hi].
  { unfold Applock.exec in Hex. destruct (sessions w !! i); [by eexists|done]. }
  assert (Hs : s ∈ sessions w) by (by eapply list_elem_of_lookup_2).
  destruct (exec_holds i ev w w' s Hex Hi (Hall _ _ Hi)) as (s' & Hss & Hh); eauto.
  - by apply (Forall_lookup_1 _ _ _ _ (inv_sessions _ Hc) Hi).
  - intros k. pose proof (refs_le_total _ _ _ k Hi). specialize (Hb k). lia.
  - intros j x. rewrite Hss. destruct (decide (i = j)) as [<-|Hne].
    + rewrite list_lookup_insert_eq by (by eapply lookup_lt_Some). by intros [= <-].
    + rewrite list_lookup_insert_ne by done. intros Hj. destruct (Hall _ _ Hj) as [Hcn Hmo Hrm].
      split; [|done..]. intros k e m He. rewrite (exec_others i ev w w') by done. by apply Hcn.
Qed.

(** ** APPLOCK_TEST releases what it acquired *)

Definition harmless (r : option outcome) : Prop := r <> Some Panic /\ r <> Some Crash.

Record no_panic (s : session) : Prop := {
  p_releasing : forall r o, pc s = Releasing r o true ->
    exists key e, cache s !! key = Some e /\ ent_resource e = r /\ is_session e = o;
  p_returned : harmless (returned s)
}.

Lemma get_result_harmless q code : harmless (Some (get_result q code)).
Proof. unfold get_result. by destruct (test q). Qed.

(** The key of a resource a session holds is found again. *)
Lemma search_held (w : world (L := L)) s key e :
  keys_inv w -> s ∈ sessions w -> cache s !! key = Some e ->
  AppLockSearchKeyGlobal (appLockCacheGlobal w) (ent_resource e) = key /\ key <> -1.
Proof.
  intros Hk Hs He.
  assert (Hr : resource_at (appLockCacheGlobal w) key = Some (ent_resource e)).
  { eapply (k_named _ Hk); [done|]. left. unfold resource_at. by rewrite He. }
  pose proof (k_candidate _ Hk _ _ Hr) as Hin. destruct (candidates_range _ _ Hin). split; [|lia].
  destruct (search_global_spec (appLockCacheGlobal w) (ent_resource e)) as [(e' & He' & Hre & _)|[_ Hnone]].
  - eapply (k_unique _ Hk); [|exact Hr]. unfold resource_at. rewrite He'. cbn. by rewrite Hre.
  - unfold resource_at in Hr. destruct (appLockCacheGlobal w !! key) as [e'|] eqn:He'; [|done].
    destruct (Hnone _ _ Hin He'). by injection Hr.
Qed.

Lemma release_lock_no_panic w i s r o t :
  keys_inv w -> sessions w !! i = Some s -> holds (locks w) i s -> table_ok (cache s) ->
  pc s = Releasing r o t -> no_panic s ->
  no_panic (release_lock i r o t (appLockCacheGlobal w) (locks w) s).2.
Proof.
  intros Hk Hi [Hcn _ _] Hok Hpc [Hrel Hret].
  assert (Hs : s ∈ sessions w) by (by eapply list_elem_of_lookup_2).
  assert (Hfin : forall x, harmless (Some x) -> no_panic (finish s x)) by (intros x Hx; by split).
  unfold release_lock. cbv zeta.
  assert (Hfail : t = false -> no_panic (finish s (release_result t (-999))))
    by (intros ->; by apply Hfin).
  assert (Htest : t = true -> exists e, cache s !! AppLockSearchKeyGlobal (appLockCacheGlobal w) r = Some e /\
            is_session e = o /\ AppLockSearchKeyGlobal (appLockCacheGlobal w) r <> -1).
  { intros ->. destruct (Hrel _ _ Hpc) as (key & e & He & <- & Ho).
    destruct (search_held w s key e Hk Hs He) as [Hkey Hne]. exists e. by rewrite Hkey. }
  revert Htest. generalize (AppLockSearchKeyGlobal (appLockCacheGlobal w) r). intros key Htest.
  case_decide; [by apply Hfin|]. destruct (cache s !! key) as [e|] eqn:He.
  2: { destruct t; [destruct Htest as (e & He' & _); done|by apply Hfail]. }
  destruct (bool_decide _) eqn:Ho.
  2: { apply bool_decide_eq_false in Ho. destruct t; [|by apply Hfail].
       destruct Htest as (e' & He' & <- & _); [done|]. congruence. }
  apply bool_decide_eq_true in Ho. destruct (Hok _ _ He) as [_ Hne].
  destruct (mode_head e) as [|m ms] eqn:Hm; [done|].
  destruct (release_held (locks w) i key (getPGLockMode m) o) as [l' ->]; [|by split].
  specialize (Hcn key e m He). rewrite Hm, mode_count_cons, decide_True, <- Ho in Hcn by done. lia.
Qed.

Lemma exec_no_panic i ev w w' s :
  exec i ev w = Some w' -> sessions w !! i = Some s -> keys_inv w -> holds (locks w) i s -> no_panic s ->
  exists s', sessions w' = <[i := s']> (sessions w) /\ no_panic s'.
Proof.
  intros Hex Hi Hk Hh Hp.
  assert (Hs : s ∈ sessions w) by (by eapply list_elem_of_lookup_2).
  pose proof (Forall_lookup_1 _ _ _ _ (inv_sessions _ (k_counts _ Hk)) Hi) as [Hok _].
  pose proof (p_returned _ Hp) as Hret.
  assert (Hinit : returned (initApplockCache s) = returned s) by (unfold initApplockCache; by case_match).
  unfold Applock.exec in Hex. rewrite Hi in Hex.
  destruct (pc s) as [|q key|q|q key saved|q key saved ec el|r ow t|key code|[|key keys] all] eqn:Hpc;
    destruct ev; try done.
  - injection Hex as <-. eexists. split; [done|]. unfold sp_getapplock_function, begin_get.
    repeat case_match; split; try done; cbn; by rewrite Hinit.
  - injection Hex as <-. eexists. split; [done|]. unfold sp_releaseapplock_function.
    repeat case_match; split; try done; cbn; by rewrite Hinit.
  - injection Hex as <-. eexists. split; [done|]. unfold APPLOCK_TEST, begin_get.
    repeat case_match; split; try done; cbn; by rewrite Hinit.
  - injection Hex as <-. eexists. split; [done|]. unfold ApplockRemoveCache. repeat case_match; done.
  - assert (Hu : forall b, no_panic (if b : bool then usable_key q key s else goto s (Generating q))).
    { intros [|]; [|done]. unfold usable_key, ApplockSetLockTimeout. repeat case_decide; split; try done;
        apply get_result_harmless. }
    destruct (decide (key = -1)); [injection Hex as <-; by eexists|].
    destruct (reference_found _ _ _) as [g' found]. injection Hex as <-. by eexists.
  - destruct (generate_key _ _ _) as [g' key]. injection Hex as <-. eexists. split; [done|].
    unfold usable_key, ApplockSetLockTimeout. repeat case_decide; split; try done; apply get_result_harmless.
  - injection Hex as <-. eexists. split; [done|]. destruct (k_requests _ Hk s q Hs) as [Hcopy _]; [by rewrite Hpc|].
    unfold lock_acquired. cbv zeta. rewrite !cache_timeout, Hcopy. destruct (test q).
    + split; [|by unfold ApplockSetLockTimeout; case_decide]. intros r o [= <- <-].
      eexists key, _. split; [apply lookup_insert_eq|done].
    + by split.
  - injection Hex as <-. by eexists.
  - injection Hex as <-. eexists. split; [done|]. split; [done|]. apply get_result_harmless.
  - pose proof (release_lock_no_panic w i s r ow t Hk Hi Hh Hok Hpc Hp) as Hr.
    destruct (release_lock _ _ _ _ _ _ _) as [l' s']. injection Hex as <-. by exists s'.
  - injection Hex as <-. by eexists.
  - injection Hex as <-. by eexists.
  - injection Hex as <-. by eexists.
Qed.
End locks.
