(* ===== verification/ApplockTheorems.v ===== *)
(** * ApplockTheorems: correctness of application locks

    Reference counts are exact in every interleaving; the end of an idle session
    gives everything back; and two sessions never hold conflicting modes of
    one resource, provided that no entry disappears between the search for a key and
    the reference to it and that no session mixes owners.  Concrete interleavings show
    what happens otherwise. *)
From Stdlib Require Import Ascii String.
From stdpp Require Import base numbers list strings gmap relations.
From S2P Require Import Prelude Applock ApplockProofs ApplockKeys ApplockLocks.

#[local] Arguments AppLockSearchKeyGlobal : simpl never.

Section theorems.
Context {L : Type} `{LockManagerLaws L}.
Variable text_to_cstring_buffer : string -> nat -> string.
Variables ERRCODE_LOCK_NOT_AVAILABLE ERRCODE_T_R_DEADLOCK_DETECTED : Z.
Variable stale : AppLockCacheEnt.

Abbreviation exec := (exec text_to_cstring_buffer ERRCODE_LOCK_NOT_AVAILABLE
  ERRCODE_T_R_DEADLOCK_DETECTED stale).
Abbreviation step := (step text_to_cstring_buffer ERRCODE_LOCK_NOT_AVAILABLE
  ERRCODE_T_R_DEADLOCK_DETECTED stale).
Abbreviation run := (run text_to_cstring_buffer ERRCODE_LOCK_NOT_AVAILABLE
  ERRCODE_T_R_DEADLOCK_DETECTED stale).

(** ** Reachable states *)

(** No session has called anything, no lock is held. *)
Definition fresh (s : session) : Prop := appLockCacheLocal s = None /\ pc s = Idle.

Definition started (w : world (L := L)) : Prop :=
  appLockCacheGlobal w = ∅ /\ Forall fresh (sessions w) /\ forall i k m o, held (locks w) i k m o = 0%nat.

(** Steps that leave fewer than 2^32 references to each key. *)
Definition bounded_step (w w' : world (L := L)) : Prop := step w w' /\ bounded w'.

(** Steps that, in addition, neither delete an entry somebody has just found nor mix
    the owners of a resource. *)
Definition orderly_step (w w' : world (L := L)) : Prop :=
  bounded_step w w' /\ undisturbed w w' /\ one_owner w.

Lemma fresh_cache s : fresh s -> cache s = ∅.
Proof. intros [Hc _]. unfold cache. by rewrite Hc. Qed.

Lemma fresh_refs s k : fresh s -> refs s k = 0%nat.
Proof. intros Hs. unfold refs, cached. rewrite fresh_cache, lookup_empty by done. destruct Hs as [_ ->]. done. Qed.

Lemma started_total w k : started w -> total (sessions w) k = 0%nat.
Proof.
  intros (_ & Hf & _). unfold total. induction Hf as [|s ss Hs _ IH]; [done|]. cbn.
  by rewrite fresh_refs, IH.
Qed.

Lemma fresh_named s k r : fresh s -> ~ named s k r.
Proof.
  intros Hs [Hn|Hn].
  - unfold resource_at in Hn. by rewrite fresh_cache, lookup_empty in Hn.
  - destruct Hs as [_ Hp]. by rewrite Hp in Hn.
Qed.

Lemma started_counts w : started w -> counts_inv w.
Proof.
  intros Hw. pose proof Hw as (Hg & Hf & _). split.
  - eapply Forall_impl; [exact Hf|]. intros s Hs. split; [|by destruct Hs as [_ ->]].
    intros k e. by rewrite fresh_cache, lookup_empty.
  - intros k. rewrite Hg, lookup_empty. by apply started_total.
Qed.

Lemma started_bounded w : started w -> bounded w.
Proof. intros Hw k. by rewrite started_total. Qed.

Lemma started_keys w : started w -> keys_inv w.
Proof.
  intros Hw. pose proof Hw as (Hg & Hf & _). rewrite Forall_forall in Hf.
  assert (Hnone : forall k r, resource_at (appLockCacheGlobal w) k <> Some r)
    by (intros; unfold resource_at; by rewrite Hg, lookup_empty).
  split; try (intros; by destruct (Hnone k r)).
  - by apply started_counts.
  - intros s k r Hs Hn. by destruct (fresh_named s k r (Hf s Hs)).
  - intros s q k Hs Hp. destruct (Hf s Hs) as [_ Hp']. congruence.
  - intros k e. by rewrite Hg, lookup_empty.
  - intros s q Hs Hp. destruct (Hf s Hs) as [_ Hp']. by rewrite Hp' in Hp.
Qed.

Lemma started_hold w : started w -> all_hold w /\ exclusive (locks w).
Proof.
  intros (_ & Hf & Hh). split.
  - intros i s Hi. pose proof (Forall_lookup_1 _ _ _ _ Hf Hi) as Hs.
    split; [| |destruct Hs as [_ ->]; done]; intros k e m; by rewrite fresh_cache, lookup_empty.
  - intros i j k a b o o' _ _ _. rewrite Hh. lia.
Qed.

(** The invariants of reachable states. *)
Hypothesis stale_free : refcount stale = 0.

Lemma reachable_counts w0 w : started w0 -> rtc bounded_step w0 w -> counts_inv w /\ bounded w.
Proof.
  intros H0'. assert (Hinit : counts_inv w0 /\ bounded w0) by eauto using started_counts, started_bounded.
  clear H0'. induction 1 as [|w0 w1 w2 [[i ev Hex _] Hb] _ IH]; [done|].
  apply IH. split; [|done]. destruct Hinit. by eapply exec_counts.
Qed.

Hypothesis buffer_size : forall s n, (0 < n)%nat -> (String.length (text_to_cstring_buffer s n) < n)%nat.

Lemma reachable_orderly w0 w :
  started w0 -> rtc orderly_step w0 w -> keys_inv w /\ all_hold w /\ exclusive (locks w).
Proof.
  intros Hst. assert (Hinit : (keys_inv w0 /\ bounded w0) /\ all_hold w0 /\ exclusive (locks w0))
    by (split_and!; (by apply started_keys) || (by apply started_bounded) || by apply started_hold).
  clear Hst. induction 1 as [|w0 w1 w2 [[[i ev Hex Hg] Hb'] [Hu Ho]] _ IH]; [naive_solver|].
  apply IH. destruct Hinit as ((Hk & Hb) & Ha & He). split_and!; [|done| |].
  - by eapply exec_keys.
  - eapply exec_all_hold; [done|apply Hk|done|apply Hk|done|done].
  - eapply exec_exclusive; [done|done|apply Hk|done].
Qed.

Lemma exec_all_no_panic i ev w w' :
  exec i ev w = Some w' -> keys_inv w -> all_hold w -> Forall no_panic (sessions w) ->
  Forall no_panic (sessions w').
Proof.
  intros Hex Hk Hall Hp.
  assert (exists s, sessions w !! i = Some s) as [s Hi].
  { unfold Applock.exec in Hex. destruct (sessions w !! i); [by eexists|done]. }
  destruct (exec_no_panic _ _ _ _ i ev w w' s Hex Hi Hk (Hall _ _ Hi)) as (s' & -> & Hs');
    [by eapply Forall_lookup_1|by apply Forall_insert].
Qed.

Lemma reachable_no_panic w0 w :
  started w0 -> Forall (fun s => returned s = None) (sessions w0) -> rtc orderly_step w0 w ->
  Forall no_panic (sessions w).
Proof.
  intros Hst Hret Hr.
  assert (Hinit : Forall no_panic (sessions w0)).
  { destruct Hst as (_ & Hf & _). rewrite Forall_forall in Hf, Hret |- *. intros s Hs.
    destruct (Hf s Hs) as [_ Hpc]. split; [by rewrite Hpc|by rewrite (Hret s Hs)]. }
  refine (rtc_ind_r (fun w => Forall no_panic (sessions w)) w0 Hinit _ w Hr).
  intros w1 w2 Hr1 [[[i ev Hex _] _] _] IH.
  destruct (reachable_orderly _ _ Hst Hr1) as (Hk & Hall & _). by eapply exec_all_no_panic.
Qed.

(** *** The end of a session *)

Lemma removing_run i keys all w s :
  counts_inv w -> bounded w -> sessions w !! i = Some s -> pc s = Removing keys all ->
  exists w', run (repeat (i, Continue) (S (length keys))) w = Some w' /\ counts_inv w' /\
    sessions w' = <[i := goto s Idle]> (sessions w) /\ locks w' = LockReleaseAll (locks w) i all.
Proof.
  revert w s. induction keys as [|key keys IH]; intros w s Hc Hb Hi Hpc.
  - eexists. split; [cbn; unfold Applock.exec; rewrite Hi, Hpc; done|]. split; [|done].
    eapply counts_keep; [done|done| |].
    + pose proof (Forall_lookup_1 _ _ _ _ (inv_sessions _ Hc) Hi) as [Ht _]. by split.
    + intros k. unfold refs. by rewrite Hpc.
  - set (w1 := put w i (ApplockUnrefGlobalCache key (appLockCacheGlobal w)) (locks w)
                 (goto s (Removing keys all))).
    assert (Hex : exec i Continue w = Some w1) by (unfold Applock.exec; by rewrite Hi, Hpc).
    assert (Hlt : (i < length (sessions w))%nat) by (by eapply lookup_lt_Some).
    assert (Hb1 : bounded w1).
    { intros k. specialize (Hb k). cbn [w1 put sessions].
      pose proof (total_insert (sessions w) i s (goto s (Removing keys all)) k Hi) as Ht.
      assert (Hle : (refs (goto s (Removing keys all)) k <= refs s k)%nat)
        by (unfold refs; rewrite Hpc; change (cache (goto s _)) with (cache s); cbn [pending pc goto occurrences]; lia).
      lia. }
    destruct (IH w1 (goto s (Removing keys all))) as (w' & Hr & Hc' & Hs & Hl);
      [by eapply exec_counts|done|by apply list_lookup_insert_eq|done|].
    exists w'. split_and!; [|done| |done].
    + change (S (length (key :: keys))) with (S (S (length keys))). cbn [repeat Applock.run].
      rewrite Hex. exact Hr.
    + rewrite Hs. cbn. apply list_insert_insert_eq.
Qed.

(** ** Theorems *)

(** C29: In every interleaving of the sessions' critical sections (with fewer than 2^32
    references to a key, and removed elements of the table left with a count of zero) the count of an entry of the shared table is exactly the
    number of references the sessions have to it, and a key without references has no
    entry or an unused one. *)
Theorem applock_refcounts_exact w0 w :
  started w0 -> rtc bounded_step w0 w ->
  forall k, match appLockCacheGlobal w !! k with
            | Some e => refcount e = Z.of_nat (total (sessions w) k)
            | None => total (sessions w) k = 0%nat
            end.
Proof. intros Hst Hr k. destruct (reachable_counts _ _ Hst Hr) as [[_ Hc] _]. apply Hc. Qed.

(** C15: Mutual exclusion: in every interleaving of orderly steps, if two sessions hold
    application locks on the same resource name, their modes are compatible in the
    table of lock modes. *)
Theorem applock_mutual_exclusion w0 w i j si sj k k' e e' a b :
  started w0 -> rtc orderly_step w0 w -> i <> j ->
  sessions w !! i = Some si -> sessions w !! j = Some sj ->
  cache si !! k = Some e -> cache sj !! k' = Some e' -> ent_resource e = ent_resource e' ->
  a ∈ mode_head e -> b ∈ mode_head e' -> compatible a b = true.
Proof.
  intros Hst Hr Hij Hi Hj He He' Hres Ha Hb. destruct (reachable_orderly _ _ Hst Hr) as (Hk & Hall & Hex).
  assert (k = k') as <-.
  { apply (k_unique _ Hk k k' (ent_resource e)); [apply (k_named _ Hk si)|apply (k_named _ Hk sj)];
      try (by eapply list_elem_of_lookup_2); left; unfold resource_at;
      [by rewrite He|by rewrite He', Hres]. }
  destruct (Hall _ _ Hi) as [Hcn Hmo _]. destruct (Hall _ _ Hj) as [Hcn' Hmo' _].
  pose proof (mode_count_pos _ _ Ha). pose proof (mode_count_pos _ _ Hb).
  specialize (Hcn k e a He). specialize (Hcn' k e' b He').
  eapply (Hex i j k a b (is_session e) (is_session e')); [done|by eapply Hmo|by eapply Hmo'| |]; lia.
Qed.

(** APPLOCK_TEST can always give back the lock it tried: in an orderly interleaving no
    call ends in a PANIC or follows a null pointer. *)
Theorem applock_test_never_panics w0 w s :
  started w0 -> Forall (fun s => returned s = None) (sessions w0) -> rtc orderly_step w0 w ->
  s ∈ sessions w -> returned s <> Some Panic /\ returned s <> Some Crash.
Proof.
  intros Hst Hret Hr Hs. pose proof (reachable_no_panic _ _ Hst Hret Hr) as Hp.
  rewrite Forall_forall in Hp. apply (Hp s Hs).
Qed.

(** Releasing a resource that nobody holds raises the server's error for an LWLock that
    is not held, instead of returning -999, as the lock is released twice. *)
Theorem release_unknown_resource w i s r o b d :
  sessions w !! i = Some s -> pc s = Idle ->
  ApplockCheckLockowner (text_to_cstring_buffer o 33) = Some b ->
  (forall k e, appLockCacheGlobal w !! k = Some e -> ent_resource e <> text_to_cstring_buffer r 256) ->
  exists w', run [(i, Call_release (Some r) (Some o) (Some d) false); (i, Continue)] w = Some w' /\
    appLockCacheGlobal w' = appLockCacheGlobal w /\ locks w' = locks w /\
    exists s', sessions w' !! i = Some s' /\ returned s' = Some Error_lock_not_held.
Proof.
  intros Hi Hpc Ho Hnone. assert (Hlt : (i < length (sessions w))%nat) by (by eapply lookup_lt_Some).
  set (s1 := goto (initApplockCache s) (Releasing (text_to_cstring_buffer r 256) b false)).
  set (w1 := put w i (appLockCacheGlobal w) (locks w) s1).
  assert (H1 : exec i (Call_release (Some r) (Some o) (Some d) false) w = Some w1).
  { unfold Applock.exec. rewrite Hi, Hpc. unfold sp_releaseapplock_function. cbn. by rewrite Ho. }
  set (w2 := put w1 i (appLockCacheGlobal w) (locks w) (finish s1 Error_lock_not_held)).
  assert (Hsearch : AppLockSearchKeyGlobal (appLockCacheGlobal w) (text_to_cstring_buffer r 256) = -1).
  { destruct (search_global_spec (appLockCacheGlobal w) (text_to_cstring_buffer r 256))
      as [(e & He & Hr & _)|[Hm _]]; [by destruct (Hnone _ _ He)|done]. }
  assert (H2 : exec i Continue w1 = Some w2).
  { unfold Applock.exec. change (sessions w1) with (<[i := s1]> (sessions w)).
    rewrite list_lookup_insert_eq by done. cbn [s1 goto pc].
    change (appLockCacheGlobal w1) with (appLockCacheGlobal w).
    unfold release_lock. cbv zeta. by rewrite Hsearch, decide_True. }
  exists w2. split_and!; [cbn [Applock.run]; by rewrite H1, H2|done|done|].
  exists (finish s1 Error_lock_not_held). split; [|done].
  apply list_lookup_insert_eq. cbn. by rewrite length_insert.
Qed.

(** C38: The end of a session that is between two calls, has a table of application
    locks and uses the T-SQL dialect terminates and leaves nothing behind: whatever the
    sessions did before with fewer than 2^32 references to a key, afterwards the lock
    manager holds no application lock for the session, its table is empty, and every
    count in the shared table is the number of references the other sessions have.  In
    the other dialect [ApplockRemoveCache] returns at once, and a session that is ended
    while it waits in LockAcquire leaves without its PG_CATCH. *)
Theorem applock_session_end w0 w i s t :
  started w0 -> rtc bounded_step w0 w -> sessions w !! i = Some s -> pc s = Idle ->
  appLockCacheLocal s = Some t ->
  exists n w' s', run ((i, Call_remove true true) :: repeat (i, Continue) n) w = Some w' /\
    sessions w' !! i = Some s' /\ pc s' = Idle /\ cache s' = ∅ /\
    (forall k m o, held (locks w') i k m o = 0%nat) /\
    (forall k e, appLockCacheGlobal w' !! k = Some e ->
       refcount e = Z.of_nat (total (sessions w) k - refs s k)).
Proof.
  intros Hst Hr Hi Hpc Ht. destruct (reachable_counts _ _ Hst Hr) as [Hc Hb].
  pose proof (Forall_lookup_1 _ _ _ _ (inv_sessions _ Hc) Hi) as [Htab _].
  set (s1 := ApplockRemoveCache true true s).
  set (w1 := put w i (appLockCacheGlobal w) (locks w) s1).
  assert (Hex : exec i (Call_remove true true) w = Some w1) by (unfold Applock.exec; by rewrite Hi, Hpc).
  destruct (remove_refs true true s Hpc Htab) as [_ Hrefs]. fold s1 in Hrefs.
  assert (Htot : forall k, total (sessions w1) k = total (sessions w) k).
  { intros k. pose proof (total_insert (sessions w) i s s1 k Hi) as Hins. rewrite Hrefs in Hins.
    change (sessions w1) with (<[i := s1]> (sessions w)). lia. }
  assert (Hb1 : bounded w1) by (intros k; rewrite Htot; apply Hb).
  assert (Hlt : (i < length (sessions w))%nat) by (by eapply lookup_lt_Some).
  assert (Hs1 : s1 = goto (set_cache s ∅) (Removing (removed_keys true t) true)).
  { unfold s1, ApplockRemoveCache. rewrite Ht. f_equal. f_equal. apply map_empty. intros k. apply map_lookup_filter_None. by right. }
  assert (Hi1 : sessions w1 !! i = Some s1) by (by apply list_lookup_insert_eq).
  destruct (removing_run i (removed_keys true t) true w1 s1) as (w' & Hrun & Hc' & Hs' & Hl');
    [by eapply exec_counts|done|done|by rewrite Hs1|].
  exists (S (length (removed_keys true t))), w', (goto s1 Idle). split_and!.
  - cbn [Applock.run]. by rewrite Hex.
  - rewrite Hs'. apply list_lookup_insert_eq. by eapply lookup_lt_Some.
  - done.
  - by rewrite Hs1.
  - intros k m o. rewrite Hl', held_release_all. by rewrite decide_True by auto.
  - intros k e He. pose proof (inv_counted _ Hc' k) as Hk. rewrite He, Hs' in Hk. rewrite Hk. f_equal.
    pose proof (total_insert (sessions w1) i s1 (goto s1 Idle) k Hi1) as Hins. rewrite Htot, Hrefs in Hins.
    assert (refs (goto s1 Idle) k = 0%nat) by (by rewrite Hs1). lia.
Qed.
End theorems.

(** ** A lock manager and interleavings *)

Module Example.
Abbreviation lock := (nat * Z * LOCKMODE * bool)%type.

(** The conflict table on the server's modes. *)
Definition modes_agree (a b : LOCKMODE) : bool :=
  match a, b with
  | RowShareLock, (RowShareLock | ShareLock | ShareUpdateExclusiveLock | RowExclusiveLock)
  | ShareLock, (RowShareLock | ShareLock | ShareUpdateExclusiveLock)
  | ShareUpdateExclusiveLock, (RowShareLock | ShareLock)
  | RowExclusiveLock, (RowShareLock | RowExclusiveLock) => true
  | _, _ => false
  end.

Fixpoint release_one (x : lock) (l : list lock) : option (list lock) :=
  match l with
  | [] => None
  | y :: l => if decide (y = x) then Some l else (y ::.) <$> release_one x l
  end.

#[global] Instance lock_list : LockManager (list lock) := {
  held l s k m o := length (filter (fun x => x = (s, k, m, o)) l);
  grantable l s k m :=
    forallb (fun '(s', k', m', _) => (s =? s')%nat || negb (k =? k') || modes_agree m m') l = true;
  grant l s k m o := (s, k, m, o) :: l;
  LockRelease l s k m o := release_one (s, k, m, o) l;
  LockReleaseAll l s all := filter (fun x => ~ (s = x.1.1.1 /\ (all = true \/ x.2 = false))) l
}.

Lemma held_cons (y x : lock) l :
  length (filter (fun z => z = x) (y :: l)) =
  (length (filter (fun z => z = x) l) + if decide (y = x) then 1 else 0)%nat.
Proof. rewrite filter_cons. case_decide; cbn; lia. Qed.

Lemma release_one_spec x l l' y : release_one x l = Some l' ->
  length (filter (fun z => z = y) l) =
  (length (filter (fun z => z = y) l') + if decide (x = y) then 1 else 0)%nat.
Proof.
  revert l'. induction l as [|z l IH]; intros l'; cbn [release_one]; [done|].
  destruct (decide (z = x)) as [->|Hne]; [intros [= <-]; apply held_cons|].
  destruct (release_one x l) as [l1|]; [|done]. intros [= <-]. rewrite !held_cons, (IH l1) by done. lia.
Qed.

#[global] Instance lock_list_laws : LockManagerLaws (list lock).
Proof.
  split.
  - intros. apply held_cons.
  - intros ????????? ? Hr. by apply release_one_spec.
  - intros l s k m o. change ((0 < length (filter (fun x => x = (s, k, m, o)) l))%nat ->
      is_Some (release_one (s, k, m, o) l)). induction l as [|z l IH]; [cbn; lia|].
    rewrite held_cons. cbn [release_one]. case_decide; [done|]. intros Hl. destruct IH as [l' Hl']; [lia|].
    by rewrite Hl'.
  - intros l s all s' k m o. unfold held, LockReleaseAll. cbn [lock_list].
    induction l as [|z l IH]; [by case_decide|]. rewrite held_cons, (filter_cons _ z).
    destruct (decide (z = (s', k, m, o))) as [->|Hne]; cbn [fst snd];
      destruct (decide (~ _)) as [Hz|Hz]; rewrite ?held_cons, ?IH.
    + rewrite !(decide_False (P := s = s' /\ _)) by done. by rewrite decide_True.
    + apply dec_stable in Hz. by rewrite !decide_True.
    + rewrite (decide_False (P := z = _)) by done. case_decide; lia.
    + case_decide; lia.
  - intros l s k m a s' o' Hm Ha Hg Hs Hh. unfold grantable, held in Hg, Hh. cbn in Hg, Hh.
    assert (Hin : (s', k, getPGLockMode a, o') ∈ l).
    { destruct (filter _ l) as [|x f] eqn:Hf; [cbn in Hh; lia|].
      assert (Hx : x ∈ filter (fun x => x = (s', k, getPGLockMode a, o')) l) by (rewrite Hf; by left).
      apply list_elem_of_filter in Hx as [-> Hx]. done. }
    rewrite forallb_forall in Hg. apply list_elem_of_In, Hg in Hin.
    rewrite Z.eqb_refl, (proj2 (Nat.eqb_neq s s') Hs) in Hin. cbn in Hin. by destruct m, a.
Qed.

Definition text_to_cstring_buffer (s : string) (n : nat) : string := String.substring 0 (n - 1) s.
Definition ERRCODE_LOCK_NOT_AVAILABLE : Z := 1.
Definition ERRCODE_T_R_DEADLOCK_DETECTED : Z := 2.
Definition unused : AppLockCacheEnt := mk_ent EmptyString 0 [] false.

Lemma substring_length n s : (String.length (String.substring 0 n s) <= n)%nat.
Proof. revert s. induction n as [|n IH]; intros [|c s]; cbn; try lia. specialize (IH s). lia. Qed.

Lemma buffer_size s n : (0 < n)%nat -> (String.length (text_to_cstring_buffer s n) < n)%nat.
Proof. intros Hn. pose proof (substring_length (n - 1) s). unfold text_to_cstring_buffer. lia. Qed.

Abbreviation world := (world (L := list lock)).
Abbreviation exec := (exec (L := list lock) text_to_cstring_buffer ERRCODE_LOCK_NOT_AVAILABLE
  ERRCODE_T_R_DEADLOCK_DETECTED unused).
Abbreviation step := (step (L := list lock) text_to_cstring_buffer ERRCODE_LOCK_NOT_AVAILABLE
  ERRCODE_T_R_DEADLOCK_DETECTED unused).
Abbreviation orderly_step := (orderly_step (L := list lock) text_to_cstring_buffer
  ERRCODE_LOCK_NOT_AVAILABLE ERRCODE_T_R_DEADLOCK_DETECTED unused).
Abbreviation bounded_step := (bounded_step (L := list lock) text_to_cstring_buffer
  ERRCODE_LOCK_NOT_AVAILABLE ERRCODE_T_R_DEADLOCK_DETECTED unused).

(** [n] sessions before their first call. *)
Definition start (n : nat) : world := mk_world ∅ [] (repeat (mk_session None 0 Idle None) n).

Lemma start_started n : started (start n).
Proof.
  split_and!; [done| |done]. apply Forall_forall. intros s Hs%list_elem_of_In%repeat_spec. by subst.
Qed.

(** Conditions of a step as tests. *)
Definition grant_ok (i : nat) (w : world) : bool :=
  match sessions w !! i with
  | Some (mk_session _ _ (Acquiring q key _) _) =>
      forallb (fun '(s', k', m', _) => (i =? s')%nat || negb (key =? k') ||
        modes_agree (getPGLockMode (mode q)) m') (locks w)
  | _ => true
  end.

Lemma grant_ok_may i w : grant_ok i w = true -> may_grant i w.
Proof. unfold grant_ok, may_grant. destruct (sessions w !! i) as [[? ? [] ?]|]; done. Qed.

(** A bound on the references of a session to any key. *)
Definition weight (s : session) : nat :=
  (sum_list_with (fun ke => Z.to_nat (refcount ke.2)) (map_to_list (cache s)) +
   match pc s with Removing keys _ => length keys | _ => 1 end)%nat.

Definition bounded_ok (w : world) : bool :=
  Z.of_nat (sum_list_with weight (sessions w)) <? 2 ^ 32.

Lemma sum_list_with_elem {A} (f : A -> nat) x l : x ∈ l -> (f x <= sum_list_with f l)%nat.
Proof. induction 1; cbn; lia. Qed.

Lemma occurrences_length k l : (occurrences k l <= length l)%nat.
Proof. induction l as [|x l IH]; cbn; [done|]. case_decide; lia. Qed.

Lemma refs_weight s k : (refs s k <= weight s)%nat.
Proof.
  unfold refs, weight, cached. apply Nat.add_le_mono.
  - destruct (cache s !! k) as [e|] eqn:He; [|lia]. apply elem_of_map_to_list in He.
    by apply (sum_list_with_elem (fun ke => Z.to_nat (refcount ke.2))) in He.
  - destruct (pc s); cbn; try case_decide; try lia. apply occurrences_length.
Qed.

Lemma bounded_ok_bounded w : bounded_ok w = true -> bounded w.
Proof.
  unfold bounded_ok. intros Hb%Z.ltb_lt k. eapply Z.le_lt_trans; [|exact Hb]. apply inj_le. unfold total.
  clear Hb. induction (sessions w) as [|s ss IH]; [done|]. cbn. pose proof (refs_weight s k). lia.
Qed.

Definition undisturbed_ok (w w' : world) : bool :=
  forallb (fun s => match pc s with
    | Searched _ k => (k =? -1) || bool_decide (is_Some (appLockCacheGlobal w' !! k))
    | _ => true end) (sessions w).

Definition one_owner_ok (w : world) : bool :=
  forallb (fun s => match pc s with
    | Acquiring q key _ => match cache s !! key with
        | Some e => Bool.eqb (is_session e) (owner q) | None => true end
    | _ => true end) (sessions w).

Lemma undisturbed_ok_spec w w' : undisturbed_ok w w' = true -> undisturbed w w'.
Proof.
  unfold undisturbed_ok. rewrite forallb_forall. intros Hall s q k Hs%list_elem_of_In Hpc Hk.
  specialize (Hall s Hs). rewrite Hpc in Hall. apply orb_true_iff in Hall as [Hall|Hall];
    [apply Z.eqb_eq in Hall; done|by apply bool_decide_eq_true in Hall].
Qed.

Lemma one_owner_ok_spec w : one_owner_ok w = true -> one_owner w.
Proof.
  unfold one_owner_ok. rewrite forallb_forall. intros Hall s q key saved e Hs%list_elem_of_In Hpc He.
  specialize (Hall s Hs). rewrite Hpc, He in Hall. by apply eqb_prop.
Qed.

(** An interleaving, its conditions tested. *)
Fixpoint checked (orderly : bool) (tr : list (nat * event)) (w : world) : option world :=
  match tr with
  | [] => Some w
  | (i, ev) :: tr =>
      match exec i ev w with
      | Some w' =>
          if grant_ok i w && bounded_ok w' &&
             (negb orderly || undisturbed_ok w w' && one_owner_ok w)
          then checked orderly tr w' else None
      | None => None
      end
  end.

Lemma checked_bounded b tr w w' : checked b tr w = Some w' -> rtc bounded_step w w'.
Proof.
  revert w. induction tr as [|[i ev] tr IH]; intros w; cbn [checked]; [intros [= <-]; apply rtc_refl|].
  destruct (exec i ev w) as [w1|] eqn:Hex; [|done]. destruct (_ && _) eqn:Hok; [|done].
  apply andb_true_iff in Hok as [[Hg Hb]%andb_true_iff _]. intros Hr. eapply rtc_l; [|by apply IH].
  split; [|by apply bounded_ok_bounded]. econstructor; [exact Hex|]. intros _. by apply grant_ok_may.
Qed.

Lemma checked_orderly tr w w' : checked true tr w = Some w' -> rtc orderly_step w w'.
Proof.
  revert w. induction tr as [|[i ev] tr IH]; intros w; cbn [checked]; [intros [= <-]; apply rtc_refl|].
  destruct (exec i ev w) as [w1|] eqn:Hex; [|done]. destruct (_ && _) eqn:Hok; [|done].
  apply andb_true_iff in Hok as [[Hg Hb]%andb_true_iff Ho]. cbn in Ho.
  apply andb_true_iff in Ho as [Hu Ho]. intros Hr. eapply rtc_l; [|by apply IH].
  split_and!; [split|by apply undisturbed_ok_spec|by apply one_owner_ok_spec].
  - econstructor; [exact Hex|]. intros _. by apply grant_ok_may.
  - by apply bounded_ok_bounded.
Qed.

(** Calls, and a request that is served without interruption. *)
Definition get (i : nat) (r m o : string) : nat * event :=
  (i, Call_get (Some r) (Some m) (Some o) (-1) (Some "dbo"%string) false true).
Definition release (i : nat) (r o : string) : nat * event :=
  (i, Call_release (Some r) (Some o) (Some "dbo"%string) false).

Definition get_new (i : nat) (r m o : string) : list (nat * event) :=
  [get i r m o; (i, Continue); (i, Continue); (i, Lock_granted)].
Definition get_known (i : nat) (r m o : string) : list (nat * event) :=
  [get i r m o; (i, Continue); (i, Lock_granted)].
Definition released (i : nat) (r o : string) : list (nat * event) :=
  [release i r o; (i, Continue); (i, Continue)].

(** Two sessions share a resource. *)
Definition sharing : list (nat * event) :=
  get_new 0 "a" "Shared" "Session" ++ get_known 1 "a" "Update" "Transaction".

(** The modes session [i] lists for a resource. *)
Definition modes_of (w : world) (i : nat) (r : string) : list Applock_All_Lockmode :=
  match sessions w !! i with
  | Some s => match cache s !! AppLockSearchKeyLocal (cache s) r with
              | Some e => mode_head e | None => [] end
  | None => []
  end.

(** Sessions 1 and 2 look for the key while session 0 holds the lock; the entry is gone
    when they come to reference it. *)
Definition racing : list (nat * event) :=
  get_new 0 "a" "Exclusive" "Session" ++
  [get 1 "a" "Exclusive" "Session"; get 2 "a" "Exclusive" "Session"] ++
  released 0 "a" "Session" ++
  [(1, Continue); (2, Continue); (2, Lock_granted); (1, Continue); (1, Lock_granted)]%nat.

Definition owners_mixed : list (nat * event) :=
  get_new 0 "a" "Exclusive" "Session" ++ get_known 0 "a" "Exclusive" "Transaction" ++
  [(0, Call_remove false true); (0, Continue); (0, Continue); (0, Continue)]%nat.
End Example.

(** ** Witnesses and counterexamples *)

Definition shared_state : Example.world :=
  Eval vm_compute in default (Example.start 2) (Example.checked true Example.sharing (Example.start 2)).

Lemma sharing_orderly : rtc Example.orderly_step (Example.start 2) shared_state.
Proof. apply (Example.checked_orderly Example.sharing). by vm_compute. Qed.

Lemma sharing_bounded : rtc Example.bounded_step (Example.start 2) shared_state.
Proof. apply (Example.checked_bounded true Example.sharing). by vm_compute. Qed.

Lemma applock_refcounts_exact_witness :
  (exists e, appLockCacheGlobal shared_state !! 1 = Some e /\ refcount e = 2) /\
  match appLockCacheGlobal shared_state !! 1 with
  | Some e => refcount e = Z.of_nat (total (sessions shared_state) 1)
  | None => total (sessions shared_state) 1 = 0%nat
  end.
Proof.
  split; [by eexists|].
  exact (applock_refcounts_exact Example.text_to_cstring_buffer
    Example.ERRCODE_LOCK_NOT_AVAILABLE Example.ERRCODE_T_R_DEADLOCK_DETECTED Example.unused eq_refl (Example.start 2) shared_state
    (Example.start_started 2) sharing_bounded 1).
Defined.

Lemma applock_mutual_exclusion_witness : compatible APPLOCKMODE_SHARED APPLOCKMODE_UPDATE = true.
Proof.
  eapply (applock_mutual_exclusion Example.text_to_cstring_buffer
    Example.ERRCODE_LOCK_NOT_AVAILABLE Example.ERRCODE_T_R_DEADLOCK_DETECTED Example.unused eq_refl Example.buffer_size (Example.start 2) shared_state 0 1
    _ _ 1 1 _ _ APPLOCKMODE_SHARED APPLOCKMODE_UPDATE
    (Example.start_started 2) sharing_orderly); [done|reflexivity|reflexivity|reflexivity|reflexivity| | |].
  - reflexivity.
  - by left.
  - by left.
Defined.

Lemma applock_test_never_panics_witness :
  exists s, s ∈ sessions shared_state /\ returned s = Some (Ret 0) /\
    returned s <> Some Panic /\ returned s <> Some Crash.
Proof.
  eexists. split; [by left|]. split; [reflexivity|].
  eapply (applock_test_never_panics Example.text_to_cstring_buffer
    Example.ERRCODE_LOCK_NOT_AVAILABLE Example.ERRCODE_T_R_DEADLOCK_DETECTED Example.unused eq_refl Example.buffer_size (Example.start 2) shared_state _
    (Example.start_started 2)); [by repeat constructor|exact sharing_orderly|by left].
Defined.

Lemma applock_session_end_witness :
  exists s n w' s', sessions shared_state !! 0%nat = Some s /\
    run Example.text_to_cstring_buffer Example.ERRCODE_LOCK_NOT_AVAILABLE
      Example.ERRCODE_T_R_DEADLOCK_DETECTED Example.unused
      ((0%nat, Call_remove true true) :: repeat (0%nat, Continue) n) shared_state = Some w' /\
    sessions w' !! 0%nat = Some s' /\ cache s' = ∅.
Proof.
  destruct (applock_session_end Example.text_to_cstring_buffer Example.ERRCODE_LOCK_NOT_AVAILABLE
    Example.ERRCODE_T_R_DEADLOCK_DETECTED Example.unused eq_refl (Example.start 2) shared_state 0 _ _
    (Example.start_started 2) sharing_bounded eq_refl eq_refl eq_refl) as (n & w' & s' & H1 & H2 & _ & H3 & _).
  by eexists _, n, w', s'.
Defined.

Lemma release_unknown_resource_witness :
  exists w' s', run Example.text_to_cstring_buffer Example.ERRCODE_LOCK_NOT_AVAILABLE
    Example.ERRCODE_T_R_DEADLOCK_DETECTED Example.unused
    [Example.release 0 "a" "Session"; (0%nat, Continue)] (Example.start 1) = Some w' /\
    sessions w' !! 0%nat = Some s' /\ returned s' = Some Error_lock_not_held.
Proof.
  destruct (release_unknown_resource Example.text_to_cstring_buffer Example.ERRCODE_LOCK_NOT_AVAILABLE
    Example.ERRCODE_T_R_DEADLOCK_DETECTED Example.unused (Example.start 1) 0 _ "a" "Session" true "dbo"
    eq_refl eq_refl eq_refl) as (w' & Hr & _ & _ & s' & Hs & Hret); [done|].
  by exists w', s'.
Defined.

(** Without the condition that no entry disappears between search and reference, mutual
    exclusion fails: while session 0 holds a resource, sessions 1 and 2 find its key;
    session 0 releases it, session 1 enters the key again without a name, session 2
    references this nameless entry, and session 1 then takes another key.  Both are
    told that they hold the resource in Exclusive mode. *)
Theorem applock_race :
  exists w, rtc Example.bounded_step (Example.start 3) w /\
    Example.modes_of w 1 "a" = [APPLOCKMODE_EXCLUSIVE] /\
    Example.modes_of w 2 "a" = [APPLOCKMODE_EXCLUSIVE] /\
    (returned <$> sessions w !! 1%nat) = Some (Some (Ret 0)) /\
    (returned <$> sessions w !! 2%nat) = Some (Some (Ret 0)).
Proof.
  destruct (Example.checked false Example.racing (Example.start 3)) as [w|] eqn:Hw; [|by vm_compute in Hw].
  exists w. split; [by eapply Example.checked_bounded|].
  vm_compute in Hw. injection Hw as <-. by vm_compute.
Qed.

(** A resource acquired first for the session and then for the transaction is listed
    for the transaction only: the end of the transaction drops it from the session's
    table and the shared table, while the lock manager still holds the session lock,
    which no call can release any more. *)
Theorem applock_owner_overwritten :
  exists w s, rtc Example.bounded_step (Example.start 1) w /\ sessions w !! 0%nat = Some s /\
    pc s = Idle /\ cache s = ∅ /\ appLockCacheGlobal w = ∅ /\
    held (locks w) 0 1 ExclusiveLock true = 1%nat.
Proof.
  destruct (Example.checked false Example.owners_mixed (Example.start 1)) as [w|] eqn:Hw; [|by vm_compute in Hw].
  pose proof (Example.checked_bounded _ _ _ _ Hw) as Hr. vm_compute in Hw. injection Hw as <-.
  eexists _, _. split; [exact Hr|]. split; [reflexivity|]. by vm_compute.
Qed.
