(* ===== verification/ParseCache.v ===== *)
(** * ParseCache: the shared parse cache ([babelfishpg_tsql/src/antlr_batch_parse_cache.c])

    Batches are parsed once and their statement trees kept, serialized, in fixed-size
    slots of a shared hash table.  The model follows the three layers of the file: the
    hash table with its eviction, get / put / flush, and the restore of a tree with its
    datums or the parse that fills the cache.  A critical section under the LWLock is
    one function on the shared state. *)
From stdpp Require Import base numbers list gmap sorting.
From S2P Require Import Prelude.

(** ** C strings and byte areas *)

(** [strncmp(a, b, n) == 0]. *)
Fixpoint strncmp_eq (a b : bytes) (n : nat) : bool :=
  match n with
  | O => true
  | S n =>
      if hd0 a =? hd0 b then if hd0 a =? 0 then true else strncmp_eq (tl a) (tl b) n else false
  end.

(** A bounded copy with its NUL. *)
Definition strlcpy (src : bytes) (size : nat) : bytes := take (size - 1) src.

(** [memcpy] into and out of an area; [None] outside of it. *)
Definition memcpy (area : bytes) (off : Z) (src : bytes) : option bytes :=
  if (0 <=? off) && (off + Z.of_nat (length src) <=? Z.of_nat (length area))
  then Some (take (Z.to_nat off) area ++ src ++ drop (Z.to_nat off + length src) area)
  else None.

Definition memread (area : bytes) (off len : Z) : option bytes :=
  if (0 <=? off) && (0 <=? len) && (off + len <=? Z.of_nat (length area))
  then Some (take (Z.to_nat len) (drop (Z.to_nat off) area)) else None.

(** ** Entries and shared state *)

Record Entry := mk_entry {
  query_text_len : Z;
  parse_tree_len : Z;
  parse_datums_len : Z;
  bbf_version : bytes;
  param_sig : Z;
  pre_cache_nDatums : Z;
  created_at : Z;
  last_used_at : Z;
  data : bytes
}.

Record SharedState := mk_state {
  slots : gmap Z Entry;
  stat_hits : Z;
  stat_misses : Z;
  stat_writes : Z;
  stat_evictions : Z;
  stat_errors : Z;
  num_slots : Z;
  data_capacity : Z
}.

Definition with_slots (s : SharedState) (t : gmap Z Entry) : SharedState :=
  mk_state t (stat_hits s) (stat_misses s) (stat_writes s) (stat_evictions s) (stat_errors s)
    (num_slots s) (data_capacity s).

(** Atomic additions to the counters. *)
Definition count_hit (s : SharedState) : SharedState :=
  mk_state (slots s) (u64 (stat_hits s + 1)) (stat_misses s) (stat_writes s) (stat_evictions s)
    (stat_errors s) (num_slots s) (data_capacity s).
Definition count_miss (s : SharedState) : SharedState :=
  mk_state (slots s) (stat_hits s) (u64 (stat_misses s + 1)) (stat_writes s) (stat_evictions s)
    (stat_errors s) (num_slots s) (data_capacity s).
Definition count_write (s : SharedState) : SharedState :=
  mk_state (slots s) (stat_hits s) (stat_misses s) (u64 (stat_writes s + 1)) (stat_evictions s)
    (stat_errors s) (num_slots s) (data_capacity s).
Definition count_eviction (s : SharedState) : SharedState :=
  mk_state (slots s) (stat_hits s) (stat_misses s) (stat_writes s) (u64 (stat_evictions s + 1))
    (stat_errors s) (num_slots s) (data_capacity s).
Definition count_error (s : SharedState) : SharedState :=
  mk_state (slots s) (stat_hits s) (stat_misses s) (stat_writes s) (stat_evictions s)
    (u64 (stat_errors s + 1)) (num_slots s) (data_capacity s).

(** *** Sizes fixed at server start *)

Definition MAXALIGN (n : Z) : Z := Z.land (u64 (n + 7)) (Z.lnot 7).

Definition antlr_batch_parse_cache_entry_size (slot_size_kb : Z) : Z := MAXALIGN (u64 (slot_size_kb * 1024)).

Definition antlr_batch_parse_cache_num_slots (size_mb slot_size_kb : Z) : Z :=
  i64 (u64 (u64 (size_mb * 1024) * 1024) / antlr_batch_parse_cache_entry_size slot_size_kb).

(** The shared state as [tds_status_shmem_startup] creates it; [header] is the offset
    of the data in an entry. *)
Definition create_state (header size_mb slot_size_kb : Z) : SharedState :=
  mk_state ∅ 0 0 0 0 0 (antlr_batch_parse_cache_num_slots size_mb slot_size_kb)
    (i32 (u64 (antlr_batch_parse_cache_entry_size slot_size_kb - header))).

(** ** Layer 1: the hash table *)

Definition ANTLR_BATCH_PARSE_CACHE_DEALLOC_PERCENT : Z := 10.
Definition ANTLR_BATCH_PARSE_CACHE_MIN_VICTIMS : Z := 5.

Definition antlr_batch_parse_cache_hash_remove (key : Z) (s : SharedState) : SharedState :=
  with_slots s (delete key (slots s)).

Definition antlr_batch_parse_cache_hash_remove_all (s : SharedState) : Z * SharedState :=
  foldr (fun ke '(removed, s) => (i64 (removed + 1), antlr_batch_parse_cache_hash_remove ke.1 s))
    (0, s) (map_to_list (slots s)).

Definition antlr_batch_parse_cache_entry_cmp (a b : Z * Entry) : Z :=
  if last_used_at a.2 <? last_used_at b.2 then -1
  else if last_used_at a.2 >? last_used_at b.2 then 1 else 0.

Definition num_to_drop (num_entries : Z) : Z :=
  Z.min (Z.max ANTLR_BATCH_PARSE_CACHE_MIN_VICTIMS
           (i64 (num_entries * ANTLR_BATCH_PARSE_CACHE_DEALLOC_PERCENT) ÷ 100)) num_entries.

(** Where the three texts of an entry start in its data. *)
Definition antlr_batch_parse_cache_entry_text (e : Entry) : Z := 0.
Definition antlr_batch_parse_cache_entry_tree (e : Entry) : Z := query_text_len e + 1.
Definition antlr_batch_parse_cache_entry_datums (e : Entry) : Z :=
  antlr_batch_parse_cache_entry_tree e + parse_tree_len e + 1.

Definition antlr_batch_parse_cache_entry_matches (e : Entry) (query_text : bytes) (query_len sig : Z) : bool :=
  (query_text_len e =? query_len) &&
  strncmp_eq (drop (Z.to_nat (antlr_batch_parse_cache_entry_text e)) (data e)) query_text (Z.to_nat query_len) &&
  (param_sig e =? sig).

Definition antlr_batch_parse_cache_entry_touch (e : Entry) (now : Z) : Entry :=
  mk_entry (query_text_len e) (parse_tree_len e) (parse_datums_len e) (bbf_version e) (param_sig e)
    (pre_cache_nDatums e) (created_at e) now (data e).

(** One part of the data area with its NUL. *)
Definition put_part (area : bytes) (dst : Z) (part : bytes) (len : Z) : option bytes :=
  area ← memcpy area dst (take (Z.to_nat len) part); memcpy area (dst + len) [0].

Record LookupResult := mk_result { parse_tree : bytes; parse_datums : option bytes }.

Definition antlr_batch_parse_cache_entry_copy (e : Entry) : option LookupResult :=
  tree ← memread (data e) (antlr_batch_parse_cache_entry_tree e) (parse_tree_len e);
  if 0 <? parse_datums_len e then
    datums ← memread (data e) (antlr_batch_parse_cache_entry_datums e) (parse_datums_len e);
    Some (mk_result tree (Some datums))
  else Some (mk_result tree None).

(** The context of one batch. *)
Record Ctx := mk_ctx {
  query_text : bytes;
  key : Z;
  ctx_sig : Z;
  ctx_nDatums : Z
}.

Definition strlen (s : bytes) : Z := Z.of_nat (length s).

Section cache.
(** [BABELFISH_VERSION_STR]. *)
Variable version : bytes.
(** The server's [qsort]; the contents of a free slot; whether [HASH_ENTER_NULL] finds
    room in a table with that many entries. *)
Variable qsort : (Z * Entry -> Z * Entry -> Z) -> list (Z * Entry) -> list (Z * Entry).
Variable free_slot : Entry.
Variable has_room : nat -> bool.

Definition antlr_batch_parse_cache_hash_evict_lru (s : SharedState) : SharedState :=
  let entries_arr := qsort antlr_batch_parse_cache_entry_cmp
                       (take (Z.to_nat (num_slots s)) (map_to_list (slots s))) in
  let num_entries := Z.of_nat (length entries_arr) in
  foldl (fun s ke => count_eviction (antlr_batch_parse_cache_hash_remove ke.1 s)) s
    (take (Z.to_nat (num_to_drop num_entries)) entries_arr).

Definition antlr_batch_parse_cache_entry_fill (e : Entry) (found : bool) (query_text : bytes) (query_len : Z)
    (tree_str : bytes) (tree_len : Z) (datums_str : bytes) (datums_len : Z) (sig nDatums now : Z)
    : option Entry :=
  let e := mk_entry query_len tree_len datums_len (bbf_version e) (param_sig e) (pre_cache_nDatums e)
             (created_at e) (last_used_at e) (data e) in
  area ← put_part (data e) (antlr_batch_parse_cache_entry_text e) query_text query_len;
  area ← put_part area (antlr_batch_parse_cache_entry_tree e) tree_str tree_len;
  area ← put_part area (antlr_batch_parse_cache_entry_datums e) datums_str datums_len;
  Some (mk_entry query_len tree_len datums_len (strlcpy version 32) sig nDatums
          (if found then created_at e else now) now area).

(** [min_kb] and [max_kb]: the session's size limits. *)
Definition antlr_batch_parse_cache_entry_size_ok (s : SharedState) (min_kb max_kb : Z)
    (query_len tree_len datums_len : Z) : bool :=
  let total_data_len := query_len + tree_len + datums_len in
  let min_bytes := min_kb * 1024 in
  let max_bytes := max_kb * 1024 in
  negb (data_capacity s <? total_data_len + 3) &&
  negb (total_data_len <? min_bytes) &&
  negb ((0 <? max_bytes) && (max_bytes <? total_data_len)).

(** ** Layer 2: get, put, flush *)

(** The outer [None] is a read outside of a slot. *)
Definition antlr_batch_parse_cache_get (ctx : Ctx) (now : Z) (s : SharedState)
    : option (option LookupResult * SharedState) :=
  match slots s !! key ctx with
  | None => Some (None, count_miss s)
  | Some e =>
      if negb (antlr_batch_parse_cache_entry_matches e (query_text ctx) (i32 (strlen (query_text ctx)))
                 (ctx_sig ctx)) ||
         negb (pre_cache_nDatums e =? ctx_nDatums ctx) ||
         negb (bool_decide (cstring (bbf_version e) = version)) ||
         (parse_tree_len e <=? 0)
      then Some (None, count_miss s)
      else
        result ← antlr_batch_parse_cache_entry_copy e;
        Some (Some result,
              with_slots s (<[key ctx := antlr_batch_parse_cache_entry_touch e now]> (slots s)))
  end.

Definition antlr_batch_parse_cache_put (min_kb max_kb : Z) (ctx : Ctx) (tree_str : bytes)
    (datums_str : option bytes) (now : Z) (s : SharedState) : option (bool * SharedState) :=
  let query_len := i32 (strlen (query_text ctx)) in
  let tree_len := i32 (strlen tree_str) in
  let datums_len := match datums_str with Some d => i32 (strlen d) | None => 0 end in
  let datums := default [] datums_str in
  let fill e found s :=
    e ← antlr_batch_parse_cache_entry_fill e found (query_text ctx) query_len tree_str tree_len
          datums datums_len (ctx_sig ctx) (ctx_nDatums ctx) now;
    Some (true, count_write (with_slots s (<[key ctx := e]> (slots s)))) in
  if negb (antlr_batch_parse_cache_entry_size_ok s min_kb max_kb query_len tree_len datums_len)
  then Some (false, s)
  else match slots s !! key ctx with
  | Some e =>
      if negb (antlr_batch_parse_cache_entry_matches e (query_text ctx) query_len (ctx_sig ctx))
      then Some (false, count_error s)
      else fill e true s
  | None =>
      let s := if num_slots s <=? Z.of_nat (size (slots s))
               then antlr_batch_parse_cache_hash_evict_lru s else s in
      if has_room (size (slots s)) then fill free_slot false s else Some (false, count_error s)
  end.

Definition antlr_batch_parse_cache_flush (s : SharedState) : Z * SharedState :=
  let '(flushed, s) := antlr_batch_parse_cache_hash_remove_all s in
  (flushed, mk_state (slots s) 0 0 0 0 0 (num_slots s) (data_capacity s)).
End cache.
