(* ===== verification/ParseCacheProofs.v ===== *)
(** * ParseCacheProofs: slots, eviction, get and put of the parse cache *)
From stdpp Require Import base numbers list gmap sorting.
From S2P Require Import Prelude ParseCache.

(** ** Byte areas *)

(** C strings hold no NUL. *)
Definition clean (s : bytes) : Prop := Forall (fun c => c <> 0) s.

Lemma strncmp_eq_clean a b n rest :
  clean a -> clean b -> length a = n -> length b = n -> strncmp_eq (a ++ rest) b n = bool_decide (a = b).
Proof.
  revert b n. induction a as [|x a IH]; intros [|y b] [|n] Ha Hb Hla Hlb; cbn in *; try done.
  apply Forall_cons in Ha as [Hx Ha]. apply Forall_cons in Hb as [Hy Hb].
  destruct (Z.eqb_spec x y) as [->|Hne].
  - rewrite (proj2 (Z.eqb_neq y 0)) by done. rewrite IH by (done || lia). apply bool_decide_ext. naive_solver.
  - symmetry. apply bool_decide_eq_false. congruence.
Qed.

Lemma memcpy_at (l r src old : bytes) :
  length old = length src ->
  memcpy (l ++ old ++ r) (Z.of_nat (length l)) src = Some (l ++ src ++ r).
Proof.
  intros Hlen. unfold memcpy. rewrite !length_app.
  rewrite (proj2 (andb_true_iff _ _)) by (rewrite !Z.leb_le; lia).
  rewrite Nat2Z.id, take_app_length, <- Hlen. do 2 f_equal.
  rewrite drop_app_ge by lia. replace (_ + _ - _)%nat with (length old) by lia.
  by rewrite drop_app_length.
Qed.

Lemma memread_at (l m r : bytes) :
  memread (l ++ m ++ r) (Z.of_nat (length l)) (Z.of_nat (length m)) = Some m.
Proof.
  unfold memread. rewrite !length_app.
  rewrite (proj2 (andb_true_iff _ _)) by (rewrite andb_true_iff, !Z.leb_le; lia).
  by rewrite !Nat2Z.id, drop_app_length, take_app_length.
Qed.

Lemma put_part_at (l part old r : bytes) len dst :
  length old = S (length part) -> len = strlen part -> dst = Z.of_nat (length l) ->
  put_part (l ++ old ++ r) dst part len = Some (l ++ part ++ 0 :: r).
Proof.
  intros Hold -> ->. unfold put_part, strlen. rewrite Nat2Z.id, take_ge by lia.
  assert (exists o z, old = o ++ [z] /\ length o = length part) as (o & z & -> & Ho).
  { destruct old as [|z o _] using rev_ind; [done|]. exists o, z. rewrite length_app in Hold. cbn in Hold.
    split; [done|lia]. }
  rewrite <- !app_assoc. cbn [app]. rewrite memcpy_at by done. cbn.
  replace (Z.of_nat (length l) + Z.of_nat (length part)) with (Z.of_nat (length (l ++ part)))
    by (rewrite length_app; lia).
  rewrite app_assoc. change (z :: r) with ([z] ++ r). rewrite memcpy_at by done. by rewrite <- app_assoc.
Qed.

(** ** Filled entries *)

(** What an entry stands for. *)
Definition slot_of (e : Entry) (text tree datums : bytes) : Prop :=
  query_text_len e = strlen text /\ parse_tree_len e = strlen tree /\ parse_datums_len e = strlen datums /\
  clean text /\ exists rest, data e = text ++ 0 :: tree ++ 0 :: datums ++ 0 :: rest.

Lemma split_area (area : bytes) n : (n <= length area)%nat -> exists a b, area = a ++ b /\ length a = n.
Proof. intros Hn. exists (take n area), (drop n area). rewrite take_drop, length_take. split; [done|lia]. Qed.

Lemma entry_fill_spec version e found text tree datums sig n now :
  clean text -> strlen text + strlen tree + strlen datums + 3 <= strlen (data e) ->
  exists e', antlr_batch_parse_cache_entry_fill version e found text (strlen text) tree (strlen tree)
               datums (strlen datums) sig n now = Some e' /\
    slot_of e' text tree datums /\ length (data e') = length (data e) /\
    bbf_version e' = strlcpy version 32 /\ param_sig e' = sig /\ pre_cache_nDatums e' = n /\
    last_used_at e' = now.
Proof.
  intros Hc Hfit. unfold strlen in Hfit.
  destruct (split_area (data e) (S (length text))) as (a & r1 & Ha & Hla); [lia|].
  rewrite Ha, length_app in Hfit.
  destruct (split_area r1 (S (length tree))) as (b & r2 & -> & Hlb); [lia|]. rewrite length_app in Hfit.
  destruct (split_area r2 (S (length datums))) as (c & r3 & -> & Hlc); [lia|].
  unfold antlr_batch_parse_cache_entry_fill. cbn [data]. rewrite Ha.
  unfold antlr_batch_parse_cache_entry_text, antlr_batch_parse_cache_entry_datums,
    antlr_batch_parse_cache_entry_tree. cbn [query_text_len parse_tree_len].
  change (a ++ b ++ c ++ r3) with ([] ++ a ++ (b ++ c ++ r3)).
  rewrite put_part_at by done. cbn [mbind option_bind app].
  replace (text ++ 0 :: b ++ c ++ r3) with ((text ++ [0]) ++ b ++ c ++ r3) by (by rewrite <- app_assoc).
  rewrite put_part_at; [|done|done|rewrite length_app; unfold strlen; cbn; lia]. cbn [mbind option_bind].
  replace ((text ++ [0]) ++ tree ++ 0 :: c ++ r3) with ((text ++ [0] ++ tree ++ [0]) ++ c ++ r3)
    by (rewrite <- !app_assoc; done).
  rewrite put_part_at; [|done|done|rewrite !length_app; unfold strlen; cbn; lia]. cbn [mbind option_bind].
  eexists. split; [done|]. split_and!; try done.
  - unfold slot_of. split_and!; try done. exists r3. cbn [data]. by rewrite <- !app_assoc.
  - cbn [data]. rewrite ?Ha. repeat (rewrite length_app || cbn [length]). lia.
Qed.

Lemma matches_spec e text tree datums text' sig :
  slot_of e text tree datums -> clean text' ->
  antlr_batch_parse_cache_entry_matches e text' (strlen text') sig =
  bool_decide (text = text' /\ param_sig e = sig).
Proof.
  intros (Hl & _ & _ & Hc & rest & Hd) Hc'. unfold antlr_batch_parse_cache_entry_matches,
    antlr_batch_parse_cache_entry_text. rewrite Hl, Hd. change (Z.to_nat 0) with 0%nat. rewrite drop_0. unfold strlen. rewrite Nat2Z.id.
  destruct (Z.eqb_spec (Z.of_nat (length text)) (Z.of_nat (length text'))) as [Hlen|Hlen].
  - rewrite strncmp_eq_clean by (done || lia). cbn [andb].
    destruct (Z.eqb_spec (param_sig e) sig); rewrite ?andb_true_r, ?andb_false_r;
      [apply bool_decide_ext; naive_solver|symmetry; apply bool_decide_eq_false; naive_solver].
  - cbn [andb]. symmetry. apply bool_decide_eq_false. naive_solver.
Qed.

Lemma copy_spec e text tree datums :
  slot_of e text tree datums ->
  antlr_batch_parse_cache_entry_copy e =
  Some (mk_result tree (if decide (datums = []) then None else Some datums)).
Proof.
  intros (Hl & Hlt & Hld & _ & rest & Hd). unfold antlr_batch_parse_cache_entry_copy,
    antlr_batch_parse_cache_entry_datums, antlr_batch_parse_cache_entry_tree. rewrite Hl, Hlt, Hld, Hd.
  replace (text ++ 0 :: tree ++ 0 :: datums ++ 0 :: rest)
    with ((text ++ [0]) ++ tree ++ (0 :: datums ++ 0 :: rest)) at 1 by (by rewrite <- !app_assoc).
  replace (strlen text + 1) with (Z.of_nat (length (text ++ [0])))
    by (rewrite length_app; unfold strlen; cbn; lia).
  unfold strlen. rewrite memread_at. cbn [mbind option_bind].
  destruct (decide (datums = [])) as [->|Hne]; [done|].
  rewrite (proj2 (Z.ltb_lt 0 (Z.of_nat (length datums)))) by (destruct datums; cbn in *; [done|lia]).
  replace (text ++ 0 :: tree ++ 0 :: datums ++ 0 :: rest)
    with (((text ++ [0]) ++ tree ++ [0]) ++ datums ++ (0 :: rest)) by (by rewrite <- !app_assoc).
  replace (Z.of_nat (length (text ++ [0])) + Z.of_nat (length tree) + 1)
    with (Z.of_nat (length ((text ++ [0]) ++ tree ++ [0])))
    by (rewrite !length_app; cbn; lia).
  by rewrite memread_at.
Qed.

(** ** The table *)

(** The slots of the table are filled, and not too many. *)
Record wf (s : SharedState) : Prop := {
  wf_slots : 0 < num_slots s < 2 ^ 59;
  wf_size : Z.of_nat (size (slots s)) <= num_slots s;
  wf_entry : forall k e, slots s !! k = Some e ->
    strlen (data e) = data_capacity s /\ exists text tree datums, slot_of e text tree datums
}.

(** Removing a list of keys. *)
Definition without (t : gmap Z Entry) (ks : list Z) : gmap Z Entry := foldl (fun t k => delete k t) t ks.

Lemma lookup_without t ks k : without t ks !! k = if decide (k ∈ ks) then None else t !! k.
Proof.
  revert t. induction ks as [|x ks IH]; intros t; cbn [without foldl].
  - by rewrite decide_False by (by apply not_elem_of_nil).
  - fold (without (delete x t) ks). rewrite IH. destruct (decide (k ∈ ks)).
    + by rewrite decide_True by (by right).
    + destruct (decide (x = k)) as [->|Hne].
      * rewrite lookup_delete_eq, decide_True by (by left). done.
      * rewrite lookup_delete_ne by done. rewrite decide_False; [done|]. set_solver.
Qed.

Lemma size_without t ks :
  NoDup ks -> (forall k, k ∈ ks -> is_Some (t !! k)) -> (size (without t ks) + length ks = size t)%nat.
Proof.
  revert t. induction ks as [|x ks IH]; intros t Hnd Hin; cbn [without foldl length]; [lia|].
  apply NoDup_cons in Hnd as [Hx Hnd]. fold (without (delete x t) ks). destruct (Hin x) as [e He]; [by left|].
  pose proof (map_size_delete_Some x t (mk_is_Some _ _ He)) as Hs.
  pose proof (map_size_ne_0_lookup_2 t x (mk_is_Some _ _ He)) as Hpos.
  rewrite <- (IH (delete x t)) in Hs; [lia|done|].
  intros k Hk. rewrite lookup_delete_ne by set_solver. apply Hin. by right.
Qed.

Section qsort.
Variable qsort : (Z * Entry -> Z * Entry -> Z) -> list (Z * Entry) -> list (Z * Entry).
(** [qsort] permutes and sorts. *)
Hypothesis qsort_perm : forall cmp l, qsort cmp l ≡ₚ l.
Hypothesis qsort_sorted : forall l,
  StronglySorted (fun a b => antlr_batch_parse_cache_entry_cmp a b <= 0)
    (qsort antlr_batch_parse_cache_entry_cmp l).

Definition scanned (s : SharedState) : list (Z * Entry) :=
  qsort antlr_batch_parse_cache_entry_cmp (take (Z.to_nat (num_slots s)) (map_to_list (slots s))).
Definition victims (s : SharedState) : list (Z * Entry) :=
  take (Z.to_nat (num_to_drop (Z.of_nat (length (scanned s))))) (scanned s).

Lemma scanned_perm s : wf s -> scanned s ≡ₚ map_to_list (slots s).
Proof.
  intros Hwf. unfold scanned. rewrite qsort_perm, take_ge; [done|].
  rewrite length_map_to_list. pose proof (wf_size s Hwf). lia.
Qed.

Lemma evict_eq s :
  let s' := antlr_batch_parse_cache_hash_evict_lru qsort s in
  slots s' = without (slots s) (victims s).*1 /\ num_slots s' = num_slots s /\
  data_capacity s' = data_capacity s /\ stat_hits s' = stat_hits s /\ stat_misses s' = stat_misses s.
Proof.
  unfold antlr_batch_parse_cache_hash_evict_lru, victims. cbv zeta. fold (scanned s).
  generalize (take (Z.to_nat (num_to_drop (Z.of_nat (length (scanned s))))) (scanned s)) as l.
  intros l. revert s. induction l as [|ke l IH]; intros s; [done|].
  cbn [foldl fmap list_fmap without].
  destruct (IH (count_eviction (antlr_batch_parse_cache_hash_remove ke.1 s))) as (H1 & H2 & H3 & H4 & H5).
  by rewrite H1, H2, H3, H4, H5.
Qed.

Lemma num_to_drop_range n : 0 < n < 2 ^ 59 -> 0 < num_to_drop n <= n.
Proof. unfold num_to_drop, ANTLR_BATCH_PARSE_CACHE_MIN_VICTIMS. lia. Qed.

(** Eviction makes room. *)
Lemma evict_room s : wf s -> (0 < size (slots s))%nat ->
  let s' := antlr_batch_parse_cache_hash_evict_lru qsort s in
  Z.of_nat (size (slots s')) = Z.of_nat (size (slots s)) - num_to_drop (Z.of_nat (size (slots s))) /\
  (forall k e, slots s' !! k = Some e -> slots s !! k = Some e).
Proof.
  intros Hwf Hpos s'. destruct (evict_eq s) as (Hs & _). fold s' in Hs.
  pose proof (scanned_perm s Hwf) as Hp. pose proof (Permutation_length Hp) as Hlen.
  rewrite length_map_to_list in Hlen. pose proof (wf_size s Hwf) as Hsz. pose proof (wf_slots s Hwf) as Hsl.
  pose proof (num_to_drop_range (Z.of_nat (size (slots s)))) as Hn.
  assert (Hv : length (victims s).*1 = Z.to_nat (num_to_drop (Z.of_nat (size (slots s))))).
  { unfold victims. rewrite length_fmap, length_take, Hlen. lia. }
  rewrite Hs. split.
  - pose proof (size_without (slots s) (victims s).*1) as Hw. rewrite Hv in Hw.
    enough (size (without (slots s) (victims s).*1) + Z.to_nat (num_to_drop (Z.of_nat (size (slots s)))) =
      size (slots s))%nat by lia. apply Hw.
    + unfold victims. rewrite fmap_take. eapply sublist_NoDup; [|apply sublist_take].
      rewrite Hp. apply NoDup_fst_map_to_list.
    + intros k ([k' e] & -> & Hin)%list_elem_of_fmap. apply elem_of_take in Hin as (j & Hj & _).
      apply list_elem_of_lookup_2 in Hj. rewrite Hp in Hj. apply elem_of_map_to_list in Hj. by eexists.
  - intros k e. rewrite lookup_without. by case_decide.
Qed.

(** The entries evicted are not younger than those kept. *)
Lemma evict_oldest s k e k' e' : wf s ->
  slots s !! k = Some e -> slots (antlr_batch_parse_cache_hash_evict_lru qsort s) !! k = None ->
  slots (antlr_batch_parse_cache_hash_evict_lru qsort s) !! k' = Some e' ->
  last_used_at e <= last_used_at e'.
Proof.
  intros Hwf Hk Hgone Hkept. destruct (evict_eq s) as (Hs & _). rewrite Hs, lookup_without in Hgone, Hkept.
  pose proof (scanned_perm s Hwf) as Hp.
  destruct (decide (k ∈ _)) as [Hin|]; [|congruence]. destruct (decide (k' ∈ _)) as [|Hout]; [done|].
  apply list_elem_of_fmap in Hin as ([k0 e0] & -> & Hin). cbn in Hk.
  assert (Hall : (k', e') ∈ scanned s) by (rewrite Hp; by apply elem_of_map_to_list).
  pose proof (qsort_sorted (take (Z.to_nat (num_slots s)) (map_to_list (slots s)))) as Hsort.
  fold (scanned s) in Hsort. unfold victims in Hin, Hout.
  revert Hin Hout. generalize (Z.to_nat (num_to_drop (Z.of_nat (length (scanned s))))) as n. intros n Hin Hout.
  assert (e0 = e) as ->.
  { assert (Hin' : (k0, e0) ∈ scanned s) by (apply elem_of_take in Hin as (j & Hj & _); by eapply list_elem_of_lookup_2).
    rewrite Hp in Hin'. apply elem_of_map_to_list in Hin'. congruence. }
  rewrite <- (take_drop n (scanned s)) in Hall, Hsort. apply elem_of_app in Hall as [Hall|Hall].
  { destruct Hout. apply list_elem_of_fmap. by exists (k', e'). }
  pose proof (StronglySorted_app_1_elem_of _ _ _ _ _ Hsort Hin Hall) as Hle.
  unfold antlr_batch_parse_cache_entry_cmp in Hle. cbn [fst snd] in Hle.
  destruct (Z.ltb_spec (last_used_at e) (last_used_at e')); [lia|].
  destruct (Z.gtb_spec (last_used_at e) (last_used_at e')); lia.
Qed.

(** ** Get *)

Variable version : bytes.

(** The stored version is the current one. *)
Lemma version_stored :
  (length version < 32)%nat -> clean version -> cstring (strlcpy version 32) = version.
Proof.
  intros Hshort Hclean. unfold strlcpy. rewrite take_ge by lia. by apply cstring_clean.
Qed.

Definition text_ok (t : bytes) : Prop := clean t /\ strlen t < 2 ^ 31.

Lemma text_len t : text_ok t -> i32 (strlen t) = strlen t.
Proof. intros [_ Ht]. apply i32_id, in_i32_iff. unfold strlen in *. lia. Qed.

(** An entry for the context of a batch. *)
Definition serves (ctx : Ctx) (e : Entry) (tree datums : bytes) : Prop :=
  slot_of e (query_text ctx) tree datums /\ param_sig e = ctx_sig ctx /\
  pre_cache_nDatums e = ctx_nDatums ctx /\ cstring (bbf_version e) = version /\ tree <> [].

Lemma get_spec ctx now s :
  wf s -> text_ok (query_text ctx) ->
  (exists e tree datums, slots s !! key ctx = Some e /\ serves ctx e tree datums /\
     antlr_batch_parse_cache_get version ctx now s =
     Some (Some (mk_result tree (if decide (datums = []) then None else Some datums)),
           with_slots s (<[key ctx := antlr_batch_parse_cache_entry_touch e now]> (slots s)))) \/
  ((forall e tree datums, slots s !! key ctx = Some e -> ~ serves ctx e tree datums) /\
   antlr_batch_parse_cache_get version ctx now s = Some (None, count_miss s)).
Proof.
  intros Hwf Htext. unfold antlr_batch_parse_cache_get.
  destruct (slots s !! key ctx) as [e|] eqn:He; [|right; split; [congruence|done]].
  destruct (wf_entry s Hwf _ _ He) as (_ & text & tree & datums & Hslot).
  rewrite text_len, (matches_spec e text tree datums) by (done || apply Htext).
  destruct (bool_decide (text = _ /\ _)) eqn:Hm; cbn [negb orb].
  2: { right. split; [|done]. apply bool_decide_eq_false in Hm. intros e' tree' datums' [= <-] Hs.
       destruct Hm. destruct Hs as (Hs & Hsig & _). split; [|done].
       destruct Hslot as (Hl & _ & _ & Hc & rest & Hd). destruct Hs as (Hl' & _ & _ & Hc' & rest' & Hd').
       rewrite Hd in Hd'. rewrite Hl in Hl'. unfold strlen in Hl'.
       apply app_inj_1 in Hd' as [-> _]; [done|lia]. }
  apply bool_decide_eq_true in Hm as [-> Hsig].
  destruct (Z.eqb_spec (pre_cache_nDatums e) (ctx_nDatums ctx)) as [Hn|Hn]; cbn [negb orb].
  2: { right. split; [|done]. intros e' tree' datums' [= <-] (_ & _ & ? & _). done. }
  destruct (bool_decide_reflect (cstring (bbf_version e) = version)) as [Hv|Hv]; cbn [negb orb].
  2: { right. split; [|done]. intros e' tree' datums' [= <-] (_ & _ & _ & ? & _). done. }
  destruct (Z.leb_spec (parse_tree_len e) 0) as [Ht|Ht].
  - right. split; [|done]. intros e' tree' datums' [= <-] ((_ & Htl & _) & _ & _ & _ & Hne).
    rewrite Htl in Ht. unfold strlen in Ht. destruct tree'; [done|cbn in Ht; lia].
  - left. exists e, tree, datums. split; [done|]. split.
    + split_and!; try done. intros ->. destruct Hslot as (_ & Htl & _). unfold strlen in Htl. cbn in Htl. lia.
    + by rewrite (copy_spec _ _ _ _ Hslot).
Qed.

Lemma touch_slot e now text tree datums :
  slot_of e text tree datums -> slot_of (antlr_batch_parse_cache_entry_touch e now) text tree datums.
Proof. done. Qed.

Lemma wf_touch s k e now :
  wf s -> slots s !! k = Some e ->
  wf (with_slots s (<[k := antlr_batch_parse_cache_entry_touch e now]> (slots s))).
Proof.
  intros Hwf He. split; cbn.
  - apply Hwf.
  - rewrite map_size_insert_Some by (by eexists). apply Hwf.
  - intros k' e' [[<- <-]|[_ He']]%lookup_insert_Some; [apply (wf_entry s Hwf k e He)|by eapply wf_entry].
Qed.

(** ** Put *)

Variable free_slot : Entry.
Variable has_room : nat -> bool.

Definition fits (s : SharedState) (min_kb max_kb : Z) (text tree datums : bytes) : Prop :=
  antlr_batch_parse_cache_entry_size_ok s min_kb max_kb (strlen text) (strlen tree) (strlen datums) = true.

Lemma fits_capacity s a b text tree datums : fits s a b text tree datums ->
  strlen text + strlen tree + strlen datums + 3 <= data_capacity s.
Proof.
  unfold fits, antlr_batch_parse_cache_entry_size_ok. rewrite !andb_true_iff, negb_true_iff. lia.
Qed.

(** Room that the server reserved, and slots of the reserved size. *)
Definition reserved (s : SharedState) : Prop :=
  strlen (data free_slot) = data_capacity s /\ forall n, Z.of_nat n < num_slots s -> has_room n = true.

(** A shared state with the same limits, whose table lost entries. *)
Definition shrunk (s s' : SharedState) : Prop :=
  num_slots s' = num_slots s /\ data_capacity s' = data_capacity s /\
  stat_hits s' = stat_hits s /\ stat_misses s' = stat_misses s /\
  (size (slots s') <= size (slots s))%nat /\ (forall k e, slots s' !! k = Some e -> slots s !! k = Some e).

Lemma slot_room s : wf s ->
  let s' := if num_slots s <=? Z.of_nat (size (slots s))
            then antlr_batch_parse_cache_hash_evict_lru qsort s else s in
  shrunk s s' /\ Z.of_nat (size (slots s')) < num_slots s.
Proof.
  intros Hwf. cbv zeta. pose proof (wf_slots s Hwf). pose proof (wf_size s Hwf).
  destruct (Z.leb_spec (num_slots s) (Z.of_nat (size (slots s)))); [|by repeat split].
  destruct (evict_eq s) as (_ & H2 & H3 & H4 & H5). destruct (evict_room s Hwf ltac:(lia)) as [Hsz Hsub].
  assert (Hr : 0 < Z.of_nat (size (slots s)) < 2 ^ 59) by (cbn in *; lia).
  pose proof (num_to_drop_range _ Hr). split; [|lia].
  unfold shrunk. split_and!; try done. lia.
Qed.

(** What a put does to the table. *)
Definition stored (ctx : Ctx) (tree datums : bytes) (now : Z) (s s' : SharedState) : Prop :=
  (exists e, slots s' !! key ctx = Some e /\ slot_of e (query_text ctx) tree datums /\
     param_sig e = ctx_sig ctx /\ pre_cache_nDatums e = ctx_nDatums ctx /\
     bbf_version e = strlcpy version 32 /\ last_used_at e = now) /\
  num_slots s' = num_slots s /\ data_capacity s' = data_capacity s /\
  stat_hits s' = stat_hits s /\ stat_misses s' = stat_misses s /\
  (forall k e, k <> key ctx -> slots s' !! k = Some e -> slots s !! k = Some e).

Lemma fill_stored ctx tree datums now s s1 e found :
  wf s -> shrunk s s1 -> strlen (data e) = data_capacity s -> clean (query_text ctx) ->
  strlen (query_text ctx) + strlen tree + strlen datums + 3 <= data_capacity s ->
  (is_Some (slots s1 !! key ctx) \/ Z.of_nat (size (slots s1)) < num_slots s) ->
  exists e' s', antlr_batch_parse_cache_entry_fill version e found (query_text ctx) (strlen (query_text ctx))
      tree (strlen tree) datums (strlen datums) (ctx_sig ctx) (ctx_nDatums ctx) now = Some e' /\
    s' = count_write (with_slots s1 (<[key ctx := e']> (slots s1))) /\
    wf s' /\ stored ctx tree datums now s s'.
Proof.
  intros Hwf (Hn & Hd & Hh & Hm & Hsz & Hsub) He Hc Hfit Hroom.
  destruct (entry_fill_spec version e found (query_text ctx) tree datums (ctx_sig ctx) (ctx_nDatums ctx) now)
    as (e' & Hf & Hslot & Hlen & Hv & Hsig & Hnd & Hlu); [done|lia|].
  exists e', (count_write (with_slots s1 (<[key ctx := e']> (slots s1)))).
  split; [done|]. split; [done|]. split; [split; cbn|split; [|split_and!; try done]].
  - rewrite Hn. apply Hwf.
  - rewrite Hn. pose proof (wf_size s Hwf). destruct Hroom as [Hin|Hroom].
    + rewrite map_size_insert_Some by done. lia.
    + rewrite map_size_insert. case_match; cbn; lia.
  - rewrite Hd. intros k x [[<- <-]|[_ Hx]]%lookup_insert_Some.
    + split; [unfold strlen in *; lia|by eexists _, _, _].
    + by eapply (wf_entry s Hwf), Hsub.
  - exists e'. split; [apply lookup_insert_eq|done].
  - intros k x Hne. cbn. rewrite lookup_insert_ne by done. apply Hsub.
Qed.

Abbreviation put := (antlr_batch_parse_cache_put version qsort free_slot has_room).

(** A put stores the batch or leaves the table as it was, apart from evictions. *)
Lemma cache_put_spec min_kb max_kb ctx tree datums now s :
  wf s -> reserved s -> text_ok (query_text ctx) -> text_ok tree ->
  (forall d, datums = Some d -> text_ok d) ->
  exists b s', put min_kb max_kb ctx tree datums now s = Some (b, s') /\ wf s' /\
    (if b : bool then stored ctx tree (default [] datums) now s s' else shrunk s s') /\
    (fits s min_kb max_kb (query_text ctx) tree (default [] datums) ->
     (forall e text' tree' datums', slots s !! key ctx = Some e -> slot_of e text' tree' datums' ->
        text' = query_text ctx /\ param_sig e = ctx_sig ctx) -> b = true).
Proof.
  intros Hwf [Hfree Hroom] Htext Htree Hdatums.
  assert (Hdl : match datums with Some d => i32 (strlen d) | None => 0 end = strlen (default [] datums)).
  { destruct datums as [d|]; [|done]. cbn. apply text_len. eauto. }
  assert (Hrefl : shrunk s s) by (by repeat split).
  unfold antlr_batch_parse_cache_put. cbv zeta. rewrite Hdl, (text_len tree), (text_len (query_text ctx)) by done.
  destruct (antlr_batch_parse_cache_entry_size_ok _ _ _ _ _ _) eqn:Hfits; cbn [negb].
  2: { exists false, s. split_and!; try done. unfold fits. congruence. }
  pose proof (fits_capacity _ _ _ _ _ _ Hfits) as Hcap.
  destruct (slots s !! key ctx) as [e|] eqn:He.
  - destruct (wf_entry s Hwf _ _ He) as (Hlen & text & tr & da & Hslot).
    rewrite (matches_spec e text tr da) by (done || apply Htext).
    destruct (bool_decide (text = _ /\ _)) eqn:Hm; cbn [negb].
    + destruct (fill_stored ctx tree (default [] datums) now s s e true) as (e' & s' & -> & -> & Hwf' & Hst);
        [done|done|done|apply Htext|done|left; by eexists|].
      cbn [mbind option_bind]. eexists true, _. by split_and!.
    + apply bool_decide_eq_false in Hm. exists false, (count_error s). split_and!; try done.
      * destruct Hwf. by split.
      * intros _ Hall. destruct Hm. by eapply Hall.
  - destruct (slot_room s Hwf) as [Hshr Hlt]. set (s1 := if _ <=? _ then _ else s) in *.
    rewrite Hroom by done.
    destruct (fill_stored ctx tree (default [] datums) now s s1 free_slot false)
      as (e' & s' & -> & -> & Hwf' & Hst); [done|done|done|apply Htext|done|by right|].
    cbn [mbind option_bind]. eexists true, _. by split_and!.
Qed.
End qsort.
