(* ===== verification/ParseCacheParse.v ===== *)
(** * ParseCacheParse: parsing through the cache

    The third layer of [antlr_batch_parse_cache.c]: the key of a batch, the restore of a
    cached tree with its datums, the store after a fresh parse, and
    [antlr_batch_parse_cache_get_or_parse], which [pltsql_compile_inline] calls.  The
    ANTLR parser, the serializer that the build generates, the catalogue and the
    server's hash functions are parameters. *)
From stdpp Require Import base numbers list gmap sorting.
From S2P Require Import Prelude ParseCache ParseCacheProofs.

(** ** Batches, datums, compile state *)

Record InlineCodeBlockArgs := mk_args {
  numargs : nat;
  argtypes : option (list Z);
  argmodes : option (list Z);
  argnames : option (list (option bytes))
}.

(** [proc_source] in a database with its parameters. *)
Record batch := mk_batch { proc_source : bytes; db_id : Z; args : InlineCodeBlockArgs }.

(** A datum: a variable with its type and collation, a row, or another kind. *)
Inductive body (P : Type) :=
| PLTSQL_DTYPE_VAR (datatype : option (Z * Z)) (rest : P)
| PLTSQL_DTYPE_ROW (rest : P)
| PLTSQL_DTYPE_OTHER (rest : P).
Arguments PLTSQL_DTYPE_VAR {P}.
Arguments PLTSQL_DTYPE_ROW {P}.
Arguments PLTSQL_DTYPE_OTHER {P}.

Record datum (P : Type) := mk_datum { dno : Z; dbody : body P }.
Arguments mk_datum {P}.
Arguments dno {P}.
Arguments dbody {P}.

(** The compile state: [pltsql_parse_result] and [pltsql_Datums]. *)
Record compile (T P : Type) := mk_compile {
  pltsql_parse_result : option T;
  pltsql_Datums : list (datum P)
}.
Arguments mk_compile {T P}.
Arguments pltsql_parse_result {T P}.
Arguments pltsql_Datums {T P}.

Definition pltsql_nDatums {T P} (c : compile T P) : Z := Z.of_nat (length (pltsql_Datums c)).

Definition pltsql_adddatum {T P} (c : compile T P) (d : datum P) : compile T P :=
  mk_compile (pltsql_parse_result c)
    (pltsql_Datums c ++ [mk_datum (Z.of_nat (length (pltsql_Datums c))) (dbody d)]).

(** Session settings that steer the cache. *)
Record settings := mk_settings { min_entry_size : Z; max_entry_size : Z; validate : bool }.

Inductive raised := Raised.

Section parse.
Variable version : bytes.
Variable qsort : (Z * Entry -> Z * Entry -> Z) -> list (Z * Entry) -> list (Z * Entry).
Variable free_slot : Entry.
Variable has_room : nat -> bool.
(** The server's hash functions and type names. *)
Variable hash_any_extended : bytes -> Z.
Variable hash_combine64 : Z -> Z -> Z.
Variable format_type_extended : Z -> bytes.
(** What a session sees of the catalogue: namespaces of types and collations, and
    which are those of the system. *)
Context {Env : Type}.
Variable typnamespace collnamespace : Env -> Z -> option Z.
Variable is_namespace_sys_or_pg_catalog : Env -> Z -> bool.
(** The generated serializer of a tree (or NULL) and of lists; it may raise an error. *)
Context {T P : Type}.
Variable treeToString : option T -> result raised bytes.
Variable stringToTree : bytes -> result raised (option T).
Variable datumsToString : list (datum P) -> result raised bytes.
Variable stringToDatums : bytes -> result raised (list (option (datum P))).
(** The parser: the tree and the datums it adds, or failure. *)
Variable antlr_parser_cpp : Env -> batch -> Z -> option (T * list (body P)).

(** *** The key *)

Definition antlr_batch_parse_cache_hash_cstring (str : bytes) : Z := hash_any_extended str.

(** One round of the loop over the parameters. *)
Definition sig_round (a : InlineCodeBlockArgs) (sig : Z) (i : nat) : Z :=
  let typoid := match argtypes a with Some l => nth i l 0 | None => 0 end in
  let sig := if typoid =? 0 then hash_combine64 sig 0
             else hash_combine64 sig (antlr_batch_parse_cache_hash_cstring (format_type_extended typoid)) in
  let sig := hash_combine64 sig (match argmodes a with Some l => u8 (nth i l 0) | None => 105 end) in
  match argnames a with
  | Some l => match nth i l None with
              | Some name => hash_combine64 sig (antlr_batch_parse_cache_hash_cstring name)
              | None => hash_combine64 sig 0
              end
  | None => hash_combine64 sig 0
  end.

Definition compute_antlr_batch_parse_cache_param_sig (a : InlineCodeBlockArgs) : Z :=
  foldl (sig_round a) (u64 (Z.of_nat (numargs a))) (seq 0 (numargs a)).

Definition compute_antlr_batch_parse_cache_key (query_text : bytes) (db_id sig : Z) : Z :=
  let hash := hash_any_extended query_text in
  let hash := hash_combine64 hash (u64 db_id) in
  hash_combine64 hash sig.

Definition batch_sig (b : batch) : Z := compute_antlr_batch_parse_cache_param_sig (args b).
Definition batch_key (b : batch) : Z :=
  compute_antlr_batch_parse_cache_key (proc_source b) (db_id b) (batch_sig b).

(** *** Which datums may be shared *)

Definition antlr_batch_parse_cache_type_is_cacheable (env : Env) (dtype : option (Z * Z)) : bool :=
  match dtype with
  | None => false
  | Some (typoid, collation) =>
      match typnamespace env typoid with
      | None => false
      | Some nsp =>
          if negb (is_namespace_sys_or_pg_catalog env nsp) then false
          else if collation =? 0 then true
          else match collnamespace env collation with
               | None => false
               | Some nsp => is_namespace_sys_or_pg_catalog env nsp
               end
      end
  end.

Definition antlr_batch_parse_cache_datum_is_cacheable (env : Env) (d : datum P) : bool :=
  match dbody d with
  | PLTSQL_DTYPE_VAR datatype _ => antlr_batch_parse_cache_type_is_cacheable env datatype
  | PLTSQL_DTYPE_ROW _ => true
  | PLTSQL_DTYPE_OTHER _ => false
  end.

(** *** Restoring *)

Definition antlr_batch_parse_cache_restore_tree (tree_str : bytes) (s : SharedState)
    : option T * SharedState :=
  match stringToTree tree_str with
  | Ok tree => (tree, s)
  | Err Raised => (None, count_error s)
  end.

(** The numbers of restored datums continue those of the session. *)
Fixpoint check_dnos (expected_dno : Z) (l : list (option (datum P))) : option (list (datum P)) :=
  match l with
  | [] => Some []
  | None :: _ => None
  | Some d :: l =>
      if dno d =? expected_dno then (d ::.) <$> check_dnos (expected_dno + 1) l else None
  end.

Definition antlr_batch_parse_cache_restore_datums (datums_str : bytes) (c : compile T P) (s : SharedState)
    : option (compile T P) * SharedState :=
  let '(datum_list, s) := match stringToDatums datums_str with
                          | Ok l => (l, s)
                          | Err Raised => ([], count_error s)
                          end in
  match datum_list with
  | [] => (None, s)
  | _ => (foldl pltsql_adddatum c <$> check_dnos (pltsql_nDatums c) datum_list, s)
  end.

(** *** Fresh parses *)

(** 0: success, 1: invalid input. *)
Definition antlr_batch_parse_cache_antlr_parse (env : Env) (b : batch) (c : compile T P) : Z * compile T P :=
  match antlr_parser_cpp env b (pltsql_nDatums c) with
  | Some (tree, bodies) =>
      (0, foldl pltsql_adddatum (mk_compile (Some tree) (pltsql_Datums c)) (mk_datum 0 <$> bodies))
  | None => (1, c)
  end.

(** Debug mode: the batch is parsed again and compared, then the cached state is put
    back. *)
Definition antlr_batch_parse_cache_validate_hit (env : Env) (b : batch) (pre : Z) (cached_tree : T)
    (c : compile T P) : compile T P :=
  let saved := drop (Z.to_nat pre) (pltsql_Datums c) in
  let rewound := mk_compile (pltsql_parse_result c) (take (Z.to_nat pre) (pltsql_Datums c)) in
  let fresh := (antlr_batch_parse_cache_antlr_parse env b rewound).2 in
  foldl pltsql_adddatum (mk_compile (Some cached_tree) (take (Z.to_nat pre) (pltsql_Datums fresh))) saved.

Definition antlr_batch_parse_cache_read (g : settings) (env : Env) (b : batch) (ctx : Ctx) (now : Z)
    (c : compile T P) (s : SharedState) : option (bool * compile T P * SharedState) :=
  '(cached, s) ← antlr_batch_parse_cache_get version ctx now s;
  match cached with
  | None => Some (false, c, s)
  | Some cached =>
      let '(tree, s) := antlr_batch_parse_cache_restore_tree (parse_tree cached) s in
      let '(restored, s) :=
        match tree, parse_datums cached with
        | Some tree, Some datums =>
            let '(c, s) := antlr_batch_parse_cache_restore_datums datums c s in
            ((fun c => (tree, c)) <$> c, s)
        | Some tree, None => (Some (tree, c), s)
        | None, _ => (None, s)
        end in
      match restored with
      | None => Some (false, c, count_miss s)
      | Some (tree, c) =>
          let c := mk_compile (Some tree) (pltsql_Datums c) in
          let c := if validate g then antlr_batch_parse_cache_validate_hit env b (ctx_nDatums ctx) tree c
                   else c in
          Some (true, c, count_hit s)
      end
  end.

(** *** Storing *)

(** The text of the datums of the parse, and whether they may be shared. *)
Definition antlr_batch_parse_cache_serialize_datums (env : Env) (pre : Z) (c : compile T P)
    : result raised (option bytes * bool) :=
  let datum_list := drop (Z.to_nat pre) (pltsql_Datums c) in
  if forallb (antlr_batch_parse_cache_datum_is_cacheable env) datum_list then
    match datum_list with
    | [] => Ok (None, true)
    | _ => let! s := datumsToString datum_list in Ok (Some s, true)
    end
  else Ok (None, false).

(** In a subtransaction; an error only means that nothing is stored. *)
Definition antlr_batch_parse_cache_write (g : settings) (env : Env) (ctx : Ctx) (now : Z) (c : compile T P)
    (s : SharedState) : option SharedState :=
  match antlr_batch_parse_cache_serialize_datums env (ctx_nDatums ctx) c with
  | Ok (datums_str, true) =>
      match treeToString (pltsql_parse_result c) with
      | Ok tree_str =>
          snd <$> antlr_batch_parse_cache_put version qsort free_slot has_room (min_entry_size g)
                    (max_entry_size g) ctx tree_str datums_str now s
      | Err Raised => Some (count_error s)
      end
  | Ok (_, false) => Some s
  | Err Raised => Some (count_error s)
  end.

Definition antlr_batch_parse_cache_get_or_parse (g : settings) (env : Env) (b : batch) (now now' : Z)
    (c : compile T P) (s : SharedState) : option (Z * compile T P * SharedState) :=
  let ctx := mk_ctx (proc_source b) (batch_key b) (batch_sig b) (pltsql_nDatums c) in
  '(hit, c, s) ← antlr_batch_parse_cache_read g env b ctx now c s;
  if hit : bool then Some (0, c, s)
  else
    let '(parse_rc, c) := antlr_batch_parse_cache_antlr_parse env b c in
    if parse_rc =? 0 then
      s ← antlr_batch_parse_cache_write g env ctx now' c s;
      Some (parse_rc, c, s)
    else Some (parse_rc, c, s).

(** ** Histories *)

(** A batch compiled by some session, or a flush by a sysadmin. *)
Inductive request :=
| Compile (g : settings) (env : Env) (b : batch) (now now' : Z) (c : compile T P)
| Flush.

Definition serve_one (r : request) (s : SharedState) : option (option (Z * compile T P) * SharedState) :=
  match r with
  | Compile g env b now now' c =>
      '(rc, c, s) ← antlr_batch_parse_cache_get_or_parse g env b now now' c s; Some (Some (rc, c), s)
  | Flush => Some (None, (antlr_batch_parse_cache_flush s).2)
  end.

Fixpoint serve (rs : list request) (s : SharedState) : option (list (option (Z * compile T P)) * SharedState) :=
  match rs with
  | [] => Some ([], s)
  | r :: rs =>
      '(x, s) ← serve_one r s;
      '(xs, s) ← serve rs s;
      Some (x :: xs, s)
  end.

(** The same requests without a cache. *)
Definition direct (r : request) : option (Z * compile T P) :=
  match r with
  | Compile _ env b _ _ c => Some (antlr_batch_parse_cache_antlr_parse env b c)
  | Flush => None
  end.
End parse.
