(* ===== verification/ParseCacheTheorems.v ===== *)
(** * ParseCacheTheorems: parsing through the cache gives the parse some session made of the batch *)
From stdpp Require Import base numbers list gmap sorting.
From S2P Require Import Prelude ParseCache ParseCacheProofs ParseCacheParse.

(** The datums of a parse, numbered from [n]. *)
Fixpoint numbered {P} (n : Z) (bodies : list (body P)) : list (datum P) :=
  match bodies with [] => [] | b :: bodies => mk_datum n b :: numbered (n + 1) bodies end.

Lemma adddatums {T P} (c : compile T P) (l : list (datum P)) :
  foldl pltsql_adddatum c l =
  mk_compile (pltsql_parse_result c) (pltsql_Datums c ++ numbered (pltsql_nDatums c) (dbody <$> l)).
Proof.
  revert c. induction l as [|d l IH]; intros c; cbn [foldl fmap list_fmap numbered].
  - rewrite app_nil_r. by destruct c.
  - rewrite IH. cbn [pltsql_adddatum pltsql_parse_result pltsql_Datums]. f_equal. rewrite <- app_assoc. cbn.
    do 3 f_equal. unfold pltsql_nDatums. cbn. rewrite length_app. cbn. lia.
Qed.

Lemma dbody_numbered {P} n (bodies : list (body P)) : dbody <$> numbered n bodies = bodies.
Proof. revert n. induction bodies as [|b l IH]; intros n; cbn; [done|]. by rewrite IH. Qed.

Lemma dbody_fresh {P} (bodies : list (body P)) : dbody <$> (mk_datum 0 <$> bodies) = bodies.
Proof. induction bodies as [|b l IH]; cbn; [done|]. by rewrite IH. Qed.

Lemma check_dnos_numbered {P} n (bodies : list (body P)) :
  check_dnos n (Some <$> numbered n bodies) = Some (numbered n bodies).
Proof.
  revert n. induction bodies as [|b l IH]; intros n; cbn [numbered fmap list_fmap check_dnos]; [done|].
  cbn [dno]. by rewrite Z.eqb_refl, IH.
Qed.

(** Entries know what they hold. *)
Lemma slot_of_inj e t1 tr1 d1 t2 tr2 d2 :
  slot_of e t1 tr1 d1 -> slot_of e t2 tr2 d2 -> t1 = t2 /\ tr1 = tr2 /\ d1 = d2.
Proof.
  intros (Ht1 & Htr1 & Hd1 & _ & r1 & He1) (Ht2 & Htr2 & Hd2 & _ & r2 & He2).
  rewrite He1 in He2. unfold strlen in *. apply app_inj_1 in He2 as [-> He2]; [|lia].
  injection He2 as He2. apply app_inj_1 in He2 as [-> He2]; [|lia].
  injection He2 as He2. apply app_inj_1 in He2 as [-> _]; [|lia]. done.
Qed.

Section theorems.
Variable version : bytes.
Variable qsort : (Z * Entry -> Z * Entry -> Z) -> list (Z * Entry) -> list (Z * Entry).
Variable free_slot : Entry.
Variable has_room : nat -> bool.
Variable hash_any_extended : bytes -> Z.
Variable hash_combine64 : Z -> Z -> Z.
Variable format_type_extended : Z -> bytes.
Context {Env : Type}.
Variable typnamespace collnamespace : Env -> Z -> option Z.
Variable is_namespace_sys_or_pg_catalog : Env -> Z -> bool.
Context {T P : Type}.
Variable treeToString : option T -> result raised bytes.
Variable stringToTree : bytes -> result raised (option T).
Variable datumsToString : list (datum P) -> result raised bytes.
Variable stringToDatums : bytes -> result raised (list (option (datum P))).
Variable antlr_parser_cpp : Env -> batch -> Z -> option (T * list (body P)).

(** The version fits its field; [qsort] permutes. *)
Hypothesis version_short : (length version < 32)%nat.
Hypothesis version_clean : clean version.
Hypothesis qsort_perm : forall cmp l, qsort cmp l ≡ₚ l.
(** What the text form brings back of a tree and of a datum, for what the parser makes. *)
Variable tree_back : T -> T.
Variable body_back : body P -> body P.
Variable tree_ok : T -> Prop.
Variable body_ok : body P -> Prop.
Hypothesis parser_shape : forall env b n t bodies,
  antlr_parser_cpp env b n = Some (t, bodies) -> tree_ok t /\ Forall body_ok bodies.
(** Texts of the serializer are C strings of palloc'd size and are read. *)
Hypothesis tree_text : forall t s, treeToString t = Ok s -> text_ok s /\ s <> [].
Hypothesis datums_text : forall l s, datumsToString l = Ok s -> text_ok s /\ s <> [].
Hypothesis tree_read : forall t s, tree_ok t -> treeToString (Some t) = Ok s ->
  stringToTree s = Ok (Some (tree_back t)).
Hypothesis datums_read : forall n bodies s, Forall body_ok bodies -> datumsToString (numbered n bodies) = Ok s ->
  stringToDatums s = Ok (Some <$> numbered n (body_back <$> bodies)).

Abbreviation batch_key := (batch_key hash_any_extended hash_combine64 format_type_extended).
Abbreviation batch_sig := (batch_sig hash_any_extended hash_combine64 format_type_extended).
Abbreviation cacheable := (antlr_batch_parse_cache_datum_is_cacheable typnamespace collnamespace
  is_namespace_sys_or_pg_catalog).
Abbreviation get_or_parse := (antlr_batch_parse_cache_get_or_parse version qsort free_slot has_room
  hash_any_extended hash_combine64 format_type_extended typnamespace collnamespace
  is_namespace_sys_or_pg_catalog treeToString stringToTree datumsToString stringToDatums antlr_parser_cpp).
Abbreviation antlr_parse := (antlr_batch_parse_cache_antlr_parse antlr_parser_cpp).
Abbreviation serve := (serve version qsort free_slot has_room hash_any_extended hash_combine64
  format_type_extended typnamespace collnamespace is_namespace_sys_or_pg_catalog treeToString stringToTree
  datumsToString stringToDatums antlr_parser_cpp).
Abbreviation serve_one := (serve_one version qsort free_slot has_room hash_any_extended hash_combine64
  format_type_extended typnamespace collnamespace is_namespace_sys_or_pg_catalog treeToString stringToTree
  datumsToString stringToDatums antlr_parser_cpp).

(** *** Freshness *)

Definition ctx_of (b : batch) (n : Z) : Ctx := mk_ctx (proc_source b) (batch_key b) (batch_sig b) n.

(** An entry is the serialized parse of a batch, in the session [env] that wrote it. *)
Definition parsed_from (env : Env) (b : batch) (k : Z) (e : Entry) (tree datums : bytes) : Prop :=
  exists t bodies, k = batch_key b /\ param_sig e = batch_sig b /\
    antlr_parser_cpp env b (pre_cache_nDatums e) = Some (t, bodies) /\
    forallb (cacheable env) (numbered (pre_cache_nDatums e) bodies) = true /\
    treeToString (Some t) = Ok tree /\
    match bodies with
    | [] => datums = []
    | _ => datumsToString (numbered (pre_cache_nDatums e) bodies) = Ok datums
    end.

(** Every entry was parsed by one of the earlier compilations. *)
Definition fresh (earlier : list (Env * batch)) (s : SharedState) : Prop :=
  forall k e text tree datums, slots s !! k = Some e -> slot_of e text tree datums ->
    exists env b, (env, b) ∈ earlier /\ proc_source b = text /\ parsed_from env b k e tree datums.

Lemma fresh_more earlier x s : fresh earlier s -> fresh (x :: earlier) s.
Proof. intros Hf k e text tree datums He Hs. destruct (Hf k e text tree datums He Hs) as (env & b & Hb & ?). exists env, b. split; [by right|done]. Qed.

(** No two of the batches have the same text, signature and key. *)
Definition collision_free (known : list batch) : Prop :=
  forall b b', b ∈ known -> b' ∈ known -> proc_source b = proc_source b' ->
    batch_sig b = batch_sig b' -> batch_key b = batch_key b' -> b = b'.

Lemma antlr_parse_some env b c t bodies :
  antlr_parser_cpp env b (pltsql_nDatums c) = Some (t, bodies) ->
  antlr_parse env b c =
  (0, mk_compile (Some t) (pltsql_Datums c ++ numbered (pltsql_nDatums c) bodies)).
Proof.
  intros Hp. unfold antlr_batch_parse_cache_antlr_parse. rewrite Hp, adddatums, dbody_fresh. done.
Qed.

(** The parse as the text form brings it back. *)
Definition through_text (env : Env) (b : batch) (c : compile T P) : Z * compile T P :=
  match antlr_parser_cpp env b (pltsql_nDatums c) with
  | Some (t, bodies) =>
      (0, mk_compile (Some (tree_back t))
            (pltsql_Datums c ++ numbered (pltsql_nDatums c) (body_back <$> bodies)))
  | None => (1, c)
  end.

(** Debug mode leaves the restored state alone. *)
Lemma validate_same env b t (ds : list (datum P)) bodies :
  let n := Z.of_nat (length ds) in
  let c := mk_compile (Some t) (ds ++ numbered n bodies) in
  antlr_batch_parse_cache_validate_hit antlr_parser_cpp env b n t c = c.
Proof.
  cbv zeta. unfold antlr_batch_parse_cache_validate_hit. cbv zeta. cbn [pltsql_Datums].
  rewrite Nat2Z.id, take_app_length, drop_app_length.
  assert (Htake : take (length ds) (pltsql_Datums (antlr_parse env b (mk_compile (Some t) ds)).2) = ds).
  { unfold antlr_batch_parse_cache_antlr_parse.
    destruct (antlr_parser_cpp _ _ _) as [[t' bodies']|]; cbn [snd pltsql_Datums].
    - rewrite adddatums. cbn. by rewrite take_app_length.
    - by apply take_ge. }
  cbn [pltsql_parse_result]. rewrite Htake, adddatums, dbody_numbered. done.
Qed.

(** *** Reading *)

Lemma fresh_touch earlier s k e now :
  fresh earlier s -> slots s !! k = Some e ->
  fresh earlier (with_slots s (<[k := antlr_batch_parse_cache_entry_touch e now]> (slots s))).
Proof.
  intros Hf He k' e' text tree datums. cbn [slots with_slots].
  intros [[<- <-]|[_ He']]%lookup_insert_Some; [exact (Hf k e text tree datums He)|by apply Hf].
Qed.

(** Restoring the text of a parse. *)
Lemma restore_parsed b k e tree datums n (c : compile T P) s env :
  parsed_from env b k e tree datums -> pre_cache_nDatums e = n -> n = pltsql_nDatums c ->
  exists t bodies, through_text env b c = (0, mk_compile (Some t) (pltsql_Datums c ++ numbered n bodies)) /\
    antlr_batch_parse_cache_restore_tree stringToTree tree s = (Some t, s) /\
    (if decide (datums = []) then bodies = []
     else antlr_batch_parse_cache_restore_datums stringToDatums datums c s =
          (Some (mk_compile (pltsql_parse_result c) (pltsql_Datums c ++ numbered n bodies)), s)).
Proof.
  intros (t & bodies & _ & _ & Hp & _ & Ht & Hd) Hn Hnc. rewrite Hn in Hp, Hd.
  destruct (parser_shape _ _ _ _ _ Hp) as [Htree Hbodies].
  exists (tree_back t), (body_back <$> bodies). split_and!.
  - unfold through_text. by rewrite <- Hnc, Hp.
  - unfold antlr_batch_parse_cache_restore_tree. by rewrite (tree_read _ _ Htree Ht).
  - destruct bodies as [|b0 bodies]; [by rewrite decide_True|].
    destruct (datums_text _ _ Hd) as [_ Hne]. rewrite decide_False by done.
    unfold antlr_batch_parse_cache_restore_datums. rewrite (datums_read _ _ _ Hbodies Hd). rewrite <- Hnc.
    destruct (body_back <$> b0 :: bodies) as [|x l] eqn:El; [done|].
    rewrite check_dnos_numbered. cbn [fmap list_fmap numbered option_fmap option_map].
    change (mk_datum n x :: numbered (n + 1) l) with (numbered n (x :: l)).
    rewrite adddatums, dbody_numbered, <- Hnc. done.
Qed.

Definition same_limits (s s' : SharedState) : Prop :=
  num_slots s' = num_slots s /\ data_capacity s' = data_capacity s.

Lemma reserved_limits s s' : same_limits s s' -> reserved free_slot has_room s -> reserved free_slot has_room s'.
Proof. intros [H1 H2] [Hf Hr]. split; [congruence|]. by rewrite H1. Qed.

Lemma wf_count s s' : slots s' = slots s -> same_limits s s' -> wf s -> wf s'.
Proof. intros Hs [H1 H2] [Ha Hb Hc]. split; rewrite ?Hs, ?H1, ?H2; done. Qed.

Lemma fresh_slots earlier s s' : slots s' = slots s -> fresh earlier s -> fresh earlier s'.
Proof. unfold fresh. intros ->. done. Qed.

Abbreviation read := (antlr_batch_parse_cache_read version stringToTree stringToDatums antlr_parser_cpp).

(** The entry determines what the text form brings back. *)
Lemma parsed_same b k e tree datums (c : compile T P) env env' :
  parsed_from env b k e tree datums -> parsed_from env' b k e tree datums ->
  pre_cache_nDatums e = pltsql_nDatums c -> through_text env b c = through_text env' b c.
Proof.
  intros H H' Hn. set (s := mk_state ∅ 0 0 0 0 0 0 0).
  destruct (restore_parsed b k e tree datums _ c s env H Hn eq_refl) as (t & bodies & -> & Ht & Hd).
  destruct (restore_parsed b k e tree datums _ c s env' H' Hn eq_refl) as (t' & bodies' & -> & Ht' & Hd').
  rewrite Ht in Ht'. injection Ht' as ->. destruct (decide (datums = [])).
  - by rewrite Hd, Hd'.
  - rewrite Hd in Hd'. injection Hd' as Heq%app_inv_head. by rewrite Heq.
Qed.

(** The session [env] parsed the batch to datums that may be shared. *)
Definition shareable (env : Env) (b : batch) (n : Z) : Prop :=
  exists t bodies, antlr_parser_cpp env b n = Some (t, bodies) /\ forallb (cacheable env) (numbered n bodies) = true.

(** The text form of the parse that one of the earlier compilations made of the batch. *)
Definition shared_answer (earlier : list (Env * batch)) (b : batch) (c : compile T P) (x : Z * compile T P) : Prop :=
  exists env0, (env0, b) ∈ earlier /\ shareable env0 b (pltsql_nDatums c) /\ x = through_text env0 b c.

(** A read gives the parse of the session that wrote the entry, or changes nothing. *)
Lemma read_spec hist earlier g env b now c s :
  wf s -> fresh earlier s -> collision_free hist -> (forall x, x ∈ earlier -> x.2 ∈ hist) -> b ∈ hist ->
  text_ok (proc_source b) ->
  exists hit c' s', read g env b (ctx_of b (pltsql_nDatums c)) now c s = Some (hit, c', s') /\
    wf s' /\ fresh earlier s' /\ same_limits s s' /\
    (forall e tree datums, slots s !! batch_key b = Some e ->
       serves version (ctx_of b (pltsql_nDatums c)) e tree datums ->
       hit = true /\ forall env0, parsed_from env0 b (batch_key b) e tree datums -> (0, c') = through_text env0 b c) /\
    (if hit : bool then shared_answer earlier b c (0, c') /\ stat_hits s' = u64 (stat_hits s + 1) /\
                        stat_misses s' = stat_misses s
     else c' = c /\ stat_hits s' = stat_hits s /\ stat_misses s' = u64 (stat_misses s + 1)).
Proof.
  intros Hwf Hf Hcf Hhist Hb Htext. unfold antlr_batch_parse_cache_read.
  destruct (get_spec version (ctx_of b (pltsql_nDatums c)) now s Hwf Htext)
    as [(e & tree & datums & He & Hs & ->)|[Hno ->]].
  - destruct Hs as (Hslot & Hsig & Hn & _ & _). cbn in He, Hslot, Hsig, Hn.
    destruct (Hf _ _ _ _ _ He Hslot) as (env0 & b' & Hb' & Ht & Hparsed).
    assert (b' = b) as ->.
    { destruct Hparsed as (_ & _ & Hk & Hsg & _). apply Hcf; try done; [by apply (Hhist _ Hb')|congruence]. }
    set (s1 := with_slots s _).
    assert (Hwf1 : wf s1) by (by apply wf_touch). assert (Hf1 : fresh earlier s1) by (by apply fresh_touch).
    assert (Hall : forall e1 tree1 datums1 c', (0, c') = through_text env0 b c -> slots s !! batch_key b = Some e1 ->
      serves version (ctx_of b (pltsql_nDatums c)) e1 tree1 datums1 -> true = true /\
      forall env1, parsed_from env1 b (batch_key b) e1 tree1 datums1 -> (0, c') = through_text env1 b c).
    { intros e1 tree1 datums1 c' -> He1 (Hslot1 & _). split; [done|]. intros env1 Hp1.
      assert (e1 = e) as -> by congruence. cbn in Hslot1.
      destruct (slot_of_inj _ _ _ _ _ _ _ Hslot Hslot1) as (_ & <- & <-). by eapply parsed_same. }
    assert (Hshare : forall c', (0, c') = through_text env0 b c -> shared_answer earlier b c (0, c')).
    { intros c' Hc. exists env0. split_and!; [done| |done]. destruct Hparsed as (t & bodies & _ & _ & Hp & Hc' & _).
      exists t, bodies. by rewrite <- Hn. }
    destruct (restore_parsed b _ e tree datums _ c s1 env0 Hparsed Hn eq_refl) as (t & bodies & Hp & Htree & Hd).
    cbn [mbind option_bind parse_tree parse_datums]. rewrite Htree.
    assert (Hv : forall c', c' = mk_compile (Some t) (pltsql_Datums c ++ numbered (pltsql_nDatums c) bodies) ->
      (if validate g then antlr_batch_parse_cache_validate_hit antlr_parser_cpp env b (pltsql_nDatums c) t c'
       else c') = c') by (intros c' ->; destruct (validate g); [apply validate_same|done]).
    destruct (decide (datums = [])) as [->|Hne].
    + subst bodies. cbn [pltsql_Datums fmap option_fmap option_map].
      eexists true, (mk_compile (Some t) (pltsql_Datums c)), (count_hit s1).
      split; [by rewrite Hv; [|rewrite app_nil_r]|]. cbn [numbered] in Hp. rewrite app_nil_r in Hp.
      split_and!; try done; [by apply (wf_count s1)|by intros; eapply Hall|by apply Hshare].
    + rewrite Hd. cbn [fmap option_fmap option_map pltsql_Datums].
      eexists true, _, (count_hit s1). split; [by rewrite Hv|].
      split_and!; try done; [by apply (wf_count s1)|by intros; eapply Hall|by apply Hshare].
  - eexists false, c, (count_miss s). split; [done|]. split_and!; try done; [by apply (wf_count s)|].
    intros e tree datums He Hs. by destruct (Hno e tree datums He).
Qed.

(** *** Writing *)

Abbreviation write := (antlr_batch_parse_cache_write version qsort free_slot has_room typnamespace
  collnamespace is_namespace_sys_or_pg_catalog treeToString datumsToString).
Abbreviation stored := (stored version).

Definition same_counts (s s' : SharedState) : Prop :=
  stat_hits s' = stat_hits s /\ stat_misses s' = stat_misses s.

Lemma fresh_shrunk earlier s s' : shrunk s s' -> fresh earlier s -> fresh earlier s'.
Proof.
  intros (_ & _ & _ & _ & _ & Hsub) Hf k e text tree datums He. apply Hf. by apply Hsub.
Qed.

Lemma fresh_stored earlier env b n tree datums now s s' :
  stored (ctx_of b n) tree datums now s s' -> fresh earlier s ->
  (forall e, param_sig e = batch_sig b -> pre_cache_nDatums e = n -> parsed_from env b (batch_key b) e tree datums) ->
  fresh ((env, b) :: earlier) s'.
Proof.
  intros ((e0 & He0 & Hslot & Hsig & Hn & _) & _ & _ & _ & _ & Hold) Hf Hparsed k e text tree' datums' He Hs.
  cbn in He0, Hslot, Hsig, Hn. destruct (decide (k = batch_key b)) as [->|Hne].
  - rewrite He0 in He. injection He as <-. destruct (slot_of_inj _ _ _ _ _ _ _ Hslot Hs) as (<- & <- & <-).
    exists env, b. split_and!; auto. by left.
  - eapply fresh_more; [exact Hf|by apply Hold|done].
Qed.

(** The batch is not in the cache, its parse may be shared and fits. *)
Definition storable (g : settings) (env : Env) (b : batch) (n : Z) (t : T) (bodies : list (body P))
    (s : SharedState) (tree d : bytes) : Prop :=
  slots s !! batch_key b = None /\ forallb (cacheable env) (numbered n bodies) = true /\
  treeToString (Some t) = Ok tree /\
  match bodies with [] => d = [] | _ => datumsToString (numbered n bodies) = Ok d end /\
  fits s (min_entry_size g) (max_entry_size g) (proc_source b) tree d.

Lemma write_spec earlier g env b n now t bodies (ds : list (datum P)) s :
  wf s -> reserved free_slot has_room s -> fresh earlier s -> text_ok (proc_source b) ->
  n = Z.of_nat (length ds) -> antlr_parser_cpp env b n = Some (t, bodies) ->
  exists s', write g env (ctx_of b n) now (mk_compile (Some t) (ds ++ numbered n bodies)) s = Some s' /\
    wf s' /\ fresh ((env, b) :: earlier) s' /\ same_limits s s' /\ same_counts s s' /\
    (forall tree d, storable g env b n t bodies s tree d -> stored (ctx_of b n) tree d now s s').
Proof.
  intros Hwf Hres Hf Htext Hn Hp. unfold antlr_batch_parse_cache_write, antlr_batch_parse_cache_serialize_datums.
  cbn [ctx_nDatums ctx_of pltsql_Datums pltsql_parse_result]. rewrite Hn, Nat2Z.id, drop_app_length, <- Hn.
  assert (Herr : (forall tree d, ~ storable g env b n t bodies s tree d) ->
            exists s', Some (count_error s) = Some s' /\ wf s' /\ fresh ((env, b) :: earlier) s' /\ same_limits s s' /\
            same_counts s s' /\
            (forall tree d, storable g env b n t bodies s tree d -> stored (ctx_of b n) tree d now s s')).
  { intros Hno. eexists. split; [done|]. split_and!; try done; [by apply (wf_count s)|by apply fresh_more|].
    intros tree d Hs. by destruct (Hno tree d). }
  destruct (forallb _ _) eqn:Hcache.
  2: { exists s. split_and!; try done; [by apply fresh_more|]. intros tree d (_ & Hc & _). congruence. }
  assert (Hput : forall datums d, (forall x, datums = Some x -> text_ok x) -> d = default [] datums ->
      match bodies with [] => d = [] | _ => datumsToString (numbered n bodies) = Ok d end ->
      exists s', match treeToString (Some t) with
        | Ok tree_str => snd <$> antlr_batch_parse_cache_put version qsort free_slot has_room
            (min_entry_size g) (max_entry_size g) (ctx_of b n) tree_str datums now s
        | Err Raised => Some (count_error s) end = Some s' /\
        wf s' /\ fresh ((env, b) :: earlier) s' /\ same_limits s s' /\ same_counts s s' /\
        (forall tree d, storable g env b n t bodies s tree d -> stored (ctx_of b n) tree d now s s')).
  { intros datums d Hd -> Hb0. destruct (treeToString (Some t)) as [tree|[]] eqn:Ht.
    2: { apply Herr. intros tree d (_ & _ & ? & _). congruence. }
    destruct (cache_put_spec qsort qsort_perm version free_slot has_room (min_entry_size g) (max_entry_size g)
      (ctx_of b n) tree datums now s Hwf Hres Htext (proj1 (tree_text _ _ Ht)) Hd)
      as (ok & s' & -> & Hwf' & Hok & Htrue).
    exists s'. split; [done|]. split; [done|].
    assert (Hst : forall tree d, storable g env b n t bodies s tree d -> stored (ctx_of b n) tree d now s s').
    { intros tree' d (Hnone & _ & Ht' & Hd' & Hfits). assert (tree' = tree) as -> by congruence.
      assert (d = default [] datums) as -> by (destruct bodies; congruence).
      rewrite Htrue in Hok; [done|done|]. cbn. intros e. by rewrite Hnone. }
    destruct ok.
    - split_and!; try (by destruct Hok as (_ & ? & ? & ? & ? & _)).
      eapply fresh_stored; [done|done|]. intros e Hsig Hpre. exists t, bodies. by rewrite Hpre.
    - split_and!; try (by destruct Hok as (? & ? & ? & ? & _)). by eapply fresh_more, fresh_shrunk. }
  destruct bodies as [|b0 bodies]; [by apply (Hput None [])|]. cbn [numbered].
  change (mk_datum n b0 :: numbered (n + 1) bodies) with (numbered n (b0 :: bodies)).
  destruct (datumsToString _) as [d|[]] eqn:Hd.
  - cbn [rbind]. apply (Hput (Some d) d); [|done|done]. intros x [= <-]. by eapply datums_text.
  - apply Herr. intros tree d (_ & _ & _ & ? & _). congruence.
Qed.

(** *** One batch *)

Lemma get_or_parse_spec hist earlier g env b now now' c s :
  wf s -> reserved free_slot has_room s -> fresh earlier s -> collision_free hist ->
  (forall x, x ∈ earlier -> x.2 ∈ hist) -> b ∈ hist -> text_ok (proc_source b) ->
  exists x s', get_or_parse g env b now now' c s = Some (x, s') /\
    (x = antlr_parse env b c \/ shared_answer earlier b c x) /\
    (slots s !! batch_key b = None -> x = antlr_parse env b c) /\
    wf s' /\ fresh ((env, b) :: earlier) s' /\ same_limits s s' /\
    ((stat_hits s' = u64 (stat_hits s + 1) /\ stat_misses s' = stat_misses s) \/
     (stat_hits s' = stat_hits s /\ stat_misses s' = u64 (stat_misses s + 1))) /\
    (forall e tree datums, slots s !! batch_key b = Some e ->
       serves version (ctx_of b (pltsql_nDatums c)) e tree datums ->
       stat_hits s' = u64 (stat_hits s + 1) /\
       forall env0, parsed_from env0 b (batch_key b) e tree datums -> x = through_text env0 b c) /\
    (forall t bodies tree d, antlr_parser_cpp env b (pltsql_nDatums c) = Some (t, bodies) ->
       storable g env b (pltsql_nDatums c) t bodies s tree d ->
       exists e, slots s' !! batch_key b = Some e /\ serves version (ctx_of b (pltsql_nDatums c)) e tree d /\
         parsed_from env b (batch_key b) e tree d).
Proof.
  intros Hwf Hres Hf Hcf Hhist Hb Htext. unfold antlr_batch_parse_cache_get_or_parse. cbv zeta.
  fold (ctx_of b (pltsql_nDatums c)).
  destruct (read_spec hist earlier g env b now c s Hwf Hf Hcf Hhist Hb Htext)
    as (hit & c' & s1 & Hread & Hwf1 & Hf1 & Hl1 & Hserved & Hhit). rewrite Hread.
  cbn [mbind option_bind]. destruct hit.
  - destruct Hhit as (Hans & Hh & Hm).
    assert (Hsome : slots s !! batch_key b <> None).
    { intros Hnone. revert Hread. unfold antlr_batch_parse_cache_read, antlr_batch_parse_cache_get.
      cbn [key ctx_of]. by rewrite Hnone. }
    exists (0, c'), s1. split_and!; auto; [done|by apply fresh_more| |].
    + intros e tree datums He Hs. split; [done|]. by destruct (Hserved e tree datums He Hs).
    + intros t bodies tree d _ (Hnone & _). done.
  - destruct Hhit as (-> & Hh & Hm).
    assert (Hno : forall e tree datums, slots s !! batch_key b = Some e ->
        serves version (ctx_of b (pltsql_nDatums c)) e tree datums -> False)
      by (intros e tree datums He Hs; by destruct (Hserved e tree datums He Hs)).
    destruct (antlr_parser_cpp env b (pltsql_nDatums c)) as [[t bodies]|] eqn:Hp.
    + rewrite (antlr_parse_some _ _ _ _ _ Hp). cbn [Z.eqb].
      destruct (write_spec earlier g env b (pltsql_nDatums c) now' t bodies (pltsql_Datums c) s1)
        as (s2 & -> & Hwf2 & Hf2 & Hl2 & [Hc2 Hc3] & Hst); [done|by eapply reserved_limits|done|done|done|done|].
      eexists _, s2. cbn [mbind option_bind]. split; [done|]. split_and!; [by left|done|done|done| | | |].
      * destruct Hl1, Hl2. split; congruence.
      * right. split; congruence.
      * intros e tree datums He Hs. by destruct (Hno e tree datums).
      * intros t' bodies' tree d [= <- <-] Hstore.
        assert (Hstore1 : storable g env b (pltsql_nDatums c) t bodies s1 tree d).
        { assert (s1 = count_miss s) as ->; [|exact Hstore].
          revert Hread. unfold antlr_batch_parse_cache_read, antlr_batch_parse_cache_get. cbn [key ctx_of].
          destruct Hstore as [-> _]. cbn. congruence. }
        destruct (Hst _ _ Hstore1) as ((e & He & Hslot & Hsig & Hpre & Hver & _) & _).
        exists e. split; [done|]. split.
        -- split_and!; try done; [rewrite Hver; by apply version_stored|].
           destruct Hstore as (_ & _ & Ht & _). by eapply tree_text.
        -- destruct Hstore as (_ & Hc & Ht & Hd & _). cbn in Hpre, Hsig. exists t, bodies. by rewrite Hpre.
    + unfold antlr_batch_parse_cache_antlr_parse. rewrite Hp. cbn. eexists _, s1. split_and!; auto; [by apply fresh_more| |done].
      intros e tree datums He Hs. by destruct (Hno e tree datums).
Qed.

(** *** Flush *)

Lemma remove_all_slots s : slots (antlr_batch_parse_cache_hash_remove_all s).2 = ∅ /\
  same_limits s (antlr_batch_parse_cache_hash_remove_all s).2.
Proof.
  unfold antlr_batch_parse_cache_hash_remove_all.
  assert (Hall : forall l : list (Z * Entry), let s' := (foldr (fun ke '(removed, s) =>
      (i64 (removed + 1), antlr_batch_parse_cache_hash_remove ke.1 s)) (0, s) l).2 in
      same_limits s s' /\
      forall k, slots s' !! k = if decide (k ∈ l.*1) then None else slots s !! k).
  { induction l as [|[x e] l IH]; cbv zeta; cbn [foldr fmap list_fmap fst].
    - split; [done|]. intros k. by rewrite decide_False by (by apply not_elem_of_nil).
    - destruct (foldr _ _ l) as [n s1]. cbn [snd] in *. destruct IH as [Hl IH]. split; [done|].
      intros k. cbn. destruct (decide (x = k)) as [->|Hne].
      + rewrite lookup_delete_eq, decide_True by (by left). done.
      + rewrite lookup_delete_ne, IH by done. destruct (decide (k ∈ l.*1)).
        * by rewrite decide_True by (by right).
        * rewrite decide_False; [done|]. set_solver. }
  destruct (Hall (map_to_list (slots s))) as [Hl Hk]. split; [|done].
  apply map_eq. intros k. rewrite Hk, lookup_empty. case_decide as Hin; [done|].
  destruct (slots s !! k) as [e|] eqn:He; [|done]. destruct Hin. apply list_elem_of_fmap.
  exists (k, e). split; [done|]. by apply elem_of_map_to_list.
Qed.

Lemma flush_spec s : wf s -> slots (antlr_batch_parse_cache_flush s).2 = ∅ /\
  same_limits s (antlr_batch_parse_cache_flush s).2 /\ wf (antlr_batch_parse_cache_flush s).2 /\
  stat_hits (antlr_batch_parse_cache_flush s).2 = 0 /\ stat_misses (antlr_batch_parse_cache_flush s).2 = 0.
Proof.
  intros Hwf. unfold antlr_batch_parse_cache_flush. destruct (remove_all_slots s) as [Hs [Hn Hd]].
  destruct (antlr_batch_parse_cache_hash_remove_all s) as [n s']. cbn [snd] in *.
  split_and!; try done. pose proof (wf_slots s Hwf). split; cbn; rewrite ?Hs, ?Hn.
  - done.
  - rewrite map_size_empty. lia.
  - intros k e. by rewrite lookup_empty.
Qed.

(** *** Histories *)

Definition batches (rs : list (request (Env := Env) (T := T) (P := P))) : list batch :=
  omap (fun r => match r with Compile _ _ b _ _ _ => Some b | Flush => None end) rs.

(** Batches compiled since the last flush. *)
Definition compiled (rs : list (request (Env := Env) (T := T) (P := P))) (n : Z) : Z :=
  foldl (fun n r => match r with Compile _ _ _ _ _ _ => n + 1 | Flush => 0 end) n rs.

(** The compilations since the last flush, after one more request. *)
Definition recorded (earlier : list (Env * batch)) (r : request (Env := Env) (T := T) (P := P)) : list (Env * batch) :=
  match r with Compile _ env b _ _ _ => (env, b) :: earlier | Flush => [] end.

(** The answer to a request: that of a parse without cache, or the text form of the parse
    an earlier compilation made of the same batch. *)
Definition answers (earlier : list (Env * batch)) (r : request (Env := Env) (T := T) (P := P))
    (x : option (Z * compile T P)) : Prop :=
  x = direct antlr_parser_cpp r \/
  match r with
  | Compile _ _ b _ _ c => exists y, x = Some y /\ shared_answer earlier b c y
  | Flush => False
  end.

Fixpoint answered (earlier : list (Env * batch)) (rs : list (request (Env := Env) (T := T) (P := P)))
    (xs : list (option (Z * compile T P))) : Prop :=
  match rs, xs with
  | [], [] => True
  | r :: rs, x :: xs => answers earlier r x /\ answered (recorded earlier r) rs xs
  | _, _ => False
  end.

(** The answer of the session's own parse, as it is or as the text form brings it back. *)
Definition own_answer (r : request (Env := Env) (T := T) (P := P)) (x : option (Z * compile T P)) : Prop :=
  x = direct antlr_parser_cpp r \/
  match r with Compile _ env b _ _ c => x = Some (through_text env b c) | Flush => False end.

(** The sessions of the history parse each of its batches alike. *)
Definition same_settings (rs : list (request (Env := Env) (T := T) (P := P))) : Prop :=
  forall g env b now now' c g' env' now2 now2' c' n, Compile g env b now now' c ∈ rs -> Compile g' env' b now2 now2' c' ∈ rs ->
    antlr_parser_cpp env b n = antlr_parser_cpp env' b n.

Lemma answered_own rs earlier xs : answered earlier rs xs -> same_settings rs ->
  (forall env b g env' now now' c n, (env, b) ∈ earlier -> Compile g env' b now now' c ∈ rs ->
    antlr_parser_cpp env b n = antlr_parser_cpp env' b n) ->
  Forall2 own_answer rs xs.
Proof.
  revert earlier xs. induction rs as [|r rs IH]; intros earlier [|x xs] H Hsame Hear; try done.
  destruct H as [Hx H]. constructor.
  - destruct Hx as [->|Hx]; [by left|right]. destruct r as [g env b now now' c|]; [|done].
    destruct Hx as (y & -> & env0 & Hin & _ & ->). unfold through_text.
    by rewrite (Hear env0 b g env now now' c _ Hin) by (by left).
  - apply (IH _ _ H).
    + intros g env b now now' c g' env' now2 now2' c' n H1 H2. by eapply Hsame; right.
    + intros env b g env' now now' c n Hin Hc. destruct r as [g0 env0 b0 now0 now0' c0|]; cbn in Hin; [|by apply elem_of_nil in Hin].
      apply elem_of_cons in Hin as [Heq|Hin].
      * injection Heq as -> ->. by eapply Hsame; [left|right].
      * by eapply Hear; [|right].
Qed.

Lemma serve_spec hist earlier rs s :
  wf s -> reserved free_slot has_room s -> fresh earlier s -> collision_free hist ->
  (forall x, x ∈ earlier -> x.2 ∈ hist) -> (forall b, b ∈ batches rs -> b ∈ hist /\ text_ok (proc_source b)) ->
  exists xs s', serve rs s = Some (xs, s') /\ answered earlier rs xs /\ wf s' /\
    (0 <= stat_hits s -> 0 <= stat_misses s -> stat_hits s + stat_misses s + Z.of_nat (length rs) < 2 ^ 64 ->
     stat_hits s' + stat_misses s' = compiled rs (stat_hits s + stat_misses s)).
Proof.
  revert earlier s. induction rs as [|r rs IH]; intros earlier s Hwf Hres Hf Hcf Hhist Hrs; [by exists [], s|].
  cbn [ParseCacheParse.serve compiled foldl length]. destruct r as [g env b now now' c|].
  - destruct (Hrs b) as [Hb Htext]; [by left|].
    destruct (get_or_parse_spec hist earlier g env b now now' c s Hwf Hres Hf Hcf Hhist Hb Htext)
      as (x & s1 & Hg & Hx & _ & Hwf1 & Hf1 & Hl1 & Hc1 & _).
    cbn [ParseCacheParse.serve_one]. rewrite Hg. cbn [mbind option_bind].
    destruct x as [rc c']. cbn [mbind option_bind].
    destruct (IH ((env, b) :: earlier) s1) as (xs & s2 & -> & Hxs & Hwf2 & Hc2); [done|by eapply reserved_limits|done|done| | |].
    { intros x [->|Hin]%elem_of_cons; [done|by apply Hhist]. }
    { intros b' Hb'. apply Hrs. by right. }
    eexists _, s2. split; [done|]. split; [split; [|done]|].
    { destruct Hx as [Hx|Hx]; [left; cbn; by rewrite <- Hx|right; by eexists]. }
    split; [done|]. intros H1 H2 H3.
    assert (Hu : stat_hits s1 + stat_misses s1 = stat_hits s + stat_misses s + 1 /\ 0 <= stat_hits s1 /\
              0 <= stat_misses s1).
    { unfold u64, uwrap in Hc1. destruct Hc1 as [[-> ->]|[-> ->]]; rewrite Z.mod_small by lia; lia. }
    destruct Hu as (Hu & Hu1 & Hu2). rewrite Hc2, Hu; [done|done|done|lia].
  - cbn [ParseCacheParse.serve_one mbind option_bind direct].
    destruct (flush_spec s Hwf) as (He & Hl & Hwf1 & Hh & Hm).
    destruct (IH [] (antlr_batch_parse_cache_flush s).2) as (xs & s2 & -> & Hxs & Hwf2 & Hc2);
      [done|by eapply reserved_limits| |done|by intros x ?%elem_of_nil|by intros b Hb; apply Hrs|].
    { intros k e text tree datums. by rewrite He, lookup_empty. }
    eexists _, s2. split; [done|]. split; [split; [by left|done]|]. split; [done|].
    intros H1 H2 H3. rewrite Hc2, Hh, Hm; [done|lia|lia|lia].
Qed.

Lemma fresh_empty s : slots s = ∅ -> fresh [] s.
Proof. intros Hempty k e text tree datums. by rewrite Hempty, lookup_empty. Qed.

(** ** Theorems *)

(** C5: What the cache hands out: in any sequence of compilations and flushes by any
    sessions, starting from an empty cache, every compilation gets the return code, the
    tree and the datums of its own parse without cache, or the text form of the parse that
    an earlier compilation of the very same batch since the last flush made, whose datums
    may be shared; never a parse of another batch and never one from before a flush.  So
    when the sessions parse a batch alike, which they do under the same settings, the cache
    is transparent up to the text form.  No two different batches of the history may agree
    in text, signature and 64-bit key.  No access leaves a slot, and never more slots are
    used than were reserved; validation mode changes nothing. *)
Theorem parse_cache_transparent rs s :
  wf s -> slots s = ∅ -> reserved free_slot has_room s -> collision_free (batches rs) ->
  (forall b, b ∈ batches rs -> text_ok (proc_source b)) ->
  exists xs s', serve rs s = Some (xs, s') /\ answered [] rs xs /\
    (same_settings rs -> Forall2 own_answer rs xs) /\
    Z.of_nat (size (slots s')) <= num_slots s'.
Proof.
  intros Hwf Hempty Hres Hcf Htext.
  destruct (serve_spec (batches rs) [] rs s) as (xs & s' & Hs & Hx & Hwf' & _);
    [done|done|by apply fresh_empty|done|by intros x ?%elem_of_nil|by auto|].
  exists xs, s'. split_and!; [done|done| |apply Hwf'].
  intros Hsame. apply (answered_own _ _ _ Hx Hsame). by intros ???????? ?%elem_of_nil.
Qed.

(** Every compilation is counted exactly once, as a hit or as a miss: the two counters
    add up to the number of compilations since the last flush. *)
Theorem parse_cache_accounting rs s s' xs :
  wf s -> slots s = ∅ -> stat_hits s = 0 -> stat_misses s = 0 -> reserved free_slot has_room s ->
  collision_free (batches rs) -> (forall b, b ∈ batches rs -> text_ok (proc_source b)) ->
  Z.of_nat (length rs) < 2 ^ 64 -> serve rs s = Some (xs, s') ->
  stat_hits s' + stat_misses s' = compiled rs 0.
Proof.
  intros Hwf Hempty Hh Hm Hres Hcf Htext Hlen Hserve.
  destruct (serve_spec (batches rs) [] rs s) as (xs2 & s2 & Hs & _ & _ & Hc);
    [done|done|by apply fresh_empty|done|by intros x ?%elem_of_nil|by auto|].
  rewrite Hserve in Hs. injection Hs as _ ->. rewrite Hh, Hm in Hc. apply Hc; lia.
Qed.

(** The cache is useful: when a batch is not in the cache, parses to shareable datums and
    fits a slot, compiling it stores it, and the next compilation of the same batch in
    any session with as many datums is a hit, which brings back the first session's parse. *)
Theorem repeated_batch_hits g g' env env' b now now' now2 now2' c c' s t bodies tree d :
  wf s -> reserved free_slot has_room s -> slots s = ∅ ->
  text_ok (proc_source b) -> antlr_parser_cpp env b (pltsql_nDatums c) = Some (t, bodies) ->
  storable g env b (pltsql_nDatums c) t bodies s tree d -> pltsql_nDatums c' = pltsql_nDatums c ->
  exists s1 s2, get_or_parse g env b now now' c s = Some (antlr_parse env b c, s1) /\
    get_or_parse g' env' b now2 now2' c' s1 = Some (through_text env b c', s2) /\
    stat_hits s2 = u64 (stat_hits s1 + 1).
Proof.
  intros Hwf Hres Hempty Htext Hp Hstore Hn.
  assert (Hcf : collision_free [b]) by (by intros b1 b2 ->%list_elem_of_singleton ->%list_elem_of_singleton).
  assert (Hb : b ∈ [b]) by (by left).
  destruct (get_or_parse_spec [b] [] g env b now now' c s Hwf Hres (fresh_empty s Hempty) Hcf)
    as (x1 & s1 & Hg1 & _ & Hx1 & Hwf1 & Hf1 & Hl1 & _ & _ & Hst); [by intros x ?%elem_of_nil|done|done|].
  rewrite (Hx1 (proj1 Hstore)) in Hg1.
  destruct (Hst _ _ _ _ Hp Hstore) as (e & He & Hserves & Hparsed).
  destruct (get_or_parse_spec [b] [(env, b)] g' env' b now2 now2' c' s1 Hwf1 (reserved_limits _ _ Hl1 Hres) Hf1 Hcf)
    as (x2 & s2 & Hg2 & _ & _ & _ & _ & _ & _ & Hhit & _); [by intros x ->%list_elem_of_singleton|done|done|].
  rewrite <- Hn in Hserves. destruct (Hhit _ _ _ He Hserves) as [Hh Hx]. rewrite (Hx _ Hparsed) in Hg2.
  exists s1, s2. by split_and!.
Qed.

End theorems.

(** ** Eviction *)

Section eviction.
Variable version : bytes.
Variable qsort : (Z * Entry -> Z * Entry -> Z) -> list (Z * Entry) -> list (Z * Entry).
Variable free_slot : Entry.
Variable has_room : nat -> bool.
Hypothesis qsort_perm : forall cmp l, qsort cmp l ≡ₚ l.
Hypothesis qsort_sorted : forall l,
  StronglySorted (fun a b => antlr_batch_parse_cache_entry_cmp a b <= 0)
    (qsort antlr_batch_parse_cache_entry_cmp l).

(** C39: Eviction is least recently used: a put drops an entry of another key only when all
    reserved slots are taken, and then none that was used later than an entry it keeps;
    it drops a tenth of the entries, at least five. *)
Theorem put_evicts_oldest min_kb max_kb ctx tree datums now s s' b k e :
  wf s -> antlr_batch_parse_cache_put version qsort free_slot has_room min_kb max_kb ctx tree datums now s =
    Some (b, s') ->
  k <> key ctx -> slots s !! k = Some e -> slots s' !! k = None ->
  num_slots s <= Z.of_nat (size (slots s)) /\
  (forall k' e', k' <> key ctx -> slots s' !! k' = Some e' -> last_used_at e <= last_used_at e') /\
  Z.of_nat (size (slots s) - size (delete (key ctx) (slots s'))) =
    num_to_drop (Z.of_nat (size (slots s))).
Proof.
  intros Hwf Hput Hk He Hgone. unfold antlr_batch_parse_cache_put in Hput. cbv zeta in Hput.
  destruct (negb _); [injection Hput as _ <-; congruence|].
  destruct (slots s !! key ctx) as [e0|] eqn:He0.
  - destruct (negb _); [injection Hput as _ <-; cbn in Hgone; congruence|].
    destruct (antlr_batch_parse_cache_entry_fill _ _ _ _ _ _ _ _ _ _ _ _) as [e1|]; [|done].
    cbn in Hput. injection Hput as _ <-. cbn in Hgone. rewrite lookup_insert_ne in Hgone by done. congruence.
  - destruct (Z.leb_spec (num_slots s) (Z.of_nat (size (slots s)))) as [Hfull|Hfull].
    2: { destruct (has_room _); [|injection Hput as _ <-; cbn in Hgone; congruence].
         destruct (antlr_batch_parse_cache_entry_fill _ _ _ _ _ _ _ _ _ _ _ _) as [e1|]; [|done].
         cbn in Hput. injection Hput as _ <-. cbn in Hgone. rewrite lookup_insert_ne in Hgone by done. congruence. }
    set (s1 := antlr_batch_parse_cache_hash_evict_lru qsort s) in *.
    assert (Hs' : (forall k', k' <> key ctx -> slots s' !! k' = slots s1 !! k') /\
                  delete (key ctx) (slots s') = slots s1).
    { assert (Hn1 : slots s1 !! key ctx = None).
      { destruct (evict_eq qsort s) as (Hs1 & _). fold s1 in Hs1. rewrite Hs1, lookup_without.
        by case_decide. }
      destruct (has_room _).
      - destruct (antlr_batch_parse_cache_entry_fill _ _ _ _ _ _ _ _ _ _ _ _) as [e1|]; [|done].
        cbn in Hput. injection Hput as _ <-. cbn. split; [intros; by apply lookup_insert_ne|].
        by rewrite delete_insert_id.
      - injection Hput as _ <-. cbn. split; [done|]. by rewrite delete_id. }
    destruct Hs' as [Hs' Hdel]. rewrite Hs' in Hgone by done.
    pose proof (wf_slots s Hwf) as Hsl.
    destruct (evict_room qsort qsort_perm s Hwf ltac:(lia)) as [Hsz _]. fold s1 in Hsz.
    split_and!; [done| |].
    + intros k' e' Hk' He'. rewrite Hs' in He' by done. by eapply evict_oldest.
    + rewrite Hdel. pose proof (wf_size s Hwf).
      assert (Hr : 0 < Z.of_nat (size (slots s)) < 2 ^ 59) by (cbn in *; lia).
      pose proof (num_to_drop_range _ Hr). lia.
Qed.
End eviction.

(** ** Sizes *)

Lemma MAXALIGN_multiple n : 0 <= n < 2 ^ 60 -> MAXALIGN (n * 8) = n * 8.
Proof.
  intros Hn. change (2 ^ 60) with 1152921504606846976 in Hn. unfold MAXALIGN, u64, uwrap.
  change (2 ^ 64) with 18446744073709551616. rewrite Z.mod_small by lia.
  change (Z.land (n * 8 + 7) (Z.lnot 7)) with (Z.land (n * 8 + 7) (Z.lnot (Z.ones 3))).
  rewrite <- Z.ldiff_land, Z.ldiff_ones_r by lia. rewrite Z.shiftr_div_pow2, Z.shiftl_mul_pow2 by lia.
  change (2 ^ 3) with 8. rewrite Z.div_add_l by lia. change (7 / 8) with 0. lia.
Qed.

(** For every permitted size of the cache and of a slot the shared state is well formed:
    there are at least ten slots, together they stay within the reserved memory, and a
    slot holds all its bytes but the header. *)
Theorem parse_cache_sizes header size_mb slot_kb :
  0 <= header <= 1024 -> 100 <= size_mb <= 10000 -> 10 <= slot_kb <= 10000 ->
  let s := create_state header size_mb slot_kb in
  wf s /\ 10 <= num_slots s /\ data_capacity s = slot_kb * 1024 - header /\
  num_slots s * antlr_batch_parse_cache_entry_size slot_kb <= size_mb * 1048576.
Proof.
  intros Hh Hs Hk. cbv zeta. unfold create_state.
  assert (He : antlr_batch_parse_cache_entry_size slot_kb = slot_kb * 1024).
  { unfold antlr_batch_parse_cache_entry_size. replace (u64 (slot_kb * 1024)) with (slot_kb * 128 * 8).
    - rewrite MAXALIGN_multiple by (cbn; lia). lia.
    - unfold u64, uwrap. change (2 ^ 64) with 18446744073709551616. rewrite Z.mod_small by lia. lia. }
  set (q := size_mb * 1048576 / (slot_kb * 1024)).
  assert (Hq : 10 <= q <= 1048576 /\ q * (slot_kb * 1024) <= size_mb * 1048576).
  { pose proof (Z.div_mod (size_mb * 1048576) (slot_kb * 1024) ltac:(lia)).
    pose proof (Z.mod_pos_bound (size_mb * 1048576) (slot_kb * 1024) ltac:(lia)). unfold q. split; [|nia].
    split; [apply Z.div_le_lower_bound; nia|apply Z.div_le_upper_bound; nia]. }
  assert (Hn : antlr_batch_parse_cache_num_slots size_mb slot_kb = q).
  { unfold antlr_batch_parse_cache_num_slots. rewrite He. unfold u64, uwrap. change (2 ^ 64) with 18446744073709551616.
    rewrite (Z.mod_small (size_mb * 1024)), (Z.mod_small (size_mb * 1024 * 1024)) by lia.
    replace (size_mb * 1024 * 1024) with (size_mb * 1048576) by lia. fold q.
    apply i64_id, in_i64_iff. lia. }
  assert (Hd : i32 (u64 (antlr_batch_parse_cache_entry_size slot_kb - header)) = slot_kb * 1024 - header).
  { rewrite He. unfold u64, uwrap. change (2 ^ 64) with 18446744073709551616. rewrite Z.mod_small by lia. apply i32_id, in_i32_iff. lia. }
  rewrite Hn, Hd. cbn [num_slots data_capacity].
  split_and!; [|lia|done|rewrite He; lia].
  split; cbn [num_slots data_capacity slots]; [cbn; lia|rewrite map_size_empty; lia|].
  intros k e. by rewrite lookup_empty.
Qed.

(** ** Witnesses *)

Module Sample.
Definition version : bytes := [54; 46; 52; 46; 48].
Definition qsort (cmp : Z * Entry -> Z * Entry -> Z) (l : list (Z * Entry)) : list (Z * Entry) :=
  merge_sort (H := fun a b => decide (cmp a b <= 0)) (fun a b => cmp a b <= 0) l.
Definition free_slot : Entry := mk_entry 0 0 0 [] 0 0 0 0 (repeat 0 100).
Definition has_room (n : nat) : bool := Z.of_nat n <? 2.
Definition hash_any_extended (s : bytes) : Z := foldl (fun h c => (h * 31 + c) mod 2 ^ 64) 7 s.
Definition hash_combine64 (a b : Z) : Z := Z.lxor a ((b + a * 64 + a / 4) mod 2 ^ 64).
Definition format_type_extended (oid : Z) : bytes := [97 + oid].
Definition namespace (_ : bool) (_ : Z) : option Z := Some 11.
Definition is_system (_ : bool) (n : Z) : bool := n =? 11.

(** A session is its setting of QUOTED_IDENTIFIER; a tree tells whether a text between double
    quotes was read as a name or as a string, as the lexer decides by that setting
    (TSqlLexer.g4:1198).  The parser declares one variable. *)
Definition declared : body unit := PLTSQL_DTYPE_VAR (Some (23, 0)) tt.
Definition antlr_parser_cpp (quoted_identifier : bool) (b : batch) (n : Z) : option (bool * list (body unit)) :=
  if n =? 2 then Some (quoted_identifier, [declared]) else None.
Definition treeToString (t : option bool) : result raised bytes :=
  match t with Some true => Ok [40; 105; 41] | Some false => Ok [40; 115; 41] | None => Err Raised end.
Definition stringToTree (s : bytes) : result raised (option bool) :=
  match s with [40; 105; 41] => Ok (Some true) | [40; 115; 41] => Ok (Some false) | _ => Err Raised end.
Definition datumsToString (l : list (datum unit)) : result raised bytes :=
  match l with
  | [mk_datum 2 (PLTSQL_DTYPE_VAR (Some (23, 0)) tt)] => Ok [100]
  | _ => Err Raised
  end.
Definition stringToDatums (_ : bytes) : result raised (list (option (datum unit))) :=
  Ok [Some (mk_datum 2 declared)].

Lemma version_ok : (length version < 32)%nat /\ clean version.
Proof. split; [cbn; lia|by repeat constructor]. Qed.

Lemma qsort_perm cmp l : qsort cmp l ≡ₚ l.
Proof. apply merge_sort_Permutation. Qed.

Lemma cmp_le a b : antlr_batch_parse_cache_entry_cmp a b <= 0 <-> last_used_at a.2 <= last_used_at b.2.
Proof.
  unfold antlr_batch_parse_cache_entry_cmp.
  destruct (Z.ltb_spec (last_used_at a.2) (last_used_at b.2)); [lia|].
  destruct (Z.gtb_spec (last_used_at a.2) (last_used_at b.2)); lia.
Qed.

Lemma qsort_sorted l : StronglySorted (fun a b => antlr_batch_parse_cache_entry_cmp a b <= 0)
  (qsort antlr_batch_parse_cache_entry_cmp l).
Proof.
  unfold qsort. apply StronglySorted_merge_sort.
  - intros a b c. rewrite !cmp_le. lia.
  - intros a b. rewrite !cmp_le. lia.
Qed.

Lemma tree_text t s : treeToString t = Ok s -> text_ok s /\ s <> [].
Proof. destruct t as [[]|]; intros [= <-]; (split; [split; [by repeat constructor|done]|done]). Qed.

Lemma datums_facts l s : datumsToString l = Ok s -> text_ok s /\ s <> [] /\ l = [mk_datum 2 declared].
Proof.
  unfold datumsToString. destruct l as [|[n b] [|? ?]]; try done; repeat case_match; try done.
  all: intros [= <-]; split_and!; try done; by repeat constructor.
Qed.

Lemma datums_text l s : datumsToString l = Ok s -> text_ok s /\ s <> [].
Proof. intros Hl. by destruct (datums_facts l s Hl) as (? & ? & _). Qed.

Lemma shape env b n t bodies : antlr_parser_cpp env b n = Some (t, bodies) ->
  True /\ Forall (fun _ : body unit => True) bodies.
Proof. intros _. split; [done|]. by apply Forall_true. Qed.

Lemma tree_read (t : bool) s : True -> treeToString (Some t) = Ok s -> stringToTree s = Ok (Some (id t)).
Proof. by destruct t; intros _ [= <-]. Qed.

Lemma datums_read n bodies s : Forall (fun _ : body unit => True) bodies ->
  datumsToString (numbered n bodies) = Ok s -> stringToDatums s = Ok (Some <$> numbered n (id <$> bodies)).
Proof. intros _ Hl. rewrite list_fmap_id. by destruct (datums_facts _ s Hl) as (_ & _ & ->). Qed.

(** Two slots for a hundred bytes. *)
Definition state : SharedState := mk_state ∅ 0 0 0 0 0 2 100.

Lemma state_ok : wf state /\ slots state = ∅ /\ reserved free_slot has_room state.
Proof.
  split_and!; [done|done|]. split; [done|]. intros n Hn. cbn in Hn. unfold has_room. lia.
Qed.

Definition one_batch : batch := mk_batch [115; 113; 108] 1 (mk_args 1 (Some [23]) None None).
Definition before : compile bool unit :=
  mk_compile None [mk_datum 0 (PLTSQL_DTYPE_ROW tt); mk_datum 1 (PLTSQL_DTYPE_ROW tt)].
Definition compile_as (quoted_identifier : bool) : request (Env := bool) (T := bool) (P := unit) :=
  Compile (mk_settings 0 0 true) quoted_identifier one_batch 1 2 before.
Definition history : list (request (Env := bool) (T := bool) (P := unit)) :=
  [compile_as true; compile_as true; Flush; compile_as true].

(** Two sessions that differ in the setting. *)
Definition mixed_history : list (request (Env := bool) (T := bool) (P := unit)) := [compile_as true; compile_as false].

Lemma history_same : same_settings antlr_parser_cpp history.
Proof.
  intros g env b now now' c g' env' now2 now2' c' n H H'.
  assert (Hall : forall g env b now now' c, Compile g env b now now' c ∈ history -> env = true).
  { intros *. unfold history, compile_as. intros H0. repeat (apply elem_of_cons in H0 as [H0|H0]; [by inversion H0|]).
    by apply elem_of_nil in H0. }
  by rewrite (Hall _ _ _ _ _ _ H), (Hall _ _ _ _ _ _ H').
Qed.

Lemma history_ok :
  collision_free hash_any_extended hash_combine64 format_type_extended (batches history) /\
  (forall b, b ∈ batches history -> text_ok (proc_source b)).
Proof.
  assert (Hall : forall b, b ∈ batches history -> b = one_batch).
  { intros b. cbn. set_solver. }
  split.
  - intros b b' ->%Hall ->%Hall. done.
  - intros b ->%Hall. split; [by repeat constructor|done].
Qed.
End Sample.

Abbreviation sample_serve := (serve Sample.version Sample.qsort Sample.free_slot Sample.has_room
  Sample.hash_any_extended Sample.hash_combine64 Sample.format_type_extended Sample.namespace Sample.namespace
  Sample.is_system Sample.treeToString Sample.stringToTree Sample.datumsToString Sample.stringToDatums
  Sample.antlr_parser_cpp).

Lemma parse_cache_transparent_witness :
  exists xs s', sample_serve Sample.history Sample.state = Some (xs, s') /\
    Forall2 (own_answer Sample.antlr_parser_cpp id id) Sample.history xs.
Proof.
  destruct (parse_cache_transparent Sample.version Sample.qsort Sample.free_slot Sample.has_room
    Sample.hash_any_extended Sample.hash_combine64 Sample.format_type_extended Sample.namespace
    Sample.namespace Sample.is_system Sample.treeToString Sample.stringToTree Sample.datumsToString
    Sample.stringToDatums Sample.antlr_parser_cpp (proj1 Sample.version_ok) (proj2 Sample.version_ok)
    Sample.qsort_perm id id (fun _ => True) (fun _ => True) Sample.shape Sample.tree_text Sample.datums_text
    Sample.tree_read Sample.datums_read Sample.history Sample.state
    (proj1 Sample.state_ok) (proj1 (proj2 Sample.state_ok)) (proj2 (proj2 Sample.state_ok))
    (proj1 Sample.history_ok) (proj2 Sample.history_ok)) as (xs & s' & Hs & _ & Hx & _).
  exists xs, s'. exact (conj Hs (Hx Sample.history_same)).
Defined.

(** The key of the cache does not tell the sessions' settings apart: the text and the
    signature are the same, so a session that turned QUOTED_IDENTIFIER off gets the tree of
    one that has it on, in which a text between double quotes is a name. *)
Theorem parse_cache_ignores_settings :
  exists x c s', sample_serve Sample.mixed_history Sample.state = Some ([x; Some (0, c)], s') /\
    pltsql_parse_result c = Some true /\
    (forall y, direct Sample.antlr_parser_cpp (Sample.compile_as false) = Some y -> pltsql_parse_result y.2 = Some false).
Proof.
  eexists _, _, _. split; [vm_compute; reflexivity|]. split; [reflexivity|].
  intros y. vm_compute. by intros [= <-].
Qed.

Lemma parse_cache_accounting_witness :
  exists xs s', sample_serve (take 2 Sample.history) Sample.state = Some (xs, s') /\
    stat_hits s' = 1 /\ stat_misses s' = 1 /\
    stat_hits s' + stat_misses s' = compiled (take 2 Sample.history) 0.
Proof.
  eexists _, _. split; [vm_compute; reflexivity|]. split; [reflexivity|]. split; [reflexivity|].
  eapply (parse_cache_accounting Sample.version Sample.qsort Sample.free_slot Sample.has_room
    Sample.hash_any_extended Sample.hash_combine64 Sample.format_type_extended Sample.namespace
    Sample.namespace Sample.is_system Sample.treeToString Sample.stringToTree Sample.datumsToString
    Sample.stringToDatums Sample.antlr_parser_cpp (proj1 Sample.version_ok) (proj2 Sample.version_ok)
    Sample.qsort_perm id id (fun _ => True) (fun _ => True) Sample.shape Sample.tree_text Sample.datums_text
    Sample.tree_read Sample.datums_read _ Sample.state _ _
    (proj1 Sample.state_ok) (proj1 (proj2 Sample.state_ok)) eq_refl eq_refl (proj2 (proj2 Sample.state_ok)));
    [| |reflexivity|vm_compute; reflexivity].
  - intros b b' Hb Hb'. apply Sample.history_ok; cbn in *; set_solver.
  - intros b Hb. apply Sample.history_ok. cbn in *. set_solver.
Defined.

Lemma repeated_batch_hits_witness :
  exists s1 s2, stat_hits s2 = u64 (stat_hits s1 + 1) /\
    antlr_batch_parse_cache_get_or_parse Sample.version Sample.qsort Sample.free_slot Sample.has_room
      Sample.hash_any_extended Sample.hash_combine64 Sample.format_type_extended Sample.namespace
      Sample.namespace Sample.is_system Sample.treeToString Sample.stringToTree Sample.datumsToString
      Sample.stringToDatums Sample.antlr_parser_cpp (mk_settings 0 0 true) true Sample.one_batch 1 2
      Sample.before Sample.state =
    Some (antlr_batch_parse_cache_antlr_parse Sample.antlr_parser_cpp true Sample.one_batch Sample.before, s1).
Proof.
  destruct (repeated_batch_hits Sample.version Sample.qsort Sample.free_slot Sample.has_room
    Sample.hash_any_extended Sample.hash_combine64 Sample.format_type_extended Sample.namespace
    Sample.namespace Sample.is_system Sample.treeToString Sample.stringToTree Sample.datumsToString
    Sample.stringToDatums Sample.antlr_parser_cpp (proj1 Sample.version_ok) (proj2 Sample.version_ok)
    Sample.qsort_perm id id (fun _ => True) (fun _ => True) Sample.shape Sample.tree_text Sample.datums_text
    Sample.tree_read Sample.datums_read) with
    (s := Sample.state)
    (g := mk_settings 0 0 true) (g' := mk_settings 0 0 true) (env := true) (env' := false) (b := Sample.one_batch)
    (now := 1) (now' := 2) (now2 := 3) (now2' := 4) (c := Sample.before) (c' := Sample.before) (t := true)
    (bodies := [Sample.declared]) (tree := [40; 105; 41]) (d := [100]) as (s1 & s2 & H1 & _ & H2);
    try exact (proj1 Sample.state_ok); try exact (proj2 (proj2 Sample.state_ok)); try done.
  - apply Sample.history_ok. by left.
  - by exists s1, s2.
Defined.

(** Six slots, all in use. *)
Definition used (i : Z) : Entry := mk_entry 0 0 0 [] 0 0 0 i (repeat 0 100).
Definition full_state : SharedState :=
  mk_state (list_to_map ((fun i => (i, used i)) <$> [1; 2; 3; 4; 5; 6])) 0 0 0 0 0 6 100.

Lemma full_state_wf : wf full_state.
Proof.
  split; [done|done|]. intros k e He. apply elem_of_list_to_map_2 in He.
  apply list_elem_of_fmap in He as (i & [= -> ->] & _). split; [done|].
  exists [], [], []. unfold slot_of. split_and!; [done|done|done|by constructor|by exists (repeat 0 97)].
Qed.

Lemma put_evicts_oldest_witness :
  exists s', antlr_batch_parse_cache_put Sample.version Sample.qsort Sample.free_slot (fun _ => true) 0 0
      (mk_ctx [115] 100 7 2) [40; 41] None 9 full_state = Some (true, s') /\
    slots s' !! 1 = None /\ slots s' !! 6 = Some (used 6) /\ last_used_at (used 1) <= last_used_at (used 6).
Proof.
  eexists. split; [vm_compute; reflexivity|]. split; [reflexivity|]. split; [reflexivity|].
  eapply (put_evicts_oldest Sample.version Sample.qsort Sample.free_slot (fun _ => true) Sample.qsort_perm
    Sample.qsort_sorted 0 0 (mk_ctx [115] 100 7 2) [40; 41] None 9 full_state _ true 1 (used 1) full_state_wf)
    with (k' := 6); [vm_compute; reflexivity|done|reflexivity|reflexivity|done|reflexivity].
Defined.

Lemma parse_cache_sizes_witness :
  wf (create_state 88 250 256) /\ num_slots (create_state 88 250 256) = 1000.
Proof.
  split; [apply (parse_cache_sizes 88 250 256); lia|reflexivity].
Defined.
