(* ===== verification/NodeIO.v ===== *)
(** * NodeIO: text form of PL/tsql nodes ([babelfishpg_tsql/src/pltsql_node/])

    Parse trees are stored as text: [pltsql_outNode] writes a node, a list or NULL,
    [pltsql_nodeRead] reads it back.  The functions for the fields of the node types are
    generated from [pltsql.h] at build time out of the WRITE_ and READ_ macros of
    [pltsql_node_macros.h]; a [schema] stands for them.  The hand-written node types
    (namespace items, rows, record fields, DBCC statements) are schemas with some kinds
    of fields of their own.  Tokens and the nodes of the server itself are interfaces. *)
From Stdlib Require Import String.
From stdpp Require Import base numbers list.
From S2P Require Import Prelude.

Notation "'b#' s" := (bytes_of_string s) (at level 1, s at level 0, only parsing).

(** ** Numbers in text *)

(** [printf] of a decimal number. *)
Fixpoint digits (fuel : nat) (n : Z) (acc : bytes) : bytes :=
  match fuel with
  | O => acc
  | S fuel => let acc := 48 + n mod 10 :: acc in if n <? 10 then acc else digits fuel (n / 10) acc
  end.

Definition decimal (z : Z) : bytes :=
  if z <? 0 then 45 :: digits 20 (- z) [] else digits 20 z [].

(** The digits at the start of a string, as a number, and what follows. *)
Fixpoint scan_digits (s : bytes) (acc : Z) : Z * bytes :=
  match s with
  | c :: s' => if isdigit c then scan_digits s' (acc * 10 + (c - 48)) else (acc, s)
  | [] => (acc, [])
  end.

Fixpoint skip_spaces (s : bytes) : bytes :=
  match s with c :: s' => if isspace c then skip_spaces s' else s | [] => [] end.

(** [strtol] with base 10: the value before it is limited to the width of a long, and
    what follows; without digits the end is the start of the string. *)
Definition strtol (s : bytes) : Z * bytes :=
  let s1 := skip_spaces s in
  let '(sign, s2) := if hd0 s1 =? 45 then (-1, tl s1)
                     else if hd0 s1 =? 43 then (1, tl s1) else (1, s1) in
  if isdigit (hd0 s2) then let '(v, r) := scan_digits s2 0 in (sign * v, r) else (0, s).

Definition clamp64 (z : Z) : Z := Z.max INT64_MIN (Z.min INT64_MAX z).

Definition atol (s : bytes) : Z := clamp64 (strtol s).1.
Definition atoi (s : bytes) : Z := i32 (atol s).
(** [strtoul] has the same syntax and yields ULONG_MAX outside of its range. *)
Definition strtoul (s : bytes) : Z :=
  let v := (strtol s).1 in if 2 ^ 64 <=? Z.abs v then 2 ^ 64 - 1 else u64 v.
Definition atoui (s : bytes) : Z := u32 (strtoul s).

(** ** The server's tokens *)

Definition blank (c : Z) : bool := (c =? 32) || (c =? 10) || (c =? 9).
Definition special (c : Z) : bool := (c =? 40) || (c =? 41) || (c =? 123) || (c =? 125).

(** Characters of a token: blanks, parentheses and braces only after a backslash. *)
Fixpoint word_chars (w : bytes) : bool :=
  match w with
  | [] => true
  | 92 :: c :: w => negb (c =? 0) && word_chars w
  | c :: w => negb (blank c) && negb (special c) && negb (c =? 92) && negb (c =? 0) && word_chars w
  end.

Definition word (w : bytes) : Prop := w <> [] /\ word_chars w = true.

(** Where a token ends. *)
Definition ends (rest : bytes) : Prop :=
  match rest with [] => True | c :: _ => blank c = true \/ special c = true end.

(** [pg_strtok] returns a pointer to the token and its length, and advances; [outToken]
    writes a string or NULL as a token, [debackslash] is its inverse. *)
Class PgTokens := {
  pg_strtok : bytes -> option (bytes * nat) * bytes;
  outToken : option bytes -> bytes;
  debackslash : bytes -> bytes
}.

(** Their documented behaviour; the empty string is written as two quotes. *)
Class PgTokensLaws `{PgTokens} : Prop := {
  strtok_token s t n s' : pg_strtok s = (Some (t, n), s') ->
    t `suffix_of` s /\ exists w, w <> [] /\ t = w ++ s';
  strtok_end s s' : pg_strtok s = (None, s') -> s' `suffix_of` s;
  strtok_special ws c rest : forallb blank ws = true -> special c = true ->
    pg_strtok (ws ++ c :: rest) = (Some (c :: rest, 1%nat), rest);
  strtok_word ws w rest : forallb blank ws = true -> word w -> ends rest ->
    pg_strtok (ws ++ w ++ rest) =
    (Some (w ++ rest, if decide (w = b# "<>") then 0%nat else length w), rest);
  outToken_null : outToken None = b# "<>";
  outToken_word s : s <> [] -> Forall (fun c => 0 < c < 256) s ->
    word (outToken (Some s)) /\ outToken (Some s) <> b# "<>" /\
    debackslash (outToken (Some s)) = s;
  outToken_empty : outToken (Some []) = [34; 34];
  debackslash_quotes : debackslash [34; 34] = [34; 34];
  outToken_char c : 0 < c < 256 ->
    outToken (Some [c]) = [92; c] \/ (outToken (Some [c]) = [c] /\ c <> 92)
}.

(** ** Nodes *)

(** Kinds of fields by the macro that writes them; the last five belong to the
    hand-written node types.  An array names the field with its size. *)
Inductive kind :=
| INT | UINT | OID | LONG | BOOL | ENUM | CHAR | STRING | NODE | BITMAPSET
| INT_ARRAY (size_field : nat)
| NAME                          (* PLtsql_nsitem.name *)
| NFIELDS                       (* PLtsql_row.nfields *)
| STRINGS (size_field : nat)    (* PLtsql_row.fieldnames *)
| INTS (size_field : nat)       (* PLtsql_row.varnos *)
| DBCC_TYPE.                    (* PLtsql_stmt_dbcc.dbcc_stmt_type *)

Inductive value (N B : Type) :=
| VNum (z : Z)
| VBool (b : bool)
| VStr (s : option bytes)
| VNode (n : N)
| VBms (b : B)
| VNums (l : option (list Z))
| VStrs (l : list (option bytes)).
Arguments VNum {N B}.
Arguments VBool {N B}.
Arguments VStr {N B}.
Arguments VNode {N B}.
Arguments VBms {N B}.
Arguments VNums {N B}.
Arguments VStrs {N B}.

(** NULL, lists, PL/tsql nodes, nodes of the server in braces and its value nodes. *)
Inductive node (S B : Type) :=
| Null
| NList (l : list (node S B))
| IntList (l : list Z)
| OidList (l : list Z)
| XidList (l : list Z)
| Tagged (label : bytes) (fields : list (value (node S B) B))
| Server (s : S).
Arguments Null {S B}.
Arguments NList {S B}.
Arguments IntList {S B}.
Arguments OidList {S B}.
Arguments XidList {S B}.
Arguments Tagged {S B}.
Arguments Server {S B}.

Inductive failure := Elog | Crash.

Definition PLTSQL_DBCC_CHECKIDENT : Z := 0.
(** [NAMEDATALEN * 10] and [MaxAllocSize / sizeof(char * )]. *)
Definition max_name : Z := 640.
Definition max_fields : Z := 134217727.

Definition schema := bytes -> option (list (bytes * kind)).

(** The hand-written types. *)
Definition custom_nodes : list (bytes * list (bytes * kind)) :=
  [(b# "PLTSQL_NSITEM",
    [(b# "itemtype", ENUM); (b# "itemno", INT); (b# "prev", NODE); (b# "name", NAME)]);
   (b# "PLTSQL_ROW",
    [(b# "dtype", ENUM); (b# "dno", INT); (b# "refname", STRING); (b# "lineno", INT);
     (b# "isconst", BOOL); (b# "notnull", BOOL); (b# "default_val", NODE);
     (b# "nfields", NFIELDS); (b# "fieldnames", STRINGS 7); (b# "varnos", INTS 7)]);
   (b# "PLTSQL_RECFIELD",
    [(b# "dtype", ENUM); (b# "dno", INT); (b# "fieldname", STRING); (b# "recparentno", INT);
     (b# "nextfield", INT)]);
   (b# "PLTSQL_STMT_DBCC",
    [(b# "cmd_type", ENUM); (b# "lineno", INT); (b# "dbcc_stmt_type", DBCC_TYPE);
     (b# "dbcc_stmt_data.dbcc_checkident.db_name", STRING);
     (b# "dbcc_stmt_data.dbcc_checkident.schema_name", STRING);
     (b# "dbcc_stmt_data.dbcc_checkident.table_name", STRING);
     (b# "dbcc_stmt_data.dbcc_checkident.is_reseed", BOOL);
     (b# "dbcc_stmt_data.dbcc_checkident.new_reseed_value", STRING);
     (b# "dbcc_stmt_data.dbcc_checkident.no_infomsgs", BOOL)])].

Fixpoint assoc {A} (label : bytes) (l : list (bytes * A)) : option A :=
  match l with
  | [] => None
  | (k, v) :: l => if bool_decide (label = k) then Some v else assoc label l
  end.

(** All node types: the hand-written ones and the generated ones. *)
Definition pltsql_schema (generated : schema) : schema := fun label =>
  match assoc label custom_nodes with Some fs => Some fs | None => generated label end.

Section io.
Context `{PgTokens} {S B : Type}.
(** Nodes of the server: [outNode]; [parseNodeString] reads one after its brace,
    [nodeRead] reads a value node whose token has been read; bitmapsets in fields; int
    arrays; the bitmapset (or NULL) with the given members. *)
Variable outNode : S -> bytes.
Variable parseNodeString : bytes -> result failure (S * bytes).
Variable nodeRead : bytes -> nat -> bytes -> result failure (S * bytes).
Variable outBitmapset : B -> bytes.
Variable readBitmapset : bytes -> result failure (B * bytes).
Variable readIntCols : nat -> bytes -> result failure (option (list Z) * bytes).
Variable bms_add_members : list Z -> result failure (node S B).
(** The generated functions. *)
Variable fields_of : schema.

Abbreviation node := (node S B).
Abbreviation value := (value node B).

(** ** Writing *)

Definition booltostr (b : bool) : bytes := if b then b# "true" else b# "false".

(** The text of a field after its name. *)
Definition write_value (out : node -> result failure bytes) (k : kind) (v : value) : result failure bytes :=
  match k, v with
  | (INT | ENUM | NFIELDS | UINT | OID | LONG), VNum z => Ok (32 :: decimal z)
  | DBCC_TYPE, VNum z => if z =? PLTSQL_DBCC_CHECKIDENT then Ok (32 :: decimal z) else Err Elog
  | BOOL, VBool b => Ok (32 :: booltostr b)
  | CHAR, VNum c => Ok (32 :: if c =? 0 then b# "<>" else outToken (Some [c]))
  | (STRING | NAME), VStr s => Ok (32 :: outToken s)
  | NODE, VNode n => let! t := out n in Ok (32 :: t)
  | BITMAPSET, VBms b => Ok (32 :: outBitmapset b)
  | INT_ARRAY _, VNums None => Ok (32 :: b# "<>")
  | INT_ARRAY _, VNums (Some l) => Ok (32 :: 40 :: concat ((fun z => 32 :: decimal z) <$> l) ++ b# " )")
  | STRINGS _, VStrs l => Ok (concat ((fun s => 32 :: outToken s) <$> l))
  | INTS _, VNums (Some l) => Ok (concat ((fun z => 32 :: decimal z) <$> l))
  | _, _ => Err Crash
  end.

Fixpoint write_fields (out : node -> result failure bytes) (fs : list (bytes * kind)) (vs : list value)
    {struct vs} : result failure bytes :=
  match vs, fs with
  | v :: vs, (name, k) :: fs =>
      let! t := write_value out k v in
      let! ts := write_fields out fs vs in
      Ok (32 :: 58 :: name ++ t ++ ts)
  | [], [] => Ok []
  | _, _ => Err Crash
  end.

(** The elements of a list, separated by blanks. *)
Fixpoint out_elements (out : node -> result failure bytes) (l : list node) : result failure bytes :=
  match l with
  | [] => Ok []
  | [n] => out n
  | n :: l =>
      let! t := out n in
      let! ts := out_elements out l in
      Ok (t ++ 32 :: ts)
  end.

Definition out_numbers (tag : Z) (l : list Z) : bytes :=
  40 :: tag :: concat ((fun z => 32 :: decimal z) <$> l) ++ [41].

Fixpoint pltsql_outNode (n : node) : result failure bytes :=
  match n with
  | Null => Ok (b# "<>")
  | NList l => let! t := out_elements pltsql_outNode l in Ok (40 :: t ++ [41])
  | IntList l => Ok (out_numbers 105 l)
  | OidList l => Ok (out_numbers 111 l)
  | XidList l => Ok (out_numbers 120 l)
  | Tagged label vs =>
      match fields_of label with
      | Some fs => let! t := write_fields pltsql_outNode fs vs in Ok (123 :: label ++ t ++ [125])
      | None => Err Elog
      end
  | Server s => Ok (outNode s)
  end.

Definition pltsql_nodeToString (n : node) : result failure bytes := pltsql_outNode n.

(** ** Reading *)

Inductive token_type := T_Value | PLTSQL_RIGHT_PAREN | PLTSQL_LEFT_PAREN | PLTSQL_LEFT_BRACE | PLTSQL_OTHER_TOKEN.

(** [pltsql_tokenType]; integers, floats, booleans, strings and bit strings are values. *)
Definition pltsql_tokenType (token : bytes) (length : nat) : token_type :=
  let '(numptr, numlen) := if (hd0 token =? 43) || (hd0 token =? 45) then (tl token, (length - 1)%nat)
                           else (token, length) in
  if ((0 <? numlen)%nat && isdigit (hd0 numptr)) ||
     ((1 <? numlen)%nat && (hd0 numptr =? 46) && isdigit (hd0 (tl numptr))) then T_Value
  else if hd0 token =? 40 then PLTSQL_LEFT_PAREN
  else if hd0 token =? 41 then PLTSQL_RIGHT_PAREN
  else if hd0 token =? 123 then PLTSQL_LEFT_BRACE
  else if ((length =? 4)%nat && bool_decide (take 4 token = b# "true")) ||
          ((length =? 5)%nat && bool_decide (take 5 token = b# "false")) then T_Value
  else if (hd0 token =? 34) && (1 <? length)%nat && (nth (length - 1) token 0 =? 34) then T_Value
  else if (hd0 token =? 98) || (hd0 token =? 120) then T_Value
  else if (hd0 token =? 48) && (1 <? length)%nat && ((nth 1 token 0 =? 120) || (nth 1 token 0 =? 88)) then T_Value
  else PLTSQL_OTHER_TOKEN.

(** A token that must be there: following NULL is a crash. *)
Definition token (st : bytes) : result failure (bytes * nat * bytes) :=
  match pg_strtok st with
  | (Some (t, n), st) => Ok (t, n, st)
  | (None, _) => Err Crash
  end.

(** With an error report instead. *)
Definition token_or_elog (st : bytes) : result failure (bytes * nat * bytes) :=
  match pg_strtok st with
  | (Some (t, n), st) => Ok (t, n, st)
  | (None, _) => Err Elog
  end.

Definition pltsql_nullable_string (t : bytes) (n : nat) : option bytes :=
  if (n =? 0)%nat then None
  else if (n =? 2)%nat && bool_decide (take 2 t = b# "<>") then None
  else Some (debackslash (take n t)).

Definition strtobool (t : bytes) : bool := hd0 t =? 116.

Definition read_char (t : bytes) (n : nat) : Z :=
  if (n =? 0)%nat then 0 else if hd0 t =? 92 then hd0 (tl t) else hd0 t.

Fixpoint read_strings (count : nat) (st : bytes) : result failure (list (option bytes) * bytes) :=
  match count with
  | O => Ok ([], st)
  | Datatypes.S count =>
      let! x := token_or_elog st in
      let '(t, n, st) := x in
      let! y := read_strings count st in
      Ok (pltsql_nullable_string t n :: y.1, y.2)
  end.

Fixpoint read_ints (count : nat) (st : bytes) : result failure (list Z * bytes) :=
  match count with
  | O => Ok ([], st)
  | Datatypes.S count =>
      let! x := token_or_elog st in
      let '(t, n, st) := x in
      let! y := read_ints count st in
      Ok (atoi t :: y.1, y.2)
  end.

(** The size recorded in an earlier field. *)
Definition size_in (vs : list value) (i : nat) : nat :=
  match vs !! i with Some (VNum z) => Z.to_nat z | _ => 0 end.

Definition num_of (k : kind) (t : bytes) : Z :=
  match k with
  | UINT | OID => atoui t
  | LONG => atol t
  | _ => atoi t
  end.

(** A field after its name, given the fields read so far. *)
Definition read_value (read : option (bytes * nat) -> bytes -> result failure (node * bytes))
    (k : kind) (before : list value) (st : bytes) : result failure (value * bytes) :=
  match k with
  | INT | ENUM | UINT | OID | LONG =>
      let! x := token st in let '(t, n, st) := x in Ok (VNum (num_of k t), st)
  | DBCC_TYPE =>
      let! x := token st in
      let '(t, n, st) := x in
      if atoi t =? PLTSQL_DBCC_CHECKIDENT then Ok (VNum (atoi t), st) else Err Elog
  | NFIELDS =>
      let! x := token st in
      let '(t, n, st) := x in
      if (atoi t <? 0) || (max_fields <? atoi t) then Err Elog else Ok (VNum (atoi t), st)
  | BOOL => let! x := token st in let '(t, n, st) := x in Ok (VBool (strtobool t), st)
  | CHAR => let! x := token st in let '(t, n, st) := x in Ok (VNum (read_char t n), st)
  | STRING => let! x := token st in let '(t, n, st) := x in Ok (VStr (pltsql_nullable_string t n), st)
  | NAME =>
      let! x := token st in
      let '(t, n, st) := x in
      let name := default [] (pltsql_nullable_string t n) in
      if max_name <? Z.of_nat (length name) then Err Elog else Ok (VStr (Some name), st)
  | NODE => let! x := read None st in Ok (VNode x.1, x.2)
  | BITMAPSET => let! x := readBitmapset st in Ok (VBms x.1, x.2)
  | INT_ARRAY i => let! x := readIntCols (size_in before i) st in Ok (VNums x.1, x.2)
  | STRINGS i => let! x := read_strings (size_in before i) st in Ok (VStrs x.1, x.2)
  | INTS i => let! x := read_ints (size_in before i) st in Ok (VNums (Some x.1), x.2)
  end.

Fixpoint read_fields (read : option (bytes * nat) -> bytes -> result failure (node * bytes))
    (fs : list (bytes * kind)) (before : list value) (st : bytes) : result failure (list value * bytes) :=
  match fs with
  | [] => Ok (before, st)
  | (_, k) :: fs =>
      let st := (pg_strtok st).2 in        (* skip :name *)
      let! x := read_value read k before st in
      read_fields read fs (before ++ [x.1]) x.2
  end.

(** Numbers up to the closing parenthesis; [conv] converts and tells whether the
    whole token was a number. *)
Fixpoint read_numbers (fuel : nat) (conv : bytes -> nat -> option Z) (st : bytes)
    : result failure (list Z * bytes) :=
  match fuel with
  | O => Err Elog
  | Datatypes.S fuel =>
      let! x := token_or_elog st in
      let '(t, n, st) := x in
      if hd0 t =? 41 then Ok ([], st)
      else match conv t n with
           | None => Err Elog
           | Some v => let! y := read_numbers fuel conv st in Ok (v :: y.1, y.2)
           end
  end.

Definition conv_int (t : bytes) (n : nat) : option Z :=
  if bool_decide ((strtol t).2 = drop n t) then Some (i32 (clamp64 (strtol t).1)) else None.
Definition conv_oid (t : bytes) (n : nat) : option Z :=
  if bool_decide ((strtol t).2 = drop n t) then Some (u32 (strtoul t)) else None.

(** The elements of a list; the next token has been read. *)
Fixpoint read_elements (fuel : nat) (read : option (bytes * nat) -> bytes -> result failure (node * bytes))
    (t : bytes) (n : nat) (st : bytes) : result failure (list node * bytes) :=
  match fuel with
  | O => Err Elog
  | Datatypes.S fuel =>
      if hd0 t =? 41 then Ok ([], st)
      else
        let! x := read (Some (t, n)) st in
        let! y := token_or_elog x.2 in
        let '(t, n, st) := y in
        let! z := read_elements fuel read t n st in
        Ok (x.1 :: z.1, z.2)
  end.

(** A list without elements is NULL. *)
Definition list_node (make : list Z -> node) (l : list Z) : node := match l with [] => Null | _ => make l end.

(** [pltsql_nodeRead] with [pltsql_parseNodeString]; every call reads a token, so that
    the length of the text bounds the depth. *)
Fixpoint pltsql_nodeRead (fuel : nat) (tok : option (bytes * nat)) (st : bytes)
    : result failure (node * bytes) :=
  match fuel with
  | O => Err Elog
  | Datatypes.S fuel =>
      match (match tok with Some tn => (Some tn, st) | None => pg_strtok st end) with
      | (None, st) => Ok (Null, st)
      | (Some (t, n), st) =>
          match pltsql_tokenType t n with
          | PLTSQL_LEFT_BRACE =>
              let! x :=
                match pg_strtok st with
                | (Some (t, n), st') =>
                    match fields_of (take n t) with
                    | Some fs =>
                        let! y := read_fields (pltsql_nodeRead fuel) fs [] st' in
                        Ok (Tagged (take n t) y.1, y.2)
                    | None => let! y := parseNodeString t in Ok (Server y.1, y.2)
                    end
                | (None, st') => let! y := parseNodeString st' in Ok (Server y.1, y.2)
                end in
              match pg_strtok x.2 with
              | (Some (t, _), st) => if hd0 t =? 125 then Ok (x.1, st) else Err Elog
              | (None, _) => Err Elog
              end
          | PLTSQL_LEFT_PAREN =>
              let! x := token_or_elog st in
              let '(t, n, st) := x in
              if (n =? 1)%nat && (hd0 t =? 105) then
                let! y := read_numbers fuel conv_int st in Ok (list_node IntList y.1, y.2)
              else if (n =? 1)%nat && (hd0 t =? 111) then
                let! y := read_numbers fuel conv_oid st in Ok (list_node OidList y.1, y.2)
              else if (n =? 1)%nat && (hd0 t =? 120) then
                let! y := read_numbers fuel conv_oid st in Ok (list_node XidList y.1, y.2)
              else if (n =? 1)%nat && (hd0 t =? 98) then
                let! y := read_numbers fuel conv_int st in
                let! n := bms_add_members y.1 in Ok (n, y.2)
              else
                let! y := read_elements fuel (pltsql_nodeRead fuel) t n st in
                Ok (match y.1 with [] => Null | l => NList l end, y.2)
          | PLTSQL_RIGHT_PAREN => Err Elog
          | PLTSQL_OTHER_TOKEN => if (n =? 0)%nat then Ok (Null, st) else Err Elog
          | T_Value => let! y := nodeRead t n st in Ok (Server y.1, y.2)
          end
      end
  end.

Definition pltsql_stringToNode (str : bytes) : result failure node :=
  let! x := pltsql_nodeRead (Datatypes.S (length str)) None str in Ok x.1.
End io.
