(* ===== verification/NodeIOProofs.v ===== *)
(** * NodeIOProofs: numbers, tokens and fields read back *)
From Stdlib Require Import String.
From stdpp Require Import base numbers list.
From S2P Require Import Prelude NodeIO.

(** ** Numbers *)

Definition digit_value (a : Z) (ds : bytes) : Z := foldl (fun v c => v * 10 + (c - 48)) a ds.

Lemma digit_value_app a ds ds' : digit_value a (ds ++ ds') = digit_value (digit_value a ds) ds'.
Proof. unfold digit_value. apply foldl_app. Qed.

Lemma digit_iff c : isdigit c = true <-> 48 <= c <= 57.
Proof. unfold isdigit. rewrite andb_true_iff, !Z.leb_le. lia. Qed.

Lemma digits_spec fuel n acc :
  0 <= n < 10 ^ Z.of_nat fuel -> (0 < fuel)%nat ->
  exists ds, digits fuel n acc = ds ++ acc /\ ds <> [] /\ forallb isdigit ds = true /\ digit_value 0 ds = n.
Proof.
  revert n acc. induction fuel as [|fuel IH]; intros n acc Hn Hf; [lia|]. cbn [digits].
  assert (Hd : isdigit (48 + n mod 10) = true) by (apply digit_iff; pose proof (Z.mod_pos_bound n 10); lia).
  pose proof (Z.div_mod n 10 ltac:(lia)) as Hdm.
  destruct (Z.ltb_spec n 10) as [Hlt|Hge].
  - exists [48 + n mod 10]. split_and!; try done; [cbn; by rewrite Hd|]. cbn. rewrite Z.mod_small by lia. lia.
  - destruct fuel as [|fuel]; [cbn in Hn; lia|].
    destruct (IH (n / 10) (48 + n mod 10 :: acc)) as (ds & -> & Hne & Hall & Hv); [|lia|].
    { split; [apply Z.div_pos; lia|]. apply Z.div_lt_upper_bound; [lia|].
      replace (10 * 10 ^ Z.of_nat (S fuel)) with (10 ^ Z.of_nat (S (S fuel))); [lia|].
      rewrite !Nat2Z.inj_succ, (Z.pow_succ_r 10 (Z.succ _)) by lia. done. }
    exists (ds ++ [48 + n mod 10]). split_and!.
    + by rewrite <- app_assoc.
    + by destruct ds.
    + rewrite forallb_app, Hall. cbn. by rewrite Hd.
    + rewrite digit_value_app, Hv. cbn. lia.
Qed.

Lemma scan_digits_spec ds rest a :
  forallb isdigit ds = true -> isdigit (hd0 rest) = false -> scan_digits (ds ++ rest) a = (digit_value a ds, rest).
Proof.
  revert a. induction ds as [|c ds IH]; intros a Hds Hr.
  - cbn. destruct rest as [|c rest]; [done|]. cbn in *. by rewrite Hr.
  - cbn in *. apply andb_true_iff in Hds as [Hc Hds]. rewrite Hc. by apply IH.
Qed.

Lemma ends_not_digit rest : ends rest -> isdigit (hd0 rest) = false.
Proof.
  destruct rest as [|c rest]; [done|]. cbn. unfold blank, special, isdigit. lia.
Qed.

Definition in_long (z : Z) : Prop := - 2 ^ 63 <= z < 2 ^ 64.

Lemma decimal_spec z : in_long z ->
  exists ds, forallb isdigit ds = true /\ ds <> [] /\ digit_value 0 ds = Z.abs z /\
    decimal z = if z <? 0 then 45 :: ds else ds.
Proof.
  intros Hz. unfold in_long in Hz. change (2 ^ 63) with 9223372036854775808 in Hz.
  change (2 ^ 64) with 18446744073709551616 in Hz. unfold decimal.
  destruct (Z.ltb_spec z 0).
  - destruct (digits_spec 20 (- z) []) as (ds & -> & Hne & Hall & Hv);
      [change (10 ^ Z.of_nat 20) with 100000000000000000000; lia|lia|].
    exists ds. rewrite app_nil_r. split_and!; try done. lia.
  - destruct (digits_spec 20 z []) as (ds & -> & Hne & Hall & Hv);
      [change (10 ^ Z.of_nat 20) with 100000000000000000000; lia|lia|].
    exists ds. rewrite app_nil_r. split_and!; try done. lia.
Qed.

Lemma hd0_digits ds rest : ds <> [] -> forallb isdigit ds = true -> isdigit (hd0 (ds ++ rest)) = true.
Proof. destruct ds; [done|]. cbn. intros _ Hd. by apply andb_true_iff in Hd as [-> _]. Qed.

Lemma strtol_decimal z rest : in_long z -> ends rest -> strtol (decimal z ++ rest) = (z, rest).
Proof.
  intros Hz Hr. destruct (decimal_spec z Hz) as (ds & Hall & Hne & Hv & ->).
  pose proof (ends_not_digit rest Hr) as Hend. unfold strtol.
  destruct (Z.ltb_spec z 0) as [Hneg|Hpos].
  - cbn [app]. change (skip_spaces (45 :: ds ++ rest)) with (45 :: ds ++ rest). cbn [hd0 tl].
    change (45 =? 45) with true. cbv beta iota.
    rewrite hd0_digits, scan_digits_spec by done. f_equal. lia.
  - destruct ds as [|c ds]; [done|]. cbn [app]. pose proof Hall as Hc. cbn in Hc.
    apply andb_true_iff in Hc as [Hc _]. pose proof (proj1 (digit_iff c) Hc) as Hrange.
    assert (Hsp : skip_spaces (c :: ds ++ rest) = c :: ds ++ rest).
    { cbn. replace (isspace c) with false; [done|]. unfold isspace. lia. }
    rewrite Hsp. cbn [hd0]. rewrite (proj2 (Z.eqb_neq c 45)), (proj2 (Z.eqb_neq c 43)) by lia.
    change (c :: ds ++ rest) with ((c :: ds) ++ rest). rewrite hd0_digits, scan_digits_spec by done.
    f_equal. lia.
Qed.

Lemma atoi_decimal z rest : in_i32 z = true -> ends rest -> atoi (decimal z ++ rest) = z.
Proof.
  intros Hz Hr. apply in_i32_iff in Hz as Hz'. unfold atoi, atol.
  rewrite strtol_decimal by (done || unfold in_long; cbn; lia). cbn [fst].
  unfold clamp64, INT64_MIN, INT64_MAX. rewrite Z.min_r, Z.max_r by lia. by apply i32_id.
Qed.

Lemma atol_decimal z rest : in_i64 z = true -> ends rest -> atol (decimal z ++ rest) = z.
Proof.
  intros Hz Hr. apply in_i64_iff in Hz. unfold atol.
  rewrite strtol_decimal by (done || unfold in_long; cbn; lia). cbn [fst].
  unfold clamp64, INT64_MIN, INT64_MAX. rewrite Z.min_r, Z.max_r by lia. done.
Qed.

Definition in_u32 (z : Z) : Prop := 0 <= z < 4294967296.

Lemma strtoul_decimal z rest : in_u32 z -> ends rest -> u32 (strtoul (decimal z ++ rest)) = z.
Proof.
  intros Hz Hr. unfold in_u32 in Hz. unfold strtoul.
  rewrite strtol_decimal by (done || unfold in_long; cbn; lia). cbn [fst].
  rewrite (proj2 (Z.leb_gt _ _)) by (cbn; lia). unfold u64, u32, uwrap.
  rewrite (Z.mod_small z (2 ^ 64)) by (cbn; lia). apply Z.mod_small. cbn. lia.
Qed.

Lemma word_chars_cons c w : c <> 92 ->
  word_chars (c :: w) = negb (blank c) && negb (special c) && negb (c =? 92) && negb (c =? 0) && word_chars w.
Proof.
  intros Hne. destruct c as [|c|c]; try done. repeat (destruct c as [c|c|]; try done).
Qed.

Lemma word_chars_digits ds : forallb isdigit ds = true -> word_chars ds = true.
Proof.
  induction ds as [|c ds IH]; [done|]. cbn [forallb]. intros [Hc Hds]%andb_true_iff.
  pose proof (proj1 (digit_iff c) Hc) as Hrange. rewrite word_chars_cons, (IH Hds) by lia.
  unfold blank, special. rewrite !andb_true_iff, !negb_true_iff. lia.
Qed.

(** ** What becomes of strings *)

(** The two quotes of the empty string are read as they stand. *)
Definition kept (s : option bytes) : option bytes := match s with Some [] => Some [34; 34] | s => s end.

Section reread.
Context {S B : Type}.

Definition reread_value (f : node S B -> node S B) (v : value (node S B) B) : value (node S B) B :=
  match v with
  | VStr s => VStr (kept s)
  | VStrs l => VStrs (map kept l)
  | VNode n => VNode (f n)
  | v => v
  end.

(** The tree that comes back when [n] has been written as text. *)
Fixpoint reread (n : node S B) : node S B :=
  match n with
  | NList l => NList (map reread l)
  | Tagged label vs => Tagged label (map (reread_value reread) vs)
  | n => n
  end.

Lemma kept_twice s : kept (kept s) = kept s.
Proof. by destruct s as [[|c s]|]. Qed.
End reread.

(** ** Nodes that have the shape their types announce *)

Section conforms.
Context {S B : Type}.
Abbreviation node := (node S B).
Abbreviation value := (value node B).
Variable fields_of : schema.
(** Conditions on strings and on the server's nodes and bitmapsets. *)
Variable str_ok : option bytes -> Prop.
Variable server_ok : S -> Prop.
Variable bms_ok : B -> Prop.

Definition value_ok (node_ok : node -> Prop) (k : kind) (before : list value) (v : value) : Prop :=
  match k, v with
  | (INT | ENUM), VNum z => in_i32 z = true
  | (UINT | OID), VNum z => in_u32 z
  | LONG, VNum z => in_i64 z = true
  | DBCC_TYPE, VNum z => z = PLTSQL_DBCC_CHECKIDENT
  | NFIELDS, VNum z => 0 <= z <= max_fields
  | BOOL, VBool _ => True
  | CHAR, VNum c => 0 <= c < 256
  | STRING, VStr s => str_ok s
  | NAME, VStr (Some s) => str_ok (Some s) /\ Z.of_nat (length s) <= max_name
  | NODE, VNode n => node_ok n
  | BITMAPSET, VBms b => bms_ok b
  | INT_ARRAY _, VNums None => True
  | (INT_ARRAY i | INTS i), VNums (Some l) =>
      length l = size_in before i /\ Forall (fun z => in_i32 z = true) l
  | STRINGS i, VStrs l => length l = size_in before i /\ Forall str_ok l
  | _, _ => False
  end.

Fixpoint fields_ok (node_ok : node -> Prop) (fs : list (bytes * kind)) (before vs : list value)
    {struct vs} : Prop :=
  match vs, fs with
  | v :: vs, (_, k) :: fs => value_ok node_ok k before v /\ fields_ok node_ok fs (before ++ [v]) vs
  | [], [] => True
  | _, _ => False
  end.

Fixpoint elements_ok (node_ok : node -> Prop) (l : list node) : Prop :=
  match l with [] => True | n :: l => node_ok n /\ elements_ok node_ok l end.

(** Lists have elements: NULL is the empty list. *)
Fixpoint conforms (n : node) : Prop :=
  match n with
  | Null => True
  | NList l => l <> [] /\ elements_ok conforms l
  | IntList l => l <> [] /\ Forall (fun z => in_i32 z = true) l
  | OidList l | XidList l => l <> [] /\ Forall in_u32 l
  | Tagged label vs =>
      match fields_of label with Some fs => fields_ok conforms fs [] vs | None => False end
  | Server s => server_ok s
  end.

Definition value_all (P : node -> Prop) (v : value) : Prop :=
  match v with VNode n => P n | _ => True end.

Lemma node_induction (P : node -> Prop) :
  P Null -> (forall l, Forall P l -> P (NList l)) -> (forall l, P (IntList l)) ->
  (forall l, P (OidList l)) -> (forall l, P (XidList l)) ->
  (forall label vs, Forall (value_all P) vs -> P (Tagged label vs)) ->
  (forall s, P (Server s)) -> forall n, P n.
Proof.
  intros Hnull Hlist Hint Hoid Hxid Htag Hsrv.
  fix IH 1. intros [|l|l|l|l|label vs|s]; [done| |auto..| |auto].
  - apply Hlist. induction l as [|n l IHl]; constructor; [apply IH|apply IHl].
  - apply Htag. induction vs as [|v vs IHv]; constructor; [|apply IHv].
    destruct v; try exact I. apply IH.
Qed.
End conforms.

(** Strings that come back: those that are not empty. *)
Definition storable (s : option bytes) : Prop :=
  match s with None => True | Some s => s <> [] /\ Forall (fun c => 0 < c < 256) s end.

(** A tree that came back comes back as itself. *)
Lemma reread_twice {S B} (n : node S B) : reread (reread n) = reread n.
Proof.
  induction n as [|l IH|l|l|l|label vs IH|s] using node_induction; try done; cbn; f_equal; rewrite map_map.
  - apply map_ext_in. intros n Hn. apply list_elem_of_In in Hn. rewrite Forall_forall in IH. by apply IH.
  - apply map_ext_in. intros v Hv. apply list_elem_of_In in Hv. rewrite Forall_forall in IH. specialize (IH v Hv).
    destruct v as [| |s|n| | |l]; try done; cbn in *; f_equal; [apply kept_twice|done|].
    rewrite map_map. apply map_ext. apply kept_twice.
Qed.

Section kept.
Context {S B : Type} (fields_of : schema) (server_ok : S -> Prop) (bms_ok : B -> Prop).
Abbreviation conforms := (conforms (S := S) fields_of).

Lemma storable_kept s : storable s -> kept s = s.
Proof. destruct s as [[|c s]|]; [by intros [? _]|done..]. Qed.

Lemma storable_kept_all l : Forall storable l -> map kept l = l.
Proof. induction 1 as [|s l Hs Hl IH]; [done|]. cbn. by rewrite storable_kept, IH. Qed.

Lemma fields_reread fs : forall before (vs : list (value (node S B) B)),
  Forall (value_all (fun n => conforms storable server_ok bms_ok n -> reread n = n)) vs ->
  fields_ok storable bms_ok (conforms storable server_ok bms_ok) fs before vs ->
  map (reread_value reread) vs = vs.
Proof.
  induction fs as [|[name k] fs IH]; intros before [|v vs] Hall Hok; try done. cbn in Hok |- *.
  destruct Hok as [Hv Hvs]. apply Forall_cons in Hall as [Hn Hall]. rewrite (IH _ _ Hall Hvs). f_equal.
  destruct k, v as [z|b|s|n|b|[l|]|l]; try done; cbn in Hv |- *.
  - by rewrite storable_kept.
  - by rewrite Hn.
  - destruct s as [s|]; [|done]. by rewrite storable_kept by apply Hv.
  - destruct Hv as [_ Hv]. by rewrite storable_kept_all.
Qed.

Lemma reread_id n : conforms storable server_ok bms_ok n -> reread n = n.
Proof.
  induction n as [|l IH|l|l|l|label vs IH|s] using node_induction; intros Hc; try done; cbn in Hc |- *.
  - destruct Hc as [_ Hc]. f_equal. induction IH as [|n l Hn IH' IH]; [done|]. cbn in Hc |- *.
    destruct Hc as [Hcn Hc]. by rewrite Hn, IH.
  - destruct (fields_of label) as [fs|]; [|done]. f_equal. by eapply fields_reread.
Qed.

(** Weaker conditions on strings. *)
Lemma value_ok_mono (P Q : option bytes -> Prop) (node_ok node_ok' : node S B -> Prop) k before v :
  (forall s, P s -> Q s) -> (forall n, v = VNode n -> node_ok n -> node_ok' n) ->
  value_ok P bms_ok node_ok k before v -> value_ok Q bms_ok node_ok' k before v.
Proof.
  intros HPQ Hn. destruct k, v as [z|b|s|n|b|[l|]|l]; try done; cbn; auto.
  - destruct s as [s|]; [|done]. intros [Hs Hl]. auto.
  - intros [Hl Hs]. split; [done|]. by eapply Forall_impl.
Qed.

Lemma conforms_mono (P Q : option bytes -> Prop) n : (forall s, P s -> Q s) ->
  conforms P server_ok bms_ok n -> conforms Q server_ok bms_ok n.
Proof.
  intros HPQ. induction n as [|l IH|l|l|l|label vs IH|s] using node_induction; try done; cbn.
  - intros [Hne Hl]. split; [done|]. clear Hne. induction IH as [|n l Hn IH' IH]; [done|]. cbn in *. tauto.
  - destruct (fields_of label) as [fs|]; [|done]. generalize (@nil (value (node S B) B)). clear label.
    revert fs. induction IH as [|v vs Hv IH' IH]; intros [|[name k] fs] before; try done. cbn.
    intros [Hok Hfs]. split; [|by apply IH]. eapply value_ok_mono; [done| |done]. intros n -> Hc. by apply Hv.
Qed.

Lemma storable_any (P : option bytes -> Prop) n : (forall s, storable s -> P s) ->
  conforms storable server_ok bms_ok n -> conforms P server_ok bms_ok n.
Proof. apply conforms_mono. Qed.
End kept.

(** ** What the fields of a node write is read back *)

Section tokens.
Context `{PgTokensLaws}.

Lemma word_decimal z : in_long z -> word (decimal z).
Proof.
  intros Hz. destruct (decimal_spec z Hz) as (ds & Hall & Hne & _ & ->).
  destruct (z <? 0); (split; [by destruct ds|]); [|by apply word_chars_digits].
  cbn. by rewrite word_chars_digits.
Qed.

Lemma decimal_head z : in_long z -> (hd0 (decimal z) = 45 \/ isdigit (hd0 (decimal z)) = true).
Proof.
  intros Hz. destruct (decimal_spec z Hz) as (ds & Hall & Hne & _ & ->).
  destruct (z <? 0); [by left|right]. rewrite <- (app_nil_r ds). by apply hd0_digits.
Qed.

Lemma hd0_app w rest : w <> [] -> hd0 (w ++ rest) = hd0 w.
Proof. by destruct w. Qed.

Lemma strtok_number ws z rest : forallb blank ws = true -> in_long z -> ends rest ->
  pg_strtok (ws ++ decimal z ++ rest) = (Some (decimal z ++ rest, length (decimal z)), rest).
Proof.
  intros Hws Hz Hr. rewrite strtok_word by (done || by apply word_decimal).
  destruct (decide _) as [Heq|]; [|done].
  destruct (decimal_head z Hz) as [Hh|Hh]; rewrite Heq in Hh; discriminate Hh.
Qed.

Lemma strtok_word1 w rest : word w -> ends rest ->
  pg_strtok (32 :: w ++ rest) =
  (Some (w ++ rest, if decide (w = b# "<>") then 0%nat else length w), rest).
Proof. exact (strtok_word [32] w rest eq_refl). Qed.

Lemma token_number z rest : in_long z -> ends rest ->
  token (32 :: decimal z ++ rest) = Ok (decimal z ++ rest, length (decimal z), rest).
Proof. intros Hz Hr. unfold token. by rewrite (strtok_number [32] z rest eq_refl Hz Hr : pg_strtok (32 :: decimal z ++ rest) = _). Qed.

Lemma token_or_elog_number z rest : in_long z -> ends rest ->
  token_or_elog (32 :: decimal z ++ rest) = Ok (decimal z ++ rest, length (decimal z), rest).
Proof. intros Hz Hr. unfold token_or_elog. by rewrite (strtok_number [32] z rest eq_refl Hz Hr : pg_strtok (32 :: decimal z ++ rest) = _). Qed.

Lemma in_long_i32 z : in_i32 z = true -> in_long z.
Proof. intros Hz%in_i32_iff. unfold in_long. cbn. lia. Qed.
Lemma in_long_i64 z : in_i64 z = true -> in_long z.
Proof. intros Hz%in_i64_iff. unfold in_long. cbn. lia. Qed.
Lemma in_long_u32 z : in_u32 z -> in_long z.
Proof. unfold in_u32, in_long. cbn. lia. Qed.

(** Strings of C: NULL, or characters without a NUL. *)
Definition clean (s : option bytes) : Prop :=
  match s with None => True | Some s => Forall (fun c => 0 < c < 256) s end.

Lemma strtok_nonempty s rest : s <> [] -> Forall (fun c => 0 < c < 256) s -> ends rest -> exists t n,
  pg_strtok (32 :: outToken (Some s) ++ rest) = (Some (t, n), rest) /\ pltsql_nullable_string t n = Some s.
Proof.
  intros Hne Hall Hr. destruct (outToken_word s Hne Hall) as (Hw & Hnn & Hback).
  eexists _, _. split; [apply strtok_word1; done|].
  destruct (decide _) as [|_]; [done|]. unfold pltsql_nullable_string.
  rewrite (proj2 (Nat.eqb_neq _ 0)) by (intros E%nil_length_inv; by destruct Hw).
  rewrite (take_app_length (outToken (Some s)) rest).
  destruct (length _ =? 2)%nat eqn:Hl; [|exact (f_equal Some Hback)]. apply Nat.eqb_eq in Hl.
  rewrite bool_decide_eq_false_2; [exact (f_equal Some Hback)|]. intros Ht. apply Hnn.
  rewrite <- Ht. rewrite <- Hl. by rewrite (take_app_length (outToken (Some s)) rest).
Qed.

Lemma strtok_string s rest : clean s -> ends rest -> exists t n,
  pg_strtok (32 :: outToken s ++ rest) = (Some (t, n), rest) /\ pltsql_nullable_string t n = kept s.
Proof.
  intros Hs Hr. destruct s as [[|c s]|].
  - rewrite outToken_empty. eexists _, _. split; [by apply strtok_word1|].
    exact (f_equal Some debackslash_quotes).
  - by apply strtok_nonempty.
  - rewrite outToken_null. eexists _, _. split; [apply strtok_word1; done|].
    destruct (decide _) as [_|Hn]; [done|by destruct Hn].
Qed.

Lemma token_string s rest : clean s -> ends rest ->
  exists t n, token (32 :: outToken s ++ rest) = Ok (t, n, rest) /\ pltsql_nullable_string t n = kept s.
Proof.
  intros Hs Hr. destruct (strtok_string s rest Hs Hr) as (t & n & Ht & Hn).
  exists t, n. unfold token. by rewrite Ht.
Qed.

Lemma read_strings_back l rest : Forall clean l -> ends rest ->
  read_strings (length l) (concat ((fun s => 32 :: outToken s) <$> l) ++ rest) = Ok (map kept l, rest).
Proof.
  intros Hl Hr. induction Hl as [|s l Hs Hl IH]; [done|]. cbn [fmap list_fmap concat length read_strings].
  rewrite <- app_assoc. cbn [app]. unfold token_or_elog.
  assert (He : ends (concat ((fun s => 32 :: outToken s) <$> l) ++ rest)) by (destruct l; [done|by left]).
  destruct (strtok_string s _ Hs He) as (t & n & Ht & Hn). rewrite Ht. cbn. rewrite IH. cbn. by rewrite Hn.
Qed.

Definition numbers (l : list Z) : bytes := concat ((fun z => 32 :: decimal z) <$> l).

Lemma ends_numbers l rest : ends rest -> ends (numbers l ++ rest).
Proof. destruct l; [done|]. intros _. by left. Qed.

Lemma read_ints_back l rest : Forall (fun z => in_i32 z = true) l -> ends rest ->
  read_ints (length l) (numbers l ++ rest) = Ok (l, rest).
Proof.
  intros Hl Hr. induction Hl as [|z l Hz Hl IH]; [done|]. unfold numbers.
  cbn [fmap list_fmap concat length read_ints]. rewrite <- app_assoc. cbn [app]. fold (numbers l).
  rewrite token_or_elog_number by (by apply in_long_i32 || by apply ends_numbers). cbn. rewrite IH. cbn.
  rewrite atoi_decimal by (done || by apply ends_numbers). done.
Qed.

(** Numbers up to the closing parenthesis. *)
Lemma read_numbers_back (ok : Z -> Prop) conv l fuel rest :
  (forall z rest, ok z -> ends rest -> in_long z /\ conv (decimal z ++ rest) (length (decimal z)) = Some z) ->
  Forall ok l -> (length l < fuel)%nat ->
  read_numbers fuel conv (numbers l ++ 41 :: rest) = Ok (l, rest).
Proof.
  intros Hconv Hl. revert fuel. induction Hl as [|z l Hz Hl IH]; intros [|fuel] Hf; [cbn in Hf; lia| |cbn in Hf; lia|].
  - cbn [read_numbers]. unfold token_or_elog, numbers. cbn [fmap list_fmap concat app].
    by rewrite (strtok_special [] 41 rest eq_refl eq_refl : pg_strtok (41 :: rest) = _).
  - unfold numbers. cbn [fmap list_fmap concat read_numbers]. rewrite <- app_assoc. cbn [app]. fold (numbers l).
    assert (He : ends (numbers l ++ 41 :: rest)) by (apply ends_numbers; by right).
    destruct (Hconv z _ Hz He) as [Hlong Hc].
    rewrite token_or_elog_number by done. cbn [rbind].
    rewrite hd0_app by (apply (word_decimal z Hlong)).
    destruct (Z.eqb_spec (hd0 (decimal z)) 41) as [E|_].
    { destruct (decimal_head z Hlong) as [Hh|Hh]; rewrite E in Hh; discriminate Hh. }
    rewrite Hc, IH by (cbn in Hf; lia). done.
Qed.

Lemma conv_int_decimal z rest : in_i32 z = true -> ends rest ->
  in_long z /\ conv_int (decimal z ++ rest) (length (decimal z)) = Some z.
Proof.
  intros Hz Hr. pose proof (in_long_i32 z Hz) as Hl. split; [done|]. unfold conv_int.
  rewrite strtol_decimal by done. cbn [fst snd]. rewrite drop_app_length, bool_decide_eq_true_2 by done.
  pose proof (atoi_decimal z rest Hz Hr) as Ha. unfold atoi, atol in Ha. rewrite strtol_decimal in Ha by done.
  cbn [fst] in Ha. by rewrite Ha.
Qed.

Lemma conv_oid_decimal z rest : in_u32 z -> ends rest ->
  in_long z /\ conv_oid (decimal z ++ rest) (length (decimal z)) = Some z.
Proof.
  intros Hz Hr. pose proof (in_long_u32 z Hz) as Hl. split; [done|]. unfold conv_oid.
  rewrite strtol_decimal by done. cbn [fst snd]. rewrite drop_app_length, bool_decide_eq_true_2 by done.
  by rewrite strtoul_decimal.
Qed.

(** One character. *)
Lemma token_char c rest : 0 <= c < 256 -> ends rest -> exists t n,
  token (32 :: (if c =? 0 then b# "<>" else outToken (Some [c])) ++ rest) = Ok (t, n, rest) /\ read_char t n = c.
Proof.
  intros Hc Hr. unfold token. destruct (Z.eqb_spec c 0) as [->|Hne].
  - eexists _, _. rewrite strtok_word1 by done. split; [done|].
    destruct (decide _) as [_|Hn]; [done|by destruct Hn].
  - assert (Hpos : 0 < c < 256) by lia.
    destruct (outToken_word [c]) as (Hw & Hnn & _); [done|by constructor|].
    eexists _, _. rewrite strtok_word1 by done. split; [done|].
    destruct (decide _) as [|_]; [done|]. unfold read_char.
    destruct (outToken_char c Hpos) as [->|[-> H92]]; [done|]. cbn.
    by rewrite (proj2 (Z.eqb_neq c 92)).
Qed.
End tokens.
