(* ===== verification/NodeIONodes.v ===== *)
(** * NodeIONodes: whole nodes are read back

    What the server's functions promise, and that the text of a node, in any surroundings,
    is read as that node. *)
From Stdlib Require Import String.
From stdpp Require Import base numbers list.
From S2P Require Import Prelude NodeIO NodeIOProofs.

(** The text of a value node: a number, a truth value, a quoted string or a bit string. *)
Definition number_text (w : bytes) : bool :=
  let u := if (hd0 w =? 43) || (hd0 w =? 45) then tl w else w in
  isdigit (hd0 u) || (hd0 u =? 46) && isdigit (hd0 (tl u)).

Definition value_text (w : bytes) : bool :=
  number_text w || bool_decide (w = b# "true") || bool_decide (w = b# "false") ||
  (1 <? length w)%nat &&
    ((hd0 w =? 34) && (nth (length w - 1) w 0 =? 34) || (hd0 w =? 98) || (hd0 w =? 120)).

Lemma ok_inj {E A} (a b : A) : Ok a = (Ok b : result E A) -> a = b.
Proof. congruence. Qed.

Lemma number_prefix u rest :
  isdigit (hd0 u) || (hd0 u =? 46) && isdigit (hd0 (tl u)) = true ->
  ((0 <? length u)%nat && isdigit (hd0 (u ++ rest))) ||
  ((1 <? length u)%nat && (hd0 (u ++ rest) =? 46) && isdigit (hd0 (tl (u ++ rest)))) = true.
Proof. destruct u as [|a [|b u]]; cbn -[isdigit]; [done| |done]. by rewrite andb_false_r. Qed.

Lemma number_token w rest : number_text w = true -> pltsql_tokenType (w ++ rest) (length w) = T_Value.
Proof.
  unfold number_text, pltsql_tokenType. destruct w as [|c w]; [done|].
  cbn [hd0 app tl length]. rewrite Nat.sub_succ, Nat.sub_0_r.
  destruct ((c =? 43) || (c =? 45)); intros Hn.
  - by rewrite (number_prefix w rest Hn).
  - pose proof (number_prefix (c :: w) rest Hn) as Hp. cbn [hd0 app tl length] in Hp |- *. by rewrite Hp.
Qed.

Lemma value_text_token w rest : w <> [] -> value_text w = true -> pltsql_tokenType (w ++ rest) (length w) = T_Value.
Proof.
  intros Hne Hv. unfold value_text in Hv. rewrite !orb_true_iff, !bool_decide_eq_true in Hv.
  destruct Hv as [[[Hn| ->]| ->]|Hq]; [by apply number_token|done|done|].
  apply andb_true_iff in Hq as [Hlen Hq]. unfold pltsql_tokenType. rewrite !hd0_app by done.
  rewrite !orb_true_iff, andb_true_iff, !Z.eqb_eq in Hq. rewrite app_nth1 by (apply Nat.ltb_lt in Hlen; lia).
  destruct Hq as [[[Hh Hl]|Hh]|Hh]; rewrite Hh;
    cbn -[bytes_of_string Nat.ltb nth Nat.sub take]; rewrite ?andb_false_r, hd0_app, Hh by done;
    cbn -[bytes_of_string Nat.ltb nth Nat.sub take]; rewrite ?andb_false_r;
    cbn -[bytes_of_string Nat.ltb nth Nat.sub take].
  - rewrite Hlen, Hl. by destruct (_ || _).
  - by destruct (_ || _).
  - by destruct (_ || _).
Qed.

Lemma value_text_head w : value_text w = true ->
  w <> b# "<>" /\ hd0 w <> 41 /\ (length w = 1%nat -> hd0 w ∉ [105; 111; 120; 98]).
Proof.
  intros Hv. split; [by intros ->|]. destruct w as [|c w]; [done|]. cbn [hd0]. split.
  - intros ->. destruct w; done.
  - intros Hl Hin. destruct w; [|done]. repeat (apply elem_of_cons in Hin as [->|Hin]; [done|]). by apply not_elem_of_nil in Hin.
Qed.

Section nodes.
Context `{PgTokensLaws} {S B : Type}.
Variable outNode : S -> bytes.
Variable parseNodeString : bytes -> result failure (S * bytes).
Variable nodeRead : bytes -> nat -> bytes -> result failure (S * bytes).
Variable outBitmapset : B -> bytes.
Variable readBitmapset : bytes -> result failure (B * bytes).
Variable readIntCols : nat -> bytes -> result failure (option (list Z) * bytes).
Variable bms_add_members : list Z -> result failure (node S B).
Variable fields_of : schema.
Variable server_ok : S -> Prop.
Variable bms_ok : B -> Prop.

Abbreviation node := (node S B).
Abbreviation value := (value node B).
Abbreviation conforms := (conforms fields_of clean server_ok bms_ok : node -> Prop).
Abbreviation value_ok := (value_ok clean bms_ok conforms).
Abbreviation fields_ok := (fields_ok clean bms_ok conforms).
Abbreviation pltsql_outNode := (pltsql_outNode outNode outBitmapset fields_of).
Abbreviation pltsql_nodeRead :=
  (pltsql_nodeRead parseNodeString nodeRead readBitmapset readIntCols bms_add_members fields_of).

(** A node of the server in braces, with a label that is not one of PL/tsql. *)
Definition braced (s : S) : Prop :=
  exists label body, outNode s = 123 :: label ++ body ++ [125] /\
    word label /\ label <> b# "<>" /\ ends (body ++ [125]) /\ fields_of label = None /\
    forall rest, parseNodeString (label ++ body ++ 125 :: rest) = Ok (s, 125 :: rest).

(** A value node. *)
Definition plain (s : S) : Prop :=
  word (outNode s) /\ value_text (outNode s) = true /\
  forall rest, ends rest -> nodeRead (outNode s ++ rest) (length (outNode s)) rest = Ok (s, rest).

(** The server reads back what it writes; labels and field names are C identifiers. *)
Record ServerLaws : Prop := {
  server_text s : server_ok s -> braced s \/ plain s;
  bitmapset_back b rest : bms_ok b -> ends rest -> readBitmapset (32 :: outBitmapset b ++ rest) = Ok (b, rest);
  ints_null n rest : ends rest -> readIntCols n (32 :: b# "<>" ++ rest) = Ok (None, rest);
  ints_back l rest : Forall (fun z => in_i32 z = true) l -> ends rest ->
    readIntCols (length l) (32 :: 40 :: numbers l ++ b# " )" ++ rest) = Ok (Some l, rest);
  schema_words label fs : fields_of label = Some fs ->
    word label /\ label <> b# "<>" /\ Forall (fun f => word_chars f.1 = true) fs
}.
Hypothesis laws : ServerLaws.

(** [read] reads the text [t] as the tree that comes back of [n]. *)
Definition reads (read : option (bytes * nat) -> bytes -> result failure (node * bytes)) (n : node) (t : bytes) : Prop :=
  forall rest, ends rest -> read None (32 :: t ++ rest) = Ok (reread n, rest).

Lemma read_num_back read k (before before' : list value) z rest :
  value_ok k before' (VNum z) -> match k with INT | ENUM | UINT | OID | LONG | NFIELDS | DBCC_TYPE => True | _ => False end ->
  ends rest -> read_value readBitmapset readIntCols read k before (32 :: decimal z ++ rest) = Ok (VNum z, rest).
Proof.
  intros Hv Hk Hr. destruct k; try done; cbn [NodeIOProofs.value_ok] in Hv; cbn [read_value].
  - rewrite token_number by (done || by apply in_long_i32). cbn. by rewrite atoi_decimal.
  - rewrite token_number by (done || by apply in_long_u32). cbn. unfold atoui. by rewrite strtoul_decimal.
  - rewrite token_number by (done || by apply in_long_u32). cbn. unfold atoui. by rewrite strtoul_decimal.
  - rewrite token_number by (done || by apply in_long_i64). cbn. by rewrite atol_decimal.
  - rewrite token_number by (done || by apply in_long_i32). cbn. by rewrite atoi_decimal.
  - assert (Hi : in_i32 z = true) by (apply in_i32_iff; unfold max_fields in Hv; lia).
    rewrite token_number by (done || by apply in_long_i32). cbn. rewrite atoi_decimal by done.
    rewrite (proj2 (Z.ltb_ge z 0)), (proj2 (Z.ltb_ge max_fields z)) by lia. done.
  - subst z. rewrite token_number by (done || by apply in_long_i32). cbn [rbind].
    rewrite atoi_decimal by done. done.
Qed.

Lemma token_bool b rest : ends rest -> exists n,
  token (32 :: booltostr b ++ rest) = Ok (booltostr b ++ rest, n, rest) /\ strtobool (booltostr b ++ rest) = b.
Proof.
  intros Hr. unfold token. rewrite strtok_word1 by (by destruct b). eexists. split; [done|]. by destruct b.
Qed.

Lemma size_in_reread f (before : list value) i : size_in (map (reread_value f) before) i = size_in before i.
Proof.
  unfold size_in. rewrite (list_lookup_fmap (reread_value f) before i : map (reread_value f) before !! i = _).
  destruct (before !! i) as [[]|]; done.
Qed.

Lemma read_value_back out read k before v t rest :
  (forall n t', v = VNode n -> conforms n -> out n = Ok t' -> (length t' <= length t)%nat -> reads read n t') ->
  value_ok k before v -> write_value outBitmapset out k v = Ok t -> ends rest ->
  read_value readBitmapset readIntCols read k (map (reread_value reread) before) (t ++ rest) =
  Ok (reread_value reread v, rest).
Proof.
  intros Hread Hv Hw Hr.
  destruct k, v as [z|b|s|n|b|[l|]|l]; try done; cbn [write_value] in Hw; try (apply ok_inj in Hw; subst t);
    try (by eapply read_num_back).
  - cbn. destruct (token_bool b rest Hr) as (n & -> & Hb). cbn. by rewrite Hb.
  - destruct (token_char z rest Hv Hr) as (t & n & Ht & Hc). cbn [app read_value]. rewrite Ht. cbn. by rewrite Hc.
  - destruct (token_string s rest Hv Hr) as (t & n & Ht & Hs). cbn [app read_value]. rewrite Ht. cbn. by rewrite Hs.
  - apply rbind_ok in Hw as (t' & Ht' & [= <-]). cbn [app read_value].
    rewrite (Hread n t' eq_refl Hv Ht' ltac:(cbn; lia) rest Hr). done.
  - cbn. by rewrite (bitmapset_back laws).
  - destruct Hv as [Hl Hall]. cbn [app read_value]. rewrite size_in_reread, <- Hl. fold (numbers l). rewrite <- app_assoc.
    rewrite (ints_back laws l rest Hall Hr). done.
  - cbn [app read_value]. rewrite (ints_null laws) by done. done.
  - destruct s as [s|]; [|done]. destruct Hv as [Hs Hlen].
    destruct (token_string (Some s) rest Hs Hr) as (t & n & Ht & Hn). cbn [app read_value]. rewrite Ht. cbn [rbind].
    rewrite Hn. destruct s as [|c s]; [done|]. cbn [kept].
    change (default [] (Some (c :: s))) with (c :: s). cbv zeta.
    by rewrite (proj2 (Z.ltb_ge _ _) Hlen).
  - destruct Hv as [Hl Hall]. cbn [read_value]. rewrite size_in_reread, <- Hl, read_strings_back by done. done.
  - destruct Hv as [Hl Hall]. cbn [read_value]. rewrite size_in_reread, <- Hl. fold (numbers l). rewrite read_ints_back by done. done.
  - cbn in Hv. subst z. apply ok_inj in Hw. subst t. by apply (read_num_back read DBCC_TYPE _ before 0).
Qed.

Lemma ends_field k out (v : value) t rest : write_value outBitmapset out k v = Ok t -> ends rest -> ends (t ++ rest).
Proof.
  intros Hw Hr. assert (Hsp : t = [] \/ hd0 t = 32 /\ t <> []).
  { destruct k, v as [z|b|s|n|b|[l|]|l]; try done; cbn [write_value] in Hw;
      try (apply rbind_ok in Hw as (t' & _ & Hw)); try (destruct (z =? _) in Hw; [|done]);
      apply ok_inj in Hw; subst t; try (by right); (destruct l; [by left|by right]). }
  destruct Hsp as [->|[Hsp Hne]]; [done|]. destruct t as [|c t]; [done|]. cbn in Hsp. subst c. by left.
Qed.

Lemma ends_fields out fs (vs : list value) t rest : write_fields outBitmapset out fs vs = Ok t -> ends rest -> ends (t ++ rest).
Proof.
  destruct vs as [|v vs], fs as [|[name k] fs]; try done; cbn; [by intros [= <-]|].
  intros Hw Hr. apply rbind_ok in Hw as (t1 & _ & Hw). apply rbind_ok in Hw as (t2 & _ & [= <-]). by left.
Qed.

Lemma strtok_name name rest : word_chars name = true -> ends rest -> (pg_strtok (32 :: 58 :: name ++ rest)).2 = rest.
Proof.
  intros Hn Hr. change (58 :: name ++ rest) with ((58 :: name) ++ rest). by rewrite strtok_word1.
Qed.

Lemma read_fields_back out read fs : forall before (vs : list value) t rest,
  (forall n t', VNode n ∈ vs -> conforms n -> out n = Ok t' -> (length t' <= length t)%nat -> reads read n t') ->
  Forall (fun f => word_chars f.1 = true) fs -> fields_ok fs before vs ->
  write_fields outBitmapset out fs vs = Ok t -> ends rest ->
  read_fields readBitmapset readIntCols read fs (map (reread_value reread) before) (t ++ rest) =
  Ok (map (reread_value reread) (before ++ vs), rest).
Proof.
  induction fs as [|[name k] fs IH]; intros before [|v vs] t rest Hread Hnames Hok Hw Hr; try done.
  - cbn in Hw. injection Hw as <-. by rewrite app_nil_r.
  - cbn in Hw, Hok. destruct Hok as [Hv Hvs]. apply Forall_cons in Hnames as [Hn Hnames].
    apply rbind_ok in Hw as (t1 & Ht1 & Hw). apply rbind_ok in Hw as (t2 & Ht2 & Hw). apply ok_inj in Hw. subst t.
    cbn [read_fields app]. rewrite <- !app_assoc.
    pose proof (ends_fields _ _ _ _ rest Ht2 Hr) as He2.
    rewrite strtok_name by (done || by eapply ends_field).
    rewrite (read_value_back out read k before v t1 (t2 ++ rest)); try done.
    + cbn [rbind fst snd].
      replace (map (reread_value reread) before ++ [reread_value reread v])
        with (map (reread_value reread) (before ++ [v])) by (by rewrite map_app).
      rewrite (IH _ vs t2); try done; [by rewrite <- app_assoc|].
      intros n t' Hin Hc Ht' Hlen. eapply Hread; try done; [by constructor|].
      cbn. rewrite !length_app. lia.
    + intros n t' -> Hc Ht' Hlen. eapply Hread; try done; [by constructor|]. cbn. rewrite !length_app. lia.
Qed.

(** *** Nodes *)

(** The text [t], wherever it stands, starts with a token that leads [pltsql_nodeRead] to
    [n]; it is neither a closing parenthesis nor the mark of a list of numbers. *)
Definition starts (fuel : nat) (n : node) (t : bytes) : Prop :=
  forall ws rest, forallb blank ws = true -> ends rest -> exists tok len st,
    pg_strtok (ws ++ t ++ rest) = (Some (tok, len), st) /\
    pltsql_nodeRead fuel (Some (tok, len)) st = Ok (reread n, rest) /\
    hd0 tok <> 41 /\ (len = 1%nat -> hd0 tok ∉ [105; 111; 120; 98]).

Lemma starts_reads fuel n t : starts fuel n t -> reads (pltsql_nodeRead fuel) n t.
Proof.
  intros Hs rest Hr. destruct (Hs [32] rest eq_refl Hr) as (tok & len & st & Ht & Hn & _).
  destruct fuel as [|fuel]; [done|]. cbn [app] in Ht. rewrite <- Hn. cbn [NodeIO.pltsql_nodeRead]. by rewrite Ht.
Qed.

Lemma starts_null fuel : starts (Datatypes.S fuel) Null (b# "<>").
Proof.
  intros ws rest Hws Hr. eexists _, _, _. split; [by apply strtok_word|]. done.
Qed.


Lemma starts_plain fuel s : plain s -> starts (Datatypes.S fuel) (Server s) (outNode s).
Proof.
  intros (Hw & Hv & Hread) ws rest Hws Hr. destruct (value_text_head _ Hv) as (Hnn & H41 & Hmark).
  eexists _, _, _. split; [by apply strtok_word|]. destruct (decide _) as [|_]; [done|].
  rewrite hd0_app by apply Hw. split; [|done]. cbn [NodeIO.pltsql_nodeRead].
  rewrite value_text_token by (apply Hw || done). by rewrite Hread.
Qed.

Lemma strtok_brace ws rest c : forallb blank ws = true -> special c = true -> forall rest',
  pg_strtok (ws ++ (c :: rest) ++ rest') = (Some (c :: rest ++ rest', 1%nat), rest ++ rest').
Proof. intros Hws Hc rest'. by apply strtok_special. Qed.

Lemma strtok_label label rest : word label -> label <> b# "<>" -> ends rest ->
  pg_strtok (label ++ rest) = (Some (label ++ rest, length label), rest).
Proof.
  intros Hw Hnn Hr. rewrite (strtok_word [] label rest eq_refl Hw Hr : pg_strtok (label ++ rest) = _).
  by destruct (decide _).
Qed.

Lemma starts_braced fuel s : braced s -> starts (Datatypes.S fuel) (Server s) (outNode s).
Proof.
  intros (label & body & -> & Hw & Hnn & He & Hf & Hparse) ws rest Hws Hr.
  eexists _, _, _. split; [by apply strtok_brace|]. split; [|split; [done|]].
  - cbn [NodeIO.pltsql_nodeRead]. change (pltsql_tokenType _ _) with PLTSQL_LEFT_BRACE. cbv iota.
    rewrite <- !app_assoc. cbn [app].
    rewrite strtok_label by (done || by destruct body). rewrite (take_app_length label), Hf, Hparse. cbn [rbind snd fst].
    by rewrite (strtok_special [] 125 rest eq_refl eq_refl : pg_strtok (125 :: rest) = _).
  - intros _ Hin. repeat (apply elem_of_cons in Hin as [Hin|Hin]; [done|]). by apply not_elem_of_nil in Hin.
Qed.

Lemma numbers_length l : (length l <= length (numbers l))%nat.
Proof. induction l as [|z l IH]; [done|]. unfold numbers in *. cbn. rewrite length_app. lia. Qed.

Lemma paren_mark (len : nat) : len = 1%nat -> (40 : Z) ∉ [105; 111; 120; 98].
Proof. intros _ Hin. repeat (apply elem_of_cons in Hin as [Hin|Hin]; [done|]). by apply not_elem_of_nil in Hin. Qed.

Lemma starts_numbers tag ok conv make fuel l :
  (tag, conv, make) ∈ [(105, conv_int, IntList); (111, conv_oid, OidList); (120, conv_oid, XidList)] ->
  (forall z rest, ok z -> ends rest -> in_long z /\ conv (decimal z ++ rest) (length (decimal z)) = Some z) ->
  l <> [] -> Forall ok l -> (length (out_numbers tag l) < fuel)%nat ->
  starts fuel (make l) (out_numbers tag l).
Proof.
  intros Htag Hconv Hne Hl Hf ws rest Hws Hr. destruct fuel as [|fuel]; [lia|].
  eexists _, _, _. split; [by apply strtok_brace|]. split; [|split; [done|apply paren_mark]].
  assert (Hword : word [tag] /\ [tag] <> b# "<>").
  { repeat (apply elem_of_cons in Htag as [[= -> -> ->]|Htag]; [done|]). by apply not_elem_of_nil in Htag. }
  destruct Hword as [Hw Hnn]. cbn [NodeIO.pltsql_nodeRead].
  change (pltsql_tokenType _ _) with PLTSQL_LEFT_PAREN. cbv iota. unfold token_or_elog.
  replace ((tag :: concat ((λ z : Z, 32 :: decimal z) <$> l) ++ [41]) ++ rest)
    with ([tag] ++ numbers l ++ 41 :: rest) by (cbn; by rewrite <- app_assoc).
  rewrite strtok_label; [|done..|apply ends_numbers; by right]. cbn [rbind].
  pose proof (read_numbers_back ok conv l fuel rest Hconv Hl) as Hread.
  assert (Hlen : (length l < fuel)%nat).
  { pose proof (numbers_length l). unfold out_numbers in Hf. fold (numbers l) in Hf. cbn in Hf.
    rewrite length_app in Hf. cbn in Hf. lia. }
  specialize (Hread Hlen). destruct l as [|z l]; [done|].
  repeat (apply elem_of_cons in Htag as [[= -> -> ->]|Htag]; [cbn -[numbers read_numbers]; by rewrite Hread|]).
  by apply not_elem_of_nil in Htag.
Qed.

Lemma starts_tagged fuel label fs vs t :
  fields_of label = Some fs -> fields_ok fs [] vs ->
  write_fields outBitmapset pltsql_outNode fs vs = Ok t ->
  (forall n t', VNode n ∈ vs -> conforms n -> pltsql_outNode n = Ok t' -> (length t' <= length t)%nat ->
     reads (pltsql_nodeRead fuel) n t') ->
  starts (Datatypes.S fuel) (Tagged label vs) (123 :: label ++ t ++ [125]).
Proof.
  intros Hf Hok Ht Hread ws rest Hws Hr. destruct (schema_words laws label fs Hf) as (Hw & Hnn & Hnames).
  eexists _, _, _. split; [by apply strtok_brace|]. split; [|split; [done|]].
  - cbn [NodeIO.pltsql_nodeRead]. change (pltsql_tokenType _ _) with PLTSQL_LEFT_BRACE. cbv iota.
    rewrite <- !app_assoc. cbn [app].
    rewrite strtok_label by (done || (eapply ends_fields; [done|by right])).
    rewrite (take_app_length label), Hf.
    rewrite (read_fields_back pltsql_outNode _ fs [] vs t (125 :: rest)) by (done || by right).
    cbn [rbind snd fst app].
    by rewrite (strtok_special [] 125 rest eq_refl eq_refl : pg_strtok (125 :: rest) = _).
  - intros _ Hin. repeat (apply elem_of_cons in Hin as [Hin|Hin]; [done|]). by apply not_elem_of_nil in Hin.
Qed.

(** The elements of a list, up to its end. *)
Lemma read_elements_back fuel l : forall t efuel ws rest,
  Forall (fun n => forall t', pltsql_outNode n = Ok t' -> (length t' <= length t)%nat -> starts fuel n t') l ->
  l <> [] -> out_elements pltsql_outNode l = Ok t -> forallb blank ws = true -> (length l < efuel)%nat ->
  exists tok len st, pg_strtok (ws ++ t ++ 41 :: rest) = (Some (tok, len), st) /\
    (len = 1%nat -> hd0 tok ∉ [105; 111; 120; 98]) /\
    read_elements efuel (pltsql_nodeRead fuel) tok len st = Ok (map reread l, rest).
Proof.
  induction l as [|n l IH]; intros t efuel ws rest Hall Hne Ht Hws Hf; [done|].
  apply Forall_cons in Hall as [Hn Hall]. destruct efuel as [|efuel]; [cbn in Hf; lia|].
  destruct l as [|m l].
  - cbn in Ht. destruct (Hn t Ht ltac:(done) ws (41 :: rest) Hws) as (tok & len & st & Htok & Hr & H41 & Hm);
      [by right|].
    exists tok, len, st. split_and!; [done..|]. cbn [read_elements].
    rewrite (proj2 (Z.eqb_neq _ 41) H41), Hr. cbn [rbind snd fst]. unfold token_or_elog.
    rewrite (strtok_special [] 41 rest eq_refl eq_refl : pg_strtok (41 :: rest) = _). cbn [rbind].
    destruct efuel; [cbn in Hf; lia|]. done.
  - change (out_elements pltsql_outNode (n :: m :: l)) with
      (let! t := pltsql_outNode n in let! ts := out_elements pltsql_outNode (m :: l) in Ok (t ++ 32 :: ts)) in Ht.
    apply rbind_ok in Ht as (t1 & Ht1 & Ht). apply rbind_ok in Ht as (t2 & Ht2 & Ht). apply ok_inj in Ht. subst t.
    rewrite length_app in Hn, Hall. cbn [length] in Hn, Hall.
    destruct (Hn t1 Ht1 ltac:(lia) ws (32 :: t2 ++ 41 :: rest) Hws) as (tok & len & st & Htok & Hr & H41 & Hm);
      [by left|].
    exists tok, len, st. rewrite <- app_assoc. split_and!; [done..|]. cbn [read_elements].
    rewrite (proj2 (Z.eqb_neq _ 41) H41), Hr. cbn [rbind snd fst]. unfold token_or_elog.
    destruct (IH t2 efuel [32] rest) as (tok2 & len2 & st2 & Htok2 & _ & Hr2); try done.
    + eapply Forall_impl; [exact Hall|]. intros x Hx t' Ht' Hlen. apply Hx; [done|lia].
    + cbn in Hf |- *. lia.
    + cbn [app] in Htok2. rewrite Htok2. cbn [rbind]. by rewrite Hr2.
Qed.

Lemma out_elements_length out (l : list node) t : out_elements out l = Ok t -> (length l <= Datatypes.S (length t))%nat.
Proof.
  revert t. induction l as [|n [|m l] IH]; intros t Ht; [cbn; lia|cbn; lia|].
  change (out_elements out (n :: m :: l)) with
    (let! t := out n in let! ts := out_elements out (m :: l) in Ok (t ++ 32 :: ts)) in Ht.
  apply rbind_ok in Ht as (t1 & Ht1 & Ht). apply rbind_ok in Ht as (t2 & Ht2 & Ht). apply ok_inj in Ht. subst t.
  apply IH in Ht2. rewrite length_app. cbn in *. lia.
Qed.

Lemma starts_list fuel l t :
  l <> [] -> out_elements pltsql_outNode l = Ok t -> (Datatypes.S (length t) < fuel)%nat ->
  Forall (fun n => forall t', pltsql_outNode n = Ok t' -> (length t' <= length t)%nat -> starts fuel n t') l ->
  starts (Datatypes.S fuel) (NList l) (40 :: t ++ [41]).
Proof.
  intros Hne Ht Hf Hall ws rest Hws Hr. eexists _, _, _. split; [by apply strtok_brace|].
  split; [|split; [done|apply paren_mark]]. cbn [NodeIO.pltsql_nodeRead].
  change (pltsql_tokenType _ _) with PLTSQL_LEFT_PAREN. cbv iota. rewrite <- app_assoc. cbn [app].
  pose proof (out_elements_length _ _ _ Ht) as Hlen.
  destruct (read_elements_back fuel l t fuel [] rest) as (tok & len & st & Htok & Hm & Hread); try done; [lia|].
  cbn [app] in Htok. unfold token_or_elog. rewrite Htok. cbn [rbind].
  assert (Hmark : forall c, c ∈ [105; 111; 120; 98] -> (len =? 1)%nat && (hd0 tok =? c) = false).
  { intros c Hc. destruct (Nat.eqb_spec len 1) as [E|]; [|done]. cbn. apply Z.eqb_neq. intros Hh.
    apply (Hm E). by rewrite Hh. }
  rewrite !Hmark, Hread by (repeat constructor). cbn [rbind fst snd]. by destruct l.
Qed.

Lemma elements_ok_forall (P : node -> Prop) l : elements_ok P l <-> Forall P l.
Proof. induction l as [|n l IH]; cbn; [done|]. by rewrite IH, Forall_cons. Qed.

Lemma fields_nodes (P : node -> Prop) (vs : list value) n : Forall (value_all P) vs -> VNode n ∈ vs -> P n.
Proof. intros Hall Hin. rewrite Forall_forall in Hall. exact (Hall _ Hin). Qed.

(** The text of a node leads back to it, with more fuel than it has characters. *)
Lemma node_starts n : forall t fuel,
  conforms n -> pltsql_outNode n = Ok t -> (length t < fuel)%nat -> starts fuel n t.
Proof.
  induction n as [|l IH|l|l|l|label vs IH|s] using node_induction; intros t [|fuel] Hc Ht Hf; try lia.
  - apply ok_inj in Ht. subst t. apply starts_null.
  - cbn in Hc, Ht. destruct Hc as [Hne Hc]. apply elements_ok_forall in Hc.
    apply rbind_ok in Ht as (t' & Ht' & Ht). apply ok_inj in Ht. subst t.
    cbn [length] in Hf. rewrite length_app in Hf. cbn in Hf. apply starts_list; [done..|lia|].
    rewrite Forall_forall in IH, Hc |- *. intros n Hn t'' Hout Hlen. apply IH; try done; [by apply Hc|lia].
  - apply ok_inj in Ht. subst t. destruct Hc as [Hne Hc].
    eapply (starts_numbers 105); [by constructor|apply conv_int_decimal|done..].
  - apply ok_inj in Ht. subst t. destruct Hc as [Hne Hc].
    eapply (starts_numbers 111); [by repeat constructor|apply conv_oid_decimal|done..].
  - apply ok_inj in Ht. subst t. destruct Hc as [Hne Hc].
    eapply (starts_numbers 120); [by repeat constructor|apply conv_oid_decimal|done..].
  - cbn in Hc, Ht. destruct (fields_of label) as [fs|] eqn:Hfs; [|done].
    apply rbind_ok in Ht as (t' & Ht' & Ht). apply ok_inj in Ht. subst t.
    eapply starts_tagged; try done. intros n t Hn Hcn Hout Hlen. apply starts_reads.
    apply (fields_nodes _ _ _ IH Hn); try done. cbn in Hf. rewrite !length_app in Hf. lia.
  - apply ok_inj in Ht. subst t. destruct (server_text laws s Hc); [by apply starts_braced|by apply starts_plain].
Qed.

(** Writing a node that conforms fails only if a node in it has no writer, so never. *)
Lemma write_value_total out k before v :
  (forall n, v = VNode n -> exists t, out n = Ok t) -> value_ok k before v ->
  exists t, write_value outBitmapset out k v = Ok t.
Proof.
  intros Hout Hv. destruct k, v as [z|b|s|n|b|[l|]|l]; try done; cbn [write_value]; try (by eexists).
  - destruct (Hout n eq_refl) as [t ->]. by eexists.
  - cbn in Hv. subst z. by eexists.
Qed.

Lemma write_fields_total out fs : forall before vs,
  Forall (value_all (fun n => conforms n -> exists t, out n = Ok t)) vs -> fields_ok fs before vs ->
  exists t, write_fields outBitmapset out fs vs = Ok t.
Proof.
  induction fs as [|[name k] fs IH]; intros before [|v vs] Hall Hok; try done; [by eexists|].
  cbn in Hok |- *. destruct Hok as [Hv Hvs]. apply Forall_cons in Hall as [Hn Hall].
  destruct (write_value_total out k before v) as [t ->]; [|done|].
  { intros n ->. apply Hn. by destruct k. }
  destruct (IH _ _ Hall Hvs) as [ts ->]. by eexists.
Qed.

Lemma outNode_total n : conforms n -> exists t, pltsql_outNode n = Ok t.
Proof.
  induction n as [|l IH|l|l|l|label vs IH|s] using node_induction; intros Hc; try (by eexists).
  - destruct Hc as [_ Hc]. apply elements_ok_forall in Hc. cbn.
    assert (Hel : exists t, out_elements pltsql_outNode l = Ok t).
    { clear -IH Hc. induction IH as [|n l Hn IH' IH]; [by eexists|]. apply Forall_cons in Hc as [Hcn Hc].
      destruct (Hn Hcn) as [t Ht]. destruct (IH Hc) as [ts Hts]. destruct l as [|m l]; [by exists t|].
      change (out_elements pltsql_outNode (n :: m :: l)) with
        (let! t := pltsql_outNode n in let! ts := out_elements pltsql_outNode (m :: l) in Ok (t ++ 32 :: ts)).
      rewrite Ht, Hts. by eexists. }
    destruct Hel as [t ->]. by eexists.
  - cbn in Hc |- *. destruct (fields_of label) as [fs|]; [|done].
    destruct (write_fields_total pltsql_outNode fs [] vs IH Hc) as [t ->]. by eexists.
Qed.
End nodes.
