(* ===== verification/NodeIOShape.v ===== *)
(** * NodeIOShape: reading any text ends, and yields a node of the announced shape *)
From Stdlib Require Import String.
From stdpp Require Import base numbers list.
From S2P Require Import Prelude NodeIO NodeIOProofs.

Section shape.
Context `{PgTokensLaws} {S B : Type}.
Variable parseNodeString : bytes -> result failure (S * bytes).
Variable nodeRead : bytes -> nat -> bytes -> result failure (S * bytes).
Variable readBitmapset : bytes -> result failure (B * bytes).
Variable readIntCols : nat -> bytes -> result failure (option (list Z) * bytes).
Variable bms_add_members : list Z -> result failure (node S B).
Variable fields_of : schema.
Variable server_ok : S -> Prop.
Variable bms_ok : B -> Prop.

Abbreviation node := (node S B).
Abbreviation value := (value node B).
Abbreviation pltsql_nodeRead :=
  (pltsql_nodeRead parseNodeString nodeRead readBitmapset readIntCols bms_add_members fields_of).
Abbreviation reader := (option (bytes * nat) -> bytes -> result failure (node * bytes)).
Abbreviation read_value := (read_value readBitmapset readIntCols).
Abbreviation read_fields := (read_fields readBitmapset readIntCols).

(** The server's readers move forward and return nodes of the server; an array has the
    size asked for. *)
Record ReaderLaws : Prop := {
  parse_forward st s st' : parseNodeString st = Ok (s, st') -> st' `suffix_of` st /\ server_ok s;
  value_forward t n st s st' : nodeRead t n st = Ok (s, st') -> st' `suffix_of` st /\ server_ok s;
  bitmapset_forward st b st' : readBitmapset st = Ok (b, st') -> st' `suffix_of` st /\ bms_ok b;
  ints_forward n st l st' : readIntCols n st = Ok (l, st') -> st' `suffix_of` st /\
    match l with Some l => length l = n /\ Forall (fun z => in_i32 z = true) l | None => True end;
  members_server l n : bms_add_members l = Ok n -> n = Null \/ exists s, n = Server s /\ server_ok s
}.
Hypothesis laws : ReaderLaws.

(** ** Moving forward *)

Lemma strtok_rest st : (pg_strtok st).2 `suffix_of` st.
Proof.
  destruct (pg_strtok st) as [[[t n]|] st'] eqn:Hs; cbn; [|by apply strtok_end].
  destruct (strtok_token _ _ _ _ Hs) as (Ht & w & _ & ->). etransitivity; [|exact Ht]. by exists w.
Qed.

Lemma strtok_less st t n st' : pg_strtok st = (Some (t, n), st') ->
  t `suffix_of` st /\ st' `suffix_of` st /\ (length st' < length st)%nat.
Proof.
  intros Hs. destruct (strtok_token _ _ _ _ Hs) as (Ht & w & Hw & ->). split; [done|].
  assert (Hsuf : st' `suffix_of` st) by (etransitivity; [|exact Ht]; by exists w). split; [done|].
  apply suffix_length in Ht. rewrite length_app in Ht. destruct w; [done|]. cbn in Ht. lia.
Qed.

Lemma token_less st t n st' : token st = Ok (t, n, st') ->
  t `suffix_of` st /\ st' `suffix_of` st /\ (length st' < length st)%nat.
Proof.
  unfold token. destruct (pg_strtok st) as [[[t0 n0]|] s] eqn:Hs; [|done]. intros [= -> -> ->]. by eapply strtok_less.
Qed.

Lemma token_or_elog_less st t n st' : token_or_elog st = Ok (t, n, st') ->
  t `suffix_of` st /\ st' `suffix_of` st /\ (length st' < length st)%nat.
Proof.
  unfold token_or_elog. destruct (pg_strtok st) as [[[t0 n0]|] s] eqn:Hs; [|done].
  intros [= -> -> ->]. by eapply strtok_less.
Qed.

Definition forward (read : reader) : Prop :=
  forall tok st n st', read tok st = Ok (n, st') -> st' `suffix_of` st.

Lemma read_strings_forward count : forall st l st', read_strings count st = Ok (l, st') -> st' `suffix_of` st.
Proof.
  induction count as [|count IH]; cbn; intros st l st'; [by intros [= _ ->]|].
  intros (((t & n) & s) & Ht & Hr)%rbind_ok. apply rbind_ok in Hr as ([l' s'] & Hl & [= _ ->]).
  apply token_or_elog_less in Ht as (_ & Hs & _). etransitivity; [by eapply IH|done].
Qed.

Lemma read_ints_forward count : forall st l st', read_ints count st = Ok (l, st') -> st' `suffix_of` st.
Proof.
  induction count as [|count IH]; cbn; intros st l st'; [by intros [= _ ->]|].
  intros (((t & n) & s) & Ht & Hr)%rbind_ok. apply rbind_ok in Hr as ([l' s'] & Hl & [= _ ->]).
  apply token_or_elog_less in Ht as (_ & Hs & _). etransitivity; [by eapply IH|done].
Qed.

Lemma read_value_forward read k before st v st' :
  forward read -> read_value read k before st = Ok (v, st') -> st' `suffix_of` st.
Proof.
  intros Hfw Hr. destruct k; cbn [NodeIO.read_value] in Hr;
    try (apply rbind_ok in Hr as (((t & n) & s) & Ht & Hr); apply token_less in Ht as (_ & Hs & _));
    try (destruct (_ =? _) in Hr; [|done]); try (destruct (_ || _) in Hr; [done|]);
    try (destruct (_ <? _) in Hr; [done|]); try (by injection Hr as _ <-).
  - apply rbind_ok in Hr as ([n s] & Hn & [= _ <-]). by eapply Hfw.
  - apply rbind_ok in Hr as ([n s] & Hn & [= _ <-]). by eapply bitmapset_forward.
  - apply rbind_ok in Hr as ([n s] & Hn & [= _ <-]). by eapply ints_forward.
  - apply rbind_ok in Hr as ([n s] & Hn & [= _ <-]). by eapply read_strings_forward.
  - apply rbind_ok in Hr as ([n s] & Hn & [= _ <-]). by eapply read_ints_forward.
Qed.

Lemma read_fields_forward read fs : forward read -> forall before st vs st',
  read_fields read fs before st = Ok (vs, st') -> st' `suffix_of` st.
Proof.
  intros Hfw. induction fs as [|[name k] fs IH]; cbn; intros before st vs st'; [by intros [= _ ->]|].
  intros ([v s] & Hv & Hr)%rbind_ok. apply IH in Hr. apply read_value_forward in Hv; [|done].
  etransitivity; [exact Hr|]. etransitivity; [exact Hv|]. apply strtok_rest.
Qed.

Lemma read_numbers_forward fuel conv : forall st l st', read_numbers fuel conv st = Ok (l, st') -> st' `suffix_of` st.
Proof.
  induction fuel as [|fuel IH]; [done|]. cbn. intros st l st' (((t & n) & s) & Ht & Hr)%rbind_ok.
  apply token_or_elog_less in Ht as (_ & Hs & _). destruct (_ =? _) in Hr; [by injection Hr as _ ->|].
  destruct (conv t n); [|done]. apply rbind_ok in Hr as ([l' s'] & Hl & [= _ ->]).
  etransitivity; [by eapply IH|done].
Qed.

Lemma read_elements_forward fuel read : forward read -> forall t n st l st',
  read_elements fuel read t n st = Ok (l, st') -> st' `suffix_of` st.
Proof.
  intros Hfw. induction fuel as [|fuel IH]; [done|]. cbn. intros t n st l st' Hr.
  destruct (_ =? _) in Hr; [by injection Hr as _ ->|].
  apply rbind_ok in Hr as ([m s1] & Hm & Hr). apply rbind_ok in Hr as (((t2 & n2) & s2) & Ht & Hr).
  apply rbind_ok in Hr as ([l' s'] & Hl & [= _ ->]). apply token_or_elog_less in Ht as (_ & Hs & _).
  etransitivity; [by eapply IH|]. etransitivity; [exact Hs|]. by eapply Hfw.
Qed.

(** ** What a call of [pltsql_nodeRead] does *)

Inductive reads_as (fuel : nat) (st : bytes) : node -> bytes -> Prop :=
| reads_null st' : st' `suffix_of` st -> reads_as fuel st Null st'
| reads_server s st' : server_ok s -> st' `suffix_of` st -> reads_as fuel st (Server s) st'
| reads_tagged label fs vs st1 st2 st' :
    fields_of label = Some fs -> st1 `suffix_of` st -> st' `suffix_of` st2 ->
    read_fields (pltsql_nodeRead fuel) fs [] st1 = Ok (vs, st2) -> reads_as fuel st (Tagged label vs) st'
| reads_int_list l st1 st' : l <> [] -> st1 `suffix_of` st ->
    read_numbers fuel conv_int st1 = Ok (l, st') -> reads_as fuel st (IntList l) st'
| reads_oid_list l st1 st' : l <> [] -> st1 `suffix_of` st ->
    read_numbers fuel conv_oid st1 = Ok (l, st') -> reads_as fuel st (OidList l) st'
| reads_xid_list l st1 st' : l <> [] -> st1 `suffix_of` st ->
    read_numbers fuel conv_oid st1 = Ok (l, st') -> reads_as fuel st (XidList l) st'
| reads_list l t len st1 st' : l <> [] -> st1 `suffix_of` st ->
    read_elements fuel (pltsql_nodeRead fuel) t len st1 = Ok (l, st') -> reads_as fuel st (NList l) st'.

Lemma reads_as_suffix fuel st1 st n st' : reads_as fuel st1 n st' -> st1 `suffix_of` st -> reads_as fuel st n st'.
Proof.
  assert (Htrans : forall a b c : bytes, a `suffix_of` b -> b `suffix_of` c -> a `suffix_of` c)
    by (intros; by etransitivity).
  destruct 1; intros Hst; eauto using reads_as.
Qed.

Lemma reads_numbers fuel st (make : list Z -> node) conv st1 y :
  (forall l, l <> [] -> read_numbers fuel conv st1 = Ok (l, y.2) -> reads_as fuel st (make l) y.2) ->
  st1 `suffix_of` st -> read_numbers fuel conv st1 = Ok y -> reads_as fuel st (list_node make y.1) y.2.
Proof.
  intros Hmake Hst Hy. destruct y as [[|z l] s]; cbn in *; [|by apply Hmake].
  apply reads_null. etransitivity; [by eapply read_numbers_forward|done].
Qed.

Lemma nodeRead_paren fuel st n st' x :
  token_or_elog st = Ok x ->
  (let '(t, n, st) := x in
   if (n =? 1)%nat && (hd0 t =? 105) then
     let! y := read_numbers fuel conv_int st in Ok (list_node IntList y.1, y.2)
   else if (n =? 1)%nat && (hd0 t =? 111) then
     let! y := read_numbers fuel conv_oid st in Ok (list_node OidList y.1, y.2)
   else if (n =? 1)%nat && (hd0 t =? 120) then
     let! y := read_numbers fuel conv_oid st in Ok (list_node XidList y.1, y.2)
   else if (n =? 1)%nat && (hd0 t =? 98) then
     let! y := read_numbers fuel conv_int st in
     let! n := bms_add_members y.1 in Ok (n, y.2)
   else
     let! y := read_elements fuel (pltsql_nodeRead fuel) t n st in
     Ok (match y.1 with [] => Null | l => NList l end, y.2)) = Ok (n, st') ->
  forward (pltsql_nodeRead fuel) -> reads_as fuel st n st'.
Proof.
  destruct x as [[t len] st1]. intros (_ & Hst & _)%token_or_elog_less Hr Hfw.
  repeat (destruct (_ && _) in Hr); apply rbind_ok in Hr as (y & Hy & Hr).
  - injection Hr as <- <-. eapply reads_numbers; eauto. intros. by eapply reads_int_list.
  - injection Hr as <- <-. eapply reads_numbers; eauto. intros. by eapply reads_oid_list.
  - injection Hr as <- <-. eapply reads_numbers; eauto. intros. by eapply reads_xid_list.
  - apply rbind_ok in Hr as (m & Hm & [= <- <-]). destruct y as [l s]. apply read_numbers_forward in Hy.
    assert (Hs : s `suffix_of` st) by (by etransitivity).
    destruct (members_server laws _ _ Hm) as [->|(v & -> & Hv)]; [by apply reads_null|by apply reads_server].
  - destruct y as [l s]. injection Hr as <- <-. destruct l as [|m l]; cbn.
    + apply reads_null. etransitivity; [by eapply read_elements_forward|done].
    + by eapply reads_list.
Qed.

Lemma nodeRead_cases fuel tok st n st' : forward (pltsql_nodeRead fuel) ->
  pltsql_nodeRead (Datatypes.S fuel) tok st = Ok (n, st') -> reads_as fuel st n st'.
Proof.
  intros Hfw Hr. cbn [NodeIO.pltsql_nodeRead] in Hr.
  destruct (match tok with Some tn => (Some tn, st) | None => pg_strtok st end) as [[[t len]|] st1] eqn:Htok.
  2: { injection Hr as <- <-. apply reads_null. destruct tok; [done|]. by eapply strtok_end. }
  assert (Hst : st1 `suffix_of` st).
  { destruct tok as [[t0 l0]|]; [by injection Htok as _ _ <-|]. by apply strtok_less in Htok as (_ & Hs & _). }
  enough (Hgoal : reads_as fuel st1 n st').
  { by eapply reads_as_suffix. }
  destruct (pltsql_tokenType t len).
  - apply rbind_ok in Hr as ([s s'] & Hs & [= <- <-]). apply (value_forward laws) in Hs as [Hs Hok].
    by apply reads_server.
  - done.
  - apply rbind_ok in Hr as (x & Hx & Hr). by eapply nodeRead_paren.
  - apply rbind_ok in Hr as ([m s] & Hx & Hr). cbn [fst snd] in Hr.
    destruct (pg_strtok s) as [[[t3 l3]|] s3] eqn:Hs3; [|done]. destruct (_ =? _) in Hr; [|done]. injection Hr as <- <-.
    apply strtok_less in Hs3 as (_ & Hs3 & _).
    destruct (pg_strtok st1) as [[[t2 l2]|] st2] eqn:Hs2.
    + apply strtok_less in Hs2 as (Ht2 & Hs2 & _). destruct (fields_of (take l2 t2)) as [fs|] eqn:Hf.
      * apply rbind_ok in Hx as ([vs s4] & Hvs & [= <- <-]). by eapply reads_tagged.
      * apply rbind_ok in Hx as ([v s4] & Hv & [= <- <-]). apply (parse_forward laws) in Hv as [Hv Hok].
        apply reads_server; [done|]. etransitivity; [exact Hs3|]. by etransitivity.
    + apply strtok_end in Hs2. apply rbind_ok in Hx as ([v s4] & Hv & [= <- <-]).
      apply (parse_forward laws) in Hv as [Hv Hok]. apply reads_server; [done|].
      etransitivity; [exact Hs3|]. by etransitivity.
  - destruct (_ =? _)%nat in Hr; [|done]. injection Hr as <- <-. by apply reads_null.
Qed.

Lemma nodeRead_forward fuel : forward (pltsql_nodeRead fuel).
Proof.
  induction fuel as [|fuel IH]; [done|]. intros tok st n st' Hr. apply nodeRead_cases in Hr; [|done].
  destruct Hr as [| | ? ? ? ? ? ? _ H1 H2 Hf|? ? ? _ H1 Hn|? ? ? _ H1 Hn|? ? ? _ H1 Hn|? ? ? ? ? _ H1 Hl]; try done.
  - apply read_fields_forward in Hf; [|done]. etransitivity; [exact H2|]. by etransitivity.
  - apply read_numbers_forward in Hn. by etransitivity.
  - apply read_numbers_forward in Hn. by etransitivity.
  - apply read_numbers_forward in Hn. by etransitivity.
  - apply read_elements_forward in Hl; [|done]. by etransitivity.
Qed.

(** ** The shape of what is read *)

Abbreviation any_string := (fun _ : option bytes => True).
Abbreviation conforms := (conforms fields_of any_string server_ok bms_ok : node -> Prop).
Abbreviation value_ok := (value_ok any_string bms_ok conforms).
Abbreviation fields_ok := (fields_ok any_string bms_ok conforms).
Abbreviation byte := (fun c : Z => 0 <= c < 256).

Definition shaped (read : reader) : Prop :=
  forall tok st n st', Forall byte st -> read tok st = Ok (n, st') -> conforms n.

Lemma bytes_suffix st st' : Forall byte st -> st' `suffix_of` st -> Forall byte st'.
Proof. intros Hst [w ->]. by apply Forall_app in Hst as [_ Hst]. Qed.

Lemma hd0_byte st : Forall byte st -> 0 <= hd0 st < 256.
Proof. destruct 1; cbn; lia. Qed.

Lemma read_char_byte t n : Forall byte t -> 0 <= read_char t n < 256.
Proof.
  intros Ht. unfold read_char. destruct (_ =? _)%nat; [lia|]. pose proof (hd0_byte t Ht).
  destruct (_ =? 92); [|done]. apply hd0_byte. by destruct Ht.
Qed.

Lemma u32_in z : in_u32 (u32 z).
Proof. unfold in_u32, u32, uwrap. change (2 ^ 32) with 4294967296. apply Z.mod_pos_bound. lia. Qed.

Lemma atol_in t : in_i64 (atol t) = true.
Proof. apply in_i64_iff. unfold atol, clamp64, INT64_MIN, INT64_MAX. lia. Qed.

Lemma read_strings_shape count : forall st l st', read_strings count st = Ok (l, st') -> length l = count.
Proof.
  induction count as [|count IH]; cbn; intros st l st'; [by intros [= <- _]|].
  intros (((t & n) & s) & Ht & Hr)%rbind_ok. apply rbind_ok in Hr as ([l' s'] & Hl & [= <- _]).
  cbn. f_equal. by eapply IH.
Qed.

Lemma read_ints_shape count : forall st l st', read_ints count st = Ok (l, st') ->
  length l = count /\ Forall (fun z => in_i32 z = true) l.
Proof.
  induction count as [|count IH]; cbn; intros st l st'; [by intros [= <- _]|].
  intros (((t & n) & s) & Ht & Hr)%rbind_ok. apply rbind_ok in Hr as ([l' s'] & Hl & [= <- _]).
  apply IH in Hl as [Hlen Hall]. split; [by cbn; f_equal|]. constructor; [apply i32_range|done].
Qed.

Lemma read_value_shape read k before st v st' :
  shaped read -> Forall byte st -> read_value read k before st = Ok (v, st') -> value_ok k before v.
Proof.
  intros Hsh Hst Hr. destruct k; cbn [NodeIO.read_value] in Hr;
    try (apply rbind_ok in Hr as (((t & n) & s) & Ht & Hr); apply token_less in Ht as (Ht & Hs & _)).
  - injection Hr as <- _. apply i32_range.
  - injection Hr as <- _. apply u32_in.
  - injection Hr as <- _. apply u32_in.
  - injection Hr as <- _. apply atol_in.
  - by injection Hr as <- _.
  - injection Hr as <- _. apply i32_range.
  - injection Hr as <- _. by apply read_char_byte, (bytes_suffix st).
  - by injection Hr as <- _.
  - apply rbind_ok in Hr as ([n s] & Hn & [= <- _]). by eapply Hsh.
  - apply rbind_ok in Hr as ([b s] & Hb & [= <- _]). by eapply bitmapset_forward.
  - apply rbind_ok in Hr as ([l s] & Hl & [= <- _]). apply (ints_forward laws) in Hl as [_ Hl]. by destruct l.
  - destruct (max_name <? _) eqn:E in Hr; [done|]. injection Hr as <- _. apply Z.ltb_ge in E. by split.
  - destruct (_ || _) eqn:E in Hr; [done|]. injection Hr as <- _. cbn. apply orb_false_iff in E as [E1 E2].
    apply Z.ltb_ge in E1, E2. lia.
  - apply rbind_ok in Hr as ([l s] & Hl & [= <- _]). apply read_strings_shape in Hl. split; [done|].
    by apply Forall_forall.
  - apply rbind_ok in Hr as ([l s] & Hl & [= <- _]). by apply read_ints_shape in Hl.
  - destruct (Z.eqb_spec (atoi t) PLTSQL_DBCC_CHECKIDENT) in Hr; [|done]. by injection Hr as <- _.
Qed.

Lemma read_fields_shape read fs : forward read -> shaped read -> forall before st vs st', Forall byte st ->
  read_fields read fs before st = Ok (vs, st') -> exists vs', vs = before ++ vs' /\ fields_ok fs before vs'.
Proof.
  intros Hfw Hsh. induction fs as [|[name k] fs IH]; cbn; intros before st vs st' Hst Hr.
  - injection Hr as <- _. exists []. by rewrite app_nil_r.
  - apply rbind_ok in Hr as ([v s] & Hv & Hr). cbn [fst snd] in Hr.
    assert (Hst1 : Forall byte (pg_strtok st).2) by (eapply bytes_suffix; [done|apply strtok_rest]).
    pose proof (read_value_forward _ _ _ _ _ _ Hfw Hv) as Hs.
    apply IH in Hr as (vs' & -> & Hok); [|by eapply bytes_suffix].
    exists (v :: vs'). split; [by rewrite <- app_assoc|]. split; [by eapply read_value_shape|done].
Qed.

Lemma read_numbers_shape (ok : Z -> Prop) fuel conv : (forall t n z, conv t n = Some z -> ok z) ->
  forall st l st', read_numbers fuel conv st = Ok (l, st') -> Forall ok l.
Proof.
  intros Hok. induction fuel as [|fuel IH]; [done|]. cbn. intros st l st' (((t & n) & s) & Ht & Hr)%rbind_ok.
  destruct (_ =? _) in Hr; [by injection Hr as <- _|].
  destruct (conv t n) as [z|] eqn:Hz; [|done]. apply rbind_ok in Hr as ([l' s'] & Hl & [= <- _]).
  constructor; [by eapply Hok|by eapply IH].
Qed.

Lemma read_elements_shape fuel read : forward read -> shaped read -> forall t n st l st', Forall byte st ->
  read_elements fuel read t n st = Ok (l, st') -> elements_ok conforms l.
Proof.
  intros Hfw Hsh. induction fuel as [|fuel IH]; [done|]. cbn. intros t n st l st' Hst Hr.
  destruct (_ =? _) in Hr; [by injection Hr as <- _|].
  apply rbind_ok in Hr as ([m s1] & Hm & Hr). apply rbind_ok in Hr as (((t2 & n2) & s2) & Ht & Hr).
  apply rbind_ok in Hr as ([l' s'] & Hl & [= <- _]). cbn [fst snd] in *.
  apply token_or_elog_less in Ht as (_ & Hs & _). split; [by eapply Hsh|]. eapply IH; [|exact Hl].
  eapply bytes_suffix; [|exact Hs]. eapply bytes_suffix; [exact Hst|]. by eapply Hfw.
Qed.

Lemma conv_int_in t n z : conv_int t n = Some z -> in_i32 z = true.
Proof. unfold conv_int. destruct (bool_decide _); [|done]. intros [= <-]. apply i32_range. Qed.
Lemma conv_oid_in t n z : conv_oid t n = Some z -> in_u32 z.
Proof. unfold conv_oid. destruct (bool_decide _); [|done]. intros [= <-]. apply u32_in. Qed.

Lemma nodeRead_shaped fuel : shaped (pltsql_nodeRead fuel).
Proof.
  induction fuel as [|fuel IH]; [done|]. intros tok st n st' Hst Hr.
  pose proof (nodeRead_forward fuel) as Hfw. apply nodeRead_cases in Hr; [|done].
  destruct Hr as [|? ? Hok ?|? ? ? ? ? ? Hfs H1 H2 Hf|? ? ? Hne H1 Hn|? ? ? Hne H1 Hn|? ? ? Hne H1 Hn|? ? ? ? ? Hne H1 Hl];
    [done|done|..].
  - cbn. rewrite Hfs. apply read_fields_shape in Hf as (vs' & -> & Hf); [done..|]. by eapply bytes_suffix.
  - split; [done|]. eapply read_numbers_shape, Hn. apply conv_int_in.
  - split; [done|]. eapply read_numbers_shape, Hn. apply conv_oid_in.
  - split; [done|]. eapply read_numbers_shape, Hn. apply conv_oid_in.
  - split; [done|]. eapply read_elements_shape, Hl; [done..|]. by eapply bytes_suffix.
Qed.

(** ** The fuel *)

Definition agree (bound : nat) (read read' : reader) : Prop :=
  forall tok st, (length st < bound)%nat -> read tok st = read' tok st.

Lemma read_fields_agree bound read read' fs : forward read -> agree bound read read' -> forall before st,
  (length st < bound)%nat -> read_fields read fs before st = read_fields read' fs before st.
Proof.
  intros Hfw Hag. induction fs as [|[name k] fs IH]; [done|]. cbn. intros before st Hst.
  assert (Hst1 : (length (pg_strtok st).2 < bound)%nat) by (pose proof (suffix_length _ _ (strtok_rest st)); lia).
  assert (Hv : read_value read k before (pg_strtok st).2 = read_value read' k before (pg_strtok st).2).
  { destruct k; try done. cbn. by rewrite Hag. }
  rewrite <- Hv. destruct (read_value read k before _) as [[v s]|] eqn:Hr; [|done]. cbn. apply IH.
  apply read_value_forward in Hr; [|done]. apply suffix_length in Hr. lia.
Qed.

Lemma read_numbers_agree conv fuel : forall fuel' st, (length st < fuel)%nat -> (length st < fuel')%nat ->
  read_numbers fuel conv st = read_numbers fuel' conv st.
Proof.
  induction fuel as [|fuel IH]; intros [|fuel'] st Hf Hf'; [lia..|]. cbn.
  destruct (token_or_elog st) as [[[t n] s]|] eqn:Ht; [|done]. cbn.
  apply token_or_elog_less in Ht as (_ & _ & Hlt). rewrite (IH fuel') by lia. done.
Qed.

Lemma read_elements_agree bound read read' fuel : forward read -> agree bound read read' -> forall fuel' t n st,
  (length st < bound)%nat -> (length st < fuel)%nat -> (length st < fuel')%nat ->
  read_elements fuel read t n st = read_elements fuel' read' t n st.
Proof.
  intros Hfw Hag. induction fuel as [|fuel IH]; intros [|fuel'] t n st Hst Hf Hf'; [lia..|]. cbn.
  destruct (_ =? _); [done|]. rewrite <- (Hag _ st Hst).
  destruct (read _ st) as [[m s]|] eqn:Hr; [|done]. cbn.
  apply Hfw, suffix_length in Hr. destruct (token_or_elog s) as [[[t2 n2] s2]|] eqn:Ht; [|done]. cbn.
  apply token_or_elog_less in Ht as (_ & _ & Hlt). rewrite (IH fuel') by lia. done.
Qed.

(** More fuel than characters makes no difference. *)
Lemma nodeRead_agree fuel : forall fuel' tok st, (length st < fuel)%nat -> (length st < fuel')%nat ->
  pltsql_nodeRead fuel tok st = pltsql_nodeRead fuel' tok st.
Proof.
  induction fuel as [|fuel IH]; intros [|fuel'] tok st Hf Hf'; [lia..|].
  enough (Hcore : forall t len st1, (length st1 <= length st)%nat ->
    pltsql_nodeRead (Datatypes.S fuel) (Some (t, len)) st1 = pltsql_nodeRead (Datatypes.S fuel') (Some (t, len)) st1).
  { destruct tok as [[t len]|]; [by apply Hcore|].
    destruct (pg_strtok st) as [[[t len]|] st1] eqn:Htok; cbn [NodeIO.pltsql_nodeRead]; rewrite Htok; [|done].
    apply (Hcore t len st1). apply strtok_less in Htok. lia. }
  intros t len st1 Hst. cbn [NodeIO.pltsql_nodeRead].
  pose proof (nodeRead_forward fuel) as Hfw.
  destruct (pltsql_tokenType t len); try done.
  - destruct (token_or_elog st1) as [[[t2 n2] s2]|] eqn:Ht; [|done]. cbn [rbind].
    apply token_or_elog_less in Ht as (_ & _ & Hlt). rewrite !(read_numbers_agree _ fuel fuel' s2) by lia.
    rewrite (read_elements_agree (Datatypes.S (length s2)) (pltsql_nodeRead fuel) (pltsql_nodeRead fuel') fuel Hfw)
      with (fuel' := fuel'); try lia; [done|]. intros tok' st' Hl. apply IH; lia.
  - destruct (pg_strtok st1) as [[[t2 n2] |] s2] eqn:Ht; [|done]. apply strtok_less in Ht as (_ & _ & Hlt).
    destruct (fields_of (take n2 t2)) as [fs|]; [|done].
    rewrite (read_fields_agree (Datatypes.S (length s2)) _ (pltsql_nodeRead fuel')); try done; [|lia].
    intros tok' st' Hl. apply IH; lia.
Qed.
End shape.
