(* ===== verification/NodeIOTheorems.v ===== *)
(** * NodeIOTheorems: the text form of PL/tsql nodes

    What is written is read back; any text is read in bounded depth, and what is read has
    the shape of its type; the empty string is not kept.  Module [Tokens] implements the
    interface of the tokens the way the server documents it. *)
From Stdlib Require Import String.
From stdpp Require Import base numbers list.
From S2P Require Import Prelude NodeIO NodeIOProofs NodeIONodes NodeIOShape.

(** ** Tokens that satisfy the interface *)
Module Tokens.

Fixpoint drop_blanks (s : bytes) : bytes :=
  match s with c :: s' => if blank c then drop_blanks s' else s | [] => [] end.

(** The length of the token at the start of a string. *)
Fixpoint scan_word (s : bytes) : nat :=
  match s with
  | [] => 0
  | c :: s =>
      if c =? 92 then match s with [] => 1 | _ :: s => S (S (scan_word s)) end
      else if blank c || special c then 0 else S (scan_word s)
  end.

Definition scan_token (s : bytes) : option (bytes * nat) * bytes :=
  let s := drop_blanks s in
  match s with
  | [] => (None, [])
  | c :: r =>
      if special c then (Some (s, 1%nat), r)
      else let n := scan_word s in
           (Some (s, if decide (take n s = b# "<>") then 0%nat else n), drop n s)
  end.

Definition needs_escape (c : Z) : bool := blank c || special c || (c =? 92).

Fixpoint escape (s : bytes) : bytes :=
  match s with [] => [] | c :: s => if needs_escape c then 92 :: c :: escape s else c :: escape s end.

(** Whether a string would be taken for another kind of token. *)
Definition ambiguous (s : bytes) : bool :=
  (hd0 s =? 60) || (hd0 s =? 34) || isdigit (hd0 s) ||
  ((hd0 s =? 43) || (hd0 s =? 45)) && (isdigit (hd0 (tl s)) || (hd0 (tl s) =? 46)).

Definition out (s : option bytes) : bytes :=
  match s with
  | None => b# "<>"
  | Some [] => [34; 34]
  | Some s => if ambiguous s then 92 :: escape s else escape s
  end.

Fixpoint unescape (s : bytes) : bytes :=
  match s with
  | [] => []
  | c :: s =>
      if c =? 92 then match s with [] => [92] | d :: s => d :: unescape s end
      else c :: unescape s
  end.

#[global] Instance tokens : PgTokens := {| pg_strtok := scan_token; outToken := out; debackslash := unescape |}.

Lemma drop_blanks_app ws s : forallb blank ws = true -> drop_blanks (ws ++ s) = drop_blanks s.
Proof. induction ws as [|c ws IH]; [done|]. cbn. intros [-> Hws]%andb_true_iff. by apply IH. Qed.

Lemma drop_blanks_suffix s : drop_blanks s `suffix_of` s.
Proof.
  induction s as [|c s IH]; [done|]. cbn. destruct (blank c); [|done]. etransitivity; [exact IH|]. by exists [c].
Qed.

Lemma drop_blanks_head s c r : drop_blanks s = c :: r -> blank c = false.
Proof. induction s as [|d s IH]; [done|]. cbn. destruct (blank d) eqn:E; [done|]. by intros [= <- _]. Qed.

Lemma scan_word_spec n : forall w rest, (length w <= n)%nat -> word_chars w = true -> ends rest ->
  scan_word (w ++ rest) = length w.
Proof.
  induction n as [|n IH]; intros w rest Hn Hw Hr; (destruct w as [|c w]; [|]).
  1,3: destruct rest as [|c rest]; [done|]; cbn in *; unfold blank, special in *;
    destruct (Z.eqb_spec c 92); [lia|]; by rewrite (proj2 (orb_true_iff _ _)).
  - cbn in Hn. lia.
  - cbn in Hn. destruct (Z.eq_dec c 92) as [->|Hne].
    + destruct w as [|d w]; [done|]. cbn in Hn, Hw |- *. apply andb_true_iff in Hw as [_ Hw].
      by rewrite IH by (done || lia).
    + rewrite word_chars_cons, !andb_true_iff, !negb_true_iff in Hw by done.
      destruct Hw as [[[[Hb Hs] _] _] Hw'].
      cbn. rewrite (proj2 (Z.eqb_neq c 92)), Hb, Hs by done. cbn.
      by rewrite IH by (done || lia).
Qed.

Lemma word_head w : word w -> exists c r, w = c :: r /\ blank c = false /\ special c = false.
Proof.
  intros [Hne Hw]. destruct w as [|c w]; [done|]. exists c, w. split; [done|].
  destruct (Z.eq_dec c 92) as [->|Hc]; [done|].
  rewrite word_chars_cons, !andb_true_iff, !negb_true_iff in Hw by done. tauto.
Qed.

Lemma scan_strtok_word ws w rest : forallb blank ws = true -> word w -> ends rest ->
  scan_token (ws ++ w ++ rest) = (Some (w ++ rest, if decide (w = b# "<>") then 0%nat else length w), rest).
Proof.
  intros Hws Hw Hr. unfold scan_token. rewrite drop_blanks_app by done.
  destruct (word_head w Hw) as (c & r & -> & Hb & Hs). cbn [app drop_blanks]. rewrite Hb, Hs.
  change (c :: r ++ rest) with ((c :: r) ++ rest).
  rewrite (scan_word_spec _ _ _ (le_n _) (proj2 Hw) Hr).
  by rewrite (take_app_length (c :: r)), (drop_app_length (c :: r)).
Qed.

Lemma scan_word_pos c r : blank c = false -> special c = false -> (0 < scan_word (c :: r))%nat.
Proof. intros Hb Hs. cbn. rewrite Hb, Hs. destruct (c =? 92); [destruct r; lia|cbn; lia]. Qed.

Lemma scan_strtok_token s t n s' : scan_token s = (Some (t, n), s') ->
  t `suffix_of` s /\ exists w, w <> [] /\ t = w ++ s'.
Proof.
  unfold scan_token. pose proof (drop_blanks_suffix s) as Hsuf. pose proof (drop_blanks_head s) as Hhead.
  destruct (drop_blanks s) as [|c r]; [done|]. destruct (special c) eqn:Hs; intros E.
  - injection E as <- _ <-. split; [done|]. by exists [c].
  - assert (Hts : t = c :: r /\ s' = drop (scan_word (c :: r)) (c :: r)) by (split; congruence).
    destruct Hts as [-> ->]. split; [done|]. exists (take (scan_word (c :: r)) (c :: r)).
    rewrite take_drop. split; [|done]. intros Hn%(f_equal length).
    rewrite length_take in Hn. pose proof (scan_word_pos c r (Hhead c r eq_refl) Hs). cbn in *. lia.
Qed.

Lemma unescape_escape s : unescape (escape s) = s.
Proof.
  induction s as [|c s IH]; [done|]. cbn. destruct (needs_escape c) eqn:E; cbn; [by rewrite IH|].
  unfold needs_escape in E. apply orb_false_iff in E as [_ E]. by rewrite E, IH.
Qed.

Lemma word_chars_escape s : Forall (fun c => 0 < c < 256) s -> word_chars (escape s) = true.
Proof.
  induction 1 as [|c s Hc Hs IH]; [done|]. cbn [escape]. destruct (needs_escape c) eqn:E.
  - cbn. rewrite IH, (proj2 (Z.eqb_neq c 0)) by lia. done.
  - unfold needs_escape in E. rewrite !orb_false_iff in E. destruct E as [[Hb Hsp] H92].
    rewrite word_chars_cons, Hb, Hsp, H92, (proj2 (Z.eqb_neq c 0)), IH by lia. done.
Qed.

Lemma ambiguous_plain c s : ambiguous (c :: s) = true -> needs_escape c = false.
Proof. unfold ambiguous, needs_escape, blank, special, isdigit. cbn [hd0 tl]. lia. Qed.

Lemma out_word s : s <> [] -> Forall (fun c => 0 < c < 256) s ->
  word (out (Some s)) /\ out (Some s) <> b# "<>" /\ unescape (out (Some s)) = s.
Proof.
  intros Hne Hall. destruct s as [|c s]; [done|]. cbn [out]. pose proof Hall as [Hc Hs]%Forall_cons.
  destruct (ambiguous (c :: s)) eqn:Ha.
  - pose proof (ambiguous_plain c s Ha) as He. cbn [escape]. rewrite He.
    split; [split; [done|]|split; [done|]]; cbn; [|by rewrite unescape_escape].
    by rewrite word_chars_escape, (proj2 (Z.eqb_neq c 0)) by (done || lia).
  - split; [split; [|by apply word_chars_escape]|split; [|apply unescape_escape]].
    + cbn. by destruct (needs_escape c).
    + cbn [escape]. destruct (needs_escape c); [done|]. intros [= -> _]. done.
Qed.

#[global] Instance tokens_laws : PgTokensLaws.
Proof.
  split.
  - apply scan_strtok_token.
  - cbn. unfold scan_token. intros s s'. destruct (drop_blanks s) as [|c r]; [|by destruct (special c)].
    intros [= <-]. apply suffix_nil.
  - intros ws c rest Hws Hc. cbn. unfold scan_token. rewrite drop_blanks_app by done. cbn [drop_blanks].
    replace (blank c) with false by (unfold special, blank in *; lia). by rewrite Hc.
  - apply scan_strtok_word.
  - done.
  - apply out_word.
  - done.
  - done.
  - intros c Hc. cbn [outToken tokens out escape]. unfold ambiguous. cbn [hd0 tl].
    destruct (needs_escape c) eqn:E; [destruct (_ || _) eqn:Ha|destruct (_ || _)]; auto.
    + exfalso. unfold needs_escape, blank, special, isdigit in *. cbn in Ha. lia.
    + right. split; [done|]. unfold needs_escape in E. lia.
Qed.
End Tokens.

(** ** Theorems *)
Section theorems.
Context `{PgTokensLaws} {S B : Type}.
Variable outNode : S -> bytes.
Variable parseNodeString : bytes -> result failure (S * bytes).
Variable nodeRead : bytes -> nat -> bytes -> result failure (S * bytes).
Variable outBitmapset : B -> bytes.
Variable readBitmapset : bytes -> result failure (B * bytes).
Variable readIntCols : nat -> bytes -> result failure (option (list Z) * bytes).
Variable bms_add_members : list Z -> result failure (node S B).
Variable generated : schema.
Variable server_ok : S -> Prop.
Variable bms_ok : B -> Prop.

Abbreviation fields_of := (pltsql_schema generated).
Abbreviation to_string := (pltsql_nodeToString outNode outBitmapset fields_of : node S B -> _).
Abbreviation read_node :=
  (pltsql_nodeRead parseNodeString nodeRead readBitmapset readIntCols bms_add_members fields_of).
Abbreviation to_node :=
  (pltsql_stringToNode parseNodeString nodeRead readBitmapset readIntCols bms_add_members fields_of).

(** What comes back of a tree that has been written as text. *)
Lemma written_and_read (n : node S B) :
  ServerLaws outNode parseNodeString nodeRead outBitmapset readBitmapset readIntCols fields_of server_ok bms_ok ->
  conforms fields_of clean server_ok bms_ok n ->
  exists t, to_string n = Ok t /\ to_node t = Ok (reread n).
Proof.
  intros Hlaws Hn.
  destruct (outNode_total outNode outBitmapset fields_of server_ok bms_ok n Hn) as [t Ht].
  exists t. split; [done|]. unfold pltsql_stringToNode.
  destruct (node_starts outNode parseNodeString nodeRead outBitmapset readBitmapset readIntCols bms_add_members
    fields_of server_ok bms_ok Hlaws n t _ Hn Ht (Nat.lt_succ_diag_r _) [] [] eq_refl I)
    as (tok & len & st & Htok & Hread & _).
  cbn [app] in Htok. rewrite app_nil_r in Htok. cbn [pltsql_nodeRead] in Hread |- *. rewrite Htok.
  by rewrite Hread.
Qed.

(** C4: Writing a tree as text and reading the text gives the tree back: for every tree whose
    nodes have the fields of their types, numbers in range, arrays of the recorded sizes
    and strings that are NULL or not empty. *)
Theorem node_text_roundtrip (n : node S B) :
  ServerLaws outNode parseNodeString nodeRead outBitmapset readBitmapset readIntCols fields_of server_ok bms_ok ->
  conforms fields_of storable server_ok bms_ok n ->
  exists t, to_string n = Ok t /\ to_node t = Ok n.
Proof.
  intros Hlaws Hn. destruct (written_and_read n Hlaws) as (t & Ht & Hback).
  - eapply storable_any; [|exact Hn]. by intros [s|]; [intros [_ ?]|].
  - exists t. by rewrite <- (reread_id _ _ _ n Hn) at 2.
Qed.

(** C23: Whatever text is read, however damaged, a node that comes out has the fields of its
    type with numbers in the range of their C types, a known DBCC statement, arrays of the
    recorded sizes and bounded names: the reader never builds an ill-typed tree. *)
Theorem read_node_typed (str : bytes) (n : node S B) :
  ReaderLaws parseNodeString nodeRead readBitmapset readIntCols bms_add_members server_ok bms_ok ->
  Forall (fun c => 0 <= c < 256) str -> to_node str = Ok n ->
  conforms fields_of (fun _ => True) server_ok bms_ok n.
Proof.
  intros Hlaws Hstr Hn. unfold pltsql_stringToNode in Hn. apply rbind_ok in Hn as ([m st] & Hm & [= <-]).
  eapply nodeRead_shaped; [exact Hlaws|exact Hstr|exact Hm].
Qed.

(** C40: Reading ends for every text: the depth of the recursion is bounded by the length of
    the text, so any larger bound gives the same result. *)
Theorem node_read_terminates (str : bytes) (fuel : nat) :
  ReaderLaws parseNodeString nodeRead readBitmapset readIntCols bms_add_members server_ok bms_ok ->
  (length str < fuel)%nat ->
  to_node str = (let! x := read_node fuel None str in Ok x.1).
Proof.
  intros Hlaws Hf. unfold pltsql_stringToNode.
  by rewrite (nodeRead_agree _ _ _ _ _ _ server_ok bms_ok Hlaws _ fuel) by lia.
Qed.

(** The empty string is not kept: the server writes it as two quotes, and
    [pltsql_nullable_string] has no case for them.  The namespace item of a block without
    a label comes back with two quotes as its name. *)
Theorem empty_name_not_kept (itemno : Z) :
  ServerLaws outNode parseNodeString nodeRead outBitmapset readBitmapset readIntCols fields_of server_ok bms_ok ->
  in_i32 itemno = true ->
  let item name : node S B :=
    Tagged (b# "PLTSQL_NSITEM") [VNum 0; VNum itemno; VNode Null; VStr (Some name)] in
  exists t, to_string (item []) = Ok t /\ to_node t = Ok (item [34; 34]).
Proof.
  intros Hlaws Hno item. destruct (written_and_read (item []) Hlaws) as (t & Ht & Hback).
  - unfold item. cbn [conforms].
    change (pltsql_schema generated (b# "PLTSQL_NSITEM")) with
      (Some [(b# "itemtype", ENUM); (b# "itemno", INT); (b# "prev", NODE); (b# "name", NAME)]).
    repeat split; done || constructor.
  - exists t. by rewrite Hback.
Qed.
End theorems.

(** ** The theorems at a server with integers *)
Module SampleServer.

Definition node := node Z unit.

Definition read_bms (st : bytes) : result failure (unit * bytes) :=
  match token st with
  | Ok (t, n, st) => if bool_decide (take n t = b# "b") then Ok (tt, st) else Err Elog
  | Err e => Err e
  end.

Definition read_cols (n : nat) (st : bytes) : result failure (option (list Z) * bytes) :=
  let! x := token_or_elog st in
  let '(t, len, st) := x in
  if (len =? 0)%nat then Ok (None, st)
  else if hd0 t =? 40 then
    let! y := read_ints n st in
    let! z := token_or_elog y.2 in
    let '(t, len, st) := z in
    if hd0 t =? 41 then Ok (Some y.1, st) else Err Elog
  else Err Elog.

Definition generated : schema := fun label =>
  if bool_decide (label = b# "PLTSQL_STMT_PRINT") then Some [(b# "lineno", INT); (b# "exprs", NODE)] else None.

Definition server_ok (z : Z) : Prop := in_i32 z = true.

Definition parse (_ : bytes) : result failure (Z * bytes) := Err Elog.
Definition read_server (t : bytes) (_ : nat) (st : bytes) : result failure (Z * bytes) := Ok (atoi t, st).
Definition out_bms (_ : unit) : bytes := b# "b".
Definition add_members (_ : list Z) : result failure node := Err Elog.

Lemma server_laws :
  ServerLaws decimal parse read_server out_bms read_bms read_cols (pltsql_schema generated) server_ok (fun _ => True).
Proof.
  split.
  - intros z Hz. right. pose proof (in_long_i32 z Hz) as Hl. pose proof (word_decimal z Hl) as Hw.
    split; [done|]. split; [|intros rest Hr; unfold read_server; by rewrite atoi_decimal].
    destruct (decimal_spec z Hl) as (ds & Hall & Hne & _ & Hd). unfold value_text.
    assert (Hn : number_text (decimal z) = true); [|by rewrite Hn].
    unfold number_text. pose proof (hd0_digits ds [] Hne Hall) as Hh. rewrite app_nil_r in Hh. rewrite Hd.
    destruct (z <? 0); cbn [hd0 tl]; [change ((45 =? 43) || (45 =? 45)) with true; cbv beta iota zeta; by rewrite Hh|].
    pose proof (proj1 (digit_iff _) Hh). rewrite (proj2 (Z.eqb_neq (hd0 ds) 43)), (proj2 (Z.eqb_neq (hd0 ds) 45)) by lia.
    cbn [orb]. by rewrite Hh.
  - intros [] rest _ Hr. unfold read_bms, token, out_bms. by rewrite (strtok_word1 (b# "b") rest).
  - intros n rest Hr. unfold read_cols, token_or_elog. by rewrite (strtok_word1 (b# "<>") rest).
  - intros l rest Hl Hr. unfold read_cols, token_or_elog.
    rewrite (strtok_special [32] 40 (numbers l ++ b# " )" ++ rest) eq_refl eq_refl
      : pg_strtok (32 :: 40 :: numbers l ++ b# " )" ++ rest) = _). cbn [rbind Nat.eqb hd0 Z.eqb Pos.eqb].
    rewrite read_ints_back by (done || by left). cbn [rbind fst snd].
    by rewrite (strtok_special [32] 41 rest eq_refl eq_refl : pg_strtok (b# " )" ++ rest) = _).
  - intros label fs. unfold pltsql_schema. cbn [assoc custom_nodes].
    repeat (destruct (bool_decide _) eqn:E; [apply bool_decide_eq_true in E as ->; intros [= <-];
      split; [done|split; [done|repeat constructor]]|clear E]).
    unfold generated. destruct (bool_decide _) eqn:E; [|done].
    apply bool_decide_eq_true in E as ->; intros [= <-]. split; [done|split; [done|repeat constructor]].
Qed.

Lemma reader_laws : ReaderLaws parse read_server read_bms read_cols add_members server_ok (fun _ => True).
Proof.
  split.
  - done.
  - intros t n st s st' [= <- <-]. split; [done|apply i32_range].
  - intros st [] st'. unfold read_bms. destruct (token st) as [[[t n] s]|] eqn:Ht; [|done].
    apply token_less in Ht as (_ & Hs & _). destruct (bool_decide _); [|done]. by intros [= <-].
  - intros n st l st' Hr. unfold read_cols in Hr. apply rbind_ok in Hr as (((t & len) & s) & Ht & Hr).
    apply token_or_elog_less in Ht as (_ & Hs & _). destruct (_ =? _)%nat; [by injection Hr as <- <-|].
    destruct (_ =? _) in Hr; [|done]. apply rbind_ok in Hr as ([l' s'] & Hl & Hr).
    apply rbind_ok in Hr as (((t2 & len2) & s2) & Ht2 & Hr). destruct (_ =? _) in Hr; [|done].
    injection Hr as <- <-. apply token_or_elog_less in Ht2 as (_ & Hs2 & _). split; [|by eapply read_ints_shape].
    apply read_ints_forward in Hl. etransitivity; [exact Hs2|]. by etransitivity.
  - done.
Qed.

(** PRINT with a namespace chain, a row with two fields, numbers and NULL. *)
Definition item (name : bytes) (prev : node) : node :=
  Tagged (b# "PLTSQL_NSITEM") [VNum 0; VNum (-2); VNode prev; VStr (Some name)].

Definition row : node :=
  Tagged (b# "PLTSQL_ROW")
    [VNum 1; VNum 3; VStr None; VNum 7; VBool true; VBool false; VNode Null; VNum 2;
     VStrs [Some (b# "a b"); None]; VNums (Some [5; -6])].

Definition print : node :=
  Tagged (b# "PLTSQL_STMT_PRINT")
    [VNum 12; VNode (NList [item (b# "x(1)") (item (b# "7") Null); Server 42; Null; row; IntList [1; -2]])].

Lemma node_text_roundtrip_witness : exists t,
  pltsql_nodeToString decimal out_bms (pltsql_schema generated) print = Ok t /\
  pltsql_stringToNode parse read_server read_bms read_cols add_members (pltsql_schema generated) t = Ok print.
Proof.
  apply (node_text_roundtrip decimal parse read_server out_bms read_bms read_cols add_members generated
    server_ok (fun _ => True) print server_laws).
  lazy -[in_i32 in_u32 Z.le Z.lt server_ok max_fields max_name].
  repeat split; try discriminate; repeat (constructor; try done).
Defined.

Lemma read_node_typed_witness : exists n,
  pltsql_stringToNode parse read_server read_bms read_cols add_members (pltsql_schema generated)
    (b# "{PLTSQL_ROW :dtype 1 :dno 4294967297 :refname r :lineno 0 :isconst t :notnull f :default_val <> :nfields 1 :fieldnames z :varnos 9}")
    = Ok n /\
  conforms (pltsql_schema generated) (fun _ => True) server_ok (fun _ => True) n.
Proof.
  eexists. split; [vm_compute; reflexivity|].
  eapply (read_node_typed parse read_server read_bms read_cols add_members generated server_ok (fun _ => True)
    (b# "{PLTSQL_ROW :dtype 1 :dno 4294967297 :refname r :lineno 0 :isconst t :notnull f :default_val <> :nfields 1 :fieldnames z :varnos 9}")
    _ reader_laws); [|vm_compute; reflexivity].
  repeat (constructor; [split; [discriminate|reflexivity]|]). constructor.
Defined.

Lemma node_read_terminates_witness :
  pltsql_stringToNode parse read_server read_bms read_cols add_members (pltsql_schema generated) (b# "((1) (2 <>") =
  (let! x := pltsql_nodeRead parse read_server read_bms read_cols add_members (pltsql_schema generated) 1000 None
               (b# "((1) (2 <>") in Ok x.1).
Proof.
  apply (node_read_terminates parse read_server read_bms read_cols add_members generated server_ok (fun _ => True)
    _ 1000 reader_laws). apply Nat.ltb_lt. reflexivity.
Defined.

Lemma empty_name_not_kept_witness : exists t,
  pltsql_nodeToString decimal out_bms (pltsql_schema generated) (item [] Null) = Ok t /\
  pltsql_stringToNode parse read_server read_bms read_cols add_members (pltsql_schema generated) t =
  Ok (item [34; 34] Null).
Proof.
  apply (empty_name_not_kept decimal parse read_server out_bms read_bms read_cols add_members generated
    server_ok (fun _ => True) (-2) server_laws). reflexivity.
Defined.
End SampleServer.
