(* ===== verification/NodeEqual.v ===== *)
(** * NodeEqual: comparing parse trees ([pltsql_node/pltsql_equalfuncs.c] and the
    comparison macros of [pltsql_node_macros.h])

    With [validate_parse_cache] a tree taken from the cache is compared with a newly parsed
    one, and the two arrays of datums are walked together.  The two trees are allocated
    apart, so that two pointers are equal only if they are NULL.  Which fields are compared
    is fixed by hand for four node types and generated for the others. *)
From Stdlib Require Import String.
From stdpp Require Import base numbers list.
From S2P Require Import Prelude NodeIO NodeIOProofs NodeIONodes NodeIOTheorems.

(** Fields of the hand-written types that are compared: datum numbers, line numbers and
    arrays are not. *)
Definition custom_compared : list (bytes * list bool) :=
  [(b# "PLTSQL_NSITEM", [true; false; true; true]);
   (b# "PLTSQL_ROW", [true; false; true; false; false; false; false; true; false; false]);
   (b# "PLTSQL_RECFIELD", [true; false; true; false; false]);
   (b# "PLTSQL_STMT_DBCC", [true; false; true; true; true; true; true; true; true])].

Definition pltsql_compared (generated : bytes -> option (list bool)) : bytes -> option (list bool) :=
  fun label => match assoc label custom_compared with Some fs => Some fs | None => generated label end.

Section equal.
Context {S B : Type}.
Abbreviation node := (node S B).
Abbreviation value := (value node B).
(** The server's comparisons, and the compared fields of each type. *)
Variable equal : S -> S -> bool.
Variable bms_equal : B -> B -> bool.
Variable compared : bytes -> option (list bool).

Definition equalstr (a b : option bytes) : bool := bool_decide (a = b).

(** The macros; [memcmp] of an array that is NULL or shorter than the first is a crash. *)
Definition equal_value (eq : node -> node -> result failure bool) (v w : value) : result failure bool :=
  match v, w with
  | VNum a, VNum b => Ok (a =? b)
  | VBool a, VBool b => Ok (eqb a b)
  | VStr a, VStr b => Ok (equalstr a b)
  | VNode a, VNode b => eq a b
  | VBms a, VBms b => Ok (bms_equal a b)
  | VNums (Some a), VNums (Some b) =>
      if (length a <=? length b)%nat then Ok (bool_decide (a = take (length a) b)) else Err Crash
  | _, _ => Err Crash
  end.

(** Field by field, up to the first difference. *)
Fixpoint equal_fields (eq : node -> node -> result failure bool) (flags : list bool) (vs ws : list value)
    {struct vs} : result failure bool :=
  match vs, ws, flags with
  | v :: vs, w :: ws, flag :: flags =>
      if flag then
        let! same := equal_value eq v w in
        if same then equal_fields eq flags vs ws else Ok false
      else equal_fields eq flags vs ws
  | [], [], [] => Ok true
  | _, _, _ => Err Crash
  end.

Fixpoint equal_elements (eq : node -> node -> result failure bool) (l k : list node) {struct l} : result failure bool :=
  match l, k with
  | a :: l, b :: k =>
      let! same := eq a b in
      if same then equal_elements eq l k else Ok false
  | _, _ => Ok true
  end.

(** The cells of a list of numbers are compared as if they were pointers to nodes: zero is
    NULL, and different ones are followed. *)
Fixpoint equal_cells (l k : list Z) : result failure bool :=
  match l, k with
  | a :: l, b :: k =>
      if a =? b then equal_cells l k
      else if (a =? 0) || (b =? 0) then Ok false else Err Crash
  | _, _ => Ok true
  end.

(** [pltsql_equal_nodes_or_equal], and [pltsql_equal_node] for nodes of PL/tsql. *)
Fixpoint pltsql_equal_nodes_or_equal (a b : node) {struct a} : result failure bool :=
  match a, b with
  | Null, Null => Ok true
  | Null, _ | _, Null => Ok false
  | Tagged label vs, Tagged label' ws =>
      if bool_decide (label = label') then
        match compared label with
        | Some flags => equal_fields pltsql_equal_nodes_or_equal flags vs ws
        | None => Err Elog
        end
      else Ok false
  | NList l, NList k =>
      if (length l =? length k)%nat then equal_elements pltsql_equal_nodes_or_equal l k else Ok false
  | IntList l, IntList k | OidList l, OidList k | XidList l, XidList k =>
      if (length l =? length k)%nat then equal_cells l k else Ok false
  | Server s, Server s' => Ok (equal s s')
  | _, _ => Ok false
  end.

(** Both trees are there, or the server stops. *)
Definition pltsql_compare_parse_trees (a b : node) : result failure bool :=
  match a, b with
  | Null, Null => Ok true
  | Null, _ | _, Null => Err Crash                     (* PANIC *)
  | _, _ => pltsql_equal_nodes_or_equal a b
  end.

(** [pltsql_compare_datum_arrays]: the numbers of mismatches and of extra datums; in each
    round the second array advances. *)
Fixpoint pltsql_compare_datum_arrays (cached antlr : list node) (mismatches extra_antlr : nat)
    {struct antlr} : result failure (nat * nat) :=
  match cached, antlr with
  | [], _ => Ok (mismatches, (extra_antlr + length antlr)%nat)
  | _, [] => Ok ((mismatches + length cached)%nat, extra_antlr)
  | dc :: cached', da :: antlr' =>
      let! same := match dc, da with
                   | Null, Null => Ok true
                   | Null, _ | _, Null => Ok false
                   | _, _ => pltsql_equal_nodes_or_equal dc da
                   end in
      if same then pltsql_compare_datum_arrays cached' antlr' mismatches extra_antlr
      else
        let! resync := match dc, antlr' with
                       | Null, _ | _, [] => Ok false
                       | _, next :: _ => pltsql_equal_nodes_or_equal dc next
                       end in
        if resync then pltsql_compare_datum_arrays cached antlr' mismatches (Datatypes.S extra_antlr)
        else pltsql_compare_datum_arrays cached' antlr' (Datatypes.S mismatches) extra_antlr
  end.
End equal.

(** ** A tree that went through its text form passes the validation *)

Section equal.
Context {S B : Type}.
Abbreviation node := (node S B).
Abbreviation value := (value node B).
Variable equal : S -> S -> bool.
Variable bms_equal : B -> B -> bool.
Variable compared : bytes -> option (list bool).
Variable fields_of : schema.
Variable str_ok : option bytes -> Prop.
Variable server_ok : S -> Prop.
Variable bms_ok : B -> Prop.

Abbreviation conforms := (conforms fields_of str_ok server_ok bms_ok : node -> Prop).
Abbreviation pltsql_equal := (pltsql_equal_nodes_or_equal equal bms_equal compared).
Abbreviation walk := (pltsql_compare_datum_arrays equal bms_equal compared).

(** Fields that can be compared: neither arrays of strings nor arrays that may be NULL. *)
Definition comparable (k : kind) : bool := match k with STRINGS _ | INT_ARRAY _ => false | _ => true end.

(** The comparisons of the server are reflexive, and every node type says which of its
    fields are compared. *)
Record EqualLaws : Prop := {
  equal_server s : server_ok s -> equal s s = true;
  equal_bitmapset b : bms_equal b b = true;
  equal_schema label fs : fields_of label = Some fs -> exists flags, compared label = Some flags /\
    Forall2 (fun f (flag : bool) => flag = true -> comparable f.2 = true) fs flags
}.
Hypothesis laws : EqualLaws.

Lemma equal_value_refl eq k before v : comparable k = true ->
  (forall n, v = VNode n -> conforms n -> eq n n = Ok true) ->
  value_ok str_ok bms_ok conforms k before v -> equal_value bms_equal eq v v = Ok true.
Proof.
  intros Hk Hn Hv. destruct k, v as [z|b|s|n|b|[l|]|l]; try done; cbn;
    try (by rewrite Z.eqb_refl); try (unfold equalstr; by rewrite bool_decide_eq_true_2).
  - by destruct b.
  - by apply Hn.
  - by rewrite (equal_bitmapset laws).
  - rewrite Nat.leb_refl, bool_decide_eq_true_2; [done|]. by rewrite firstn_all.
Qed.

Lemma equal_fields_refl eq fs flags : Forall2 (fun (f : bytes * kind) (flag : bool) => flag = true -> comparable f.2 = true) fs flags ->
  forall before vs, Forall (value_all (fun n => conforms n -> eq n n = Ok true)) vs ->
  fields_ok str_ok bms_ok conforms fs before vs -> equal_fields bms_equal eq flags vs vs = Ok true.
Proof.
  induction 1 as [|[name k] flag fs flags Hk Hfs IH]; intros before [|v vs] Hall Hok; try done.
  cbn in Hok |- *. destruct Hok as [Hv Hvs]. apply Forall_cons in Hall as [Hn Hall].
  destruct flag; [|by eapply IH]. rewrite (equal_value_refl eq k before v); [by eapply IH|by apply Hk| |done].
  intros n ->. exact Hn.
Qed.

Lemma equal_cells_refl l : equal_cells l l = Ok true.
Proof. induction l as [|z l IH]; [done|]. cbn. by rewrite Z.eqb_refl. Qed.

(** A tree of the announced shape is equal to itself. *)
Lemma equal_refl n : conforms n -> pltsql_equal n n = Ok true.
Proof.
  induction n as [|l IH|l|l|l|label vs IH|s] using node_induction; intros Hc; cbn;
    rewrite ?Nat.eqb_refl, ?equal_cells_refl; try done.
  - destruct Hc as [_ Hc]. induction IH as [|n l Hn IH' IH]; [done|]. cbn in Hc |- *. destruct Hc as [Hcn Hc].
    rewrite Hn by done. by apply IH.
  - rewrite bool_decide_eq_true_2 by done. cbn in Hc. destruct (fields_of label) as [fs|] eqn:Hf; [|done].
    destruct (equal_schema laws label fs Hf) as (flags & -> & Hflags). by eapply equal_fields_refl.
  - by rewrite (equal_server laws).
Qed.

(** *** Arrays of datums *)

Definition same_datum (dc da : node) : Prop := (dc = Null /\ da = Null) \/ pltsql_equal dc da = Ok true.

Lemma datum_walk_spec antlr : forall cached m e m' e', walk cached antlr m e = Ok (m', e') ->
  (m <= m')%nat /\
  (m' = m -> exists sub, sub `sublist_of` antlr /\ Forall2 same_datum cached sub /\
    (e' + length cached = e + length antlr)%nat).
Proof.
  induction antlr as [|da antlr IH]; intros [|dc cached] m e m' e' Hw.
  - cbn in Hw. injection Hw as <- <-. split; [lia|]. intros _. exists []. split_and!; [done|constructor|cbn; lia].
  - cbn in Hw. injection Hw as <- <-. split; [cbn; lia|]. cbn. lia.
  - cbn in Hw. injection Hw as <- <-. split; [lia|]. intros _. exists [].
    split_and!; [apply sublist_nil_l|constructor|cbn; lia].
  - cbn [pltsql_compare_datum_arrays] in Hw. apply rbind_ok in Hw as (same & Hsame & Hw). destruct same.
    + apply IH in Hw as [Hle Hsub]. split; [done|]. intros ->. destruct (Hsub eq_refl) as (sub & Hs & Hf & Hlen).
      exists (da :: sub). split_and!; [by apply sublist_skip| |cbn; lia]. constructor; [|done].
      destruct dc, da; try done; try (by left); by right.
    + apply rbind_ok in Hw as (resync & Hres & Hw). destruct resync.
      * apply IH in Hw as [Hle Hsub]. split; [done|]. intros ->. destruct (Hsub eq_refl) as (sub & Hs & Hf & Hlen).
        exists sub. split_and!; [by apply sublist_cons|done|cbn in *; lia].
      * apply IH in Hw as [Hle Hsub]. split; [lia|]. intros ->. lia.
Qed.

Lemma walk_same cached prefix dups m e : Forall2 same_datum cached prefix ->
  walk cached (prefix ++ dups) m e = Ok (m, (e + length dups)%nat).
Proof.
  induction 1 as [|dc da cached prefix Hd Hf IH]; [by destruct dups|]. cbn [app pltsql_compare_datum_arrays].
  destruct Hd as [[-> ->]|Hd]; [exact IH|]. destruct dc, da; try done; cbn [rbind]; rewrite ?Hd; exact IH.
Qed.
End equal.
