(* ===== verification/RoutineCache.v ===== *)
(** * RoutineCache: the persistent parse cache of routines
    ([babelfishpg_tsql/src/hooks.c], [pl_comp.c] and [catalog.c])

    The parse tree and the datums of a routine are kept as text in columns of
    [babelfish_function_ext], with the version of the extension that wrote them; compiled
    functions are kept in a hash table of the session.  One routine is followed: its row of
    [pg_proc], its row of [babelfish_function_ext], and in every session the entry of its
    hash key.  Parsing, the text form and the comparison of trees are parameters. *)
From stdpp Require Import base numbers list.
From S2P Require Import Prelude NodeIO NodeIOProofs.

(** The version that the columns are compared with. *)
Definition BABELFISH_VERSION_STR : bytes := [54; 46; 52; 46; 48].

(** The columns of [babelfish_function_ext] that matter here. *)
Record bbf_function_ext := {
  antlr_parse_cache_tree : option bytes;
  antlr_parse_cache_datums : option bytes;
  antlr_parse_cache_bbf_version : option bytes;
  antlr_parse_cache_enabled : option bool
}.

Definition with_columns (tree datums version : option bytes) (e : bbf_function_ext) : bbf_function_ext :=
  {| antlr_parse_cache_tree := tree; antlr_parse_cache_datums := datums;
     antlr_parse_cache_bbf_version := version; antlr_parse_cache_enabled := antlr_parse_cache_enabled e |}.

Definition with_enabled (flag : option bool) (e : bbf_function_ext) : bbf_function_ext :=
  {| antlr_parse_cache_tree := antlr_parse_cache_tree e; antlr_parse_cache_datums := antlr_parse_cache_datums e;
     antlr_parse_cache_bbf_version := antlr_parse_cache_bbf_version e; antlr_parse_cache_enabled := flag |}.

(** The row of [pg_proc]; [row_version] is its xmin and its place, new for every update. *)
Record pg_proc := {
  row_version : Z;
  proname : bytes;
  prosrc : bytes;
  returns_trigger : bool;
  is_function : bool;
  proretset : bool;
  returns_composite : bool
}.

(** [PLtsql_function]. *)
Record function {N} := {
  fn_version : Z;
  exec_codes_valid : bool;
  from_cache : bool;
  action : N;
  datums : list N;
  use_count : nat
}.
Arguments function : clear implicits.

(** What a session has of its own: whether it is a TDS connection in the T-SQL dialect, the
    settings, the entry of the hash table and the counters. *)
Record session {N} := {
  tds_tsql : bool;
  babelfish_dump_restore : bool;
  enable_antlr_parse_cache : bool;
  validate_antlr_parse_cache : bool;
  XactReadOnly : bool;
  entry : option (function N);
  stat_hits : Z;
  stat_misses : Z;
  stat_writes : Z;
  stat_evictions : Z;
  stat_errors : Z
}.
Arguments session : clear implicits.

Section cache.
Context {S B : Type}.
Abbreviation node := (node S B).
Abbreviation function := (function node).
Abbreviation session := (session node).
Variable nodeToString : node -> result failure bytes.
Variable stringToNode : bytes -> result failure node.
Variable compare_parse_trees : node -> node -> result failure bool.
Variable compare_datum_arrays : list node -> list node -> result failure (nat * nat).
(** The tree and the datums of a routine with this name and source. *)
Variable antlr_parse : bytes -> bytes -> result failure (node * list node).

Definition set_entry (f : option function) (s : session) : session :=
  {| tds_tsql := tds_tsql s; babelfish_dump_restore := babelfish_dump_restore s;
     enable_antlr_parse_cache := enable_antlr_parse_cache s;
     validate_antlr_parse_cache := validate_antlr_parse_cache s; XactReadOnly := XactReadOnly s;
     entry := f; stat_hits := stat_hits s; stat_misses := stat_misses s; stat_writes := stat_writes s;
     stat_evictions := stat_evictions s; stat_errors := stat_errors s |}.

Definition add_stats (hits misses writes evictions errors : Z) (s : session) : session :=
  {| tds_tsql := tds_tsql s; babelfish_dump_restore := babelfish_dump_restore s;
     enable_antlr_parse_cache := enable_antlr_parse_cache s;
     validate_antlr_parse_cache := validate_antlr_parse_cache s; XactReadOnly := XactReadOnly s;
     entry := entry s; stat_hits := stat_hits s + hits; stat_misses := stat_misses s + misses;
     stat_writes := stat_writes s + writes; stat_evictions := stat_evictions s + evictions;
     stat_errors := stat_errors s + errors |}.

Definition count_routine_hit : session -> session := add_stats 1 0 0 0 0.
Definition count_routine_miss : session -> session := add_stats 0 1 0 0 0.
Definition count_routine_write : session -> session := add_stats 0 0 1 0 0.
Definition count_routine_eviction : session -> session := add_stats 0 0 0 1 0.
Definition count_routine_error : session -> session := add_stats 0 0 0 0 1.

(** ** The columns ([hooks.c]) *)

(** Without a row of [babelfish_function_ext] the setting of the session decides. *)
Definition is_antlr_parse_cache_enabled_for_routine (s : session) (p : pg_proc) (bbftup : option bbf_function_ext)
    : bool :=
  if negb (tds_tsql s) then false
  else if babelfish_dump_restore s then false
  else if returns_trigger p then false
  else if is_function p && proretset p && negb (returns_composite p) then false
  else match bbftup with
       | None => enable_antlr_parse_cache s
       | Some e => match antlr_parse_cache_enabled e with Some flag => flag | None => enable_antlr_parse_cache s end
       end.

(** Errors of the serializer are counted and reported again. *)
Definition serialize_with_error_handling (n : node) (s : session) : result failure bytes * session :=
  match nodeToString n with Ok t => (Ok t, s) | Err e => (Err e, count_routine_error s) end.

Definition deserialize_with_error_handling (t : bytes) (s : session) : result failure node * session :=
  match stringToNode t with Ok n => (Ok n, s) | Err e => (Err e, count_routine_error s) end.

Definition null_node (n : node) : bool := match n with Null => true | _ => false end.

(** The tree that has been written is read again and compared; only a report depends on it. *)
Definition validate_text (act : node) (tree_str : bytes) (s : session) : result failure unit * session :=
  if validate_antlr_parse_cache s then
    match deserialize_with_error_handling tree_str s with
    | (Err e, s) => (Err e, s)
    | (Ok Null, s) => (Ok tt, s)
    | (Ok roundtrip, s) =>
        (match compare_parse_trees act roundtrip with Ok _ => Ok tt | Err e => Err e end, s)
    end
  else (Ok tt, s).

(** [pltsql_fill_antlr_parse_cache_columns]: the three columns. *)
Definition pltsql_fill_antlr_parse_cache_columns (f : option function) (s : session)
    : result failure (option bytes * option bytes * option bytes) * session :=
  match f with
  | None => (Ok (None, None, None), s)
  | Some f =>
      if null_node (action f) then (Ok (None, None, None), s)
      else
        match serialize_with_error_handling (action f) s with
        | (Err e, s) => (Err e, s)
        | (Ok tree_str, s) =>
            let datum_list := filter (fun d => null_node d = false) (datums f) in
            match (match datum_list with
                   | [] => (Ok None, s)
                   | _ => match serialize_with_error_handling (NList datum_list) s with
                          | (Ok t, s) => (Ok (Some t), s)
                          | (Err e, s) => (Err e, s)
                          end
                   end) with
            | (Err e, s) => (Err e, s)
            | (Ok datums_str, s) =>
                match validate_text (action f) tree_str s with
                | (Err e, s) => (Err e, s)
                | (Ok _, s) => (Ok (Some tree_str, datums_str, Some BABELFISH_VERSION_STR), count_routine_write s)
                end
            end
        end
  end.

(** [pltsql_update_func_antlr_parse_cache]: after a fresh parse. *)
Definition pltsql_update_func_antlr_parse_cache (p : pg_proc) (ext : option bbf_function_ext) (f : function)
    (s : session) : result failure (option bbf_function_ext) * session :=
  if XactReadOnly s then (Ok ext, s)
  else match ext with
       | None => (Ok None, s)
       | Some e =>
           if is_antlr_parse_cache_enabled_for_routine s p (Some e) then
             match pltsql_fill_antlr_parse_cache_columns (Some f) s with
             | (Err e, s) => (Err e, s)
             | (Ok (t, d, v), s) => (Ok (Some (with_columns t d v e)), s)
             end
           else (Ok ext, s)
       end.

(** [pltsql_restore_antlr_parse_cache_result]: the cached tree and datums, and whether
    caching is enabled. *)
Definition pltsql_restore_antlr_parse_cache_result (p : pg_proc) (ext : option bbf_function_ext) (s : session)
    : result failure (option (node * list node) * bool) * session :=
  if negb (tds_tsql s) then (Ok (None, false), s)
  else if babelfish_dump_restore s then (Ok (None, false), s)
  else match ext with
  | None => (Ok (None, false), s)
  | Some e =>
      if negb (is_antlr_parse_cache_enabled_for_routine s p (Some e)) then (Ok (None, false), s)
      else match antlr_parse_cache_bbf_version e with
      | None => (Ok (None, true), s)
      | Some v =>
          if negb (bool_decide (v = BABELFISH_VERSION_STR)) then (Ok (None, true), s)
          else match antlr_parse_cache_tree e with
          | None => (Ok (None, true), s)
          | Some t =>
              match deserialize_with_error_handling t s with
              | (Err e, s) => (Err e, s)
              | (Ok Null, s) => (Ok (None, true), s)
              | (Ok tree, s) =>
                  match antlr_parse_cache_datums e with
                  | None => (Ok (Some (tree, []), true), s)
                  | Some d =>
                      match deserialize_with_error_handling d s with
                      | (Err e, s) => (Err e, s)
                      | (Ok Null, s) => (Ok (Some (tree, []), true), s)
                      | (Ok (NList l), s) => (Ok (Some (tree, l), true), s)
                      | (Ok _, s) => (Err Crash, s)
                      end
                  end
              end
          end
      end
  end.

(** ** The hash table of the session ([pl_comp.c]) *)

(** A function from the columns is dropped if the setting is off. *)
Definition pltsql_HashTableLookup (s : session) : option function * session :=
  match entry s with
  | None => (None, s)
  | Some f =>
      if negb (enable_antlr_parse_cache s) && from_cache f
      then (None, set_entry None (count_routine_eviction s))
      else (Some f, s)
  end.

(** A restored tree is a hit; without one there is a miss if caching is enabled. *)
Definition count_restore (cached : option (node * list node)) (enabled : bool) (s : session) : session :=
  match cached with
  | Some _ => count_routine_hit s
  | None => if enabled then count_routine_miss s else s
  end.

(** The restored tree is used as it is, unless it is to be compared with a new one. *)
Definition parse_or_cached (validate : bool) (p : pg_proc) (cached : option (node * list node))
    : result failure (node * list node) :=
  match cached with
  | Some result => if validate then antlr_parse (proname p) (prosrc p) else Ok result
  | None => antlr_parse (proname p) (prosrc p)
  end.

Definition make_function (validate : bool) (p : pg_proc) (cached : option (node * list node))
    (result : node * list node) : function :=
  {| fn_version := row_version p; exec_codes_valid := true;
     from_cache := match cached with Some _ => negb validate | None => false end;
     action := result.1; datums := result.2; use_count := 0 |}.

(** The comparison of a restored tree with a new one. *)
Definition compare_cached (validate : bool) (cached : option (node * list node)) (f : function)
    : result failure unit :=
  match cached with
  | Some (tree, ds) =>
      if validate then
        let! _ := compare_parse_trees tree (action f) in
        let! _ := compare_datum_arrays ds (datums f) in
        Ok tt
      else Ok tt
  | None => Ok tt
  end.

(** [do_compile]; the comparison comes after the insertion into the table. *)
Definition do_compile (p : pg_proc) (ext : option bbf_function_ext) (s : session) (forValidator : bool)
    : result failure (function * option bbf_function_ext) * session :=
  let validate := validate_antlr_parse_cache s in
  match (if forValidator then (Ok (None, false), s) else pltsql_restore_antlr_parse_cache_result p ext s) with
  | (Err e, s) => (Err e, s)
  | (Ok (cached, enabled), s) =>
      let s := count_restore cached enabled s in
      match parse_or_cached validate p cached with
      | Err e => (Err e, s)
      | Ok result =>
          let f := make_function validate p cached result in
          match (if negb forValidator && negb (from_cache f)
                 then pltsql_update_func_antlr_parse_cache p ext f s else (Ok ext, s)) with
          | (Err e, s) => (Err e, s)
          | (Ok ext, s) =>
              (match compare_cached validate cached f with Ok _ => Ok (f, ext) | Err e => Err e end,
               set_entry (Some f) s)
          end
      end
  end.

(** Whether a compiled function can be used, and the hit that is counted then. *)
Definition check_function (p : pg_proc) (f : function) (s : session) : bool * session :=
  if (fn_version f =? row_version p) && exec_codes_valid f then
    if from_cache f then
      if is_antlr_parse_cache_enabled_for_routine s p None then (true, count_routine_hit s) else (false, s)
    else (true, s)
  else (false, s).

(** An unusable function leaves the table, if it is there. *)
Definition drop_function (linked : bool) (f : function) (s : session) : session :=
  let s := if from_cache f then count_routine_eviction s else s in
  if linked then set_entry None s else s.

Definition compile_from_table (p : pg_proc) (ext : option bbf_function_ext) (s : session) (forValidator : bool)
    : result failure (function * option bbf_function_ext) * session :=
  match pltsql_HashTableLookup s with
  | (None, s) => do_compile p ext s forValidator
  | (Some f, s) =>
      match check_function p f s with
      | (true, s) => (Ok (f, ext), s)
      | (false, s) => do_compile p ext (drop_function true f s) forValidator
      end
  end.

(** The function that a call remembers in [fn_extra]: none, the one in the table, or an
    older one that has left the table. *)
Inductive extra := NoExtra | Linked | Unlinked (f : function).

Definition pltsql_compile (p : pg_proc) (ext : option bbf_function_ext) (s : session) (fn_extra : extra)
    (forValidator : bool) : result failure (function * option bbf_function_ext) * session :=
  match (match fn_extra with
         | NoExtra => None
         | Linked => match entry s with Some f => Some (true, f) | None => None end
         | Unlinked f => Some (false, f)
         end) with
  | None => compile_from_table p ext s forValidator
  | Some (linked, f) =>
      match check_function p f s with
      | (true, s) => (Ok (f, ext), s)
      | (false, s) =>
          let s := drop_function linked f s in
          if (use_count f =? 0)%nat then do_compile p ext s forValidator
          else compile_from_table p ext s forValidator
      end
  end.

(** ** Changes of the catalog *)

(** The columns as [pltsql_store_func_default_positions] leaves them for CREATE and ALTER:
    from the function in the hash table, whatever row of [pg_proc] it was compiled from. *)
Definition pltsql_store_func_default_positions (p : pg_proc) (ext : option bbf_function_ext) (s : session)
    : result failure (option bbf_function_ext) * session :=
  if babelfish_dump_restore s then (Ok ext, s)
  else
    let '(f, s) := if is_antlr_parse_cache_enabled_for_routine s p ext then pltsql_HashTableLookup s else (None, s) in
    match pltsql_fill_antlr_parse_cache_columns f s with
    | (Err e, s) => (Err e, s)
    | (Ok (t, d, v), s) =>
        (Ok (Some (with_columns t d v
               (match ext with
                | Some e => e
                | None => {| antlr_parse_cache_tree := None; antlr_parse_cache_datums := None;
                             antlr_parse_cache_bbf_version := None; antlr_parse_cache_enabled := None |}
                end))), s)
    end.

(** [sys.enable_antlr_parse_cache]: on, off (which clears the columns), or the default. *)
Definition update_bbf_function_antlr_parse_cache (flag : option bool) (e : bbf_function_ext) (s : session)
    : bbf_function_ext * session :=
  match flag with
  | Some false => (with_columns None None None (with_enabled flag e), count_routine_eviction s)
  | _ => (with_enabled flag e, s)
  end.

(** Renaming clears the columns; the flag stays. *)
Definition rename_procfunc_update_bbf_catalog (e : bbf_function_ext) : bbf_function_ext :=
  with_columns None None None e.

(** A new row of [pg_proc]. *)
Definition new_row (version : Z) (name src : bytes) (p : pg_proc) : pg_proc :=
  {| row_version := version; proname := name; prosrc := src; returns_trigger := returns_trigger p;
     is_function := is_function p; proretset := proretset p; returns_composite := returns_composite p |}.

(** ALTER: the new row, the validator unless [check_function_bodies] is off, the columns. *)
Definition alter_routine (p' : pg_proc) (check_function_bodies : bool) (ext : option bbf_function_ext)
    (s : session) : result failure (option bbf_function_ext) * session :=
  match (if check_function_bodies then
           match pltsql_compile p' ext s NoExtra true with
           | (Ok _, s) => (Ok tt, s)
           | (Err e, s) => (Err e, s)
           end
         else (Ok tt, s)) with
  | (Err e, s) => (Err e, s)
  | (Ok _, s) => pltsql_store_func_default_positions p' ext s
  end.

(** ** All sessions *)

(** The catalog, the sessions, the version of the next row and the functions that calls may
    still remember.  The last two fields only record what happened: the definitions the
    routine has had or an ALTER tried to give it, and whether the last change went through the
    validator and refreshed the columns. *)
Record world := {
  proc : pg_proc;
  ext : option bbf_function_ext;
  next_version : Z;
  sessions : list session;
  remembered : list function;
  definitions : list (bytes * bytes);
  validated : bool
}.

Definition catalog (w : world) (e : option bbf_function_ext) : world :=
  {| proc := proc w; ext := e; next_version := next_version w; sessions := sessions w; remembered := remembered w;
     definitions := definitions w; validated := validated w |}.
Definition in_session (w : world) (i : nat) (s : session) : world :=
  {| proc := proc w; ext := ext w; next_version := next_version w; sessions := <[i := s]> (sessions w);
     remembered := remembered w; definitions := definitions w; validated := validated w |}.
Definition remember (w : world) (f : function) : world :=
  {| proc := proc w; ext := ext w; next_version := next_version w; sessions := sessions w;
     remembered := f :: remembered w; definitions := definitions w; validated := validated w |}.

Definition definition_of (p : pg_proc) : bytes * bytes := (proname p, prosrc p).

(** The new row is there, and so are the columns. *)
Definition redefine (w : world) (p' : pg_proc) (e : option bbf_function_ext) (checked : bool) : world :=
  {| proc := p'; ext := e; next_version := next_version w + 1; sessions := sessions w; remembered := remembered w;
     definitions := definition_of p' :: definitions w; validated := checked |}.

(** The new row has been rolled back; its version is not used again. *)
Definition roll_back (w : world) (p' : pg_proc) : world :=
  {| proc := proc w; ext := ext w; next_version := next_version w + 1; sessions := sessions w;
     remembered := remembered w; definitions := definition_of p' :: definitions w; validated := validated w |}.

(** The same function, used by more or fewer calls or with its code invalidated. *)
Definition same_function (f f' : function) : Prop :=
  fn_version f' = fn_version f /\ from_cache f' = from_cache f /\ action f' = action f /\ datums f' = datums f.

(** Statements are atomic: one that fails leaves the catalog as it was, but not the session.
    ALTER runs with [check_function_bodies] on or off, and in a session that restores a dump
    or not. *)
Inductive step (w : world) : world -> Prop :=
| exec_ok i s x f e s' :
    sessions w !! i = Some s -> match x with Unlinked f => f ∈ remembered w | _ => True end ->
    pltsql_compile (proc w) (ext w) s x false = (Ok (f, e), s') ->
    step w (remember (catalog (in_session w i s') e) f)
| exec_fails i s x err s' :
    sessions w !! i = Some s -> match x with Unlinked f => f ∈ remembered w | _ => True end ->
    pltsql_compile (proc w) (ext w) s x false = (Err err, s') -> step w (in_session w i s')
| alter_ok i s src check_function_bodies e s' :
    sessions w !! i = Some s ->
    let p' := new_row (next_version w) (proname (proc w)) src (proc w) in
    alter_routine p' check_function_bodies (ext w) s = (Ok e, s') ->
    step w (redefine (in_session w i s') p' e (check_function_bodies && negb (babelfish_dump_restore s)))
| alter_fails i s src check_function_bodies err s' :
    sessions w !! i = Some s ->
    let p' := new_row (next_version w) (proname (proc w)) src (proc w) in
    alter_routine p' check_function_bodies (ext w) s = (Err err, s') ->
    step w (roll_back (in_session w i s') p')
| rename name :
    step w (redefine w (new_row (next_version w) name (prosrc (proc w)) (proc w))
              (rename_procfunc_update_bbf_catalog <$> ext w) true)
| enable i s e flag e' s' :
    sessions w !! i = Some s -> ext w = Some e ->
    update_bbf_function_antlr_parse_cache flag e s = (e', s') ->
    step w (catalog (in_session w i s') (Some e'))
| other_release e t d v :
    ext w = Some e -> v <> Some BABELFISH_VERSION_STR -> step w (catalog w (Some (with_columns t d v e)))
| settings i s s' :
    sessions w !! i = Some s ->
    match entry s' with
    | None => True
    | Some f' => exists f, entry s = Some f /\ same_function f f'
    end -> step w (in_session w i s')
| connect s : entry s = None -> step w
    {| proc := proc w; ext := ext w; next_version := next_version w; sessions := sessions w ++ [s];
       remembered := remembered w; definitions := definitions w; validated := validated w |}.
End cache.
