(* ===== verification/RoutineCacheProofs.v ===== *)
(** * RoutineCacheProofs: the columns and the hash table follow the definition *)
From stdpp Require Import base numbers list relations.
From S2P Require Import Prelude NodeIO NodeIOProofs RoutineCache.

Section proofs.
Context {S B : Type}.
Abbreviation node := (node S B).
Abbreviation function := (function node).
Abbreviation session := (session node).
Variable nodeToString : node -> result failure bytes.
Variable stringToNode : bytes -> result failure node.
Variable compare_parse_trees : node -> node -> result failure bool.
Variable compare_datum_arrays : list node -> list node -> result failure (nat * nat).
Variable antlr_parse : bytes -> bytes -> result failure (node * list node).

Abbreviation fill := (pltsql_fill_antlr_parse_cache_columns nodeToString stringToNode compare_parse_trees).
Abbreviation update_func := (pltsql_update_func_antlr_parse_cache nodeToString stringToNode compare_parse_trees).
Abbreviation restore := (pltsql_restore_antlr_parse_cache_result stringToNode).
Abbreviation do_compile :=
  (do_compile nodeToString stringToNode compare_parse_trees compare_datum_arrays antlr_parse).
Abbreviation compile_from_table :=
  (compile_from_table nodeToString stringToNode compare_parse_trees compare_datum_arrays antlr_parse).
Abbreviation pltsql_compile :=
  (pltsql_compile nodeToString stringToNode compare_parse_trees compare_datum_arrays antlr_parse).
Abbreviation store := (pltsql_store_func_default_positions nodeToString stringToNode compare_parse_trees).
Abbreviation alter_routine :=
  (alter_routine nodeToString stringToNode compare_parse_trees compare_datum_arrays antlr_parse).
Abbreviation step := (step nodeToString stringToNode compare_parse_trees compare_datum_arrays antlr_parse).

Definition present (ds : list node) : list node := filter (fun d => null_node d = false) ds.

Lemma present_reread ds : present (map reread (present ds)) = map reread (present ds).
Proof.
  unfold present. induction ds as [|d ds IH]; [done|]. rewrite filter_cons.
  destruct (decide (null_node d = false)) as [Hd|Hd]; [|done]. cbn [map]. rewrite filter_cons_True, IH; [done|].
  by destruct d.
Qed.

Lemma reread_all_twice ds : map reread (map reread ds) = map reread (ds : list node).
Proof. rewrite map_map. apply map_ext, reread_twice. Qed.

(** The result of parsing the routine [p]. *)
Definition parsed (p : pg_proc) (f : function) : Prop :=
  antlr_parse (proname p) (prosrc p) = Ok (action f, datums f).

(** A name and a source, among [D], and the result of parsing them. *)
Definition parse_of (D : list (bytes * bytes)) (tree : node) (ds : list node) : Prop :=
  exists name src, (name, src) ∈ D /\ antlr_parse name src = Ok (tree, ds).

(** The result of parsing, as the text form brings it back. *)
Definition restored (D : list (bytes * bytes)) (tree : node) (ds : list node) : Prop :=
  exists tree0 ds0, parse_of D tree0 ds0 /\ tree = reread tree0 /\ ds = map reread (present ds0).

(** A tree and datums that come from one of the definitions [D]. *)
Definition traced (D : list (bytes * bytes)) (tree : node) (ds : list node) : Prop :=
  parse_of D tree ds \/ restored D tree ds.

(** A function made from the row [p], or restored from a tree of one of the definitions [D]. *)
Definition sound (D : list (bytes * bytes)) (p : pg_proc) (f : function) : Prop :=
  fn_version f = row_version p /\ (if from_cache f then restored D (action f) (datums f) else parsed p f).

(** The columns hold the text of the result of parsing one of the definitions, or are not used. *)
Definition ext_ok (D : list (bytes * bytes)) (e : bbf_function_ext) : Prop :=
  antlr_parse_cache_bbf_version e = Some BABELFISH_VERSION_STR ->
  match antlr_parse_cache_tree e with
  | None => True
  | Some t => exists tree ds, traced D tree ds /\
      nodeToString tree = Ok t /\
      match antlr_parse_cache_datums e with
      | None => present ds = []
      | Some d => present ds <> [] /\ nodeToString (NList (present ds)) = Ok d
      end
  end.

Definition exts_ok (D : list (bytes * bytes)) (e : option bbf_function_ext) : Prop :=
  match e with Some e => ext_ok D e | None => True end.

Lemma parsed_traced D p f : definition_of p ∈ D -> parsed p f -> traced D (action f) (datums f).
Proof. intros Hp Hf. left. by exists (proname p), (prosrc p). Qed.

Lemma sound_traced D p f : definition_of p ∈ D -> sound D p f -> traced D (action f) (datums f).
Proof. intros Hp [_ Hf]. destruct (from_cache f); [by right|by eapply parsed_traced]. Qed.

Lemma traced_mono D D' tree ds : D ⊆ D' -> traced D tree ds -> traced D' tree ds.
Proof.
  intros Hsub [(name & src & Hin & Hp)|(t & l & (name & src & Hin & Hp) & ? & ?)].
  - left. exists name, src. auto.
  - right. exists t, l. split; [|done]. exists name, src. auto.
Qed.

Lemma exts_mono D D' e : D ⊆ D' -> exts_ok D e -> exts_ok D' e.
Proof.
  intros Hsub. destruct e as [e|]; [|done]. intros He Hv. specialize (He Hv).
  destruct (antlr_parse_cache_tree e) as [t|]; [|done]. destruct He as (tree & ds & Ht & ?).
  exists tree, ds. split; [by eapply traced_mono|done].
Qed.

(** ** Writing and reading the columns *)

Lemma serialize_spec n s r s' : serialize_with_error_handling nodeToString n s = (r, s') ->
  entry s' = entry s /\ forall t, r = Ok t -> nodeToString n = Ok t.
Proof.
  unfold serialize_with_error_handling. destruct (nodeToString n); intros [= <- <-]; split; try done.
Qed.

Lemma deserialize_spec t s r s' : deserialize_with_error_handling stringToNode t s = (r, s') ->
  entry s' = entry s /\ r = stringToNode t.
Proof. unfold deserialize_with_error_handling. destruct (stringToNode t); by intros [= <- <-]. Qed.

Lemma validate_entry act t s r s' :
  validate_text stringToNode compare_parse_trees act t s = (r, s') -> entry s' = entry s.
Proof.
  unfold validate_text. destruct (validate_antlr_parse_cache s); [|by intros [= _ <-]].
  destruct (deserialize_with_error_handling stringToNode t s) as [r1 s1] eqn:Hd.
  apply deserialize_spec in Hd as [He _]. destruct r1 as [[]|]; by intros [= _ <-].
Qed.

Lemma columns_fill_spec (f : function) D e s r s' : traced D (action f) (datums f) ->
  fill (Some f) s = (r, s') ->
  entry s' = entry s /\ forall t d v, r = Ok (t, d, v) -> ext_ok D (with_columns t d v e).
Proof.
  intros Hp Hf. cbn in Hf. destruct (null_node (action f)); [by injection Hf as <- <-; split; [|intros ? ? ? [= <- <- <-]]|].
  destruct (serialize_with_error_handling nodeToString (action f) s) as [r1 s1] eqn:H1.
  apply serialize_spec in H1 as [E1 H1]. destruct r1 as [t1|]; [|injection Hf as <- <-; by split].
  specialize (H1 t1 eq_refl). fold (present (datums f)) in Hf.
  destruct (match present (datums f) with [] => _ | _ => _ end) as [r2 s2] eqn:H2 in Hf.
  assert (Hd : entry s2 = entry s /\ forall d, r2 = Ok d -> match d with
    | None => present (datums f) = []
    | Some d => present (datums f) <> [] /\ nodeToString (NList (present (datums f))) = Ok d end).
  { destruct (present (datums f)) as [|n l]; [injection H2 as <- <-; split; [done|by intros d [= <-]]|].
    destruct (serialize_with_error_handling nodeToString (NList (n :: l)) s1) as [r3 s3] eqn:H3.
    apply serialize_spec in H3 as [E3 H3]. destruct r3 as [d3|]; injection H2 as <- <-; split; try congruence.
    intros d [= <-]. split; [done|by apply H3]. }
  destruct Hd as [E2 Hd]. destruct r2 as [d|]; [|injection Hf as <- <-; by split].
  destruct (validate_text stringToNode compare_parse_trees (action f) t1 s2) as [r4 s4] eqn:H4.
  apply validate_entry in H4. destruct r4; injection Hf as <- <-; (split; [cbn; congruence|]); [|done].
  intros t d' v [= <- <- <-] _. cbn. exists (action f), (datums f). split; [exact Hp|]. split; [done|by apply Hd].
Qed.

Lemma update_func_spec (f : function) D p e s r s' : traced D (action f) (datums f) -> exts_ok D e ->
  update_func p e f s = (r, s') -> entry s' = entry s /\ forall e', r = Ok e' -> exts_ok D e'.
Proof.
  intros Hp He Hu. unfold pltsql_update_func_antlr_parse_cache in Hu.
  destruct (XactReadOnly s); [injection Hu as <- <-; split; [done|by intros e' [= <-]]|].
  destruct e as [e|]; [|injection Hu as <- <-; split; [done|by intros e' [= <-]]].
  destruct (is_antlr_parse_cache_enabled_for_routine s p (Some e)); [|injection Hu as <- <-; split; [done|by intros e' [= <-]]].
  destruct (fill (Some f) s) as [r1 s1] eqn:Hf. destruct (columns_fill_spec f D e s r1 s1 Hp Hf) as [E1 H1].
  destruct r1 as [[[t d] v]|]; injection Hu as <- <-; (split; [done|]); [|done].
  intros e' [= <-]. by apply H1.
Qed.

(** The text form brings the results of parsing back. *)
Variable good : node -> Prop.
Hypothesis parse_good : forall name src tree ds, antlr_parse name src = Ok (tree, ds) ->
  good tree /\ (present ds <> [] -> good (NList (present ds))).
Hypothesis reread_good : forall n, good n -> good (reread n).
Hypothesis text_back : forall n t, good n -> nodeToString n = Ok t -> stringToNode t = Ok (reread n).

(** A tree that is written comes back as that of a definition. *)
Lemma traced_back D tree ds : traced D tree ds ->
  good tree /\ (present ds <> [] -> good (NList (present ds))) /\
  restored D (reread tree) (map reread (present ds)).
Proof.
  intros [Hp|(tree0 & ds0 & Hp & -> & ->)]; pose proof Hp as (name & src & _ & Hparse);
    destruct (parse_good _ _ _ _ Hparse) as [Hg Hgd].
  - split_and!; try done. by exists tree, ds.
  - split_and!; [by apply reread_good| |].
    + rewrite present_reread. intros Hne. apply (reread_good (NList (present ds0))), Hgd. by intros E; rewrite E in Hne.
    + exists tree0, ds0. rewrite reread_twice, present_reread, reread_all_twice. by split.
Qed.

Lemma columns_restore_spec D p e s r s' : exts_ok D e -> restore p e s = (r, s') ->
  entry s' = entry s /\ forall tree ds en, r = Ok (Some (tree, ds), en) -> restored D tree ds.
Proof.
  intros He Hr. unfold pltsql_restore_antlr_parse_cache_result in Hr.
  destruct (tds_tsql s); [|injection Hr as <- <-; by split].
  destruct (babelfish_dump_restore s); [injection Hr as <- <-; by split|]. cbn [negb] in Hr.
  destruct e as [e|]; [|injection Hr as <- <-; by split].
  destruct (is_antlr_parse_cache_enabled_for_routine s p (Some e)); [|injection Hr as <- <-; by split]. cbn [negb] in Hr.
  cbn in He. unfold ext_ok in He. destruct (antlr_parse_cache_bbf_version e) as [v|]; [|injection Hr as <- <-; by split].
  destruct (decide (v = BABELFISH_VERSION_STR)) as [->|Hv].
  2: { rewrite bool_decide_eq_false_2 in Hr by done. injection Hr as <- <-. by split. }
  rewrite bool_decide_eq_true_2 in Hr by done. cbn [negb] in Hr. specialize (He eq_refl).
  destruct (antlr_parse_cache_tree e) as [t|]; [|injection Hr as <- <-; by split].
  destruct He as (tree0 & ds0 & Hp & Ht & Hd). destruct (traced_back _ _ _ Hp) as (Hg & Hgd & Hrest).
  destruct (deserialize_with_error_handling stringToNode t s) as [r1 s1] eqn:H1.
  apply deserialize_spec in H1 as [E1 ->]. rewrite (text_back tree0 t Hg Ht) in Hr.
  assert (Hds : forall s2 r2, match antlr_parse_cache_datums e with
    | None => (Ok (Some (reread tree0, []), true), s1)
    | Some d => match deserialize_with_error_handling stringToNode d s1 with
        | (Err e, s) => (Err e, s)
        | (Ok Null, s) => (Ok (Some (reread tree0, []), true), s)
        | (Ok (NList l), s) => (Ok (Some (reread tree0, l), true), s)
        | (Ok _, s) => (Err Crash, s)
        end end = (r2, s2) -> entry s2 = entry s /\ r2 = Ok (Some (reread tree0, map reread (present ds0)), true)).
  { intros s2 r2 H2. destruct (antlr_parse_cache_datums e) as [d|].
    - destruct Hd as [Hne Hd]. destruct (deserialize_with_error_handling stringToNode d s1) as [r3 s3] eqn:H3.
      apply deserialize_spec in H3 as [E3 ->]. rewrite (text_back _ d (Hgd Hne) Hd) in H2. cbn in H2.
      injection H2 as <- <-. split; [congruence|done].
    - injection H2 as <- <-. by rewrite Hd. }
  remember (reread tree0) as back eqn:Hback. destruct back; try (destruct (Hds _ _ Hr) as [E2 Hr2]; split; [done|];
    intros tree ds en Hok; rewrite Hok in Hr2; injection Hr2 as -> -> _; done).
  injection Hr as <- <-. by split.
Qed.

(** What a compilation leaves: the entry as it was, or a sound one. *)
Definition entry_follows (D : list (bytes * bytes)) (p : pg_proc) (s s' : session) : Prop :=
  entry s' = entry s \/ entry s' = None \/ exists f, entry s' = Some f /\ sound D p f.

Lemma do_compile_spec D p e s fv r s' : definition_of p ∈ D -> exts_ok D e -> do_compile p e s fv = (r, s') ->
  entry_follows D p s s' /\
  forall f e', r = Ok (f, e') -> sound D p f /\ exts_ok D e' /\ entry s' = Some f /\ (fv = true -> from_cache f = false).
Proof.
  intros Hdef He Hc. unfold RoutineCache.do_compile in Hc.
  destruct (if fv then _ else _) as [r1 s1] eqn:H1 in Hc.
  assert (Hres : entry s1 = entry s /\ (fv = true -> r1 = Ok (None, false)) /\
    forall tree ds en, r1 = Ok (Some (tree, ds), en) -> restored D tree ds).
  { destruct fv; [injection H1 as <- <-; by split_and!|]. apply (columns_restore_spec D) in H1 as [E1 H1]; [|done]. by split_and!. }
  destruct Hres as (E1 & Hfv & Hres). destruct r1 as [[cached en]|]; [|injection Hc as <- <-; split; [by left|done]].
  assert (E2 : entry (count_restore cached en s1) = entry s) by (destruct cached, en; done).
  destruct (parse_or_cached antlr_parse (validate_antlr_parse_cache s) p cached) as [result|] eqn:Hpr;
    [|injection Hc as <- <-; split; [by left|done]].
  assert (Hsound : sound D p (make_function (validate_antlr_parse_cache s) p cached result)).
  { split; [done|]. cbn. unfold parse_or_cached in Hpr. unfold parsed. destruct result as [tree ds].
    destruct cached as [[ct cd]|]; [|exact Hpr].
    destruct (validate_antlr_parse_cache s); cbn; [exact Hpr|]. injection Hpr as <- <-. by apply (Hres ct cd en). }
  assert (Hfresh : fv = true -> from_cache (make_function (validate_antlr_parse_cache s) p cached result) = false)
    by (intros Ht; specialize (Hfv Ht); injection Hfv as -> _; done).
  set (f := make_function _ _ _ _) in *. clearbody f.
  destruct (if negb fv && negb (from_cache f) then _ else _) as [r3 s3] eqn:H3 in Hc.
  assert (Hup : entry s3 = entry s /\ forall e', r3 = Ok e' -> exts_ok D e').
  { destruct (negb fv && negb (from_cache f)) eqn:Hn.
    - apply (update_func_spec f D) in H3 as [E3 H3]; [split; [congruence|done]| |done]. by eapply sound_traced.
    - injection H3 as <- <-. split; [done|by intros e' [= <-]]. }
  destruct Hup as [E3 Hup]. destruct r3 as [e3|]; [|injection Hc as <- <-; split; [by left|done]].
  injection Hc as <- <-. split; [right; right; by exists f|]. intros f0 e0 Ho.
  destruct (compare_cached _ _ _ _ _); [|done]. injection Ho as <- <-. split_and!; try done. by apply Hup.
Qed.

Definition fn_ok (D : list (bytes * bytes)) (p : pg_proc) (f : function) : Prop := fn_version f = row_version p -> sound D p f.
Definition entry_ok (D : list (bytes * bytes)) (p : pg_proc) (s : session) : Prop :=
  match entry s with Some f => fn_ok D p f | None => True end.

Lemma check_function_spec p (f : function) s ok s' : check_function p f s = (ok, s') ->
  entry s' = entry s /\ (ok = true -> fn_version f = row_version p).
Proof.
  unfold check_function. destruct (Z.eqb_spec (fn_version f) (row_version p)) as [E|E]; cbn.
  - destruct (exec_codes_valid f), (from_cache f), (is_antlr_parse_cache_enabled_for_routine s p None);
      by intros [= <- <-].
  - intros [= <- <-]. by split.
Qed.

Lemma lookup_spec (s s' : session) f : pltsql_HashTableLookup s = (f, s') ->
  (f = entry s /\ entry s' = entry s) \/ (f = None /\ entry s' = None).
Proof.
  unfold pltsql_HashTableLookup. destruct (entry s) as [g|] eqn:E; [|by intros [= <- <-]; left].
  destruct (_ && _); intros [= <- <-]; [by right|left]. done.
Qed.

Lemma drop_function_entry linked (f : function) (s : session) :
  entry (drop_function linked f s) = entry s \/ entry (drop_function linked f s) = None.
Proof. unfold drop_function. destruct (from_cache f), linked; cbn; auto. Qed.

(** The result of a compilation, and the entry that it leaves. *)
Definition compiles (D : list (bytes * bytes)) (p : pg_proc) (s : session) (fv : bool) (r : result failure (function * option bbf_function_ext))
    (s' : session) : Prop :=
  entry_follows D p s s' /\
  forall f e', r = Ok (f, e') -> sound D p f /\ exts_ok D e' /\
    ((forall g, entry s = Some g -> fn_version g <> row_version p) -> entry s' = Some f /\ (fv = true -> from_cache f = false)).

Lemma compiles_after D p s1 s fv r s' : entry s1 = entry s \/ entry s1 = None -> compiles D p s1 fv r s' -> compiles D p s fv r s'.
Proof.
  intros E [Hf Hr]. split.
  - destruct Hf as [Hf|[Hf|Hf]]; [|right; by left|right; by right].
    destruct E as [E|E]; [left; congruence|right; left; congruence].
  - intros f e' Hok. destruct (Hr f e' Hok) as (Hs & He & Hn). split_and!; try done. intros Hg. apply Hn.
    intros g Hs1. apply Hg. destruct E; congruence.
Qed.

Lemma do_compile_compiles D p e s fv r s' : definition_of p ∈ D -> exts_ok D e -> do_compile p e s fv = (r, s') -> compiles D p s fv r s'.
Proof.
  intros Hdef He Hc. destruct (do_compile_spec D p e s fv r s' Hdef He Hc) as [Hf Hr]. split; [done|].
  intros f e' Hok. destruct (Hr f e' Hok) as (? & ? & ? & ?). by split_and!.
Qed.

Lemma compile_from_table_compiles D p e s fv r s' : definition_of p ∈ D -> exts_ok D e -> entry_ok D p s ->
  compile_from_table p e s fv = (r, s') -> compiles D p s fv r s'.
Proof.
  intros Hdef He Hs Hc. unfold RoutineCache.compile_from_table in Hc.
  destruct (pltsql_HashTableLookup s) as [f s1] eqn:Hl. apply lookup_spec in Hl.
  destruct f as [f|]; [|apply (do_compile_compiles D) in Hc; [|done..]; eapply compiles_after, Hc; destruct Hl as [[??]|[??]]; auto].
  destruct Hl as [[Hf E1]|[? _]]; [|done].
  destruct (check_function p f s1) as [ok s2] eqn:Hck. apply check_function_spec in Hck as [E2 Hok].
  destruct ok.
  - injection Hc as <- <-. split; [left; congruence|]. intros f0 e' [= <- <-].
    unfold entry_ok in Hs. rewrite <- Hf in Hs. split_and!; [by apply Hs, Hok|done|].
    intros Hg. by destruct (Hg f (eq_sym Hf)), Hok.
  - apply (do_compile_compiles D) in Hc; [|done..]. eapply compiles_after, Hc.
    destruct (drop_function_entry true f s2) as [E|E]; rewrite E; [left; congruence|by right].
Qed.

Lemma pltsql_compile_compiles D p e s x fv r s' : definition_of p ∈ D -> exts_ok D e -> entry_ok D p s ->
  match x with Unlinked f => fn_ok D p f | _ => True end ->
  pltsql_compile p e s x fv = (r, s') ->
  entry_follows D p s s' /\ forall f e', r = Ok (f, e') -> sound D p f /\ exts_ok D e'.
Proof.
  intros Hdef He Hs Hx Hc.
  enough (Hweak : compiles D p s fv r s' \/ (entry_follows D p s s' /\ forall f e', r = Ok (f, e') -> sound D p f /\ exts_ok D e')).
  { destruct Hweak as [[Hf Hr]|]; [|done]. split; [done|]. intros f e' Hok. by destruct (Hr f e' Hok) as (? & ? & _). }
  unfold RoutineCache.pltsql_compile in Hc. destruct (match x with NoExtra => _ | _ => _ end) as [[linked f]|] eqn:Hx'.
  2: { left. by eapply compile_from_table_compiles. }
  assert (Hf : fn_ok D p f).
  { destruct x; [done| |by injection Hx' as _ <-]. unfold entry_ok in Hs.
    destruct (entry s); [by injection Hx' as _ <-|done]. }
  destruct (check_function p f s) as [ok s1] eqn:Hck. apply check_function_spec in Hck as [E1 Hok].
  destruct ok.
  - right. injection Hc as <- <-. split; [by left|]. intros f0 e' [= <- <-]. split; [by apply Hf, Hok|done].
  - left. assert (E2 : entry (drop_function linked f s1) = entry s \/ entry (drop_function linked f s1) = None)
      by (destruct (drop_function_entry linked f s1) as [E|E]; rewrite E; [left; congruence|by right]).
    destruct (_ =? _)%nat in Hc.
    + apply (do_compile_compiles D) in Hc; [|done..]. by eapply compiles_after.
    + apply (compile_from_table_compiles D) in Hc; [by eapply compiles_after|done|done|].
      unfold entry_ok in *. destruct E2 as [-> | ->]; done.
Qed.

(** Compiling leaves the settings alone. *)
Lemma fill_restore_mode f s :
  babelfish_dump_restore (fill f s).2 = babelfish_dump_restore s.
Proof.
  destruct f as [f|]; [|done]. cbn. unfold serialize_with_error_handling, validate_text, deserialize_with_error_handling.
  repeat case_match; simplify_eq; done.
Qed.

Lemma do_compile_restore_mode p e s fv :
  babelfish_dump_restore (do_compile p e s fv).2 = babelfish_dump_restore s.
Proof.
  unfold RoutineCache.do_compile.
  destruct (if fv then _ else _) as [r1 s1] eqn:H1.
  assert (E1 : babelfish_dump_restore s1 = babelfish_dump_restore s).
  { destruct fv; [by injection H1 as _ <-|].
    unfold pltsql_restore_antlr_parse_cache_result, deserialize_with_error_handling in H1.
    repeat case_match; simplify_eq; done. }
  destruct r1 as [[cached en]|]; [|done].
  assert (E2 : babelfish_dump_restore (count_restore cached en s1) = babelfish_dump_restore s)
    by (destruct cached, en; done).
  destruct (parse_or_cached _ _ _ _); [|done].
  destruct (if negb fv && _ then _ else _) as [r3 s3] eqn:H3.
  assert (E3 : babelfish_dump_restore s3 = babelfish_dump_restore s).
  { destruct (negb fv && _); [|by injection H3 as _ <-]. unfold pltsql_update_func_antlr_parse_cache in H3.
    destruct (XactReadOnly _); [by injection H3 as _ <-|]. destruct e as [e|]; [|by injection H3 as _ <-].
    destruct (is_antlr_parse_cache_enabled_for_routine _ _ _); [|by injection H3 as _ <-].
    destruct (fill _ _) as [r4 s4] eqn:H4. pose proof (f_equal (fun x => babelfish_dump_restore x.2) H4) as H5. cbv beta in H5.
    rewrite fill_restore_mode, E2 in H5. cbn in H5.
    destruct r4 as [[[t d] v]|]; by injection H3 as _ <-. }
  by destruct r3.
Qed.

Lemma compile_restore_mode p e s fv :
  babelfish_dump_restore (pltsql_compile p e s NoExtra fv).2 = babelfish_dump_restore s.
Proof.
  cbn. unfold RoutineCache.compile_from_table, pltsql_HashTableLookup, check_function, drop_function.
  repeat case_match; simplify_eq; rewrite ?do_compile_restore_mode; try done.
Qed.

(** CREATE and ALTER: the columns are those of the function in the table, or as they were in a
    session that restores a dump. *)
Lemma store_spec D p e s r s' : (forall f, entry s = Some f -> traced D (action f) (datums f)) ->
  babelfish_dump_restore s = false \/ exts_ok D e -> store p e s = (r, s') ->
  (entry s' = entry s \/ entry s' = None) /\ forall e', r = Ok e' -> exts_ok D e'.
Proof.
  intros Hs Hd Hst. unfold pltsql_store_func_default_positions in Hst.
  destruct (babelfish_dump_restore s).
  { injection Hst as <- <-. split; [by left|]. destruct Hd as [|Hd]; [done|]. by intros e' [= <-]. }
  destruct (if is_antlr_parse_cache_enabled_for_routine s p e then _ else _) as [f s1] eqn:Hl in Hst.
  assert (Hf : (entry s1 = entry s \/ entry s1 = None) /\ forall g, f = Some g -> traced D (action g) (datums g)).
  { destruct (is_antlr_parse_cache_enabled_for_routine s p e); [|injection Hl as <- <-; split; [by left|done]].
    apply lookup_spec in Hl as [[-> ->]|[-> ->]]; split; [by left|done|by right|done]. }
  destruct Hf as [E1 Hf]. destruct f as [f|].
  - destruct (fill (Some f) s1) as [r2 s2] eqn:H2.
    destruct (columns_fill_spec f D (match e with Some e => e | None => Build_bbf_function_ext None None None None end)
      s1 r2 s2 (Hf f eq_refl) H2) as [E2 H2'].
    destruct r2 as [[[t d] v]|]; injection Hst as <- <-; rewrite E2; (split; [done|]); [|done].
    intros e' [= <-]. by apply H2'.
  - cbn in Hst. injection Hst as <- <-. split; [done|]. by intros e' [= <-].
Qed.

(** For the validator the columns play no part. *)
Definition with_ext (e : option bbf_function_ext) (x : result failure (function * option bbf_function_ext) * session)
    : result failure (function * option bbf_function_ext) * session :=
  (match x.1 with Ok (f, _) => Ok (f, e) | Err err => Err err end, x.2).

Lemma do_compile_validator p e s : do_compile p e s true = with_ext e (do_compile p None s true).
Proof. unfold RoutineCache.do_compile. cbn. by destruct (antlr_parse (proname p) (prosrc p)). Qed.

Lemma validator_ext p e s :
  pltsql_compile p e s NoExtra true = with_ext e (pltsql_compile p None s NoExtra true).
Proof.
  cbn. unfold RoutineCache.compile_from_table. destruct (pltsql_HashTableLookup s) as [[f|] s1].
  - destruct (check_function p f s1) as [[] s2]; [done|]. apply do_compile_validator.
  - apply do_compile_validator.
Qed.

(** ALTER: with the validator and outside a restore the columns are those of the new
    definition; otherwise they come from any definition that the table or the columns had. *)
Lemma alter_spec D p cfb e s r s' :
  definition_of p ∈ D -> (forall f, entry s = Some f -> fn_version f <> row_version p) ->
  (cfb = true /\ babelfish_dump_restore s = false) \/
    (exts_ok D e /\ forall f, entry s = Some f -> traced D (action f) (datums f)) ->
  alter_routine p cfb e s = (r, s') ->
  entry_follows D p s s' /\ forall e', r = Ok e' -> exts_ok D e'.
Proof.
  intros Hdef Hnew Hcase Ha. unfold RoutineCache.alter_routine in Ha. destruct cfb.
  - rewrite validator_ext in Ha. pose proof (compile_restore_mode p None s true) as Hmode.
    destruct (pltsql_compile p None s NoExtra true) as [r1 s1] eqn:H1. unfold with_ext in Ha. cbn [fst snd] in *.
    assert (Hc : compiles D p s true r1 s1).
    { apply (compile_from_table_compiles D p None); [done|done| |exact H1]. unfold entry_ok, fn_ok.
      destruct (entry s) as [f|]; [|done]. intros E. by destruct (Hnew f eq_refl). }
    destruct Hc as [Hf Hr]. destruct r1 as [[f e1]|]; [|injection Ha as <- <-; by split].
    destruct (Hr f e1 eq_refl) as (Hsound & _ & Hn). destruct (Hn Hnew) as [E1 _].
    apply (store_spec D) in Ha as [E2 Ha].
    + split; [|done]. destruct E2 as [E2|E2]; [|right; by left]. right; right. exists f. split; [congruence|done].
    + rewrite E1. intros g [= <-]. by eapply sound_traced.
    + rewrite Hmode. destruct Hcase as [[_ ?]|[? _]]; [by left|by right].
  - destruct Hcase as [[? _]|[He Ht]]; [done|]. apply (store_spec D) in Ha as [E2 Ha]; [|done|by right].
    split; [|done]. destruct E2; [by left|right; by left].
Qed.

(** ** Every state that is reached *)

Abbreviation world := (world (S := S) (B := B)).

(** The definitions whose tree the columns may hold. *)
Definition origins (w : world) : list (bytes * bytes) :=
  if validated w then [definition_of (proc w)] else definitions w.

Definition known (D H : list (bytes * bytes)) (p : pg_proc) (next : Z) (f : function) : Prop :=
  fn_version f < next /\ traced H (action f) (datums f) /\ fn_ok D p f.

Abbreviation known_in w := (known (origins w) (definitions w) (proc w) (next_version w)).

Definition sessions_ok (Q : function -> Prop) (l : list session) : Prop :=
  Forall (fun s => forall f, entry s = Some f -> Q f) l.

Record winv (w : world) : Prop := {
  winv_version : row_version (proc w) < next_version w;
  winv_current : definition_of (proc w) ∈ definitions w;
  winv_ext : exts_ok (origins w) (ext w);
  winv_sessions : sessions_ok (known_in w) (sessions w);
  winv_remembered : Forall (known_in w) (remembered w)
}.

Lemma origins_current w : definition_of (proc w) ∈ definitions w -> definition_of (proc w) ∈ origins w.
Proof. unfold origins. destruct (validated w); [by left|done]. Qed.

Lemma origins_sub w : definition_of (proc w) ∈ definitions w -> origins w ⊆ definitions w.
Proof. unfold origins. destruct (validated w); [|done]. intros Hc d ->%list_elem_of_singleton. done. Qed.

(** A function made before the row [p']. *)
Lemma known_new D H p D' H' p' next f : row_version p' = next -> H ⊆ H' ->
  known D H p next f -> known D' H' p' (next + 1) f.
Proof. intros Hp Hsub (Hv & Ht & _). split_and!; [lia|by eapply traced_mono|]. intros E. lia. Qed.

Lemma known_more D H H' p next f : H ⊆ H' -> known D H p next f -> known D H' p (next + 1) f.
Proof. intros Hsub (Hv & Ht & Hf). split_and!; [lia|by eapply traced_mono|done]. Qed.

Lemma known_sound D H p next f : row_version p < next -> definition_of p ∈ D -> D ⊆ H -> sound D p f -> known D H p next f.
Proof.
  intros Hp Hd Hsub Hs. split_and!; [destruct Hs; lia|by eapply traced_mono, sound_traced|by intros _].
Qed.

Lemma sessions_mono (Q Q' : function -> Prop) l : (forall f, Q f -> Q' f) -> sessions_ok Q l -> sessions_ok Q' l.
Proof. intros Hk Hl. eapply Forall_impl; [exact Hl|]. cbn. auto. Qed.

Lemma sessions_insert Q l i s : sessions_ok Q l -> (forall f, entry s = Some f -> Q f) -> sessions_ok Q (<[i := s]> l).
Proof. intros Hl Hs. by apply Forall_insert. Qed.

Lemma session_known Q l i s f : sessions_ok Q l -> l !! i = Some s -> entry s = Some f -> Q f.
Proof. unfold sessions_ok. intros Hl Hi He. rewrite Forall_lookup in Hl. by eapply Hl. Qed.

Lemma follows_known (Q : function -> Prop) D p s s' : (forall f, sound D p f -> Q f) -> (forall f, entry s = Some f -> Q f) ->
  entry_follows D p s s' -> forall f, entry s' = Some f -> Q f.
Proof.
  intros Hq Hs [->|[->|(g & -> & Hg)]] f Hf; [by apply Hs|done|]. injection Hf as <-. by apply Hq.
Qed.

Lemma same_known D H p next f f' : same_function f f' -> known D H p next f -> known D H p next f'.
Proof.
  intros (Hv & Hc & Ha & Hd) (Hn & Ht & Hf). split_and!; [lia|by rewrite Ha, Hd|]. intros E. rewrite Hv in E.
  specialize (Hf E). unfold sound, parsed in *. by rewrite Hv, Hc, Ha, Hd.
Qed.

Lemma exec_known w i s x r s' : winv w -> sessions w !! i = Some s ->
  match x with Unlinked f => f ∈ remembered w | _ => True end ->
  pltsql_compile (proc w) (ext w) s x false = (r, s') ->
  (forall f, entry s' = Some f -> known_in w f) /\
  forall f e, r = Ok (f, e) -> sound (origins w) (proc w) f /\ known_in w f /\ exts_ok (origins w) e.
Proof.
  intros [Hv Hcur He Hs Hr] Hi Hx Hc.
  assert (Hes : entry_ok (origins w) (proc w) s).
  { unfold entry_ok. destruct (entry s) as [f|] eqn:E; [|done]. apply (session_known _ _ _ _ f Hs Hi E). }
  assert (Hxk : match x with Unlinked f => fn_ok (origins w) (proc w) f | _ => True end).
  { destruct x; try done. rewrite Forall_forall in Hr. by apply Hr. }
  destruct (pltsql_compile_compiles _ _ _ _ _ _ _ _ (origins_current w Hcur) He Hes Hxk Hc) as [Hf Hok].
  assert (Hq : forall f, sound (origins w) (proc w) f -> known_in w f)
    by (intros f; apply known_sound; [done|by apply origins_current|by apply origins_sub]).
  split; [eapply follows_known; [exact Hq| |exact Hf]; intros f E; exact (session_known _ _ _ _ f Hs Hi E)|].
  intros f e Hfe. destruct (Hok f e Hfe). auto.
Qed.

(** A successful ALTER. *)
Lemma alter_ok_winv w i s src cfb e s' : winv w -> sessions w !! i = Some s ->
  let p' := new_row (next_version w) (proname (proc w)) src (proc w) in
  alter_routine p' cfb (ext w) s = (Ok e, s') ->
  winv (redefine (in_session w i s') p' e (cfb && negb (babelfish_dump_restore s))).
Proof.
  intros [Hv Hcur He Hs Hr] Hi p' Ha. set (w' := redefine _ _ _ _).
  assert (Hcur' : definition_of (proc w') ∈ definitions w') by (by left).
  assert (Hnew : forall f, entry s = Some f -> fn_version f <> row_version p').
  { intros f E. destruct (session_known _ _ _ _ f Hs Hi E) as [Hlt _]. cbn. lia. }
  assert (Hsub : definitions w ⊆ definitions w') by (intros d Hd; by right).
  destruct (alter_spec (origins w') p' cfb (ext w) s (Ok e) s') as [Hf Hok]; [exact (origins_current w' Hcur')|done| |done|].
  { destruct (cfb && negb (babelfish_dump_restore s)) eqn:Hc.
    - left. by apply andb_true_iff in Hc as [? ?%negb_true_iff].
    - right. subst w'. unfold origins. cbn in *. rewrite ?Hc. split.
      + eapply exts_mono; [|exact He]. etrans; [by apply origins_sub|exact Hsub].
      + intros f E. destruct (session_known _ _ _ _ f Hs Hi E) as (_ & Ht & _). by eapply traced_mono. }
  assert (Hk : forall f, known_in w f -> known_in w' f) by (intros f; by apply known_new).
  split; [cbn; lia|done|by apply Hok| |by eapply Forall_impl].
  apply sessions_insert; [by eapply sessions_mono|]. eapply follows_known; [| |exact Hf].
  - intros f. apply known_sound; [cbn; lia|exact (origins_current w' Hcur')|exact (origins_sub w' Hcur')].
  - intros f E. apply Hk, (session_known _ _ _ _ f Hs Hi E).
Qed.

(** A failed ALTER may leave its function in the table. *)
Lemma alter_fails_winv w i s src cfb err s' : winv w -> sessions w !! i = Some s ->
  let p' := new_row (next_version w) (proname (proc w)) src (proc w) in
  alter_routine p' cfb (ext w) s = (Err err, s') -> winv (roll_back (in_session w i s') p').
Proof.
  intros [Hv Hcur He Hs Hr] Hi p' Ha. set (w' := roll_back _ _).
  assert (Hnew : forall f, entry s = Some f -> fn_version f <> row_version p').
  { intros f E. destruct (session_known _ _ _ _ f Hs Hi E) as [Hlt _]. cbn. lia. }
  assert (Hsub : definitions w ⊆ definitions w') by (intros d Hd; by right).
  destruct (alter_spec (definitions w') p' cfb (ext w) s (Err err) s') as [Hf _]; [by left|done| |done|].
  { right. split.
    - eapply exts_mono; [|exact He]. etrans; [by apply origins_sub|exact Hsub].
    - intros f E. destruct (session_known _ _ _ _ f Hs Hi E) as (_ & Ht & _). by eapply traced_mono. }
  assert (Horig : origins w ⊆ origins w').
  { unfold origins. cbn. destruct (validated w); [done|exact Hsub]. }
  assert (Hk : forall f, known_in w f -> known_in w' f).
  { intros f (H1 & H2 & H3). split_and!; [cbn; lia|by eapply traced_mono|]. intros E. destruct (H3 E) as [H4 H5].
    split; [done|]. destruct (from_cache f); [|done]. destruct H5 as (t & l & (name & src0 & Hin & Hp) & ?).
    exists t, l. split; [|done]. exists name, src0. auto. }
  split; [cbn; lia|by right|by eapply exts_mono| |by eapply Forall_impl].
  apply sessions_insert; [by eapply sessions_mono|]. eapply follows_known; [| |exact Hf].
  - intros f Hsf. split_and!; [destruct Hsf as [E _]; cbn in *; lia|eapply sound_traced; [by left|done]|].
    intros E. destruct Hsf as [E' _]. cbn in *. lia.
  - intros f E. apply Hk, (session_known _ _ _ _ f Hs Hi E).
Qed.

Lemma step_winv w w' : winv w -> step w w' -> winv w'.
Proof.
  intros Hw Hstep. pose proof Hw as [Hv Hcur He Hs Hr].
  destruct Hstep as [i s x f e s' Hi Hx Hc|i s x err s' Hi Hx Hc|i s src cfb e s' Hi p' Ha|i s src cfb err s' Hi p' Ha
    |name|i s e flag e' s' Hi Hext Hen|e t d v Hext Hver|i s s' Hi Hsame|s Hnone].
  - destruct (exec_known w i s x _ s' Hw Hi Hx Hc) as [Hk Hok]. destruct (Hok f e eq_refl) as (_ & Hsf & Hse).
    split; try done; [by apply sessions_insert|]. by constructor.
  - destruct (exec_known w i s x _ s' Hw Hi Hx Hc) as [Hk _]. split; try done. by apply sessions_insert.
  - by apply alter_ok_winv.
  - by eapply alter_fails_winv.
  - assert (Hk : forall D f, known_in w f ->
      known D (definition_of (new_row (next_version w) name (prosrc (proc w)) (proc w)) :: definitions w)
        (new_row (next_version w) name (prosrc (proc w)) (proc w)) (next_version w + 1) f)
      by (intros D f; apply known_new; [done|intros d Hd; by right]).
    split; [cbn; lia|by left|by destruct (ext w)|eapply sessions_mono, Hs; apply Hk|eapply Forall_impl, Hk; done].
  - assert (E : entry s' = entry s /\ ext_ok (origins w) e').
    { rewrite Hext in He. destruct flag as [[]|]; injection Hen as <- <-; by split. }
    destruct E as [E Hok]. split; try done. apply sessions_insert; [done|]. intros f. rewrite E. apply (session_known _ _ _ _ f Hs Hi).
  - split; try done. intros ?. by destruct Hver.
  - split; try done. apply sessions_insert; [done|]. intros f' E. rewrite E in Hsame.
    destruct Hsame as (f & Es & Hsame). eapply same_known; [exact Hsame|]. apply (session_known _ _ _ _ f Hs Hi Es).
  - split; try done. apply Forall_app. split; [done|]. constructor; [|done]. intros f E. congruence.
Qed.

Lemma reachable_winv w w' : winv w -> rtc step w w' -> winv w'.
Proof. intros Hw Hr. revert Hw. induction Hr as [|w1 w2 w3 Hs Hr IH]; [done|]. intros Hw. by eapply IH, step_winv. Qed.
End proofs.
