(* ===== verification/RoutineCacheTheorems.v ===== *)
(** * RoutineCacheTheorems: the parse cache of routines, with its text form and validation

    The text form of [NodeIO] and the comparison of [NodeEqual] are put into the cache of
    [RoutineCache].  Module [SampleRoutine] evaluates it with a small parser. *)
From Stdlib Require Import String.
From stdpp Require Import base numbers list relations.
From S2P Require Import Prelude NodeIO NodeIOProofs NodeIONodes NodeIOShape NodeIOTheorems.
From S2P Require Import NodeEqual RoutineCache RoutineCacheProofs.

Section theorems.
Context `{PgTokensLaws} {S B : Type}.
Variable outNode : S -> bytes.
Variable parseNodeString : bytes -> result failure (S * bytes).
Variable nodeRead : bytes -> nat -> bytes -> result failure (S * bytes).
Variable outBitmapset : B -> bytes.
Variable readBitmapset : bytes -> result failure (B * bytes).
Variable readIntCols : nat -> bytes -> result failure (option (list Z) * bytes).
Variable bms_add_members : list Z -> result failure (node S B).
Variable generated : schema.
Variable server_ok : S -> Prop.
Variable bms_ok : B -> Prop.
Variable equal : S -> S -> bool.
Variable bms_equal : B -> B -> bool.
Variable generated_compared : bytes -> option (list bool).
Variable antlr_parse : bytes -> bytes -> result failure (node S B * list (node S B)).

Abbreviation node := (node S B).
Abbreviation fields_of := (pltsql_schema generated).
Abbreviation compared := (pltsql_compared generated_compared).
Abbreviation to_string := (pltsql_nodeToString outNode outBitmapset fields_of : node -> _).
Abbreviation to_node :=
  (pltsql_stringToNode parseNodeString nodeRead readBitmapset readIntCols bms_add_members fields_of).
Abbreviation compare_trees := (pltsql_compare_parse_trees equal bms_equal compared).
Abbreviation compare_datums := (fun cached antlr => pltsql_compare_datum_arrays equal bms_equal compared cached antlr 0 0).
Abbreviation step := (step to_string to_node compare_trees compare_datums antlr_parse).
Abbreviation pltsql_compile := (pltsql_compile to_string to_node compare_trees compare_datums antlr_parse).
Abbreviation server_laws :=
  (ServerLaws outNode parseNodeString nodeRead outBitmapset readBitmapset readIntCols fields_of server_ok bms_ok).

(** The parser makes trees of the announced shape. *)
Definition parser_ok : Prop := forall name src tree ds, antlr_parse name src = Ok (tree, ds) ->
  conforms fields_of clean server_ok bms_ok tree /\ Forall (conforms fields_of clean server_ok bms_ok) ds.

(** Before the routine has been compiled, or its columns filled. *)
Definition initial (w : world (S := S) (B := B)) : Prop :=
  row_version (proc w) < next_version w /\ Forall (fun s => entry s = None) (sessions w) /\ remembered w = [] /\
  match ext w with Some e => antlr_parse_cache_tree e = None | None => True end /\
  definitions w = [definition_of (proc w)].

Lemma initial_winv w : initial w -> winv to_string antlr_parse w.
Proof.
  intros (Hv & Hs & Hr & He & Hd). split; [done|rewrite Hd; by left| | |by rewrite Hr].
  - unfold exts_ok, ext_ok. destruct (ext w); [|done]. by rewrite He.
  - eapply Forall_impl; [exact Hs|]. cbn. intros s E f. congruence.
Qed.

Lemma present_conforms ds : Forall (conforms fields_of clean server_ok bms_ok) ds -> present ds <> [] ->
  conforms fields_of clean server_ok bms_ok (NList (present ds)).
Proof.
  intros Hds Hne. split; [done|]. apply elements_ok_forall. unfold present. rewrite Forall_forall in *.
  intros n Hn. apply list_elem_of_filter in Hn as [_ Hn]. by apply Hds.
Qed.

(** A tree that came back has the shape its types announce. *)
Lemma fields_reread_ok fs : forall before (vs : list (value node B)),
  Forall (value_all (fun n => conforms fields_of clean server_ok bms_ok n -> conforms fields_of clean server_ok bms_ok (reread n))) vs ->
  fields_ok clean bms_ok (conforms fields_of clean server_ok bms_ok) fs before vs ->
  fields_ok clean bms_ok (conforms fields_of clean server_ok bms_ok) fs (map (reread_value reread) before) (map (reread_value reread) vs).
Proof.
  induction fs as [|[name k] fs IH]; intros before [|v vs] Hall Hok; try done. cbn [map fields_ok] in *.
  destruct Hok as [Hv Hvs]. apply Forall_cons in Hall as [Hn Hall]. split.
  - destruct k, v as [z|b|str|n|b|[l|]|l]; try done; cbn in Hv |- *; rewrite ?size_in_reread; auto.
    + by destruct str as [[|c str]|]; [repeat constructor|..].
    + destruct str as [[|c str]|]; [|done..]. split; [by repeat constructor|]. unfold max_name. cbn. lia.
    + destruct Hv as [Hl Hv]. rewrite length_map. split; [done|]. apply Forall_map. eapply Forall_impl; [exact Hv|].
      by intros [[|c str]|]; [repeat constructor|..].
  - specialize (IH _ _ Hall Hvs). by rewrite map_app in IH.
Qed.

Lemma reread_conforms n : conforms fields_of clean server_ok bms_ok n -> conforms fields_of clean server_ok bms_ok (reread n).
Proof.
  induction n as [|l IH|l|l|l|label vs IH|x] using node_induction; intros Hc; try done; cbn [reread conforms] in *.
  - destruct Hc as [Hne Hc]. split; [by destruct l|]. apply elements_ok_forall in Hc. apply elements_ok_forall.
    apply Forall_map. rewrite Forall_forall in *. auto.
  - destruct (fields_of label) as [fs|]; [|done]. exact (fields_reread_ok fs [] vs IH Hc).
Qed.

Lemma parser_present : parser_ok -> forall name src tree ds, antlr_parse name src = Ok (tree, ds) ->
  conforms fields_of clean server_ok bms_ok tree /\
  (present ds <> [] -> conforms fields_of clean server_ok bms_ok (NList (present ds))).
Proof.
  intros Hparse name src tree ds Hp. destruct (Hparse name src tree ds Hp) as [Ht Hds]. split; [done|].
  by apply present_conforms.
Qed.

Lemma text_reread : server_laws -> forall n t, conforms fields_of clean server_ok bms_ok n ->
  to_string n = Ok t -> to_node t = Ok (reread n).
Proof.
  intros Hlaws n t Hn Ht.
  destruct (written_and_read outNode parseNodeString nodeRead outBitmapset readBitmapset readIntCols bms_add_members
    generated server_ok bms_ok n Hlaws Hn) as (t' & Ht' & Hback).
  assert (t' = t) as -> by congruence. exact Hback.
Qed.


(** The validation of a tree whose strings are not empty passes: the comparison of the tree
    with what its text brings back succeeds. *)
Theorem restored_tree_validates n :
  server_laws -> EqualLaws equal bms_equal compared fields_of server_ok ->
  conforms fields_of storable server_ok bms_ok n -> n <> Null ->
  exists t m, to_string n = Ok t /\ to_node t = Ok m /\ compare_trees n m = Ok true.
Proof.
  intros Hlaws Heq Hn Hnull.
  assert (Hc : conforms fields_of clean server_ok bms_ok n)
    by (eapply storable_any; [|exact Hn]; by intros [s|]; [intros [_ ?]|]).
  destruct (written_and_read outNode parseNodeString nodeRead outBitmapset readBitmapset readIntCols bms_add_members
    generated server_ok bms_ok n Hlaws Hc) as (t & Ht & Hback).
  rewrite (reread_id _ _ _ n Hn) in Hback. exists t, n. split_and!; try done.
  unfold pltsql_compare_parse_trees. rewrite (equal_refl _ _ _ _ _ _ _ Heq n Hn). by destruct n.
Qed.

(** A PASS of the walk over the datums means what it says: every cached datum has an equal
    one in the new array, in the same order, and the others are counted as extra.  A new
    array that starts with equal datums passes, whatever follows. *)
Theorem datum_walk_pass cached antlr :
  (forall extra_antlr, compare_datums cached antlr = Ok (0%nat, extra_antlr) ->
     exists sub, sub `sublist_of` antlr /\ Forall2 (same_datum equal bms_equal compared) cached sub /\
       (extra_antlr + length cached = length antlr)%nat) /\
  (forall prefix dups, antlr = prefix ++ dups -> Forall2 (same_datum equal bms_equal compared) cached prefix ->
     compare_datums cached antlr = Ok (0%nat, length dups)).
Proof.
  split.
  - intros extra Hw. apply datum_walk_spec in Hw as [_ Hw]. by apply Hw.
  - intros prefix dups -> Hf. exact (walk_same _ _ _ cached prefix dups 0 0 Hf).
Qed.

(** The switch of one routine does not reach a session that has its function: the check asks
    for the routine without its row of [babelfish_function_ext], so that only the setting
    of the session counts.  After [sys.enable_antlr_parse_cache(routine, false)] the function
    from the cache is still used. *)
Theorem kill_switch_not_seen p e (s s0 : session node) f :
  entry s = Some f -> fn_version f = row_version p -> exec_codes_valid f = true -> from_cache f = true ->
  is_antlr_parse_cache_enabled_for_routine s p None = true -> enable_antlr_parse_cache s = true ->
  let e' := (update_bbf_function_antlr_parse_cache (Some false) e s0).1 in
  is_antlr_parse_cache_enabled_for_routine s p (Some e') = false /\
  pltsql_compile p (Some e') s NoExtra false = (Ok (f, Some e'), count_routine_hit s).
Proof.
  intros Hentry Hv Hx Hc Hen Hguc e'. split.
  - unfold is_antlr_parse_cache_enabled_for_routine. cbn. by repeat case_match.
  - cbn. unfold compile_from_table, pltsql_HashTableLookup. rewrite Hentry, Hguc, Hc. cbn [negb andb].
    unfold check_function. by rewrite Hv, Z.eqb_refl, Hx, Hc, Hen.
Qed.

(** A routine whose own switch is on loses its function at every lookup while the setting of
    the session is off: the entry is dropped and the routine compiled again. *)
Theorem forced_on_not_kept p e (s : session node) f :
  entry s = Some f -> from_cache f = true -> enable_antlr_parse_cache s = false ->
  pltsql_compile p e s NoExtra false =
  do_compile to_string to_node compare_trees compare_datums antlr_parse p e (set_entry None (count_routine_eviction s)) false.
Proof.
  intros Hentry Hc Hguc. cbn. unfold compile_from_table, pltsql_HashTableLookup. by rewrite Hentry, Hguc, Hc.
Qed.

(** Without the validator ALTER stores the wrong tree: the columns of the new definition are
    filled from the function in the table, which was made from the old one. *)
Theorem unvalidated_alter_stores_old_tree p' e (s : session node) f t :
  entry s = Some f -> from_cache f = false -> action f <> Null -> datums f = [] ->
  to_string (action f) = Ok t -> validate_antlr_parse_cache s = false -> babelfish_dump_restore s = false ->
  is_antlr_parse_cache_enabled_for_routine s p' (Some e) = true ->
  alter_routine to_string to_node compare_trees compare_datums antlr_parse p' false (Some e) s =
  (Ok (Some (with_columns (Some t) None (Some BABELFISH_VERSION_STR) e)), count_routine_write s).
Proof.
  intros Hentry Hc Hnull Hds Ht Hval Hd Hen. unfold alter_routine, pltsql_store_func_default_positions.
  rewrite Hd, Hen. unfold pltsql_HashTableLookup. rewrite Hentry, Hc, andb_false_r. cbn.
  assert (Hn : null_node (action f) = false) by (by destruct (action f)). rewrite Hn.
  unfold serialize_with_error_handling. rewrite Ht, Hds. cbn. unfold validate_text. by rewrite Hval.
Qed.
End theorems.

(** ** A small parser *)
Module SampleRoutine.
Import SampleServer.

Definition compared_sample (label : bytes) : option (list bool) :=
  if bool_decide (label = b# "PLTSQL_STMT_PRINT") then Some [true; true] else None.

Definition bms_eq (_ _ : unit) : bool := true.

Definition variable : node := Tagged (b# "PLTSQL_RECFIELD") [VNum 3; VNum 0; VStr (Some (b# "x")); VNum 1; VNum (-1)].
Definition tree (lines : Z) : node := Tagged (b# "PLTSQL_STMT_PRINT") [VNum lines; VNode Null].

Definition parser (name src : bytes) : result failure (node * list node) :=
  match src with [] => Err Elog | _ => Ok (tree (Z.of_nat (length src) mod 1000), [variable]) end.

Abbreviation text := (pltsql_nodeToString decimal out_bms (pltsql_schema generated) : node -> result failure bytes).
Abbreviation untext :=
  (pltsql_stringToNode parse read_server read_bms read_cols add_members (pltsql_schema generated)).
Abbreviation trees := (pltsql_compare_parse_trees Z.eqb bms_eq (pltsql_compared compared_sample)).
Abbreviation arrays :=
  (fun cached antlr => pltsql_compare_datum_arrays Z.eqb bms_eq (pltsql_compared compared_sample) cached antlr 0 0).
Abbreviation compile := (RoutineCache.pltsql_compile text untext trees arrays parser).

Lemma equal_laws : EqualLaws Z.eqb bms_eq (pltsql_compared compared_sample) (pltsql_schema generated) server_ok.
Proof.
  split; [intros s _; apply Z.eqb_refl|done|]. intros label fs. unfold pltsql_schema, pltsql_compared.
  cbn [assoc custom_nodes custom_compared].
  repeat (destruct (bool_decide _); [intros [= <-]; eexists; split; [reflexivity|repeat constructor; done]|]).
  unfold generated, compared_sample. destruct (bool_decide _); [|done]. intros [= <-].
  eexists; split; [reflexivity|repeat constructor; done].
Qed.

Lemma parser_shape : parser_ok generated server_ok (fun _ => True) parser.
Proof.
  intros name [|c src]; [done|]. intros t ds [= <- <-].
  assert (Hr : in_i32 (Z.of_nat (length (c :: src)) mod 1000) = true).
  { apply in_i32_iff. pose proof (Z.mod_pos_bound (Z.of_nat (length (c :: src))) 1000). lia. }
  split; [|repeat constructor]; cbn; repeat split; try done.
Qed.

Definition start : session node :=
  {| tds_tsql := true; babelfish_dump_restore := false; enable_antlr_parse_cache := true;
     validate_antlr_parse_cache := false; XactReadOnly := false; entry := None;
     stat_hits := 0; stat_misses := 0; stat_writes := 0; stat_evictions := 0; stat_errors := 0 |}.

Definition routine : pg_proc :=
  {| row_version := 10; proname := b# "p"; prosrc := b# "PRINT 1"; returns_trigger := false;
     is_function := false; proretset := false; returns_composite := false |}.

Definition no_columns : bbf_function_ext :=
  {| antlr_parse_cache_tree := None; antlr_parse_cache_datums := None; antlr_parse_cache_bbf_version := None;
     antlr_parse_cache_enabled := None |}.

Definition before : world (S := Z) (B := unit) :=
  {| proc := routine; ext := Some no_columns; next_version := 11; sessions := [start; start]; remembered := [];
     definitions := [definition_of routine]; validated := true |}.

(** The first session parses and fills the columns. *)
Definition compiled : result failure (function node * option bbf_function_ext) * session node :=
  Eval vm_compute in compile routine (Some no_columns) start NoExtra false.

Definition after : world (S := Z) (B := unit) :=
  match compiled with
  | (Ok (f, e), s) => remember (catalog (in_session before 0 s) e) f
  | (Err _, s) => in_session before 0 s
  end.

Lemma first_step : step text untext trees arrays parser before after.
Proof.
  exact (exec_ok text untext trees arrays parser before 0 start NoExtra _ _ _ eq_refl I
    (eq_refl : _ = compiled)).
Qed.


(** The first session alters the routine with [check_function_bodies] off. *)
Definition shorter : pg_proc := new_row 11 (b# "p") (b# "PRINT") routine.
Definition altered : world (S := Z) (B := unit) :=
  match sessions after with
  | s :: _ =>
      match alter_routine text untext trees arrays parser shorter false (ext after) s with
      | (Ok e, s') => redefine (in_session after 0 s') shorter e false
      | (Err _, s') => roll_back (in_session after 0 s') shorter
      end
  | [] => after
  end.

(** Without the validator the exception is real: the second session runs the tree of the old
    definition under the version of the new row. *)
Theorem unvalidated_alter_runs_old_tree :
  rtc (step text untext trees arrays parser) before altered /\ prosrc (proc altered) = b# "PRINT" /\
  exists f e s', compile (proc altered) (ext altered) start NoExtra false = (Ok (f, e), s') /\
    fn_version f = row_version (proc altered) /\
    parser (b# "p") (b# "PRINT 1") = Ok (action f, datums f) /\
    parser (b# "p") (b# "PRINT") <> Ok (action f, datums f).
Proof.
  split; [|split; [reflexivity|]].
  - eapply rtc_l; [exact first_step|]. apply rtc_once.
    exact (alter_ok text untext trees arrays parser after 0 _ (b# "PRINT") false _ _ eq_refl eq_refl).
  - eexists _, _, _. split; [vm_compute; reflexivity|]. split; [reflexivity|]. split; [reflexivity|]. discriminate.
Qed.

Lemma restored_tree_validates_witness : exists t m,
  text (tree 7) = Ok t /\ untext t = Ok m /\ trees (tree 7) m = Ok true.
Proof.
  apply (restored_tree_validates decimal parse read_server out_bms read_bms read_cols add_members generated
    server_ok (fun _ => True) Z.eqb bms_eq compared_sample (tree 7) server_laws equal_laws).
  - cbn. repeat split.
  - discriminate.
Defined.

Definition loaded : function node :=
  {| fn_version := 10; exec_codes_valid := true; from_cache := true; action := tree 7; datums := []; use_count := 0 |}.

Lemma kill_switch_not_seen_witness :
  let e' := (update_bbf_function_antlr_parse_cache (Some false) no_columns start).1 in
  let s := set_entry (Some loaded) start in
  is_antlr_parse_cache_enabled_for_routine s routine (Some e') = false /\
  compile routine (Some e') s NoExtra false = (Ok (loaded, Some e'), count_routine_hit s).
Proof.
  apply (kill_switch_not_seen decimal parse read_server out_bms read_bms read_cols add_members generated
    Z.eqb bms_eq compared_sample parser routine no_columns (set_entry (Some loaded) start) start loaded); reflexivity.
Defined.

Lemma forced_on_not_kept_witness :
  let s := {| tds_tsql := true; babelfish_dump_restore := false; enable_antlr_parse_cache := false;
     validate_antlr_parse_cache := false; XactReadOnly := false; entry := Some loaded;
     stat_hits := 0; stat_misses := 0; stat_writes := 0; stat_evictions := 0; stat_errors := 0 |} in
  compile routine (Some (with_enabled (Some true) no_columns)) s NoExtra false =
  do_compile text untext trees arrays parser routine (Some (with_enabled (Some true) no_columns))
    (set_entry None (count_routine_eviction s)) false.
Proof.
  intros s. apply (forced_on_not_kept decimal parse read_server out_bms read_bms read_cols add_members generated
    Z.eqb bms_eq compared_sample parser routine _ s loaded); reflexivity.
Defined.

(** The old definition has seven characters, the new one five; the columns tell seven. *)
Definition old_function : function node :=
  {| fn_version := 10; exec_codes_valid := true; from_cache := false; action := tree 7; datums := []; use_count := 0 |}.

Lemma unvalidated_alter_stores_old_tree_witness :
  exists t, text (tree 7) = Ok t /\
  alter_routine text untext trees arrays parser (new_row 11 (b# "p") (b# "PRINT") routine) false
    (Some no_columns) (set_entry (Some old_function) start) =
  (Ok (Some (with_columns (Some t) None (Some BABELFISH_VERSION_STR) no_columns)),
   count_routine_write (set_entry (Some old_function) start)).
Proof.
  eexists. split; [vm_compute; reflexivity|].
  apply (unvalidated_alter_stores_old_tree decimal parse read_server out_bms read_bms read_cols add_members generated
    Z.eqb bms_eq compared_sample parser (new_row 11 (b# "p") (b# "PRINT") routine) no_columns
    (set_entry (Some old_function) start) old_function);
    try reflexivity. discriminate.
Defined.
End SampleRoutine.
