(* ===== verification/BatchText.v ===== *)
(** * BatchText: the text form of trees is what the batch cache relies on

    [ParseCacheTheorems] assumes of the serializer that it reads the trees of the parser as
    what the text form brings back of them.  The node serializer of [NodeIO], called as
    [antlr_batch_parse_cache_write] and [antlr_batch_parse_cache_restore_tree] call it, does. *)
From stdpp Require Import base numbers list.
From S2P Require Import Prelude NodeIO NodeIOProofs NodeIONodes NodeIOTheorems.
From S2P Require Import ParseCacheParse.

Section text.
Context `{PgTokensLaws} {S B : Type}.
Variable outNode : S -> bytes.
Variable parseNodeString : bytes -> result failure (S * bytes).
Variable nodeRead : bytes -> nat -> bytes -> result failure (S * bytes).
Variable outBitmapset : B -> bytes.
Variable readBitmapset : bytes -> result failure (B * bytes).
Variable readIntCols : nat -> bytes -> result failure (option (list Z) * bytes).
Variable bms_add_members : list Z -> result failure (node S B).
Variable generated : schema.
Variable server_ok : S -> Prop.
Variable bms_ok : B -> Prop.

(** [pltsql_nodeToString] and [pltsql_stringToNode] within the cache's PG_TRY blocks. *)
Definition tree_to_string (t : option (node S B)) : result raised bytes :=
  match pltsql_nodeToString outNode outBitmapset (pltsql_schema generated) (default Null t) with
  | Ok s => Ok s
  | Err _ => Err Raised
  end.

Definition string_to_tree (s : bytes) : result raised (option (node S B)) :=
  match pltsql_stringToNode parseNodeString nodeRead readBitmapset readIntCols bms_add_members
          (pltsql_schema generated) s with
  | Ok Null => Ok None
  | Ok n => Ok (Some n)
  | Err _ => Err Raised
  end.

Lemma reread_not_null (n : node S B) : n <> Null -> reread n <> Null.
Proof. by destruct n. Qed.

(** The hypothesis [tree_read] of the transparency of the batch cache. *)
Lemma batch_tree_read (n : node S B) (s : bytes) :
  ServerLaws outNode parseNodeString nodeRead outBitmapset readBitmapset readIntCols (pltsql_schema generated)
    server_ok bms_ok ->
  conforms (pltsql_schema generated) clean server_ok bms_ok n -> n <> Null ->
  tree_to_string (Some n) = Ok s -> string_to_tree s = Ok (Some (reread n)).
Proof.
  intros Hlaws Hn Hnull Hs. unfold tree_to_string in Hs. change (default Null (Some n)) with n in Hs.
  destruct (written_and_read outNode parseNodeString nodeRead outBitmapset readBitmapset readIntCols bms_add_members
    generated server_ok bms_ok n Hlaws Hn) as (t & Ht & Hback).
  rewrite Ht in Hs. injection Hs as <-.
  unfold string_to_tree. rewrite Hback. pose proof (reread_not_null n Hnull). by destruct (reread n).
Qed.
End text.
