(* ===== verification/BitFacts.v ===== *)
(** * BitFacts: bit operations of the C code as arithmetic

    Masks, shifts and disjoint unions of bit fields are quotients, remainders and
    sums; facts about single bytes are checked for all 256 of them. *)
From stdpp Require Import base list numbers.
From S2P Require Import Prelude.

Create Rewrite HintDb bits.

Ltac div_lia := Z.div_mod_to_equations; lia.

(** A boolean comparison of the goal. *)
Ltac bool_lia :=
  unfold is_byte in *;
  solve [ div_lia | apply Z.eqb_neq; div_lia | apply Z.eqb_eq; div_lia | apply Z.ltb_ge; div_lia
        | apply Z.ltb_lt; div_lia | apply Z.leb_gt; div_lia | apply Z.leb_le; div_lia
        | rewrite Z.gtb_ltb; apply Z.ltb_ge; div_lia | rewrite Z.gtb_ltb; apply Z.ltb_lt; div_lia
        | rewrite Z.geb_leb; apply Z.leb_gt; div_lia | rewrite Z.geb_leb; apply Z.leb_le; div_lia ].

(** Decides the conditions of the goal by arithmetic, outermost first. *)
Ltac if_lia :=
  repeat match goal with
  | |- context [if ?b then _ else _] =>
      let H := fresh in
      first [assert (b = true) as H by bool_lia
            |assert (b = false) as H by bool_lia];
      rewrite H; clear H; cbn match
  end.

Lemma land_ones_mod z n m : 0 <= n -> m = Z.ones n -> Z.land z m = z mod 2 ^ n.
Proof. intros Hn ->. by apply Z.land_ones. Qed.

Lemma land_0xFF z : Z.land z 0xFF = z mod 256.
Proof. by apply (land_ones_mod z 8). Qed.
Lemma land_0x3F z : Z.land z 0x3F = z mod 64.
Proof. by apply (land_ones_mod z 6). Qed.
Lemma land_0x1F z : Z.land z 0x1F = z mod 32.
Proof. by apply (land_ones_mod z 5). Qed.
Lemma land_0x0F z : Z.land z 0x0F = z mod 16.
Proof. by apply (land_ones_mod z 4). Qed.
Lemma land_0x07 z : Z.land z 0x07 = z mod 8.
Proof. by apply (land_ones_mod z 3). Qed.
Lemma land_0x03FF z : Z.land z 0x03FF = z mod 1024.
Proof. by apply (land_ones_mod z 10). Qed.
Lemma land_0x01 z : Z.land z 0x01 = z mod 2.
Proof. by apply (land_ones_mod z 1). Qed.
#[export] Hint Rewrite land_0xFF land_0x3F land_0x1F land_0x0F land_0x07 land_0x03FF land_0x01 : bits.

(** Two fields that do not overlap. *)
Lemma lor_low a b n : 0 <= n -> 0 <= b < 2 ^ n -> a mod 2 ^ n = 0 -> Z.lor a b = a + b.
Proof.
  intros Hn Hb Ha.
  rewrite <- Z.lxor_lor, Z.add_nocarry_lxor; [done|..];
    apply Z.bits_inj'; intros i Hi; rewrite Z.land_spec, Z.bits_0.
  all: destruct (decide (i < n)).
  all: try (rewrite <- (Z.mod_pow2_bits_low a n i), Ha, Z.bits_0 by lia; done).
  all: rewrite <- (Z.mod_small b (2 ^ n)) by lia; rewrite Z.mod_pow2_bits_high by lia; apply andb_false_r.
Qed.

Lemma shiftl_mul z n : 0 <= n -> Z.shiftl z n = z * 2 ^ n.
Proof. apply Z.shiftl_mul_pow2. Qed.
Lemma shiftr_div z n : 0 <= n -> Z.shiftr z n = z / 2 ^ n.
Proof. apply Z.shiftr_div_pow2. Qed.

Lemma lor_field a b n : 0 <= n -> 0 <= b < 2 ^ n -> Z.lor (Z.shiftl a n) b = a * 2 ^ n + b.
Proof.
  intros Hn Hb. rewrite shiftl_mul by done. apply (lor_low _ _ n); [done..|].
  apply Z.mod_mul. lia.
Qed.

(** A property of all bytes, by inspection. *)
Definition all_bytes : list Z := seqZ 0 256.

Lemma byte_ind (P : Z -> bool) : forallb P all_bytes = true -> forall b, is_byte b -> P b = true.
Proof.
  intros H b Hb. rewrite forallb_forall in H. apply H.
  apply list_elem_of_In, elem_of_seqZ. unfold is_byte in Hb. lia.
Qed.

Lemma high_0x80 b : is_byte b -> (Z.land b 0x80 =? 0) = (b <? 128).
Proof. intros Hb. apply Bool.eqb_prop. revert b Hb. apply byte_ind. vm_compute. reflexivity. Qed.
Lemma high_0xC0 b : is_byte b -> (Z.land b 0xC0 =? 0x80) = (128 <=? b) && (b <? 192).
Proof. intros Hb. apply Bool.eqb_prop. revert b Hb. apply byte_ind. vm_compute. reflexivity. Qed.
Lemma high_0xE0 b : is_byte b -> (Z.land b 0xE0 =? 0xC0) = (192 <=? b) && (b <? 224).
Proof. intros Hb. apply Bool.eqb_prop. revert b Hb. apply byte_ind. vm_compute. reflexivity. Qed.
Lemma high_0xF0 b : is_byte b -> (Z.land b 0xF0 =? 0xE0) = (224 <=? b) && (b <? 240).
Proof. intros Hb. apply Bool.eqb_prop. revert b Hb. apply byte_ind. vm_compute. reflexivity. Qed.
Lemma high_0xF8 b : is_byte b -> (Z.land b 0xF8 =? 0xF0) = (240 <=? b) && (b <? 248).
Proof. intros Hb. apply Bool.eqb_prop. revert b Hb. apply byte_ind. vm_compute. reflexivity. Qed.
