(* ===== verification/Utf.v ===== *)
(** * Utf: conversion between UTF-8 and UTF-16 ([babelfishpg_tds/src/backend/tds/tdsutils.c])

    Text travels as UTF-16 in TDS and is stored as UTF-8.  A pointer with a length is the
    list of the bytes that are left; a StringInfo is the list of its bytes. *)
From stdpp Require Import base list numbers.
From S2P Require Import Prelude BitFacts.

(** ** The code *)

Inductive utf_error :=
| truncated_utf8 (b : Z)
| invalid_utf8 (b : Z)
| invalid_utf8_code_point (code : Z)
| code_point_0_not_supported
| high_part_is (b0 b1 : Z)
| only_2_bytes (b0 b1 : Z)
| low_part_is (b2 b3 : Z)
| invalid_code_point (code : Z)
| odd_number_of_bytes
| no_fuel.

Definition EOF : Z := -1.

Definition byte_at (inp : bytes) (i : nat) : Z := nth i inp 0.

(** The check at the end of [GetUTF8CodePoint]. *)
Definition utf8_code_point (code consumed : Z) : result utf_error (Z * Z) :=
  if (code >? 0x10FFFF) || ((code >=? 0xD800) && (code <? 0xE000))
  then Err (invalid_utf8_code_point code) else Ok (code, consumed).

(** The code point and the bytes used; without bytes the latter stays as it was. *)
Definition GetUTF8CodePoint (inp : bytes) (consumed : Z) : result utf_error (Z * Z) :=
  let len := Z.of_nat (length inp) in
  let b i := byte_at inp i in
  if len =? 0 then Ok (EOF, consumed)
  else if Z.land (b 0%nat) 0x80 =? 0 then utf8_code_point (b 0%nat) 1
  else if Z.land (b 0%nat) 0xE0 =? 0xC0 then
    if len <? 2 then Err (truncated_utf8 (b 0%nat))
    else if negb (Z.land (b 1%nat) 0xC0 =? 0x80) then Err (invalid_utf8 (b 0%nat))
    else utf8_code_point (Z.lor (Z.shiftl (Z.land (b 0%nat) 0x1F) 6) (Z.land (b 1%nat) 0x3F)) 2
  else if Z.land (b 0%nat) 0xF0 =? 0xE0 then
    if len <? 3 then Err (truncated_utf8 (b 0%nat))
    else if negb (Z.land (b 1%nat) 0xC0 =? 0x80) || negb (Z.land (b 2%nat) 0xC0 =? 0x80)
    then Err (invalid_utf8 (b 0%nat))
    else utf8_code_point (Z.lor (Z.lor (Z.shiftl (Z.land (b 0%nat) 0x0F) 12)
                                       (Z.shiftl (Z.land (b 1%nat) 0x3F) 6)) (Z.land (b 2%nat) 0x3F)) 3
  else if Z.land (b 0%nat) 0xF8 =? 0xF0 then
    if len <? 4 then Err (truncated_utf8 (b 0%nat))
    else if negb (Z.land (b 1%nat) 0xC0 =? 0x80) || negb (Z.land (b 2%nat) 0xC0 =? 0x80) ||
            negb (Z.land (b 3%nat) 0xC0 =? 0x80)
    then Err (invalid_utf8 (b 0%nat))
    else utf8_code_point (Z.lor (Z.lor (Z.lor (Z.shiftl (Z.land (b 0%nat) 0x07) 18)
                                              (Z.shiftl (Z.land (b 1%nat) 0x3F) 12))
                                       (Z.shiftl (Z.land (b 2%nat) 0x3F) 6)) (Z.land (b 3%nat) 0x3F)) 4
  else Err (invalid_utf8 (b 0%nat)).

Definition GetUTF16CodePoint (inp : bytes) : result utf_error (Z * Z) :=
  let len := Z.of_nat (length inp) in
  let b i := byte_at inp i in
  let code1 := u16 (Z.lor (Z.shiftl (b 1%nat) 8) (b 0%nat)) in
  if (code1 <? 0xD800) || (code1 >=? 0xE000) then
    if code1 =? 0 then Err code_point_0_not_supported else Ok (code1, 2)
  else if code1 >=? 0xDC00 then Err (high_part_is (b 0%nat) (b 1%nat))
  else if len <? 4 then Err (only_2_bytes (b 0%nat) (b 1%nat))
  else
    let code2 := u16 (Z.lor (Z.shiftl (b 3%nat) 8) (b 2%nat)) in
    if (code2 <? 0xDC00) || (code2 >? 0xE000) then Err (low_part_is (b 2%nat) (b 3%nat))
    else Ok (Z.lor (Z.shiftl (Z.land code1 0x03FF) 10) (Z.land code2 0x03FF) + 0x10000, 4).

(** The check of [AddUTF8ToStringInfo], [AddUTF16ToStringInfo] and [TdsUTF8LengthInUTF16]. *)
Definition invalid_to_add (code : Z) : bool :=
  ((code >? 0xD800) && (code <? 0xE000)) || (code <? 0x0001) || (code >? 0x10FFFF).

Definition AddUTF8ToStringInfo (code : Z) (buf : bytes) : result utf_error bytes :=
  if invalid_to_add code then Err (invalid_code_point code)
  else if code <=? 0x7F then Ok (buf ++ [u8 code])
  else if code <=? 0x7FF then
    Ok (buf ++ [u8 (Z.lor 0xC0 (Z.shiftr code 6)); u8 (Z.lor 0x80 (Z.land code 0x3F))])
  else if code <=? 0xFFFF then
    Ok (buf ++ [u8 (Z.lor 0xE0 (Z.shiftr code 12)); u8 (Z.lor 0x80 (Z.land (Z.shiftr code 6) 0x3F));
                u8 (Z.lor 0x80 (Z.land code 0x3F))])
  else
    Ok (buf ++ [u8 (Z.lor 0xF0 (Z.shiftr code 18)); u8 (Z.lor 0x80 (Z.land (Z.shiftr code 12) 0x3F));
                u8 (Z.lor 0x80 (Z.land (Z.shiftr code 6) 0x3F)); u8 (Z.lor 0x80 (Z.land code 0x3F))]).

(** [temp16.half] is the value in memory, low byte first. *)
Definition AddUTF16ToStringInfo (code : Z) (buf : bytes) : result utf_error bytes :=
  if invalid_to_add code then Err (invalid_code_point code)
  else if code <=? 0xFFFF then
    Ok (buf ++ [u8 (Z.land code 0xFF); u8 (Z.land (Z.shiftr code 8) 0xFF)])
  else
    let high := u16 (0xD800 + Z.land (Z.shiftr (code - 0x010000) 10) 0x03FF) in
    let low := u16 (0xDC00 + Z.land (code - 0x010000) 0x03FF) in
    Ok (buf ++ le_bytes 2 high ++ le_bytes 2 low).

(** The loops advance by what was consumed; every round uses a byte. *)
Fixpoint utf16_to_utf8 (fuel : nat) (out inp : bytes) : result utf_error bytes :=
  match inp, fuel with
  | [], _ => Ok out
  | _, O => Err no_fuel
  | _, S fuel =>
      let! x := GetUTF16CodePoint inp in
      let! out := AddUTF8ToStringInfo x.1 out in
      utf16_to_utf8 fuel out (drop (Z.to_nat x.2) inp)
  end.

Definition TdsUTF16toUTF8StringInfo (out inp : bytes) : result utf_error bytes :=
  if negb (Z.land (Z.of_nat (length inp)) 0x0001 =? 0) then Err odd_number_of_bytes
  else utf16_to_utf8 (length inp) out inp.

Fixpoint utf8_to_utf16 (fuel : nat) (consumed : Z) (out inp : bytes) : result utf_error bytes :=
  match inp, fuel with
  | [], _ => Ok out
  | _, O => Err no_fuel
  | _, S fuel =>
      let! x := GetUTF8CodePoint inp consumed in
      let! out := AddUTF16ToStringInfo x.1 out in
      utf8_to_utf16 fuel x.2 out (drop (Z.to_nat x.2) inp)
  end.

Definition TdsUTF8toUTF16StringInfo (out inp : bytes) : result utf_error bytes :=
  utf8_to_utf16 (length inp) 0 out inp.

Fixpoint utf8_length (fuel : nat) (consumed : Z) (res : Z) (inp : bytes) : result utf_error Z :=
  match inp, fuel with
  | [], _ => Ok res
  | _, O => Err no_fuel
  | _, S fuel =>
      let! x := GetUTF8CodePoint inp consumed in
      if invalid_to_add x.1 then Err (invalid_code_point x.1)
      else utf8_length fuel x.2 (if x.1 <=? 0xFFFF then res + 1 else res + 2) (drop (Z.to_nat x.2) inp)
  end.

Definition TdsUTF8LengthInUTF16 (inp : bytes) : result utf_error Z := utf8_length (length inp) 0 0 inp.
