(* ===== verification/UtfTheorems.v ===== *)
(** * UtfTheorems: text is kept between client and server *)
From stdpp Require Import base list numbers.
From S2P Require Import Prelude BitFacts Utf.

(** ** The two encodings *)

Definition scalar (c : Z) : Prop := 0 < c < 0xD800 \/ 0xE000 <= c <= 0x10FFFF.

Definition utf8 (c : Z) : bytes :=
  if c <? 0x80 then [c]
  else if c <? 0x800 then [192 + c / 64; 128 + c mod 64]
  else if c <? 0x10000 then [224 + c / 4096; 128 + c / 64 mod 64; 128 + c mod 64]
  else [240 + c / 262144; 128 + c / 4096 mod 64; 128 + c / 64 mod 64; 128 + c mod 64].

Definition utf16 (c : Z) : bytes :=
  if c <? 0x10000 then le_bytes 2 c
  else le_bytes 2 (0xD800 + (c - 0x10000) / 1024) ++ le_bytes 2 (0xDC00 + (c - 0x10000) mod 1024).

Lemma u8_id z : is_byte z -> u8 z = z.
Proof. apply Z.mod_small. Qed.
Lemma scalar_to_add c : scalar c -> invalid_to_add c = false.
Proof. unfold scalar, invalid_to_add. lia. Qed.

Lemma AddUTF8_spec c buf : scalar c -> AddUTF8ToStringInfo c buf = Ok (buf ++ utf8 c).
Proof.
  intros Hc. unfold AddUTF8ToStringInfo, utf8. rewrite scalar_to_add by done. unfold scalar in Hc.
  autorewrite with bits. rewrite !shiftr_div by lia.
  change (2 ^ 6) with 64. change (2 ^ 12) with 4096. change (2 ^ 18) with 262144.
  assert (forall a b n, 0 <= n -> a mod 2 ^ n = 0 -> 0 <= b < 2 ^ n -> 0 <= a + b < 256 ->
    u8 (Z.lor a b) = a + b) as Hl.
  { intros a b n ????. rewrite (lor_low _ _ n), u8_id by done. done. }
  repeat case_match; try lia.
  - by rewrite u8_id by (unfold is_byte; lia).
  - rewrite (Hl _ _ 5), (Hl _ _ 6); [done|..]; cbn; try done; div_lia.
  - rewrite (Hl _ _ 4), !(Hl _ _ 6); [done|..]; cbn; try done; div_lia.
  - rewrite (Hl _ _ 3), !(Hl _ _ 6); [done|..]; cbn; try done; div_lia.
Qed.

Lemma AddUTF16_spec c buf : scalar c -> AddUTF16ToStringInfo c buf = Ok (buf ++ utf16 c).
Proof.
  intros Hc. unfold AddUTF16ToStringInfo, utf16. rewrite scalar_to_add by done. unfold scalar in Hc.
  autorewrite with bits. rewrite !shiftr_div by lia.
  change (2 ^ 8) with 256. change (2 ^ 10) with 1024.
  repeat case_match; try lia.
  - cbn [le_bytes]. by rewrite !u8_id by (unfold is_byte; div_lia).
  - rewrite !u16_id by div_lia.
    by rewrite (Z.mod_small ((c - 65536) / 1024)) by div_lia.
Qed.

Lemma utf8_bytes c : scalar c -> Forall is_byte (utf8 c).
Proof.
  unfold scalar, utf8, is_byte. intros Hc.
  repeat case_match; repeat constructor; div_lia.
Qed.

Lemma utf8_code_point_scalar c k : scalar c -> utf8_code_point c k = Ok (c, k).
Proof. unfold utf8_code_point, scalar. intros. by if_lia. Qed.

(** Masks of the bytes of an encoded character. *)
Lemma cont_byte z : (Z.land (128 + z mod 64) 0xC0 =? 0x80) = true.
Proof. rewrite high_0xC0; unfold is_byte; div_lia. Qed.

Ltac utf8_first :=
  rewrite ?high_0x80, ?high_0xE0, ?high_0xF0, ?high_0xF8 by (unfold is_byte; div_lia).

Lemma fields2 a b : 0 <= b < 64 -> Z.lor (Z.shiftl a 6) b = a * 64 + b.
Proof. intros. by apply (lor_field a b 6). Qed.
Lemma fields3 a b c : 0 <= b < 64 -> 0 <= c < 64 ->
  Z.lor (Z.lor (Z.shiftl a 12) (Z.shiftl b 6)) c = (a * 64 + b) * 64 + c.
Proof.
  intros. rewrite (lor_low _ c 6); [..|done|lia|].
  - rewrite (lor_field a (Z.shiftl b 6) 12), shiftl_mul by (rewrite ?shiftl_mul; lia). lia.
  - rewrite (lor_field a (Z.shiftl b 6) 12), shiftl_mul by (rewrite ?shiftl_mul; lia).
    change (2 ^ 6) with 64. change (2 ^ 12) with 4096. div_lia.
Qed.
Lemma fields4 a b c d : 0 <= b < 64 -> 0 <= c < 64 -> 0 <= d < 64 ->
  Z.lor (Z.lor (Z.lor (Z.shiftl a 18) (Z.shiftl b 12)) (Z.shiftl c 6)) d = ((a * 64 + b) * 64 + c) * 64 + d.
Proof.
  intros.
  assert (Z.lor (Z.lor (Z.shiftl a 18) (Z.shiftl b 12)) (Z.shiftl c 6) = ((a * 64 + b) * 64 + c) * 64) as ->.
  { rewrite (lor_low _ (Z.shiftl c 6) 12); rewrite ?(lor_field a (Z.shiftl b 12) 18), ?shiftl_mul by
      (rewrite ?shiftl_mul; lia); try lia.
    change (2 ^ 12) with 4096. change (2 ^ 18) with 262144. div_lia. }
  rewrite (lor_low _ d 6); try lia. change (2 ^ 6) with 64. div_lia.
Qed.

Lemma GetUTF8_spec c rest k : scalar c ->
  GetUTF8CodePoint (utf8 c ++ rest) k = Ok (c, Z.of_nat (length (utf8 c))).
Proof.
  intros Hc. rewrite <- (utf8_code_point_scalar c _ Hc). unfold utf8, scalar in *.
  destruct (c <? 0x80) eqn:?, (c <? 0x800) eqn:?, (c <? 0x10000) eqn:?; try lia;
    unfold GetUTF8CodePoint, byte_at.
  all: cbn -[utf8_code_point Z.of_nat Z.div Z.modulo Z.land Z.lor Z.shiftl Z.eqb Z.ltb].
  all: utf8_first; rewrite ?cont_byte; cbn [negb orb]; if_lia; f_equal; autorewrite with bits.
  - rewrite fields2; div_lia.
  - rewrite fields3; div_lia.
  - rewrite fields4; div_lia.
Qed.

(** ** UTF-16 *)

Lemma unit_of_bytes a b : is_byte a -> is_byte b -> u16 (Z.lor (Z.shiftl b 8) a) = a + 256 * b.
Proof.
  unfold is_byte. intros. rewrite (lor_field b a 8) by lia. rewrite u16_id; lia.
Qed.

Lemma unit_val z : 0 <= z < 65536 -> z mod 256 + 256 * (z / 256 mod 256) = z.
Proof. intros. div_lia. Qed.

Lemma surrogates h l : 0 <= l < 1024 -> Z.lor (Z.shiftl h 10) l = h * 1024 + l.
Proof. intros. by apply (lor_field h l 10). Qed.

Lemma GetUTF16_spec c rest : scalar c ->
  GetUTF16CodePoint (utf16 c ++ rest) = Ok (c, Z.of_nat (length (utf16 c))).
Proof.
  unfold scalar, utf16. intros Hc. destruct (c <? 0x10000) eqn:?.
  all: unfold GetUTF16CodePoint, byte_at.
  all: cbn -[Z.of_nat Z.div Z.modulo Z.land Z.lor Z.shiftl Z.eqb Z.ltb Z.geb Z.gtb u16 Z.sub Z.add].
  all: rewrite !unit_of_bytes by (unfold is_byte; div_lia).
  - rewrite unit_val by lia. by if_lia.
  - rewrite !unit_val by div_lia. if_lia. do 2 f_equal. autorewrite with bits. rewrite surrogates; div_lia.
Qed.

(** A unit 0xE000 after a high surrogate: the reader takes it for a low surrogate. *)
Fixpoint e000_after_high (bs : bytes) : bool :=
  match bs with
  | a :: b :: ((c :: d :: _) as rest) =>
      ((0xD8 <=? b) && (b <? 0xDC) && (c =? 0) && (d =? 0xE0)) || e000_after_high rest
  | _ => false
  end.

Lemma utf16_unit a b : is_byte a -> is_byte b -> scalar (a + 256 * b) -> utf16 (a + 256 * b) = [a; b].
Proof.
  unfold is_byte, scalar, utf16. intros ?? Hc. if_lia. cbn -[Z.div Z.modulo].
  f_equal; [div_lia|f_equal; div_lia].
Qed.

Lemma utf16_pair a b c d : is_byte a -> is_byte c -> 0xD8 <= b < 0xDC -> 0xDC <= d < 0xE0 ->
  let code := (a + 256 * b) mod 1024 * 1024 + (c + 256 * d) mod 1024 + 0x10000 in
  scalar code /\ utf16 code = [a; b; c; d].
Proof.
  unfold is_byte, scalar, utf16. intros ????. cbv zeta.
  assert ((a + 256 * b) mod 1024 = a + 256 * b - 0xD800) as E1 by div_lia.
  assert ((c + 256 * d) mod 1024 = c + 256 * d - 0xDC00) as E2 by div_lia.
  rewrite E1, E2. split; [lia|]. if_lia. cbn -[Z.div Z.modulo Z.sub Z.mul].
  f_equal; [|f_equal; [|f_equal; [|f_equal]]]; div_lia.
Qed.

Lemma e000_tail a b rest : e000_after_high (a :: b :: rest) = false -> e000_after_high rest = false.
Proof. destruct rest as [|c [|d rest]]; cbn; [done..|]. by intros [_ ?]%orb_false_iff. Qed.

(** What the reader accepts is what the encoder writes. *)
Lemma GetUTF16_inv bs c k : Forall is_byte bs -> (2 <= length bs)%nat -> e000_after_high bs = false ->
  GetUTF16CodePoint bs = Ok (c, k) -> 
  scalar c /\ exists rest, bs = utf16 c ++ rest /\ k = Z.of_nat (length (utf16 c)) /\ e000_after_high rest = false.
Proof.
  intros Hbs Hlen Hbad. destruct bs as [|a [|b bs]]; cbn in Hlen; try lia.
  apply Forall_cons_1 in Hbs as [Ha Hbs]. apply Forall_cons_1 in Hbs as [Hb Hbs].
  unfold GetUTF16CodePoint, byte_at. cbn [nth]. rewrite unit_of_bytes by done.
  case_match eqn:E1; [case_match eqn:E2; [done|]|]; [|case_match eqn:E2; [done|case_match eqn:E3; [done|]]].
  - intros [= <- <-]. unfold is_byte in *. assert (scalar (a + 256 * b)) by (unfold scalar; lia).
    rewrite utf16_unit by done. split; [done|]. exists bs. eauto using e000_tail.
  - apply Z.ltb_ge in E3. destruct bs as [|c' [|d bs]]; cbn [length] in *; try lia.
    apply Forall_cons_1 in Hbs as [Hc Hbs]. apply Forall_cons_1 in Hbs as [Hd _]. cbn [nth].
    rewrite unit_of_bytes by done. case_match eqn:E4; [done|]. intros [= <- <-].
    autorewrite with bits. rewrite surrogates by div_lia.
    pose proof (e000_tail _ _ _ (e000_tail _ _ _ Hbad)).
    cbn in Hbad. apply orb_false_iff in Hbad as [Hbad _]. unfold is_byte in *.
    destruct (utf16_pair a b c' d) as [Hs ->]; [unfold is_byte; lia..|lia|].
    split; [done|]. by exists bs.
Qed.

(** ** The conversions *)

Lemma utf8_length_pos c : scalar c -> (1 <= length (utf8 c) <= 4)%nat.
Proof. intros _. unfold utf8. repeat case_match; cbn; lia. Qed.
Lemma utf16_length c : length (utf16 c) = if c <=? 0xFFFF then 2%nat else 4%nat.
Proof. unfold utf16. repeat case_match; cbn; try done; lia. Qed.

Lemma unfold_utf16_loop fuel out inp : inp <> [] ->
  utf16_to_utf8 (S fuel) out inp =
  let! x := GetUTF16CodePoint inp in
  let! out := AddUTF8ToStringInfo x.1 out in utf16_to_utf8 fuel out (drop (Z.to_nat x.2) inp).
Proof. by destruct inp. Qed.
Lemma unfold_utf8_loop fuel k out inp : inp <> [] ->
  utf8_to_utf16 (S fuel) k out inp =
  let! x := GetUTF8CodePoint inp k in
  let! out := AddUTF16ToStringInfo x.1 out in utf8_to_utf16 fuel x.2 out (drop (Z.to_nat x.2) inp).
Proof. by destruct inp. Qed.
Lemma unfold_length_loop fuel k n inp : inp <> [] ->
  utf8_length (S fuel) k n inp =
  let! x := GetUTF8CodePoint inp k in
  if invalid_to_add x.1 then Err (invalid_code_point x.1)
  else utf8_length fuel x.2 (if x.1 <=? 0xFFFF then n + 1 else n + 2) (drop (Z.to_nat x.2) inp).
Proof. by destruct inp. Qed.

Lemma utf16_loop cs : forall fuel out, Forall scalar cs -> (length (cs ≫= utf16) <= fuel)%nat ->
  utf16_to_utf8 fuel out (cs ≫= utf16) = Ok (out ++ (cs ≫= utf8)).
Proof.
  induction cs as [|c cs IH]; intros fuel out Hcs Hf.
  { cbn. rewrite app_nil_r. by destruct fuel. }
  apply Forall_cons_1 in Hcs as [Hc Hcs]. rewrite !bind_cons in *. rewrite length_app, utf16_length in Hf.
  destruct fuel as [|fuel]; [case_match; lia|].
  rewrite unfold_utf16_loop by (pose proof (utf16_length c); destruct (utf16 c); [by case_match|done]).
  rewrite GetUTF16_spec by done. cbn [rbind fst snd]. rewrite AddUTF8_spec by done. cbn [rbind].
  rewrite Nat2Z.id, drop_app_length, IH; [by rewrite app_assoc|done|case_match; lia].
Qed.

Lemma utf8_loop cs : forall fuel k out, Forall scalar cs -> (length (cs ≫= utf8) <= fuel)%nat ->
  utf8_to_utf16 fuel k out (cs ≫= utf8) = Ok (out ++ (cs ≫= utf16)).
Proof.
  induction cs as [|c cs IH]; intros fuel k out Hcs Hf.
  { cbn. rewrite app_nil_r. by destruct fuel. }
  apply Forall_cons_1 in Hcs as [Hc Hcs]. rewrite !bind_cons in *. rewrite length_app in Hf.
  pose proof (utf8_length_pos c Hc). destruct fuel as [|fuel]; [lia|].
  rewrite unfold_utf8_loop by (intros [E _]%app_nil; by rewrite E in *; cbn in *; lia).
  rewrite GetUTF8_spec by done. cbn [rbind fst snd]. rewrite AddUTF16_spec by done. cbn [rbind].
  rewrite Nat2Z.id, drop_app_length, IH; [by rewrite app_assoc|done|lia].
Qed.

Lemma utf16_accepted bs : Forall is_byte bs -> forall fuel out s, e000_after_high bs = false ->
  Nat.Even (length bs) -> utf16_to_utf8 fuel out bs = Ok s ->
  exists cs, Forall scalar cs /\ bs = cs ≫= utf16 /\ s = out ++ (cs ≫= utf8).
Proof.
  intros Hbs fuel. revert bs Hbs. induction fuel as [|fuel IH]; intros bs Hbs out s Hbad Hev H.
  { destruct bs; [|done]. injection H as <-. exists []. cbn. by rewrite app_nil_r. }
  destruct (decide (bs = [])) as [->|Hne].
  { injection H as <-. exists []. cbn. by rewrite app_nil_r. }
  rewrite unfold_utf16_loop in H by done.
  apply rbind_ok in H as [[c k] [Hg H]]. apply rbind_ok in H as [out' [Ha H]]. cbn [fst snd] in *.
  assert (2 <= length bs)%nat as Hlen.
  { destruct bs as [|a [|b bs]]; cbn in *; [done|by destruct Hev as [[|n] Hn]; cbn in *; lia|lia]. }
  destruct (GetUTF16_inv bs c k) as (Hc & rest & -> & -> & Hbad'); [done..|].
  rewrite AddUTF8_spec in Ha by done. injection Ha as <-. rewrite Nat2Z.id, drop_app_length in H.
  apply Forall_app in Hbs as [_ Hbs]. rewrite length_app, utf16_length in Hev.
  destruct (IH rest Hbs (out ++ utf8 c) s Hbad') as (cs & Hcs & -> & ->); [|done|].
  { destruct Hev as [n Hn]. case_match; [exists (n - 1)%nat|exists (n - 2)%nat]; lia. }
  exists (c :: cs). split; [by constructor|]. by rewrite !bind_cons, <- app_assoc.
Qed.

Lemma length_loop fuel : forall inp k n out,
  match utf8_to_utf16 fuel k out inp, utf8_length fuel k n inp with
  | Ok t, Ok m => Z.of_nat (length t) - Z.of_nat (length out) = 2 * (m - n)
  | Err e, Err e' => e = e'
  | _, _ => False
  end.
Proof.
  induction fuel as [|fuel IH]; intros inp k n out; (destruct (decide (inp = [])) as [->|Hne]; [cbn; lia|]).
  { by destruct inp. }
  rewrite unfold_utf8_loop, unfold_length_loop by done.
  destruct (GetUTF8CodePoint inp k) as [[c k']|e]; cbn [rbind fst snd]; [|done].
  destruct (invalid_to_add c) eqn:E.
  { by unfold AddUTF16ToStringInfo; rewrite E. }
  destruct (AddUTF16ToStringInfo c out) as [out'|] eqn:Ea; cbn [rbind].
  - specialize (IH (drop (Z.to_nat k') inp) k' (if c <=? 65535 then n + 1 else n + 2) out').
    repeat case_match; try done; subst; unfold AddUTF16ToStringInfo in Ea; rewrite E in Ea;
      (case_match eqn:E2; injection Ea as <-; try lia); rewrite !length_app, ?length_le_bytes in IH; cbn in IH; lia.
  - unfold AddUTF16ToStringInfo in Ea. rewrite E in Ea. by case_match.
Qed.

Lemma utf16_even cs : Z.of_nat (length (cs ≫= utf16)) mod 2 = 0.
Proof.
  induction cs as [|c cs IH]; [done|]. rewrite bind_cons, length_app, utf16_length. case_match; div_lia.
Qed.

(** Text of a client in UTF-8. *)
Lemma utf16_text cs out : Forall scalar cs -> TdsUTF16toUTF8StringInfo out (cs ≫= utf16) = Ok (out ++ (cs ≫= utf8)).
Proof.
  intros Hcs. unfold TdsUTF16toUTF8StringInfo. autorewrite with bits. rewrite utf16_even. by apply utf16_loop.
Qed.

(** What is stored are bytes, whatever the client sends. *)
Lemma AddUTF8_bytes c buf out : Forall is_byte buf -> AddUTF8ToStringInfo c buf = Ok out -> Forall is_byte out.
Proof.
  assert (forall z, is_byte (u8 z)) as Hu by (intros z; apply Z.mod_pos_bound; lia).
  intros Hb. unfold AddUTF8ToStringInfo. repeat case_match; intros [= <-]; apply Forall_app; split; try done; repeat constructor; apply Hu.
Qed.

Lemma utf16_loop_bytes fuel : forall out inp s, Forall is_byte out -> utf16_to_utf8 fuel out inp = Ok s -> Forall is_byte s.
Proof.
  induction fuel as [|fuel IH]; intros out inp s Hout H; (destruct (decide (inp = [])) as [->|Hne]; [by injection H as <-|]).
  { by destruct inp. }
  rewrite unfold_utf16_loop in H by done. apply rbind_ok in H as [[c k] [_ H]]. apply rbind_ok in H as [out' [Ha H]].
  eapply IH; [|exact H]. by eapply AddUTF8_bytes.
Qed.

Lemma utf16_text_bytes inp s : TdsUTF16toUTF8StringInfo [] inp = Ok s -> Forall is_byte s.
Proof. unfold TdsUTF16toUTF8StringInfo. case_match; [done|]. by apply utf16_loop_bytes. Qed.

(** ** Properties *)

(** Text is transcoded exactly: for every sequence of Unicode characters but NUL the two
    conversions map its UTF-8 and UTF-16 forms to each other, and the length function
    gives the number of 16-bit units. *)
Theorem utf_transcoding cs out : Forall scalar cs ->
  TdsUTF8toUTF16StringInfo out (cs ≫= utf8) = Ok (out ++ (cs ≫= utf16)) /\
  TdsUTF16toUTF8StringInfo out (cs ≫= utf16) = Ok (out ++ (cs ≫= utf8)) /\
  TdsUTF8LengthInUTF16 (cs ≫= utf8) = Ok (Z.of_nat (length (cs ≫= utf16)) / 2).
Proof.
  intros Hcs. pose proof (utf16_even cs) as Hev. split; [by apply utf8_loop|]. split; [by apply utf16_text|].
  unfold TdsUTF8LengthInUTF16. pose proof (length_loop (length (cs ≫= utf8)) (cs ≫= utf8) 0 0 []) as H.
  rewrite utf8_loop in H by done. case_match; [|done]. cbn in H. f_equal. div_lia.
Qed.

(** C25: What a client sends comes back: when UTF-16 data of a client is accepted and stored as
    UTF-8, sending it again gives the same bytes; the only exception is the unit 0xE000
    after a high surrogate. *)
Theorem client_text_kept bs s :
  Forall is_byte bs -> e000_after_high bs = false -> TdsUTF16toUTF8StringInfo [] bs = Ok s ->
  TdsUTF8toUTF16StringInfo [] s = Ok bs.
Proof.
  unfold TdsUTF16toUTF8StringInfo. intros Hbs Hbad. case_match eqn:E; [done|]. intros H.
  autorewrite with bits in E. apply negb_false_iff, Z.eqb_eq in E.
  destruct (utf16_accepted bs Hbs (length bs) [] s Hbad) as (cs & Hcs & -> & ->); [|done|].
  { exists (length bs / 2)%nat. apply Nat2Z.inj. rewrite Nat2Z.inj_mul, Nat2Z.inj_div. div_lia. }
  by apply utf8_loop.
Qed.

(** The length function and the conversion agree for every input, errors included. *)
Theorem utf8_length_agrees inp :
  match TdsUTF8toUTF16StringInfo [] inp, TdsUTF8LengthInUTF16 inp with
  | Ok t, Ok n => Z.of_nat (length t) = 2 * n
  | Err e, Err e' => e = e'
  | _, _ => False
  end.
Proof.
  pose proof (length_loop (length inp) inp 0 0 []) as H.
  unfold TdsUTF8toUTF16StringInfo, TdsUTF8LengthInUTF16. repeat case_match; try done. cbn in H. lia.
Qed.

(** The low half of a pair may be 0xE000: the pair (0xD800, 0xE000), which is not UTF-16, is
    stored as U+10000 and comes back as another pair. *)
Theorem low_surrogate_e000_accepted :
  TdsUTF16toUTF8StringInfo [] [0x00; 0xD8; 0x00; 0xE0] = Ok [0xF0; 0x90; 0x80; 0x80] /\
  TdsUTF8toUTF16StringInfo [] [0xF0; 0x90; 0x80; 0x80] = Ok [0x00; 0xD8; 0x00; 0xDC].
Proof. split; vm_compute; reflexivity. Qed.

(** Over-long forms of UTF-8 are accepted. *)
Lemma overlong_accepted : TdsUTF8toUTF16StringInfo [] [0xC1; 0x81] = Ok [0x41; 0x00].
Proof. vm_compute. reflexivity. Qed.

Lemma utf_transcoding_witness :
  TdsUTF8toUTF16StringInfo [] ([0x41; 0xE9; 0x20AC; 0x1F600] ≫= utf8) =
  Ok ([] ++ ([0x41; 0xE9; 0x20AC; 0x1F600] ≫= utf16)).
Proof.
  apply (utf_transcoding [0x41; 0xE9; 0x20AC; 0x1F600] []).
  repeat constructor; unfold scalar; lia.
Defined.

Lemma client_text_kept_witness : TdsUTF8toUTF16StringInfo [] [0x41; 0xE2; 0x82; 0xAC] = Ok [0x41; 0x00; 0xAC; 0x20].
Proof.
  apply (client_text_kept [0x41; 0x00; 0xAC; 0x20] [0x41; 0xE2; 0x82; 0xAC]).
  - repeat constructor; unfold is_byte; lia.
  - reflexivity.
  - vm_compute. reflexivity.
Defined.
