(* ===== verification/SoftFloat.v ===== *)
(** * SoftFloat: C floating point

    A finite [double] or [float] is the rational number it stands for.  An operation of
    C computes the exact result and rounds it to the nearest number with 53 (24)
    significant bits, ties to even ([fl]); the lemmas bound the error.  Overflow, underflow
    and the special values do not occur where this is used: all magnitudes lie
    between 10^-12 and 10^20. *)
From Stdlib Require Import QArith Qround Qabs Qpower Lqa.
From stdpp Require Import base numbers.
From S2P Require Import Prelude BitFacts.
Local Open Scope Q_scope.

(** ** Rounding *)

Definition round_half_even (q : Q) : Z :=
  let f := Qfloor q in
  match (q - inject_Z f ?= 1 # 2)%Q with
  | Lt => f
  | Gt => (f + 1)%Z
  | Eq => if Z.even f then f else (f + 1)%Z
  end.

(** The exponent of the leading bit of a positive rational. *)
Definition exponent (q : Q) : Z :=
  let k := (Z.log2 (Qnum q) - Z.log2 (QDen q))%Z in
  if Qle_bool (2 ^ k) q then k else (k - 1)%Z.

Definition fl_pos (p : Z) (q : Q) : Q :=
  let ulp := 2 ^ (exponent q - p + 1) in
  Qred (inject_Z (round_half_even (q / ulp)) * ulp).

Definition fl (p : Z) (q : Q) : Q :=
  match (q ?= 0)%Q with
  | Eq => 0
  | Gt => fl_pos p q
  | Lt => - fl_pos p (- q)
  end.

(** [double] and [float] arithmetic. *)
Definition double : Q -> Q := fl 53.
Definition single : Q -> Q := fl 24.
Definition dadd (x y : Q) : Q := double (x + y).
Definition dmul (x y : Q) : Q := double (x * y).
Definition ddiv (x y : Q) : Q := double (x / y).

(** The cast to an integer type. *)
Definition trunc (q : Q) : Z := if Qle_bool 0 q then Qfloor q else (- Qfloor (- q))%Z.

(** ** Error bounds *)

Lemma round_half_even_error q : Qabs (inject_Z (round_half_even q) - q) <= 1 # 2.
Proof.
  pose proof (Qfloor_le q) as H1. pose proof (Qlt_floor q) as H2.
  rewrite inject_Z_plus in H2. unfold round_half_even.
  apply Qabs_Qle_condition.
  destruct (Qcompare_spec (q - inject_Z (Qfloor q)) (1 # 2)); [destruct (Z.even _)|..];
    rewrite ?inject_Z_plus; change (inject_Z 1) with 1 in *; split; lra.
Qed.

Lemma round_half_even_int z q : q == inject_Z z -> round_half_even q = z.
Proof.
  intros E. unfold round_half_even.
  assert (Qfloor q = z) as -> by (rewrite E; apply Qfloor_Z).
  assert (q - inject_Z z < 1 # 2) as H by (rewrite E; lra).
  by apply Qlt_alt in H as ->.
Qed.

Lemma two_pow_pos n : 0 < 2 ^ n.
Proof. by apply Qpower_0_lt. Qed.

Lemma two_pow_add a b : 2 ^ (a + b) == 2 ^ a * 2 ^ b.
Proof. by apply Qpower_plus. Qed.

Lemma two_pow_Z n : (0 <= n)%Z -> 2 ^ n == inject_Z (2 ^ n).
Proof. intros. by rewrite Zpower_Qpower. Qed.

Lemma two_pow_S n : 2 ^ (n + 1) == 2 * 2 ^ n.
Proof. rewrite two_pow_add. change (2 ^ 1) with 2. ring. Qed.

(** A rational between the powers of two that its numerator and denominator give. *)
Lemma exponent_rough q : 0 < q ->
  let k := (Z.log2 (Qnum q) - Z.log2 (QDen q))%Z in 2 ^ (k - 1) < q /\ q < 2 ^ (k + 1).
Proof.
  intros Hq k. destruct q as [n d]. cbn [Qnum Qden] in *.
  assert (0 < n)%Z as Hn by (unfold Qlt in Hq; cbn in Hq; lia).
  destruct (Z.log2_spec n Hn) as [N1 N2]. destruct (Z.log2_spec (Zpos d) ltac:(done)) as [D1 D2].
  pose proof (Z.log2_nonneg n). pose proof (Z.log2_nonneg (Zpos d)).
  assert (n # d == inject_Z n / inject_Z (Zpos d)) as -> by (rewrite <- Qmake_Qdiv; reflexivity).
  assert (0 < inject_Z (Zpos d)) as Hd by done.
  subst k. rewrite Zlt_Qlt, <- two_pow_Z in N2, D2 by lia. rewrite Zle_Qle, <- two_pow_Z in N1, D1 by lia.
  set (a := Z.log2 n) in *. set (b := Z.log2 (Zpos d)) in *. clearbody a b.
  rewrite <- Z.add_1_r, two_pow_S in N2, D2.
  pose proof (two_pow_pos b) as Hb. pose proof (two_pow_pos a) as Ha. split.
  - apply Qlt_shift_div_l; [done|].
    assert (2 ^ a == 2 * (2 ^ (a - b - 1) * 2 ^ b)) as E.
    { rewrite <- two_pow_add, <- two_pow_S. by replace (a - b - 1 + b + 1)%Z with a by lia. }
    pose proof (two_pow_pos (a - b - 1)). nra.
  - apply Qlt_shift_div_r; [done|].
    assert (2 * 2 ^ a == 2 ^ (a - b + 1) * 2 ^ b) as E.
    { rewrite <- two_pow_add, <- two_pow_S. by replace (a - b + 1 + b)%Z with (a + 1)%Z by lia. }
    pose proof (two_pow_pos (a - b + 1)). nra.
Qed.

Lemma exponent_spec q : 0 < q -> 2 ^ exponent q <= q /\ q < 2 ^ (exponent q + 1).
Proof.
  intros Hq. pose proof (exponent_rough q Hq) as [H1 H2]. unfold exponent.
  destruct (Qle_bool _ q) eqn:E.
  - split; [by apply Qle_bool_iff|done].
  - split; [by apply Qlt_le_weak|]. rewrite Z.sub_add.
    apply Qnot_le_lt. intros H%Qle_bool_iff. congruence.
Qed.

Lemma fl_pos_error p q : 0 < q -> Qabs (fl_pos p q - q) <= q * 2 ^ (- p).
Proof.
  intros Hq. destruct (exponent_spec q Hq) as [H1 _]. unfold fl_pos.
  set (ulp := 2 ^ (exponent q - p + 1)). rewrite Qred_correct.
  assert (0 < ulp) as Hu by apply two_pow_pos.
  pose proof (round_half_even_error (q / ulp)) as He.
  apply Qabs_Qle_condition in He as [He1 He2]. set (m := inject_Z _) in *. clearbody m.
  assert (q == q / ulp * ulp) as E by (field; lra).
  assert (ulp == 2 ^ exponent q * 2 ^ (- p) * 2) as Eu.
  { unfold ulp. replace (exponent q - p + 1)%Z with (exponent q + - p + 1)%Z by lia.
    rewrite two_pow_S, two_pow_add. ring. }
  pose proof (two_pow_pos (- p)) as Hp.
  set (r := q / ulp) in *. clearbody r ulp.
  assert (ulp * (1 # 2) <= q * 2 ^ (- p)) by (rewrite Eu; nra).
  apply Qabs_Qle_condition. split; nra.
Qed.

Lemma two_pow_mono a b : (a <= b)%Z -> 2 ^ a <= 2 ^ b.
Proof.
  intros. replace b with (a + (b - a))%Z by lia. rewrite two_pow_add, (two_pow_Z (b - a)) by lia.
  pose proof (two_pow_pos a). assert (1 <= inject_Z (2 ^ (b - a))); [|nra].
  change 1 with (inject_Z 1). rewrite <- Zle_Qle. lia.
Qed.

Lemma exponent_unique q e : 2 ^ e <= q -> q < 2 ^ (e + 1) -> exponent q = e.
Proof.
  intros H1 H2. pose proof (two_pow_pos e).
  destruct (exponent_spec q) as [H3 H4]; [lra|].
  destruct (Z.lt_trichotomy (exponent q) e) as [Hlt|[Heq|Hgt]]; [|done|].
  - pose proof (two_pow_mono (exponent q + 1) e ltac:(lia)). lra.
  - pose proof (two_pow_mono (e + 1) (exponent q) ltac:(lia)). lra.
Qed.

#[export] Instance round_half_even_proper : Proper (Qeq ==> eq) round_half_even.
Proof.
  intros q q' E. unfold round_half_even.
  assert (Qfloor q = Qfloor q') as -> by (by rewrite E).
  by rewrite E.
Qed.

Lemma exponent_eq q q' : q == q' -> 0 < q -> exponent q = exponent q'.
Proof.
  intros E Hq. apply exponent_unique; rewrite E; apply exponent_spec; by rewrite <- E.
Qed.

#[export] Instance fl_proper p : Proper (Qeq ==> Qeq) (fl p).
Proof.
  assert (forall q q', q == q' -> 0 < q -> fl_pos p q == fl_pos p q') as H.
  { intros q q' E Hq. unfold fl_pos. rewrite !Qred_correct, (exponent_eq q q' E Hq). by rewrite E. }
  intros q q' E. unfold fl. rewrite <- E.
  destruct (Qcompare_spec q 0) as [?|Hq|Hq]; [done|..].
  - f_equiv. apply H; [by rewrite E|lra].
  - by apply H.
Qed.

Lemma fl_error p q : Qabs (fl p q - q) <= Qabs q * 2 ^ (- p).
Proof.
  unfold fl. destruct (Qcompare_spec q 0) as [E|Hq|Hq].
  - rewrite E. assert (0 - 0 == 0) as -> by ring. change (Qabs 0) with 0. pose proof (two_pow_pos (- p)). lra.
  - rewrite (Qabs_neg q) by lra. rewrite <- (Qabs_opp (_ - q)).
    assert (- (- fl_pos p (- q) - q) == fl_pos p (- q) - - q) as -> by ring.
    apply fl_pos_error. lra.
  - rewrite (Qabs_pos q) by lra. by apply fl_pos_error.
Qed.

(** Numbers with few enough bits are not changed. *)
Lemma fl_pos_exact p m e q : (0 < m < 2 ^ p)%Z -> q == inject_Z m * 2 ^ e -> fl_pos p q == q.
Proof.
  intros Hm E. unfold fl_pos. rewrite Qred_correct.
  assert (0 <= p)%Z.
  { destruct (Z.lt_ge_cases p 0) as [Hp|]; [rewrite Z.pow_neg_r in Hm by done|]; lia. }
  destruct (Z.log2_spec m) as [L1 L2]; [lia|]. pose proof (Z.log2_nonneg m).
  assert (Z.log2 m < p)%Z as Hl by (apply Z.log2_lt_pow2; lia).
  rewrite Zle_Qle, <- two_pow_Z in L1 by lia. rewrite Zlt_Qlt, <- two_pow_Z in L2 by lia.
  pose proof (two_pow_pos e) as He.
  assert (exponent q = Z.log2 m + e)%Z as ->.
  { apply exponent_unique; rewrite E.
    - rewrite two_pow_add. nra.
    - replace (Z.log2 m + e + 1)%Z with (Z.succ (Z.log2 m) + e)%Z by lia. rewrite two_pow_add. nra. }
  set (u := (Z.log2 m + e - p + 1)%Z). pose proof (two_pow_pos u) as Hu.
  assert (q / 2 ^ u == inject_Z (m * 2 ^ (e - u))) as E2.
  { rewrite inject_Z_mult, <- two_pow_Z by lia. rewrite E.
    assert (2 ^ e == 2 ^ (e - u) * 2 ^ u) as -> by (rewrite <- two_pow_add; by rewrite Z.sub_add).
    field. lra. }
  rewrite (round_half_even_int _ _ E2), <- E2. field. lra.
Qed.

Lemma fl_exact p m e : (0 < p)%Z -> (Z.abs m < 2 ^ p)%Z -> fl p (inject_Z m * 2 ^ e) == inject_Z m * 2 ^ e.
Proof.
  intros Hp Hm. unfold fl. pose proof (two_pow_pos e) as He.
  destruct (Qcompare_spec (inject_Z m * 2 ^ e) 0) as [E|Hq|Hq]; [lra|..].
  - assert (m < 0)%Z by (rewrite Zlt_Qlt; change (inject_Z 0) with 0; nra).
    rewrite (fl_pos_exact p (- m) e) by (try lia; rewrite inject_Z_opp; ring). ring.
  - assert (0 < m)%Z by (rewrite Zlt_Qlt; change (inject_Z 0) with 0; nra).
    apply (fl_pos_exact p m e); [lia|done].
Qed.

Lemma double_int z : (Z.abs z < 2 ^ 53)%Z -> double (inject_Z z) == inject_Z z.
Proof.
  intros. unfold double. transitivity (fl 53 (inject_Z z * 2 ^ 0)); [f_equiv; change (2 ^ 0) with 1; ring|].
  rewrite fl_exact by lia. change (2 ^ 0) with 1. ring.
Qed.

(** ** Bounds for linear arithmetic *)

Lemma double_near x B : 0 <= x -> x <= B ->
  x - B * (1 # 9007199254740992) <= double x /\ double x <= x + B * (1 # 9007199254740992).
Proof.
  intros H0 HB. pose proof (fl_error 53 x) as H. rewrite (Qabs_pos x) in H by done.
  change (2 ^ (- (53))) with (1 # 9007199254740992) in H.
  apply Qabs_Qle_condition in H as [H1 H2]. unfold double. split; lra.
Qed.

Lemma trunc_between q z : (0 <= z)%Z -> inject_Z z <= q -> q < inject_Z z + 1 -> trunc q = z.
Proof.
  intros Hz H1 H2. unfold trunc.
  assert (0 <= q) as H0 by (rewrite Zle_Qle in Hz; change (inject_Z 0) with 0 in Hz; lra).
  rewrite (proj2 (Qle_bool_iff 0 q) H0).
  assert (z <= Qfloor q)%Z by (rewrite <- (Qfloor_Z z); by apply Qfloor_resp_le).
  assert (Qfloor q < z + 1)%Z; [|lia].
  rewrite Zlt_Qlt. apply (Qle_lt_trans _ q); [apply Qfloor_le|]. rewrite inject_Z_plus. done.
Qed.

#[export] Instance trunc_proper : Proper (Qeq ==> eq) trunc.
Proof.
  intros q q' E. unfold trunc. rewrite E. case_match; [|f_equal]; apply Qfloor_comp; by rewrite E.
Qed.
#[export] Instance double_proper : Proper (Qeq ==> Qeq) double.
Proof. apply fl_proper. Qed.
#[export] Instance dadd_proper : Proper (Qeq ==> Qeq ==> Qeq) dadd.
Proof. intros x x' Ex y y' Ey. unfold dadd. by rewrite Ex, Ey. Qed.
#[export] Instance dmul_proper : Proper (Qeq ==> Qeq ==> Qeq) dmul.
Proof. intros x x' Ex y y' Ey. unfold dmul. by rewrite Ex, Ey. Qed.
#[export] Instance ddiv_proper : Proper (Qeq ==> Qeq ==> Qeq) ddiv.
Proof. intros x x' Ex y y' Ey. unfold ddiv. by rewrite Ex, Ey. Qed.
