(* ===== verification/Calendar.v ===== *)
(** * Calendar: the Gregorian calendar and the server's date functions

    The reference for everything about dates: days are numbered from 0001-01-01 by the
    proleptic Gregorian calendar.  The server functions that the extensions call are an
    interface with their documented behaviour; [gregorian] is an instance. *)
From Stdlib Require QArith.
From stdpp Require Import base list numbers.
From S2P Require Import Prelude BitFacts SoftFloat.

(** ** The calendar *)

Definition leap (y : Z) : bool := (y mod 4 =? 0) && (negb (y mod 100 =? 0) || (y mod 400 =? 0)).

(** Days before a month in a year that is not a leap year. *)
Definition month_start (m : Z) : Z :=
  match m with
  | 2 => 31 | 3 => 59 | 4 => 90 | 5 => 120 | 6 => 151 | 7 => 181
  | 8 => 212 | 9 => 243 | 10 => 273 | 11 => 304 | 12 => 334 | _ => 0
  end.

Definition month_days (y m : Z) : Z :=
  match m with
  | 2 => if leap y then 29 else 28
  | 4 | 6 | 9 | 11 => 30
  | _ => 31
  end.

Definition year_start (y : Z) : Z := 365 * (y - 1) + (y - 1) / 4 - (y - 1) / 100 + (y - 1) / 400.
Definition year_days (y : Z) : Z := if leap y then 366 else 365.

(** Days since 0001-01-01; linear in the day, also outside of the month. *)
Definition day_number (y m d : Z) : Z :=
  year_start y + month_start m + (if leap y && (2 <? m) then 1 else 0) + (d - 1).

Definition valid_date (y m d : Z) : Prop := 1 <= m <= 12 /\ 1 <= d <= month_days y m.

Lemma year_start_succ y : year_start (y + 1) = year_start y + year_days y.
Proof.
  unfold year_start, year_days, leap. replace (y + 1 - 1) with y by lia.
  destruct (y mod 4 =? 0) eqn:E4, (y mod 100 =? 0) eqn:E100, (y mod 400 =? 0) eqn:E400; cbn; div_lia.
Qed.

Lemma year_start_mono y y' : y <= y' -> year_start y <= year_start y'.
Proof. unfold year_start. intros. div_lia. Qed.

Lemma month_cases m (P : Z -> Prop) : P 1 -> P 2 -> P 3 -> P 4 -> P 5 -> P 6 -> P 7 -> P 8 -> P 9 ->
  P 10 -> P 11 -> P 12 -> 1 <= m <= 12 -> P m.
Proof.
  intros. assert (m = 1 \/ m = 2 \/ m = 3 \/ m = 4 \/ m = 5 \/ m = 6 \/ m = 7 \/ m = 8 \/ m = 9 \/
    m = 10 \/ m = 11 \/ m = 12) as Hm by lia.
  by repeat destruct Hm as [->|Hm]; subst.
Qed.

(** Twelve goals, one for every month. *)
Ltac by_month m :=
  match goal with H : 1 <= m <= 12 |- _ => pattern m; apply (month_cases m); [..|exact H]; clear H end.

Lemma month_in_year y m d : valid_date y m d ->
  0 <= month_start m + (if leap y && (2 <? m) then 1 else 0) + (d - 1) < year_days y.
Proof.
  unfold valid_date, year_days, month_days. intros [Hm Hd].
  revert Hd. by_month m; cbn; destruct (leap y); cbn; lia.
Qed.

Lemma day_number_year y m d : valid_date y m d -> year_start y <= day_number y m d < year_start (y + 1).
Proof. intros H%month_in_year. rewrite year_start_succ. unfold day_number. lia. Qed.

Lemma day_number_inj y m d y' m' d' : valid_date y m d -> valid_date y' m' d' ->
  day_number y m d = day_number y' m' d' -> y = y' /\ m = m' /\ d = d'.
Proof.
  intros H H' E. pose proof (day_number_year _ _ _ H). pose proof (day_number_year _ _ _ H').
  assert (y = y') as <-.
  { destruct (Z.lt_trichotomy y y') as [?|[?|?]]; [|done|].
    - pose proof (year_start_mono (y + 1) y' ltac:(lia)). lia.
    - pose proof (year_start_mono (y' + 1) y ltac:(lia)). lia. }
  split; [done|]. unfold day_number in E. destruct H as [Hm Hd], H' as [Hm' Hd']. unfold month_days in *.
  assert (month_start m + (if leap y && (2 <? m) then 1 else 0) + d =
    month_start m' + (if leap y && (2 <? m') then 1 else 0) + d') as E' by lia. clear E.
  revert Hd Hd' E'. by_month m; by_month m'; cbn; destruct (leap y); cbn; lia.
Qed.

(** The day after. *)
Lemma day_number_next_month y m : 1 <= m < 12 -> day_number y (m + 1) 1 = day_number y m (month_days y m) + 1.
Proof.
  intros. assert (1 <= m <= 12) as Hm by lia. unfold day_number.
  enough (month_start (m + 1) + (if leap y && (2 <? m + 1) then 1 else 0) =
    month_start m + (if leap y && (2 <? m) then 1 else 0) + month_days y m) by lia.
  assert (m <> 12) as H12 by lia. revert H12. by_month m; intros; try done; unfold month_days; cbn; by destruct (leap y).
Qed.

Lemma day_number_next_year y : day_number (y + 1) 1 1 = day_number y 12 31 + 1.
Proof.
  unfold day_number. rewrite year_start_succ. unfold year_days. cbn. rewrite andb_false_r. destruct (leap y); cbn; lia.
Qed.

Lemma day_number_linear y m d k : day_number y m (d + k) = day_number y m d + k.
Proof. unfold day_number. lia. Qed.

Lemma month_days_pos y m : 28 <= month_days y m <= 31.
Proof. unfold month_days. repeat case_match; lia. Qed.

(** ** Broken-down time *)

Record pg_tm := mk_tm {
  tm_sec : Z;
  tm_min : Z;
  tm_hour : Z;
  tm_mday : Z;
  tm_mon : Z;
  tm_year : Z
}.

Definition USECS_PER_DAY : Z := 86400000000.
Definition USECS_PER_HOUR : Z := 3600000000.
Definition USECS_PER_MINUTE : Z := 60000000.
Definition USECS_PER_SEC : Z := 1000000.
Definition POSTGRES_EPOCH_JDATE : Z := 2451545.
(** Days from 0001-01-01 to the epoch of the server, 2000-01-01, and its Julian day 0. *)
Definition EPOCH_DAYS : Z := 730119.

Definition MIN_TIMESTAMP : Z := -211813488000000000.
Definition END_TIMESTAMP : Z := 9223371331200000000.
Definition DT_NOBEGIN : Z := INT64_MIN.
Definition DT_NOEND : Z := INT64_MAX.
Definition TIMESTAMP_NOT_FINITE (t : Z) : bool := (t =? DT_NOBEGIN) || (t =? DT_NOEND).
Definition valid_timestamp (t : Z) : bool := (MIN_TIMESTAMP <=? t) && (t <? END_TIMESTAMP).

Definition time_of (tm : pg_tm) (fsec : Z) : Z :=
  ((tm_hour tm * 60 + tm_min tm) * 60 + tm_sec tm) * USECS_PER_SEC + fsec.
Definition date_of (tm : pg_tm) : Z := day_number (tm_year tm) (tm_mon tm) (tm_mday tm) - EPOCH_DAYS.
(** Microseconds since 2000-01-01. *)
Definition timestamp_of (tm : pg_tm) (fsec : Z) : Z := date_of tm * USECS_PER_DAY + time_of tm fsec.

Definition valid_tm (tm : pg_tm) (fsec : Z) : Prop :=
  valid_date (tm_year tm) (tm_mon tm) (tm_mday tm) /\
  0 <= tm_hour tm < 24 /\ 0 <= tm_min tm < 60 /\ 0 <= tm_sec tm < 60 /\ 0 <= fsec < 1000000.

(** Fields that the server adds up without overflow, possibly outside their ranges. *)
Definition modest_tm (tm : pg_tm) (fsec : Z) : Prop :=
  -4700 <= tm_year tm <= 5000000 /\ 1 <= tm_mon tm <= 12 /\ Z.abs (tm_mday tm) <= 100000000 /\
  Z.abs (tm_hour tm) <= 500000 /\ Z.abs (tm_min tm) <= 1000000 /\ Z.abs (tm_sec tm) <= 1000000 /\
  Z.abs fsec <= 1000000000.

Record Interval := mk_interval { int_month : Z; int_day : Z; int_time : Z }.

(** ** Adding intervals: months first, with the day limited to the month it lands in, then
    days, then time; every stage stays in the range of timestamps. *)

Definition in_range (t : Z) : option Z := if valid_timestamp t then Some t else None.

(** The date with a day number, within cycles of 400, 100, 4 and 1 years. *)
Definition civil (n : Z) : Z * Z * Z :=
  let era := n / 146097 in
  let r := n mod 146097 in
  let c := Z.min 3 (r / 36524) in
  let r := r - c * 36524 in
  let q := r / 1461 in
  let r := r mod 1461 in
  let yy := Z.min 3 (r / 365) in
  let y := 400 * era + 100 * c + 4 * q + yy + 1 in
  let r := r - 365 * yy in
  let start m := month_start m + (if leap y && (2 <? m) then 1 else 0) in
  let m := if r <? start 2 then 1 else if r <? start 3 then 2 else if r <? start 4 then 3
    else if r <? start 5 then 4 else if r <? start 6 then 5 else if r <? start 7 then 6
    else if r <? start 8 then 7 else if r <? start 9 then 8 else if r <? start 10 then 9
    else if r <? start 11 then 10 else if r <? start 12 then 11 else 12 in
  (y, m, r - start m + 1).

Definition add_months (days months : Z) : Z :=
  let '(y, m, d) := civil days in
  let k := y * 12 + (m - 1) + months in
  let y := k / 12 in
  let m := k mod 12 + 1 in
  day_number y m (Z.min d (month_days y m)).

Definition pl_interval (t : Z) (span : Interval) : option Z :=
  t ← (if int_month span =? 0 then Some t
       else in_range ((add_months (t / USECS_PER_DAY + EPOCH_DAYS) (int_month span) - EPOCH_DAYS) * USECS_PER_DAY
                      + t mod USECS_PER_DAY));
  t ← (if int_day span =? 0 then Some t else in_range (t + int_day span * USECS_PER_DAY));
  in_range (t + int_time span).

(** The functions of the server.  [tm2timestamp] adds a time zone offset in seconds when
    there is one; [timestamp2tm] is in the time zone of the session when asked
    ([timestamptz2tm]). *)
Class PgCalendar := {
  date2j : Z -> Z -> Z -> Z;
  j2date : Z -> Z * Z * Z;
  isleap : Z -> bool;
  timestamp2tm : Z -> option (pg_tm * Z);
  timestamptz2tm : Z -> option (pg_tm * Z * Z);
  tm2timestamp : pg_tm -> Z -> option Z -> option Z;
  time2tm : Z -> Z * Z * Z * Z;
  make_interval : Z -> Z -> Z -> Z -> Z -> Z -> QArith_base.Q -> option Interval;
  timestamp_pl_interval : Z -> Interval -> option Z;
  timestamp_mi_interval : Z -> Interval -> option Z;
  timestamp_mi : Z -> Z -> option Interval;
  make_timestamp : Z -> Z -> Z -> Z -> Z -> Z -> option Z
}.

Class PgCalendarLaws `{PgCalendar} : Prop := {
  date2j_law y m d : -4700 <= y <= 5000000 -> 1 <= m <= 12 -> Z.abs d <= 100000000 ->
    date2j y m d = day_number y m d - EPOCH_DAYS + POSTGRES_EPOCH_JDATE;
  j2date_law j : 0 <= j < 2 ^ 31 -> let '(y, m, d) := j2date j in
    valid_date y m d /\ day_number y m d = j - POSTGRES_EPOCH_JDATE + EPOCH_DAYS;
  isleap_law y : isleap y = leap y;
  timestamp2tm_law t : valid_timestamp t = true ->
    exists tm fsec, timestamp2tm t = Some (tm, fsec) /\ valid_tm tm fsec /\ timestamp_of tm fsec = t;
  tm2timestamp_law tm fsec tz : modest_tm tm fsec -> Z.abs (default 0 tz) <= 1000000 ->
    tm2timestamp tm fsec tz =
    (let t := timestamp_of tm fsec + default 0 tz * USECS_PER_SEC in if valid_timestamp t then Some t else None);
  time2tm_law t : 0 <= t <= USECS_PER_DAY ->
    time2tm t = (t / USECS_PER_HOUR, t / USECS_PER_MINUTE mod 60, t / USECS_PER_SEC mod 60, t mod USECS_PER_SEC);
  make_interval_law years months weeks days hours mins :
    in_i32 years = true -> in_i32 months = true -> in_i32 weeks = true -> in_i32 days = true ->
    in_i32 hours = true -> in_i32 mins = true ->
    make_interval years months weeks days hours mins (QArith_base.inject_Z 0) =
    (if in_i32 (years * 12 + months) && in_i32 (weeks * 7 + days)
     then Some (mk_interval (years * 12 + months) (weeks * 7 + days)
                  (hours * USECS_PER_HOUR + mins * USECS_PER_MINUTE))
     else None);
  make_interval_secs secs :
    QArith_base.Qle (QArith_base.inject_Z (-10000000000)) secs ->
    QArith_base.Qle secs (QArith_base.inject_Z 10000000000) ->
    make_interval 0 0 0 0 0 0 secs =
    Some (mk_interval 0 0 (round_half_even (dmul secs (QArith_base.inject_Z 1000000))));
  timestamp_pl_law t span : valid_timestamp t = true ->
    timestamp_pl_interval t span = pl_interval t span;
  timestamp_mi_law t1 t2 : valid_timestamp t1 = true -> valid_timestamp t2 = true ->
    timestamp_mi t1 t2 = (let d := t1 - t2 in if in_i64 d then Some (mk_interval 0 (d ÷ USECS_PER_DAY) (Z.rem d USECS_PER_DAY)) else None);
  make_timestamp_law y m d h mi s : modest_tm (mk_tm s mi h d m y) 0 ->
    make_timestamp y m d h mi s = in_range (timestamp_of (mk_tm s mi h d m y) 0)
}.

Section intervals.
Context `{PgCalendarLaws}.

Lemma make_interval_days days : in_i32 days = true ->
  make_interval 0 0 0 days 0 0 (QArith_base.inject_Z 0) = Some (mk_interval 0 days 0).
Proof. intros Hd. rewrite make_interval_law by done. rewrite Z.mul_0_l, !Z.add_0_l, Hd. done. Qed.

Lemma timestamp_pl_days t days : valid_timestamp t = true ->
  timestamp_pl_interval t (mk_interval 0 days 0) = in_range (t + days * USECS_PER_DAY).
Proof.
  intros Ht. rewrite timestamp_pl_law by done. unfold pl_interval. cbn [int_month int_day int_time Z.eqb mbind option_bind].
  destruct (days =? 0) eqn:E; cbn [mbind option_bind].
  - apply Z.eqb_eq in E as ->. by rewrite Z.mul_0_l.
  - unfold in_range. case_match eqn:Ev; cbn [mbind option_bind]; [|done]. by rewrite Z.add_0_r, Ev.
Qed.
End intervals.

(** Two broken-down forms of one timestamp are the same. *)
Lemma timestamp_of_inj tm fsec tm' fsec' : valid_tm tm fsec -> valid_tm tm' fsec' ->
  timestamp_of tm fsec = timestamp_of tm' fsec' -> tm = tm' /\ fsec = fsec'.
Proof.
  destruct tm as [s mi h d m y], tm' as [s' mi' h' d' m' y'].
  unfold valid_tm, timestamp_of, time_of, date_of, USECS_PER_DAY, USECS_PER_SEC. cbn [tm_year tm_mon tm_mday tm_hour tm_min tm_sec].
  intros (Hd & ?) (Hd' & ?) E.
  assert (day_number y m d = day_number y' m' d') as Ed by lia.
  destruct (day_number_inj _ _ _ _ _ _ Hd Hd' Ed) as (-> & -> & ->).
  assert (h = h' /\ mi = mi' /\ s = s' /\ fsec = fsec') as (-> & -> & -> & ->) by lia. done.
Qed.

Lemma valid_modest tm fsec : valid_tm tm fsec -> -4700 <= tm_year tm <= 5000000 -> modest_tm tm fsec.
Proof.
  unfold valid_tm, valid_date, modest_tm. intros ((Hm & Hd) & ?) ?.
  assert (tm_mday tm <= 31) by (revert Hd; unfold month_days; by_month (tm_mon tm); cbn; try case_match; lia).
  lia.
Qed.

(** ** An instance *)

Lemma civil_spec n : let '(y, m, d) := civil n in valid_date y m d /\ day_number y m d = n.
Proof.
  unfold civil. cbv zeta.
  set (era := n / 146097). set (r := n mod 146097). assert (n = 146097 * era + r /\ 0 <= r < 146097) as [En Hr] by (subst era r; div_lia).
  clearbody era r.
  set (c := Z.min 3 (r / 36524)). set (r1 := r - c * 36524).
  assert (0 <= c <= 3 /\ (c < 3 -> r1 < 36524) /\ 0 <= r1 < 36525) as (Hc & Hc3 & Hr1) by (subst c r1; div_lia).
  assert (r = r1 + c * 36524) as Er by lia. clearbody c r1.
  set (q := r1 / 1461). set (r2 := r1 mod 1461).
  assert (r1 = 1461 * q + r2 /\ 0 <= r2 < 1461 /\ 0 <= q <= 24) as (Er1 & Hr2 & Hq) by (subst q r2; div_lia).
  clearbody q r2.
  set (yy := Z.min 3 (r2 / 365)). set (r3 := r2 - 365 * yy).
  assert (0 <= yy <= 3 /\ (yy < 3 -> r3 < 365) /\ 0 <= r3 < 366) as (Hy & Hy3 & Hr3) by (subst yy r3; div_lia).
  assert (r2 = r3 + 365 * yy) as Er2 by lia. clearbody yy r3.
  set (y := 400 * era + 100 * c + 4 * q + yy + 1).
  assert (year_start y = n - r3) as Ey by (unfold year_start; subst y; div_lia).
  assert (r3 < year_days y) as Hd.
  { unfold year_days. destruct (leap y) eqn:El; [lia|]. unfold leap in El. subst y. div_lia. }
  clearbody y. unfold year_days in Hd.
  destruct (leap y) eqn:El; cbn [andb month_start Z.ltb Z.compare Pos.compare Pos.compare_cont];
    unfold valid_date, day_number, month_days; rewrite El;
    repeat match goal with |- context [if r3 <? ?k then _ else _] => destruct (r3 <? k) eqn:? end; cbn; lia.
Qed.

Definition tm_of (t : Z) : pg_tm * Z :=
  let '(y, m, d) := civil (t / USECS_PER_DAY + EPOCH_DAYS) in
  let r := t mod USECS_PER_DAY in
  (mk_tm (r / USECS_PER_SEC mod 60) (r / USECS_PER_MINUTE mod 60) (r / USECS_PER_HOUR) d m y, r mod USECS_PER_SEC).

Lemma tm_of_spec t : valid_tm (tm_of t).1 (tm_of t).2 /\ timestamp_of (tm_of t).1 (tm_of t).2 = t.
Proof.
  unfold tm_of. pose proof (civil_spec (t / USECS_PER_DAY + EPOCH_DAYS)) as H.
  destruct (civil _) as [[y m] d]. destruct H as [Hv Hn].
  unfold valid_tm, timestamp_of, time_of, date_of. cbn [fst snd tm_year tm_mon tm_mday tm_hour tm_min tm_sec].
  rewrite Hn. unfold USECS_PER_DAY, USECS_PER_SEC, USECS_PER_MINUTE, USECS_PER_HOUR.
  split; [split; [done|div_lia]|div_lia].
Qed.

#[export] Instance gregorian : PgCalendar := {|
  date2j := fun y m d => day_number y m d - EPOCH_DAYS + POSTGRES_EPOCH_JDATE;
  j2date := fun j => civil (j - POSTGRES_EPOCH_JDATE + EPOCH_DAYS);
  isleap := leap;
  timestamp2tm := fun t => if valid_timestamp t then Some (tm_of t) else None;
  timestamptz2tm := fun t => if valid_timestamp t then Some (tm_of t, 0) else None;
  tm2timestamp := fun tm fsec tz =>
    let t := timestamp_of tm fsec + default 0 tz * USECS_PER_SEC in if valid_timestamp t then Some t else None;
  time2tm := fun t =>
    (t / USECS_PER_HOUR, t / USECS_PER_MINUTE mod 60, t / USECS_PER_SEC mod 60, t mod USECS_PER_SEC);
  make_interval := fun years months weeks days hours mins secs =>
    if in_i32 (years * 12 + months) && in_i32 (weeks * 7 + days)
    then Some (mk_interval (years * 12 + months) (weeks * 7 + days)
                 (hours * USECS_PER_HOUR + mins * USECS_PER_MINUTE +
                  round_half_even (dmul secs (QArith_base.inject_Z 1000000))))
    else None;
  timestamp_pl_interval := pl_interval;
  timestamp_mi_interval := fun t span => pl_interval t (mk_interval (- int_month span) (- int_day span) (- int_time span));
  timestamp_mi := fun t1 t2 => let d := t1 - t2 in if in_i64 d then Some (mk_interval 0 (d ÷ USECS_PER_DAY) (Z.rem d USECS_PER_DAY)) else None;
  make_timestamp := fun y m d h mi s => in_range (timestamp_of (mk_tm s mi h d m y) 0)
|}.

#[export] Instance gregorian_laws : PgCalendarLaws.
Proof.
  split; try done.
  - intros j _. apply (civil_spec (j - POSTGRES_EPOCH_JDATE + EPOCH_DAYS)).
  - intros t Ht. exists (tm_of t).1, (tm_of t).2. cbn [timestamp2tm gregorian]. rewrite Ht. split; [by destruct (tm_of t)|apply tm_of_spec].
  - intros. cbn. rewrite Z.add_0_r. done.
Qed.
