(* ===== verification/Datetime.v ===== *)
(** * Datetime: the type DATETIME ([babelfishpg_common/src/datetime.c], [datetime.h])

    A value is a timestamp of the server, microseconds since 2000-01-01.  The type rounds
    to 1/300 second and ranges from 1753 to 9999.  The parts of the file about text input
    are left out, as they work on fields found by the server's parser. *)
From Stdlib Require QArith.
From stdpp Require Import base list numbers.
From S2P Require Import Prelude BitFacts SoftFloat Calendar.

Definition MIN_DATETIME : Z := -7794489600000000.
Definition END_DATETIME : Z := 252455615999999000.
Definition TSQL_DEFAULT_DATETIME : Z := -3155673600000000.
Definition DATEPART_MIN_VALUE : Z := -53690.
Definition MIN_DATE_MASK : Z := 0xFFFF2E46.
Definition IS_VALID_DATETIME (t : Z) : bool := (MIN_DATETIME <=? t) && (t <? END_DATETIME).
Definition DT_PREC_INV : Z := 1000.
Definition IS_VALID_DT_PRECISION (j : Z) : bool := Z.rem j DT_PREC_INV =? 0.
Definition DTROUND (j : Z) : Z := (j ÷ DT_PREC_INV) * DT_PREC_INV.

Definition DaycountInMonth : list Z := [31; 28; 31; 30; 31; 30; 31; 31; 30; 31; 30; 31].

Inductive dt_error :=
| datetime_out_of_range
| data_out_of_range_for_datetime
| data_precision_out_of_range
| implicit_conversion_not_allowed
| not_a_recognized_option
| function_resulted_in_overflow
| datepart_not_supported
| adding_caused_overflow.

Section datetime.
Context `{PgCalendar}.

(** ** Rounding *)

Definition with_date (tm : pg_tm) (y m d : Z) : pg_tm :=
  mk_tm (tm_sec tm) (tm_min tm) (tm_hour tm) d m y.
Definition with_time (tm : pg_tm) (h mi s : Z) : pg_tm :=
  mk_tm s mi h (tm_mday tm) (tm_mon tm) (tm_year tm).

(** The next day at midnight. *)
Definition UpdateToNextDayHelper (tm : pg_tm) : pg_tm :=
  let tm := with_time tm 0 0 0 in
  let last := nth (Z.to_nat (tm_mon tm - 1)) DaycountInMonth 0 in
  if (tm_mday tm =? last) && (tm_mon tm =? 12) then with_date tm (tm_year tm + 1) 1 1
  else if ((tm_mday tm =? last) && negb (tm_mon tm =? 2)) ||
          ((tm_mon tm =? 2) && (tm_mday tm =? 29) && isleap (tm_year tm)) ||
          ((tm_mon tm =? 2) && (tm_mday tm =? 28) && negb (isleap (tm_year tm)))
  then with_date tm (tm_year tm) (tm_mon tm + 1) 1
  else with_date tm (tm_year tm) (tm_mon tm) (tm_mday tm + 1).

Definition handle_datetime_carry_over (tm : pg_tm) (rounded_msec : Z) : pg_tm * Z :=
  if rounded_msec =? 1000 then
    let s := tm_sec tm + 1 in
    if s =? 60 then
      let mi := tm_min tm + 1 in
      if mi =? 60 then
        let h := tm_hour tm + 1 in
        if h =? 24 then (UpdateToNextDayHelper (with_time tm h 0 0), 0) else (with_time tm h 0 0, 0)
      else (with_time tm (tm_hour tm) mi 0, 0)
    else (with_time tm (tm_hour tm) (tm_min tm) s, 0)
  else (tm, rounded_msec).

Definition roundFractionalSeconds (v_fractseconds : Z) : Z :=
  let v_modpart := Z.rem v_fractseconds 10 in
  let v_decpart := v_fractseconds - v_modpart in
  match v_modpart with
  | 0 | 1 => v_decpart
  | 2 | 3 | 4 => v_decpart + 3
  | 5 | 6 | 7 | 8 => v_decpart + 7
  | _ => v_decpart + 10
  end.

Definition roundoff_datetime (timestamp : Z) : result dt_error Z :=
  if TIMESTAMP_NOT_FINITE timestamp then Err datetime_out_of_range
  else match timestamp2tm timestamp with
  | None => Err datetime_out_of_range
  | Some (tm, fsec) =>
      let rounded_msec := roundFractionalSeconds (fsec ÷ 1000) in
      let '(tm, rounded_msec) := handle_datetime_carry_over tm rounded_msec in
      match tm2timestamp tm (rounded_msec * 1000) None with
      | Some t => Ok t
      | None => Err datetime_out_of_range
      end
  end.

Definition CheckDatetimeRange (time : Z) : result dt_error Z :=
  if IS_VALID_DATETIME time then Ok time else Err data_out_of_range_for_datetime.

Definition CheckDatetimePrecision (fsec : Z) : result dt_error unit :=
  if IS_VALID_DT_PRECISION fsec then Ok tt else Err data_precision_out_of_range.

(** ** Conversions from the other types *)

Definition default_tm (h mi s : Z) : pg_tm := mk_tm s mi h 1 1 1900.

Definition initializeToDefaultDatetime : option Z := tm2timestamp (default_tm 0 0 0) 0 None.
Definition initializeToDefaultDate : Z := date2j 1900 1 1 - POSTGRES_EPOCH_JDATE.

Definition DATEVAL_NOBEGIN : Z := INT32_MIN.
Definition DATEVAL_NOEND : Z := INT32_MAX.

Definition date_datetime (dateVal : Z) : result dt_error Z :=
  CheckDatetimeRange (if dateVal =? DATEVAL_NOBEGIN then DT_NOBEGIN
                      else if dateVal =? DATEVAL_NOEND then DT_NOEND
                      else i64 (dateVal * USECS_PER_DAY)).

Definition time_datetime (timeVal : Z) : result dt_error Z :=
  let '(h, mi, s, fsec) := time2tm timeVal in
  match tm2timestamp (default_tm h mi s) fsec None with
  | None => Err datetime_out_of_range
  | Some r => let! r := roundoff_datetime r in CheckDatetimeRange r
  end.

Definition timestamp_datetime (t : Z) : result dt_error Z :=
  let! r := roundoff_datetime t in CheckDatetimeRange r.

Definition timestamptz_datetime (timestamp : Z) : result dt_error Z :=
  let! r := (if TIMESTAMP_NOT_FINITE timestamp then Ok timestamp
             else match timestamptz2tm timestamp with
                  | None => Err data_out_of_range_for_datetime
                  | Some (tm, fsec, tz) =>
                      match tm2timestamp tm fsec None with
                      | Some r => Ok r
                      | None => Err data_out_of_range_for_datetime
                      end
                  end) in
  let! r := roundoff_datetime r in CheckDatetimeRange r.

(** ** Binary form: days since 1900 and ticks of 1/300 second, big-endian *)

Definition be_bytes (n : nat) (z : Z) : bytes := rev (le_bytes n z).

(** What the processor does with a shift of an [int] by 32 bits or more; C leaves it
    undefined. *)
Variable wide_shift : Z -> Z -> Z.

Definition shift_int (x k : Z) : Z := if k <? 32 then i32 (Z.shiftl x k) else wide_shift x k.

(** The byte at distance [i] from the end. *)
Definition byte_from_end (buffer : bytes) (i : nat) : Z := nth (length buffer - 1 - i) buffer 0.

Definition binary_time_part (buffer : bytes) : Z :=
  foldl (fun time_part i => u32 (Z.lor time_part (u32 (shift_int (byte_from_end buffer i) (8 * Z.of_nat i)))))
    0 (seq 0 (Nat.min (length buffer) 4)).

Definition binary_days (buffer : bytes) : Z :=
  foldl (fun days i => i64 (Z.lor days (shift_int (byte_from_end buffer i) (8 * Z.of_nat i))))
    0 (seq 4 (Nat.min (length buffer) 8 - 4)).

Definition varbinary_datetime (arg : bytes) : result dt_error Z :=
  let time_part := binary_time_part arg in
  let days := binary_days arg in
  let ms_value := time_part * 10 ÷ 3 in
  let usecs := ms_value * 1000 in
  if usecs >=? USECS_PER_DAY then Err data_out_of_range_for_datetime
  else
    let result :=
      if days <? 0 then
        let day_value := Z.land days 0xFFFFFFFF in
        i64 (MIN_DATETIME + i64 ((day_value - MIN_DATE_MASK) * USECS_PER_DAY + usecs))
      else i64 (TSQL_DEFAULT_DATETIME + i64 (days * USECS_PER_DAY + usecs)) in
    let! r := roundoff_datetime result in CheckDatetimeRange r.

(** Days and ticks of a value, the first part of [datetime_varbinary] and [datetime_binary]. *)
Definition days_and_ticks (ts : Z) (isExplicit : bool) : result dt_error (Z * Z) :=
  if negb isExplicit then Err implicit_conversion_not_allowed
  else if TIMESTAMP_NOT_FINITE ts then Err datetime_out_of_range
  else match timestamp2tm ts with
  | None => Err datetime_out_of_range
  | Some (tm, fsec) =>
      let days := if ts <? TSQL_DEFAULT_DATETIME
                  then DATEPART_MIN_VALUE + (ts - MIN_DATETIME) ÷ USECS_PER_DAY
                  else (ts - TSQL_DEFAULT_DATETIME) ÷ USECS_PER_DAY in
      let total_ms := tm_hour tm * 3600000 + tm_min tm * 60000 + tm_sec tm * 1000 + fsec ÷ 1000 in
      Ok (days, (total_ms * 3 + 5) ÷ 10)
  end.

Definition VARHDRSZ : Z := 4.

Definition datetime_varbinary (ts typmod : Z) (isExplicit : bool) : result dt_error bytes :=
  let! x := days_and_ticks ts isExplicit in
  let days := be_bytes 4 (u32 x.1) in
  let time_part := be_bytes 4 (u32 x.2) in
  if (typmod <? 8 + VARHDRSZ) && (typmod >? VARHDRSZ) then
    let result_size := Z.to_nat (typmod - VARHDRSZ) in
    if (result_size <=? 4)%nat then Ok (drop (4 - result_size) time_part)
    else Ok (drop (8 - result_size) days ++ time_part)
  else Ok (days ++ time_part).

Definition datetime_binary (ts typmod : Z) (isExplicit : bool) : result dt_error bytes :=
  let! x := days_and_ticks ts isExplicit in
  let days := be_bytes 4 (u32 x.1) in
  let time_part := be_bytes 4 (u32 x.2) in
  let result_size := if typmod >? VARHDRSZ then Z.to_nat (typmod - VARHDRSZ) else 8%nat in
  if (result_size <=? 4)%nat then Ok (drop (4 - result_size) time_part)
  else if (result_size <=? 8)%nat then Ok (drop (8 - result_size) days ++ time_part)
  else Ok (replicate (result_size - 8) 0 ++ days ++ time_part).

(** ** Arithmetic *)

Definition or_range {A} (x : option A) : result dt_error A :=
  match x with Some a => Ok a | None => Err datetime_out_of_range end.

Definition datetime_pl_int4 (timestamp days : Z) : result dt_error Z :=
  if TIMESTAMP_NOT_FINITE timestamp then Ok timestamp
  else
    let! input_interval := or_range (make_interval 0 0 0 days 0 0 (QArith_base.inject_Z 0)) in
    let! r := or_range (timestamp_pl_interval timestamp input_interval) in
    CheckDatetimeRange r.

Definition int4_pl_datetime (days timestamp : Z) : result dt_error Z := datetime_pl_int4 timestamp days.
Definition datetime_mi_int4 (timestamp days : Z) : result dt_error Z := datetime_pl_int4 timestamp (i32 (- days)).

Definition datetime_pl_datetime (timestamp1 timestamp2 : Z) : result dt_error Z :=
  let diff := i64 (timestamp2 - default 0 initializeToDefaultDatetime) in
  CheckDatetimeRange (i64 (timestamp1 + diff)).

Definition datetime_mi_datetime (timestamp1 timestamp2 : Z) : result dt_error Z :=
  let diff := i64 (timestamp2 - default 0 initializeToDefaultDatetime) in
  CheckDatetimeRange (i64 (timestamp1 - diff)).
End datetime.
