(* ===== verification/DatetimeTheorems.v ===== *)
(** * DatetimeTheorems: rounding and binary form of DATETIME *)
From stdpp Require Import base list numbers.
From S2P Require Import Prelude BitFacts SoftFloat Calendar Datetime.

(** ** The rounding in closed form: whole milliseconds to the nearest tick of 1/300 second *)

Definition ticks_of (t : Z) : Z := (t / 1000 * 3 + 5) / 10.
Definition timestamp_of_ticks (k : Z) : Z := (k * 10 + 1) / 3 * 1000.
Definition to_tick (t : Z) : Z := timestamp_of_ticks (ticks_of t).

(** 0001-01-01 to 10000-01-01. *)
Definition common_era (t : Z) : Prop := -63082281600000000 <= t <= 252455616000000000.

Lemma bins ms : 0 <= ms -> roundFractionalSeconds ms = ((ms * 3 + 5) / 10 * 10 + 1) / 3.
Proof.
  intros. unfold roundFractionalSeconds. rewrite Z.rem_mod_nonneg by lia.
  assert (ms mod 10 = 0 \/ ms mod 10 = 1 \/ ms mod 10 = 2 \/ ms mod 10 = 3 \/ ms mod 10 = 4 \/ ms mod 10 = 5 \/
    ms mod 10 = 6 \/ ms mod 10 = 7 \/ ms mod 10 = 8 \/ ms mod 10 = 9) as Hc by div_lia.
  by repeat (destruct Hc as [E|Hc]; [rewrite E; div_lia|]); rewrite Hc; div_lia.
Qed.

(** ** The next day *)

Section laws.
Context `{PgCalendarLaws}.

(** The code's test for the last day of a month. *)
Lemma last_day_test y m d : valid_date y m d -> m <> 12 ->
  ((d =? nth (Z.to_nat (m - 1)) DaycountInMonth 0) && negb (m =? 2)) ||
  ((m =? 2) && (d =? 29) && leap y) || ((m =? 2) && (d =? 28) && negb (leap y)) = (d =? month_days y m).
Proof.
  intros [Hm Hd]. revert Hd. by_month m; cbn; try (intros; by rewrite ?andb_true_r, ?orb_false_r).
  destruct (leap y); cbn; rewrite ?andb_true_r, ?andb_false_r, ?orb_false_r; done.
Qed.

Lemma next_day_spec tm fsec : valid_tm tm fsec -> let tm' := UpdateToNextDayHelper tm in
  valid_tm tm' fsec /\ date_of tm' = date_of tm + 1 /\ tm_hour tm' = 0 /\ tm_min tm' = 0 /\ tm_sec tm' = 0.
Proof.
  destruct tm as [s mi h d m y]. intros (Hv & ? & ? & ? & ?). unfold UpdateToNextDayHelper. cbv zeta.
  cbn [with_time with_date with_time tm_sec tm_min tm_hour tm_mday tm_mon tm_year] in *. rewrite isleap_law.
  cbv zeta. unfold valid_tm, date_of.
  assert (1 <= m <= 12 /\ 1 <= d <= month_days y m) as [Hm Hd] by done.
  destruct (decide (m = 12)) as [->|Hm12].
  - change (nth (Z.to_nat (12 - 1)) DaycountInMonth 0) with 31. change (month_days y 12) with 31 in Hd.
    destruct (d =? 31) eqn:E; cbn [andb orb negb Z.eqb Pos.eqb with_date with_time tm_sec tm_min tm_hour tm_mday tm_mon tm_year].
    + apply Z.eqb_eq in E as ->. rewrite day_number_next_year. repeat split; cbn; lia.
    + rewrite day_number_linear. repeat split; try lia; change (month_days y 12) with 31; lia.
  - rewrite (proj2 (Z.eqb_neq m 12)), andb_false_r by done. rewrite last_day_test by done.
    destruct (d =? month_days y m) eqn:E; cbn [with_date with_time tm_sec tm_min tm_hour tm_mday tm_mon tm_year].
    + apply Z.eqb_eq in E as ->. rewrite day_number_next_month by lia.
      pose proof (month_days_pos y (m + 1)). repeat split; lia.
    + rewrite day_number_linear. repeat split; lia.
Qed.

Lemma year_bounds tm fsec : valid_tm tm fsec -> common_era (timestamp_of tm fsec) -> 1 <= tm_year tm <= 10000.
Proof.
  unfold common_era, timestamp_of, time_of, date_of, USECS_PER_DAY, USECS_PER_SEC, EPOCH_DAYS.
  intros (Hv & ?) ?. pose proof (day_number_year _ _ _ Hv) as Hy. set (y := tm_year tm) in *.
  assert (0 <= day_number y (tm_mon tm) (tm_mday tm) <= 3652059) by lia.
  split.
  - destruct (Z.le_gt_cases 1 y); [done|]. pose proof (year_start_mono (y + 1) 1 ltac:(lia)).
    change (year_start 1) with 0 in *. lia.
  - destruct (Z.le_gt_cases y 10000); [done|]. pose proof (year_start_mono 10001 y ltac:(lia)).
    change (year_start 10001) with 3652425 in *. lia.
Qed.

Lemma carry_over_spec tm fsec : valid_tm tm fsec ->
  let r := roundFractionalSeconds (fsec ÷ 1000) in
  let '(tm', r') := handle_datetime_carry_over tm r in
  valid_tm tm' (r' * 1000) /\ timestamp_of tm' (r' * 1000) = timestamp_of tm 0 + r * 1000.
Proof.
  intros Hv. pose proof Hv as (Hd & Hh & Hmi & Hs & Hf).
  assert (0 <= fsec ÷ 1000 <= 999) as Hms by (rewrite Z.quot_div_nonneg by lia; div_lia).
  cbv zeta. set (r := roundFractionalSeconds _).
  assert (0 <= r <= 1000) as Hr by (subst r; rewrite bins by lia; div_lia). clearbody r.
  unfold handle_datetime_carry_over, timestamp_of, time_of, USECS_PER_SEC.
  destruct (r =? 1000) eqn:E1; [|split; [unfold valid_tm; split; [done|lia]|lia]].
  destruct (tm_sec tm + 1 =? 60) eqn:E2; [destruct (tm_min tm + 1 =? 60) eqn:E3; [destruct (tm_hour tm + 1 =? 24) eqn:E4|]|].
  - destruct (next_day_spec (with_time tm (tm_hour tm) 0 0) 0) as (Hv' & Hn & Hz).
    { unfold valid_tm. cbn. split; [exact Hd|lia]. }
    change (UpdateToNextDayHelper (with_time tm (tm_hour tm + 1) 0 0)) with
      (UpdateToNextDayHelper (with_time tm (tm_hour tm) 0 0)).
    split; [done|]. rewrite Hn. destruct Hz as (-> & -> & ->). change (date_of (with_time _ _ _ _)) with (date_of tm).
    unfold USECS_PER_DAY. lia.
  - split; [unfold valid_tm; cbn; split; [exact Hd|lia]|]. change (date_of (with_time _ _ _ _)) with (date_of tm). cbn. lia.
  - split; [unfold valid_tm; cbn; split; [exact Hd|lia]|]. change (date_of (with_time _ _ _ _)) with (date_of tm). cbn. lia.
  - split; [unfold valid_tm; cbn; split; [exact Hd|lia]|]. change (date_of (with_time _ _ _ _)) with (date_of tm). cbn. lia.
Qed.

Lemma common_era_valid t : common_era t -> valid_timestamp t = true /\ TIMESTAMP_NOT_FINITE t = false.
Proof.
  unfold common_era, valid_timestamp, MIN_TIMESTAMP, END_TIMESTAMP, TIMESTAMP_NOT_FINITE, DT_NOBEGIN, DT_NOEND,
    INT64_MIN, INT64_MAX. lia.
Qed.

(** Rounding in closed form, whatever carries into the next second, minute, hour, day, month or year it takes. *)
Lemma roundoff_datetime_ticks t : common_era t -> roundoff_datetime t = Ok (to_tick t).
Proof.
  intros Ht. destruct (common_era_valid t Ht) as [Hvt Hfin].
  unfold roundoff_datetime. rewrite Hfin.
  destruct (timestamp2tm_law t Hvt) as (tm & fsec & -> & Hv & Et).
  pose proof (carry_over_spec tm fsec Hv) as Hc. cbv zeta in Hc.
  destruct (handle_datetime_carry_over _ _) as [tm' r'].
  destruct Hc as [Hv' Ec].
  assert (timestamp_of tm' (r' * 1000) = to_tick t) as E.
  { pose proof Hv as (_ & ? & ? & ? & Hf).
    rewrite Ec, <- Et. rewrite bins, Z.quot_div_nonneg by (rewrite ?Z.quot_div_nonneg by lia; div_lia).
    unfold to_tick, timestamp_of_ticks, ticks_of, timestamp_of, time_of, USECS_PER_DAY, USECS_PER_SEC.
    set (d := date_of tm). set (h := tm_hour tm). set (mi := tm_min tm). set (sc := tm_sec tm). div_lia. }
  assert (common_era (to_tick t)) as Hr.
  { unfold common_era, to_tick, timestamp_of_ticks, ticks_of in *. div_lia. }
  rewrite tm2timestamp_law; [|apply valid_modest; [done|]|cbn; lia].
  - cbn [default]. cbv zeta. rewrite E, Z.mul_0_l, Z.add_0_r. by rewrite (proj1 (common_era_valid _ Hr)).
  - pose proof (year_bounds tm' (r' * 1000) Hv') as Hy. rewrite E in Hy. specialize (Hy Hr). lia.
Qed.
End laws.

(** ** Binary form *)

(** What x86 does with a shift by 32 or more: the count is taken modulo 32. *)
Definition x86_shift (x k : Z) : Z := i32 (Z.shiftl x (k mod 32)).

Lemma be_bytes_4 z : be_bytes 4 z = [z / 16777216 mod 256; z / 65536 mod 256; z / 256 mod 256; z mod 256].
Proof.
  unfold be_bytes. cbn [le_bytes rev app]. rewrite !Z.div_div by lia. done.
Qed.

Lemma shift_low wide x k : is_byte x -> 0 <= k <= 16 -> shift_int wide x k = x * 2 ^ k.
Proof.
  unfold is_byte, shift_int. intros. if_lia. rewrite shiftl_mul by lia.
  assert (1 <= 2 ^ k <= 65536) by (split; [lia|change 65536 with (2 ^ 16); apply Z.pow_le_mono_r; lia]).
  apply i32_id. apply in_i32_iff. nia.
Qed.

Lemma i32_top x : is_byte x -> i32 (x * 16777216) mod 2 ^ 24 = 0.
Proof. unfold is_byte. rewrite i32_unfold. change (2 ^ 24) with 16777216. intros. div_lia. Qed.

Lemma eight_bytes a b c d e f g h : Forall is_byte [a; b; c; d; e; f; g; h] ->
  is_byte a /\ is_byte b /\ is_byte c /\ is_byte d /\ is_byte e /\ is_byte f /\ is_byte g /\ is_byte h.
Proof. intros Hb. by repeat (apply Forall_cons_1 in Hb as [? Hb]). Qed.

(** The last four bytes. *)
Lemma binary_time_part_8 wide a b c d e f g h : Forall is_byte [a; b; c; d; e; f; g; h] ->
  binary_time_part wide [a; b; c; d; e; f; g; h] = ((e * 256 + f) * 256 + g) * 256 + h.
Proof.
  intros (Ha & Hb & Hc & Hd & He & Hf & Hg & Hh)%eight_bytes.
  unfold binary_time_part, byte_from_end. cbn [length Nat.min seq foldl nth Nat.sub].
  change (8 * Z.of_nat 0) with 0. change (8 * Z.of_nat 1) with 8.
  change (8 * Z.of_nat 2) with 16. change (8 * Z.of_nat 3) with 24.
  rewrite !shift_low by (done || lia). unfold shift_int. if_lia. rewrite shiftl_mul by lia.
  unfold is_byte, u32, uwrap in *. rewrite Z.lor_0_l.
  change (2 ^ 0) with 1. change (2 ^ 8) with 256. change (2 ^ 16) with 65536. change (2 ^ 24) with 16777216.
  rewrite (Z.mod_small (h * 1)), !(Z.mod_small (h * 1)) by lia.
  rewrite (Z.mod_small (g * 256)), (Z.mod_small (f * 65536)) by lia.
  assert (i32 (e * 16777216) mod 2 ^ 32 = e * 16777216) as ->.
  { rewrite i32_unfold. change (2 ^ 32) with 4294967296. div_lia. }
  rewrite (Z.lor_comm (h * 1)), (lor_low (g * 256) (h * 1) 8) by (try lia; apply Z.mod_mul; lia).
  rewrite (Z.mod_small (_ + _)) by lia.
  rewrite (Z.lor_comm _ (f * 65536)), (lor_low (f * 65536) _ 16) by (try lia; apply Z.mod_mul; lia).
  rewrite (Z.mod_small (_ + _)) by lia.
  rewrite (Z.lor_comm _ (e * 16777216)), (lor_low (e * 16777216) _ 24) by (try lia; apply Z.mod_mul; lia).
  rewrite (Z.mod_small (_ + _)) by lia. lia.
Qed.

(** The first four bytes, as a signed number. *)
Lemma binary_days_8 a b c d e f g h : Forall is_byte [a; b; c; d; e; f; g; h] ->
  binary_days x86_shift [a; b; c; d; e; f; g; h] = i32 (((a * 256 + b) * 256 + c) * 256 + d).
Proof.
  intros (Ha & Hb & Hc & Hd & _)%eight_bytes.
  unfold binary_days, byte_from_end. cbn [length Nat.min seq foldl nth Nat.sub].
  unfold shift_int. change (8 * Z.of_nat 4) with 32. change (8 * Z.of_nat 5) with 40.
  change (8 * Z.of_nat 6) with 48. change (8 * Z.of_nat 7) with 56.
  cbn [Z.ltb Z.compare Pos.compare Pos.compare_cont]. unfold x86_shift.
  change (32 mod 32) with 0. change (40 mod 32) with 8. change (48 mod 32) with 16. change (56 mod 32) with 24.
  rewrite !shiftl_mul, Z.lor_0_l by lia. unfold is_byte in *.
  change (2 ^ 0) with 1. change (2 ^ 8) with 256. change (2 ^ 16) with 65536. change (2 ^ 24) with 16777216.
  rewrite (i32_id (d * 1)), (i32_id (c * 256)), (i32_id (b * 65536)) by (apply in_i32_iff; lia).
  rewrite (i64_id (d * 1)) by (apply in_i64_iff; lia).
  rewrite (Z.lor_comm (d * 1)), (lor_low (c * 256) (d * 1) 8) by (try lia; apply Z.mod_mul; lia).
  rewrite (i64_id (_ + _)) by (apply in_i64_iff; lia).
  rewrite (Z.lor_comm _ (b * 65536)), (lor_low (b * 65536) _ 16) by (try lia; apply Z.mod_mul; lia).
  rewrite (i64_id (_ + _)) by (apply in_i64_iff; lia).
  rewrite (Z.lor_comm _ (i32 _)), (lor_low _ _ 24) by (try apply i32_top; try done; lia).
  assert (i32 (a * 16777216) + (b * 65536 + (c * 256 + d * 1)) = i32 (((a * 256 + b) * 256 + c) * 256 + d)) as ->.
  { rewrite !i32_unfold. div_lia. }
  apply i64_id, in_i64_iff. pose proof (i32_range (((a * 256 + b) * 256 + c) * 256 + d)) as Hr.
  rewrite in_i32_iff in Hr. lia.
Qed.

(** Ticks do not depend on whole hundredths of a second. *)
Lemma to_tick_periodic a us : to_tick (10000 * a + us) = 10000 * a + to_tick us.
Proof.
  unfold to_tick, timestamp_of_ticks, ticks_of.
  replace ((10000 * a + us) / 1000) with (10 * a + us / 1000) by div_lia. set (ms := us / 1000).
  replace (((10 * a + ms) * 3 + 5) / 10) with (3 * a + (ms * 3 + 5) / 10) by div_lia. set (k := (ms * 3 + 5) / 10).
  replace (((3 * a + k) * 10 + 1) / 3) with (10 * a + (k * 10 + 1) / 3) by div_lia. lia.
Qed.

(** The binary form cuts the milliseconds of a tick off; rounding gives them back. *)
Lemma tick_of_binary k : to_tick (k * 10 / 3 * 1000) = (k * 10 + 1) / 3 * 1000.
Proof.
  unfold to_tick, timestamp_of_ticks, ticks_of. rewrite Z.div_mul by lia.
  by replace ((k * 10 / 3 * 3 + 5) / 10) with k by div_lia.
Qed.

Section binary.
Context `{PgCalendarLaws}.

Lemma datetime_common_era t : IS_VALID_DATETIME t = true -> common_era t /\ t <> 252455616000000000.
Proof. unfold IS_VALID_DATETIME, common_era, MIN_DATETIME, END_DATETIME. lia. Qed.

Lemma days_and_ticks_spec t : IS_VALID_DATETIME t = true ->
  days_and_ticks t true = Ok ((t - TSQL_DEFAULT_DATETIME) / USECS_PER_DAY, ticks_of (t mod USECS_PER_DAY)).
Proof.
  intros Hd. destruct (common_era_valid t) as [Hvt Hfin]; [by apply datetime_common_era|].
  unfold days_and_ticks. cbn [negb]. rewrite Hfin.
  destruct (timestamp2tm_law t Hvt) as (tm & fsec & -> & Hv & Et). pose proof Hv as (_ & ? & ? & ? & ?).
  unfold timestamp_of, time_of, USECS_PER_SEC in Et. f_equal.
  unfold IS_VALID_DATETIME, MIN_DATETIME, END_DATETIME, TSQL_DEFAULT_DATETIME, DATEPART_MIN_VALUE, ticks_of, USECS_PER_DAY in *.
  set (d := date_of tm) in *. set (h := tm_hour tm) in *. set (mi := tm_min tm) in *. set (s := tm_sec tm) in *.
  f_equal.
  - case_match; rewrite Z.quot_div_nonneg by lia; div_lia.
  - rewrite (Z.quot_div_nonneg fsec) by lia. rewrite Z.quot_div_nonneg by div_lia.
    do 3 f_equal. div_lia.
Qed.

(** On the grid of .000, .003 and .007 seconds. *)
Definition on_grid (t : Z) : Prop := t mod 10000 = 0 \/ t mod 10000 = 3000 \/ t mod 10000 = 7000.

Lemma to_tick_grid t : on_grid t -> to_tick t = t.
Proof. unfold on_grid, to_tick, timestamp_of_ticks, ticks_of. intros. div_lia. Qed.

(** Days and ticks are what they were written from. *)
Lemma varbinary_datetime_bytes days ticks : -53690 <= days < 2958464 -> 0 <= ticks <= 25920000 ->
  varbinary_datetime x86_shift (be_bytes 4 (u32 days) ++ be_bytes 4 (u32 ticks)) =
  if ticks <? 25920000 then CheckDatetimeRange (TSQL_DEFAULT_DATETIME + days * USECS_PER_DAY + timestamp_of_ticks ticks)
  else Err data_out_of_range_for_datetime.
Proof.
  intros Hdays Hticks. rewrite !be_bytes_4. cbn [app]. unfold varbinary_datetime.
  rewrite binary_time_part_8, binary_days_8 by (repeat constructor; unfold is_byte; div_lia).
  assert (forall z, ((u32 z / 16777216 mod 256 * 256 + u32 z / 65536 mod 256) * 256 + u32 z / 256 mod 256) * 256 +
    u32 z mod 256 = u32 z) as Hu.
  { intros z. unfold u32, uwrap. change (2 ^ 32) with 4294967296. div_lia. }
  rewrite !Hu. unfold u32, uwrap. rewrite (Z.mod_small ticks) by lia.
  assert (i32 (days mod 2 ^ 32) = days) as ->.
  { rewrite i32_unfold. change (2 ^ 32) with 4294967296. div_lia. }
  rewrite Z.quot_div_nonneg by lia. unfold USECS_PER_DAY in *.
  destruct (Z.ltb_spec ticks 25920000) as [Hlt|Hge].
  2: { by rewrite Z.geb_leb, (proj2 (Z.leb_le _ _)) by div_lia. }
  assert ((ticks * 10 / 3 * 1000 >=? 86400000000) = false) as -> by div_lia.
  assert ((if days <? 0 then i64 (MIN_DATETIME + i64 ((Z.land days 0xFFFFFFFF - MIN_DATE_MASK) * 86400000000 + ticks * 10 / 3 * 1000))
    else i64 (TSQL_DEFAULT_DATETIME + i64 (days * 86400000000 + ticks * 10 / 3 * 1000))) =
    TSQL_DEFAULT_DATETIME + days * 86400000000 + ticks * 10 / 3 * 1000) as ->.
  { unfold MIN_DATETIME, MIN_DATE_MASK, TSQL_DEFAULT_DATETIME in *.
    rewrite (land_ones_mod days 32) by done. change (2 ^ 32) with 4294967296.
    assert (0 <= ticks * 10 / 3 * 1000 < 86400000000) as Hus by div_lia. set (us := ticks * 10 / 3 * 1000) in *.
    case_match.
    - assert (days mod 4294967296 = days + 4294967296) as -> by div_lia.
      rewrite (i64_id (_ * _ + us)) by (apply in_i64_iff; lia). rewrite i64_id by (apply in_i64_iff; lia). lia.
    - rewrite (i64_id (_ * _ + us)) by (apply in_i64_iff; lia). rewrite i64_id by (apply in_i64_iff; lia). lia. }
  rewrite roundoff_datetime_ticks by (unfold common_era, TSQL_DEFAULT_DATETIME in *; div_lia). cbn [rbind]. f_equal.
  unfold TSQL_DEFAULT_DATETIME.
  replace (-3155673600000000 + days * 86400000000) with (10000 * (-315567360000 + days * 8640000)) by lia.
  by rewrite to_tick_periodic, tick_of_binary.
Qed.

(** C27: The eight bytes that a DATETIME is cast to, as VARBINARY or as BINARY, are cast back to its tick, which is the value
    itself on the grid of .000, .003 and .007 seconds; from the last millisecond of a day they are refused. The reader shifts
    an [int] by 32 bits and more, which C leaves undefined; the count is taken modulo 32, as on x86. *)
Theorem datetime_binary_roundtrip t : IS_VALID_DATETIME t = true ->
  exists b, datetime_varbinary t (-1) true = Ok b /\ datetime_binary t (-1) true = Ok b /\ length b = 8%nat /\
    varbinary_datetime x86_shift b =
      (if t mod USECS_PER_DAY <? 86399999000 then Ok (to_tick t) else Err data_out_of_range_for_datetime) /\
    (on_grid t -> varbinary_datetime x86_shift b = Ok t).
Proof.
  intros Hd. unfold datetime_varbinary, datetime_binary. rewrite days_and_ticks_spec by done.
  cbn [rbind fst snd]. set (days := (t - _) / _). set (ticks := ticks_of _).
  assert (-53690 <= days < 2958464 /\ 0 <= ticks <= 25920000 /\ (t mod USECS_PER_DAY < 86399999000 <-> ticks < 25920000) /\
    to_tick t = TSQL_DEFAULT_DATETIME + days * USECS_PER_DAY + timestamp_of_ticks ticks) as (Hdays & Hticks & Hlast & Et).
  { clear -Hd. subst days ticks. unfold to_tick, timestamp_of_ticks, ticks_of, IS_VALID_DATETIME, MIN_DATETIME,
      END_DATETIME, TSQL_DEFAULT_DATETIME, USECS_PER_DAY in *. div_lia. }
  pose proof (varbinary_datetime_bytes days ticks Hdays Hticks) as Hv. cbn [Z.ltb Z.gtb Z.compare andb VARHDRSZ Z.add Z.opp Nat.leb]. rewrite !drop_0.
  assert (varbinary_datetime x86_shift (be_bytes 4 (u32 days) ++ be_bytes 4 (u32 ticks)) =
    if t mod USECS_PER_DAY <? 86399999000 then Ok (to_tick t) else Err data_out_of_range_for_datetime) as Hr.
  { rewrite Hv. destruct (Z.ltb_spec ticks 25920000), (Z.ltb_spec (t mod USECS_PER_DAY) 86399999000); [|lia..|done].
    rewrite <- Et. unfold CheckDatetimeRange. replace (IS_VALID_DATETIME (to_tick t)) with true; [done|]. symmetry.
    rewrite Et. unfold IS_VALID_DATETIME, MIN_DATETIME, END_DATETIME, TSQL_DEFAULT_DATETIME, USECS_PER_DAY, timestamp_of_ticks in *. div_lia. }
  eexists. split; [done|]. split; [done|]. split; [by rewrite !be_bytes_4|]. split; [done|]. intros Hg. rewrite Hr, (to_tick_grid t Hg).
  rewrite (proj2 (Z.ltb_lt _ _)); [done|]. unfold on_grid, USECS_PER_DAY in *. div_lia.
Qed.

(** C26: Rounding to DATETIME cuts a timestamp to whole milliseconds and takes the value of the grid nearest to these, the later
    one of two, with the carries into the next second, minute, hour, day, month or year: the nearest one for a whole
    millisecond, and never more than two milliseconds away. *)
Theorem roundoff_datetime_grid t : common_era t -> exists r, roundoff_datetime t = Ok r /\ on_grid r /\
  (forall g, on_grid g -> let m := t / 1000 * 1000 in Z.abs (r - m) < Z.abs (g - m) \/ (Z.abs (r - m) = Z.abs (g - m) /\ g <= r)) /\
  Z.abs (r - t) <= 2000.
Proof.
  intros Ht. exists (to_tick t). rewrite roundoff_datetime_ticks by done. split; [done|].
  unfold on_grid, to_tick, timestamp_of_ticks, ticks_of. set (ms := t / 1000). split; [div_lia|]. split.
  - intros g Hg. cbv zeta. assert (exists k, g = k * 1000) as [k ->] by (exists (g / 1000); div_lia).
    assert (k mod 10 = 0 \/ k mod 10 = 3 \/ k mod 10 = 7) as Hk by div_lia. clear Hg. set (j := ((ms * 3 + 5) / 10 * 10 + 1) / 3).
    enough (Z.abs (j - ms) < Z.abs (k - ms) \/ (Z.abs (j - ms) = Z.abs (k - ms) /\ k <= j)) by lia. subst j. clearbody ms. div_lia.
  - subst ms. div_lia.
Qed.
End binary.

(** ** Values and arithmetic *)

Lemma to_tick_idemp t : to_tick (to_tick t) = to_tick t.
Proof.
  unfold to_tick, timestamp_of_ticks, ticks_of. set (k := (t / 1000 * 3 + 5) / 10). rewrite Z.div_mul by lia.
  by replace (((k * 10 + 1) / 3 * 3 + 5) / 10) with k by div_lia.
Qed.
Lemma to_tick_mono t t' : t <= t' -> to_tick t <= to_tick t'.
Proof.
  intros Ht. unfold to_tick, timestamp_of_ticks, ticks_of. apply Z.mul_le_mono_nonneg_r; [lia|].
  apply Z.div_le_mono; [lia|]. enough ((t / 1000 * 3 + 5) / 10 <= (t' / 1000 * 3 + 5) / 10) by lia.
  apply Z.div_le_mono; [lia|]. pose proof (Z.div_le_mono t t' 1000 ltac:(lia) Ht). lia.
Qed.
Lemma to_tick_near t : -2000 <= to_tick t - t <= 2000.
Proof.
  unfold to_tick, timestamp_of_ticks, ticks_of. div_lia.
Qed.

Section values.
Context `{PgCalendarLaws}.

Lemma default_datetime : initializeToDefaultDatetime = Some TSQL_DEFAULT_DATETIME.
Proof.
  unfold initializeToDefaultDatetime. rewrite tm2timestamp_law; [done| |cbn; lia].
  unfold modest_tm. cbn. lia.
Qed.

(** The conversion to DATETIME accepts exactly the timestamps whose nearest tick lies between
    1753 and 9999, and its values are ticks, at most two milliseconds away, in the order
    of the timestamps. *)
Theorem datetime_conversion t : common_era t -> t <> 252455616000000000 ->
  timestamp_datetime t =
    (if IS_VALID_DATETIME (to_tick t) then Ok (to_tick t) else Err data_out_of_range_for_datetime) /\
  to_tick (to_tick t) = to_tick t /\ -2000 <= to_tick t - t <= 2000 /\
  forall t', t <= t' -> to_tick t <= to_tick t'.
Proof.
  intros Ht Hne. unfold timestamp_datetime. rewrite roundoff_datetime_ticks by done.
  split; [done|]. split; [apply to_tick_idemp|]. split; [apply to_tick_near|apply to_tick_mono].
Qed.

(** Sum and difference of DATETIMEs count from 1900-01-01 and are exact or out of range;
    subtracting gives back what was added. *)
Theorem datetime_sum_exact t1 t2 : IS_VALID_DATETIME t1 = true -> IS_VALID_DATETIME t2 = true ->
  datetime_pl_datetime t1 t2 = CheckDatetimeRange (t1 + (t2 - TSQL_DEFAULT_DATETIME)) /\
  datetime_mi_datetime t1 t2 = CheckDatetimeRange (t1 - (t2 - TSQL_DEFAULT_DATETIME)) /\
  (forall s, datetime_pl_datetime t1 t2 = Ok s -> datetime_mi_datetime s t2 = Ok t1).
Proof.
  intros H1 H2. unfold datetime_pl_datetime, datetime_mi_datetime. rewrite default_datetime. cbn [default id].
  unfold IS_VALID_DATETIME, MIN_DATETIME, END_DATETIME, TSQL_DEFAULT_DATETIME in *.
  rewrite !(i64_id (t2 - _)) by (apply in_i64_iff; lia).
  rewrite (i64_id (t1 + _)), (i64_id (t1 - _)) by (apply in_i64_iff; lia).
  split; [done|]. split; [done|]. intros s. unfold CheckDatetimeRange at 1. case_match eqn:E; [|done].
  intros [= <-]. unfold IS_VALID_DATETIME, MIN_DATETIME, END_DATETIME in E.
  rewrite i64_id by (apply in_i64_iff; lia). unfold CheckDatetimeRange.
  replace (t1 + (t2 - -3155673600000000) - (t2 - -3155673600000000)) with t1 by lia.
  unfold IS_VALID_DATETIME, MIN_DATETIME, END_DATETIME. by if_lia.
Qed.

(** Adding days keeps the time of day. *)
Theorem datetime_plus_days t days : IS_VALID_DATETIME t = true -> in_i32 days = true ->
  datetime_pl_int4 t days =
  (if IS_VALID_DATETIME (t + days * USECS_PER_DAY) then Ok (t + days * USECS_PER_DAY)
   else if valid_timestamp (t + days * USECS_PER_DAY) then Err data_out_of_range_for_datetime
   else Err datetime_out_of_range).
Proof.
  intros Ht Hd. destruct (common_era_valid t) as [Hvt Hfin]; [by apply datetime_common_era|].
  unfold datetime_pl_int4. rewrite Hfin, make_interval_days by done. cbn [or_range rbind].
  rewrite timestamp_pl_days by done. unfold in_range, CheckDatetimeRange.
  case_match eqn:Ev; cbn [or_range rbind]; [done|]. case_match eqn:Ei; [|done].
  destruct (common_era_valid (t + days * USECS_PER_DAY)) as [Hv _]; [by apply datetime_common_era|congruence].
Qed.
End values.

(** ** What the checks do not catch *)

(** The product of a date and the length of a day is not checked before it is stored in 64 bits: a
    date of the year 586580 becomes a DATETIME in December 1999. *)
Theorem date_datetime_wraps :
  let dateVal := 213503982 in
  in_i32 dateVal = true /\ in_i64 (dateVal * USECS_PER_DAY) = false /\
  date_datetime dateVal = Ok (-28909551616).
Proof. by vm_compute. Qed.

(** A sum of two DATETIMEs is not rounded: 3 ms and 3 ms after midnight give 6 ms, which is not a
    tick of 1/300 s. *)
Theorem datetime_sum_off_grid :
  let t := TSQL_DEFAULT_DATETIME + 3000 in
  to_tick t = t /\ datetime_pl_datetime t t = Ok (TSQL_DEFAULT_DATETIME + 6000) /\
  to_tick (TSQL_DEFAULT_DATETIME + 6000) <> TSQL_DEFAULT_DATETIME + 6000.
Proof. by vm_compute. Qed.

(** The microseconds are cut off before rounding: 1.998999 s becomes 1.997 s, although 2 s is nearer. *)
Theorem roundoff_datetime_truncates : roundoff_datetime 1998999 = Ok 1997000 /\ Z.abs (2000000 - 1998999) < Z.abs (1997000 - 1998999).
Proof. by vm_compute. Qed.

(** A value off the grid comes back changed from its binary form. *)
Theorem datetime_binary_moves : exists b, datetime_varbinary (TSQL_DEFAULT_DATETIME + 6000) (-1) true = Ok b /\
  varbinary_datetime x86_shift b = Ok (TSQL_DEFAULT_DATETIME + 7000).
Proof. eexists. split; [vm_compute; reflexivity|by vm_compute]. Qed.

(** A processor that shifts the bits out loses the days, which become 1900-01-01. *)
Theorem datetime_binary_needs_x86 : exists b, datetime_varbinary 0 (-1) true = Ok b /\
  varbinary_datetime x86_shift b = Ok 0 /\ varbinary_datetime (fun _ _ => 0) b = Ok TSQL_DEFAULT_DATETIME.
Proof. eexists. split; [vm_compute; reflexivity|by vm_compute]. Qed.

(** Below zero the digit is negative and every non-zero one is rounded up to ten. *)
Lemma roundFractionalSeconds_negative ms : ms < 0 -> Z.rem ms 10 < -1 -> roundFractionalSeconds ms = ms - Z.rem ms 10 + 10.
Proof. intros Hms Hr. unfold roundFractionalSeconds. by destruct (Z.rem ms 10). Qed.

(** ** Concrete inputs *)

Lemma roundoff_datetime_grid_witness : common_era 5000 /\ exists r, roundoff_datetime 5000 = Ok r /\ on_grid r /\ Z.abs (r - 5000) <= 2000.
Proof.
  assert (common_era 5000) as Hc by (unfold common_era; lia). split; [exact Hc|].
  destruct (roundoff_datetime_grid 5000 Hc) as (r & Er & Hg & _ & Hn). exists r. split; [exact Er|]. split; [exact Hg|exact Hn].
Defined.

Lemma datetime_binary_roundtrip_witness : exists b, datetime_varbinary (-3155673600000000 - 3000) (-1) true = Ok b /\
  length b = 8%nat /\ varbinary_datetime x86_shift b = Ok (-3155673600000000 - 3000).
Proof.
  destruct (datetime_binary_roundtrip (-3155673600000000 - 3000)) as (b & Hb & _ & Hl & _ & Hg); [by vm_compute|].
  exists b. split; [done|]. split; [done|]. apply Hg. right; right. reflexivity.
Defined.

Lemma datetime_conversion_witness : common_era (-1) /\ timestamp_datetime (-1) = Ok 0.
Proof.
  assert (common_era (-1)) as Hc by (unfold common_era; lia). split; [exact Hc|].
  rewrite (proj1 (datetime_conversion (-1) Hc ltac:(lia))). by vm_compute.
Defined.

Lemma datetime_sum_exact_witness : IS_VALID_DATETIME 86400000000 = true /\
  datetime_mi_datetime 86400000000 86400000000 = Ok TSQL_DEFAULT_DATETIME.
Proof.
  assert (IS_VALID_DATETIME 86400000000 = true) as Hv by (by vm_compute). split; [exact Hv|].
  rewrite (proj1 (proj2 (datetime_sum_exact _ _ Hv Hv))). by vm_compute.
Defined.

Lemma datetime_plus_days_witness : IS_VALID_DATETIME 5 = true /\ datetime_pl_int4 5 (-3) = Ok (5 - 3 * USECS_PER_DAY).
Proof.
  assert (IS_VALID_DATETIME 5 = true) as Hv by (by vm_compute). split; [exact Hv|].
  rewrite (datetime_plus_days 5 (-3) Hv); by vm_compute.
Defined.
