(* ===== verification/Datetime2.v ===== *)
(** * Datetime2: the types DATETIME2 and SMALLDATETIME
    ([babelfishpg_common/src/datetime2.c], [smalldatetime.c])

    Timestamps of the server, rounded to a declared number of fractional digits or to
    minutes. *)
From Stdlib Require QArith.
From stdpp Require Import base list numbers.
From S2P Require Import Prelude BitFacts SoftFloat Calendar Datetime.

(** ** DATETIME2 *)

Definition MAX_DATETIME2_PRECISION : Z := 7.
Definition MIN_DATETIME2 : Z := -63082281600000000.
Definition END_DATETIME2 : Z := 252455616000000000.
Definition IS_VALID_DATETIME2 (t : Z) : bool := (MIN_DATETIME2 <=? t) && (t <? END_DATETIME2).

Inductive dt2_error :=
| precision_must_be_between (typmod : Z)
| data_out_of_range_for_datetime2
| data_out_of_range_for_smalldatetime
| timestamp_error.

Definition TimestampScales : list Z := [1000000; 100000; 10000; 1000; 100; 10; 1; 1].
Definition TimestampOffsets : list Z := [500000; 50000; 5000; 500; 50; 5; 0; 0].
Definition TimestampOffsetsNegative : list Z := [499999; 49999; 4999; 499; 49; 4; 0; 0].

Definition AdjustDatetime2ForTypmod (time typmod : Z) : result dt2_error Z :=
  if negb (TIMESTAMP_NOT_FINITE time) && negb (typmod =? -1) then
    if (typmod <? 0) || (typmod >? MAX_DATETIME2_PRECISION) then Err (precision_must_be_between typmod)
    else
      let scale := nth (Z.to_nat typmod) TimestampScales 1 in
      if time >=? 0 then
        let adjustedTime := (time + nth (Z.to_nat typmod) TimestampOffsets 0) ÷ scale * scale in
        if adjustedTime <? END_DATETIME2 then Ok adjustedTime else Ok (time ÷ scale * scale)
      else Ok (- ((- time + nth (Z.to_nat typmod) TimestampOffsetsNegative 0) ÷ scale * scale))
  else Ok time.

Definition CheckDatetime2Range (time : Z) : result dt2_error Z :=
  if IS_VALID_DATETIME2 time then Ok time else Err data_out_of_range_for_datetime2.

Definition datetime2_scale (t typmod : Z) : result dt2_error Z := AdjustDatetime2ForTypmod t typmod.

Section datetime2.
Context `{PgCalendar} `{PgInt}.

Definition date_datetime2 (dateVal : Z) : result dt2_error Z :=
  if dateVal =? DATEVAL_NOBEGIN then Ok DT_NOBEGIN
  else if dateVal =? DATEVAL_NOEND then Ok DT_NOEND
  else
    let '(o, product) := pg_mul_s64_overflow dateVal USECS_PER_DAY in
    if o || negb (IS_VALID_DATETIME2 product) then Err data_out_of_range_for_datetime2 else Ok product.

Definition time_datetime2 (timeVal : Z) : result dt2_error Z :=
  let '(h, mi, s, fsec) := time2tm timeVal in
  match tm2timestamp (default_tm h mi s) fsec None with
  | Some r => Ok r
  | None => Err data_out_of_range_for_datetime2
  end.

Definition timestamp_datetime2 (t : Z) : result dt2_error Z := CheckDatetime2Range t.

Definition local_timestamp (err : dt2_error) (timestamp : Z) : result dt2_error Z :=
  if TIMESTAMP_NOT_FINITE timestamp then Ok timestamp
  else match timestamptz2tm timestamp with
       | None => Err err
       | Some (tm, fsec, tz) =>
           match tm2timestamp tm fsec None with Some r => Ok r | None => Err err end
       end.

Definition timestamptz_datetime2 (timestamp : Z) : result dt2_error Z :=
  let! r := local_timestamp data_out_of_range_for_datetime2 timestamp in CheckDatetime2Range r.

(** ** SMALLDATETIME *)

(** 1899-12-31 23:59:29.999 and 2079-06-06 23:59:29.999. *)
Definition smalldatetime_lower_bound : Z := -3155673630001000.
Definition smalldatetime_upper_bound : Z := 2506636769999000.

Definition CheckSmalldatetimeRange (time : Z) : result dt2_error Z :=
  if (time <? smalldatetime_lower_bound) || (time >=? smalldatetime_upper_bound)
  then Err data_out_of_range_for_smalldatetime else Ok time.

Definition AdjustTimestampForSmallDatetime (time : Z) : Z :=
  if time >=? 0 then
    if Z.rem time USECS_PER_MINUTE >=? 29999000
    then time ÷ USECS_PER_MINUTE * USECS_PER_MINUTE + USECS_PER_MINUTE
    else time ÷ USECS_PER_MINUTE * USECS_PER_MINUTE
  else
    if Z.rem (- time) USECS_PER_MINUTE <=? 30001000
    then time ÷ USECS_PER_MINUTE * USECS_PER_MINUTE
    else time ÷ USECS_PER_MINUTE * USECS_PER_MINUTE - USECS_PER_MINUTE.

Definition time_smalldatetime (timeVal : Z) : result dt2_error Z :=
  let '(h, mi, s, fsec) := time2tm timeVal in
  match tm2timestamp (default_tm h mi s) fsec None with
  | Some r => Ok (AdjustTimestampForSmallDatetime r)
  | None => Err data_out_of_range_for_smalldatetime
  end.

Definition date_smalldatetime (dateVal : Z) : result dt2_error Z :=
  CheckSmalldatetimeRange (if dateVal =? DATEVAL_NOBEGIN then DT_NOBEGIN
                           else if dateVal =? DATEVAL_NOEND then DT_NOEND
                           else i64 (dateVal * USECS_PER_DAY)).

Definition timestamp_smalldatetime (t : Z) : result dt2_error Z :=
  let! t := CheckSmalldatetimeRange t in Ok (AdjustTimestampForSmallDatetime t).

Definition timestamptz_smalldatetime (timestamp : Z) : result dt2_error Z :=
  let! r := local_timestamp data_out_of_range_for_smalldatetime timestamp in
  let! r := CheckSmalldatetimeRange r in Ok (AdjustTimestampForSmallDatetime r).

Definition or_timestamp_error {A} (x : option A) : result dt2_error A :=
  match x with Some a => Ok a | None => Err timestamp_error end.

Definition smalldatetime_pl_int4 (timestamp days : Z) : result dt2_error Z :=
  if TIMESTAMP_NOT_FINITE timestamp then Ok timestamp
  else
    let! input_interval := or_timestamp_error (make_interval 0 0 0 days 0 0 (QArith_base.inject_Z 0)) in
    let! r := or_timestamp_error (timestamp_pl_interval timestamp input_interval) in
    CheckSmalldatetimeRange r.

Definition int4_pl_smalldatetime (days timestamp : Z) : result dt2_error Z := smalldatetime_pl_int4 timestamp days.
Definition smalldatetime_mi_int4 (timestamp days : Z) : result dt2_error Z :=
  smalldatetime_pl_int4 timestamp (i32 (- days)).

(** An [int] minus a value: its days from 1900-01-01 on less the value, counted from 1900-01-01 again. *)
Definition int4_mi_smalldatetime (days timestamp_right : Z) : result dt2_error Z :=
  if TIMESTAMP_NOT_FINITE timestamp_right then Ok timestamp_right
  else
    let! default_timestamp := or_timestamp_error (make_timestamp 1900 1 1 0 0 0) in
    let! input_interval := or_timestamp_error (make_interval 0 0 0 days 0 0 (QArith_base.inject_Z 0)) in
    let! timestamp_left := or_timestamp_error (timestamp_pl_interval default_timestamp input_interval) in
    let! result_interval := or_timestamp_error (timestamp_mi timestamp_left timestamp_right) in
    let! r := or_timestamp_error (timestamp_pl_interval default_timestamp result_interval) in
    CheckSmalldatetimeRange r.

(** The operators with a finite double: its whole days, and the whole seconds of its fraction.  [bad_cast] is the
    [int32] of a double outside of its range. *)
Definition SECS_PER_DAY : Z := 86400.
Definition days_and_seconds (bad_cast : Z) (days : QArith_base.Q) : Z * Z :=
  let day_whole := trunc days in
  let day_fract := QArith_base.Qminus days (QArith_base.inject_Z day_whole) in
  let sec_whole := trunc (dmul (QArith_base.inject_Z SECS_PER_DAY) day_fract) in
  (if in_i32 day_whole then day_whole else bad_cast, sec_whole).

Definition smalldatetime_pl_float8 (bad_cast timestamp : Z) (days : QArith_base.Q) : result dt2_error Z :=
  if TIMESTAMP_NOT_FINITE timestamp then Ok timestamp
  else
    let x := days_and_seconds bad_cast days in
    let! input_interval := or_timestamp_error (make_interval 0 0 0 x.1 0 0 (QArith_base.inject_Z x.2)) in
    let! r := or_timestamp_error (timestamp_pl_interval timestamp input_interval) in
    CheckSmalldatetimeRange r.
Definition float8_pl_smalldatetime (bad_cast : Z) (days : QArith_base.Q) (timestamp : Z) : result dt2_error Z :=
  smalldatetime_pl_float8 bad_cast timestamp days.

Definition smalldatetime_mi_float8 (bad_cast timestamp : Z) (days : QArith_base.Q) : result dt2_error Z :=
  if TIMESTAMP_NOT_FINITE timestamp then Ok timestamp
  else
    let x := days_and_seconds bad_cast days in
    let! input_interval := or_timestamp_error (make_interval 0 0 0 x.1 0 0 (QArith_base.inject_Z x.2)) in
    let! r := or_timestamp_error (timestamp_mi_interval timestamp input_interval) in
    CheckSmalldatetimeRange r.

Definition float8_mi_smalldatetime (bad_cast : Z) (days : QArith_base.Q) (timestamp_right : Z) : result dt2_error Z :=
  if TIMESTAMP_NOT_FINITE timestamp_right then Ok timestamp_right
  else
    let x := days_and_seconds bad_cast days in
    let! default_timestamp := or_timestamp_error (make_timestamp 1900 1 1 0 0 0) in
    let! input_interval := or_timestamp_error (make_interval 0 0 0 x.1 0 0 (QArith_base.inject_Z x.2)) in
    let! timestamp_left := or_timestamp_error (timestamp_pl_interval default_timestamp input_interval) in
    let! result_interval := or_timestamp_error (timestamp_mi timestamp_left timestamp_right) in
    let! r := or_timestamp_error (timestamp_pl_interval default_timestamp result_interval) in
    CheckSmalldatetimeRange r.

Definition smalldatetime_pl_smalldatetime (timestamp1 timestamp2 : Z) : result dt2_error Z :=
  let diff := i64 (timestamp2 - default 0 initializeToDefaultDatetime) in
  CheckSmalldatetimeRange (i64 (timestamp1 + diff)).
Definition smalldatetime_mi_smalldatetime (timestamp1 timestamp2 : Z) : result dt2_error Z :=
  let diff := i64 (timestamp2 - default 0 initializeToDefaultDatetime) in
  CheckSmalldatetimeRange (i64 (timestamp1 - diff)).
End datetime2.
