(* ===== verification/Datediff.v ===== *)
(** * Datediff: DATEDIFF and DATEADD ([babelfishpg_common/src/datetime.c])

    [timestamp_diff] and [timestamp_diff_big] are the same computation with 32-bit and 64-bit
    integers; the server's overflow-checked operations are parameters. *)
From Stdlib Require Import String.
From Stdlib Require QArith.
From stdpp Require Import base list numbers.
From S2P Require Import Prelude BitFacts SoftFloat Calendar Datetime Datetime2.

(** Dateparts as [DecodeUnits] returns them. *)
Inductive dtk :=
| DTK_YEAR | DTK_QUARTER | DTK_MONTH | DTK_WEEK | DTK_DAY | DTK_DOY | DTK_HOUR | DTK_MINUTE
| DTK_SECOND | DTK_MILLISEC | DTK_MICROSEC | DTK_NANO | DTK_OTHER.

(** Days of the months before [month]. *)
Fixpoint months_before (n : nat) : Z :=
  match n with
  | O => 0
  | S i => months_before i +
      (let i := Z.of_nat (S i) in
       if i =? 2 then 28 else if (i =? 4) || (i =? 6) || (i =? 9) || (i =? 11) then 30 else 31)
  end.

Definition days_in_date (day month year : Z) : Z :=
  let n1 := year * 365 + day + months_before (Z.to_nat (month - 1)) in
  let year := if month <=? 2 then year - 1 else year in
  i32 (n1 + (year ÷ 4 - year ÷ 100 + year ÷ 400)).

Section diff.
Context `{PgCalendar} `{PgInt}.
(** [DecodeUnits]: the datepart, when the word is a unit. *)
Variable DecodeUnits : bytes -> option dtk.

Definition int32_multiply_add (val multiplier sum : Z) : option Z :=
  let '(o, product) := pg_mul_s32_overflow val multiplier in
  if o then None else let '(o, sum) := pg_add_s32_overflow sum product in if o then None else Some sum.

Definition int64_multiply_add (val multiplier sum : Z) : option Z :=
  let '(o, product) := pg_mul_s64_overflow val multiplier in
  if o then None else let '(o, sum) := pg_add_s64_overflow sum product in if o then None else Some sum.

Definition int32_multiply (a b : Z) : option Z :=
  let '(o, product) := pg_mul_s32_overflow a b in if o then None else Some product.
Definition int64_multiply (a b : Z) : option Z :=
  let '(o, product) := pg_mul_s64_overflow a b in if o then None else Some product.

(** The names that [DecodeUnits] does not know. *)
Definition decode_datediff (lowunits : bytes) : option dtk :=
  let val := DecodeUnits lowunits in
  let val := if bool_decide (lowunits = bytes_of_string "doy") then Some DTK_DOY else val in
  let val := if bool_decide (lowunits = bytes_of_string "nanosecond") then Some DTK_NANO else val in
  if bool_decide (lowunits = bytes_of_string "weekday") then Some DTK_DAY else val.

Section width.
Variable multiply_add : Z -> Z -> Z -> option Z.
Variable multiply : Z -> Z -> option Z.

Definition day_diff (tm1 tm2 : pg_tm) : Z :=
  days_in_date (tm_mday tm2) (tm_mon tm2) (tm_year tm2) - days_in_date (tm_mday tm1) (tm_mon tm1) (tm_year tm1).

Definition quarter_diff (tm1 tm2 : pg_tm) : Z :=
  let yeardiff := tm_year tm2 - tm_year tm1 in
  let monthdiff := tm_mon tm2 - tm_mon tm1 in
  let diff := (yeardiff * 12 + monthdiff) ÷ 3 in
  let q1 := Z.rem (tm_mon tm1 - 1) 3 in
  let q2 := Z.rem (tm_mon tm2 - 1) 3 in
  if Z.rem monthdiff 3 >? 0 then
    if (yeardiff >=? 0) && (q1 >? q2) then diff + 1
    else if (yeardiff <? 0) && (q1 <? q2) then diff - 1 else diff
  else if Z.rem monthdiff 3 <? 0 then
    if (yeardiff >? 0) && (q1 >? q2) then diff + 1
    else if (yeardiff <=? 0) && (q1 <? q2) then diff - 1 else diff
  else diff.

Definition week_diff (tm1 tm2 : pg_tm) : Z :=
  let days_in_timestamp1 := days_in_date (tm_mday tm1) (tm_mon tm1) (tm_year tm1) in
  let days_in_timestamp2 := days_in_date (tm_mday tm2) (tm_mon tm2) (tm_year tm2) in
  let daydiff := days_in_timestamp2 - days_in_timestamp1 in
  let diff := daydiff ÷ 7 in
  if Z.rem (Z.abs daydiff) 7 >? Z.rem (Z.max days_in_timestamp1 days_in_timestamp2 - 1) 7
  then if daydiff <? 0 then diff - 1 else diff + 1
  else diff.

Definition hour_diff (tm1 tm2 : pg_tm) : option Z :=
  multiply_add (day_diff tm1 tm2) 24 (tm_hour tm2 - tm_hour tm1).
Definition minute_diff (tm1 tm2 : pg_tm) : option Z :=
  hourdiff ← hour_diff tm1 tm2; multiply_add hourdiff 60 (tm_min tm2 - tm_min tm1).
Definition second_diff (tm1 tm2 : pg_tm) : option Z :=
  minutediff ← minute_diff tm1 tm2; multiply_add minutediff 60 (tm_sec tm2 - tm_sec tm1).
Definition millisec_diff (tm1 tm2 : pg_tm) (fsec1 fsec2 : Z) : option Z :=
  seconddiff ← second_diff tm1 tm2; multiply_add seconddiff 1000 (fsec2 ÷ 1000 - fsec1 ÷ 1000).
Definition microsec_diff (tm1 tm2 : pg_tm) (fsec1 fsec2 : Z) : option Z :=
  seconddiff ← second_diff tm1 tm2; multiply_add seconddiff 1000000 (fsec2 - fsec1).
Definition nanosec_diff (tm1 tm2 : pg_tm) (fsec1 fsec2 : Z) : option Z :=
  microsecdiff ← microsec_diff tm1 tm2 fsec1 fsec2; multiply microsecdiff 1000.

Definition or_overflows (x : option Z) : result dt_error Z :=
  match x with Some d => Ok d | None => Err function_resulted_in_overflow end.

(** The switch of both functions. *)
Definition diff_switch (val : dtk) (tm1 tm2 : pg_tm) (fsec1 fsec2 : Z) : result dt_error Z :=
  match val with
  | DTK_YEAR => Ok (tm_year tm2 - tm_year tm1)
  | DTK_QUARTER => Ok (quarter_diff tm1 tm2)
  | DTK_MONTH => Ok ((tm_year tm2 - tm_year tm1) * 12 + (tm_mon tm2 - tm_mon tm1))
  | DTK_WEEK => Ok (week_diff tm1 tm2)
  | DTK_DAY | DTK_DOY => Ok (day_diff tm1 tm2)
  | DTK_HOUR => or_overflows (hour_diff tm1 tm2)
  | DTK_MINUTE => or_overflows (minute_diff tm1 tm2)
  | DTK_SECOND => or_overflows (second_diff tm1 tm2)
  | DTK_MILLISEC => or_overflows (millisec_diff tm1 tm2 fsec1 fsec2)
  | DTK_MICROSEC => or_overflows (microsec_diff tm1 tm2 fsec1 fsec2)
  | DTK_NANO => or_overflows (nanosec_diff tm1 tm2 fsec1 fsec2)
  | DTK_OTHER => Err not_a_recognized_option
  end.

Definition diff_of (lowunits : bytes) (timestamp1 timestamp2 : Z) : result dt_error Z :=
  match decode_datediff lowunits with
  | None => Err not_a_recognized_option
  | Some val =>
      match timestamp2tm timestamp1, timestamp2tm timestamp2 with
      | Some (tm1, fsec1), Some (tm2, fsec2) => diff_switch val tm1 tm2 fsec1 fsec2
      | _, _ => Err datetime_out_of_range
      end
  end.
End width.

Definition timestamp_diff : bytes -> Z -> Z -> result dt_error Z := diff_of int32_multiply_add int32_multiply.
Definition timestamp_diff_big : bytes -> Z -> Z -> result dt_error Z := diff_of int64_multiply_add int64_multiply.

(** ** DATEADD *)

Inductive Datetimetype := TIME | DATE | SMALLDATETIME | DATETIME | DATETIME2.

Definition decode_dateadd (lowunits : bytes) : option dtk :=
  let val := DecodeUnits lowunits in
  let val := if bool_decide (lowunits = bytes_of_string "doy") || bool_decide (lowunits = bytes_of_string "dayofyear")
             then Some DTK_DOY else val in
  let val := if bool_decide (lowunits = bytes_of_string "nanosecond") then Some DTK_NANO else val in
  if bool_decide (lowunits = bytes_of_string "weekday") then Some DTK_DAY else val.

Definition is_time (t : Datetimetype) : bool := match t with TIME => true | _ => false end.
Definition is_date (t : Datetimetype) : bool := match t with DATE => true | _ => false end.
Definition coarse (t : Datetimetype) : bool :=
  match t with SMALLDATETIME | DATETIME | DATE => true | _ => false end.

(** Seconds as the code computes them: the number is cut to a [float] first. *)
Definition float_seconds (num : Z) (unit : QArith_base.Q) : QArith_base.Q :=
  dmul (single (QArith_base.inject_Z num)) (double unit).

(** The interval to add; an error of [make_interval] is reported as an overflow. *)
Definition dateadd_interval (val : dtk) (num : Z) (dttype : Datetimetype) : result dt_error Interval :=
  let caught x := match x with Some i => Ok i | None => Err adding_caused_overflow end in
  let zero := QArith_base.inject_Z 0 in
  match val with
  | DTK_YEAR => if is_time dttype then Err datepart_not_supported else caught (make_interval num 0 0 0 0 0 zero)
  | DTK_QUARTER =>
      if is_time dttype then Err datepart_not_supported else caught (make_interval 0 (i32 (num * 3)) 0 0 0 0 zero)
  | DTK_MONTH => if is_time dttype then Err datepart_not_supported else caught (make_interval 0 num 0 0 0 0 zero)
  | DTK_WEEK => if is_time dttype then Err datepart_not_supported else caught (make_interval 0 0 num 0 0 0 zero)
  | DTK_DAY | DTK_DOY =>
      if is_time dttype then Err datepart_not_supported else caught (make_interval 0 0 0 num 0 0 zero)
  | DTK_HOUR => if is_date dttype then Err datepart_not_supported else caught (make_interval 0 0 0 0 num 0 zero)
  | DTK_MINUTE => if is_date dttype then Err datepart_not_supported else caught (make_interval 0 0 0 0 0 num zero)
  | DTK_SECOND =>
      if is_date dttype then Err datepart_not_supported
      else caught (make_interval 0 0 0 0 0 0 (double (QArith_base.inject_Z num)))
  | DTK_MILLISEC =>
      if is_date dttype then Err datepart_not_supported
      else caught (make_interval 0 0 0 0 0 0 (float_seconds num (QArith_base.Qmake 1 1000)))
  | DTK_MICROSEC =>
      if coarse dttype then Err datepart_not_supported
      else caught (make_interval 0 0 0 0 0 0 (float_seconds num (QArith_base.Qmake 1 1000000)))
  | DTK_NANO =>
      if coarse dttype then Err datepart_not_supported
      else caught (make_interval 0 0 0 0 0 0 (float_seconds (num ÷ 1000 * 1000) (QArith_base.Qmake 1 1000000000)))
  | DTK_OTHER => Err not_a_recognized_option
  end.

(** A TIME or DATE is converted to DATETIME2 first. *)
Definition dateadd_start (value : Z) (dttype : Datetimetype) : result dt_error Z :=
  match (match dttype with TIME => time_datetime2 value | DATE => date_datetime2 value | _ => Ok value end) with
  | Ok t => Ok t
  | Err _ => Err datetime_out_of_range
  end.

Definition dateadd_datetime (lowunits : bytes) (num value : Z) (dttype : Datetimetype) : result dt_error Z :=
  let! timestamp := dateadd_start value dttype in
  match decode_dateadd lowunits with
  | None => Err not_a_recognized_option
  | Some val =>
      let! interval := dateadd_interval val num dttype in
      match timestamp_pl_interval timestamp interval with
      | Some r => if IS_VALID_DATETIME r then Ok r else Err adding_caused_overflow
      | None => Err adding_caused_overflow
      end
  end.
End diff.
