(* ===== verification/DatetimeOffset.v ===== *)
(** * DatetimeOffset: the type DATETIMEOFFSET ([babelfishpg_common/src/datetimeoffset.c])

    A value is the local time and the minutes that lead from it to UTC, positive west
    of Greenwich. *)
From Stdlib Require Import String.
From Stdlib Require QArith.
From stdpp Require Import base list numbers.
From S2P Require Import Prelude BitFacts SoftFloat Calendar Datetime Datetime2 Datediff.

Record tsql_datetimeoffset := mk_dto { tsql_ts : Z; tsql_tz : Z }.

Definition DATETIMEOFFSET_DEFAULT_TS : Z := -3155673600000000.
Definition DATETIMEOFFSET_TIMEZONE_LIMIT : Z := 841.
Definition MAX_TIMESTAMP_PRECISION : Z := 6.

Inductive dto_error :=
| datetimeoffset_out_of_range
| data_out_of_range_for_datetimeoffset
| datetimeoffset_precision (typmod : Z)
| time_zone_out_of_range
| dateadd_not_recognized
| dateadd_overflow
| other_type (e : dt2_error)
| datetime_type (e : dt_error).

(** UTC. *)
Definition datetimeoffset_timestamp_internal (df : tsql_datetimeoffset) : Z :=
  i64 (tsql_ts df + tsql_tz df * 60 * USECS_PER_SEC).

Definition CheckDatetimeoffsetRange (df : tsql_datetimeoffset) : result dto_error tsql_datetimeoffset :=
  let time := datetimeoffset_timestamp_internal df in
  if (time <? -63082281600000000) || (time >=? 252455616000000000)
  then Err data_out_of_range_for_datetimeoffset else Ok df.

Definition AdjustDatetimeoffsetForTypmod (time typmod : Z) : result dto_error Z :=
  if negb (TIMESTAMP_NOT_FINITE time) && negb (typmod =? -1) && negb (typmod =? MAX_TIMESTAMP_PRECISION) then
    if (typmod <? 0) || (typmod >? MAX_TIMESTAMP_PRECISION) then Err (datetimeoffset_precision typmod)
    else
      let scale := nth (Z.to_nat typmod) TimestampScales 1 in
      if time >=? 0
      then Ok ((time + nth (Z.to_nat typmod) TimestampOffsets 0) ÷ scale * scale)
      else Ok (- ((- time + nth (Z.to_nat typmod) TimestampOffsetsNegative 0) ÷ scale * scale))
  else Ok time.

Definition datetimeoffset_scale (df : tsql_datetimeoffset) (typmod : Z) : result dto_error tsql_datetimeoffset :=
  let! ts := AdjustDatetimeoffsetForTypmod (tsql_ts df) typmod in Ok (mk_dto ts (tsql_tz df)).

(** ** Comparison *)

Definition datetimeoffset_cmp_internal (df1 df2 : tsql_datetimeoffset) : Z :=
  let t1 := datetimeoffset_timestamp_internal df1 in
  let t2 := datetimeoffset_timestamp_internal df2 in
  if t1 <? t2 then -1 else if t1 >? t2 then 1 else 0.

Definition datetimeoffset_eq df1 df2 : bool := datetimeoffset_cmp_internal df1 df2 =? 0.
Definition datetimeoffset_ne df1 df2 : bool := negb (datetimeoffset_cmp_internal df1 df2 =? 0).
Definition datetimeoffset_lt df1 df2 : bool := datetimeoffset_cmp_internal df1 df2 <? 0.
Definition datetimeoffset_gt df1 df2 : bool := datetimeoffset_cmp_internal df1 df2 >? 0.
Definition datetimeoffset_le df1 df2 : bool := datetimeoffset_cmp_internal df1 df2 <=? 0.
Definition datetimeoffset_ge df1 df2 : bool := datetimeoffset_cmp_internal df1 df2 >=? 0.
Definition datetimeoffset_cmp df1 df2 : Z := datetimeoffset_cmp_internal df1 df2.
Definition datetimeoffset_smaller df1 df2 : tsql_datetimeoffset :=
  if datetimeoffset_cmp_internal df1 df2 <? 0 then df1 else df2.
Definition datetimeoffset_larger df1 df2 : tsql_datetimeoffset :=
  if datetimeoffset_cmp_internal df1 df2 >? 0 then df1 else df2.

(** The hash of the bytes of a copy whose padding is zero: 16 bytes on 64-bit machines. *)
Definition datetimeoffset_hash (hash_any : bytes -> Z) (df : tsql_datetimeoffset) : Z :=
  hash_any (le_bytes 8 (tsql_ts df) ++ le_bytes 2 (tsql_tz df) ++ replicate 6 0).

(** ** Binary messages *)

Definition datetimeoffset_send `{PgFormat} (pq_sendint16 : bytes -> Z -> bytes) (df : tsql_datetimeoffset) : bytes :=
  pq_sendint16 (pq_sendint64 [] (tsql_ts df)) (tsql_tz df).

Definition datetimeoffset_recv `{PgFormat} (pq_getmsgint16 : bytes -> option (Z * bytes)) (buf : bytes) (typmod : Z)
    : option (result dto_error tsql_datetimeoffset) :=
  x ← pq_getmsgint64 buf;
  y ← pq_getmsgint16 x.2;
  let tz := i16 y.1 in
  Some (if (tz <=? - DATETIMEOFFSET_TIMEZONE_LIMIT) || (tz >=? DATETIMEOFFSET_TIMEZONE_LIMIT)
        then Err time_zone_out_of_range
        else let! ts := AdjustDatetimeoffsetForTypmod x.1 typmod in CheckDatetimeoffsetRange (mk_dto ts tz)).

(** ** Conversions *)

Section offset.
Context `{PgCalendar} `{PgInt}.

Definition of_dt2 {A} (x : result dt2_error A) : result dto_error A :=
  match x with Ok a => Ok a | Err e => Err (other_type e) end.
Definition of_dt {A} (x : result dt_error A) : result dto_error A :=
  match x with Ok a => Ok a | Err e => Err (datetime_type e) end.

Definition timestamp_datetimeoffset (time : Z) : result dto_error tsql_datetimeoffset :=
  CheckDatetimeoffsetRange (mk_dto time 0).
Definition smalldatetime_datetimeoffset (time : Z) : result dto_error tsql_datetimeoffset :=
  CheckDatetimeoffsetRange (mk_dto time 0).
Definition datetime_datetimeoffset (time : Z) : result dto_error tsql_datetimeoffset :=
  CheckDatetimeoffsetRange (mk_dto time 0).
Definition datetime2_datetimeoffset (time : Z) : result dto_error tsql_datetimeoffset :=
  CheckDatetimeoffsetRange (mk_dto time 0).
(** The cast to [int16] binds tighter than the division. *)
Definition timestamptz_datetimeoffset (timestamp : Z) : result dto_error tsql_datetimeoffset :=
  if TIMESTAMP_NOT_FINITE timestamp then CheckDatetimeoffsetRange (mk_dto timestamp 0)
  else match timestamptz2tm timestamp with
       | None => Err data_out_of_range_for_datetimeoffset
       | Some (tm, fsec, tz) =>
           match tm2timestamp tm fsec None with
           | None => Err data_out_of_range_for_datetimeoffset
           | Some time => CheckDatetimeoffsetRange (mk_dto time (i16 tz ÷ 60))
           end
       end.
Definition date_datetimeoffset (dateVal : Z) : result dto_error tsql_datetimeoffset :=
  CheckDatetimeoffsetRange (mk_dto (i64 (dateVal * USECS_PER_DAY)) 0).
Definition time_datetimeoffset (time : Z) : tsql_datetimeoffset := mk_dto (DATETIMEOFFSET_DEFAULT_TS + time) 0.

Definition datetimeoffset_smalldatetime (df : tsql_datetimeoffset) : result dto_error Z :=
  let! r := of_dt2 (CheckSmalldatetimeRange (tsql_ts df)) in Ok (AdjustTimestampForSmallDatetime r).
Definition datetimeoffset_datetime (df : tsql_datetimeoffset) : result dto_error Z :=
  let! r := of_dt (roundoff_datetime (tsql_ts df)) in of_dt (CheckDatetimeRange r).
Definition datetimeoffset_datetime2 (df : tsql_datetimeoffset) : result dto_error Z :=
  of_dt2 (CheckDatetime2Range (tsql_ts df)).
Definition datetimeoffset_timestamp (df : tsql_datetimeoffset) : Z := datetimeoffset_timestamp_internal df.

Definition datetimeoffset_date (df : tsql_datetimeoffset) : result dto_error Z :=
  match timestamp2tm (tsql_ts df) with
  | None => Err datetimeoffset_out_of_range
  | Some (tm, fsec) => Ok (date2j (tm_year tm) (tm_mon tm) (tm_mday tm) - POSTGRES_EPOCH_JDATE)
  end.

Definition datetimeoffset_time (df : tsql_datetimeoffset) : Z :=
  let time := tsql_ts df in
  if time <? 0 then time - time ÷ USECS_PER_DAY * USECS_PER_DAY + USECS_PER_DAY
  else time - time ÷ USECS_PER_DAY * USECS_PER_DAY.

(** ** Adding intervals *)

(** Months, with the day limited to the month. *)
Definition add_month_fields (tm : pg_tm) (months : Z) : pg_tm :=
  let mon := tm_mon tm + months in
  let '(y, mon) :=
    if mon >? 12 then (tm_year tm + (mon - 1) ÷ 12, Z.rem (mon - 1) 12 + 1)
    else if mon <? 1 then (tm_year tm + (mon ÷ 12 - 1), Z.rem mon 12 + 12)
    else (tm_year tm, mon) in
  let last := if (mon =? 2) && isleap y then 29 else nth (Z.to_nat (mon - 1)) DaycountInMonth 0 in
  with_date tm y mon (if tm_mday tm >? last then last else tm_mday tm).

Definition or_dto {A} (x : option A) : result dto_error A :=
  match x with Some a => Ok a | None => Err datetimeoffset_out_of_range end.

Definition datetimeoffset_pl_interval (df : tsql_datetimeoffset) (span : Interval) : result dto_error tsql_datetimeoffset :=
  let! tmp := (if negb (int_month span =? 0) then
                 let! x := or_dto (timestamp2tm (tsql_ts df)) in
                 or_dto (tm2timestamp (add_month_fields x.1 (int_month span)) x.2 None)
               else Ok (tsql_ts df)) in
  let! tmp := (if negb (int_day span =? 0) then
                 let! x := or_dto (timestamp2tm tmp) in
                 let julian := i32 (date2j (tm_year x.1) (tm_mon x.1) (tm_mday x.1) + int_day span) in
                 let '(y, m, d) := j2date julian in
                 or_dto (tm2timestamp (with_date x.1 y m d) x.2 None)
               else Ok tmp) in
  let tmp := i64 (tmp + int_time span) in
  CheckDatetimeoffsetRange (mk_dto (i64 (tmp + tsql_tz df * USECS_PER_MINUTE)) (tsql_tz df)).

Definition datetimeoffset_mi_interval (df : tsql_datetimeoffset) (span : Interval) : result dto_error tsql_datetimeoffset :=
  datetimeoffset_pl_interval df
    (mk_interval (i32 (- int_month span)) (i32 (- int_day span)) (i64 (- int_time span))).
Definition interval_pl_datetimeoffset (span : Interval) (df : tsql_datetimeoffset) : result dto_error tsql_datetimeoffset :=
  datetimeoffset_pl_interval df span.

Definition get_datetimeoffset_tzoffset_internal (df : tsql_datetimeoffset) : Z := i16 (- tsql_tz df).

Variable DecodeUnits : bytes -> option dtk.

(** [strncmp] with a shorter count compares a prefix. *)
Definition decode_dateadd_offset (lowunits : bytes) : option dtk :=
  let val := DecodeUnits lowunits in
  let val := if bool_decide (take 3 lowunits = bytes_of_string "doy") ||
                bool_decide (take 9 lowunits = bytes_of_string "dayofyear") then Some DTK_DOY else val in
  let val := if bool_decide (lowunits = bytes_of_string "nanosecond") then Some DTK_NANO else val in
  if bool_decide (take 7 lowunits = bytes_of_string "weekday") then Some DTK_DAY else val.

Definition dateadd_offset_interval (val : dtk) (num : Z) : result dto_error Interval :=
  let zero := QArith_base.inject_Z 0 in
  match val with
  | DTK_YEAR => or_dto (make_interval num 0 0 0 0 0 zero)
  | DTK_QUARTER => or_dto (make_interval 0 (i32 (num * 3)) 0 0 0 0 zero)
  | DTK_MONTH => or_dto (make_interval 0 num 0 0 0 0 zero)
  | DTK_WEEK => or_dto (make_interval 0 0 num 0 0 0 zero)
  | DTK_DAY | DTK_DOY => or_dto (make_interval 0 0 0 num 0 0 zero)
  | DTK_HOUR => or_dto (make_interval 0 0 0 0 num 0 zero)
  | DTK_MINUTE => or_dto (make_interval 0 0 0 0 0 num zero)
  | DTK_SECOND => or_dto (make_interval 0 0 0 0 0 0 (double (QArith_base.inject_Z num)))
  | DTK_MILLISEC => or_dto (make_interval 0 0 0 0 0 0 (float_seconds num (QArith_base.Qmake 1 1000)))
  | DTK_MICROSEC => or_dto (make_interval 0 0 0 0 0 0 (float_seconds num (QArith_base.Qmake 1 1000000)))
  | DTK_NANO => or_dto (make_interval 0 0 0 0 0 0 (float_seconds num (QArith_base.Qmake 1 1000000000)))
  | DTK_OTHER => Err dateadd_not_recognized
  end.

(** The start is moved by twice the time zone first, since each addition moves it once. *)
Definition dateadd_datetimeoffset (lowunits : bytes) (num : Z) (init_startdate : tsql_datetimeoffset)
    : result dto_error tsql_datetimeoffset :=
  let timezone := get_datetimeoffset_tzoffset_internal init_startdate * 2 in
  let! shift := or_dto (make_interval 0 0 0 0 0 timezone (QArith_base.inject_Z 0)) in
  let! startdate := datetimeoffset_pl_interval init_startdate shift in
  match decode_dateadd_offset lowunits with
  | None => Err dateadd_not_recognized
  | Some val =>
      let! interval := dateadd_offset_interval val num in
      match datetimeoffset_pl_interval startdate interval with
      | Ok r => Ok r
      | Err _ => Err dateadd_overflow
      end
  end.
End offset.
