(* ===== verification/DatediffTheorems.v ===== *)
(** * DatediffTheorems: DATEDIFF counts boundaries *)
From Stdlib Require Import String.
From stdpp Require Import base list numbers.
From S2P Require Import Prelude BitFacts SoftFloat Calendar Datetime Datetime2 Datediff DatetimeTheorems.

(** ** The specification *)

(** The number of the year, quarter, ... that a timestamp lies in; weeks begin on Sunday. *)
Definition datepart_index (val : dtk) (t : Z) : Z :=
  let n := t / USECS_PER_DAY + EPOCH_DAYS in
  let '(y, m, d) := civil n in
  match val with
  | DTK_YEAR => y
  | DTK_QUARTER => y * 4 + (m - 1) / 3
  | DTK_MONTH => y * 12 + m
  | DTK_WEEK => (n + 1) / 7
  | DTK_DAY | DTK_DOY => n
  | DTK_HOUR => t / USECS_PER_HOUR
  | DTK_MINUTE => t / USECS_PER_MINUTE
  | DTK_SECOND => t / USECS_PER_SEC
  | DTK_MILLISEC => t / 1000
  | DTK_MICROSEC => t
  | DTK_NANO => t * 1000
  | DTK_OTHER => 0
  end.

(** Boundaries between two timestamps. *)
Definition boundaries (val : dtk) (t1 t2 : Z) : Z := datepart_index val t2 - datepart_index val t1.

(** What the code checks: the product of the coarser difference, and the result. *)
Definition checked_datediff (fits : Z -> bool) (val : dtk) (t1 t2 : Z) : result dt_error Z :=
  let check coarser k :=
    if fits (boundaries coarser t1 t2 * k) && fits (boundaries val t1 t2)
    then Ok (boundaries val t1 t2) else Err function_resulted_in_overflow in
  match val with
  | DTK_HOUR => check DTK_DAY 24
  | DTK_MINUTE => check DTK_HOUR 60
  | DTK_SECOND => check DTK_MINUTE 60
  | DTK_MILLISEC => check DTK_SECOND 1000
  | DTK_MICROSEC => check DTK_SECOND 1000000
  | DTK_NANO => check DTK_MICROSEC 1000
  | DTK_OTHER => Err not_a_recognized_option
  | _ => Ok (boundaries val t1 t2)
  end.

(** ** Days *)

Lemma months_before_spec m : 1 <= m <= 12 -> months_before (Z.to_nat (m - 1)) = month_start m.
Proof. intros Hm. by_month m; done. Qed.

Lemma leaps_step y : y / 4 - y / 100 + y / 400 = (y - 1) / 4 - (y - 1) / 100 + (y - 1) / 400 + (if leap y then 1 else 0).
Proof. pose proof (year_start_succ y) as H. unfold year_start, year_days in H. rewrite Z.add_simpl_r in H. destruct (leap y); lia. Qed.

Lemma days_in_date_spec y m d : 1 <= y <= 10000 -> valid_date y m d -> days_in_date d m y = day_number y m d + 366.
Proof.
  intros Hy Hv. pose proof Hv as [Hm Hd]. unfold days_in_date. rewrite months_before_spec by done.
  pose proof (month_days_pos y m). assert (0 <= month_start m <= 334) by (by_month m; cbn; lia).
  rewrite !Z.quot_div_nonneg by (repeat case_match; lia). unfold day_number, year_start.
  assert ((if m <=? 2 then y - 1 else y) / 4 - (if m <=? 2 then y - 1 else y) / 100 + (if m <=? 2 then y - 1 else y) / 400 =
    (y - 1) / 4 - (y - 1) / 100 + (y - 1) / 400 + (if leap y && (2 <? m) then 1 else 0)) as ->.
  { pose proof (leaps_step y). destruct (m <=? 2) eqn:E; destruct (2 <? m) eqn:E'; try lia;
      rewrite ?andb_true_r, ?andb_false_r; lia. }
  set (leaps := (y - 1) / 4 - (y - 1) / 100 + (y - 1) / 400).
  assert (0 <= leaps <= 10000) by (subst leaps; div_lia).
  rewrite i32_id; [lia|]. apply in_i32_iff. case_match; lia.
Qed.

(** ** Broken-down time and the indexes *)

Section diffs.
Context `{PgCalendarLaws}.

Record fields (t : Z) (tm : pg_tm) (fsec : Z) : Prop := {
  f_valid : valid_tm tm fsec;
  f_year : 1 <= tm_year tm <= 10000;
  f_civil : civil (t / USECS_PER_DAY + EPOCH_DAYS) = (tm_year tm, tm_mon tm, tm_mday tm);
  f_day : day_number (tm_year tm) (tm_mon tm) (tm_mday tm) = t / USECS_PER_DAY + EPOCH_DAYS;
  f_time : t mod USECS_PER_DAY = time_of tm fsec
}.

Lemma tm_fields t : common_era t -> exists tm fsec, timestamp2tm t = Some (tm, fsec) /\ fields t tm fsec.
Proof.
  intros Ht. destruct (common_era_valid t Ht) as [Hvt _].
  destruct (timestamp2tm_law t Hvt) as (tm & fsec & Eq & Hv & Et). exists tm, fsec. split; [done|].
  assert (day_number (tm_year tm) (tm_mon tm) (tm_mday tm) = t / USECS_PER_DAY + EPOCH_DAYS /\
    t mod USECS_PER_DAY = time_of tm fsec) as [Ed Etime].
  { pose proof Hv as (_ & ? & ? & ? & ?). unfold timestamp_of, date_of, time_of, USECS_PER_DAY, USECS_PER_SEC in *. div_lia. }
  split; [done| |..|done|done].
  - apply (year_bounds tm fsec Hv). by rewrite Et.
  - pose proof (civil_spec (t / USECS_PER_DAY + EPOCH_DAYS)) as Hc. destruct (civil _) as [[y m] d].
    destruct Hc as [Hc1 Hc2]. destruct (day_number_inj y m d (tm_year tm) (tm_mon tm) (tm_mday tm)) as (-> & -> & ->);
      [done|apply Hv|congruence|done].
Qed.

(** All indexes in terms of the fields. *)
Lemma index_fields t tm fsec val : fields t tm fsec ->
  let n := t / USECS_PER_DAY in
  datepart_index val t =
  match val with
  | DTK_YEAR => tm_year tm
  | DTK_QUARTER => tm_year tm * 4 + (tm_mon tm - 1) / 3
  | DTK_MONTH => tm_year tm * 12 + tm_mon tm
  | DTK_WEEK => (n + EPOCH_DAYS + 1) / 7
  | DTK_DAY | DTK_DOY => n + EPOCH_DAYS
  | DTK_HOUR => n * 24 + tm_hour tm
  | DTK_MINUTE => (n * 24 + tm_hour tm) * 60 + tm_min tm
  | DTK_SECOND => ((n * 24 + tm_hour tm) * 60 + tm_min tm) * 60 + tm_sec tm
  | DTK_MILLISEC => (((n * 24 + tm_hour tm) * 60 + tm_min tm) * 60 + tm_sec tm) * 1000 + fsec / 1000
  | DTK_MICROSEC => (((n * 24 + tm_hour tm) * 60 + tm_min tm) * 60 + tm_sec tm) * 1000000 + fsec
  | DTK_NANO => ((((n * 24 + tm_hour tm) * 60 + tm_min tm) * 60 + tm_sec tm) * 1000000 + fsec) * 1000
  | DTK_OTHER => 0
  end.
Proof.
  intros [Hv _ Hc _ Ht] n. unfold datepart_index. rewrite Hc. destruct Hv as (_ & ? & ? & ? & ?).
  unfold time_of, USECS_PER_DAY, USECS_PER_HOUR, USECS_PER_MINUTE, USECS_PER_SEC in *.
  destruct val; try done; subst n; div_lia.
Qed.

Lemma day_diff_spec t1 tm1 fsec1 t2 tm2 fsec2 : fields t1 tm1 fsec1 -> fields t2 tm2 fsec2 ->
  day_diff tm1 tm2 = boundaries DTK_DAY t1 t2.
Proof.
  intros F1 F2. unfold day_diff, boundaries.
  rewrite (index_fields _ _ _ _ F1), (index_fields _ _ _ _ F2).
  rewrite !days_in_date_spec by first [apply F1|apply F2].
  rewrite (f_day _ _ _ F1), (f_day _ _ _ F2). lia.
Qed.

Lemma quarter_diff_spec tm1 tm2 : 1 <= tm_mon tm1 <= 12 -> 1 <= tm_mon tm2 <= 12 ->
  quarter_diff tm1 tm2 =
  tm_year tm2 * 4 + (tm_mon tm2 - 1) / 3 - (tm_year tm1 * 4 + (tm_mon tm1 - 1) / 3).
Proof.
  unfold quarter_diff. generalize (tm_mon tm1) as m1, (tm_mon tm2) as m2, (tm_year tm1) as y1, (tm_year tm2) as y2.
  intros m1 m2 y1 y2 H1 H2. rewrite !(Z.rem_mod_nonneg (_ - 1)) by lia.
  assert (exists a1 b1, m1 = 3 * a1 + b1 + 1 /\ (m1 - 1) / 3 = a1 /\ (m1 - 1) mod 3 = b1 /\ 0 <= a1 <= 3 /\
    (b1 = 0 \/ b1 = 1 \/ b1 = 2)) as (a1 & b1 & -> & -> & -> & Ha1 & Hb1).
  { exists ((m1 - 1) / 3), ((m1 - 1) mod 3). div_lia. }
  assert (exists a2 b2, m2 = 3 * a2 + b2 + 1 /\ (m2 - 1) / 3 = a2 /\ (m2 - 1) mod 3 = b2 /\ 0 <= a2 <= 3 /\
    (b2 = 0 \/ b2 = 1 \/ b2 = 2)) as (a2 & b2 & -> & -> & -> & Ha2 & Hb2).
  { exists ((m2 - 1) / 3), ((m2 - 1) mod 3). div_lia. }
  replace (3 * a2 + b2 + 1 - (3 * a1 + b1 + 1)) with (3 * (a2 - a1) + (b2 - b1)) by lia.
  set (yd := y2 - y1). replace (y2 * 4 + a2 - (y1 * 4 + a1)) with (4 * yd + (a2 - a1)) by lia. clearbody yd.
  assert (-3 <= a2 - a1 <= 3) as Ha by lia. set (da := a2 - a1) in *. clearbody da. clear -Ha Hb1 Hb2.
  destruct Hb1 as [-> | [-> | ->]], Hb2 as [-> | [-> | ->]]; cbn -[Z.quot Z.rem Z.mul Z.add];
    rewrite ?andb_false_r, ?andb_true_r; repeat case_match; Z.quot_rem_to_equations; lia.
Qed.

Lemma week_diff_spec t1 tm1 fsec1 t2 tm2 fsec2 : common_era t1 -> common_era t2 ->
  fields t1 tm1 fsec1 -> fields t2 tm2 fsec2 -> week_diff tm1 tm2 = boundaries DTK_WEEK t1 t2.
Proof.
  intros C1 C2 F1 F2. unfold week_diff, boundaries.
  rewrite (index_fields _ _ _ _ F1), (index_fields _ _ _ _ F2).
  rewrite !days_in_date_spec by first [apply F1|apply F2].
  rewrite (f_day _ _ _ F1), (f_day _ _ _ F2).
  assert (0 <= t1 / USECS_PER_DAY + EPOCH_DAYS /\ 0 <= t2 / USECS_PER_DAY + EPOCH_DAYS) as [N1 N2].
  { unfold common_era, USECS_PER_DAY, EPOCH_DAYS in *. div_lia. }
  set (n1 := t1 / _ + _) in *. set (n2 := t2 / _ + _) in *. clearbody n1 n2.
  rewrite !Z.rem_mod_nonneg by lia. replace (n2 + 366 - (n1 + 366)) with (n2 - n1) by lia.
  rewrite Z.add_max_distr_r. clear.
  destruct (Z.max_spec n1 n2) as [[Hlt ->]|[Hge ->]].
  - rewrite Z.abs_eq, Z.quot_div_nonneg by lia. repeat case_match; div_lia.
  - rewrite Z.abs_neq by lia. replace (n2 - n1) with (- (n1 - n2)) by lia.
    rewrite Z.opp_involutive, Z.quot_opp_l, Z.quot_div_nonneg by lia. repeat case_match; div_lia.
Qed.

(** One level of the chain of products, for a width with [bound] values of each sign. *)
Section chain.
Variables (bound : Z) (fits : Z -> bool) (mul add : Z -> Z -> bool * Z).
Hypothesis fits_iff : forall z, fits z = true <-> - bound <= z < bound.
Hypothesis big : 2 ^ 31 <= bound.
Hypothesis mul_ok : overflow_contract fits Z.mul mul.
Hypothesis add_ok : overflow_contract fits Z.add add.

Let multiply (a b : Z) : option Z := let '(o, product) := mul a b in if o then None else Some product.
Let multiply_add (val multiplier sum : Z) : option Z :=
  let '(o, product) := mul val multiplier in
  if o then None else let '(o, sum) := add sum product in if o then None else Some sum.

(** A value that is there exactly when two checks pass. *)
Definition checked (c k r : Z) : option Z := if fits (c * k) && fits r then Some r else None.

Lemma fits_small z : Z.abs z <= 4000000 -> fits z = true.
Proof. intros Hz. apply fits_iff. lia. Qed.

Lemma multiply_spec a k : fits a = true -> 0 < k <= 1000000 ->
  multiply a k = if fits (a * k) then Some (a * k) else None.
Proof.
  intros Ha Hk. subst multiply. cbn beta. destruct (mul_ok a k Ha) as [E1 E2]; [apply fits_small; lia|].
  destruct (mul a k) as [o p]. cbn in *. subst o. destruct (fits (a * k)); cbn; [by rewrite E2|done].
Qed.

Lemma multiply_add_spec a k s : fits a = true -> 0 < k <= 1000000 -> Z.abs s <= 1000000 ->
  multiply_add a k s = checked a k (s + a * k).
Proof.
  intros Ha Hk Hs. subst multiply_add. cbn beta. pose proof (multiply_spec a k Ha Hk) as E. subst multiply. cbn beta in E.
  unfold checked. destruct (mul a k) as [o p].
  destruct (fits (a * k)) eqn:Ef; destruct o; simplify_eq; cbn [andb]; [|done].
  destruct (add_ok s (a * k)) as [E1 E2]; [apply fits_small; lia|done|].
  destruct (add s (a * k)) as [o p]. cbn in *. subst o. destruct (fits (s + a * k)); cbn; [by rewrite E2|done].
Qed.

(** When a coarser level has overflowed, the product of this level overflows too. *)
Lemma coarse_overflow c k v k' : Z.abs (v - c * k) < k <= 1000000 -> 1 < k' ->
  fits (v * k') = true -> fits (c * k) && fits v = true.
Proof.
  intros Hv Hk' Hf. apply fits_iff in Hf. apply andb_true_iff. change (2 ^ 31) with 2147483648 in big.
  assert (2 * Z.abs v <= bound) by nia. split; apply fits_iff; lia.
Qed.

Lemma next_level x c k v k' s :
  x = checked c k v -> Z.abs (v - c * k) < k <= 1000000 -> 1 < k' <= 1000000 -> Z.abs s < k' ->
  (a ← x; multiply_add a k' s) = checked v k' (s + v * k').
Proof.
  intros -> Hk Hk' Hs. pose proof (coarse_overflow c k v k' Hk) as Hco. unfold checked at 1.
  destruct (fits (c * k) && fits v) eqn:E; cbn [mbind option_bind].
  - apply andb_true_iff in E as [_ E]. apply multiply_add_spec; [done|lia..].
  - unfold checked. destruct (fits (v * k')); [|done]. discriminate Hco; [lia|done].
Qed.

Variables (t1 t2 fsec1 fsec2 : Z) (tm1 tm2 : pg_tm).
Hypothesis C1 : common_era t1.
Hypothesis C2 : common_era t2.
Hypothesis F1 : fields t1 tm1 fsec1.
Hypothesis F2 : fields t2 tm2 fsec2.

Ltac by_fields :=
  unfold boundaries; rewrite ?(index_fields _ _ _ _ F1), ?(index_fields _ _ _ _ F2);
  pose proof (f_valid _ _ _ F1) as (_ & ? & ? & ? & ?); pose proof (f_valid _ _ _ F2) as (_ & ? & ? & ? & ?);
  unfold USECS_PER_SEC in *; div_lia.

Lemma days_small : Z.abs (boundaries DTK_DAY t1 t2) <= 4000000.
Proof. unfold boundaries, datepart_index. repeat case_match. unfold common_era, USECS_PER_DAY, EPOCH_DAYS in *. div_lia. Qed.

Lemma hour_diff_spec : hour_diff multiply_add tm1 tm2 = checked (boundaries DTK_DAY t1 t2) 24 (boundaries DTK_HOUR t1 t2).
Proof.
  unfold hour_diff. rewrite (day_diff_spec _ _ _ _ _ _ F1 F2), multiply_add_spec.
  - f_equal. by_fields.
  - apply fits_small, days_small.
  - lia.
  - by_fields.
Qed.

Lemma minute_diff_spec : minute_diff multiply_add tm1 tm2 = checked (boundaries DTK_HOUR t1 t2) 60 (boundaries DTK_MINUTE t1 t2).
Proof.
  unfold minute_diff. rewrite (next_level _ _ _ _ _ _ hour_diff_spec); [f_equal|..]; by_fields.
Qed.

Lemma second_diff_spec : second_diff multiply_add tm1 tm2 = checked (boundaries DTK_MINUTE t1 t2) 60 (boundaries DTK_SECOND t1 t2).
Proof.
  unfold second_diff. rewrite (next_level _ _ _ _ _ _ minute_diff_spec); [f_equal|..]; by_fields.
Qed.

Lemma millisec_diff_spec :
  millisec_diff multiply_add tm1 tm2 fsec1 fsec2 = checked (boundaries DTK_SECOND t1 t2) 1000 (boundaries DTK_MILLISEC t1 t2).
Proof.
  pose proof (f_valid _ _ _ F1) as (_ & _ & _ & _ & ?). pose proof (f_valid _ _ _ F2) as (_ & _ & _ & _ & ?).
  unfold millisec_diff. rewrite !Z.quot_div_nonneg by lia.
  rewrite (next_level _ _ _ _ _ _ second_diff_spec); [f_equal|..]; by_fields.
Qed.

Lemma microsec_diff_spec :
  microsec_diff multiply_add tm1 tm2 fsec1 fsec2 = checked (boundaries DTK_SECOND t1 t2) 1000000 (boundaries DTK_MICROSEC t1 t2).
Proof.
  unfold microsec_diff. rewrite (next_level _ _ _ _ _ _ second_diff_spec); [f_equal|..]; by_fields.
Qed.

Lemma nanosec_diff_spec :
  nanosec_diff multiply_add multiply tm1 tm2 fsec1 fsec2 = checked (boundaries DTK_MICROSEC t1 t2) 1000 (boundaries DTK_NANO t1 t2).
Proof.
  unfold nanosec_diff. rewrite microsec_diff_spec.
  assert (boundaries DTK_NANO t1 t2 = boundaries DTK_MICROSEC t1 t2 * 1000) as -> by by_fields.
  assert (Z.abs (boundaries DTK_MICROSEC t1 t2 - boundaries DTK_SECOND t1 t2 * 1000000) < 1000000 <= 1000000) as Hk by by_fields.
  pose proof (coarse_overflow _ _ _ 1000 Hk) as Hco. unfold checked at 1.
  destruct (fits (boundaries DTK_SECOND t1 t2 * 1000000) && _) eqn:E; cbn [mbind option_bind].
  - apply andb_true_iff in E as [_ E]. rewrite multiply_spec by (done || lia). unfold checked. by destruct (fits (_ * _)).
  - unfold checked. destruct (fits (_ * 1000)); [|done]. assert (false = true) by (apply Hco; [lia|done]). done.
Qed.

Lemma diff_switch_spec val : diff_switch multiply_add multiply val tm1 tm2 fsec1 fsec2 = checked_datediff fits val t1 t2.
Proof.
  pose proof (f_valid _ _ _ F1) as [[? _] _]. pose proof (f_valid _ _ _ F2) as [[? _] _].
  assert (forall o c k r, o = checked c k r ->
    or_overflows o = if fits (c * k) && fits r then Ok r else Err function_resulted_in_overflow) as Hor.
  { intros o c k r ->. unfold checked, or_overflows. by destruct (_ && _). }
  destruct val; cbn [diff_switch checked_datediff]; try apply Hor;
    auto using hour_diff_spec, minute_diff_spec, second_diff_spec, millisec_diff_spec, microsec_diff_spec, nanosec_diff_spec.
  - f_equal. by_fields.
  - f_equal. rewrite quarter_diff_spec by done. by_fields.
  - f_equal. by_fields.
  - f_equal. by eapply week_diff_spec.
  - f_equal. by eapply day_diff_spec.
  - f_equal. rewrite (day_diff_spec _ _ _ _ _ _ F1 F2). by_fields.
Qed.
End chain.

(** C24: DATEDIFF and DATEDIFF_BIG, for every datepart and every pair of timestamps from 0001-01-01 to
    the end of 9999: the number of boundaries crossed, in whatever order the two timestamps come,
    or an overflow error decided at the last level of the chain; an unknown datepart is refused. *)
Theorem datediff_counts_boundaries `{H1 : PgIntOk} (DecodeUnits : bytes -> option dtk) lowunits t1 t2 :
  common_era t1 -> common_era t2 ->
  timestamp_diff DecodeUnits lowunits t1 t2 =
    match decode_datediff DecodeUnits lowunits with
    | Some val => checked_datediff in_i32 val t1 t2
    | None => Err not_a_recognized_option
    end /\
  timestamp_diff_big DecodeUnits lowunits t1 t2 =
    match decode_datediff DecodeUnits lowunits with
    | Some val => checked_datediff in_i64 val t1 t2
    | None => Err not_a_recognized_option
    end.
Proof.
  intros C1 C2. destruct (tm_fields t1 C1) as (tm1 & fsec1 & E1 & F1). destruct (tm_fields t2 C2) as (tm2 & fsec2 & E2 & F2).
  unfold timestamp_diff, timestamp_diff_big, diff_of. destruct (decode_datediff _ _) as [val|]; [|done]. rewrite E1, E2.
  split.
  - apply (diff_switch_spec (2 ^ 31) in_i32 pg_mul_s32_overflow pg_add_s32_overflow); try done;
      [intros z; rewrite in_i32_iff; lia|apply H1..].
  - apply (diff_switch_spec (2 ^ 63) in_i64 pg_mul_s64_overflow pg_add_s64_overflow); try done;
      [intros z; rewrite in_i64_iff; lia|apply H1..].
Qed.
End diffs.

(** With [bigint] every datepart down to the microsecond is exact. *)
Lemma datediff_big_total val t1 t2 : common_era t1 -> common_era t2 -> val <> DTK_NANO -> val <> DTK_OTHER ->
  checked_datediff in_i64 val t1 t2 = Ok (boundaries val t1 t2).
Proof.
  intros C1 C2 N1 N2. unfold checked_datediff.
  destruct val; try done; unfold boundaries, datepart_index; destruct (civil _) as [[? ?] ?], (civil _) as [[? ?] ?];
    unfold common_era, USECS_PER_DAY, USECS_PER_HOUR, USECS_PER_MINUTE, USECS_PER_SEC, EPOCH_DAYS in *;
    rewrite 2!(proj2 (in_i64_iff _)) by div_lia; done.
Qed.

(** The product is checked before the finer fields are added, so a difference that fits an [int] is
    refused when the product alone does not: 2147483001 milliseconds lie between these two. *)
Theorem datediff_refuses_a_fitting_difference :
  let t1 := 999000 in
  let t2 := 2147484 * USECS_PER_SEC in
  let decode u := if bool_decide (u = bytes_of_string "ms") then Some DTK_MILLISEC else None in
  boundaries DTK_MILLISEC t1 t2 = 2147483001 /\
  in_i32 2147483001 = true /\
  timestamp_diff decode (bytes_of_string "ms") t1 t2 = Err function_resulted_in_overflow.
Proof. by vm_compute. Qed.

Lemma datediff_counts_boundaries_witness :
  common_era 788918400000000 /\ common_era (-1) /\
  timestamp_diff (fun _ => Some DTK_QUARTER) (bytes_of_string "quarter") 788918400000000 (-1) = Ok (-100).
Proof.
  assert (common_era 788918400000000) as H1 by (unfold common_era; lia).
  assert (common_era (-1)) as H2 by (unfold common_era; lia).
  split; [exact H1|split; [exact H2|]].
  rewrite (proj1 (datediff_counts_boundaries (fun _ => Some DTK_QUARTER) (bytes_of_string "quarter") _ _ H1 H2)). by vm_compute.
Defined.
