(* ===== verification/Datetime2Theorems.v ===== *)
(** * Datetime2Theorems: rounding and ranges of DATETIME2 and SMALLDATETIME *)
From stdpp Require Import base list numbers.
From S2P Require Import Prelude BitFacts SoftFloat Calendar Datetime Datetime2 DatetimeTheorems.

(** ** DATETIME2(n) *)

(** Microseconds of one unit in the last of [n] digits; the seventh digit is not kept. *)
Definition digit_scale (n : Z) : Z := 10 ^ (6 - Z.min n 6).

(** The nearest multiple, half upwards. *)
Definition nearest_multiple (scale t : Z) : Z := (t + scale / 2) / scale * scale.

Lemma by_precision n : 0 <= n <= 7 -> n = 0 \/ n = 1 \/ n = 2 \/ n = 3 \/ n = 4 \/ n = 5 \/ n = 6 \/ n = 7.
Proof. lia. Qed.

Ltac by_digits n := destruct (by_precision n ltac:(lia)) as [->|[->|[->|[->|[->|[->|[->| ->]]]]]]].

Lemma datetime2_finite t : IS_VALID_DATETIME2 t = true -> TIMESTAMP_NOT_FINITE t = false.
Proof.
  unfold IS_VALID_DATETIME2, MIN_DATETIME2, END_DATETIME2, TIMESTAMP_NOT_FINITE, DT_NOBEGIN, DT_NOEND, INT64_MIN, INT64_MAX. lia.
Qed.

Lemma scale_cases n : 0 <= n <= 7 -> let s := digit_scale n in
  s = 1000000 \/ s = 100000 \/ s = 10000 \/ s = 1000 \/ s = 100 \/ s = 10 \/ s = 1.
Proof. intros Hn. by_digits n; vm_compute; tauto. Qed.

(** The three tables, by the scale. *)
Lemma scale_tables n : 0 <= n <= 7 -> let s := digit_scale n in
  nth (Z.to_nat n) TimestampScales 1 = s /\ nth (Z.to_nat n) TimestampOffsets 0 = s / 2 /\
  nth (Z.to_nat n) TimestampOffsetsNegative 0 = (s - 1) / 2.
Proof. intros Hn. by_digits n; done. Qed.

Ltac by_scale H := destruct H as [->|[->|[->|[->|[->|[->| ->]]]]]].

Lemma adjust_nearest t n : IS_VALID_DATETIME2 t = true -> 0 <= n <= 7 ->
  AdjustDatetime2ForTypmod t n =
  Ok (if nearest_multiple (digit_scale n) t <? END_DATETIME2 then nearest_multiple (digit_scale n) t
      else t / digit_scale n * digit_scale n).
Proof.
  intros Ht Hn. unfold AdjustDatetime2ForTypmod, MAX_DATETIME2_PRECISION.
  rewrite (datetime2_finite t Ht). destruct (scale_tables n Hn) as (-> & -> & ->).
  rewrite (proj2 (Z.eqb_neq n (-1))) by lia. cbn [negb andb]. assert ((n <? 0) || (n >? 7) = false) as -> by lia.
  pose proof (scale_cases n Hn) as Hs. cbv zeta in Hs. set (s := digit_scale n) in *. clearbody s.
  unfold IS_VALID_DATETIME2, nearest_multiple, MIN_DATETIME2, END_DATETIME2 in *.
  destruct (t >=? 0) eqn:E.
  - rewrite !Z.quot_div_nonneg by (by_scale Hs; div_lia). by case_match.
  - rewrite Z.quot_div_nonneg by (by_scale Hs; div_lia). by_scale Hs; if_lia; f_equal; div_lia.
Qed.

(** C33: Rounding a DATETIME2 to its declared digits: to the nearest multiple before and after 2000
    alike, except that the last unit of 9999 is cut instead of becoming the year 10000; so the range
    is kept, and scaling again changes nothing. *)
Theorem datetime2_scale_nearest t n : IS_VALID_DATETIME2 t = true -> 0 <= n <= 7 ->
  let s := digit_scale n in
  exists r, datetime2_scale t n = Ok r /\
    r = (if nearest_multiple s t <? END_DATETIME2 then nearest_multiple s t else t / s * s) /\
    IS_VALID_DATETIME2 r = true /\ r mod s = 0 /\ Z.abs (r - t) < s /\ datetime2_scale r n = Ok r.
Proof.
  intros Ht Hn s. unfold datetime2_scale. rewrite adjust_nearest by done. fold s.
  eexists. split; [done|]. split; [done|]. pose proof (scale_cases n Hn) as Hs. fold s in Hs. cbv zeta in Hs.
  set (r := if _ <? _ then _ else _).
  assert (IS_VALID_DATETIME2 r = true /\ r mod s = 0 /\ Z.abs (r - t) < s) as (Hr & Hm & Ha).
  { subst r. clearbody s. unfold nearest_multiple, IS_VALID_DATETIME2, MIN_DATETIME2, END_DATETIME2 in *.
    by_scale Hs; case_match; div_lia. }
  do 3 (split; [done|]). rewrite adjust_nearest by done. fold s. f_equal. clearbody r s. clear -Hs Hr Hm.
  unfold nearest_multiple, IS_VALID_DATETIME2, MIN_DATETIME2, END_DATETIME2 in *.
  by_scale Hs; case_match; div_lia.
Qed.

(** A declared precision outside 0 to 7 is refused; no declared precision leaves the value. *)
Lemma datetime2_scale_error t n : IS_VALID_DATETIME2 t = true ->
  datetime2_scale t n = if n =? -1 then Ok t else if (n <? 0) || (n >? 7) then Err (precision_must_be_between n)
                        else datetime2_scale t n.
Proof.
  intros Ht. unfold datetime2_scale, AdjustDatetime2ForTypmod, MAX_DATETIME2_PRECISION. rewrite (datetime2_finite t Ht).
  by destruct (n =? -1), ((n <? 0) || (n >? 7)).
Qed.

(** ** SMALLDATETIME *)

(** 1900-01-01 00:00 and 2079-06-06 23:59. *)
Definition MIN_SMALLDATETIME : Z := -3155673600000000.
Definition MAX_SMALLDATETIME : Z := 2506636740000000.

(** The values of the type: whole minutes of the range. *)
Definition is_smalldatetime (t : Z) : Prop :=
  t mod USECS_PER_MINUTE = 0 /\ MIN_SMALLDATETIME <= t <= MAX_SMALLDATETIME.

(** The nearest minute, where 29.999 s count as half a minute. *)
Definition to_minute (t : Z) : Z := (t + 30001000) / USECS_PER_MINUTE * USECS_PER_MINUTE.

Lemma adjust_to_minute t : AdjustTimestampForSmallDatetime t = to_minute t.
Proof.
  unfold AdjustTimestampForSmallDatetime, to_minute, USECS_PER_MINUTE. destruct (t >=? 0) eqn:E.
  - rewrite Z.rem_mod_nonneg, Z.quot_div_nonneg by lia. case_match; div_lia.
  - rewrite Z.rem_mod_nonneg by lia. assert (t ÷ 60000000 = - (- t / 60000000)) as ->.
    { rewrite <- (Z.opp_involutive t) at 1. by rewrite Z.quot_opp_l, Z.quot_div_nonneg by lia. }
    case_match; div_lia.
Qed.

Lemma check_smalldatetime t :
  CheckSmalldatetimeRange t =
  if (MIN_SMALLDATETIME <=? to_minute t) && (to_minute t <=? MAX_SMALLDATETIME)
  then Ok t else Err data_out_of_range_for_smalldatetime.
Proof.
  unfold CheckSmalldatetimeRange, to_minute, MIN_SMALLDATETIME, MAX_SMALLDATETIME, smalldatetime_lower_bound,
    smalldatetime_upper_bound, USECS_PER_MINUTE.
  assert ((t <? -3155673630001000) || (t >=? 2506636769999000) =
    negb ((-3155673600000000 <=? (t + 30001000) / 60000000 * 60000000) &&
          ((t + 30001000) / 60000000 * 60000000 <=? 2506636740000000))) as -> by (apply eq_true_iff_eq; div_lia).
  by destruct (_ && _).
Qed.

Lemma to_minute_multiple t : to_minute t mod USECS_PER_MINUTE = 0.
Proof. apply Z.mod_mul. unfold USECS_PER_MINUTE. lia. Qed.

(** A whole minute is its own nearest minute. *)
Lemma to_minute_id t : t mod USECS_PER_MINUTE = 0 -> to_minute t = t.
Proof. unfold to_minute, USECS_PER_MINUTE. intros. div_lia. Qed.

Section small.
Context `{PgCalendarLaws}.

(** Conversion of a timestamp: the two bounds of the range check, which are not whole minutes, are
    exactly the bounds of the values that round into the range of the type. *)
Theorem smalldatetime_conversion t :
  timestamp_smalldatetime t =
    (if (MIN_SMALLDATETIME <=? to_minute t) && (to_minute t <=? MAX_SMALLDATETIME)
     then Ok (to_minute t) else Err data_out_of_range_for_smalldatetime) /\
  -30001000 <= t - to_minute t < 29999000.
Proof.
  unfold timestamp_smalldatetime. rewrite check_smalldatetime. split.
  - case_match; cbn [rbind]; [|done]. by rewrite adjust_to_minute.
  - unfold to_minute, USECS_PER_MINUTE. div_lia.
Qed.

(** Checking a whole minute keeps it within the range of the type. *)
Lemma check_whole_minute t r : t mod USECS_PER_MINUTE = 0 -> CheckSmalldatetimeRange t = Ok r -> is_smalldatetime r.
Proof.
  intros Hm. rewrite check_smalldatetime, to_minute_id by done. case_match eqn:E; [|done]. intros [= <-].
  split; [done|lia].
Qed.

Lemma check_adjusted t r : (let! t := CheckSmalldatetimeRange t in Ok (AdjustTimestampForSmallDatetime t)) = Ok r ->
  is_smalldatetime r.
Proof.
  rewrite check_smalldatetime. case_match eqn:E; cbn [rbind]; [|done]. intros [= <-]. rewrite adjust_to_minute.
  split; [apply to_minute_multiple|lia].
Qed.

Lemma time_value t : 0 <= t <= USECS_PER_DAY ->
  (let '(h, mi, s, fsec) := time2tm t in tm2timestamp (default_tm h mi s) fsec None) = Some (TSQL_DEFAULT_DATETIME + t).
Proof.
  intros Ht. rewrite time2tm_law by done. unfold USECS_PER_DAY, USECS_PER_HOUR, USECS_PER_MINUTE, USECS_PER_SEC in *.
  rewrite tm2timestamp_law; [|unfold modest_tm; cbn; div_lia|cbn; lia].
  assert (timestamp_of (default_tm (t / 3600000000) ((t / 60000000) mod 60) ((t / 1000000) mod 60)) (t mod 1000000) =
    TSQL_DEFAULT_DATETIME + t) as ->.
  { unfold timestamp_of, time_of, date_of, TSQL_DEFAULT_DATETIME, USECS_PER_DAY, USECS_PER_SEC, EPOCH_DAYS.
    cbn -[Z.div Z.modulo Z.mul]. change (day_number 1900 1 1) with 693595. div_lia. }
  cbn [default id]. rewrite Z.mul_0_l, Z.add_0_r.
  destruct (common_era_valid (TSQL_DEFAULT_DATETIME + t)) as [-> _]; [|done]. unfold common_era, TSQL_DEFAULT_DATETIME. lia.
Qed.

Lemma smalldatetime_era t : is_smalldatetime t -> common_era t.
Proof. unfold is_smalldatetime, common_era, MIN_SMALLDATETIME, MAX_SMALLDATETIME. lia. Qed.

(** Days are whole minutes. *)
Lemma plus_days_minute t days : t mod USECS_PER_MINUTE = 0 -> (t + days * USECS_PER_DAY) mod USECS_PER_MINUTE = 0.
Proof. unfold USECS_PER_MINUTE, USECS_PER_DAY. intros. div_lia. Qed.

Lemma smalldatetime_plus t days r : is_smalldatetime t -> in_i32 days = true ->
  smalldatetime_pl_int4 t days = Ok r -> is_smalldatetime r /\ r = t + days * USECS_PER_DAY.
Proof.
  intros Ht Hd. destruct (common_era_valid t) as [Hvt Hfin]; [by apply smalldatetime_era|].
  unfold smalldatetime_pl_int4. rewrite Hfin, make_interval_days by done. cbn [or_timestamp_error rbind].
  rewrite timestamp_pl_days by done. unfold in_range. case_match; cbn [or_timestamp_error rbind]; [|done]. intros Hc.
  split; [eapply check_whole_minute, Hc; apply plus_days_minute, Ht|].
  unfold CheckSmalldatetimeRange in Hc. by case_match; simplify_eq.
Qed.

(** The sum and the difference of two values, counted from 1900-01-01. *)
Lemma smalldatetime_sums t1 t2 : is_smalldatetime t1 -> is_smalldatetime t2 ->
  smalldatetime_pl_smalldatetime t1 t2 = CheckSmalldatetimeRange (t1 + (t2 - TSQL_DEFAULT_DATETIME)) /\
  smalldatetime_mi_smalldatetime t1 t2 = CheckSmalldatetimeRange (t1 - (t2 - TSQL_DEFAULT_DATETIME)).
Proof.
  intros [_ H1] [_ H2]. unfold smalldatetime_pl_smalldatetime, smalldatetime_mi_smalldatetime.
  rewrite default_datetime. cbn [default id].
  unfold MIN_SMALLDATETIME, MAX_SMALLDATETIME, TSQL_DEFAULT_DATETIME in *.
  rewrite !(i64_id (t2 - _)) by (apply in_i64_iff; lia).
  by rewrite (i64_id (t1 + _)), (i64_id (t1 - _)) by (apply in_i64_iff; lia).
Qed.

(** The default value and intervals of days and a time. *)
Lemma make_default : make_timestamp 1900 1 1 0 0 0 = Some TSQL_DEFAULT_DATETIME.
Proof. rewrite make_timestamp_law; [by vm_compute|]. unfold modest_tm. cbn. lia. Qed.

Lemma timestamp_pl_time t days time r : valid_timestamp t = true ->
  timestamp_pl_interval t (mk_interval 0 days time) = Some r -> r = t + days * USECS_PER_DAY + time.
Proof.
  intros Ht. rewrite timestamp_pl_law by done. unfold pl_interval, in_range. cbn [int_month int_day int_time Z.eqb mbind option_bind].
  destruct (Z.eqb_spec days 0) as [->|]; cbn [mbind option_bind]; [destruct (valid_timestamp (t + time)); [intros [= <-]; lia|done]|].
  destruct (valid_timestamp (t + days * USECS_PER_DAY)); cbn [mbind option_bind]; [|done].
  destruct (valid_timestamp (t + days * USECS_PER_DAY + time)); [|done]. by intros [= <-].
Qed.

Lemma int4_minus t days r : is_smalldatetime t -> in_i32 days = true -> int4_mi_smalldatetime days t = Ok r ->
  is_smalldatetime r /\ r = TSQL_DEFAULT_DATETIME + (TSQL_DEFAULT_DATETIME + days * USECS_PER_DAY - t).
Proof.
  intros Ht Hd. destruct (common_era_valid t) as [Hvt Hfin]; [by apply smalldatetime_era|].
  destruct (common_era_valid TSQL_DEFAULT_DATETIME) as [Hv0 _]; [done|].
  unfold int4_mi_smalldatetime. rewrite Hfin, make_default, make_interval_days by done. cbn [or_timestamp_error rbind].
  rewrite timestamp_pl_days by done. unfold in_range. case_match eqn:El; cbn [or_timestamp_error rbind]; [|done].
  rewrite timestamp_mi_law by done. cbv zeta. case_match; cbn [or_timestamp_error rbind]; [|done].
  destruct (timestamp_pl_interval _ _) as [r'|] eqn:Er; cbn [or_timestamp_error rbind]; [|done].
  apply timestamp_pl_time in Er; [|done]. intros Hc. set (d := TSQL_DEFAULT_DATETIME + days * USECS_PER_DAY - t) in *.
  assert (r' = TSQL_DEFAULT_DATETIME + d) as -> by (rewrite Er; pose proof (Z.quot_rem' d USECS_PER_DAY); lia).
  split; [eapply check_whole_minute, Hc|unfold CheckSmalldatetimeRange in Hc; by case_match; simplify_eq].
  destruct Ht as [Ht _]. subst d. unfold TSQL_DEFAULT_DATETIME, USECS_PER_MINUTE, USECS_PER_DAY in *. div_lia.
Qed.

End small.

(** The product of [date_smalldatetime] is not checked: a date of the year 586580 becomes a
    SMALLDATETIME that is not a whole minute. *)
Theorem date_smalldatetime_wraps :
  date_smalldatetime 213503982 = Ok (-28909551616) /\ (-28909551616) mod USECS_PER_MINUTE <> 0.
Proof. by vm_compute. Qed.

(** A double adds whole seconds, which are not rounded to a minute: noon and a second. *)
Theorem smalldatetime_float8_seconds :
  smalldatetime_pl_float8 0 MIN_SMALLDATETIME (QArith_base.Qmake 32769 65536) = Ok (MIN_SMALLDATETIME + 43201000000) /\
  (MIN_SMALLDATETIME + 43201000000) mod USECS_PER_MINUTE <> 0 /\
  smalldatetime_mi_float8 0 (MIN_SMALLDATETIME + USECS_PER_DAY) (QArith_base.Qmake 32769 65536) = Ok (MIN_SMALLDATETIME + USECS_PER_DAY - 43201000000) /\
  float8_mi_smalldatetime 0 (QArith_base.Qmake 32769 65536) MIN_SMALLDATETIME = Ok (MIN_SMALLDATETIME + 43201000000).
Proof. by vm_compute. Qed.

Lemma datetime2_scale_nearest_witness : IS_VALID_DATETIME2 (-50) = true /\ datetime2_scale (-50) 4 = Ok 0.
Proof.
  split; [by vm_compute|]. destruct (datetime2_scale_nearest (-50) 4) as (r & -> & -> & _); [by vm_compute|lia|by vm_compute].
Defined.

