(* ===== verification/DatetimeOffsetTheorems.v ===== *)
(** * DatetimeOffsetTheorems: DATETIMEOFFSET is ordered by the instant *)
From Stdlib Require Import String.
From Stdlib Require QArith.
From stdpp Require Import base list numbers.
From S2P Require Import Prelude BitFacts SoftFloat Calendar Datetime Datetime2 Datediff.
From S2P Require Import DatetimeTheorems Datetime2Theorems DatetimeOffset.

(** The instant of a value, in UTC. *)
Definition instant (df : tsql_datetimeoffset) : Z := tsql_ts df + tsql_tz df * USECS_PER_MINUTE.

(** The values of the type: offsets up to 14 hours, instants from 0001-01-01 to the end of 9999. *)
Definition is_datetimeoffset (df : tsql_datetimeoffset) : Prop :=
  -841 < tsql_tz df < 841 /\ IS_VALID_DATETIME2 (instant df) = true.

Lemma instant_internal df : is_datetimeoffset df -> datetimeoffset_timestamp_internal df = instant df.
Proof.
  unfold is_datetimeoffset, IS_VALID_DATETIME2, datetimeoffset_timestamp_internal, instant, MIN_DATETIME2, END_DATETIME2,
    USECS_PER_MINUTE, USECS_PER_SEC.
  intros [? ?]. replace (tsql_ts df + tsql_tz df * 60 * 1000000) with (tsql_ts df + tsql_tz df * 60000000) by lia.
  apply i64_id, in_i64_iff. lia.
Qed.

Lemma check_offset ts tz : -841 < tz < 841 -> Z.abs ts <= 9223371500000000000 ->
  CheckDatetimeoffsetRange (mk_dto ts tz) =
  if IS_VALID_DATETIME2 (ts + tz * USECS_PER_MINUTE) then Ok (mk_dto ts tz) else Err data_out_of_range_for_datetimeoffset.
Proof.
  intros Htz Hts. unfold CheckDatetimeoffsetRange, datetimeoffset_timestamp_internal.
  unfold IS_VALID_DATETIME2, MIN_DATETIME2, END_DATETIME2, USECS_PER_MINUTE, USECS_PER_SEC. cbn [tsql_ts tsql_tz].
  replace (ts + tz * 60 * 1000000) with (ts + tz * 60000000) by lia.
  rewrite i64_id by (apply in_i64_iff; lia).
  destruct (ts + tz * 60000000 <? _) eqn:?, (_ >=? _) eqn:?, (_ <=? _) eqn:?, (_ <? 252455616000000000) eqn:?; try done; lia.
Qed.

(** ** Comparison *)

(** The comparison function is the order of the instants, and the six operators, the minimum and the
    maximum agree with it: values in different time zones are equal exactly when they are the same
    instant. *)
Theorem datetimeoffset_order df1 df2 : is_datetimeoffset df1 -> is_datetimeoffset df2 ->
  datetimeoffset_cmp df1 df2 = Z.sgn (instant df1 - instant df2) /\
  (datetimeoffset_eq df1 df2 = true <-> instant df1 = instant df2) /\
  datetimeoffset_ne df1 df2 = negb (datetimeoffset_eq df1 df2) /\
  (datetimeoffset_lt df1 df2 = true <-> instant df1 < instant df2) /\
  datetimeoffset_ge df1 df2 = negb (datetimeoffset_lt df1 df2) /\
  datetimeoffset_gt df1 df2 = datetimeoffset_lt df2 df1 /\
  datetimeoffset_le df1 df2 = negb (datetimeoffset_gt df1 df2) /\
  instant (datetimeoffset_smaller df1 df2) = Z.min (instant df1) (instant df2) /\
  instant (datetimeoffset_larger df1 df2) = Z.max (instant df1) (instant df2).
Proof.
  intros H1 H2.
  assert (datetimeoffset_cmp_internal df1 df2 = Z.sgn (instant df1 - instant df2)) as E.
  { unfold datetimeoffset_cmp_internal. rewrite !instant_internal by done. cbv zeta. case_match; [lia|]. case_match; lia. }
  assert (datetimeoffset_cmp_internal df2 df1 = Z.sgn (instant df2 - instant df1)) as E'.
  { unfold datetimeoffset_cmp_internal. rewrite !instant_internal by done. cbv zeta. case_match; [lia|]. case_match; lia. }
  unfold datetimeoffset_cmp, datetimeoffset_eq, datetimeoffset_ne, datetimeoffset_lt, datetimeoffset_ge, datetimeoffset_gt,
    datetimeoffset_le, datetimeoffset_smaller, datetimeoffset_larger. rewrite E, E'. clear.
  repeat split; try lia; try (case_match; lia).
Qed.

(** Equal values are hashed from different bytes, so a hash function that tells apart these two byte
    strings gives them different hashes: noon UTC and one in the afternoon at UTC+1. *)
Theorem datetimeoffset_hash_not_compatible hash_any :
  let df1 := mk_dto (12 * USECS_PER_HOUR) 0 in
  let df2 := mk_dto (13 * USECS_PER_HOUR) (-60) in
  datetimeoffset_eq df1 df2 = true /\
  (hash_any (le_bytes 8 (12 * USECS_PER_HOUR) ++ replicate 8 0) <>
   hash_any (le_bytes 8 (13 * USECS_PER_HOUR) ++ [196; 255] ++ replicate 6 0) ->
   datetimeoffset_hash hash_any df1 <> datetimeoffset_hash hash_any df2).
Proof. cbv zeta. split; [done|]. intros Hh. exact Hh. Qed.

(** ** Binary messages *)

Section messages.
Context `{PgFormatOk}.
Variables (pq_sendint16 : bytes -> Z -> bytes) (pq_getmsgint16 : bytes -> option (Z * bytes)).
Hypothesis pq_int16_roundtrip : forall buf z rest, in_i16 z = true ->
  exists enc, pq_sendint16 buf z = buf ++ enc /\
    exists u, pq_getmsgint16 (enc ++ rest) = Some (u, rest) /\ i16 u = z.

Theorem datetimeoffset_message_roundtrip df : is_datetimeoffset df ->
  datetimeoffset_recv pq_getmsgint16 (datetimeoffset_send pq_sendint16 df) (-1) = Some (Ok df).
Proof.
  destruct df as [ts tz]. intros [Htz Hi]. unfold instant in Hi. cbn [tsql_ts tsql_tz] in *.
  assert (Z.abs ts <= 9223371500000000000) as Hts.
  { unfold IS_VALID_DATETIME2, MIN_DATETIME2, END_DATETIME2, USECS_PER_MINUTE in Hi. lia. }
  destruct (pq_int64_roundtrip [] ts []) as (enc & Es & Er); [apply in_i64_iff; lia|].
  assert (in_i16 tz = true) as H16 by (apply in_i16_iff; lia).
  destruct (pq_int16_roundtrip enc tz [] H16) as (enc' & Es' & u & Er' & Eu).
  unfold datetimeoffset_send, datetimeoffset_recv. cbn [tsql_ts tsql_tz]. rewrite Es. cbn [app]. rewrite Es'.
  destruct (pq_int64_roundtrip [] ts enc') as (enc2 & Es2 & Er2); [apply in_i64_iff; lia|].
  assert (enc2 = enc) as -> by (cbn in *; congruence). cbn [app]. rewrite Er2. cbn [mbind option_bind fst snd].
  rewrite app_nil_r in Er'. rewrite Er'. cbn [mbind option_bind fst snd]. rewrite Eu.
  unfold DATETIMEOFFSET_TIMEZONE_LIMIT. if_lia. unfold AdjustDatetimeoffsetForTypmod.
  rewrite andb_false_r. cbn [rbind andb]. rewrite check_offset by done. by rewrite Hi.
Qed.
End messages.

(** ** Time of day *)

(** The time of day, except that midnight before 2000 comes out as 24:00:00. *)
Theorem datetimeoffset_time_of_day df :
  datetimeoffset_time df =
  if (tsql_ts df <? 0) && (tsql_ts df mod USECS_PER_DAY =? 0) then USECS_PER_DAY else tsql_ts df mod USECS_PER_DAY.
Proof.
  unfold datetimeoffset_time. generalize (tsql_ts df) as t. intros t. unfold USECS_PER_DAY. cbv zeta.
  destruct (t <? 0) eqn:E; cbn [andb].
  - assert (t ÷ 86400000000 = - (- t / 86400000000)) as ->.
    { rewrite <- (Z.opp_involutive t) at 1. by rewrite Z.quot_opp_l, Z.quot_div_nonneg by lia. }
    case_match; div_lia.
  - rewrite Z.quot_div_nonneg by lia. div_lia.
Qed.

(** ** Adding intervals *)

Lemma year_of_day y m d : valid_date y m d -> -1701000 <= day_number y m d <= 1010000000 -> -4700 <= y <= 5000000.
Proof.
  intros Hv Hn. pose proof (day_number_year _ _ _ Hv) as Hy. split.
  - destruct (Z.le_gt_cases (-4700) y); [done|]. pose proof (year_start_mono (y + 1) (-4700) ltac:(lia)).
    change (year_start (-4700)) with (-1717005) in *. lia.
  - destruct (Z.le_gt_cases y 5000000); [done|]. pose proof (year_start_mono 5000001 y ltac:(lia)).
    change (year_start 5000001) with 1826212500 in *. lia.
Qed.

Section arithmetic.
Context `{PgCalendarLaws}.

(** The stage of [datetimeoffset_pl_interval] that adds days. *)
Lemma add_days ts days : Z.abs ts <= 260000000000000000 -> -63082370000000000 <= ts -> -1700000 <= days <= 1000000000 ->
  (let! x := or_dto (timestamp2tm ts) in
   let julian := i32 (date2j (tm_year x.1) (tm_mon x.1) (tm_mday x.1) + days) in
   let '(y, m, d) := j2date julian in
   or_dto (tm2timestamp (with_date x.1 y m d) x.2 None)) = or_dto (in_range (ts + days * USECS_PER_DAY)).
Proof.
  intros Hts Hlow Hd. assert (valid_timestamp ts = true) as Hv by (unfold valid_timestamp, MIN_TIMESTAMP, END_TIMESTAMP; lia).
  destruct (timestamp2tm_law ts Hv) as (tm & fsec & -> & Hvt & Et). cbn [or_dto rbind fst snd].
  pose proof Hvt as (Hdate & ? & ? & ? & ?). unfold timestamp_of, time_of, date_of in Et.
  set (n := day_number _ _ _) in *. unfold USECS_PER_DAY, USECS_PER_SEC, EPOCH_DAYS in Et.
  assert (-100 <= n <= 10000000) as Hn by lia.
  pose proof Hdate as [Hmon Hday]. assert (1 <= tm_mday tm <= 31) as Hmd.
  { revert Hday. unfold month_days. by_month (tm_mon tm); cbn; try case_match; lia. }
  rewrite date2j_law; [|apply (year_of_day _ _ _ Hdate); fold n; lia|lia|lia]. fold n. cbv zeta.
  unfold EPOCH_DAYS, POSTGRES_EPOCH_JDATE. rewrite i32_id by (apply in_i32_iff; lia).
  pose proof (j2date_law (n - 730119 + 2451545 + days) ltac:(lia)) as Hj.
  destruct (j2date _) as [[y m] d]. destruct Hj as [Hv' Hn'].
  unfold EPOCH_DAYS, POSTGRES_EPOCH_JDATE in Hn'.
  assert (valid_tm (with_date tm y m d) fsec) as Hvt' by (unfold valid_tm; cbn; split; [exact Hv'|lia]).
  rewrite tm2timestamp_law; [|apply valid_modest; [done|]; apply (year_of_day _ _ _ Hv'); lia|cbn; lia].
  unfold timestamp_of, time_of, date_of. cbn [with_date tm_year tm_mon tm_mday tm_hour tm_min tm_sec default id].
  unfold in_range, USECS_PER_DAY, USECS_PER_SEC, EPOCH_DAYS. rewrite Hn'.
  assert (forall a b, a = b -> or_dto (let t := a in if valid_timestamp t then Some t else None) =
    or_dto (if valid_timestamp b then Some b else None)) as Heq by (by intros ? ? ->). apply Heq. lia.
Qed.

(** Days and time of day are added to the local time, and the offset is added once more. *)
Lemma pl_exact ts tz days us : -841 < tz < 841 -> Z.abs ts <= 260000000000000000 -> -63082370000000000 <= ts ->
  -1700000 <= days <= 1000000000 -> (days = 0 \/ us = 0) -> Z.abs us <= 8000000000000000000 ->
  let t := ts + days * USECS_PER_DAY + us + tz * USECS_PER_MINUTE in
  (exists e, datetimeoffset_pl_interval (mk_dto ts tz) (mk_interval 0 days us) =
    if IS_VALID_DATETIME2 (t + tz * USECS_PER_MINUTE) then Ok (mk_dto t tz) else Err e).
Proof.
  intros Htz Hts Hlow Hd Hor Hus t. unfold datetimeoffset_pl_interval. cbn [int_month int_day int_time tsql_ts tsql_tz Z.eqb negb rbind].
  assert ((if negb (days =? 0) then _ else Ok ts) =
    if valid_timestamp (ts + days * USECS_PER_DAY) then Ok (ts + days * USECS_PER_DAY) else Err datetimeoffset_out_of_range) as ->.
  { destruct (days =? 0) eqn:E; cbn [negb].
    - apply Z.eqb_eq in E as ->. rewrite Z.mul_0_l, Z.add_0_r.
      assert (valid_timestamp ts = true) as -> by (unfold valid_timestamp, MIN_TIMESTAMP, END_TIMESTAMP; lia). done.
    - rewrite add_days by done. unfold in_range. by case_match. }
  unfold valid_timestamp, MIN_TIMESTAMP, END_TIMESTAMP. case_match eqn:Ev; cbn [rbind].
  - subst t. unfold USECS_PER_DAY, USECS_PER_MINUTE in *.
    rewrite (i64_id (ts + days * 86400000000 + us)) by (apply in_i64_iff; lia).
    rewrite i64_id by (apply in_i64_iff; lia). rewrite check_offset by lia. unfold USECS_PER_MINUTE. eexists. done.
  - exists datetimeoffset_out_of_range. subst t. unfold IS_VALID_DATETIME2, MIN_DATETIME2, END_DATETIME2, USECS_PER_DAY, USECS_PER_MINUTE in *.
    case_match; [lia|done].
Qed.

(** Dateparts of a fixed length: days and microseconds. *)
Definition fixed_span (val : dtk) (num : Z) : option (Z * Z) :=
  match val with
  | DTK_WEEK => Some (num * 7, 0)
  | DTK_DAY | DTK_DOY => Some (num, 0)
  | DTK_HOUR => Some (0, num * USECS_PER_HOUR)
  | DTK_MINUTE => Some (0, num * USECS_PER_MINUTE)
  | _ => None
  end.

Lemma fixed_interval val num days us : fixed_span val num = Some (days, us) -> in_i32 num = true ->
  -1700000 <= days <= 1000000000 ->
  dateadd_offset_interval val num = Ok (mk_interval 0 days us) /\ (days = 0 \/ us = 0) /\ Z.abs us <= 8000000000000000000.
Proof.
  intros Hs Hn Hd. pose proof (proj1 (in_i32_iff num) Hn).
  destruct val; cbn in Hs; simplify_eq; cbn [dateadd_offset_interval];
    unfold USECS_PER_HOUR, USECS_PER_MINUTE in *; (split; [|split; lia]);
    rewrite make_interval_law by done; unfold USECS_PER_HOUR, USECS_PER_MINUTE;
    rewrite ?Z.mul_0_l, ?Z.add_0_l, ?Z.add_0_r;
    repeat match goal with |- context [in_i32 ?z] => assert (in_i32 z = true) as -> by (apply in_i32_iff; lia) end; done.
Qed.

(** DATEADD of weeks, days, hours and minutes: the local time moves by exactly that much and the
    offset stays; the result is refused exactly when its instant leaves the years 1 to 9999. The
    two shifts by the offset cancel. *)
Theorem dateadd_offset_exact (DecodeUnits : bytes -> option dtk) lowunits df val num days us :
  is_datetimeoffset df -> IS_VALID_DATETIME2 (tsql_ts df) = true ->
  decode_dateadd_offset DecodeUnits lowunits = Some val -> in_i32 num = true ->
  fixed_span val num = Some (days, us) -> -1700000 <= days <= 1000000000 ->
  dateadd_datetimeoffset DecodeUnits lowunits num df =
  (let span := days * USECS_PER_DAY + us in
   if IS_VALID_DATETIME2 (instant df + span) then Ok (mk_dto (tsql_ts df + span) (tsql_tz df)) else Err dateadd_overflow).
Proof.
  destruct df as [ts tz]. intros [Htz Hi] Hts Hval Hnum Hspan Hdays. unfold instant in *. cbn [tsql_ts tsql_tz] in *.
  unfold dateadd_datetimeoffset, get_datetimeoffset_tzoffset_internal. cbn [tsql_tz].
  rewrite i16_id by (apply in_i16_iff; lia). rewrite make_interval_law by (done || (apply in_i32_iff; lia)).
  cbn [Z.mul Z.add andb in_i32 or_dto rbind]. rewrite ?Z.add_0_l.
  pose proof Hts as Hts'. unfold IS_VALID_DATETIME2, MIN_DATETIME2, END_DATETIME2 in Hts'.
  destruct (pl_exact ts tz 0 (- tz * 2 * USECS_PER_MINUTE)) as [e1 Ee1]; try (unfold USECS_PER_MINUTE; lia).
  change (in_i32 0 && in_i32 0) with true. cbn [or_dto rbind].
  rewrite Ee1. clear Ee1.
  replace (ts + 0 * USECS_PER_DAY + - tz * 2 * USECS_PER_MINUTE + tz * USECS_PER_MINUTE) with (ts - tz * USECS_PER_MINUTE) by lia.
  replace (ts - tz * USECS_PER_MINUTE + tz * USECS_PER_MINUTE) with ts by lia. rewrite Hts. cbn [rbind]. rewrite Hval.
  destruct (fixed_interval val num days us) as (-> & Hor & Hus); [done..|]. cbn [rbind].
  destruct (pl_exact (ts - tz * USECS_PER_MINUTE) tz days us) as [e2 Ee2]; try (unfold USECS_PER_MINUTE; lia || done).
  rewrite Ee2. cbv zeta.
  replace (ts - tz * USECS_PER_MINUTE + days * USECS_PER_DAY + us + tz * USECS_PER_MINUTE) with
    (ts + (days * USECS_PER_DAY + us)) by lia.
  replace (ts + (days * USECS_PER_DAY + us) + tz * USECS_PER_MINUTE) with
    (ts + tz * USECS_PER_MINUTE + (days * USECS_PER_DAY + us)) by lia.
  set (ok := IS_VALID_DATETIME2 (ts + _ + _)). clearbody ok. by destruct ok.
Qed.
End arithmetic.

(** Adding a zero interval to a value east or west of Greenwich moves it by its offset. *)
Theorem datetimeoffset_plus_zero_moves :
  datetimeoffset_pl_interval (mk_dto 0 (-60)) (mk_interval 0 0 0) = Ok (mk_dto (- USECS_PER_HOUR) (-60)).
Proof. by vm_compute. Qed.

(** DATEADD adds months at a time shifted by the offset: one month after 2020-01-30 23:30 +01:00 is
    limited to the length of February as if the day were the 31st, and comes out half an hour
    before midnight of 28 February, while the month of the local time ends on the 29th. *)
Theorem dateadd_offset_month_shifted :
  let at_day y m d := (day_number y m d - EPOCH_DAYS) * USECS_PER_DAY + 23 * USECS_PER_HOUR + 30 * USECS_PER_MINUTE in
  let month u := if bool_decide (u = bytes_of_string "month") then Some DTK_MONTH else None in
  dateadd_datetimeoffset month (bytes_of_string "month") 1 (mk_dto (at_day 2020 1 30) (-60)) =
    Ok (mk_dto (at_day 2020 2 28) (-60)) /\
  pl_interval (at_day 2020 1 30) (mk_interval 1 0 0) = Some (at_day 2020 2 29).
Proof. by vm_compute. Qed.

(** Rounding does not look at the range: the last microsecond of 9999 becomes the year 10000. *)
Theorem datetimeoffset_scale_leaves_range :
  let df := mk_dto (END_DATETIME2 - 1) 0 in
  CheckDatetimeoffsetRange df = Ok df /\
  datetimeoffset_scale df 0 = Ok (mk_dto END_DATETIME2 0) /\
  CheckDatetimeoffsetRange (mk_dto END_DATETIME2 0) = Err data_out_of_range_for_datetimeoffset.
Proof. by vm_compute. Qed.

(** ** Concrete inputs *)

Lemma datetimeoffset_order_witness :
  is_datetimeoffset (mk_dto 0 (-60)) /\ is_datetimeoffset (mk_dto 0 60) /\
  datetimeoffset_cmp (mk_dto 0 (-60)) (mk_dto 0 60) = -1.
Proof.
  assert (is_datetimeoffset (mk_dto 0 (-60))) as H1 by (split; [cbn; lia|by vm_compute]).
  assert (is_datetimeoffset (mk_dto 0 60)) as H2 by (split; [cbn; lia|by vm_compute]).
  split; [exact H1|split; [exact H2|]]. rewrite (proj1 (datetimeoffset_order _ _ H1 H2)). by vm_compute.
Defined.

Definition sendint16 (buf : bytes) (z : Z) : bytes := buf ++ rev (le_bytes 2 z).
Definition getmsgint16 (buf : bytes) : option (Z * bytes) :=
  if Nat.leb 2 (length buf) then Some (le_val (rev (take 2 buf)), drop 2 buf) else None.

Lemma int16_message : forall buf z rest, in_i16 z = true ->
  exists enc, sendint16 buf z = buf ++ enc /\ exists u, getmsgint16 (enc ++ rest) = Some (u, rest) /\ i16 u = z.
Proof.
  intros buf z rest Hz. exists (rev (le_bytes 2 z)). split; [done|]. unfold getmsgint16.
  assert (length (rev (le_bytes 2 z)) = 2%nat) as Hl by (rewrite length_rev; apply length_le_bytes).
  rewrite length_app, Hl. cbn [Nat.leb Nat.add]. rewrite take_app_length', drop_app_length' by done.
  eexists. split; [done|]. rewrite rev_involutive, le_val_bytes. apply in_i16_iff in Hz.
  change (256 ^ Z.of_nat 2) with 65536. rewrite i16_unfold. div_lia.
Qed.

Lemma datetimeoffset_message_roundtrip_witness :
  datetimeoffset_recv getmsgint16 (datetimeoffset_send sendint16 (mk_dto 5 (-840))) (-1) = Some (Ok (mk_dto 5 (-840))).
Proof.
  apply (datetimeoffset_message_roundtrip sendint16 getmsgint16 int16_message (mk_dto 5 (-840))). split; [cbn; lia|by vm_compute].
Defined.

Lemma dateadd_offset_exact_witness :
  dateadd_datetimeoffset (fun _ => Some DTK_WEEK) (bytes_of_string "week") (-2) (mk_dto 0 300) =
  Ok (mk_dto (-14 * USECS_PER_DAY) 300).
Proof.
  rewrite (dateadd_offset_exact (fun _ => Some DTK_WEEK) (bytes_of_string "week") (mk_dto 0 300) DTK_WEEK (-2) (-14) 0);
    [by vm_compute|split; [cbn; lia|]; by vm_compute|by vm_compute|by vm_compute|by vm_compute|by vm_compute|lia].
Defined.
