(* ===== verification/TdsTimestamp.v ===== *)
(** * TdsTimestamp: dates and times of the wire
    ([babelfishpg_tds/src/backend/tds/tdstimestamp.c])

    Days since 0001-01-01 or 1900-01-01, ticks of 1/300 second, minutes, and units of the declared
    scale, to and from the server's dates and timestamps. *)
From Stdlib Require QArith.
From stdpp Require Import base list numbers.
From S2P Require Import Prelude BitFacts SoftFloat Calendar Datetime.

Inductive tts_error := date_out_of_range | wire_datetime_out_of_range | timestamp_out_of_range.

Definition IsLeap (y : Z) : bool :=
  (negb (Z.rem y 100 =? 0) && (Z.rem y 4 =? 0)) || (Z.rem y 400 =? 0).

Definition DATE_NOT_FINITE (d : Z) : bool := (d =? DATEVAL_NOBEGIN) || (d =? DATEVAL_NOEND).
Definition DATE_END_JULIAN : Z := 2147483494.
Definition IS_VALID_DATE (d : Z) : bool :=
  (0 - POSTGRES_EPOCH_JDATE <=? d) && (d <? DATE_END_JULIAN - POSTGRES_EPOCH_JDATE).

Definition TdsCheckDateValidity (date : Z) : result tts_error unit :=
  if DATE_NOT_FINITE date || negb (IS_VALID_DATE date) then Err date_out_of_range else Ok tt.

Definition CountLeapYears (t : pg_tm) : Z :=
  let years := if tm_mon t <=? 2 then tm_year t - 1 else tm_year t in
  years ÷ 4 - years ÷ 100 + years ÷ 400.

(** Days of the months before the one of [t]. *)
Definition days_of_months (t : pg_tm) : Z := foldl Z.add 0 (take (Z.to_nat (tm_mon t - 1)) DaycountInMonth).

Definition GetDayDifference (t1 t2 : pg_tm) : Z :=
  let n t := i32 (tm_year t * 365 + tm_mday t) + days_of_months t + CountLeapYears t in
  i32 (n t2 - n t1).

(** The first of January of a year. *)
Definition new_year (y : Z) : pg_tm := mk_tm 0 0 0 1 1 y.

Definition TdsGetDayDifferenceHelper (day mon year : Z) (isDateType : bool) : Z :=
  u32 (GetDayDifference (new_year (if isDateType then 1 else 1900)) (mk_tm 0 0 0 day mon year)).

(** Month and day of the day with number [offset] in a year. *)
Fixpoint revoffset (months : list Z) (i offset : Z) : Z * Z :=
  match months with
  | [] => (i, offset)
  | month :: months => if offset <=? month then (i, offset) else revoffset months (i + 1) (offset - month)
  end.

Definition RevoffsetDays (offset y : Z) : Z * Z :=
  revoffset [31; if IsLeap y then 29 else 28; 31; 30; 31; 30; 31; 31; 30; 31; 30; 31] 1 offset.

Definition y2days (y : Z) : Z := if IsLeap y then 366 else 365.

(** The loop over whole years; [x / 365 + 1] rounds are enough. *)
Fixpoint skip_years (fuel : nat) (y2 x : Z) : Z * Z :=
  match fuel with
  | O => (y2, x)
  | S fuel => if x >=? y2days y2 then skip_years fuel (y2 + 1) (x - y2days y2) else (y2, x)
  end.

Definition CalculateTargetDate (y1 x : Z) : Z * Z * Z :=
  let offset1 := 1 in
  let remDays := y2days y1 - offset1 in
  let '(y2, offset2) :=
    if x <=? remDays then (y1, offset1 + x)
    else let x := x - remDays in skip_years (Z.to_nat (x / 365 + 1)) (y1 + 1) x in
  let '(m2, d2) := RevoffsetDays offset2 y2 in
  (y2, m2, d2).

Section tds_time.
Context `{PgCalendar}.

(** What the processor gives for a double that does not fit the integer type; C leaves it
    undefined. *)
Variable bad_cast : Z.
Definition cast_to (fits : Z -> bool) (q : QArith_base.Q) : Z := if fits (trunc q) then trunc q else bad_cast.
Definition in_u64 (z : Z) : bool := (0 <=? z) && (z <? 18446744073709551616).

Definition GetDateFromDatum (date : Z) : result tts_error pg_tm :=
  if negb (DATE_NOT_FINITE date) then
    let '(y, m, d) := j2date (i32 (date + POSTGRES_EPOCH_JDATE)) in Ok (mk_tm 0 0 0 d m y)
  else Err date_out_of_range.

Definition GetDatetimeFromDatum (timestamp : Z) : result tts_error (pg_tm * Z) :=
  if TIMESTAMP_NOT_FINITE timestamp then Err wire_datetime_out_of_range
  else match timestamp2tm timestamp with Some x => Ok x | None => Err wire_datetime_out_of_range end.

Definition TdsDayDifference (value : Z) : result tts_error Z :=
  let! tm := GetDateFromDatum value in Ok (u32 (GetDayDifference (new_year 1) tm)).

(** Days since 1900 and minutes of the day. *)
Definition TdsTimeDifferenceSmalldatetime (value : Z) : result tts_error (Z * Z) :=
  let! x := GetDatetimeFromDatum value in
  let '(tm, fsec) := x in
  let numDays := u16 (GetDayDifference (new_year 1900) tm) in
  let '(numDays, tm) :=
    if (tm_hour tm =? 23) && (tm_min tm =? 59) && (tm_sec tm =? 59)
    then (u16 (numDays + 1), UpdateToNextDayHelper tm)
    else if ((tm_sec tm =? 29) && (fsec ÷ 1000 >? 998)) || (tm_sec tm >? 29)
    then (numDays, with_time tm (tm_hour tm) (tm_min tm + 1) (tm_sec tm))
    else (numDays, tm) in
  Ok (numDays, u16 (tm_hour tm * 60 + tm_min tm)).

Definition extra_ticks (unit : Z) : Z :=
  match unit with
  | 0 | 1 => 0
  | 2 | 3 | 4 => 1
  | 5 | 6 | 7 | 8 => 2
  | 9 => 3
  | _ => 0
  end.

(** Days since 1900 and ticks of the day. *)
Definition TdsTimeDifferenceDatetime (value : Z) : result tts_error (Z * Z) :=
  let tick := double (QArith_base.Qmake 33333333 10000000) in
  let! x := GetDatetimeFromDatum value in
  let '(tm, fsec) := x in
  let numDays := u32 (GetDayDifference (new_year 1900) tm) in
  let '(numDays, tm, msec, extra) :=
    if (tm_hour tm =? 23) && (tm_min tm =? 59) && (tm_sec tm =? 59) && (fsec =? 999000)
    then (u32 (numDays + 1), UpdateToNextDayHelper tm, 0, 0)
    else
      let msec := fsec ÷ 1000 in
      let unit := Z.rem msec 10 in
      (numDays, tm, msec - unit, extra_ticks unit) in
  let milliCount := u32 (((tm_hour tm * 60 + tm_min tm) * 60 + tm_sec tm) * 1000 + msec) in
  Ok (numDays, u32 (cast_to in_i32 (ddiv (QArith_base.inject_Z milliCount) tick) + extra)).

Definition TdsTimeGetDatumFromDays (numDays : Z) : Z :=
  let '(y2, m2, d2) := CalculateTargetDate 1 (i32 numDays) in
  u64 (i32 (date2j y2 m2 d2 - POSTGRES_EPOCH_JDATE)).

Definition GetDatetimeFromDaysTicks (numDays numTicks : Z) : pg_tm * Z :=
  let '(y2, m2, d2) := CalculateTargetDate 1900 (i32 numDays) in
  let numMilli := cast_to in_i32 (dmul (double (QArith_base.Qmake 333333333 100000000)) (QArith_base.inject_Z numTicks)) in
  let fsec := Z.rem numMilli 1000 * 1000 in
  let numMilli := numMilli ÷ 1000 in
  let '(numMilli, fsec) := if fsec =? 999000 then (numMilli + 1, 0) else (numMilli, fsec) in
  let sec := Z.rem numMilli 60 in
  let numMilli := numMilli ÷ 60 in
  let min := Z.rem numMilli 60 in
  let hour := numMilli ÷ 60 in
  (mk_tm sec min hour d2 m2 y2, fsec).

Definition or_timestamp_range (x : option Z) : result tts_error Z :=
  match x with Some t => Ok t | None => Err timestamp_out_of_range end.

Definition TdsTimeGetDatumFromDatetime (numDays numTicks : Z) : result tts_error Z :=
  let '(tm, fsec) := GetDatetimeFromDaysTicks numDays numTicks in
  or_timestamp_range (tm2timestamp tm fsec None).

Definition GetDatetimeFromDaysMins (numDays numMins : Z) : pg_tm :=
  let '(y2, m2, d2) := CalculateTargetDate 1900 numDays in
  mk_tm 0 (Z.rem numMins 60) (numMins ÷ 60) d2 m2 y2.

Definition TdsTimeGetDatumFromSmalldatetime (numDays numMins : Z) : result tts_error Z :=
  or_timestamp_range (tm2timestamp (GetDatetimeFromDaysMins numDays numMins) 0 None).

(** [while (scale--)] with a scale that is not negative. *)
Definition times_ten (scale : nat) (res : QArith_base.Q) : QArith_base.Q :=
  Nat.iter scale (fun res => dmul res (QArith_base.inject_Z 10)) res.
Definition over_ten (scale : nat) (res : QArith_base.Q) : QArith_base.Q :=
  Nat.iter scale (fun res => ddiv res (QArith_base.inject_Z 10)) res.

Definition TdsGetDayTimeFromTimestamp (value : Z) (scale : nat) : result tts_error (Z * Z) :=
  match timestamp2tm value with
  | None => Err timestamp_out_of_range
  | Some (tm, fsec) =>
      let numDays := u32 (GetDayDifference (new_year 1) tm) in
      let res := dadd (QArith_base.inject_Z ((tm_hour tm * 60 + tm_min tm) * 60 + tm_sec tm))
                      (ddiv (QArith_base.inject_Z fsec) (QArith_base.inject_Z 1000000)) in
      let res := dadd (times_ten scale res) (QArith_base.Qmake 1 2) in
      Ok (numDays, cast_to in_u64 res)
  end.

(** The nearest integer, half downwards. *)
Definition round_micro (res : QArith_base.Q) : Z :=
  let whole := cast_to in_u64 res in
  if QArith_base.Qle_bool (dadd res (QArith_base.Qopp (double (QArith_base.inject_Z whole)))) (QArith_base.Qmake 1 2)
  then whole else u64 (whole + 1).

Definition TdsGetTimestampFromDayTime (numDays numMicro tz : Z) (scale : nat) : result tts_error Z :=
  let '(y2, m2, d2) := CalculateTargetDate 1 (i32 numDays) in
  let res := over_ten scale (double (QArith_base.inject_Z numMicro)) in
  let numMicro := round_micro (dmul res (QArith_base.inject_Z 1000000)) in
  let fsec := numMicro mod 1000000 in
  let numMicro := numMicro / 1000000 in
  let sec := numMicro mod 60 in
  let numMicro := numMicro / 60 in
  let min := numMicro mod 60 in
  let hour := i32 (numMicro / 60) in
  or_timestamp_range (tm2timestamp (mk_tm sec min hour d2 m2 y2) fsec (Some tz)).
End tds_time.
