(* ===== verification/TdsTimestampTheorems.v ===== *)
(** * TdsTimestampTheorems: dates and times survive the wire *)
From Stdlib Require Import QArith Lqa.
From stdpp Require Import base list numbers.
From S2P Require Import Prelude BitFacts SoftFloat Calendar Datetime Datetime2 Datediff DatetimeTheorems.
From S2P Require Import Datetime2Theorems DatediffTheorems TdsTimestamp.
Open Scope Z_scope.

(** ** Days *)

Lemma rem_zero y k : 0 < k -> (Z.rem y k =? 0) = (y mod k =? 0).
Proof.
  intros Hk. apply eq_true_iff_eq. rewrite !Z.eqb_eq, Z.rem_divide, Z.mod_divide by lia. done.
Qed.

Lemma IsLeap_leap y : IsLeap y = leap y.
Proof.
  unfold IsLeap, leap. rewrite !rem_zero by lia. apply eq_true_iff_eq.
  rewrite orb_true_iff, !andb_true_iff, orb_true_iff, !negb_true_iff, !Z.eqb_eq, !Z.eqb_neq. div_lia.
Qed.

Lemma y2days_spec y : y2days y = year_days y.
Proof. unfold y2days, year_days. by rewrite IsLeap_leap. Qed.

Lemma days_of_months_spec t : 1 <= tm_mon t <= 12 -> days_of_months t = month_start (tm_mon t).
Proof. unfold days_of_months. generalize (tm_mon t). intros m Hm. by_month m; done. Qed.

(** The number of days between two dates of the years 1 to 10000. *)
Lemma GetDayDifference_spec t1 t2 :
  1 <= tm_year t1 <= 10000 -> valid_date (tm_year t1) (tm_mon t1) (tm_mday t1) ->
  1 <= tm_year t2 <= 10000 -> valid_date (tm_year t2) (tm_mon t2) (tm_mday t2) ->
  GetDayDifference t1 t2 =
  day_number (tm_year t2) (tm_mon t2) (tm_mday t2) - day_number (tm_year t1) (tm_mon t1) (tm_mday t1).
Proof.
  assert (forall t, 1 <= tm_year t <= 10000 -> valid_date (tm_year t) (tm_mon t) (tm_mday t) ->
    i32 (tm_year t * 365 + tm_mday t) + days_of_months t + CountLeapYears t =
    day_number (tm_year t) (tm_mon t) (tm_mday t) + 366 /\
    0 <= day_number (tm_year t) (tm_mon t) (tm_mday t) <= 4000000) as Hn.
  { intros t Hy Hv. pose proof (days_in_date_spec _ _ _ Hy Hv) as Hd. pose proof Hv as [Hm Hmd].
    pose proof (day_number_year _ _ _ Hv) as Hr. pose proof (year_start_mono 1 (tm_year t) ltac:(lia)).
    pose proof (year_start_mono (tm_year t + 1) 10001 ltac:(lia)).
    change (year_start 1) with 0 in *. change (year_start 10001) with 3652425 in *. split; [|lia].
    unfold days_in_date in Hd. rewrite months_before_spec in Hd by done. rewrite days_of_months_spec by done.
    assert (0 <= tm_mday t <= 31).
    { clear -Hm Hmd. revert Hmd. unfold month_days. by_month (tm_mon t); cbn; try case_match; lia. }
    rewrite i32_id by (apply in_i32_iff; lia). unfold CountLeapYears. rewrite <- Hd, i32_id; [lia|].
    apply in_i32_iff. rewrite !Z.quot_div_nonneg by (repeat case_match; lia).
    assert (0 <= month_start (tm_mon t) <= 334) by (by_month (tm_mon t); cbn; lia).
    case_match; div_lia. }
  intros Hy1 Hv1 Hy2 Hv2. destruct (Hn _ Hy1 Hv1) as [E1 ?], (Hn _ Hy2 Hv2) as [E2 ?].
  unfold GetDayDifference. cbv zeta. rewrite E1, E2, i32_id by (apply in_i32_iff; lia). lia.
Qed.

(** The month and the day of a day of the year, also for the day before the first of January and
    those before it. *)
Lemma RevoffsetDays_spec offset y : offset <= year_days y ->
  let '(m, d) := RevoffsetDays offset y in 1 <= m <= 12 /\ day_number y m d = year_start y + offset - 1 /\ d <= 31 /\
  (1 <= offset -> 1 <= d).
Proof.
  unfold RevoffsetDays, year_days, day_number. rewrite IsLeap_leap. intros Ho.
  destruct (leap y); cbn [revoffset andb];
    change (1 + 1) with 2; change (2 + 1) with 3; change (3 + 1) with 4; change (4 + 1) with 5; change (5 + 1) with 6;
    change (6 + 1) with 7; change (7 + 1) with 8; change (8 + 1) with 9; change (9 + 1) with 10; change (10 + 1) with 11;
    change (11 + 1) with 12; change (12 + 1) with 13;
    repeat match goal with |- context [?a <=? ?b] => destruct (a <=? b) eqn:? end; cbn; lia.
Qed.

Lemma skip_years_spec fuel y x : 0 <= x < 365 * Z.of_nat fuel ->
  let '(y', x') := skip_years fuel y x in
  year_start y' + x' = year_start y + x /\ 0 <= x' < year_days y' /\ y <= y' <= y + x / 365.
Proof.
  revert y x. induction fuel as [|fuel IH]; intros y x Hx; [lia|]. cbn [skip_years]. rewrite y2days_spec.
  assert (365 <= year_days y <= 366) by (unfold year_days; case_match; lia).
  destruct (x >=? year_days y) eqn:E.
  - specialize (IH (y + 1) (x - year_days y) ltac:(lia)). destruct (skip_years _ _ _) as [y' x'].
    rewrite year_start_succ in IH. destruct IH as (? & ? & ?). split; [lia|]. split; [lia|]. div_lia.
  - split; [lia|]. split; [lia|]. div_lia.
Qed.

(** Counting days from the first of January of [y1]: the result may be the day zero of a year,
    but it is always the right day, and the loop over the years ends. *)
Lemma CalculateTargetDate_spec y1 x : -1000000 <= x ->
  let '(y, m, d) := CalculateTargetDate y1 x in
  1 <= m <= 12 /\ day_number y m d = year_start y1 + x /\ -1000000 <= d <= 31 /\ y1 <= y <= y1 + 1 + Z.max 0 x / 365.
Proof.
  intros Hx. unfold CalculateTargetDate. rewrite y2days_spec.
  assert (365 <= year_days y1 <= 366) by (unfold year_days; case_match; lia).
  destruct (x <=? year_days y1 - 1) eqn:E.
  - pose proof (RevoffsetDays_spec (1 + x) y1 ltac:(lia)) as Hr. destruct (RevoffsetDays _ _) as [m d] eqn:Er.
    destruct Hr as (Hm & Hd & ? & ?). split; [done|]. split; [lia|]. split; [|div_lia]. split; [|done].
    destruct (Z.le_gt_cases 0 x); [lia|]. unfold RevoffsetDays in Er. cbn [revoffset] in Er.
    rewrite (proj2 (Z.leb_le (1 + x) 31)) in Er by lia. simplify_eq. lia.
  - cbv zeta. set (x' := x - (year_days y1 - 1)).
    pose proof (skip_years_spec (Z.to_nat (x' / 365 + 1)) (y1 + 1) x') as Hs.
    destruct (skip_years _ _ _) as [y2 x2]. destruct Hs as (Hs & Hx2 & Hy); [subst x'; div_lia|].
    pose proof (RevoffsetDays_spec x2 y2 ltac:(lia)) as Hr. destruct (RevoffsetDays _ _) as [m d] eqn:Er.
    destruct Hr as (Hm & Hd & ? & ?). rewrite year_start_succ in Hs. split; [done|]. split; [subst x'; lia|].
    split; [|subst x'; div_lia]. split; [|done]. destruct (Z.le_gt_cases 1 x2); [lia|]. assert (x2 = 0) as -> by lia.
    cbn in Er. simplify_eq. lia.
Qed.

Section dates.
Context `{PgCalendarLaws}.

(** The day that a wire count stands for. *)
Lemma target_julian y1 x : 1 <= y1 <= 2000 -> -1000000 <= x <= 1000000000 ->
  let '(y, m, d) := CalculateTargetDate y1 x in
  date2j y m d = year_start y1 + x - EPOCH_DAYS + POSTGRES_EPOCH_JDATE.
Proof.
  intros Hy Hx. pose proof (CalculateTargetDate_spec y1 x ltac:(lia)) as Ht.
  destruct (CalculateTargetDate y1 x) as [[y m] d]. destruct Ht as (Hm & Hd & Hb & Hyy).
  rewrite date2j_law; [lia|div_lia|done|lia].
Qed.

Lemma date_fields d : -730119 <= d <= 2921939 ->
  exists tm, GetDateFromDatum d = Ok tm /\ 1 <= tm_year tm <= 10000 /\ valid_date (tm_year tm) (tm_mon tm) (tm_mday tm) /\
    day_number (tm_year tm) (tm_mon tm) (tm_mday tm) = d + EPOCH_DAYS.
Proof.
  intros Hd. unfold GetDateFromDatum.
  assert (DATE_NOT_FINITE d = false) as -> by (unfold DATE_NOT_FINITE, DATEVAL_NOBEGIN, DATEVAL_NOEND, INT32_MIN, INT32_MAX; lia).
  unfold POSTGRES_EPOCH_JDATE, EPOCH_DAYS. cbn [negb]. rewrite i32_id by (apply in_i32_iff; lia).
  pose proof (j2date_law (d + 2451545) ltac:(lia)) as Hj. destruct (j2date _) as [[y m] dd]. destruct Hj as [Hv Hn].
  unfold POSTGRES_EPOCH_JDATE, EPOCH_DAYS in Hn.
  eexists. split; [done|]. cbn [tm_year tm_mon tm_mday]. split; [|split; [done|lia]].
  pose proof (day_number_year _ _ _ Hv) as Hy. split.
  - destruct (Z.le_gt_cases 1 y); [done|]. pose proof (year_start_mono (y + 1) 1 ltac:(lia)).
    change (year_start 1) with 0 in *. lia.
  - destruct (Z.le_gt_cases y 10000); [done|]. pose proof (year_start_mono 10001 y ltac:(lia)).
    change (year_start 10001) with 3652425 in *. lia.
Qed.

Lemma new_year_valid y : valid_date (tm_year (new_year y)) (tm_mon (new_year y)) (tm_mday (new_year y)).
Proof. unfold valid_date. cbn. lia. Qed.

(** A DATE on the wire is the number of days since 0001-01-01, and both directions are exact for all
    dates from 0001-01-01 to 9999-12-31. *)
Theorem wire_date_roundtrip d : -730119 <= d <= 2921939 ->
  TdsDayDifference d = Ok (d + EPOCH_DAYS) /\ TdsTimeGetDatumFromDays (d + EPOCH_DAYS) = u64 d.
Proof.
  intros Hd. split.
  - unfold TdsDayDifference. destruct (date_fields d Hd) as (tm & -> & Hy & Hv & Hn). cbn [rbind].
    rewrite GetDayDifference_spec; [|cbn; lia|apply new_year_valid|done..]. rewrite Hn.
    change (day_number _ _ _) with 0. unfold EPOCH_DAYS. f_equal. rewrite u32_id; lia.
  - unfold TdsTimeGetDatumFromDays, EPOCH_DAYS. rewrite i32_id by (apply in_i32_iff; lia).
    pose proof (target_julian 1 (d + 730119) ltac:(lia) ltac:(lia)) as Ht. destruct (CalculateTargetDate _ _) as [[y m] dd].
    rewrite Ht. change (year_start 1) with 0. unfold EPOCH_DAYS, POSTGRES_EPOCH_JDATE.
    rewrite i32_id by (apply in_i32_iff; lia). f_equal. lia.
Qed.

(** ** SMALLDATETIME *)

Lemma datetime_fields t : common_era t -> exists tm fsec, GetDatetimeFromDatum t = Ok (tm, fsec) /\ fields t tm fsec.
Proof.
  intros Ht. destruct (tm_fields t Ht) as (tm & fsec & E & F). exists tm, fsec. split; [|done].
  unfold GetDatetimeFromDatum. destruct (common_era_valid t Ht) as [_ ->]. by rewrite E.
Qed.

Lemma days_since y1 t tm fsec : 1 <= y1 <= 1900 -> fields t tm fsec ->
  GetDayDifference (new_year y1) tm = t / USECS_PER_DAY + EPOCH_DAYS - year_start y1.
Proof.
  intros Hy F. pose proof (f_valid _ _ _ F) as (Hv & _).
  rewrite GetDayDifference_spec; [|cbn; lia|apply new_year_valid|apply F|done].
  rewrite (f_day _ _ _ F). unfold day_number. cbn. rewrite andb_false_r. lia.
Qed.

(** The timestamp of a day and a time of day. *)
Lemma target_timestamp y1 x h mi s fsec tz : 1 <= y1 <= 2000 -> -1000000 <= x <= 1000000000 -> 0 <= h <= 500000 ->
  0 <= mi <= 100 -> 0 <= s <= 100 -> 0 <= fsec <= 1000000 -> Z.abs (default 0 tz) <= 1000000 ->
  let '(y, m, d) := CalculateTargetDate y1 x in
  tm2timestamp (mk_tm s mi h d m y) fsec tz =
  in_range ((year_start y1 + x - EPOCH_DAYS) * USECS_PER_DAY + ((h * 60 + mi) * 60 + s) * USECS_PER_SEC + fsec +
    default 0 tz * USECS_PER_SEC).
Proof.
  intros Hy Hx Hh Hmi Hs Hf Htz. pose proof (CalculateTargetDate_spec y1 x ltac:(lia)) as Ht.
  destruct (CalculateTargetDate y1 x) as [[y m] d]. destruct Ht as (Hm & Hd & Hb & Hyy).
  rewrite tm2timestamp_law; [|unfold modest_tm; cbn; div_lia|done].
  unfold timestamp_of, time_of, date_of. cbn [tm_year tm_mon tm_mday tm_hour tm_min tm_sec]. rewrite Hd. unfold in_range.
  replace ((year_start y1 + x - EPOCH_DAYS) * USECS_PER_DAY + (((h * 60 + mi) * 60 + s) * USECS_PER_SEC + fsec) +
    default 0 tz * USECS_PER_SEC) with ((year_start y1 + x - EPOCH_DAYS) * USECS_PER_DAY +
    ((h * 60 + mi) * 60 + s) * USECS_PER_SEC + fsec + default 0 tz * USECS_PER_SEC) by lia. done.
Qed.

Lemma small_days t : is_smalldatetime t ->
  0 <= t / USECS_PER_DAY + EPOCH_DAYS - year_start 1900 <= 65535 /\ (t mod USECS_PER_DAY) mod USECS_PER_MINUTE = 0.
Proof.
  unfold is_smalldatetime, MIN_SMALLDATETIME, MAX_SMALLDATETIME, USECS_PER_DAY, USECS_PER_MINUTE, EPOCH_DAYS.
  change (year_start 1900) with 693595. intros. div_lia.
Qed.

(** A SMALLDATETIME on the wire is days since 1900 and minutes of the day, both of 16 bits; sending
    and receiving are exact on every value of the type. *)
Theorem wire_smalldatetime_roundtrip t : is_smalldatetime t ->
  exists days mins, TdsTimeDifferenceSmalldatetime t = Ok (days, mins) /\ 0 <= days < 65536 /\ 0 <= mins < 1440 /\
    TdsTimeGetDatumFromSmalldatetime days mins = Ok t.
Proof.
  intros Ht. destruct (datetime_fields t (smalldatetime_era t Ht)) as (tm & fsec & E & F).
  destruct (small_days t Ht) as [Hdays Hmin]. pose proof (f_valid _ _ _ F) as (_ & Hh & Hmi & Hs & Hf).
  pose proof (f_time _ _ _ F) as Htime. unfold time_of in Htime.
  assert (tm_sec tm = 0 /\ fsec = 0) as [Es Ef].
  { rewrite Htime in Hmin. unfold USECS_PER_MINUTE, USECS_PER_SEC in *. div_lia. }
  unfold TdsTimeDifferenceSmalldatetime. rewrite E. cbn [rbind]. rewrite Es, Ef.
  rewrite (days_since 1900 t tm fsec) by (lia || done). set (days := t / _ + _ - _) in *.
  rewrite andb_false_r. cbn [andb orb Z.eqb Z.gtb Z.compare].
  exists days, (tm_hour tm * 60 + tm_min tm). rewrite !u16_id by lia.
  split; [done|]. split; [lia|]. split; [lia|].
  unfold TdsTimeGetDatumFromSmalldatetime, GetDatetimeFromDaysMins.
  rewrite Z.rem_mod_nonneg, Z.quot_div_nonneg by lia.
  replace ((tm_hour tm * 60 + tm_min tm) mod 60) with (tm_min tm) by div_lia.
  replace ((tm_hour tm * 60 + tm_min tm) / 60) with (tm_hour tm) by div_lia.
  pose proof (target_timestamp 1900 days (tm_hour tm) (tm_min tm) 0 0 None ltac:(lia) ltac:(lia) ltac:(lia) ltac:(lia)
    ltac:(lia) ltac:(lia) ltac:(cbn; lia)) as Htt.
  destruct (CalculateTargetDate 1900 days) as [[y m] d]. rewrite Htt. cbn [default id].
  replace (_ + _ + 0 + 0 * USECS_PER_SEC) with t.
  - unfold in_range. destruct (common_era_valid t (smalldatetime_era t Ht)) as [-> _]. done.
  - subst days. rewrite Es, Ef in Htime. unfold USECS_PER_DAY, USECS_PER_SEC in *. div_lia.
Qed.
End dates.

(** ** DATETIME *)

Definition sent_tick : Q := 7505999303890833 # 2251799813685248.
Definition received_tick : Q := 7505999371444827 # 2251799813685248.

Lemma sent_tick_eq : double (33333333 # 10000000) = sent_tick.
Proof. by vm_compute. Qed.
Lemma received_tick_eq : double (333333333 # 100000000) = received_tick.
Proof. by vm_compute. Qed.

Lemma rational_bounds a b k : a <= k <= b -> (inject_Z a <= inject_Z k /\ inject_Z k <= inject_Z b)%Q.
Proof. intros [H1 H2]. by rewrite <- !Zle_Qle. Qed.

(** What the division by 3.3333333 gives for a whole number of hundredths of a second. *)
Lemma sent_ticks k : 0 <= k <= 8640000 -> trunc (ddiv (inject_Z (10 * k)) (double (33333333 # 10000000))) = 3 * k.
Proof.
  intros Hk. rewrite sent_tick_eq. unfold ddiv, sent_tick, Qdiv.
  rewrite !inject_Z_mult. change (/ (7505999303890833 # 2251799813685248))%Q with (2251799813685248 # 7505999303890833).
  destruct (rational_bounds _ _ _ Hk) as [H0 H1]. change (inject_Z 0) with 0%Q in H0.
  change (inject_Z 8640000) with (8640000 # 1)%Q in H1. change (inject_Z 10) with (10 # 1)%Q.
  destruct (double_near ((10 # 1) * inject_Z k * (2251799813685248 # 7505999303890833)) _ ltac:(lra) (Qle_refl _)) as [H2 H3].
  apply trunc_between; [lia|..]; rewrite inject_Z_mult; change (inject_Z 3) with (3 # 1)%Q; lra.
Qed.

(** What the product with 3.33333333 gives: one millisecond less than it should for the multiples of
    a hundredth of a second. *)
Lemma received_ticks n : 0 <= n <= 25920000 ->
  trunc (dmul (double (333333333 # 100000000)) (inject_Z n)) = if n =? 0 then 0 else (10 * n - 1) / 3.
Proof.
  intros Hn. rewrite received_tick_eq. unfold dmul, received_tick. destruct (n =? 0) eqn:E.
  - apply Z.eqb_eq in E as ->. by vm_compute.
  - apply Z.eqb_neq in E. assert (1 <= n <= 25920000) as Hn' by lia. destruct (rational_bounds _ _ _ Hn') as [H0 H1].
    change (inject_Z 1) with (1 # 1)%Q in H0. change (inject_Z 25920000) with (25920000 # 1)%Q in H1.
    assert (3 * ((10 * n - 1) / 3) <= 10 * n - 1 <= 3 * ((10 * n - 1) / 3) + 2) as Hr by div_lia.
    assert (0 <= (10 * n - 1) / 3) by div_lia. set (r := (10 * n - 1) / 3) in *. clearbody r.
    destruct Hr as [Hr1 Hr2]. rewrite Zle_Qle in Hr1, Hr2.
    rewrite inject_Z_mult in Hr1. rewrite (inject_Z_plus (3 * r)), (inject_Z_mult 3) in Hr2.
    unfold Z.sub in Hr1, Hr2. rewrite inject_Z_plus, inject_Z_mult in Hr1, Hr2.
    change (inject_Z (-(1))) with (-1 # 1)%Q in *. change (inject_Z 3) with (3 # 1)%Q in *.
    change (inject_Z 10) with (10 # 1)%Q in *. change (inject_Z 2) with (2 # 1)%Q in *.
    destruct (double_near ((7505999371444827 # 2251799813685248) * inject_Z n) _ ltac:(lra) (Qle_refl _)) as [H2 H3].
    apply trunc_between; [lia|lra|lra].
Qed.

Lemma extra_ticks_spec ms : 0 <= ms -> 3 * ((ms - Z.rem ms 10) / 10) + extra_ticks (Z.rem ms 10) = (ms * 3 + 5) / 10.
Proof.
  intros. rewrite Z.rem_mod_nonneg by lia.
  assert (ms mod 10 = 0 \/ ms mod 10 = 1 \/ ms mod 10 = 2 \/ ms mod 10 = 3 \/ ms mod 10 = 4 \/ ms mod 10 = 5 \/
    ms mod 10 = 6 \/ ms mod 10 = 7 \/ ms mod 10 = 8 \/ ms mod 10 = 9) as Hc by div_lia.
  by repeat (destruct Hc as [E|Hc]; [rewrite E; cbn [extra_ticks]; div_lia|]); rewrite Hc; cbn [extra_ticks]; div_lia.
Qed.

Section datetimes.
Context `{PgCalendarLaws}.
Variable bad_cast : Z.

(** Sending a timestamp that is not in the last millisecond of its day: days since 1900 and the
    nearest tick. *)
Lemma sent_datetime t : common_era t -> t mod USECS_PER_DAY < 86399999000 ->
  TdsTimeDifferenceDatetime bad_cast t =
  Ok (u32 (t / USECS_PER_DAY + EPOCH_DAYS - year_start 1900), ticks_of (t mod USECS_PER_DAY)).
Proof.
  intros Ht Hlast. destruct (datetime_fields t Ht) as (tm & fsec & E & F).
  pose proof (f_valid _ _ _ F) as (_ & Hh & Hmi & Hs & Hf). pose proof (f_time _ _ _ F) as Htime. unfold time_of in Htime.
  unfold TdsTimeDifferenceDatetime. rewrite E. cbn [rbind]. rewrite (days_since 1900 t tm fsec) by (lia || done).
  unfold USECS_PER_SEC in Htime. rewrite Htime in *.
  assert ((tm_hour tm =? 23) && (tm_min tm =? 59) && (tm_sec tm =? 59) && (fsec =? 999000) = false) as -> by lia.
  set (secs := (tm_hour tm * 60 + tm_min tm) * 60 + tm_sec tm) in *.
  assert (0 <= secs <= 86399) as Hsecs by lia.
  rewrite (Z.quot_div_nonneg fsec) by lia. set (ms := fsec / 1000). assert (0 <= ms <= 999) as Hms by (subst ms; div_lia).
  pose proof (extra_ticks_spec ms ltac:(lia)) as Hx. rewrite Z.rem_mod_nonneg in * by lia.
  set (k := secs * 100 + (ms - ms mod 10) / 10).
  assert (secs * 1000 + (ms - ms mod 10) = 10 * k /\ 0 <= k <= 8640000) as [Ek Hk] by (subst k; div_lia).
  rewrite Ek, (u32_id (10 * k)) by lia. unfold cast_to. rewrite sent_ticks by done.
  assert (in_i32 (3 * k) = true) as -> by (apply in_i32_iff; lia).
  assert (3 * k + extra_ticks (ms mod 10) = ticks_of (secs * 1000000 + fsec)) as ->.
  { subst k. unfold ticks_of. replace ((secs * 1000000 + fsec) / 1000) with (secs * 1000 + ms) by (subst ms; div_lia). div_lia. }
  rewrite (u32_id (ticks_of _)); [done|]. unfold ticks_of. div_lia.
Qed.

(** Milliseconds of the day that a number of ticks is received as. *)
Definition received_ms (ticks : Z) : Z :=
  let ms := if ticks =? 0 then 0 else (10 * ticks - 1) / 3 in if ms mod 1000 =? 999 then ms + 1 else ms.

Lemma received_datetime days ticks : -100000 <= days <= 3000000 -> 0 <= ticks <= 25920000 ->
  TdsTimeGetDatumFromDatetime bad_cast (u32 days) ticks =
  Ok ((year_start 1900 + days - EPOCH_DAYS) * USECS_PER_DAY + received_ms ticks * 1000).
Proof.
  intros Hd Ht. unfold TdsTimeGetDatumFromDatetime, GetDatetimeFromDaysTicks.
  assert (i32 (u32 days) = days) as -> by (unfold u32, uwrap; rewrite i32_unfold; div_lia).
  unfold cast_to. rewrite received_ticks by done. unfold received_ms. set (ms := if ticks =? 0 then _ else _).
  assert (0 <= ms <= 86400000) as Hms by (subst ms; case_match; div_lia). clearbody ms.
  assert (in_i32 ms = true) as -> by (apply in_i32_iff; lia).
  rewrite Z.rem_mod_nonneg, Z.quot_div_nonneg by lia. cbv zeta.
  assert ((ms mod 1000 * 1000 =? 999000) = (ms mod 1000 =? 999)) as -> by (apply eq_true_iff_eq; rewrite !Z.eqb_eq; lia).
  set (s := if ms mod 1000 =? 999 then ms / 1000 + 1 else ms / 1000).
  set (fsec := if ms mod 1000 =? 999 then 0 else ms mod 1000 * 1000).
  replace (if ms mod 1000 =? 999 then (ms / 1000 + 1, 0) else (ms / 1000, ms mod 1000 * 1000)) with (s, fsec)
    by (subst s fsec; by case_match).
  assert ((if ms mod 1000 =? 999 then ms + 1 else ms) * 1000 = s * 1000000 + fsec /\ 0 <= s <= 86400 /\ 0 <= fsec < 1000000)
    as (-> & Hs & Hf) by (subst s fsec; case_match; div_lia).
  clearbody s fsec. rewrite !Z.quot_div_nonneg, !Z.rem_mod_nonneg by div_lia.
  pose proof (target_timestamp 1900 days (s / 60 / 60) (s / 60 mod 60) (s mod 60) fsec None ltac:(lia) ltac:(lia)
    ltac:(div_lia) ltac:(div_lia) ltac:(div_lia) ltac:(lia) ltac:(cbn; lia)) as Htt.
  destruct (CalculateTargetDate 1900 days) as [[y m] d]. cbv beta iota. rewrite Htt. cbn [default id]. unfold in_range.
  replace (((s / 60 / 60 * 60 + s / 60 mod 60) * 60 + s mod 60) * USECS_PER_SEC) with (s * 1000000)
    by (unfold USECS_PER_SEC; div_lia).
  change (year_start 1900) with 693595. unfold USECS_PER_DAY, USECS_PER_SEC, EPOCH_DAYS.
  rewrite Z.mul_0_l, Z.add_0_r, Z.add_assoc.
  assert (valid_timestamp ((693595 + days - 730119) * 86400000000 + s * 1000000 + fsec) = true) as ->; [|done].
  unfold valid_timestamp, MIN_TIMESTAMP, END_TIMESTAMP. lia.
Qed.

Lemma received_ms_tick ticks : 0 <= ticks -> ticks_of (received_ms ticks * 1000) = ticks /\
  (ticks < 25920000 -> 0 <= received_ms ticks < 86399998).
Proof.
  intros Ht. unfold received_ms, ticks_of. rewrite Z.div_mul by lia.
  destruct (ticks =? 0) eqn:E; [apply Z.eqb_eq in E as ->; by vm_compute|]. apply Z.eqb_neq in E. cbv zeta.
  set (ms := (10 * ticks - 1) / 3). assert (ticks = (ms * 3 + 5) / 10 /\ 0 <= ms /\ (ticks < 25920000 -> ms <= 86399996)) as (Hm & ? & ?)
    by (subst ms; div_lia). clearbody ms. case_match; div_lia.
Qed.

(** A DATETIME on the wire is days since 1900 and ticks of 1/300 second. What is received from a
    sent value is within a tick of it, rounds to it, and is sent again as the same two numbers,
    before 1900 as well. *)
Theorem wire_datetime_roundtrip t : IS_VALID_DATETIME t = true -> to_tick t = t ->
  exists days ticks r, TdsTimeDifferenceDatetime bad_cast t = Ok (days, ticks) /\ 0 <= days < 2 ^ 32 /\ 0 <= ticks < 25920000 /\
    TdsTimeGetDatumFromDatetime bad_cast days ticks = Ok r /\ to_tick r = t /\
    TdsTimeDifferenceDatetime bad_cast r = Ok (days, ticks).
Proof.
  intros Hv Hg. destruct (datetime_common_era t Hv) as [Hce _].
  set (a := t / USECS_PER_DAY). set (u := t mod USECS_PER_DAY).
  assert (t = 10000 * (8640000 * a) + u /\ 0 <= u < 86400000000) as [Et Hu] by (subst a u; unfold USECS_PER_DAY; div_lia).
  assert (-90255 <= a <= 2921939) as Ha.
  { subst a. unfold IS_VALID_DATETIME, MIN_DATETIME, END_DATETIME, USECS_PER_DAY in *. div_lia. }
  assert (to_tick u = u) as Hgu by (pose proof (to_tick_periodic (8640000 * a) u) as Hp; rewrite <- Et in Hp; lia).
  assert (0 <= ticks_of u < 25920000 /\ u < 86399999000) as [Hticks Hlast].
  { unfold to_tick, timestamp_of_ticks, ticks_of in *. div_lia. }
  pose proof (sent_datetime t Hce Hlast) as Hs. fold a u in Hs.
  exists (u32 (a + EPOCH_DAYS - year_start 1900)), (ticks_of u), (a * USECS_PER_DAY + received_ms (ticks_of u) * 1000).
  destruct (received_ms_tick (ticks_of u) ltac:(lia)) as [Hrt Hrb]. specialize (Hrb ltac:(lia)).
  set (w := received_ms (ticks_of u) * 1000) in *.
  assert ((a * USECS_PER_DAY + w) / USECS_PER_DAY = a /\ (a * USECS_PER_DAY + w) mod USECS_PER_DAY = w) as [Er1 Er2].
  { unfold USECS_PER_DAY. div_lia. }
  split; [done|]. split; [by apply Z.mod_pos_bound|]. split; [done|]. split; [|split].
  - rewrite received_datetime; [|change (year_start 1900) with 693595; unfold EPOCH_DAYS; lia|lia]. f_equal. lia.
  - unfold USECS_PER_DAY. replace (a * 86400000000) with (10000 * (8640000 * a)) by lia. rewrite to_tick_periodic.
    unfold to_tick at 1. rewrite Hrt. fold (to_tick u). lia.
  - rewrite sent_datetime; [by rewrite Er1, Er2, Hrt| |lia].
    unfold common_era, IS_VALID_DATETIME, MIN_DATETIME, END_DATETIME, USECS_PER_DAY in *. lia.
Qed.
End datetimes.

(** The value received need not be one of the type: three ticks, 10 ms, arrive as 9 ms. *)
Theorem received_datetime_off_grid bad_cast :
  TdsTimeGetDatumFromDatetime bad_cast 0 3 = Ok (TSQL_DEFAULT_DATETIME + 9000) /\
  to_tick (TSQL_DEFAULT_DATETIME + 9000) = TSQL_DEFAULT_DATETIME + 10000.
Proof. by vm_compute. Qed.

(** ** Concrete inputs *)

Lemma wire_date_roundtrip_witness : TdsDayDifference (-1) = Ok 730118 /\ TdsTimeGetDatumFromDays 730118 = u64 (-1).
Proof. exact (wire_date_roundtrip (-1) ltac:(lia)). Defined.

Lemma wire_smalldatetime_roundtrip_witness : is_smalldatetime MAX_SMALLDATETIME /\
  exists days mins, TdsTimeDifferenceSmalldatetime MAX_SMALLDATETIME = Ok (days, mins) /\
    TdsTimeGetDatumFromSmalldatetime days mins = Ok MAX_SMALLDATETIME.
Proof.
  assert (is_smalldatetime MAX_SMALLDATETIME) as Hi by (split; [by vm_compute|unfold MIN_SMALLDATETIME, MAX_SMALLDATETIME; lia]).
  split; [exact Hi|]. destruct (wire_smalldatetime_roundtrip _ Hi) as (days & mins & H1 & _ & _ & H2). exists days, mins. split; [exact H1|exact H2].
Defined.

Lemma wire_datetime_roundtrip_witness : exists days ticks r,
  TdsTimeDifferenceDatetime 0 (MIN_DATETIME + 10000) = Ok (days, ticks) /\
  TdsTimeGetDatumFromDatetime 0 days ticks = Ok r /\ to_tick r = MIN_DATETIME + 10000.
Proof.
  destruct (wire_datetime_roundtrip 0 (MIN_DATETIME + 10000)) as (days & ticks & r & H1 & _ & _ & H2 & H3 & _); [by vm_compute..|].
  exists days, ticks, r. split; [exact H1|split; [exact H2|exact H3]].
Defined.

(** ** Times with a declared scale

    Such a time is sent as a number of units of 10^-scale second, computed in double precision in
    both directions; the rounding errors stay far below half a unit. *)

(** ** Rounding errors *)

Open Scope Q_scope.

Lemma double_relative x : 0 <= x ->
  x - x * (1 # 9007199254740992) <= double x /\ double x <= x + x * (1 # 9007199254740992).
Proof. intros. apply double_near; [done|apply Qle_refl]. Qed.

Lemma inject_eq (x y : Q) : x = y -> x == y.
Proof. by intros ->. Qed.

Lemma ten_power k : inject_Z (10 ^ Z.of_nat (S k)) == 10 * inject_Z (10 ^ Z.of_nat k).
Proof. rewrite Nat2Z.inj_succ, Z.pow_succ_r by lia. by rewrite inject_Z_mult. Qed.

Lemma ten_power_pos k : 1 <= inject_Z (10 ^ Z.of_nat k).
Proof. change 1 with (inject_Z 1). rewrite <- Zle_Qle. lia. Qed.

(** Repeated multiplication by ten, starting near [v]: the error grows with the value. *)
Lemma times_ten_near k x v : (k <= 7)%nat -> 0 <= v -> v <= 86400 -> 0 <= x -> v - (1 # 10000000000) <= x -> x <= v + (1 # 10000000000) ->
  let P := inject_Z (10 ^ Z.of_nat k) in
  let D := P * (inject_Z (Z.of_nat k + 1) * (1 # 10000000000)) in
  0 <= times_ten k x /\ v * P - D <= times_ten k x /\ times_ten k x <= v * P + D.
Proof.
  intros Hk Hv0 Hv Hx0 Hx1 Hx2. induction k as [|k IH].
  - cbv zeta. change (inject_Z (10 ^ Z.of_nat 0)) with 1. change (inject_Z (Z.of_nat 0 + 1)) with 1.
    change (times_ten 0 x) with x. lra.
  - cbn zeta in *. specialize (IH ltac:(lia)). destruct IH as (I0 & I1 & I2).
    change (times_ten (S k) x) with (dmul (times_ten k x) (inject_Z 10)). unfold dmul.
    set (y := times_ten k x) in *. clearbody y. rewrite ten_power. pose proof (ten_power_pos k) as HP.
    set (P := inject_Z (10 ^ Z.of_nat k)) in *. clearbody P.
    assert (inject_Z (Z.of_nat (S k) + 1) == inject_Z (Z.of_nat k + 1) + 1) as ->.
    { rewrite <- (inject_Z_plus _ 1). by replace (Z.of_nat (S k) + 1)%Z with (Z.of_nat k + 1 + 1)%Z by lia. }
    assert (inject_Z (Z.of_nat k + 1) <= 8 /\ 0 <= inject_Z (Z.of_nat k + 1)) as [Hc1 Hc0].
    { change 8 with (inject_Z 8). change 0 with (inject_Z 0). rewrite <- !Zle_Qle. lia. }
    set (c := inject_Z (Z.of_nat k + 1)) in *. clearbody c.
    assert (P * (c * (1 # 10000000000)) <= P * (1 # 1000000000)) as HD by nra.
    assert (0 <= P * (c * (1 # 10000000000))) as HD0 by nra.
    assert (v * P <= 86400 * P) as HW by nra. assert (0 <= v * P) as HW0 by nra.
    assert (P * ((c + 1) * (1 # 10000000000)) == P * (c * (1 # 10000000000)) + P * (1 # 10000000000)) as E1 by ring.
    assert (10 * P * ((c + 1) * (1 # 10000000000)) == 10 * (P * (c * (1 # 10000000000))) + 10 * P * (1 # 10000000000)) as -> by ring.
    assert (v * (10 * P) == 10 * (v * P)) as -> by ring.
    set (W := v * P) in *. set (D := P * (c * (1 # 10000000000))) in *. clearbody W D. clear E1.
    change (inject_Z 10) with 10.
    destruct (double_relative (y * 10) ltac:(lra)) as [H1 H2]. lra.
Qed.

(** Repeated division by ten, starting at [N]. *)
Lemma over_ten_near k N : (k <= 7)%nat -> 0 <= N ->
  let P := inject_Z (10 ^ Z.of_nat k) in
  let D := N * (inject_Z (Z.of_nat k) * (1 # 4503599627370496)) in
  0 <= over_ten k N /\ N - D <= P * over_ten k N /\ P * over_ten k N <= N + D.
Proof.
  intros Hk HN. induction k as [|k IH].
  - cbv zeta. change (inject_Z (10 ^ Z.of_nat 0)) with 1. change (inject_Z (Z.of_nat 0)) with 0.
    change (over_ten 0 N) with N. lra.
  - cbv zeta in *. specialize (IH ltac:(lia)). destruct IH as (I0 & I1 & I2).
    change (over_ten (S k) N) with (ddiv (over_ten k N) (inject_Z 10)). unfold ddiv.
    set (y := over_ten k N) in *. clearbody y. rewrite ten_power. pose proof (ten_power_pos k) as HP.
    set (P := inject_Z (10 ^ Z.of_nat k)) in *. clearbody P.
    assert (inject_Z (Z.of_nat (S k)) == inject_Z (Z.of_nat k) + 1) as ->.
    { rewrite <- (inject_Z_plus _ 1). by replace (Z.of_nat (S k)) with (Z.of_nat k + 1)%Z by lia. }
    assert (inject_Z (Z.of_nat k) <= 8 /\ 0 <= inject_Z (Z.of_nat k)) as [Hc1 Hc0].
    { change 8 with (inject_Z 8). change 0 with (inject_Z 0). rewrite <- !Zle_Qle. lia. }
    set (c := inject_Z (Z.of_nat k)) in *. clearbody c.
    assert (N * ((c + 1) * (1 # 4503599627370496)) == N * (c * (1 # 4503599627370496)) + N * (1 # 4503599627370496)) as -> by ring.
    assert (N * (c * (1 # 4503599627370496)) <= N) as HD by nra.
    set (D := N * (c * (1 # 4503599627370496))) in *. clearbody D.
    assert (y / inject_Z 10 == y * (1 # 10)) as -> by (unfold Qdiv; done).
    destruct (double_relative (y * (1 # 10)) ltac:(lra)) as [H1 H2]. set (z := double _) in *. clearbody z.
    assert (P * (y - y * (1 # 9007199254740992)) <= 10 * P * z) as L1 by nra.
    assert (10 * P * z <= P * (y + y * (1 # 9007199254740992))) as L2 by nra.
    assert (P * (y - y * (1 # 9007199254740992)) == P * y - P * y * (1 # 9007199254740992)) as E1 by ring.
    assert (P * (y + y * (1 # 9007199254740992)) == P * y + P * y * (1 # 9007199254740992)) as E2 by ring.
    rewrite E1 in L1. rewrite E2 in L2. set (Y := P * y) in *. clearbody Y.
    split; [lra|]. split; lra.
Qed.

Lemma round_micro_near bad q us : (0 <= us <= 100000000000)%Z -> 0 <= q ->
  inject_Z us - (1 # 1000) <= q -> q <= inject_Z us + (1 # 1000) -> round_micro bad q = us.
Proof.
  intros Hus Hq H1 H2. unfold round_micro, cast_to.
  assert (forall z, (0 <= z <= 100000000000)%Z -> in_u64 z = true) as Hfit by (unfold in_u64; lia).
  assert (forall z, (0 <= z <= 100000000000)%Z -> double (inject_Z z) == inject_Z z) as Hdb by (intros; apply double_int; lia).
  destruct (Qlt_le_dec q (inject_Z us)) as [Hlt|Hge].
  - assert (1 <= us)%Z as Hus1.
    { destruct (Z.le_gt_cases 1 us); [done|]. assert (us = 0)%Z as -> by lia. change (inject_Z 0) with 0 in Hlt. lra. }
    assert (inject_Z (us - 1) == inject_Z us - 1) as Ep by (unfold Z.sub; by rewrite inject_Z_plus).
    assert (trunc q = us - 1)%Z as -> by (apply trunc_between; [lia|rewrite Ep; lra..]). rewrite Hfit by lia.
    destruct (Qle_bool _ _) eqn:E; [|rewrite u64_id by lia; lia]. exfalso. apply Qle_bool_iff in E. unfold dadd in E.
    rewrite (Hdb (us - 1)%Z), Ep in E by lia.
    destruct (double_relative (q + - (inject_Z us - 1)) ltac:(lra)). lra.
  - assert (trunc q = us) as -> by (apply trunc_between; [lia|lra..]). rewrite Hfit by lia.
    destruct (Qle_bool _ _) eqn:E; [done|]. exfalso.
    assert (Qle_bool (dadd q (- double (inject_Z us))) (1 # 2) = true); [|congruence].
    apply Qle_bool_iff. unfold dadd. rewrite (Hdb us) by lia.
    destruct (double_relative (q + - inject_Z us) ltac:(lra)). lra.
Qed.

(** Scaling a number near [v] up and rounding: the whole number of units that [v] is. *)
Lemma scaled_units bad x v scale N : (scale <= 7)%nat -> 0 <= v -> v <= 86400 -> 0 <= x ->
  v - (1 # 10000000000) <= x -> x <= v + (1 # 10000000000) -> (0 <= N <= 1000000000000)%Z ->
  v * inject_Z (10 ^ Z.of_nat scale) == inject_Z N ->
  cast_to bad in_u64 (dadd (times_ten scale x) (1 # 2)) = N.
Proof.
  intros Hk V0 V1 X0 X1 X2 HN EN. destruct (times_ten_near scale x v Hk) as (T0 & T1 & T2); [done..|]. cbv zeta in T1, T2.
  assert (inject_Z (Z.of_nat scale + 1) <= 8 /\ 0 <= inject_Z (Z.of_nat scale + 1)) as [Hc1 Hc0].
  { change 8 with (inject_Z 8). change 0 with (inject_Z 0). rewrite <- !Zle_Qle. lia. }
  assert (inject_Z (10 ^ Z.of_nat scale) <= 10000000) as HP1.
  { change 10000000 with (inject_Z (10 ^ 7)). rewrite <- Zle_Qle. apply Z.pow_le_mono_r; lia. }
  pose proof (ten_power_pos scale) as HP0. set (P := inject_Z (10 ^ Z.of_nat scale)) in *. clearbody P.
  set (c := inject_Z (Z.of_nat scale + 1)) in *. clearbody c.
  assert (P * (c * (1 # 10000000000)) <= 1 # 100) as HD by nra.
  set (D := P * (c * (1 # 10000000000))) in *. clearbody D. rewrite EN in T1, T2. clear EN.
  destruct (rational_bounds _ _ _ HN) as [N0 N1]. change (inject_Z 1000000000000) with 1000000000000 in N1.
  set (y := times_ten scale x) in *. clearbody y. unfold dadd, cast_to.
  destruct (double_relative (y + (1 # 2)) ltac:(lra)) as [C1 C2].
  assert (trunc (double (y + (1 # 2))) = N) as -> by (apply trunc_between; [lia|lra..]).
  assert (in_u64 N = true) as -> by (unfold in_u64; lia). done.
Qed.

(** The number of units that is sent is exact when the time is a whole number of units. *)
Lemma sent_units bad secs fsec scale N : (0 <= secs <= 86399)%Z -> (0 <= fsec <= 999999)%Z -> (scale <= 7)%nat ->
  (0 <= N <= 1000000000000)%Z -> (N * 1000000 = (secs * 1000000 + fsec) * 10 ^ Z.of_nat scale)%Z ->
  cast_to bad in_u64 (dadd (times_ten scale (dadd (inject_Z secs) (ddiv (inject_Z fsec) (inject_Z 1000000)))) (1 # 2)) = N.
Proof.
  intros Hs Hf Hk HN E.
  destruct (rational_bounds _ _ _ Hs) as [S0 S1]. destruct (rational_bounds _ _ _ Hf) as [F0 F1].
  change (inject_Z 0) with 0 in S0, F0. change (inject_Z 86399) with 86399 in S1. change (inject_Z 999999) with 999999 in F1.
  apply (f_equal inject_Z) in E. rewrite !inject_Z_mult, inject_Z_plus, inject_Z_mult in E.
  change (inject_Z 1000000) with 1000000 in E. apply inject_eq in E.
  set (S := inject_Z secs) in *. set (F := inject_Z fsec) in *. clearbody S F.
  change (ddiv F (inject_Z 1000000)) with (double (F * (1 # 1000000))).
  destruct (double_relative (F * (1 # 1000000)) ltac:(lra)) as [A1 A2]. set (f := double _) in *. clearbody f.
  unfold dadd at 2. destruct (double_relative (S + f) ltac:(lra)) as [B1 B2]. set (x := double (S + f)) in *. clearbody x.
  apply (scaled_units bad x (S + F * (1 # 1000000))); [done|lra..|done|lra].
Qed.

(** The microseconds that are received are close to a whole number of them. *)
Lemma received_near scale N us : (scale <= 7)%nat -> (0 <= N <= 1000000000000)%Z -> (0 <= us <= 86400000000)%Z ->
  (us * 10 ^ Z.of_nat scale = N * 1000000)%Z ->
  let q := dmul (over_ten scale (double (inject_Z N))) (inject_Z 1000000) in
  0 <= q /\ inject_Z us - (1 # 1000) <= q /\ q <= inject_Z us + (1 # 1000).
Proof.
  intros Hk HN Hus E. destruct (rational_bounds _ _ _ HN) as [N0 _]. destruct (rational_bounds _ _ _ Hus) as [U0 U1].
  change (inject_Z 0) with 0 in N0, U0. change (inject_Z 86400000000) with 86400000000 in U1.
  apply (f_equal inject_Z) in E. rewrite !inject_Z_mult in E. change (inject_Z 1000000) with 1000000 in E. apply inject_eq in E.
  pose proof (double_int N ltac:(lia)) as EN. set (n := double (inject_Z N)) in *. clearbody n. rewrite <- EN in *. clear EN.
  destruct (over_ten_near scale n Hk N0) as (T0 & T1 & T2). cbv zeta in T1, T2.
  assert (inject_Z (Z.of_nat scale) <= 8 /\ 0 <= inject_Z (Z.of_nat scale)) as [Hc1 Hc0].
  { change 8 with (inject_Z 8). change 0 with (inject_Z 0). rewrite <- !Zle_Qle. lia. }
  pose proof (ten_power_pos scale) as HP0. set (P := inject_Z (10 ^ Z.of_nat scale)) in *. clearbody P.
  set (c := inject_Z (Z.of_nat scale)) in *. clearbody c. set (y := over_ten scale n) in *. clearbody y.
  assert (n * (c * (1 # 4503599627370496)) <= n * (8 # 4503599627370496)) as HD by nra.
  set (D := n * (c * (1 # 4503599627370496))) in *. clearbody D. set (U := inject_Z us) in *.
  assert (P * (U - U * (8 # 4503599627370496)) <= P * (y * 1000000)) as L1 by nra.
  assert (P * (y * 1000000) <= P * (U + U * (8 # 4503599627370496))) as L2 by nra.
  rewrite Qmult_le_l in L1, L2 by lra.
  unfold dmul. change (inject_Z 1000000) with 1000000. cbv zeta.
  destruct (double_relative (y * 1000000) ltac:(lra)) as [C1 C2]. set (z := double _) in *. clearbody z.
  split; [|split]; fold U; lra.
Qed.

Lemma received_units bad scale N us : (scale <= 7)%nat -> (0 <= N <= 1000000000000)%Z -> (0 <= us <= 86400000000)%Z ->
  (us * 10 ^ Z.of_nat scale = N * 1000000)%Z ->
  round_micro bad (dmul (over_ten scale (double (inject_Z N))) (inject_Z 1000000)) = us.
Proof. intros Hk HN Hus E. destruct (received_near scale N us) as (? & ? & ?); [done..|]. apply round_micro_near; [lia|done..]. Qed.

(** Cut instead of rounded, the microseconds may be one less. *)
Lemma received_cut scale N us : (scale <= 7)%nat -> (0 <= N <= 1000000000000)%Z -> (0 <= us <= 86400000000)%Z ->
  (us * 10 ^ Z.of_nat scale = N * 1000000)%Z ->
  let q := dmul (over_ten scale (double (inject_Z N))) (inject_Z 1000000) in
  0 <= q /\ q <= inject_Z us + (1 # 1000) /\ (us - 1 <= trunc q <= us)%Z.
Proof.
  intros Hk HN Hus E. cbv zeta. destruct (received_near scale N us) as (H0 & H1 & H2); [done..|].
  set (q := dmul _ _) in *. clearbody q. split; [done|]. split; [done|].
  destruct (Qlt_le_dec q (inject_Z us)) as [Hlt|Hge].
  - assert (1 <= us)%Z as Hus1.
    { destruct (Z.le_gt_cases 1 us); [done|]. assert (us = 0)%Z as -> by lia. change (inject_Z 0) with 0 in Hlt. lra. }
    assert (inject_Z (us - 1) == inject_Z us - 1) as Ep by (unfold Z.sub; by rewrite inject_Z_plus).
    assert (trunc q = us - 1)%Z as -> by (apply trunc_between; [lia|rewrite Ep; lra..]). lia.
  - assert (trunc q = us) as -> by (apply trunc_between; [lia|lra..]). lia.
Qed.

(** The units of a time of day, from one quotient. *)
Lemma sent_time_units bad us scale N : (0 <= us < 86400000000)%Z -> (scale <= 7)%nat ->
  (0 <= N <= 1000000000000)%Z -> (N * 1000000 = us * 10 ^ Z.of_nat scale)%Z ->
  cast_to bad in_u64 (dadd (times_ten scale (ddiv (double (inject_Z us)) (inject_Z 1000000))) (1 # 2)) = N.
Proof.
  intros Hu Hk HN E. assert (0 <= us <= 86400000000)%Z as Hu' by lia. destruct (rational_bounds _ _ _ Hu') as [U0 U1].
  change (inject_Z 0) with 0 in U0. change (inject_Z 86400000000) with 86400000000 in U1.
  apply (f_equal inject_Z) in E. rewrite !inject_Z_mult in E. change (inject_Z 1000000) with 1000000 in E. apply inject_eq in E.
  pose proof (double_int us ltac:(lia)) as Eu. set (n := double (inject_Z us)) in *. clearbody n. rewrite <- Eu in *. clear Eu.
  change (ddiv n (inject_Z 1000000)) with (double (n * (1 # 1000000))).
  destruct (double_relative (n * (1 # 1000000)) ltac:(lra)) as [B1 B2]. set (x := double _) in *. clearbody x.
  apply (scaled_units bad x (n * (1 # 1000000))); [done|lra..|done|lra].
Qed.
Close Scope Q_scope.

(** ** DATETIME2, TIME and DATETIMEOFFSET *)

Section scaled.
Context `{PgCalendarLaws}.
Variable bad_cast : Z.

(** Units of a time of day that is a whole number of them. *)
Lemma whole_units scale u : (scale <= 7)%nat -> 0 <= u < 86400000000 -> u mod digit_scale (Z.of_nat scale) = 0 ->
  let N := u * 10 ^ Z.of_nat scale / 1000000 in
  N * 1000000 = u * 10 ^ Z.of_nat scale /\ 0 <= N < 86400 * 10 ^ Z.of_nat scale /\ N <= 1000000000000.
Proof.
  intros Hk Hu Hm. unfold digit_scale in Hm.
  assert (scale = 0 \/ scale = 1 \/ scale = 2 \/ scale = 3 \/ scale = 4 \/ scale = 5 \/ scale = 6 \/ scale = 7)%nat as Hc by lia.
  destruct Hc as [->|[->|[->|[->|[->|[->|[->| ->]]]]]]];
    match type of Hm with _ mod (10 ^ ?e) = 0 => let v := eval vm_compute in (10 ^ e) in change (10 ^ e) with v in Hm end;
    match goal with |- context [u * 10 ^ ?e] => let v := eval vm_compute in (10 ^ e) in change (10 ^ e) with v end; div_lia.
Qed.

Lemma received_day_time days N us tz scale : 0 <= days <= 3652058 -> (scale <= 7)%nat -> 0 <= N <= 1000000000000 ->
  0 <= us < 86400000000 -> us * 10 ^ Z.of_nat scale = N * 1000000 -> Z.abs tz <= 1000000 ->
  TdsGetTimestampFromDayTime bad_cast days N tz scale =
  or_timestamp_range (in_range ((days - EPOCH_DAYS) * USECS_PER_DAY + us + tz * USECS_PER_SEC)).
Proof.
  intros Hd Hk HN Hus E Htz. unfold TdsGetTimestampFromDayTime. rewrite i32_id by (apply in_i32_iff; lia).
  rewrite (received_units bad_cast scale N us) by (done || lia).
  rewrite (i32_id (_ / 60)) by (apply in_i32_iff; div_lia). cbv zeta.
  pose proof (target_timestamp 1 days (us / 1000000 / 60 / 60) (us / 1000000 / 60 mod 60) (us / 1000000 mod 60)
    (us mod 1000000) (Some tz) ltac:(lia) ltac:(lia) ltac:(div_lia) ltac:(div_lia) ltac:(div_lia) ltac:(div_lia) ltac:(cbn; lia)) as Htt.
  destruct (CalculateTargetDate 1 days) as [[y m] d]. rewrite Htt. change (year_start 1) with 0. cbn [default id].
  do 2 f_equal. unfold USECS_PER_SEC. div_lia.
Qed.

(** A DATETIME2 with [scale] fractional digits on the wire is days since 0001-01-01 and units of
    10^-scale second: a value that has been rounded to its scale is sent exactly, within the range of
    the type, and received as it was; with a time zone the server moves it by that many seconds.
    Every scale from 0 to 7 and every value from 0001-01-01 to the end of 9999 is covered, although
    both directions compute in double precision. *)
Theorem wire_datetime2_roundtrip t scale : IS_VALID_DATETIME2 t = true -> (scale <= 7)%nat ->
  t mod digit_scale (Z.of_nat scale) = 0 ->
  let days := t / USECS_PER_DAY + EPOCH_DAYS in
  let units := t mod USECS_PER_DAY * 10 ^ Z.of_nat scale / 1000000 in
  TdsGetDayTimeFromTimestamp bad_cast t scale = Ok (days, units) /\
  0 <= days <= 3652058 /\ 0 <= units < 86400 * 10 ^ Z.of_nat scale /\
  forall tz, Z.abs tz <= 1000000 ->
    TdsGetTimestampFromDayTime bad_cast days units tz scale =
    or_timestamp_range (in_range (t + tz * USECS_PER_SEC)).
Proof.
  intros Hv Hk Hm days units.
  assert (common_era t) as Hce by (unfold IS_VALID_DATETIME2, MIN_DATETIME2, END_DATETIME2, common_era in *; lia).
  destruct (tm_fields t Hce) as (tm & fsec & E & F). pose proof (f_valid _ _ _ F) as (_ & Hh & Hmi & Hs & Hf).
  pose proof (f_time _ _ _ F) as Htime. unfold time_of, USECS_PER_SEC in Htime.
  set (secs := (tm_hour tm * 60 + tm_min tm) * 60 + tm_sec tm) in *. assert (0 <= secs <= 86399) as Hsecs by lia.
  assert (0 <= days <= 3652058) as Hdays.
  { subst days. unfold IS_VALID_DATETIME2, MIN_DATETIME2, END_DATETIME2, USECS_PER_DAY, EPOCH_DAYS in *. div_lia. }
  assert ((t mod USECS_PER_DAY) mod digit_scale (Z.of_nat scale) = 0 /\ 0 <= t mod USECS_PER_DAY < 86400000000) as [Hmu Hu].
  { unfold USECS_PER_DAY. pose proof (scale_cases (Z.of_nat scale) ltac:(lia)) as Hsc. cbv zeta in Hsc.
    set (s := digit_scale _) in *. clearbody s. destruct Hsc as [->|[->|[->|[->|[->|[->| ->]]]]]]; div_lia. }
  destruct (whole_units scale _ Hk Hu Hmu) as (HN & HN1 & HN2). fold units in HN, HN1, HN2.
  split; [|split; [done|split; [done|]]].
  - unfold TdsGetDayTimeFromTimestamp. rewrite E. rewrite (days_since 1 t tm fsec) by (lia || done).
    change (year_start 1) with 0. rewrite Z.sub_0_r. fold days secs. rewrite u32_id by lia.
    rewrite (sent_units bad_cast secs fsec scale units); [done|done|lia|done|lia|]. by rewrite <- Htime.
  - intros tz Htz. rewrite (received_day_time days units (t mod USECS_PER_DAY)); [|done|done|lia|lia|lia|done].
    do 2 f_equal. subst days. unfold USECS_PER_DAY. div_lia.
Qed.
End scaled.

Lemma wire_datetime2_roundtrip_witness :
  TdsGetDayTimeFromTimestamp 0 (-1) 7 = Ok (730118, 863999999990) /\
  TdsGetTimestampFromDayTime 0 730118 863999999990 0 7 = Ok (-1).
Proof.
  destruct (wire_datetime2_roundtrip 0 (-1) 7) as (Hs & _ & _ & Hr); [by vm_compute|lia|by vm_compute|].
  split; [exact Hs|]. exact (Hr 0 ltac:(lia)).
Defined.
