(* ===== verification/TdsColMeta.v ===== *)
(** * TdsColMeta: the type numbers of the protocol and the description of a column or of a parameter
    ([babelfishpg_tds/src/include/tds_iofuncmap.h], [tds_typeio.h], [tds_request.h])

    [TdsColumnMetaData] holds the entry of the COLMETADATA token, a union of eight packed structures of
    which [metaLen] bytes are sent, and the [SetColMetadataFor...] functions fill it. *)
From stdpp Require Import numbers base list.
From S2P Require Import Prelude BitFacts.
Open Scope Z_scope.

Definition TDS_TYPE_TEXT : Z := 35.
Definition TDS_TYPE_UNIQUEIDENTIFIER : Z := 36.
Definition TDS_TYPE_INTEGER : Z := 38.
Definition TDS_TYPE_NTEXT : Z := 99.
Definition TDS_TYPE_BIT : Z := 104.
Definition TDS_TYPE_FLOAT : Z := 109.
Definition TDS_TYPE_VARCHAR : Z := 167.
Definition TDS_TYPE_NVARCHAR : Z := 231.
Definition TDS_TYPE_NCHAR : Z := 239.
Definition TDS_TYPE_MONEYN : Z := 110.
Definition TDS_TYPE_SMALLMONEY : Z := 122.
Definition TDS_TYPE_CHAR : Z := 175.
Definition TDS_TYPE_DATE : Z := 40.
Definition TDS_TYPE_DATETIMEN : Z := 111.
Definition TDS_TYPE_NUMERICN : Z := 108.
Definition TDS_TYPE_XML : Z := 241.
Definition TDS_TYPE_DECIMALN : Z := 106.
Definition TDS_TYPE_VARBINARY : Z := 165.
Definition TDS_TYPE_BINARY : Z := 173.
Definition TDS_TYPE_IMAGE : Z := 34.
Definition TDS_TYPE_TIME : Z := 41.
Definition TDS_TYPE_DATETIME2 : Z := 42.
Definition TDS_TYPE_TABLE : Z := 243.
Definition TDS_TYPE_SQLVARIANT : Z := 98.
Definition TDS_TYPE_DATETIMEOFFSET : Z := 43.
Definition TDS_TYPE_SMALLDATETIME : Z := 58.
Definition TDS_TYPE_CLRUDT : Z := 240.
Definition TDS_TYPE_GEOMETRY : Z := 254.
Definition TDS_TYPE_GEOGRAPHY : Z := 255.

Definition SP_CURSOR : Z := 1.
Definition SP_CURSOROPEN : Z := 2.
Definition SP_CURSORPREPARE : Z := 3.
Definition SP_CURSOREXEC : Z := 4.
Definition SP_CURSORPREPEXEC : Z := 5.
Definition SP_CURSORUNPREPARE : Z := 6.
Definition SP_CURSORFETCH : Z := 7.
Definition SP_CURSOROPTION : Z := 8.
Definition SP_CURSORCLOSE : Z := 9.
Definition SP_EXECUTESQL : Z := 10.
Definition SP_PREPARE : Z := 11.
Definition SP_EXECUTE : Z := 12.
Definition SP_PREPEXEC : Z := 13.
Definition SP_PREPEXECRPC : Z := 14.
Definition SP_UNPREPARE : Z := 15.
Definition SP_CUSTOMTYPE : Z := 16.

(** Handles that stand for none. *)
Definition SP_HANDLE_INVALID : Z := 0.
Definition SP_CURSOR_PREPARED_HANDLE_INVALID : Z := 0xFFFFFFFF.
Definition SP_CURSOR_HANDLE_INVALID : Z := 180150000.

(** ** The description of a column *)
Open Scope Z_scope.

Inductive ColMetaEntry :=
| entry_zero
| type1 (flags tdsTypeId maxSize : Z)
| type2 (flags tdsTypeId maxSize collationInfo charSet : Z)
| type3 (flags tdsTypeId maxSize collationInfo charSet : Z)
| type4 (flags tdsTypeId : Z)
| type5 (flags tdsTypeId maxSize precision scale : Z)
| type6 (flags tdsTypeId scale : Z)
| type7 (flags tdsTypeId maxSize : Z)
| type8 (flags tdsTypeId maxSize : Z).

Record TdsColumnMetaData := mk_col {
  sizeLen : Z;
  metaLen : Z;
  metaEntry : ColMetaEntry;
  sendTableName : bool;
  col_encoding : Z;
  isSpatialType : bool;
  attNotNull : bool;
  attidentity : bool;
  attgenerated : bool
}.

(** [palloc0] *)
Definition col_zero : TdsColumnMetaData := mk_col 0 0 entry_zero false 0 false false false false.

(** The type is at the same place in every member of the union. *)
Definition entry_type (e : ColMetaEntry) : Z :=
  match e with
  | entry_zero => 0
  | type1 _ t _ | type2 _ t _ _ _ | type3 _ t _ _ _ | type4 _ t | type5 _ t _ _ _ | type6 _ t _ | type7 _ t _ | type8 _ t _ => t
  end.

Definition entry_flags (e : ColMetaEntry) : Z :=
  match e with
  | entry_zero => 0
  | type1 f _ _ | type2 f _ _ _ _ | type3 f _ _ _ _ | type4 f _ | type5 f _ _ _ _ | type6 f _ _ | type7 f _ _ | type8 f _ _ => f
  end.

(** The bytes of the packed structure. *)
Definition entry_bytes (e : ColMetaEntry) : bytes :=
  let u n x := le_bytes n x in
  match e with
  | entry_zero => replicate 12 0
  | type1 f t m => u 2%nat f ++ u 1%nat t ++ u 1%nat m
  | type2 f t m c s => u 2%nat f ++ u 1%nat t ++ u 2%nat m ++ u 4%nat c ++ u 1%nat s
  | type3 f t m c s => u 2%nat f ++ u 1%nat t ++ u 4%nat m ++ u 4%nat c ++ u 1%nat s
  | type4 f t => u 2%nat f ++ u 1%nat t
  | type5 f t m p s => u 2%nat f ++ u 1%nat t ++ u 1%nat m ++ u 1%nat p ++ u 1%nat s
  | type6 f t s => u 2%nat f ++ u 1%nat t ++ u 1%nat s
  | type7 f t m => u 2%nat f ++ u 1%nat t ++ u 2%nat m
  | type8 f t m => u 2%nat f ++ u 1%nat t ++ u 4%nat m
  end.

Definition sizeof (e : ColMetaEntry) : Z := Z.of_nat (length (entry_bytes e)).

Definition TDS_COLMETA_NULLABLE : Z := 0x01.
Definition TDS_COLMETA_UPD_UNKNOWN : Z := 0x08.
Definition TDS_COLMETA_IDENTITY : Z := 0x10.
Definition TDS_COLMETA_COMPUTED : Z := 0x20.
Definition TDS_COL_METADATA_DEFAULT_FLAGS : Z := Z.lor TDS_COLMETA_NULLABLE TDS_COLMETA_UPD_UNKNOWN.
Definition TDS_COL_METADATA_NOT_NULL_FLAGS : Z := TDS_COLMETA_UPD_UNKNOWN.
Definition TDS_COL_METADATA_IDENTITY_FLAGS : Z := TDS_COLMETA_IDENTITY.
Definition TDS_COL_METADATA_COMPUTED_FLAGS : Z := Z.lor TDS_COLMETA_NULLABLE TDS_COLMETA_COMPUTED.

(** Setting the fields that every function sets: a size of the length, the entry, and how much of it
    is sent. *)
Definition set_entry (col : TdsColumnMetaData) (size mlen : Z) (e : ColMetaEntry) : TdsColumnMetaData :=
  mk_col size mlen e (sendTableName col) (col_encoding col) (isSpatialType col) (attNotNull col) (attidentity col) (attgenerated col).
Definition set_table_name (col : TdsColumnMetaData) (b : bool) : TdsColumnMetaData :=
  mk_col (sizeLen col) (metaLen col) (metaEntry col) b (col_encoding col) (isSpatialType col) (attNotNull col) (attidentity col) (attgenerated col).
Definition set_encoding (col : TdsColumnMetaData) (enc : Z) : TdsColumnMetaData :=
  mk_col (sizeLen col) (metaLen col) (metaEntry col) (sendTableName col) enc (isSpatialType col) (attNotNull col) (attidentity col) (attgenerated col).
Definition set_spatial (col : TdsColumnMetaData) : TdsColumnMetaData :=
  mk_col (sizeLen col) (metaLen col) (metaEntry col) (sendTableName col) (col_encoding col) true (attNotNull col) (attidentity col) (attgenerated col).

Definition SetColMetadataForFixedType (col : TdsColumnMetaData) (tdsType maxSize : Z) : TdsColumnMetaData :=
  if attNotNull col && negb (tdsType =? TDS_TYPE_UNIQUEIDENTIFIER) && negb (tdsType =? TDS_TYPE_XML) then
    let e := type1 (if attidentity col then TDS_COL_METADATA_IDENTITY_FLAGS else TDS_COL_METADATA_NOT_NULL_FLAGS) tdsType (u8 maxSize) in
    set_entry col 1 (sizeof e - 1) e
  else
    let e := type1 (if attgenerated col then TDS_COL_METADATA_COMPUTED_FLAGS else TDS_COL_METADATA_DEFAULT_FLAGS) tdsType (u8 maxSize) in
    set_entry col 1 (sizeof e) e.

(** [codePage | (codeFlags << 20)]: the [uint16_t] is shifted as an [int]. *)
Definition collation_info (codePage codeFlags : Z) : Z := u32 (Z.lor codePage (Z.shiftl codeFlags 20)).

Definition SetColMetadataForCharType (col : TdsColumnMetaData) (tdsType codePage encoding codeFlags sortId maxSize : Z) : TdsColumnMetaData :=
  let e := type2 TDS_COL_METADATA_DEFAULT_FLAGS tdsType (u16 maxSize) (collation_info codePage (u16 codeFlags)) (u8 sortId) in
  set_encoding (set_entry col 2 (sizeof e) e) encoding.

Definition SetColMetadataForTextType (col : TdsColumnMetaData) (tdsType codePage encoding codeFlags sortId maxSize : Z) : TdsColumnMetaData :=
  let e := type3 TDS_COL_METADATA_DEFAULT_FLAGS tdsType 0x7fffffff (collation_info codePage (u16 codeFlags)) (u8 sortId) in
  set_encoding (set_table_name (set_entry col 3 (sizeof e) e) true) encoding.

(** [maxSize] of another type is what the entry had there. *)
Definition SetColMetadataForImageType (col : TdsColumnMetaData) (tdsType : Z) : TdsColumnMetaData :=
  let set b m :=
    let e := type8 TDS_COL_METADATA_DEFAULT_FLAGS tdsType m in set_table_name (set_entry col 1 (sizeof e) e) b in
  if tdsType =? TDS_TYPE_IMAGE then set true 0x7fffffff
  else if tdsType =? TDS_TYPE_SQLVARIANT then set false 0x00001f49
  else set (sendTableName col) (le_val (take 4 (drop 3 (entry_bytes (metaEntry col))))).

Definition SetColMetadataForDateType (col : TdsColumnMetaData) (tdsType : Z) : TdsColumnMetaData :=
  let e := type4 TDS_COL_METADATA_DEFAULT_FLAGS tdsType in set_entry col 1 (sizeof e) e.

Definition SetColMetadataForNumericType (col : TdsColumnMetaData) (tdsType maxSize precision scale : Z) : TdsColumnMetaData :=
  let e := type5 TDS_COL_METADATA_DEFAULT_FLAGS tdsType (u8 maxSize) precision scale in set_entry col 1 (sizeof e) e.

Definition SetColMetadataForBinaryType (col : TdsColumnMetaData) (tdsType maxSize : Z) : TdsColumnMetaData :=
  let e := type7 TDS_COL_METADATA_DEFAULT_FLAGS tdsType (u16 maxSize) in set_entry col 1 (sizeof e) e.

Definition SetColMetadataForTimeType (col : TdsColumnMetaData) (tdsType scale : Z) : TdsColumnMetaData :=
  let e := type6 TDS_COL_METADATA_DEFAULT_FLAGS tdsType scale in set_entry col 1 (sizeof e) e.

Definition SetColMetadataForGeometryType (col : TdsColumnMetaData) (tdsType maxSize : Z) : TdsColumnMetaData :=
  let e := type7 TDS_COL_METADATA_COMPUTED_FLAGS tdsType (u16 maxSize) in set_spatial (set_entry col 1 (sizeof e) e).

Definition SetColMetadataForGeographyType (col : TdsColumnMetaData) (tdsType maxSize : Z) : TdsColumnMetaData :=
  let e := type7 TDS_COL_METADATA_COMPUTED_FLAGS tdsType (u16 maxSize) in set_spatial (set_entry col 1 (sizeof e) e).

(** ** Collations *)

Record coll_info := mk_coll { coll_oid : Z; lcid : Z; enc : Z; collateflags : Z; sortid : Z }.

Section collation.
(** [TdsLookupCollationTableCallback] of the extension babelfishpg_tsql; the object id 0 stands for a
    collation that is not known. *)
Variable TdsLookupCollationTableCallback : Z -> coll_info.
(** [TdsDefaultLcid], [TdsDefaultClientEncoding], [TdsDefaultCollationFlags], [TdsDefaultSortid] *)
Variables TdsDefaultLcid TdsDefaultClientEncoding TdsDefaultCollationFlags TdsDefaultSortid : Z.

Definition with_collation (f : Z -> Z -> Z -> Z -> TdsColumnMetaData) (collation : Z) : TdsColumnMetaData :=
  let cinfo := TdsLookupCollationTableCallback collation in
  if coll_oid cinfo =? 0 then f TdsDefaultLcid TdsDefaultClientEncoding TdsDefaultCollationFlags TdsDefaultSortid
  else f (lcid cinfo) (enc cinfo) (collateflags cinfo) (sortid cinfo).

Definition SetColMetadataForCharTypeHelper (col : TdsColumnMetaData) (tdsType collation atttypmod : Z) : TdsColumnMetaData :=
  with_collation (fun l e f s => SetColMetadataForCharType col tdsType l e f s atttypmod) collation.
Definition SetColMetadataForTextTypeHelper (col : TdsColumnMetaData) (tdsType collation atttypmod : Z) : TdsColumnMetaData :=
  with_collation (fun l e f s => SetColMetadataForTextType col tdsType l e f s atttypmod) collation.
End collation.
