(* ===== verification/TdsTypeRecv.v ===== *)
(** * TdsTypeRecv: values that a client sends
    ([babelfishpg_tds/src/backend/tds/tdstypeio.c], [ReadPlp] of [tdsrpc.c])

    The functions that turn the bytes of a parameter into a value of the server. A value is the
    integer in its Datum, a byte string, or a timestamp; a float is its bit pattern. *)
From Stdlib Require Import String.
From Stdlib Require QArith.
From stdpp Require Import base list numbers.
From S2P Require Import Prelude BitFacts Utf SoftFloat Calendar Datetime DatetimeOffset TdsTimestamp TdsColMeta.

(** A StringInfo that points into a message: the bytes from its start to the end of the memory the
    message occupies, its own length, and the cursor. *)
Record strinfo := mk_si { si_data : bytes; si_len : Z; si_cursor : Z }.

Inductive rd_error :=
| no_data_left
| insufficient_data
| unsupported_integer_size (b : Z)
| unsupported_float_size (b : Z)
| time_out_of_range
| invalid_numeric_length (len : Z)
| unsupported_text_type (t : Z)
| unsupported_base_type (t : Z)
| invalid_alloc_size
| utf_failure (e : utf_error)
| date_error (e : tts_error).

(** A value and the moved cursor, an [ereport], or an access outside of the memory of an object. *)
Inductive rd (A : Type) :=
| Got (a : A) (m : strinfo)
| Failed (e : rd_error)
| OverAccess.
Arguments Got {A} _ _.
Arguments Failed {A} _.
Arguments OverAccess {A}.

Definition rd_bind {A B} (x : rd A) (k : A -> strinfo -> rd B) : rd B :=
  match x with Got a m => k a m | Failed e => Failed e | OverAccess => OverAccess end.
Notation "'get!' a , m ':=' x 'in' k" := (rd_bind x (fun a m => k))
  (at level 10, a name, m name, x at level 100, k at level 200).

Definition rd_result {A E} (wrap : E -> rd_error) (m : strinfo) (x : result E A) : rd A :=
  match x with Ok a => Got a m | Err e => Failed (wrap e) end.

(** ** Reading *)

Definition move_cursor (m : strinfo) (n : Z) : strinfo := mk_si (si_data m) (si_len m) (si_cursor m + n).

(** [memcpy] of [n] bytes at the cursor, without a check. *)
Definition raw_copy (m : strinfo) (n : Z) : rd bytes :=
  if (0 <=? n) && (0 <=? si_cursor m) && (si_cursor m + n <=? Z.of_nat (length (si_data m)))
  then Got (take (Z.to_nat n) (drop (Z.to_nat (si_cursor m)) (si_data m))) (move_cursor m n)
  else OverAccess.

(** [memcpy] of [n] bytes into an integer of [size] bytes that was zero. *)
Definition copy_uint (m : strinfo) (size n : Z) : rd Z :=
  if n >? size then OverAccess else get! b, m := raw_copy m n in Got (le_val b) m.

Definition CopyMsgBytes (m : strinfo) (datalen : Z) : rd bytes :=
  if (datalen <? 0) || (datalen >? si_len m - si_cursor m) then Failed insufficient_data else raw_copy m datalen.

Definition GetMsgByte (m : strinfo) : rd Z :=
  if si_cursor m >=? si_len m then Failed no_data_left
  else get! b, m := raw_copy m 1 in Got (hd0 b) m.

Definition GetMsgBytes (m : strinfo) (datalen : Z) : rd bytes :=
  if (datalen <? 0) || (datalen >? si_len m - si_cursor m) then Failed insufficient_data else raw_copy m datalen.

Definition GetMsgInt (m : strinfo) (b : Z) : rd Z :=
  if (1 <=? b) && (b <=? 4) then get! bs, m := CopyMsgBytes m b in Got (le_val bs) m
  else Failed (unsupported_integer_size b).

(** Of type [int64]. *)
Definition GetMsgInt64 (m : strinfo) : rd Z := get! bs, m := CopyMsgBytes m 8 in Got (i64 (le_val bs)) m.

Definition GetMsgUInt128 (m : strinfo) : rd Z := copy_uint m 16 16.

Definition GetMsgFloat4 (m : strinfo) : rd Z := GetMsgInt m 4.
Definition GetMsgFloat8 (m : strinfo) : rd Z := get! v, m := GetMsgInt64 m in Got (u64 v) m.

(** ** Simple types *)

Definition TdsTypeBitToDatum (m : strinfo) : rd bool := get! ext, m := GetMsgByte m in Got (negb (ext =? 0)) m.

Definition TDS_MAXLEN_TINYINT : Z := 1.
Definition TDS_MAXLEN_SMALLINT : Z := 2.
Definition TDS_MAXLEN_INT : Z := 4.
Definition TDS_MAXLEN_BIGINT : Z := 8.
Definition TDS_MAXLEN_FLOAT4 : Z := 4.
Definition TDS_MAXLEN_FLOAT8 : Z := 8.
Definition TDS_MAXLEN_NUMERIC : Z := 17.

Definition TdsTypeIntegerToDatum (m : strinfo) (maxLen : Z) : rd Z :=
  if maxLen =? TDS_MAXLEN_TINYINT then get! res, m := GetMsgInt m 1 in Got (i16 (u8 res)) m
  else if maxLen =? TDS_MAXLEN_SMALLINT then get! res, m := GetMsgInt m 2 in Got (i16 (u16 res)) m
  else if maxLen =? TDS_MAXLEN_INT then get! res, m := GetMsgInt m 4 in Got (i32 res) m
  else if maxLen =? TDS_MAXLEN_BIGINT then get! res, m := GetMsgInt64 m in Got (i64 (u64 res)) m
  else Failed (unsupported_integer_size maxLen).

Definition TdsTypeFloatToDatum (m : strinfo) (maxLen : Z) : rd Z :=
  if maxLen =? TDS_MAXLEN_FLOAT4 then GetMsgFloat4 m
  else if maxLen =? TDS_MAXLEN_FLOAT8 then GetMsgFloat8 m
  else Failed (unsupported_float_size maxLen).

Definition TdsTypeVarbinaryToDatum (m : strinfo) : rd bytes := CopyMsgBytes m (si_len m - si_cursor m).

Definition TdsTypeMoneyToDatum (m : strinfo) : rd Z :=
  get! v, m := GetMsgInt64 m in
  let val := u64 v in
  let high := Z.land val 0xffffffff00000000 in
  let low := Z.land val 0x00000000ffffffff in
  Got (i64 (Z.lor (Z.shiftr high 32) (u64 (Z.shiftl low 32)))) m.

(** The 32 bits are taken as unsigned. *)
Definition TdsTypeSmallMoneyToDatum (m : strinfo) : rd Z := get! low, m := GetMsgInt m 4 in Got (i64 low) m.

(** ** Unique identifiers *)

Definition swap_at (b : list Z) (i j : nat) : list Z := <[j := nth i b 0]> (<[i := nth j b 0]> b).

Definition SwapData (m : strinfo) (st ed : Z) : rd unit :=
  if (si_len m <? ed) || (st >? ed) then Got tt m
  else if (0 <=? st) && (ed <? Z.of_nat (length (si_data m)))
  then Got tt (mk_si (swap_at (si_data m) (Z.to_nat st) (Z.to_nat ed)) (si_len m) (si_cursor m))
  else OverAccess.

Definition UUID_LEN : Z := 16.

Definition TdsTypeUIDToDatum (m : strinfo) : rd bytes :=
  get! _, m := SwapData m (si_cursor m + 0) (si_cursor m + 3) in
  get! _, m := SwapData m (si_cursor m + 1) (si_cursor m + 2) in
  get! _, m := SwapData m (si_cursor m + 4) (si_cursor m + 5) in
  get! _, m := SwapData m (si_cursor m + 6) (si_cursor m + 7) in
  GetMsgBytes m UUID_LEN.

(** ** Text *)

(** Text in UTF-16; [tds_varchar_input] without a length keeps its argument. *)
Definition TdsTypeNCharToDatum (m : strinfo) : rd bytes :=
  if (0 <=? si_len m) && (si_len m <=? Z.of_nat (length (si_data m)))
  then rd_result utf_failure m (TdsUTF16toUTF8StringInfo [] (take (Z.to_nat (si_len m)) (si_data m)))
  else OverAccess.

(** ** Dates and times *)

Definition DATETIMEOFFSETMAXSCALE : Z := 7.

Section times.
Context `{PgCalendar}.
Variable bad_cast : Z.

Definition default_scale (scale : Z) : nat := Z.to_nat (if scale =? 255 then DATETIMEOFFSETMAXSCALE else scale).

Definition TdsTypeDatetime2ToDatum (m : strinfo) (scale len : Z) : rd Z :=
  get! numMicro, m := copy_uint m 8 (len - 3) in
  get! numDays, m := copy_uint m 4 3 in
  rd_result date_error m (TdsGetTimestampFromDayTime bad_cast numDays numMicro 0 (default_scale scale)).

Definition TdsTypeDatetimeToDatum (m : strinfo) : rd Z :=
  get! v, m := GetMsgInt64 m in
  let val := u64 v in
  let numTicks := u32 (Z.shiftr val 32) in
  let numDays := u32 (Z.land val 0x00000000ffffffff) in
  rd_result date_error m (TdsTimeGetDatumFromDatetime bad_cast numDays numTicks).

Definition TdsTypeSmallDatetimeToDatum (m : strinfo) : rd Z :=
  get! val, m := GetMsgInt m 4 in
  let numMins := u16 (Z.shiftr val 16) in
  let numDays := u16 (Z.land val 0x0000ffff) in
  rd_result date_error m (TdsTimeGetDatumFromSmalldatetime numDays numMins).

Definition TdsTypeDateToDatum (m : strinfo) : rd Z :=
  get! r, m := GetMsgInt m 3 in
  let date := i32 r in
  match TdsCheckDateValidity date with
  | Err e => Failed (date_error e)
  | Ok _ => Got (i32 (TdsTimeGetDatumFromDays (u32 date))) m
  end.

(** The microseconds are cut, not rounded. *)
Definition TdsTypeTimeToDatum (m : strinfo) (scale len : Z) : rd Z :=
  get! numMicro, m := copy_uint m 8 len in
  let res := over_ten (default_scale scale) (double (QArith_base.inject_Z numMicro)) in
  let res := dmul res (QArith_base.inject_Z 1000000) in
  if negb (QArith_base.Qle_bool (QArith_base.inject_Z 0) res) ||
     negb (QArith_base.Qle_bool res (QArith_base.inject_Z USECS_PER_DAY))
  then Failed time_out_of_range else Got (trunc res) m.

(** The time zone is negated; the seconds that the server adds for it are taken off again. *)
Definition of_utc (timestamp timezone : Z) : tsql_datetimeoffset :=
  let timestamp := i64 (timestamp - timezone * 60 * USECS_PER_SEC) in
  mk_dto (i64 (timestamp - timezone * USECS_PER_SEC)) (i16 timezone).

Definition TdsTypeDatetimeoffsetToDatum (m : strinfo) (scale len : Z) : rd tsql_datetimeoffset :=
  get! numMicro, m := copy_uint m 8 (len - 5) in
  get! numDays, m := copy_uint m 4 3 in
  get! tz, m := copy_uint m 2 2 in
  let timezone := i16 (i16 tz * -1) in
  get! timestamp, m := rd_result date_error m
    (TdsGetTimestampFromDayTime bad_cast numDays numMicro timezone (default_scale scale)) in
  Got (of_utc timestamp timezone) m.

(** Values of a linked server: [date] counts from 1900. *)
Inductive linked_value :=
| linked_none | linked_date (d : Z) | linked_time (t : Z) | linked_timestamp (t : Z) | linked_offset (df : tsql_datetimeoffset).

Definition linked_result (x : result tts_error linked_value) : result rd_error linked_value :=
  match x with Ok v => Ok v | Err e => Err (date_error e) end.

Definition TdsDateTimeTypeToDatum (time date : Z) (datatype : Z) (optional_attr : Z)
    : result rd_error linked_value :=
  let since_1900 := TdsGetDayDifferenceHelper 1 1 1900 true in
  if datatype =? TDS_TYPE_DATE then
      let res := i32 (date + i32 since_1900) in
      match TdsCheckDateValidity res with
      | Err e => Err (date_error e)
      | Ok _ => Ok (linked_date (i32 (TdsTimeGetDatumFromDays (u32 res))))
      end
  else if datatype =? TDS_TYPE_TIME then
      let time := Nat.iter (Z.to_nat optional_attr) (fun time => time / 10) time in
      let time := u64 (time * 1000000) in
      if time >? USECS_PER_DAY then Err time_out_of_range else Ok (linked_time (i64 time))
  else if datatype =? TDS_TYPE_DATETIME2 then
      let date := i32 (date + since_1900) in
      linked_result (let! t := TdsGetTimestampFromDayTime bad_cast (u32 date) time 0 (Z.to_nat optional_attr) in
                     Ok (linked_timestamp t))
  else if datatype =? TDS_TYPE_DATETIMEOFFSET then
      let date := i32 (date + since_1900) in
      let optional_attr := i32 (optional_attr * -1) in
      linked_result (let! t := TdsGetTimestampFromDayTime bad_cast (u32 date) time optional_attr 7 in
                     Ok (linked_offset (of_utc t optional_attr)))
  else Ok linked_none.
End times.

(** ** NUMERIC: the text that is handed to the server's input function *)

(** A C string in a buffer; [None] when the buffer has no terminator. *)
Fixpoint c_string (buf : bytes) : option bytes :=
  match buf with
  | [] => None
  | c :: buf => if c =? 0 then Some [] else s ← c_string buf; Some (c :: s)
  end.

(** A store into a buffer; [None] outside of it. *)
Definition store (buf : list Z) (i : nat) (c : Z) : option (list Z) :=
  if decide (i < length buf)%nat then Some (<[i := c]> buf) else None.

(** [ReverseString]: the characters are exchanged with exclusive or. *)
Fixpoint swap_loop (fuel lo hi : nat) (res : list Z) : list Z :=
  match fuel with
  | O => res
  | S fuel =>
      if (lo <? hi)%nat then
        let res := <[lo := Z.lxor (nth lo res 0) (nth hi res 0)]> res in
        let res := <[hi := Z.lxor (nth hi res 0) (nth lo res 0)]> res in
        let res := <[lo := Z.lxor (nth lo res 0) (nth hi res 0)]> res in
        swap_loop fuel (lo + 1) (hi - 1) res
      else res
  end.

Definition ReverseString (res : bytes) : option bytes :=
  s ← c_string res; Some (swap_loop (length s) 0 (length s - 1) res).

(** The digits are written from the last one; a number of 128 bits has at most 39. *)
Fixpoint write_digits (fuel : nat) (num : Z) (i : nat) (str : bytes) : option (nat * bytes) :=
  if num =? 0 then Some (i, str)
  else match fuel with
       | O => None
       | S fuel => str ← store str i (num mod 10 + 48); write_digits fuel (num / 10) (i + 1) str
       end.

Definition Integer2String (num : Z) (str : bytes) : option bytes :=
  x ← write_digits 39 num 0 str;
  str ← store x.2 x.1 45;
  ReverseString str.

(** The loop that makes room for the decimal point. *)
Fixpoint shift_point (scale len : nat) (temp1 : Z) (buf : list Z) : option (Z * list Z) :=
  match scale with
  | O => Some (temp1, buf)
  | S scale' =>
      temp2 ← buf !! (len - scale)%nat;
      buf ← store buf (len - scale)%nat temp1;
      shift_point scale' len temp2 buf
  end.

Fixpoint append_zeros (scale len : nat) (buf : bytes) : option bytes :=
  match scale with
  | O => Some buf
  | S scale => buf ← store buf len 48; append_zeros scale (len + 1) buf
  end.

(** The text of a number that is not zero, with its minus sign. *)
Definition nonzero_text (num : Z) (scale : nat) : option bytes :=
  buf ← Integer2String num (replicate 40 0);
  s ← c_string buf;
  let len := length s in
  let '(buf, len) :=
    if decide (len <= scale)%nat then
      let decString := [45] ++ replicate (scale - len + 1) 48 ++ tail s ++ [46] in
      (decString ++ [0], (length decString - 1)%nat)
    else (buf, len) in
  x ← shift_point scale len 46 buf;
  buf ← store x.2 len x.1;
  c_string buf.

Definition zero_text (scale : nat) : option bytes :=
  buf ← store (replicate 40 0) 0 48;
  buf ← store buf 1 46;
  buf ← append_zeros scale 2 buf;
  c_string buf.

Definition numeric_text (sign num : Z) (scale : nat) : option bytes :=
  if negb (num =? 0) then t ← nonzero_text num scale; Some (if sign =? 1 then tail t else t)
  else zero_text scale.

Definition numeric_result (m : strinfo) (t : option bytes) : rd bytes :=
  match t with Some t => Got t m | None => OverAccess end.

(** Always 16 bytes, whatever the length of the value. *)
Definition TdsTypeNumericToDatum (m : strinfo) (scale : nat) : rd bytes :=
  get! sign, m := GetMsgInt m 1 in
  get! num, m := copy_uint m 16 (TDS_MAXLEN_NUMERIC - 1) in
  numeric_result m (numeric_text sign num scale).

(** ** Parameters *)

Record Plp := mk_plp { plp_offset : Z; plp_len : Z }.

Record ParameterToken := mk_token {
  dataOffset : Z;
  len : Z;
  maxLen : Z;
  plp : list Plp;
  isNull : bool;
  scale : Z
}.

Definition PLP_TERMINATOR : Z := 0.
Definition PLP_NULL : Z := 0xFFFFFFFFFFFFFFFF.
Definition PLP_UNKNOWN_LEN : Z := 0xFFFFFFFFFFFFFFFE.

(** Little-endian integer in a message. *)
Definition message_uint (message : bytes) (offset n : Z) : Z :=
  le_val (take (Z.to_nat n) (drop (Z.to_nat offset) message)).

(** The chunks of a value, the offset behind its terminator and the sum of the lengths; every round
    moves the offset by four bytes at least. *)
Fixpoint read_chunks (fuel : nat) (message : bytes) (offset lenCheck : Z) : option (list Plp * Z * Z) :=
  match fuel with
  | O => None
  | S fuel =>
      if offset + 4 >? Z.of_nat (length message) then None
      else
        let tempLen := message_uint message offset 4 in
        let offset := offset + 4 in
        if tempLen =? PLP_TERMINATOR then Some ([], offset, lenCheck)
        else if offset + tempLen >? Z.of_nat (length message) then None
        else
          x ← read_chunks fuel message (offset + tempLen) (lenCheck + tempLen);
          let '(l, offset', lenCheck') := x in
          Some (mk_plp offset tempLen :: l, offset', lenCheck')
  end.

(** [None] is [STATUS_ERROR]. *)
Definition ReadPlp (temp : ParameterToken) (message : bytes) (mainOffset : Z) : option (ParameterToken * Z) :=
  let set_plp l null := mk_token (dataOffset temp) (len temp) (maxLen temp) l null (scale temp) in
  if mainOffset + 8 >? Z.of_nat (length message) then None
  else
    let plpTok := message_uint message mainOffset 8 in
    let offset := mainOffset + 8 in
    if plpTok =? PLP_NULL then Some (set_plp [] true, offset)
    else
      x ← read_chunks (length message) message offset 0;
      let '(l, offset, lenCheck) := x in
      if negb (plpTok =? PLP_UNKNOWN_LEN) && negb (lenCheck =? plpTok) then None
      else Some (set_plp l (isNull temp), offset).

(** The chunks put together; its memory ends with a terminator. *)
Definition TdsGetPlpStringInfoBufferFromToken (message : bytes) (token : ParameterToken) : strinfo :=
  let data := concat (map (fun t => take (Z.to_nat (plp_len t)) (drop (Z.to_nat (plp_offset t)) message)) (plp token)) in
  mk_si (data ++ [0]) (Z.of_nat (length data)) 0.

Definition TdsGetStringInfoBufferFromToken (message : bytes) (token : ParameterToken) : strinfo :=
  mk_si (drop (Z.to_nat (dataOffset token)) message) (len token) 0.

Definition TdsRecvTypeNumeric (message : bytes) (token : ParameterToken) : rd bytes :=
  let m := TdsGetStringInfoBufferFromToken message token in
  get! sign, m := GetMsgInt m 1 in
  if u32 (len token - 1) >? 16 then Failed (invalid_numeric_length (len token))
  else
    get! num, m := copy_uint m 16 (len token - 1) in
    numeric_result m (numeric_text sign num (Z.to_nat (scale token))).

Definition TdsRecvTypeBit (message : bytes) (token : ParameterToken) : rd bool :=
  TdsTypeBitToDatum (TdsGetStringInfoBufferFromToken message token).
Definition TdsRecvTypeVarbinary (message : bytes) (token : ParameterToken) : rd bytes :=
  TdsTypeVarbinaryToDatum (if maxLen token =? 0xffff then TdsGetPlpStringInfoBufferFromToken message token
                           else TdsGetStringInfoBufferFromToken message token).
Definition TdsRecvTypeBinary (message : bytes) (token : ParameterToken) : rd bytes :=
  TdsTypeVarbinaryToDatum (TdsGetStringInfoBufferFromToken message token).

(** Only a (max) value of type NVARCHAR or VARCHAR comes in chunks. *)
Definition TdsReadUnicodeDataFromTokenCommon (message : bytes) (token : ParameterToken) (varchar_type : bool) : rd bytes :=
  TdsTypeNCharToDatum (if varchar_type && (maxLen token =? 0xFFFF) then TdsGetPlpStringInfoBufferFromToken message token
                       else TdsGetStringInfoBufferFromToken message token).
Definition TdsRecvTypeNVarchar (message : bytes) (token : ParameterToken) : rd bytes :=
  TdsReadUnicodeDataFromTokenCommon message token true.
