(* ===== verification/TdsTypeSend.v ===== *)
(** * TdsTypeSend: values that are sent to a client
    ([babelfishpg_tds/src/backend/tds/tdstypeio.c])

    Every function puts the bytes of one value into the send buffer of [TdsComm]. [fuel] bounds the
    number of rounds of a put. A result of the server's output function is an argument. *)
From Stdlib Require QArith.
From stdpp Require Import base list numbers.
From S2P Require Import Prelude BitFacts Utf SoftFloat Calendar Datetime DatetimeOffset TdsTimestamp TdsComm TdsTypeRecv.
Open Scope Z_scope.

Inductive send_error :=
| smallmoney_out_of_range
| numeric_overflow
| exceeds_max_length
| char_length_mismatch
| send_utf (e : utf_error)
| send_date (e : tts_error).

(** [rc = m; rc |= k]: the second is done also when the first has failed. *)
Definition or_rc (m : io unit) (k : comm -> io unit) : io unit :=
  match m with
  | Done _ s => k s
  | Eof s => match k s with Done _ s => Eof s | r => r end
  | r => r
  end.

(** A call whose return code is not looked at. *)
Definition ignore_rc (m : io unit) : io unit :=
  match m with Eof s => Done tt s | r => r end.

Definition on_ok {A E F B} (wrap : E -> F) (x : result E A) (k : A -> result F B) : result F B :=
  match x with Ok a => k a | Err e => Err (wrap e) end.

Section sends.
Variable fuel : nat.

(** The length is not sent if the column is not nullable. *)
Definition put_length (attNotNull : bool) (n : Z) (s : comm) : io unit :=
  if attNotNull then Done tt s else TdsPutInt8 fuel n s.

(** ** Integers, floats and money *)

Definition TdsSendTypeBit (value : bool) (attNotNull : bool) (s : comm) : io unit :=
  do! _, s := put_length attNotNull 1 s in TdsPutInt8 fuel (if value then 1 else 0) s.
Definition TdsSendTypeTinyint (value : Z) (attNotNull : bool) (s : comm) : io unit :=
  do! _, s := put_length attNotNull 1 s in TdsPutInt8 fuel value s.
Definition TdsSendTypeSmallint (value : Z) (attNotNull : bool) (s : comm) : io unit :=
  do! _, s := put_length attNotNull 2 s in TdsPutInt16LE fuel value s.
Definition TdsSendTypeInteger (value : Z) (attNotNull : bool) (s : comm) : io unit :=
  do! _, s := put_length attNotNull 4 s in TdsPutInt32LE fuel value s.
Definition TdsSendTypeBigint (value : Z) (attNotNull : bool) (s : comm) : io unit :=
  do! _, s := put_length attNotNull 8 s in TdsPutInt64LE fuel value s.

(** The floats by their bit patterns. *)
Definition TdsSendTypeFloat4 (pattern : Z) (attNotNull : bool) (s : comm) : io unit :=
  do! _, s := put_length attNotNull 4 s in TdsPutInt32LE fuel pattern s.
Definition TdsSendTypeFloat8 (pattern : Z) (attNotNull : bool) (s : comm) : io unit :=
  do! _, s := put_length attNotNull 8 s in TdsPutInt64LE fuel pattern s.

(** The high half first. *)
Definition TdsSendTypeMoney (value : Z) (attNotNull : bool) (s : comm) : io unit :=
  let out := u64 value in
  let low := Z.land out 0xffffffff in
  let high := Z.land (Z.shiftr out 32) 0xffffffff in
  do! _, s := put_length attNotNull 8 s in
  or_rc (TdsPutUInt32LE fuel high s) (TdsPutUInt32LE fuel low).

Definition TdsSendTypeSmallmoney (value : Z) (attNotNull : bool) (s : comm) : result send_error (io unit) :=
  let out := u64 value in
  let low := Z.land out 0xffffffff in
  let high := Z.land (Z.shiftr out 32) 0xffffffff in
  if negb (high =? 0xffffffff) && negb (high =? 0) then Err smallmoney_out_of_range
  else Ok (do! _, s := put_length attNotNull 4 s in TdsPutUInt32LE fuel low s).

(** ** Text and binary data *)

Definition PLP_CHUNCK_LEN : nat := 32000.

(** The loop over the chunks: a chunk with its length stays within one packet. [rounds] bounds the
    rounds, which either flush the buffer or send a chunk. *)
Fixpoint send_chunks (rounds : nat) (data : bytes) (s : comm) : io unit :=
  match rounds with
  | O => OutOfFuel
  | S rounds =>
      let plpChunckLen := Nat.min PLP_CHUNCK_LEN (length data) in
      if (plpChunckLen =? 0)%nat then TdsPutInt32LE fuel PLP_TERMINATOR s
      else
        let availableBufferSpace := GetAvailableBufferSize s in
        if (availableBufferSpace <? plpChunckLen + 4)%nat && (availableBufferSpace <? 1 + 4)%nat then
          do! _, s := FlushBuffer s in send_chunks rounds data s
        else
          let plpChunckLen :=
            if (availableBufferSpace <? plpChunckLen + 4)%nat then (availableBufferSpace - 4)%nat else plpChunckLen in
          do! _, s := TdsPutUInt32LE fuel (Z.of_nat plpChunckLen) s in
          do! _, s := ignore_rc (TdsPutbytes fuel (take plpChunckLen data) s) in
          send_chunks rounds (drop plpChunckLen data) s
  end.

Definition TdsSendPlpDataHelper (data : bytes) (s : comm) : io unit :=
  do! _, s := TdsPutInt64LE fuel (Z.of_nat (length data)) s in
  send_chunks (2 * length data + 2) data s.

Definition TdsSendTypeBinary (value : bytes) (maxLen : nat) (s : comm) : io unit :=
  do! _, s := TdsPutUInt16LE fuel (Z.of_nat maxLen) s in
  ignore_rc (TdsPutbytes fuel (take maxLen (value ++ replicate maxLen 0)) s).

(** [encode]: the conversion to the encoding of the column. *)
Definition TdsSendTypeVarchar (encode : bytes -> bytes) (buf : bytes) (maxLen : nat) (s : comm) : result send_error (io unit) :=
  let destBuf := encode buf in
  if negb (maxLen =? 0xffff)%nat then
    if (maxLen <? length destBuf)%nat then Err exceeds_max_length
    else Ok (do! _, s := TdsPutInt16LE fuel (Z.of_nat (length destBuf)) s in TdsPutbytes fuel destBuf s)
  else Ok (TdsSendPlpDataHelper destBuf s).

Definition TdsSendTypeChar (encode : bytes -> bytes) (buf : bytes) (maxLen : nat) (s : comm) : result send_error (io unit) :=
  let destBuf := encode buf in
  if negb (maxLen =? length destBuf)%nat then Err char_length_mismatch
  else Ok (do! _, s := TdsPutUInt16LE fuel (Z.of_nat (length destBuf)) s in TdsPutbytes fuel destBuf s).

Definition TdsSendTypeVarbinary (value : bytes) (maxlen : nat) (s : comm) : io unit :=
  if negb (maxlen =? 0xffff)%nat then
    do! _, s := TdsPutInt16LE fuel (Z.of_nat (length value)) s in ignore_rc (TdsPutbytes fuel value s)
  else TdsSendPlpDataHelper value s.

(** Placeholders for the text pointer and its time stamp. *)
Definition SendTextPtrInfo (s : comm) : io unit :=
  do! _, s := ignore_rc (TdsPutUInt8 fuel 16 s) in
  do! _, s := ignore_rc (TdsPutbytes fuel
    [0x64; 0x75; 0x6d; 0x6d; 0x79; 0x20; 0x74; 0x65; 0x78; 0x74; 0x70; 0x74; 0x72; 0x00; 0x00; 0x00] s) in
  ignore_rc (TdsPutbytes fuel [0x64; 0x75; 0x6d; 0x6d; 0x79; 0x54; 0x53; 0x00] s).

Definition TdsSendTypeText (encode : bytes -> bytes) (buf : bytes) (s : comm) : io unit :=
  do! _, s := SendTextPtrInfo s in
  let destBuf := encode buf in
  do! _, s := TdsPutUInt32LE fuel (Z.of_nat (length destBuf)) s in TdsPutbytes fuel destBuf s.

Definition TdsSendTypeImage (value : bytes) (s : comm) : io unit :=
  do! _, s := SendTextPtrInfo s in
  do! _, s := TdsPutUInt32LE fuel (Z.of_nat (length value)) s in ignore_rc (TdsPutbytes fuel value s).

Definition TdsSendTypeNText (out : bytes) (s : comm) : result send_error (io unit) :=
  on_ok send_utf (TdsUTF8toUTF16StringInfo [] out) (fun buf =>
    Ok (do! _, s := SendTextPtrInfo s in
        do! _, s := TdsPutUInt32LE fuel (Z.of_nat (length buf)) s in ignore_rc (TdsPutbytes fuel buf s))).

(** For a client of version 7.1 or before, XML is text. *)
Definition TdsSendTypeXml (old_client : bool) (out : bytes) (s : comm) : result send_error (io unit) :=
  if old_client then TdsSendTypeNText out s
  else on_ok send_utf (TdsUTF8toUTF16StringInfo [] out) (fun buf => Ok (TdsSendPlpDataHelper buf s)).

(** Spaces at the end of what is too long. *)
Fixpoint strip_spaces (rounds : nat) (maxSize : nat) (buf : bytes) : result send_error bytes :=
  if (maxSize <? length buf)%nat then
    match rounds with
    | O => Err exceeds_max_length
    | S rounds =>
        if bool_decide (drop (length buf - 2) buf = [32; 0]) then strip_spaces rounds maxSize (take (length buf - 2) buf)
        else Err exceeds_max_length
    end
  else Ok buf.

Definition TdsSendTypeNVarchar (out : bytes) (maxlen : nat) (s : comm) : result send_error (io unit) :=
  on_ok send_utf (TdsUTF8toUTF16StringInfo [] out) (fun buf =>
    if negb (maxlen =? 0xffff)%nat then
      let! buf := strip_spaces (length buf) maxlen buf in
      Ok (do! _, s := TdsPutInt16LE fuel (Z.of_nat (length buf)) s in ignore_rc (TdsPutbytes fuel buf s))
    else Ok (TdsSendPlpDataHelper buf s)).

Fixpoint pad_spaces (rounds : nat) (maxSize : nat) (buf : bytes) : bytes :=
  match rounds with
  | O => buf
  | S rounds => if (length buf <? maxSize)%nat then pad_spaces rounds maxSize (buf ++ [32; 0]) else buf
  end.

Definition TdsSendTypeNChar (out : bytes) (maxSize : nat) (s : comm) : result send_error (io unit) :=
  on_ok send_utf (TdsUTF8toUTF16StringInfo [] out) (fun buf =>
    let! buf := strip_spaces (length buf) maxSize buf in
    let buf := pad_spaces maxSize maxSize buf in
    Ok (do! _, s := TdsPutInt16LE fuel (Z.of_nat maxSize) s in ignore_rc (TdsPutbytes fuel (take maxSize buf) s))).

(** ** Dates and times *)

(** Scales and the lengths of a time: 3, 4 or 5 bytes. *)
Definition time_length (scale : Z) : Z :=
  if (scale >=? 0) && (scale <? 3) then 3
  else if (scale >=? 3) && (scale <? 5) then 4
  else if (scale >=? 5) && (scale <=? 7) then 5 else 0.

Definition effective_scale (scale : Z) : Z := if scale =? 255 then DATETIMEOFFSETMAXSCALE else scale.

Section times.
Context `{PgCalendar}.
Variable bad_cast : Z.
(** The client's protocol is older than 7.3A: dates and times are text, of this width. *)
Variables (old_client : bool) (maxlen : nat).

Definition TdsSendTypeSmalldatetime (value : Z) (attNotNull : bool) (s : comm) : result send_error (io unit) :=
  on_ok send_date (TdsTimeDifferenceSmalldatetime value) (fun x =>
    Ok (do! _, s := put_length attNotNull 4 s in or_rc (TdsPutUInt16LE fuel x.1 s) (TdsPutUInt16LE fuel x.2))).

Definition TdsSendTypeDate (out : bytes) (value : Z) (s : comm) : result send_error (io unit) :=
  if old_client then TdsSendTypeNVarchar out maxlen s
  else on_ok send_date (TdsDayDifference value) (fun numDays =>
    Ok (do! _, s := TdsPutInt8 fuel 3 s in TdsPutDate fuel numDays s)).

Definition TdsSendTypeDatetime (value : Z) (attNotNull : bool) (s : comm) : result send_error (io unit) :=
  on_ok send_date (TdsTimeDifferenceDatetime bad_cast value) (fun x =>
    Ok (do! _, s := put_length attNotNull 8 s in or_rc (TdsPutUInt32LE fuel x.1 s) (TdsPutUInt32LE fuel x.2))).

(** Units of 10^-scale second in a time of day. *)
Definition time_units (value : Z) (scale : nat) : Z :=
  let numSec := ddiv (double (QArith_base.inject_Z (u64 value))) (QArith_base.inject_Z 1000000) in
  cast_to bad_cast in_u64 (dadd (times_ten scale numSec) (QArith_base.Qmake 1 2)).

Definition TdsSendTypeTime (out : bytes) (value scale : Z) (s : comm) : result send_error (io unit) :=
  if old_client then TdsSendTypeNVarchar out maxlen s
  else
    let scale := effective_scale scale in
    let length := time_length scale in
    let res := time_units value (Z.to_nat scale) in
    Ok (do! _, s := TdsPutInt8 fuel length s in TdsPutbytes fuel (le_bytes (Z.to_nat length) res) s).

Definition TdsSendTypeDatetime2 (out : bytes) (value scale : Z) (s : comm) : result send_error (io unit) :=
  if old_client then TdsSendTypeNVarchar out maxlen s
  else
    let scale := effective_scale scale in
    let length := time_length scale + 3 in
    on_ok send_date (TdsGetDayTimeFromTimestamp bad_cast value (Z.to_nat scale)) (fun x =>
      Ok (do! _, s := TdsPutInt8 fuel length s in
          do! _, s := TdsPutbytes fuel (le_bytes (Z.to_nat (length - 3)) x.2) s in
          TdsPutDate fuel x.1 s)).

Definition TdsSendTypeDatetimeoffset (out : bytes) (value : tsql_datetimeoffset) (scale : Z) (s : comm)
    : result send_error (io unit) :=
  if old_client then TdsSendTypeNVarchar out maxlen s
  else
    let timezone := tsql_tz value in
    let timestamp := i64 (tsql_ts value + timezone * 60 * USECS_PER_SEC) in
    let scale := effective_scale scale in
    let length := time_length scale + 5 in
    on_ok send_date (TdsGetDayTimeFromTimestamp bad_cast timestamp (Z.to_nat scale)) (fun x =>
      let timezone := i16 (timezone * -1) in
      Ok (do! _, s := TdsPutInt8 fuel length s in
          do! _, s := TdsPutbytes fuel (le_bytes (Z.to_nat (length - 5)) x.2) s in
          do! _, s := TdsPutDate fuel x.1 s in
          TdsPutUInt16LE fuel timezone s)).
End times.

(** ** Unique identifiers *)

Definition swap_uuid (b : bytes) : bytes := swap_at (swap_at (swap_at (swap_at b 0 3) 1 2) 4 5) 6 7.

Definition TdsSendTypeUniqueIdentifier (uuid : bytes) (s : comm) : io unit :=
  do! _, s := TdsPutInt8 fuel UUID_LEN s in ignore_rc (TdsPutbytes fuel (swap_uuid uuid) s).

(** ** NUMERIC *)

Definition TDS_MAX_NUM_PRECISION : Z := 38.

(** The digits of the text, without the point and at most [max_scale] behind it; and how many there
    are behind it, or -1 when no point was seen. *)
Fixpoint scan_decimal (out : bytes) (scale max_scale : Z) (decString : bytes) : bytes * Z :=
  match out with
  | [] => (decString, scale)
  | c :: out =>
      if scale <? max_scale then
        if c =? 46 then scan_decimal out 0 max_scale decString
        else scan_decimal out (if scale >=? 0 then scale + 1 else scale) max_scale (decString ++ [c])
      else (decString, scale)
  end.

Definition StringToInteger (str : bytes) : Z :=
  foldl (fun num c => (num * 10 + (c - 48)) mod 2 ^ 128) 0 str.

(** The sign, the digits padded to the scale, and their number. *)
Definition numeric_digits (out : bytes) (max_precision max_scale : Z) : result send_error (Z * bytes) :=
  let '(sign, out) := if hd0 out =? 45 then (0, tail out) else (1, out) in
  let out := if hd0 out =? 48 then tail out else out in
  let '(decString, scale) := scan_decimal out (-1) max_scale [] in
  let scale := if scale =? -1 then 0 else scale in
  let precision := Z.of_nat (length decString) in
  let target_precision := precision + (max_scale - scale) in
  if (target_precision >? TDS_MAX_NUM_PRECISION) || (target_precision >? max_precision) then Err numeric_overflow
  else Ok (sign, decString ++ replicate (Z.to_nat (max_scale - scale)) 48).

Definition numeric_length (precision : Z) : Z :=
  if (precision >=? 1) && (precision <? 10) then 4
  else if precision <? 20 then 8
  else if precision <? 29 then 12
  else if precision <? 39 then 16 else 0.

Definition TdsSendTypeNumeric (out : bytes) (max_precision max_scale : Z) (s : comm) : result send_error (io unit) :=
  let! x := numeric_digits out max_precision max_scale in
  let '(sign, decString) := x in
  let length := numeric_length (Z.of_nat (length decString)) in
  let num := StringToInteger decString in
  Ok (do! _, s := TdsPutInt8 fuel (length + 1) s in
      do! _, s := TdsPutInt8 fuel sign s in
      TdsPutbytes fuel (le_bytes (Z.to_nat length) num) s).
End sends.
