(* ===== verification/TdsSenders.v ===== *)
(** * TdsSenders: what the functions of [TdsTypeSend] put into the stream

    A sender puts bytes of a given form behind what is pending, or the connection is lost; once it is
    lost, a sender still ends and leaves a usable buffer. Senders compose the way the code composes
    puts. *)
From stdpp Require Import base list numbers.
From S2P Require Import Prelude BitFacts Utf SoftFloat Calendar Datetime DatetimeOffset.
From S2P Require Import TdsTimestamp TdsComm TdsRecv TdsSend TdsTypeRecv TdsTypeSend.
Open Scope nat_scope.

(** ** A buffer that can take bytes *)

Section senders.
(** The size of packets. *)
Variable size : nat.

Definition usable (s : comm) : Prop :=
  TdsBufferSize s = size /\ length (TdsSendBuffer s) = TdsBufferSize s /\ size_ok (TdsBufferSize s) /\ TdsSendStart s = 0 /\
  TDS_PACKET_HEADER_SIZE <= TdsSendCur s <= TdsBufferSize s /\ blocking (writes s).

(** The call has ended, well or not, with the connection lost. *)
Definition lost_result (r : io unit) : Prop :=
  exists s', (r = Done tt s' \/ r = Eof s') /\ usable s' /\ ClientConnectionLost s' = true.

Lemma loaded_usable s ty rest : TdsBufferSize s = size -> loaded s ty rest -> usable s.
Proof. intros Hs (? & ? & ? & ? & ? & _ & _ & ?). unfold usable. split_and!; try done. lia. Qed.

Definition ends (s : comm) (r : io unit) : Prop :=
  exists s', (r = Done tt s' \/ r = Eof s') /\ usable s' /\ (ClientConnectionLost s = true -> ClientConnectionLost s' = true).

(** A flush leaves only the room for a header. *)
Definition flushes (s : comm) (r : io unit) : Prop :=
  exists s', (r = Done tt s' \/ r = Eof s') /\ usable s' /\ (ClientConnectionLost s = true -> ClientConnectionLost s' = true) /\
    TdsSendCur s' = TDS_PACKET_HEADER_SIZE.

Lemma flush_loop_ends evs : forall s, TdsBufferSize s = size ->
  length (TdsSendBuffer s) = TdsBufferSize s -> size_ok (TdsBufferSize s) ->
  TdsSendStart s <= TdsSendCur s <= length (TdsSendBuffer s) -> writes s = evs -> blocking evs ->
  flushes s (flush_loop evs s).
Proof.
  induction evs as [|e evs IH]; intros s Hsize Hl Hsz Hr Hw Hb; cbn [flush_loop].
  - case_decide; eexists; (split; [by left|]); unfold usable; cbn;
      destruct Hsz; split_and!; try done; try lia; by rewrite Hw.
  - inversion Hb as [|? ? He Hb']; subst. case_decide as Hlt.
    2:{ eexists. split; [by left|]. unfold usable. cbn. destruct Hsz. split_and!; try done; try lia. by rewrite Hw. }
    destruct e as [n| | |]; [|..|done|].
    + destruct (IH (sent s (take (S n) (slice (TdsSendBuffer s) (TdsSendStart s) (TdsSendCur s))) evs)) as (s' & ? & ? & ? & ?);
        try done; [|by exists s'].
      cbn. rewrite length_take, length_slice by lia. lia.
    + destruct (IH (set_writes s evs (ClientConnectionLost s))) as (s' & ? & ? & ? & ?); try done. by exists s'.
    + eexists. split; [by right|]. unfold usable. cbn. destruct Hsz. split_and!; try done; lia.
Qed.

Lemma flush_ends s : usable s -> flushes s (InternalFlush false s).
Proof.
  intros (Hsize & Hl & Hsz & Hst & Hcur & Hb). unfold InternalFlush, TdsFillHeader. rewrite decide_True by done.
  set (hdr := header_bytes _ _ _). assert (length hdr = 8) as Hh by done.
  destruct (blit (TdsSendBuffer s) 0 hdr) as [buf|] eqn:Hbl.
  2:{ rewrite blit_ok in Hbl; [done|]. rewrite Hh, Hl. destruct Hsz. unfold TDS_PACKET_HEADER_SIZE in *. lia. }
  pose proof (length_blit _ _ _ _ Hbl) as Hlb.
  destruct (flush_loop_ends (writes s) (set_send s buf (TdsSendCur s) (TdsSendStart s) (TdsSendMessageType s)))
    as (s' & ? & ? & ? & ?); cbn; try done; [congruence|lia|by exists s'].
Qed.

Lemma put_ends fuel : forall bs s, usable s -> length bs <= fuel -> ends s (InternalPutbytes fuel bs s).
Proof.
  induction fuel as [|fuel IH]; intros bs s Hu Hf.
  { destruct bs; [|cbn in Hf; lia]. cbn. exists s. auto. }
  cbn [InternalPutbytes]. destruct bs as [|b bs]; [cbn; exists s; by auto|]. rewrite decide_True by (cbn; lia).
  assert (exists s1, (let r := if decide (TdsBufferSize s <= TdsSendCur s) then InternalFlush false s else Done tt s in
      r = Done tt s1 \/ r = Eof s1) /\ usable s1 /\ (ClientConnectionLost s = true -> ClientConnectionLost s1 = true) /\
      TdsSendCur s1 < TdsBufferSize s1) as (s1 & Hr & Hu1 & Hl1 & Hlt).
  { case_decide; [|exists s; split_and!; auto; lia]. destruct (flush_ends s Hu) as (s1 & ? & Hu1 & ? & Hc).
    exists s1. split_and!; try done. rewrite Hc. apply Hu1. }
  cbv zeta in Hr. destruct Hr as [->| ->]; cbn [io_bind]; [|by exists s1; auto].
  pose proof Hu1 as (Hsize & Hl & Hsz & Hst & Hcur & Hb). set (amount := _ `min` _).
  assert (0 < amount <= length (b :: bs)) as Ha by (unfold amount; cbn; lia).
  assert (length (take amount (b :: bs)) = amount) as Hla by (rewrite length_take; lia).
  destruct (blit (TdsSendBuffer s1) (TdsSendCur s1) (take amount (b :: bs))) as [buf|] eqn:Hbl.
  2:{ rewrite blit_ok in Hbl; [done|]. unfold amount in *. lia. }
  pose proof (length_blit _ _ _ _ Hbl) as Hlb.
  destruct (IH (drop amount (b :: bs)) (set_send s1 buf (TdsSendCur s1 + amount) (TdsSendStart s1) (TdsSendMessageType s1)))
    as (s' & ? & ? & Hl').
  - unfold usable. cbn. unfold amount. split_and!; try done; lia.
  - rewrite length_drop. lia.
  - exists s'. split_and!; try done. intros. by apply Hl', Hl1.
Qed.

(** ** What has been put *)

(** A packet that is not the last of its message. *)
Definition packet (ty : Z) (payload : bytes) : bytes := header_bytes ty false (TDS_PACKET_HEADER_SIZE + length payload) ++ payload.

(** Since [w0] packets with the payloads [ps], of whatever length, went out; [rest] is in the buffer. *)
Definition stream_at (w0 : bytes) (ty : Z) (ps : list bytes) (rest : bytes) (s : comm) : Prop :=
  TdsBufferSize s = size /\ loaded s ty rest /\ wire s = w0 ++ concat (map (packet ty) ps).

(** Since [w0], [data] has been put. *)
Definition stream (w0 : bytes) (ty : Z) (data : bytes) (s : comm) : Prop :=
  exists ps rest, stream_at w0 ty ps rest s /\ data = concat ps ++ rest.

(** Later the payloads that went out are the same, and the packet in the buffer starts the same. *)
Definition grows (ps : list bytes) (rest : bytes) (ps' : list bytes) (rest' : bytes) : Prop :=
  exists x more, ps' ++ [rest'] = ps ++ (rest ++ x) :: more.

Lemma grows_refl ps rest : grows ps rest ps rest.
Proof. exists [], []. by rewrite app_nil_r. Qed.

Lemma grows_trans ps rest ps1 rest1 ps2 rest2 : grows ps rest ps1 rest1 -> grows ps1 rest1 ps2 rest2 -> grows ps rest ps2 rest2.
Proof.
  intros (x & more & E1) (y & more1 & E2). destruct more as [|m more _] using rev_ind.
  - apply app_inj_tail in E1 as [-> ->]. exists (x ++ y), more1. by rewrite app_assoc.
  - rewrite app_comm_cons, app_assoc in E1. apply app_inj_tail in E1 as [-> ->].
    exists x, (more ++ (m ++ y) :: more1). by rewrite E2, <- app_assoc.
Qed.

Lemma stream_start s ty : TdsBufferSize s = size -> loaded s ty [] -> stream (wire s) ty [] s.
Proof. intros Hs Hl. exists [], []. split_and!; [split_and!; [done..|by rewrite app_nil_r]|done]. Qed.

Lemma stream_at_usable w0 ty ps rest s : stream_at w0 ty ps rest s -> usable s.
Proof. intros (Hs & Hl & _). by eapply loaded_usable. Qed.

Lemma stream_usable w0 ty data s : stream w0 ty data s -> usable s.
Proof. intros (ps & rest & Hst & _). by eapply stream_at_usable. Qed.

Lemma stream_at_flush w0 ty ps rest s : stream_at w0 ty ps rest s ->
  (exists s', InternalFlush false s = Done tt s' /\ stream_at w0 ty (ps ++ [rest]) [] s' /\ TdsSendCur s' = TDS_PACKET_HEADER_SIZE) \/
  (exists s', InternalFlush false s = Eof s' /\ usable s' /\ ClientConnectionLost s' = true).
Proof.
  intros Hst. destruct (flush_ends s (stream_at_usable _ _ _ _ _ Hst)) as (s1 & Hr & Hu & _ & Hc).
  destruct Hst as (Hs & Hld & Hw).
  destruct (InternalFlush_spec false s ty rest Hld)
    as [(s' & E & Hw' & Hi & _ & Hld')|(s' & p & E & _ & _ & _ & Hlost)].
  - left. exists s'. assert (s1 = s') as -> by (destruct Hr; congruence). split_and!; try done.
    split_and!; [by rewrite (inside_size _ _ Hi)|done|].
    rewrite map_app, concat_app, Hw', Hw. cbn. rewrite app_nil_r, <- !app_assoc. done.
  - right. assert (s1 = s') as -> by (destruct Hr; congruence). by exists s'.
Qed.

Lemma stream_at_put fuel : forall bs w0 ty ps rest s, stream_at w0 ty ps rest s -> length bs <= fuel ->
  (exists ps' rest' s', InternalPutbytes fuel bs s = Done tt s' /\ stream_at w0 ty ps' rest' s' /\
     grows ps rest ps' rest' /\ concat ps' ++ rest' = concat ps ++ rest ++ bs) \/ lost_result (InternalPutbytes fuel bs s).
Proof.
  induction fuel as [|fuel IH]; intros bs w0 ty ps rest s Hst Hf.
  { destruct bs; [|cbn in Hf; lia]. cbn. left. exists ps, rest, s. rewrite app_nil_r. split_and!; try done. apply grows_refl. }
  cbn [InternalPutbytes]. destruct bs as [|b bs].
  { cbn. left. exists ps, rest, s. rewrite app_nil_r. split_and!; try done. apply grows_refl. }
  rewrite decide_True by (cbn; lia).
  set (r := if decide (TdsBufferSize s <= TdsSendCur s) then InternalFlush false s else Done tt s).
  assert ((exists ps1 rest1 s1, r = Done tt s1 /\ stream_at w0 ty ps1 rest1 s1 /\ TdsSendCur s1 < TdsBufferSize s1 /\
      grows ps rest ps1 rest1 /\ concat ps1 ++ rest1 = concat ps ++ rest) \/
    (exists s1, r = Eof s1 /\ usable s1 /\ ClientConnectionLost s1 = true))
    as [(ps1 & rest1 & s1 & -> & Hst1 & Hlt & Hg & Hd)|(s1 & -> & Hu & Hl)].
  { subst r. case_decide; [|left; exists ps, rest, s; split_and!; [done..|lia|apply grows_refl|done]].
    destruct (stream_at_flush w0 ty ps rest s Hst) as [(s1 & -> & Hst1 & Hc)|Hl]; [left|by right].
    exists (ps ++ [rest]), [], s1. split_and!; [done..| | |].
    - rewrite Hc. pose proof (stream_at_usable _ _ _ _ _ Hst1) as (_ & _ & [? _] & _). done.
    - exists [], [[]]. by rewrite app_nil_r, <- app_assoc.
    - rewrite concat_app. cbn. by rewrite !app_nil_r. }
  2:{ right. exists s1. by auto. }
  cbn [io_bind]. set (amount := _ `min` _).
  assert (0 < amount <= length (b :: bs)) as Ha by (unfold amount; cbn; lia).
  assert (length (take amount (b :: bs)) = amount) as Hl by (rewrite length_take; lia).
  destruct Hst1 as (Hs & Hld & Hw).
  destruct (load_more s1 ty rest1 (take amount (b :: bs)) Hld) as (buf & -> & Hld'); [rewrite Hl; unfold amount; lia|].
  rewrite Hl in Hld'.
  destruct (IH (drop amount (b :: bs)) w0 ty ps1 (rest1 ++ take amount (b :: bs))
    (set_send s1 buf (TdsSendCur s1 + amount) (TdsSendStart s1) (TdsSendMessageType s1)))
    as [(ps' & rest' & s' & E & Hst' & Hg' & Hd')|Hlost]; [done|rewrite length_drop; lia| |by right].
  left. exists ps', rest', s'. split_and!; try done.
  - eapply grows_trans; [exact Hg|]. eapply grows_trans; [|exact Hg']. by exists (take amount (b :: bs)), [].
  - rewrite Hd', <- app_assoc, take_drop, app_assoc, Hd, <- app_assoc. done.
Qed.

Lemma stream_put fuel bs w0 ty data s : stream w0 ty data s -> length bs <= fuel ->
  (exists s', InternalPutbytes fuel bs s = Done tt s' /\ stream w0 ty (data ++ bs) s') \/ lost_result (InternalPutbytes fuel bs s).
Proof.
  intros (ps & rest & Hst & ->) Hf. destruct (stream_at_put fuel bs w0 ty ps rest s Hst Hf) as [(ps' & rest' & s' & E & Hst' & _ & Hd)|?];
    [left|by right].
  exists s'. split; [done|]. exists ps', rest'. split; [done|]. by rewrite Hd, <- app_assoc.
Qed.

(** Bytes that fit into the buffer stay in one packet; nothing is sent. *)
Lemma stream_at_fits fuel bs w0 ty ps rest s : stream_at w0 ty ps rest s -> length bs <= fuel -> length bs <= GetAvailableBufferSize s ->
  exists s', InternalPutbytes fuel bs s = Done tt s' /\ stream_at w0 ty ps (rest ++ bs) s' /\
    GetAvailableBufferSize s' = GetAvailableBufferSize s - length bs.
Proof.
  intros Hst Hf Ha. unfold GetAvailableBufferSize in *. destruct bs as [|b bs].
  { exists s. rewrite app_nil_r. split_and!; [by destruct fuel|done|cbn; lia]. }
  destruct fuel as [|fuel]; [cbn in Hf; lia|]. cbn [InternalPutbytes].
  rewrite decide_True by (cbn; lia). rewrite decide_False by (cbn in Ha; lia). cbn [io_bind].
  rewrite Nat.min_r, take_ge, drop_ge by lia. destruct Hst as (Hs & Hld & Hw).
  destruct (load_more s ty rest (b :: bs) Hld) as (buf & -> & Hld'); [cbn [length] in *; lia|].
  eexists. split; [by destruct fuel|]. split; [done|]. cbn. lia.
Qed.

(** ** Senders *)

(** [k] puts bytes that satisfy [P]. *)
Definition sender (k : comm -> io unit) (P : bytes -> Prop) : Prop :=
  (forall w0 ty data s, stream w0 ty data s ->
    (exists bs s', P bs /\ k s = Done tt s' /\ stream w0 ty (data ++ bs) s') \/ lost_result (k s)) /\
  (forall s, usable s -> ClientConnectionLost s = true -> lost_result (k s)).

(** Exactly these bytes. *)
Definition puts (k : comm -> io unit) (bs : bytes) : Prop := sender k (eq bs).

Lemma ends_lost s r : ends s r -> ClientConnectionLost s = true -> lost_result r.
Proof. intros (s' & Hr & Hu & Hl) H. exists s'. auto. Qed.

Lemma puts_bytes fuel bs : length bs <= fuel -> puts (InternalPutbytes fuel bs) bs.
Proof.
  intros Hf. split.
  - intros w0 ty data s Hst. destruct (stream_put fuel bs w0 ty data s Hst Hf) as [(s' & ? & ?)|?]; [left; by exists bs, s'|by right].
  - intros s Hu Hl. eapply ends_lost, Hl. by apply put_ends.
Qed.

Lemma sender_bind k1 k2 P1 (P2 : bytes -> Prop) : sender k1 P1 -> sender k2 P2 ->
  sender (fun s => do! _, s := k1 s in k2 s) (fun bs => exists b1 b2, bs = b1 ++ b2 /\ P1 b1 /\ P2 b2).
Proof.
  intros [Hp1 Hl1] [Hp2 Hl2]. split.
  - intros w0 ty data s Hp. destruct (Hp1 _ _ _ _ Hp) as [(b1 & s1 & HP1 & -> & Hp')|(s1 & [E|E] & Hu & Hl)].
    + cbn [io_bind]. destruct (Hp2 _ _ _ _ Hp') as [(b2 & s2 & HP2 & -> & Hp'')|Hlost]; [|by right].
      left. exists (b1 ++ b2), s2. rewrite app_assoc. split_and!; try done. by exists b1, b2.
    + right. rewrite E. by apply Hl2.
    + right. rewrite E. exists s1. auto.
  - intros s Hu Hl. destruct (Hl1 s Hu Hl) as (s1 & [->| ->] & Hu1 & Hlost); cbn [io_bind]; [by apply Hl2|exists s1; auto].
Qed.

Lemma sender_or_rc k1 k2 P1 (P2 : bytes -> Prop) : sender k1 P1 -> sender k2 P2 ->
  sender (fun s => or_rc (k1 s) k2) (fun bs => exists b1 b2, bs = b1 ++ b2 /\ P1 b1 /\ P2 b2).
Proof.
  intros [Hp1 Hl1] [Hp2 Hl2].
  assert (forall s1, usable s1 -> ClientConnectionLost s1 = true -> lost_result (or_rc (Eof s1) k2)) as Heof.
  { intros s1 Hu Hl. unfold or_rc. destruct (Hl2 s1 Hu Hl) as (s2 & [->| ->] & Hu2 & Hlost); exists s2; auto. }
  split.
  - intros w0 ty data s Hp. destruct (Hp1 _ _ _ _ Hp) as [(b1 & s1 & HP1 & -> & Hp')|(s1 & [E|E] & Hu & Hl)].
    + cbn [or_rc]. destruct (Hp2 _ _ _ _ Hp') as [(b2 & s2 & HP2 & -> & Hp'')|Hlost]; [|by right].
      left. exists (b1 ++ b2), s2. rewrite app_assoc. split_and!; try done. by exists b1, b2.
    + right. rewrite E. by apply Hl2.
    + right. rewrite E. by apply Heof.
  - intros s Hu Hl. destruct (Hl1 s Hu Hl) as (s1 & [->| ->] & Hu1 & Hlost); [by apply Hl2|by apply Heof].
Qed.

Lemma sender_ignore k P : sender k P -> sender (fun s => ignore_rc (k s)) P.
Proof.
  intros [Hp Hl]. assert (forall r, lost_result r -> lost_result (ignore_rc r)) as Hi.
  { intros r (s' & [->| ->] & ? & ?); exists s'; auto. }
  split.
  - intros w0 ty data s H. destruct (Hp _ _ _ _ H) as [(bs & s' & ? & -> & ?)|Hlost]; [left; by exists bs, s'|right; by apply Hi].
  - intros s Hu H. by apply Hi, Hl.
Qed.

Lemma sender_skip : puts (Done tt) [].
Proof.
  split.
  - intros w0 ty data s Hp. left. exists [], s. by rewrite app_nil_r.
  - intros s Hu Hl. exists s. auto.
Qed.

Lemma sender_weaken k (P Q : bytes -> Prop) : (forall bs, P bs -> Q bs) -> sender k P -> sender k Q.
Proof.
  intros HPQ [Hp Hl]. split; [|done]. intros w0 ty data s H.
  destruct (Hp _ _ _ _ H) as [(bs & s' & ? & ? & ?)|?]; [left; exists bs, s'; auto|by right].
Qed.

Lemma puts_bind k1 k2 b1 b2 : puts k1 b1 -> puts k2 b2 -> puts (fun s => do! _, s := k1 s in k2 s) (b1 ++ b2).
Proof. intros H1 H2. eapply sender_weaken, sender_bind; [|done..]. by intros bs (? & ? & -> & <- & <-). Qed.

Lemma puts_or_rc k1 k2 b1 b2 : puts k1 b1 -> puts k2 b2 -> puts (fun s => or_rc (k1 s) k2) (b1 ++ b2).
Proof. intros H1 H2. eapply sender_weaken, sender_or_rc; [|done..]. by intros bs (? & ? & -> & <- & <-). Qed.

Lemma puts_ignore k bs : puts k bs -> puts (fun s => ignore_rc (k s)) bs.
Proof. apply sender_ignore. Qed.
End senders.

Arguments puts_bytes {size}.
Arguments sender_bind {size}.
Arguments sender_or_rc {size}.
Arguments sender_ignore {size}.
Arguments sender_skip {size}.
Arguments sender_weaken {size}.
Arguments puts_bind {size}.
Arguments puts_or_rc {size}.
Arguments puts_ignore {size}.
