(* ===== verification/TdsTypeTheorems.v ===== *)
(** * TdsTypeTheorems: values survive the wire

    For every type: the bytes that its send function puts, whatever the state of the send buffer, and
    that the receive function of the type turns them back into the value. *)
From Stdlib Require Import String.
From stdpp Require Import base list numbers.
From S2P Require Import TdsColMeta Prelude BitFacts Utf SoftFloat Calendar Datetime Datetime2 Datediff.
From S2P Require Import DatetimeTheorems Datetime2Theorems DatediffTheorems DatetimeOffset.
From S2P Require Import DatetimeOffsetTheorems TdsTimestamp TdsTimestampTheorems.
From S2P Require Import TdsComm TdsSend TdsTypeRecv TdsTypeSend TdsSenders.
Open Scope Z_scope.

(** ** Reading back *)

(** [f] takes exactly the bytes [bs] for [a], whatever follows them in the message. *)
Definition reads_as {A} (f : strinfo -> rd A) (bs : bytes) (a : A) : Prop :=
  forall rest, f (mk_si (bs ++ rest) (Z.of_nat (length bs)) 0) =
    Got a (mk_si (bs ++ rest) (Z.of_nat (length bs)) (Z.of_nat (length bs))).

Section wire.
(** The size of packets. *)
Variable size : nat.
Local Notation puts := (puts size).

(** [k] sends [prefix] and bytes that [f] reads as [a]. *)
Definition carries {A} (k : comm -> io unit) (prefix : bytes) (f : strinfo -> rd A) (a : A) : Prop :=
  exists bs, puts k (prefix ++ bs) /\ reads_as f bs a.

(** The same for a function that may report an error before it puts anything. *)
Definition carries_ok {A} (k : comm -> result send_error (io unit)) (prefix : bytes) (f : strinfo -> rd A) (a : A) : Prop :=
  exists k', (forall s, k s = Ok (k' s)) /\ carries k' prefix f a.

Definition length_prefix (attNotNull : bool) (n : Z) : bytes := if attNotNull then [] else [n].

Lemma puts_length fuel nn n : (1 <= fuel)%nat -> 0 <= n < 256 -> puts (put_length fuel nn n) (length_prefix nn n).
Proof.
  intros Hf Hn. unfold put_length, length_prefix. destruct nn; [apply sender_skip|].
  replace [n] with (le_bytes 1 n) by (cbn; by rewrite Z.mod_small). by apply puts_bytes.
Qed.

(** Any number of bytes at the cursor. *)
Lemma raw_copy_at a bs rest l n c : n = Z.of_nat (length bs) -> c = Z.of_nat (length a) ->
  raw_copy (mk_si (a ++ bs ++ rest) l c) n = Got bs (mk_si (a ++ bs ++ rest) l (c + n)).
Proof.
  intros -> ->. unfold raw_copy, move_cursor. cbn [si_data si_len si_cursor].
  assert (Z.of_nat (length a) + Z.of_nat (length bs) <= Z.of_nat (length (a ++ bs ++ rest))) by (rewrite !length_app; lia).
  if_lia. rewrite !Nat2Z.id. rewrite drop_app_length, take_app_length. done.
Qed.

Lemma copy_msg_at a bs rest l n c : n = Z.of_nat (length bs) -> c = Z.of_nat (length a) -> c + n <= l ->
  CopyMsgBytes (mk_si (a ++ bs ++ rest) l c) n = Got bs (mk_si (a ++ bs ++ rest) l (c + n)).
Proof.
  intros Hn Hc Hl. unfold CopyMsgBytes. cbn [si_len si_cursor]. if_lia. by apply raw_copy_at.
Qed.

(** The reader of an unsigned integer. *)
Lemma get_msg_int k n z rest : (1 <= k <= 4)%nat -> n = Z.of_nat k ->
  GetMsgInt (mk_si (le_bytes k z ++ rest) n 0) n = Got (z mod 256 ^ n) (mk_si (le_bytes k z ++ rest) n n).
Proof.
  intros Hk ->. unfold GetMsgInt. if_lia. pose proof (length_le_bytes k z) as Hl.
  rewrite (copy_msg_at [] (le_bytes k z) rest) by (cbn; lia). cbn [rd_bind]. by rewrite le_val_bytes.
Qed.

Lemma get_msg_int64 z rest :
  GetMsgInt64 (mk_si (le_bytes 8 z ++ rest) 8 0) = Got (i64 z) (mk_si (le_bytes 8 z ++ rest) 8 8).
Proof.
  unfold GetMsgInt64. pose proof (length_le_bytes 8 z) as Hl. rewrite (copy_msg_at [] (le_bytes 8 z) rest) by (cbn; lia).
  cbn [rd_bind]. by rewrite le_val_bytes, i64_mod.
Qed.

Lemma i32_mod z : i32 (z mod 256 ^ 4) = i32 z.
Proof. change (256 ^ 4) with 4294967296. rewrite !i32_unfold. by rewrite Z.add_mod_idemp_l. Qed.
Lemma i16_mod z : i16 (z mod 256 ^ 2) = i16 z.
Proof. change (256 ^ 2) with 65536. rewrite !i16_unfold. by rewrite Z.add_mod_idemp_l. Qed.
Lemma i64_u64 z : i64 (u64 z) = i64 z.
Proof. unfold u64, uwrap. change (2 ^ 64) with 18446744073709551616. rewrite !i64_unfold. by rewrite Z.add_mod_idemp_l. Qed.

(** ** Integers, floats, bits and money *)

Lemma reads_integer n z v : (n = 1%nat /\ v = z /\ 0 <= z < 256) \/ (n = 2%nat /\ v = z /\ in_i16 z = true) \/
  (n = 4%nat /\ v = z /\ in_i32 z = true) \/ (n = 8%nat /\ v = z /\ in_i64 z = true) ->
  reads_as (fun m => TdsTypeIntegerToDatum m (Z.of_nat n)) (le_bytes n z) v.
Proof.
  intros Hc rest. rewrite length_le_bytes.
  destruct Hc as [(-> & -> & Hz)|[(-> & -> & Hz)|[(-> & -> & Hz)|(-> & -> & Hz)]]]; cbn beta; change (Z.of_nat 1) with 1; change (Z.of_nat 2) with 2;
    change (Z.of_nat 4) with 4; change (Z.of_nat 8) with 8.
  - change (TdsTypeIntegerToDatum ?m 1) with (get! res, m' := GetMsgInt m 1 in Got (i16 (u8 res)) m').
    rewrite (get_msg_int 1 1 z rest) by lia. cbn [rd_bind]. change (256 ^ 1) with 256.
    rewrite (Z.mod_small z) by lia. unfold u8, uwrap. rewrite Z.mod_small by (cbn; lia). by rewrite i16_id by (apply in_i16_iff; lia).
  - change (TdsTypeIntegerToDatum ?m 2) with (get! res, m' := GetMsgInt m 2 in Got (i16 (u16 res)) m').
    rewrite (get_msg_int 2 2 z rest) by lia. cbn [rd_bind]. rewrite u16_id by (change (256 ^ 2) with 65536; div_lia).
    by rewrite (i16_mod z), i16_id.
  - change (TdsTypeIntegerToDatum ?m 4) with (get! res, m' := GetMsgInt m 4 in Got (i32 res) m').
    rewrite (get_msg_int 4 4 z rest) by lia. cbn [rd_bind]. by rewrite (i32_mod z), i32_id.
  - change (TdsTypeIntegerToDatum ?m 8) with (get! res, m' := GetMsgInt64 m in Got (i64 (u64 res)) m').
    rewrite (get_msg_int64 z rest). cbn [rd_bind]. by rewrite i64_u64, !i64_id by (rewrite ?i64_id; done).
Qed.

(** Two integers behind each other are one. *)
Lemma le_bytes_app m n a b : le_bytes m a ++ le_bytes n b = le_bytes (m + n) (a mod 256 ^ Z.of_nat m + 256 ^ Z.of_nat m * b).
Proof.
  revert a. induction m as [|m IH]; intros a.
  - cbn [le_bytes app Nat.add]. change (256 ^ Z.of_nat 0) with 1. rewrite Z.mod_1_r. f_equal. lia.
  - cbn [le_bytes app Nat.add]. rewrite Nat2Z.inj_succ, Z.pow_succ_r by lia. set (P := 256 ^ Z.of_nat m) in *.
    assert (0 < P) by (subst P; apply Z.pow_pos_nonneg; lia). rewrite IH. rewrite Z.rem_mul_r by lia.
    replace (a mod 256 + 256 * ((a / 256) mod P) + 256 * P * b) with (a mod 256 + ((a / 256) mod P + P * b) * 256) by lia.
    rewrite Z_mod_plus_full, Z.mod_mod, Z_div_plus_full by lia.
    rewrite (Z.div_small (a mod 256)) by (apply Z.mod_pos_bound; lia). done.
Qed.

Lemma land_32 z : Z.land z 0xffffffff = z mod 4294967296.
Proof. by apply (land_ones_mod z 32). Qed.
Lemma land_16 z : Z.land z 0xffff = z mod 65536.
Proof. by apply (land_ones_mod z 16). Qed.

(** Two 32-bit halves: what the readers of eight bytes see. *)
Lemma halves lo hi : 0 <= lo < 4294967296 -> 0 <= hi < 4294967296 ->
  le_bytes 4 lo ++ le_bytes 4 hi = le_bytes 8 (lo + 4294967296 * hi) /\
  u64 (i64 (lo + 4294967296 * hi)) = lo + 4294967296 * hi /\
  Z.shiftr (lo + 4294967296 * hi) 32 = hi /\ Z.land (lo + 4294967296 * hi) 0xffffffff = lo.
Proof.
  intros Hlo Hhi. split; [|split; [|split]].
  - rewrite le_bytes_app. change (256 ^ Z.of_nat 4) with 4294967296. by rewrite Z.mod_small.
  - unfold u64, uwrap. change (2 ^ 64) with 18446744073709551616. rewrite i64_unfold. div_lia.
  - rewrite shiftr_div by lia. change (2 ^ 32) with 4294967296. div_lia.
  - rewrite land_32. div_lia.
Qed.

Lemma reads_money z : in_i64 z = true ->
  reads_as TdsTypeMoneyToDatum (le_bytes 4 (Z.land (Z.shiftr (u64 z) 32) 0xffffffff) ++ le_bytes 4 (Z.land (u64 z) 0xffffffff)) z.
Proof.
  intros Hz rest. assert (0 <= u64 z < 18446744073709551616) as Hu by (apply Z.mod_pos_bound; lia).
  rewrite shiftr_div, !land_32 by lia. change (2 ^ 32) with 4294967296.
  set (hi := u64 z / 4294967296). set (lo := u64 z mod 4294967296).
  assert (u64 z = lo + 4294967296 * hi /\ 0 <= lo < 4294967296 /\ 0 <= hi < 4294967296) as (Ez & Hlo & Hhi) by (subst hi lo; div_lia).
  rewrite (Z.mod_small hi) by lia. destruct (halves hi lo Hhi Hlo) as (-> & Hv & Hs & Hl).
  unfold TdsTypeMoneyToDatum. rewrite length_le_bytes. change (Z.of_nat 8) with 8. rewrite get_msg_int64. cbn [rd_bind].
  cbv zeta. rewrite Hv, Hl. rewrite Z.shiftr_land, Hs. change (Z.shiftr 0xffffffff00000000 32) with 0xffffffff.
  rewrite land_32, (Z.mod_small lo) by lia. rewrite shiftl_mul by lia. change (2 ^ 32) with 4294967296.
  rewrite u64_id by lia. rewrite Z.lor_comm, (lor_low _ lo 32) by (change (2 ^ 32) with 4294967296; div_lia).
  replace (hi * 4294967296 + lo) with (u64 z) by lia. by rewrite i64_u64, i64_id.
Qed.

(** TINYINT, SMALLINT, INT, BIGINT, BIT, MONEY and the bit patterns of the floats come back as they
    were sent, for nullable columns, whose values have a length in front, and for others. *)
Theorem wire_scalar_roundtrip fuel nn : (8 <= fuel)%nat ->
  (forall z, 0 <= z < 256 -> carries (TdsSendTypeTinyint fuel z nn) (length_prefix nn 1) (fun m => TdsTypeIntegerToDatum m 1) z) /\
  (forall z, in_i16 z = true -> carries (TdsSendTypeSmallint fuel z nn) (length_prefix nn 2) (fun m => TdsTypeIntegerToDatum m 2) z) /\
  (forall z, in_i32 z = true -> carries (TdsSendTypeInteger fuel z nn) (length_prefix nn 4) (fun m => TdsTypeIntegerToDatum m 4) z) /\
  (forall z, in_i64 z = true -> carries (TdsSendTypeBigint fuel z nn) (length_prefix nn 8) (fun m => TdsTypeIntegerToDatum m 8) z) /\
  (forall b, carries (TdsSendTypeBit fuel b nn) (length_prefix nn 1) TdsTypeBitToDatum b) /\
  (forall z, in_i64 z = true -> carries (TdsSendTypeMoney fuel z nn) (length_prefix nn 8) TdsTypeMoneyToDatum z) /\
  (forall p, 0 <= p < 2 ^ 32 -> carries (TdsSendTypeFloat4 fuel p nn) (length_prefix nn 4) (fun m => TdsTypeFloatToDatum m 4) p) /\
  (forall p, 0 <= p < 2 ^ 64 -> carries (TdsSendTypeFloat8 fuel p nn) (length_prefix nn 8) (fun m => TdsTypeFloatToDatum m 8) p).
Proof.
  intros Hf.
  assert (forall n k bs, puts k bs -> 0 <= n < 256 ->
    puts (fun s => do! _, s := put_length fuel nn n s in k s) (length_prefix nn n ++ bs)) as Hp.
  { intros n k bs Hk Hn. apply puts_bind; [apply puts_length; lia|done]. }
  assert (forall n z, (n <= 8)%nat -> puts (InternalPutbytes fuel (le_bytes n z)) (le_bytes n z)) as Hb.
  { intros n z Hn. apply puts_bytes. rewrite length_le_bytes. lia. }
  split_and!; intros z; try intros Hz.
  - eexists. split; [apply Hp; [apply (Hb 1%nat)|]; lia|]. apply (reads_integer 1 z z); by left.
  - eexists. split; [apply Hp; [apply (Hb 2%nat)|]; lia|]. apply (reads_integer 2 z z); right; by left.
  - eexists. split; [apply Hp; [apply (Hb 4%nat)|]; lia|]. apply (reads_integer 4 z z); do 2 right; by left.
  - eexists. split; [apply Hp; [apply (Hb 8%nat)|]; lia|]. apply (reads_integer 8 z z); by do 3 right.
  - eexists. split; [apply Hp; [apply (Hb 1%nat)|]; lia|]. intros rest. rewrite length_le_bytes.
    unfold TdsTypeBitToDatum, GetMsgByte. cbn [si_cursor si_len]. change (0 >=? Z.of_nat 1) with false.
    rewrite (raw_copy_at [] (le_bytes 1 (if z then 1 else 0)) rest) by done. by destruct z.
  - eexists. split; [apply Hp; [apply puts_or_rc; apply (Hb 4%nat)|]; lia|]. by apply reads_money.
  - eexists. split; [apply Hp; [apply (Hb 4%nat)|]; lia|]. intros rest. rewrite length_le_bytes.
    change (TdsTypeFloatToDatum ?m 4) with (GetMsgInt m 4). change (Z.of_nat 4) with 4.
    rewrite (get_msg_int 4 4) by lia. by rewrite Z.mod_small.
  - eexists. split; [apply Hp; [apply (Hb 8%nat)|]; lia|]. intros rest. rewrite length_le_bytes.
    change (TdsTypeFloatToDatum ?m 8) with (GetMsgFloat8 m). unfold GetMsgFloat8. change (Z.of_nat 8) with 8.
    rewrite get_msg_int64. cbn [rd_bind]. assert (u64 (i64 z) = z) as ->; [|done].
    unfold u64, uwrap. change (2 ^ 64) with 18446744073709551616 in *. rewrite i64_unfold. div_lia.
Qed.

(** ** Dates and times *)

Lemma copy_uint_at a k z rest l n c w : n = Z.of_nat k -> c = Z.of_nat (length a) -> n <= w -> 0 <= z < 256 ^ n ->
  copy_uint (mk_si (a ++ le_bytes k z ++ rest) l c) w n = Got z (mk_si (a ++ le_bytes k z ++ rest) l (c + n)).
Proof.
  intros -> Hc Hn Hz. unfold copy_uint. if_lia. rewrite raw_copy_at by (rewrite ?length_le_bytes; done).
  cbn [rd_bind]. by rewrite le_val_bytes, Z.mod_small.
Qed.

(** Lengths of the times of every scale, and that the units fit them. *)
Lemma time_length_fits scale : 0 <= scale <= 7 ->
  (time_length scale = 3 \/ time_length scale = 4 \/ time_length scale = 5) /\
  86400 * 10 ^ scale <= 256 ^ time_length scale.
Proof. intros Hs. by_digits scale; vm_compute; split; try done; tauto. Qed.

Section times.
Context `{PgCalendarLaws}.
Variables (bad_cast : Z) (fuel : nat).
Hypothesis enough : (8 <= fuel)%nat.

Lemma puts_le n z : (n <= 8)%nat -> puts (InternalPutbytes fuel (le_bytes n z)) (le_bytes n z).
Proof. intros Hn. apply puts_bytes. rewrite length_le_bytes. lia. Qed.

Lemma puts_one n : 0 <= n < 256 -> puts (TdsPutInt8 fuel n) [n].
Proof. intros Hn. replace [n] with (le_bytes 1 n) by (cbn; by rewrite Z.mod_small). apply puts_le. lia. Qed.

Lemma wire_smalldatetime nn t : is_smalldatetime t ->
  carries_ok (TdsSendTypeSmalldatetime fuel t nn) (length_prefix nn 4) TdsTypeSmallDatetimeToDatum t.
Proof.
  intros Ht. destruct (wire_smalldatetime_roundtrip t Ht) as (days & mins & Es & Hd & Hm & Er).
  unfold TdsSendTypeSmalldatetime. rewrite Es. cbn [on_ok fst snd]. eexists. split; [done|].
  exists (le_bytes 2 days ++ le_bytes 2 mins). split.
  - apply puts_bind; [apply puts_length; lia|]. apply puts_or_rc; apply puts_le; lia.
  - intros rest. rewrite le_bytes_app, length_le_bytes. change (256 ^ Z.of_nat 2) with 65536.
    rewrite (Z.mod_small days) by lia. change (2 + 2)%nat with 4%nat. change (Z.of_nat 4) with 4.
    unfold TdsTypeSmallDatetimeToDatum. rewrite (get_msg_int 4 4) by lia. cbn [rd_bind].
    change (256 ^ 4) with 4294967296. rewrite Z.mod_small by lia.
    rewrite shiftr_div, land_16 by lia. change (2 ^ 16) with 65536.
    replace ((days + 65536 * mins) / 65536) with mins by div_lia.
    replace ((days + 65536 * mins) mod 65536) with days by div_lia.
    rewrite !u16_id by lia. by rewrite Er.
Qed.

Lemma wire_date out maxlen d : -730119 <= d <= 2921939 ->
  carries_ok (TdsSendTypeDate fuel false maxlen out d) [3] TdsTypeDateToDatum d.
Proof.
  intros Hd. destruct (wire_date_roundtrip d Hd) as [Es Er]. unfold TdsSendTypeDate. rewrite Es. cbn [on_ok].
  eexists. split; [done|]. exists (le_bytes 3 (d + EPOCH_DAYS)). unfold EPOCH_DAYS in *. split.
  - apply puts_bind; [by apply puts_one|apply puts_le; lia].
  - intros rest. rewrite length_le_bytes. change (Z.of_nat 3) with 3. unfold TdsTypeDateToDatum.
    rewrite (get_msg_int 3 3) by lia. cbn [rd_bind]. change (256 ^ 3) with 16777216. rewrite Z.mod_small by lia.
    cbv zeta. rewrite i32_id by (apply in_i32_iff; lia).
    assert (TdsCheckDateValidity (d + 730119) = Ok tt) as ->.
    { unfold TdsCheckDateValidity, DATE_NOT_FINITE, IS_VALID_DATE, DATEVAL_NOBEGIN, DATEVAL_NOEND, INT32_MIN, INT32_MAX,
        DATE_END_JULIAN, POSTGRES_EPOCH_JDATE. by if_lia. }
    rewrite u32_id, Er by lia. assert (i32 (u64 d) = d) as ->; [|done].
    unfold u64, uwrap. rewrite i32_unfold. div_lia.
Qed.

Lemma wire_datetime nn t : IS_VALID_DATETIME t = true -> to_tick t = t ->
  exists r, carries_ok (TdsSendTypeDatetime fuel bad_cast t nn) (length_prefix nn 8) (TdsTypeDatetimeToDatum bad_cast) r /\ to_tick r = t.
Proof.
  intros Hv Hg. destruct (wire_datetime_roundtrip bad_cast t Hv Hg) as (days & ticks & r & Es & Hd & Ht & Er & Hr & _).
  exists r. split; [|done]. unfold TdsSendTypeDatetime. rewrite Es. cbn [on_ok fst snd]. eexists. split; [done|].
  exists (le_bytes 4 days ++ le_bytes 4 ticks). split.
  - apply puts_bind; [apply puts_length; lia|]. apply puts_or_rc; apply puts_le; lia.
  - intros rest. destruct (halves days ticks) as (-> & Hu & Hs & Hlo); [lia..|]. rewrite length_le_bytes.
    change (Z.of_nat 8) with 8. unfold TdsTypeDatetimeToDatum. rewrite get_msg_int64. cbn [rd_bind]. cbv zeta.
    rewrite Hu, Hs, Hlo, !u32_id by lia. by rewrite Er.
Qed.

Lemma wire_datetime2 out maxlen t scale : IS_VALID_DATETIME2 t = true -> 0 <= scale <= 7 -> t mod digit_scale scale = 0 ->
  let len := time_length scale + 3 in
  carries_ok (TdsSendTypeDatetime2 fuel bad_cast false maxlen out t scale) [len]
    (fun m => TdsTypeDatetime2ToDatum bad_cast m scale len) t.
Proof.
  intros Hv Hs Hm len. destruct (time_length_fits scale Hs) as [Hl Hfit].
  destruct (wire_datetime2_roundtrip bad_cast t (Z.to_nat scale) Hv) as (Es & Hd & Hu & Er); [lia|by rewrite Z2Nat.id by lia|].
  rewrite Z2Nat.id in * by lia. specialize (Er 0 ltac:(lia)).
  set (days := t / USECS_PER_DAY + EPOCH_DAYS) in *. set (units := _ / 1000000) in *.
  rewrite Z.mul_0_l, Z.add_0_r in Er. unfold in_range in Er.
  destruct (common_era_valid t) as [Hvt _]; [unfold IS_VALID_DATETIME2, MIN_DATETIME2, END_DATETIME2, common_era in *; lia|].
  rewrite Hvt in Er.
  assert (effective_scale scale = scale /\ default_scale scale = Z.to_nat scale) as [Ee Ed].
  { unfold effective_scale, default_scale. by if_lia. }
  unfold TdsSendTypeDatetime2. rewrite Ee. cbv zeta. rewrite Es. cbn [on_ok fst snd]. eexists. split; [done|].
  replace (time_length scale + 3 - 3) with (time_length scale) by lia.
  exists (le_bytes (Z.to_nat (time_length scale)) units ++ le_bytes 3 days). split.
  - apply (puts_bind _ _ [len]); [apply puts_one; lia|]. apply puts_bind; apply puts_le; lia.
  - intros rest. rewrite length_app, !length_le_bytes. unfold TdsTypeDatetime2ToDatum. rewrite <- app_assoc.
    subst len. replace (time_length scale + 3 - 3) with (time_length scale) by lia.
    rewrite (copy_uint_at [] (Z.to_nat (time_length scale)) units (le_bytes 3 days ++ rest)) by (cbn [length]; lia). cbn [rd_bind].
    rewrite (copy_uint_at (le_bytes (Z.to_nat (time_length scale)) units) 3 days rest) by (rewrite ?length_le_bytes; cbn; lia).
    cbn [rd_bind]. rewrite Ed, Er. cbn [or_timestamp_range rd_result]. do 2 f_equal. lia.
Qed.

Lemma instant_aligned df scale : 0 <= scale <= 7 -> tsql_ts df mod digit_scale scale = 0 -> instant df mod digit_scale scale = 0.
Proof.
  intros Hs. unfold instant, USECS_PER_MINUTE. pose proof (scale_cases scale Hs) as Hc. cbv zeta in Hc.
  set (d := digit_scale scale) in *. clearbody d. destruct Hc as [->|[->|[->|[->|[->|[->| ->]]]]]]; div_lia.
Qed.

Lemma wire_datetimeoffset out maxlen df scale : is_datetimeoffset df -> 0 <= scale <= 7 -> tsql_ts df mod digit_scale scale = 0 ->
  let len := time_length scale + 5 in
  carries_ok (TdsSendTypeDatetimeoffset fuel bad_cast false maxlen out df scale) [len]
    (fun m => TdsTypeDatetimeoffsetToDatum bad_cast m scale len) df.
Proof.
  intros [Htz Hv] Hs Hm%instant_aligned len; [|done]. destruct (time_length_fits scale Hs) as [Hl Hfit].
  destruct (wire_datetime2_roundtrip bad_cast (instant df) (Z.to_nat scale) Hv) as (Es & Hd & Hu & Er); [lia|by rewrite Z2Nat.id by lia|].
  rewrite Z2Nat.id in * by lia. specialize (Er (tsql_tz df) ltac:(lia)).
  set (days := instant df / USECS_PER_DAY + EPOCH_DAYS) in *. set (units := _ / 1000000) in *.
  assert (effective_scale scale = scale /\ default_scale scale = Z.to_nat scale) as [Ee Ed].
  { unfold effective_scale, default_scale. by if_lia. }
  unfold TdsSendTypeDatetimeoffset. rewrite Ee. fold (datetimeoffset_timestamp_internal df).
  rewrite instant_internal by done. cbv zeta. rewrite Es. cbn [on_ok fst snd]. eexists. split; [done|].
  replace (time_length scale + 5 - 5) with (time_length scale) by lia.
  rewrite (i16_id (_ * -1)) by (apply in_i16_iff; lia).
  exists (le_bytes (Z.to_nat (time_length scale)) units ++ le_bytes 3 days ++ le_bytes 2 (tsql_tz df * -1)). split.
  - apply (puts_bind _ _ [len]); [apply puts_one; lia|]. repeat apply puts_bind; apply puts_le; lia.
  - intros rest. rewrite !length_app, !length_le_bytes. unfold TdsTypeDatetimeoffsetToDatum. rewrite <- !app_assoc.
    subst len. replace (time_length scale + 5 - 5) with (time_length scale) by lia.
    rewrite (copy_uint_at [] (Z.to_nat (time_length scale)) units (le_bytes 3 days ++ le_bytes 2 (tsql_tz df * -1) ++ rest))
      by (cbn [length]; lia). cbn [rd_bind].
    rewrite (copy_uint_at (le_bytes (Z.to_nat (time_length scale)) units) 3 days (le_bytes 2 (tsql_tz df * -1) ++ rest)) by (rewrite ?length_le_bytes; cbn; lia).
    cbn [rd_bind]. rewrite (app_assoc _ (le_bytes 3 days)).
    unfold copy_uint at 1. if_lia. rewrite raw_copy_at by (rewrite ?length_app, ?length_le_bytes; lia). cbn [rd_bind].
    rewrite le_val_bytes. change (Z.of_nat 2) with 2. rewrite i16_mod, (i16_id (tsql_tz df * -1)) by (apply in_i16_iff; lia).
    replace (tsql_tz df * -1 * -1) with (tsql_tz df) by lia. rewrite i16_id by (apply in_i16_iff; lia). cbv zeta.
    rewrite Ed, Er. clear Er. unfold in_range, instant, IS_VALID_DATETIME2, MIN_DATETIME2, END_DATETIME2, USECS_PER_MINUTE, USECS_PER_SEC in *.
    assert (valid_timestamp (tsql_ts df + tsql_tz df * 60000000 + tsql_tz df * 1000000) = true) as ->
      by (unfold valid_timestamp, MIN_TIMESTAMP, END_TIMESTAMP; lia).
    cbn [or_timestamp_range rd_result rd_bind]. unfold of_utc, USECS_PER_SEC.
    rewrite (i64_id (_ - tsql_tz df * 60 * 1000000)) by (apply in_i64_iff; lia).
    rewrite i64_id by (apply in_i64_iff; lia). rewrite i16_id by (apply in_i16_iff; lia).
    rewrite <- app_assoc. f_equal; [|f_equal; lia]. destruct df as [ts tz]. cbn [tsql_ts tsql_tz]. f_equal. lia.
Qed.

(** C6: Every date and time type comes back as it was sent: SMALLDATETIME, DATE, DATETIME2 and
    DATETIMEOFFSET exactly, at every scale and with every offset; a DATETIME on a tick comes back
    within it. DATETIME2 and DATETIMEOFFSET values are those that their scale can hold, and the client
    knows these types and DATE (protocol 7.3A or later; others get text). *)
Theorem wire_time_types_roundtrip nn out maxlen :
  (forall t, is_smalldatetime t ->
    carries_ok (TdsSendTypeSmalldatetime fuel t nn) (length_prefix nn 4) TdsTypeSmallDatetimeToDatum t) /\
  (forall d, -730119 <= d <= 2921939 ->
    carries_ok (TdsSendTypeDate fuel false maxlen out d) [3] TdsTypeDateToDatum d) /\
  (forall t, IS_VALID_DATETIME t = true -> to_tick t = t ->
    exists r, carries_ok (TdsSendTypeDatetime fuel bad_cast t nn) (length_prefix nn 8) (TdsTypeDatetimeToDatum bad_cast) r /\ to_tick r = t) /\
  (forall t scale, IS_VALID_DATETIME2 t = true -> 0 <= scale <= 7 -> t mod digit_scale scale = 0 ->
    let len := time_length scale + 3 in
    carries_ok (TdsSendTypeDatetime2 fuel bad_cast false maxlen out t scale) [len]
      (fun m => TdsTypeDatetime2ToDatum bad_cast m scale len) t) /\
  (forall df scale, is_datetimeoffset df -> 0 <= scale <= 7 -> tsql_ts df mod digit_scale scale = 0 ->
    let len := time_length scale + 5 in
    carries_ok (TdsSendTypeDatetimeoffset fuel bad_cast false maxlen out df scale) [len]
      (fun m => TdsTypeDatetimeoffsetToDatum bad_cast m scale len) df).
Proof. split_and!; eauto using wire_smalldatetime, wire_date, wire_datetime, wire_datetime2, wire_datetimeoffset. Qed.
End times.

(** ** TIME *)

Lemma Qle_bool_true x y : QArith_base.Qle x y -> QArith_base.Qle_bool x y = true.
Proof. by intros ?%QArith_base.Qle_bool_iff. Qed.

(** A TIME is sent exactly; what is received may be one microsecond less, because it is cut instead
    of rounded. *)
Theorem wire_time_within_microsecond bad_cast fuel out maxlen us scale : (8 <= fuel)%nat ->
  0 <= us < 86400000000 -> 0 <= scale <= 7 -> us mod digit_scale scale = 0 ->
  let len := time_length scale in
  exists r, carries_ok (TdsSendTypeTime fuel bad_cast false maxlen out us scale) [len] (fun m => TdsTypeTimeToDatum m scale len) r /\
    us - 1 <= r <= us.
Proof.
  intros Hf Hus Hs Hm len. destruct (time_length_fits scale Hs) as [Hl Hfit].
  destruct (whole_units (Z.to_nat scale) us) as (HN & HN1 & HN2); [lia|lia|by rewrite Z2Nat.id by lia|].
  rewrite Z2Nat.id in * by lia. set (N := us * 10 ^ scale / 1000000) in *.
  assert (effective_scale scale = scale /\ default_scale scale = Z.to_nat scale) as [Ee Ed].
  { unfold effective_scale, default_scale. by if_lia. }
  destruct (received_cut (Z.to_nat scale) N us) as (Q0 & Q1 & Q2); [lia..|by rewrite Z2Nat.id by lia|].
  eexists. split; [|exact Q2]. unfold TdsSendTypeTime. rewrite Ee. cbv zeta. eexists. split; [done|].
  unfold time_units. rewrite u64_id by lia.
  rewrite (sent_time_units bad_cast us (Z.to_nat scale) N) by (rewrite ?Z2Nat.id by lia; lia).
  exists (le_bytes (Z.to_nat (time_length scale)) N). split.
  - apply (puts_bind _ _ [len]); [by apply puts_one; lia|]. apply puts_le; lia.
  - intros rest. rewrite length_le_bytes. unfold TdsTypeTimeToDatum. subst len.
    rewrite (copy_uint_at [] (Z.to_nat (time_length scale)) N rest) by (cbn [length]; lia). cbn [rd_bind]. rewrite Ed. cbv zeta.
    change (QArith_base.inject_Z 0) with (QArith_base.Qmake 0 1). rewrite (Qle_bool_true _ _ Q0). rewrite Qle_bool_true; [|].
    + cbn [negb orb]. do 2 f_equal. lia.
    + eapply QArith_base.Qle_trans; [exact Q1|]. unfold USECS_PER_DAY. apply (QArith_base.Qle_trans _ (QArith_base.Qplus (QArith_base.inject_Z 86399999999) (QArith_base.Qmake 1 1000))); [|done].
      apply QArith_base.Qplus_le_compat; [rewrite <- QArith_base.Zle_Qle; lia|apply QArith_base.Qle_refl].
Qed.

(** 7 microseconds after midnight are sent as 70 units and received as 6 microseconds. *)
Theorem time_loses_a_microsecond bad_cast :
  time_units bad_cast 7 7 = 70 /\
  TdsTypeTimeToDatum (mk_si [70; 0; 0; 0; 0] 5 0) 7 5 = Got 6 (mk_si [70; 0; 0; 0; 0] 5 5).
Proof. by vm_compute. Qed.

(** From a linked server the fraction of the second is lost: half past noon and half a second. *)
Theorem linked_time_loses_the_fraction bad_cast :
  TdsDateTimeTypeToDatum bad_cast 450005000000 0 TDS_TYPE_TIME 7 = Ok (linked_time (45000 * USECS_PER_SEC)).
Proof. by vm_compute. Qed.

(** ** SMALLMONEY *)

(** Values that are not negative come back; negative ones come back as 2^32 more. *)
Theorem wire_smallmoney fuel nn v : (4 <= fuel)%nat -> in_i32 v = true ->
  carries_ok (TdsSendTypeSmallmoney fuel v nn) (length_prefix nn 4) TdsTypeSmallMoneyToDatum (if v <? 0 then v + 4294967296 else v).
Proof.
  intros Hf Hv%in_i32_iff. unfold TdsSendTypeSmallmoney. rewrite shiftr_div, !land_32 by lia. change (2 ^ 32) with 4294967296.
  set (u := u64 v). assert (u = if v <? 0 then v + 18446744073709551616 else v) as Eu.
  { subst u. unfold u64, uwrap. change (2 ^ 64) with 18446744073709551616. case_match; div_lia. }
  assert ((u / 4294967296) mod 4294967296 = (if v <? 0 then 4294967295 else 0)) as -> by (rewrite Eu; case_match; div_lia).
  eexists. split.
  { intros s. case_match; cbn [negb andb Z.eqb Pos.eqb]; done. }
  exists (le_bytes 4 (u mod 4294967296)). split.
  - apply puts_bind; [apply puts_length; lia|]. apply puts_bytes. by rewrite length_le_bytes.
  - intros rest. rewrite length_le_bytes. change (Z.of_nat 4) with 4. unfold TdsTypeSmallMoneyToDatum.
    rewrite (get_msg_int 4 4) by lia. cbn [rd_bind]. change (256 ^ 4) with 4294967296. rewrite Z.mod_mod by lia.
    rewrite i64_id by (apply in_i64_iff; div_lia). do 2 f_equal. rewrite Eu. case_match; div_lia.
Qed.

(** ** UNIQUEIDENTIFIER *)

Lemma swap_ok d l st ed : 0 <= st <= ed -> ed <= l -> ed < Z.of_nat (length d) ->
  SwapData (mk_si d l 0) st ed = Got tt (mk_si (swap_at d (Z.to_nat st) (Z.to_nat ed)) l 0).
Proof. intros. unfold SwapData. cbn [si_len si_data si_cursor]. by if_lia. Qed.

Lemma length_swap_at b i j : length (swap_at b i j) = length b.
Proof. unfold swap_at. by rewrite !length_insert. Qed.

(** Exchanging the same bytes twice; the receiver does it in the message itself. *)
Theorem wire_uniqueidentifier fuel uuid : (16 <= fuel)%nat -> length uuid = 16%nat ->
  puts (TdsSendTypeUniqueIdentifier fuel uuid) (16 :: swap_uuid uuid) /\
  forall rest, TdsTypeUIDToDatum (mk_si (swap_uuid uuid ++ rest) 16 0) = Got uuid (mk_si (uuid ++ rest) 16 16).
Proof.
  intros Hf Hl.
  assert (length (swap_uuid uuid) = 16%nat) as Hls by (unfold swap_uuid; by rewrite !length_swap_at). split.
  - apply (puts_bind _ _ [16]); [by apply puts_one; lia|]. apply puts_ignore, puts_bytes. lia.
  - intros rest. unfold TdsTypeUIDToDatum. cbn [si_cursor].
    assert (Z.of_nat (length (swap_uuid uuid ++ rest)) >= 16) as Hr by (rewrite length_app, Hls; lia).
    do 4 (rewrite swap_ok by (rewrite ?length_swap_at; lia); cbn [rd_bind si_cursor]).
    assert (swap_at (swap_at (swap_at (swap_at (swap_uuid uuid ++ rest) 0 3) 1 2) 4 5) 6 7 = uuid ++ rest) as E.
    { clear -Hl. do 16 (destruct uuid as [|? uuid]; [discriminate|]). by destruct uuid; [|discriminate]. }
    change (Z.to_nat (0 + 0)) with 0%nat. change (Z.to_nat (0 + 3)) with 3%nat. change (Z.to_nat (0 + 1)) with 1%nat.
    change (Z.to_nat (0 + 2)) with 2%nat. change (Z.to_nat (0 + 4)) with 4%nat. change (Z.to_nat (0 + 5)) with 5%nat.
    change (Z.to_nat (0 + 6)) with 6%nat. change (Z.to_nat (0 + 7)) with 7%nat. rewrite E.
    unfold GetMsgBytes, UUID_LEN. cbn [si_len si_cursor]. if_lia. by rewrite (raw_copy_at [] uuid rest) by (rewrite ?Hl; done).
Qed.
End wire.

(** ** Concrete values *)

(** The smallest INT behind its length. *)
Lemma wire_scalar_roundtrip_witness : in_i32 (-2147483648) = true /\
  carries 4096 (TdsSendTypeInteger 8 (-2147483648) false) [4] (fun m => TdsTypeIntegerToDatum m 4) (-2147483648).
Proof.
  split; [reflexivity|]. destruct (wire_scalar_roundtrip 4096 8 false (le_n 8)) as (_ & _ & Hi & _). apply Hi. reflexivity.
Defined.

(** The last day of the year 9999. *)
Lemma wire_time_types_roundtrip_witness : (8 <= 8)%nat /\
  carries_ok 4096 (TdsSendTypeDate 8 false 0 [] 2921939) [3] TdsTypeDateToDatum 2921939.
Proof.
  split; [lia|]. destruct (wire_time_types_roundtrip 4096 0 8 (le_n 8) false [] 0) as (_ & Hd & _). apply Hd. lia.
Defined.

(** The last microsecond of the day, at scale 7. *)
Lemma wire_time_within_microsecond_witness : 86399999999 mod digit_scale 7 = 0 /\
  exists r, carries_ok 4096 (TdsSendTypeTime 8 0 false 0 [] 86399999999 7) [5] (fun m => TdsTypeTimeToDatum m 7 5) r /\
    86399999998 <= r <= 86399999999.
Proof.
  split; [reflexivity|]. apply (wire_time_within_microsecond 4096 0 8 [] 0 86399999999 7); first [lia|reflexivity].
Defined.

(** Minus one ten-thousandth. *)
Lemma wire_smallmoney_witness : in_i32 (-1) = true /\
  carries_ok 4096 (TdsSendTypeSmallmoney 4 (-1) true) [] TdsTypeSmallMoneyToDatum 4294967295.
Proof. split; [reflexivity|]. exact (wire_smallmoney 4096 4 true (-1) (le_n 4) eq_refl). Defined.

Lemma wire_uniqueidentifier_witness : length (seqZ 0 16) = 16%nat /\
  puts 4096 (TdsSendTypeUniqueIdentifier 16 (seqZ 0 16)) (16 :: [3; 2; 1; 0; 5; 4; 7; 6; 8; 9; 10; 11; 12; 13; 14; 15]).
Proof.
  split; [reflexivity|]. exact (proj1 (wire_uniqueidentifier 4096 16 (seqZ 0 16) (le_n 16) eq_refl)).
Defined.
