(* ===== verification/TdsPlpTheorems.v ===== *)
(** * TdsPlpTheorems: large values in chunks

    [TdsSendPlpDataHelper] cuts a value to fit the packets; [ReadPlp] and
    [TdsGetPlpStringInfoBufferFromToken] put chunks together again. *)
From stdpp Require Import base list numbers.
From S2P Require Import Prelude BitFacts Utf SoftFloat Calendar Datetime DatetimeOffset.
From S2P Require Import TdsTimestamp TdsComm TdsRecv TdsSend TdsTypeRecv TdsTypeSend TdsSenders.
From S2P Require Import TdsTypeTheorems.
Open Scope nat_scope.

(** A chunk with its length. *)
Definition chunk_bytes (c : bytes) : bytes := le_bytes 4 (Z.of_nat (length c)) ++ c.

(** The chunks of [data], none of them empty, and the terminator. *)
Definition plp_form (data bs : bytes) : Prop :=
  exists cs, concat cs = data /\ Forall (fun c => 0 < length c <= PLP_CHUNCK_LEN) cs /\
    bs = concat (map chunk_bytes cs) ++ le_bytes 4 PLP_TERMINATOR.

(** [bs] stands at the offset [off] of what has been put, within one payload. *)
Definition in_one_packet (payloads : list bytes) (off : nat) (bs : bytes) : Prop :=
  exists before p q after, payloads = before ++ (p ++ bs ++ q) :: after /\ off = length (concat before) + length p.

(** The chunks, one after the other from [off] on, each with its length in one packet. *)
Fixpoint placed (payloads : list bytes) (off : nat) (cs : list bytes) : Prop :=
  match cs with
  | [] => True
  | c :: cs => in_one_packet payloads off (chunk_bytes c) /\ placed payloads (off + length (chunk_bytes c)) cs
  end.

Lemma in_one_packet_grows ps rest ps' rest' off bs : grows ps rest ps' rest' ->
  in_one_packet (ps ++ [rest]) off bs -> in_one_packet (ps' ++ [rest']) off bs.
Proof.
  intros (x & more & ->) (before & p & q & after & E & ->). destruct after as [|m after _] using rev_ind.
  - apply app_inj_tail in E as [-> ->]. exists before, p, (q ++ x), more. by rewrite <- !app_assoc.
  - rewrite app_comm_cons, app_assoc in E. apply app_inj_tail in E as [-> ->].
    exists before, p, q, (after ++ (m ++ x) :: more). by rewrite <- app_assoc.
Qed.

Lemma chunk_len_ok : 8 <= PLP_CHUNCK_LEN.
Proof. apply Nat.leb_le. by vm_compute. Qed.

Lemma plp_form_cons c data bs : 0 < length c <= PLP_CHUNCK_LEN -> plp_form data bs -> plp_form (c ++ data) (chunk_bytes c ++ bs).
Proof.
  intros Hc (cs & <- & Hcs & ->). exists (c :: cs). split_and!; [done|by constructor|]. cbn. by rewrite <- app_assoc.
Qed.

(** ** Sending *)

Section send.
Variables (size fuel : nat).
Hypothesis Hsize : 13 <= size.
Hypothesis Hfuel : PLP_CHUNCK_LEN <= fuel.

(** Rounds that the loop needs: two for a byte, and a flush first when there is no room. *)
Definition rounds_needed (s : comm) (data : bytes) : nat :=
  2 * length data + 1 + (if decide (GetAvailableBufferSize s < 5) then 1 else 0).

Lemma chunk_fuel : 8 <= fuel.
Proof. pose proof chunk_len_ok. lia. Qed.

(** One round that sends a chunk, when the connection is lost. *)
Lemma send_chunk_puts c : length c <= PLP_CHUNCK_LEN ->
  puts size (fun s => do! _, s := TdsPutUInt32LE fuel (Z.of_nat (length c)) s in ignore_rc (TdsPutbytes fuel c s)) (chunk_bytes c).
Proof.
  intros Hc. pose proof chunk_fuel. apply puts_bind; [apply puts_bytes; rewrite length_le_bytes; lia|].
  apply puts_ignore, puts_bytes. lia.
Qed.

(** A chunk for which there is room goes into the packet in the buffer. *)
Lemma send_chunk_fits c w0 ty ps rest s : stream_at size w0 ty ps rest s -> length c <= PLP_CHUNCK_LEN ->
  4 + length c <= GetAvailableBufferSize s ->
  exists s', (do! _, s := TdsPutUInt32LE fuel (Z.of_nat (length c)) s in ignore_rc (TdsPutbytes fuel c s)) = Done tt s' /\
    stream_at size w0 ty ps (rest ++ chunk_bytes c) s'.
Proof.
  intros Hst Hc Ha. pose proof chunk_fuel. unfold TdsPutUInt32LE, TdsPutbytes.
  destruct (stream_at_fits size fuel (le_bytes 4 (Z.of_nat (length c))) _ _ _ _ _ Hst) as (s1 & -> & Hst1 & Ha1);
    [rewrite length_le_bytes; lia..|]. rewrite length_le_bytes in Ha1. cbn [io_bind].
  destruct (stream_at_fits size fuel c _ _ _ _ _ Hst1) as (s2 & -> & Hst2 & _); [lia..|].
  exists s2. split; [done|]. unfold chunk_bytes. by rewrite app_assoc.
Qed.

(** What a round does: the terminator, a flush, or a chunk. *)
Lemma send_chunks_step rounds data s :
  send_chunks fuel (S rounds) data s =
  match data with
  | [] => TdsPutInt32LE fuel PLP_TERMINATOR s
  | _ =>
      if decide (GetAvailableBufferSize s < 5) then do! _, s := FlushBuffer s in send_chunks fuel rounds data s
      else
        let n := min (min PLP_CHUNCK_LEN (length data)) (GetAvailableBufferSize s - 4) in
        do! _, s := (do! _, s := TdsPutUInt32LE fuel (Z.of_nat (length (take n data))) s in
                     ignore_rc (TdsPutbytes fuel (take n data) s)) in
        send_chunks fuel rounds (drop n data) s
  end.
Proof.
  cbn [send_chunks]. set (a := GetAvailableBufferSize s). set (l := min PLP_CHUNCK_LEN (length data)).
  destruct data as [|b data]; [done|].
  assert (0 < l <= length (b :: data)) as Hl by (subst l; pose proof chunk_len_ok; cbn [length]; lia). clearbody l.
  rewrite (proj2 (Nat.eqb_neq l 0)) by lia. case_decide as Ha.
  - rewrite (proj2 (Nat.ltb_lt a (l + 4))), (proj2 (Nat.ltb_lt a (1 + 4))) by lia. done.
  - rewrite (proj2 (Nat.ltb_ge a (1 + 4))), andb_false_r by lia.
    set (n := if a <? l + 4 then _ else _). assert (n = min l (a - 4)) as ->.
    { subst n. destruct (a <? l + 4) eqn:E; [apply Nat.ltb_lt in E|apply Nat.ltb_ge in E]; lia. }
    assert (length (take (min l (a - 4)) (b :: data)) = min l (a - 4)) as -> by (rewrite length_take; lia).
    destruct (TdsPutUInt32LE fuel _ s); done.
Qed.

Lemma rounds_after_chunk s s' data n rounds : 0 < n <= length data -> rounds_needed s data <= S rounds ->
  rounds_needed s' (drop n data) <= rounds.
Proof. intros Hn. unfold rounds_needed. rewrite length_drop. repeat case_decide; lia. Qed.

Lemma fresh_room s : usable size s -> TdsSendCur s = TDS_PACKET_HEADER_SIZE -> ~ GetAvailableBufferSize s < 5.
Proof. intros Hu Hc. unfold GetAvailableBufferSize. rewrite Hc. destruct Hu as (-> & _). unfold TDS_PACKET_HEADER_SIZE. lia. Qed.

Lemma send_chunks_nonempty rounds data s : data <> [] -> send_chunks fuel (S rounds) data s =
  if decide (GetAvailableBufferSize s < 5) then do! _, s := FlushBuffer s in send_chunks fuel rounds data s
  else
    let n := min (min PLP_CHUNCK_LEN (length data)) (GetAvailableBufferSize s - 4) in
    do! _, s := (do! _, s := TdsPutUInt32LE fuel (Z.of_nat (length (take n data))) s in
                 ignore_rc (TdsPutbytes fuel (take n data) s)) in
    send_chunks fuel rounds (drop n data) s.
Proof. intros Hne. rewrite send_chunks_step. by destruct data. Qed.

(** Once the connection is lost the loop still ends. *)
Lemma send_chunks_lost rounds : forall data s, usable size s -> ClientConnectionLost s = true -> rounds_needed s data <= rounds ->
  lost_result size (send_chunks fuel rounds data s).
Proof.
  pose proof chunk_fuel as H8. induction rounds as [|rounds IH]; intros data s Hu Hl Hr; [unfold rounds_needed in Hr; lia|].
  destruct (decide (data = [])) as [->|Hne].
  { rewrite send_chunks_step.
    assert (puts size (TdsPutInt32LE fuel PLP_TERMINATOR) (le_bytes 4 PLP_TERMINATOR)) as [_ Hp]
      by (apply puts_bytes; rewrite length_le_bytes; lia). by apply Hp. }
  assert (0 < length data) as Hpos by (destruct data; [done|cbn; lia]).
  rewrite send_chunks_nonempty by done. case_decide as Ha.
  - unfold FlushBuffer. destruct (flush_ends size s Hu) as (s1 & [->| ->] & Hu1 & Hl1 & Hc); cbn [io_bind]; [|exists s1; by auto].
    apply IH; [done|by apply Hl1|]. unfold rounds_needed in *. rewrite decide_True in Hr by done.
    rewrite decide_False by (by apply fresh_room). lia.
  - cbv zeta. set (n := min _ _). assert (0 < n <= length data) as Hn by (subst n; pose proof chunk_len_ok; lia).
    assert (length (take n data) <= PLP_CHUNCK_LEN) as Hc by (rewrite length_take; subst n; lia).
    destruct (send_chunk_puts _ Hc) as [_ Hp]. destruct (Hp s Hu Hl) as (s1 & [->| ->] & Hu1 & Hl1); cbn [io_bind]; [|exists s1; by auto].
    apply IH; [done..|]. by eapply rounds_after_chunk.
Qed.

(** The loop puts the chunks, each with its length into one packet, and the terminator. *)
Lemma send_chunks_sends rounds : forall data w0 ty ps rest s, stream_at size w0 ty ps rest s -> rounds_needed s data <= rounds ->
  (exists cs ps' rest' s', concat cs = data /\ Forall (fun c => 0 < length c <= PLP_CHUNCK_LEN) cs /\
     send_chunks fuel rounds data s = Done tt s' /\ stream_at size w0 ty ps' rest' s' /\ grows ps rest ps' rest' /\
     concat ps' ++ rest' = concat ps ++ rest ++ concat (map chunk_bytes cs) ++ le_bytes 4 PLP_TERMINATOR /\
     placed (ps' ++ [rest']) (length (concat ps ++ rest)) cs) \/
  lost_result size (send_chunks fuel rounds data s).
Proof.
  pose proof chunk_fuel as H8. induction rounds as [|rounds IH]; intros data w0 ty ps rest s Hst Hr; [unfold rounds_needed in Hr; lia|].
  destruct (decide (data = [])) as [->|Hne].
  { rewrite send_chunks_step.
    destruct (stream_at_put size fuel (le_bytes 4 PLP_TERMINATOR) _ _ _ _ _ Hst) as [(ps' & rest' & s' & E & Hst' & Hg & Hd)|?];
      [rewrite length_le_bytes; lia| |by right].
    left. exists [], ps', rest', s'. split_and!; [reflexivity|constructor|exact E|exact Hst'|exact Hg|exact Hd|exact I]. }
  assert (0 < length data) as Hpos by (destruct data; [done|cbn; lia]).
  rewrite send_chunks_nonempty by done. case_decide as Ha.
  - unfold FlushBuffer. destruct (stream_at_flush size w0 ty ps rest s Hst) as [(s1 & -> & Hst1 & Hc)|(s1 & -> & Hu & Hl)]; cbn [io_bind].
    2: { right. exists s1. auto. }
    assert (concat (ps ++ [rest]) ++ [] = concat ps ++ rest) as Ed by (rewrite concat_app; cbn; by rewrite !app_nil_r).
    destruct (IH data w0 ty (ps ++ [rest]) [] s1 Hst1) as [(cs & ps' & rest' & s' & ? & ? & E & ? & Hg & Hd & Hp)|?]; [| |by right].
    { unfold rounds_needed in *. rewrite decide_True in Hr by done.
      rewrite decide_False by (apply fresh_room; [by eapply stream_at_usable|done]). lia. }
    left. exists cs, ps', rest', s'. split_and!; try done.
    + eapply grows_trans, Hg. exists [], [[]]. by rewrite app_nil_r, <- app_assoc.
    + rewrite Hd, app_assoc, Ed, <- app_assoc. done.
    + by rewrite Ed in Hp.
  - cbv zeta. set (n := min _ _). assert (0 < n <= length data /\ 4 + n <= GetAvailableBufferSize s /\ n <= PLP_CHUNCK_LEN) as (Hn & Hroom & Hmax)
      by (subst n; pose proof chunk_len_ok; lia).
    assert (length (take n data) = n) as Hlt by (rewrite length_take; lia). set (c := take n data) in *.
    destruct (send_chunk_fits c w0 ty ps rest s Hst) as (s1 & -> & Hst1); [lia..|]. cbn [io_bind].
    assert (grows ps rest ps (rest ++ chunk_bytes c)) as Hg1 by (by exists (chunk_bytes c), []).
    destruct (IH (drop n data) w0 ty ps (rest ++ chunk_bytes c) s1 Hst1)
      as [(cs & ps' & rest' & s' & Hcs & Hall & E & Hst' & Hg & Hd & Hp)|?]; [by eapply rounds_after_chunk| |by right].
    left. exists (c :: cs), ps', rest', s'. split_and!; [| |exact E|exact Hst'| | |].
    + cbn [concat]. rewrite Hcs. apply take_drop.
    + constructor; [lia|done].
    + by eapply grows_trans.
    + rewrite Hd. cbn [map concat]. by rewrite <- !app_assoc.
    + cbn [placed]. split.
      * eapply in_one_packet_grows; [exact Hg|]. exists ps, rest, [], []. rewrite app_nil_r, length_app. done.
      * by rewrite !app_assoc, (length_app _ (chunk_bytes c)) in Hp.
Qed.
End send.

(** ** Receiving *)

Open Scope Z_scope.

Definition plp_data (message : bytes) (l : list Plp) : bytes :=
  concat (map (fun t => take (Z.to_nat (plp_len t)) (drop (Z.to_nat (plp_offset t)) message)) l).

Lemma slice_middle (a b c : bytes) off n : off = Z.of_nat (length a) -> n = Z.of_nat (length b) ->
  take (Z.to_nat n) (drop (Z.to_nat off) (a ++ b ++ c)) = b.
Proof. intros -> ->. by rewrite !Nat2Z.id, drop_app_length, take_app_length. Qed.

Lemma message_uint_at a k z c off n : off = Z.of_nat (length a) -> n = Z.of_nat k -> 0 <= z < 256 ^ n ->
  message_uint (a ++ le_bytes k z ++ c) off n = z.
Proof.
  intros Ho -> Hz. unfold message_uint. rewrite slice_middle by (rewrite ?length_le_bytes; done). by rewrite le_val_bytes, Z.mod_small.
Qed.

Lemma read_chunks_ok cs : forall fuel pre post offset k,
  Forall (fun c => (0 < length c <= PLP_CHUNCK_LEN)%nat) cs -> (length cs < fuel)%nat -> offset = Z.of_nat (length pre) ->
  let body := concat (map chunk_bytes cs) ++ le_bytes 4 PLP_TERMINATOR in
  let message := pre ++ body ++ post in
  exists l, read_chunks fuel message offset k =
      Some (l, offset + Z.of_nat (length body), k + Z.of_nat (length (concat cs))) /\ plp_data message l = concat cs.
Proof.
  assert (forall c : bytes, (length c <= PLP_CHUNCK_LEN)%nat -> Z.of_nat (length c) <= 32000) as Hmax.
  { intros c Hc%Nat2Z.inj_le. by change (Z.of_nat PLP_CHUNCK_LEN) with 32000 in Hc. }
  induction cs as [|c cs IH]; intros fuel pre post offset k Hcs Hf ->; cbv zeta; (destruct fuel as [|fuel]; [cbn in Hf; lia|]); cbn [read_chunks].
  - cbn [map concat app]. rewrite !length_app, length_le_bytes, !Nat2Z.inj_add. change (Z.of_nat 4) with 4.
    rewrite (message_uint_at pre 4 PLP_TERMINATOR post) by (try done; lia). rewrite Z.eqb_refl.
    exists []. split; [|done]. if_lia. cbn [length]. change (Z.of_nat 0) with 0. by rewrite Z.add_0_r.
  - apply Forall_cons_1 in Hcs as [Hc Hcs]. pose proof (Hmax c ltac:(lia)) as Hcz. cbn [map concat]. set (tl := concat (map chunk_bytes cs) ++ le_bytes 4 PLP_TERMINATOR) in *.
    assert (pre ++ ((chunk_bytes c ++ concat (map chunk_bytes cs)) ++ le_bytes 4 PLP_TERMINATOR) ++ post =
      pre ++ le_bytes 4 (Z.of_nat (length c)) ++ c ++ tl ++ post) as -> by (unfold tl, chunk_bytes; by rewrite <- !app_assoc).
    assert (length ((chunk_bytes c ++ concat (map chunk_bytes cs)) ++ le_bytes 4 PLP_TERMINATOR) = (4 + length c + length tl)%nat) as ->.
    { unfold tl, chunk_bytes. rewrite !length_app, !length_le_bytes. lia. }
    set (message := pre ++ _). assert (Z.of_nat (length message) = Z.of_nat (length pre) + 4 + Z.of_nat (length c) + Z.of_nat (length tl) + Z.of_nat (length post)) as Hl.
    { subst message. rewrite !length_app, length_le_bytes. lia. }
    assert (message_uint message (Z.of_nat (length pre)) 4 = Z.of_nat (length c)) as ->
      by (apply message_uint_at; [done..|change (256 ^ 4) with 4294967296; lia]).
    assert ((Z.of_nat (length c) =? PLP_TERMINATOR) = false) as -> by (unfold PLP_TERMINATOR; lia).
    do 2 if_lia.
    destruct (IH fuel (pre ++ le_bytes 4 (Z.of_nat (length c)) ++ c) post (Z.of_nat (length pre) + 4 + Z.of_nat (length c)) (k + Z.of_nat (length c)))
      as (l & E & Hd); [done|cbn in Hf; lia|rewrite !length_app, length_le_bytes; lia|]. fold tl in E, Hd.
    assert ((pre ++ le_bytes 4 (Z.of_nat (length c)) ++ c) ++ tl ++ post = message) as Em by (subst message; by rewrite <- !app_assoc).
    rewrite Em in E, Hd. rewrite E. cbn [mbind option_bind].
    eexists. split; [rewrite length_app; do 2 f_equal; [f_equal; lia|lia]|]. unfold plp_data in *. cbn [map concat plp_len plp_offset]. rewrite Hd. f_equal.
    subst message. rewrite app_assoc. apply slice_middle; [|done]. rewrite length_app, length_le_bytes. lia.
Qed.

(** Whatever follows and precedes it in a message, a value in chunks is found and put together. *)
Lemma read_plp_ok token data bs pre post : plp_form data bs -> Z.of_nat (length data) < 2 ^ 31 ->
  let message := pre ++ (le_bytes 8 (Z.of_nat (length data)) ++ bs) ++ post in
  exists token', ReadPlp token message (Z.of_nat (length pre)) = Some (token', Z.of_nat (length pre + 8 + length bs)) /\
    TdsGetPlpStringInfoBufferFromToken message token' = mk_si (data ++ [0]) (Z.of_nat (length data)) 0.
Proof.
  intros (cs & <- & Hcs & ->) Hd. cbv zeta. set (body := concat (map chunk_bytes cs) ++ _). set (n := Z.of_nat (length (concat cs))) in *.
  change (2 ^ 31) with 2147483648 in Hd.
  destruct (read_chunks_ok cs (length (pre ++ (le_bytes 8 n ++ body) ++ post)) (pre ++ le_bytes 8 n) post (Z.of_nat (length pre) + 8) 0) as (l & E & Hl).
  { done. }
  { assert (length cs <= length body)%nat; [|rewrite !length_app, length_le_bytes; lia].
    unfold body. rewrite length_app. clear -Hcs. induction Hcs as [|c cs Hc _ IH]; cbn [map concat length]; [lia|].
    unfold chunk_bytes at 1. rewrite !length_app, length_le_bytes. lia. }
  { rewrite length_app, length_le_bytes. lia. }
  fold body in E, Hl.
  assert ((pre ++ le_bytes 8 n) ++ body ++ post = pre ++ (le_bytes 8 n ++ body) ++ post) as Em by (by rewrite <- !app_assoc).
  rewrite Em in E, Hl. unfold ReadPlp.
  assert (Z.of_nat (length (pre ++ (le_bytes 8 n ++ body) ++ post)) >= Z.of_nat (length pre) + 8) as Hlen.
  { rewrite !length_app, length_le_bytes. lia. }
  if_lia. set (message := pre ++ (le_bytes 8 n ++ body) ++ post) in *.
  assert (message_uint message (Z.of_nat (length pre)) 8 = n) as ->.
  { subst message. rewrite <- app_assoc. apply message_uint_at; [done..|]. change (256 ^ 8) with 18446744073709551616. subst n. lia. }
  unfold PLP_NULL, PLP_UNKNOWN_LEN. rewrite (proj2 (Z.eqb_neq n _)) by lia. rewrite E. cbn [mbind option_bind].
  rewrite Z.add_0_l. fold n. rewrite Z.eqb_refl, andb_false_r.
  eexists. split; [f_equal; f_equal; lia|]. unfold TdsGetPlpStringInfoBufferFromToken. cbn [plp]. fold (plp_data message l). by rewrite Hl.
Qed.

(** The message form of a value: its length in eight bytes, its chunks and the terminator. *)
Definition plp_message (data bs : bytes) : Prop :=
  exists b, bs = le_bytes 8 (Z.of_nat (length data)) ++ b /\ plp_form data b.

(** The whole of [TdsSendPlpDataHelper]: the length, then the chunks. *)
Lemma plp_packets (sz fuel : nat) data w0 ty ps rest s : (13 <= sz)%nat -> (PLP_CHUNCK_LEN <= fuel)%nat -> stream_at sz w0 ty ps rest s ->
  (exists cs ps' rest' s', concat cs = data /\ Forall (fun c => (0 < length c <= PLP_CHUNCK_LEN)%nat) cs /\
     TdsSendPlpDataHelper fuel data s = Done tt s' /\ stream_at sz w0 ty ps' rest' s' /\
     concat ps' ++ rest' = concat ps ++ rest ++ le_bytes 8 (Z.of_nat (length data)) ++ concat (map chunk_bytes cs) ++ le_bytes 4 PLP_TERMINATOR /\
     placed (ps' ++ [rest']) (length (concat ps ++ rest) + 8) cs) \/
  lost_result sz (TdsSendPlpDataHelper fuel data s).
Proof.
  intros Hsize Hfuel Hst. unfold TdsSendPlpDataHelper, TdsPutInt64LE.
  assert (forall s, (rounds_needed s data <= 2 * length data + 2)%nat) as Hr by (intros s0; unfold rounds_needed; case_decide; lia).
  destruct (stream_at_put sz fuel (le_bytes 8 (Z.of_nat (length data))) _ _ _ _ _ Hst)
    as [(ps1 & rest1 & s1 & -> & Hst1 & Hg1 & Hd1)|(s1 & [->| ->] & Hu & Hl)]; [rewrite length_le_bytes; pose proof chunk_len_ok; lia|..];
    cbn [io_bind].
  - destruct (send_chunks_sends sz fuel Hsize Hfuel _ data _ _ _ _ _ Hst1 (Hr s1))
      as [(cs & ps' & rest' & s' & ? & ? & E & ? & _ & Hd & Hp)|?]; [left|by right].
    exists cs, ps', rest', s'. split_and!; try done.
    + rewrite Hd, app_assoc, Hd1. by rewrite <- !app_assoc.
    + rewrite Hd1, app_assoc, (length_app (concat ps ++ rest)), length_le_bytes in Hp. done.
  - right. by apply send_chunks_lost.
  - right. exists s1. auto.
Qed.

(** C13: A large value of up to 2^31 bytes, put into a send buffer in any state, goes out as its
    length, chunks of at most 32000 bytes and the terminator, each chunk with its length
    within the payload of one packet, or the connection is lost; and whatever stands before and
    after it in a message, the receiver finds its end and puts the same value together. *)
Theorem plp_roundtrip size fuel data : (13 <= size)%nat -> (PLP_CHUNCK_LEN <= fuel)%nat -> Z.of_nat (length data) < 2 ^ 31 ->
  sender size (TdsSendPlpDataHelper fuel data) (plp_message data) /\
  (forall w0 ty ps rest s, stream_at size w0 ty ps rest s ->
    (exists cs ps' rest' s', concat cs = data /\ Forall (fun c => (0 < length c <= PLP_CHUNCK_LEN)%nat) cs /\
       TdsSendPlpDataHelper fuel data s = Done tt s' /\ stream_at size w0 ty ps' rest' s' /\
       concat ps' ++ rest' = concat ps ++ rest ++ le_bytes 8 (Z.of_nat (length data)) ++ concat (map chunk_bytes cs) ++ le_bytes 4 PLP_TERMINATOR /\
       placed (ps' ++ [rest']) (length (concat ps ++ rest) + 8) cs) \/
    lost_result size (TdsSendPlpDataHelper fuel data s)) /\
  forall token bs pre post, plp_message data bs ->
    exists token', ReadPlp token (pre ++ bs ++ post) (Z.of_nat (length pre)) = Some (token', Z.of_nat (length (pre ++ bs))) /\
      TdsGetPlpStringInfoBufferFromToken (pre ++ bs ++ post) token' = mk_si (data ++ [0]) (Z.of_nat (length data)) 0.
Proof.
  intros Hsize Hfuel Hd. split_and!.
  - split.
    + intros w0 ty d s (ps & rest & Hst & ->).
      destruct (plp_packets size fuel data _ _ _ _ _ Hsize Hfuel Hst) as [(cs & ps' & rest' & s' & Hc & Hall & E & Hst' & Hd' & _)|?]; [left|by right].
      eexists _, s'. split; [|split; [done|exists ps', rest'; split; [done|]; rewrite Hd', <- app_assoc; reflexivity]].
      eexists. split; [reflexivity|]. by exists cs.
    + intros s Hu Hlost. unfold TdsSendPlpDataHelper, TdsPutInt64LE.
      destruct (puts_bytes (size := size) fuel (le_bytes 8 (Z.of_nat (length data)))) as [_ Hl]; [rewrite length_le_bytes; pose proof chunk_len_ok; lia|].
      destruct (Hl s Hu Hlost) as (s1 & [->| ->] & Hu1 & Hl1); cbn [io_bind]; [|exists s1; auto].
      apply send_chunks_lost; [done..|]. unfold rounds_needed. case_decide; lia.
  - intros w0 ty ps rest s. by apply plp_packets.
  - intros token bs pre post (b & -> & Hform). destruct (read_plp_ok token data b pre post Hform Hd) as (token' & E & Hb).
    exists token'. split; [|done]. rewrite E. do 2 f_equal. rewrite !length_app, length_le_bytes. lia.
Qed.

(** A value of two bytes in packets of the default size. *)
Lemma plp_roundtrip_witness : (13 <= 4096)%nat /\ (PLP_CHUNCK_LEN <= PLP_CHUNCK_LEN)%nat /\
  sender 4096 (TdsSendPlpDataHelper PLP_CHUNCK_LEN [7; 8]) (plp_message [7; 8]).
Proof.
  assert (13 <= 4096)%nat as H1 by lia. split; [exact H1|]. split; [lia|].
  destruct (plp_roundtrip 4096 PLP_CHUNCK_LEN [7; 8] H1 (le_n _) ltac:(cbn; lia)) as (Hs & _). exact Hs.
Defined.
