(* ===== verification/TdsNumericTheorems.v ===== *)
(** * TdsNumericTheorems: NUMERIC values on the wire

    A NUMERIC travels as a sign and an unsigned integer, the digits of the value without its point.
    The receiver writes the digits into a buffer of 40 bytes, last digit first, reverses it in place
    and moves the digits behind the point by one.  The theorems give the text for every integer of 128
    bits and every scale, with the values for which the buffer is too small, and the value that comes
    back from what the sender puts. *)
From stdpp Require Import base list numbers.
From S2P Require Import Prelude BitFacts TdsComm TdsSend TdsTypeRecv TdsTypeSend TdsSenders TdsTypeTheorems.
Open Scope Z_scope.

(** ** Decimal digits *)

Definition digit (c : Z) : Prop := 48 <= c <= 57.

(** The number that digits write. *)
Definition decimal (ds : bytes) : Z := foldl (fun n c => n * 10 + (c - 48)) 0 ds.

Lemma decimal_snoc ds c : decimal (ds ++ [c]) = decimal ds * 10 + (c - 48).
Proof. unfold decimal. by rewrite foldl_app. Qed.

Lemma decimal_app a b : decimal (a ++ b) = decimal a * 10 ^ Z.of_nat (length b) + decimal b.
Proof.
  induction b as [|c b IH] using rev_ind; [rewrite app_nil_r; cbn; lia|].
  rewrite app_assoc, !decimal_snoc, IH, length_app. cbn [length].
  rewrite Nat2Z.inj_add, Z.pow_add_r by lia. change (10 ^ Z.of_nat 1) with 10. lia.
Qed.

Lemma decimal_zeros k : decimal (replicate k 48) = 0.
Proof. induction k as [|k IH]; [done|]. rewrite replicate_S_end, decimal_snoc, IH. lia. Qed.

Lemma decimal_bounds ds : Forall digit ds -> 0 <= decimal ds < 10 ^ Z.of_nat (length ds).
Proof.
  induction ds as [|c ds IH] using rev_ind; [cbn; lia|]. rewrite Forall_app, Forall_singleton. intros [Hds Hc].
  specialize (IH Hds). unfold digit in Hc. rewrite decimal_snoc, length_app. cbn [length].
  rewrite Nat2Z.inj_add, Z.pow_add_r by lia. change (10 ^ Z.of_nat 1) with 10. lia.
Qed.

Lemma digit_nonzero ds : Forall digit ds -> Forall (fun c => c <> 0) ds.
Proof. apply Forall_impl. unfold digit. lia. Qed.

Lemma digit_zeros k : Forall digit (replicate k 48).
Proof. apply Forall_replicate. unfold digit. lia. Qed.

(** ** C strings and stores *)

Lemma c_string_app s rest : Forall (fun c => c <> 0) s -> c_string (s ++ 0 :: rest) = Some s.
Proof.
  induction 1 as [|c s Hc Hs IH]; [done|]. cbn [app c_string]. rewrite (proj2 (Z.eqb_neq c 0) Hc), IH. done.
Qed.

Lemma c_string_full s : Forall (fun c => c <> 0) s -> c_string s = None.
Proof. induction 1 as [|c s Hc Hs IH]; [done|]. cbn [c_string]. by rewrite (proj2 (Z.eqb_neq c 0) Hc), IH. Qed.

Lemma store_at a x c rest i : i = length a -> store (a ++ x :: rest) i c = Some (a ++ c :: rest).
Proof.
  intros ->. unfold store. rewrite decide_True by (rewrite length_app; cbn; lia).
  by rewrite insert_app_r_alt, Nat.sub_diag by lia.
Qed.

Lemma store_outside a i c : (length a <= i)%nat -> store a i c = None.
Proof. intros H. unfold store. by rewrite decide_False by lia. Qed.

(** ** Writing and reversing the digits *)

(** The digits of a number, last one first. *)
Fixpoint last_digits (fuel : nat) (num : Z) : bytes :=
  match fuel with
  | O => []
  | S fuel => if num =? 0 then [] else (num mod 10 + 48) :: last_digits fuel (num / 10)
  end.

Lemma last_digits_spec fuel num : 0 <= num < 10 ^ Z.of_nat fuel ->
  Forall digit (last_digits fuel num) /\ decimal (rev (last_digits fuel num)) = num.
Proof.
  revert num. induction fuel as [|fuel IH]; intros num Hn; [cbn in *; split; [done|lia]|].
  rewrite Nat2Z.inj_succ, Z.pow_succ_r in Hn by lia. cbn [last_digits].
  case_match eqn:E; [apply Z.eqb_eq in E; by subst|]. destruct (IH (num / 10)) as [Hd Hv]; [div_lia|]. split.
  - constructor; [unfold digit; div_lia|done].
  - cbn [rev]. rewrite decimal_snoc, Hv. div_lia.
Qed.

Lemma last_digits_length fuel num k : 0 <= num < 10 ^ Z.of_nat fuel ->
  (length (last_digits fuel num) <= k)%nat <-> num < 10 ^ Z.of_nat k.
Proof.
  revert num k. induction fuel as [|fuel IH]; intros num k Hn.
  { cbn in *. pose proof (Z.pow_pos_nonneg 10 (Z.of_nat k)). split; lia. }
  rewrite Nat2Z.inj_succ, Z.pow_succ_r in Hn by lia. cbn [last_digits].
  case_match eqn:E; [apply Z.eqb_eq in E; subst; pose proof (Z.pow_pos_nonneg 10 (Z.of_nat k)); cbn; split; lia|].
  apply Z.eqb_neq in E. destruct k as [|k]; [cbn; split; lia|]. cbn [length]. rewrite <- Nat.succ_le_mono, IH by div_lia.
  rewrite Nat2Z.inj_succ, Z.pow_succ_r by lia. split; div_lia.
Qed.

Lemma write_digits_spec fuel num a m : 0 <= num < 10 ^ Z.of_nat fuel -> (length (last_digits fuel num) <= m)%nat ->
  write_digits fuel num (length a) (a ++ replicate m 0) =
    Some ((length a + length (last_digits fuel num))%nat,
          a ++ last_digits fuel num ++ replicate (m - length (last_digits fuel num)) 0).
Proof.
  revert num a m. induction fuel as [|fuel IH]; intros num a m Hn Hm.
  { cbn in *. assert (num = 0) as -> by lia. cbn. by rewrite Nat.add_0_r, Nat.sub_0_r. }
  rewrite Nat2Z.inj_succ, Z.pow_succ_r in Hn by lia. cbn [write_digits last_digits] in *.
  case_match eqn:E; [cbn; by rewrite Nat.add_0_r, Nat.sub_0_r|]. cbn [length] in *. destruct m as [|m]; [lia|].
  cbn [replicate]. rewrite (store_at a) by done. cbn [mbind option_bind].
  specialize (IH (num / 10) (a ++ [num mod 10 + 48]) m). rewrite <- !app_assoc in IH. cbn [app] in IH.
  rewrite length_app in IH. cbn [length] in IH. rewrite IH by (div_lia || lia). do 2 f_equal. lia.
Qed.

Lemma lxor_swap x y : let x' := Z.lxor x y in let y' := Z.lxor y x' in y' = x /\ Z.lxor x' y' = y.
Proof.
  cbn. split.
  - rewrite (Z.lxor_comm x y), <- Z.lxor_assoc, Z.lxor_nilpotent. apply Z.lxor_0_l.
  - rewrite (Z.lxor_comm x y), <- (Z.lxor_assoc y y x), Z.lxor_nilpotent, Z.lxor_0_l, Z.lxor_assoc, Z.lxor_nilpotent.
    apply Z.lxor_0_r.
Qed.

Lemma nth_at (a : list Z) x rest i : i = length a -> nth i (a ++ x :: rest) 0 = x.
Proof. intros ->. rewrite app_nth2 by lia. by rewrite Nat.sub_diag. Qed.

Lemma insert_at (a : list Z) x y rest i : i = length a -> <[i := y]> (a ++ x :: rest) = a ++ y :: rest.
Proof. intros ->. by rewrite insert_app_r_alt, Nat.sub_diag by lia. Qed.

(** Three exclusive ors exchange the outer two of the characters that are left. *)
Lemma swap_loop_spec fuel a m c : (length m <= fuel)%nat ->
  swap_loop fuel (length a) (length a + length m - 1) (a ++ m ++ c) = a ++ rev m ++ c.
Proof.
  revert a m c. induction fuel as [|fuel IH]; intros a m c Hm; [destruct m; [done|cbn in Hm; lia]|].
  cbn [swap_loop]. destruct m as [|x m]; [cbn [length]; by rewrite (proj2 (Nat.ltb_ge _ _)) by lia|].
  destruct m as [|y m _] using rev_ind; [cbn [length]; by rewrite (proj2 (Nat.ltb_ge _ _)) by lia|].
  cbn [length] in *. rewrite length_app in *. cbn [length] in *. rewrite (proj2 (Nat.ltb_lt _ _)) by lia.
  set (hi := (length a + S (length m + 1) - 1)%nat). cbn [app]. rewrite <- (app_assoc m). cbn [app].
  assert (forall z w : Z, a ++ z :: m ++ w :: c = (a ++ z :: m) ++ w :: c) as Hre by (intros; by rewrite <- app_assoc).
  assert (forall z, hi = length (a ++ z :: m)) as Hhi by (intros z; unfold hi; rewrite length_app; cbn; lia).
  assert (forall z w, nth hi (a ++ z :: m ++ w :: c) 0 = w) as Hn by (intros; rewrite Hre; apply nth_at, Hhi).
  assert (forall z w v, <[hi := v]> (a ++ z :: m ++ w :: c) = a ++ z :: m ++ v :: c) as Hi
    by (intros; rewrite !Hre; apply insert_at, Hhi).
  rewrite Hn, (nth_at a), (insert_at a) by done. rewrite Hn, (nth_at a), Hi by done.
  destruct (lxor_swap x y) as [H1 H2]. cbv zeta in H1, H2. rewrite H1 in *.
  rewrite Hn, (nth_at a), (insert_at a), H2 by done.
  specialize (IH (a ++ [y]) m (x :: c)). rewrite <- !app_assoc in IH. cbn [app] in IH. rewrite length_app in IH. cbn [length] in IH.
  replace (hi - 1)%nat with (length a + 1 + length m - 1)%nat by (unfold hi; lia). rewrite IH by lia.
  cbn [rev]. rewrite rev_app_distr. cbn [rev app]. by rewrite <- !app_assoc.
Qed.

(** The digits, last one first, of a number of 128 bits. *)
Notation reversed num := (last_digits 39 num).

Lemma Integer2String_spec num : 0 <= num < 10 ^ 38 ->
  Integer2String num (replicate 40 0) = Some ((45 :: rev (reversed num)) ++ 0 :: replicate (38 - length (reversed num)) 0).
Proof.
  intros Hn. assert (0 <= num < 10 ^ Z.of_nat 39) as Hn' by lia. pose proof (last_digits_spec 39 num Hn') as [Hd _].
  pose proof (proj2 (last_digits_length 39 num 38 Hn') (proj2 Hn)) as Hl. unfold Integer2String.
  pose proof (write_digits_spec 39 num [] 40 Hn') as Hw. cbn [app length Nat.add] in Hw. rewrite Hw by lia.
  cbn [mbind option_bind fst snd]. set (n := length (reversed num)) in *.
  replace (40 - n)%nat with (S (S (38 - n))) by lia. cbn [replicate]. rewrite store_at by done. cbn [mbind option_bind].
  assert (forall r : bytes, reversed num ++ 45 :: r = (reversed num ++ [45]) ++ r) as -> by (intros; by rewrite <- app_assoc).
  unfold ReverseString. rewrite c_string_app by (apply Forall_app; split; [by apply digit_nonzero|by repeat constructor]).
  cbn [mbind option_bind]. f_equal. set (s := reversed num ++ [45]).
  pose proof (swap_loop_spec (length s) [] s (0 :: replicate (38 - n) 0) ltac:(lia)) as Hr. cbn [app length Nat.add] in Hr.
  rewrite Hr. unfold s. rewrite rev_app_distr. done.
Qed.

(** 39 digits and the minus sign leave no room for the terminator. *)
Lemma Integer2String_full num : 10 ^ 38 <= num < 10 ^ 39 -> Integer2String num (replicate 40 0) = None.
Proof.
  intros Hn. assert (0 <= num < 10 ^ Z.of_nat 39) as Hn' by lia. pose proof (last_digits_spec 39 num Hn') as [Hd _].
  assert (length (reversed num) = 39%nat) as Hl.
  { pose proof (proj2 (last_digits_length 39 num 39 Hn') (proj2 Hn)).
    destruct (decide (length (reversed num) <= 38)%nat) as [H38|]; [|lia].
    apply (last_digits_length 39 num 38 Hn') in H38. change (10 ^ Z.of_nat 38) with (10 ^ 38) in H38. lia. }
  unfold Integer2String. pose proof (write_digits_spec 39 num [] 40 Hn') as Hw. cbn [app length Nat.add] in Hw. rewrite Hw by lia.
  cbn [mbind option_bind fst snd]. rewrite Hl. change (replicate (40 - 39) 0) with [0]. rewrite store_at by done.
  cbn [mbind option_bind]. unfold ReverseString. rewrite c_string_full; [done|].
  apply Forall_app; split; [by apply digit_nonzero|by repeat constructor].
Qed.

(** ** The decimal point *)

Lemma shift_point_spec b a t c rest len : len = (length a + length b)%nat ->
  (x ← shift_point (length b) len t (a ++ b ++ c :: rest); store x.2 len x.1) = Some (a ++ t :: b ++ rest).
Proof.
  intros ->. revert a t. induction b as [|y b IH]; intros a t; cbn [length].
  { cbn. by rewrite store_at by lia. }
  cbn [shift_point app]. replace (length a + S (length b) - S (length b))%nat with (length a) by lia.
  rewrite list_lookup_middle by done. cbn [mbind option_bind]. rewrite store_at by done. cbn [mbind option_bind].
  specialize (IH (a ++ [t]) y). rewrite length_app, <- !app_assoc in IH. cbn [app length] in IH.
  replace (length a + S (length b))%nat with (length a + 1 + length b)%nat by lia. exact IH.
Qed.

(** ** The text of a received value *)

(** A text writes [num / 10 ^ scale], negative with [minus]. *)
Definition writes (minus : bool) (num : Z) (scale : nat) (t : bytes) : Prop :=
  exists ip fp, t = (if minus then [45] else []) ++ ip ++ 46 :: fp /\
    Forall digit (ip ++ fp) /\ length fp = scale /\ decimal (ip ++ fp) = num.

(** The values whose text fits the buffer, which is replaced by a larger one only when the scale
    exceeds the digits. *)
Definition text_fits (num : Z) (scale : nat) : bool :=
  if num =? 0 then (scale <=? 37)%nat else (num <? 10 ^ 37) || ((num <? 10 ^ 38) && (39 <=? scale)%nat).

Lemma nonzero_text_padded num scale : 0 < num < 10 ^ 38 -> (length (reversed num) < scale)%nat ->
  nonzero_text num scale = Some (45 :: 46 :: replicate (scale - length (reversed num)) 48 ++ rev (reversed num)).
Proof.
  intros Hn Hs. assert (0 <= num < 10 ^ Z.of_nat 39) as Hn' by lia. pose proof (last_digits_spec 39 num Hn') as [Hd _].
  pose proof (proj2 (last_digits_length 39 num 38 Hn') (proj2 Hn)) as Hl. apply Forall_rev in Hd.
  unfold nonzero_text. rewrite Integer2String_spec by lia. cbn [mbind option_bind].
  set (ds := rev (reversed num)) in *. assert (length (reversed num) = length ds) as El by (symmetry; apply length_rev).
  rewrite El in *.
  rewrite (c_string_app (45 :: ds)) by (constructor; [done|by apply digit_nonzero]). cbn [mbind option_bind length tail].
  rewrite decide_True by lia. replace (scale - S (length ds) + 1)%nat with (scale - length ds)%nat by lia.
  set (b := replicate (scale - length ds) 48 ++ ds). assert (length b = scale) as Hb by (unfold b; rewrite length_app, length_replicate; lia).
  pose proof (shift_point_spec b [45] 46 46 [0] (S scale)) as Hp. rewrite Hb in Hp. specialize (Hp eq_refl).
  replace (length ([45%Z] ++ replicate (scale - length ds) 48%Z ++ ds ++ [46%Z]) - 1)%nat with (S scale)
    by (rewrite !length_app, length_replicate; cbn [length]; lia).
  replace (([45] ++ replicate (scale - length ds) 48 ++ ds ++ [46]) ++ [0]) with ([45] ++ b ++ [46; 0])
    by (unfold b; cbn; by rewrite <- !app_assoc).
  destruct (shift_point scale (S scale) 46 _) as [x|]; [|done]. cbn [mbind option_bind] in *. rewrite Hp. cbn [mbind option_bind].
  apply (c_string_app (45 :: 46 :: b)). repeat constructor; [done..|]. apply digit_nonzero, Forall_app. split; [apply digit_zeros|done].
Qed.

Lemma nonzero_text_moved num scale : 0 < num < 10 ^ 38 -> (scale <= length (reversed num))%nat ->
  let ds := rev (reversed num) in
  nonzero_text num scale =
    c_string ((45 :: take (length ds - scale) ds ++ 46 :: drop (length ds - scale) ds) ++ replicate (38 - length ds) 0).
Proof.
  intros Hn Hs. cbv zeta. assert (0 <= num < 10 ^ Z.of_nat 39) as Hn' by lia. pose proof (last_digits_spec 39 num Hn') as [Hd _].
  pose proof (proj2 (last_digits_length 39 num 38 Hn') (proj2 Hn)) as Hl. apply Forall_rev in Hd.
  unfold nonzero_text. rewrite Integer2String_spec by lia. cbn [mbind option_bind].
  set (ds := rev (reversed num)) in *. assert (length (reversed num) = length ds) as El by (symmetry; apply length_rev).
  rewrite El in *.
  rewrite (c_string_app (45 :: ds)) by (constructor; [done|by apply digit_nonzero]). cbn [mbind option_bind length tail].
  rewrite decide_False by lia.
  set (ip := take (length ds - scale) ds). set (fp := drop (length ds - scale) ds).
  assert (ds = ip ++ fp) as Hds by (symmetry; apply take_drop).
  assert (length fp = scale) as Hf by (unfold fp; rewrite length_drop; lia).
  pose proof (shift_point_spec fp (45 :: ip) 46 0 (replicate (38 - length ds) 0) (S (length ds))) as Hp.
  rewrite Hf in Hp. specialize (Hp ltac:(cbn [length]; unfold ip; rewrite length_take; lia)).
  replace ((45 :: ds) ++ 0 :: replicate (38 - length ds) 0) with ((45 :: ip) ++ fp ++ 0 :: replicate (38 - length ds) 0)
    by (rewrite Hds at 2; cbn [app]; by rewrite <- app_assoc).
  destruct (shift_point scale (S (length ds)) 46 _) as [x|]; [|done]. cbn [mbind option_bind] in *. rewrite Hp. cbn [mbind option_bind].
  cbn [app]. by rewrite <- app_assoc.
Qed.

Lemma append_zeros_spec scale a m : (scale <= m)%nat ->
  append_zeros scale (length a) (a ++ replicate m 0) = Some (a ++ replicate scale 48 ++ replicate (m - scale) 0).
Proof.
  revert a m. induction scale as [|scale IH]; intros a m Hm; [cbn; by rewrite Nat.sub_0_r|].
  destruct m as [|m]; [lia|]. cbn [append_zeros replicate]. rewrite store_at by done. cbn [mbind option_bind].
  specialize (IH (a ++ [48]) m ltac:(lia)). rewrite length_app, <- !app_assoc in IH. exact IH.
Qed.

Lemma append_zeros_outside scale a m : (m < scale)%nat -> append_zeros scale (length a) (a ++ replicate m 0) = None.
Proof.
  revert a m. induction scale as [|scale IH]; intros a m Hm; [lia|]. cbn [append_zeros].
  destruct m as [|m]; [rewrite store_outside by (rewrite length_app; cbn; lia); done|].
  cbn [replicate]. rewrite store_at by done. cbn [mbind option_bind].
  specialize (IH (a ++ [48]) m ltac:(lia)). rewrite length_app, <- !app_assoc in IH. exact IH.
Qed.

Lemma zero_text_spec scale :
  zero_text scale = if (scale <=? 37)%nat then Some (48 :: 46 :: replicate scale 48) else None.
Proof.
  unfold zero_text. change (store (replicate 40 0) 0 48) with (Some (48 :: replicate 39 0)). cbn [mbind option_bind].
  change (store (48 :: replicate 39 0) 1 46) with (Some ([48; 46] ++ replicate 38 0)). cbn [mbind option_bind].
  destruct (decide (scale <= 38)%nat).
  - pose proof (append_zeros_spec scale [48; 46] 38 ltac:(done)) as Ha. cbn [length] in Ha. rewrite Ha. cbn [mbind option_bind].
    rewrite app_assoc.
    assert (Forall (fun c => c <> 0) ([48; 46] ++ replicate scale 48)) by (repeat constructor; [done..|apply digit_nonzero, digit_zeros]).
    destruct (scale <=? 37)%nat eqn:E.
    + apply Nat.leb_le in E. replace (38 - scale)%nat with (S (37 - scale)) by lia. cbn [replicate]. by apply c_string_app.
    + apply Nat.leb_gt in E. replace (38 - scale)%nat with 0%nat by lia. cbn [replicate]. rewrite app_nil_r. by apply c_string_full.
  - pose proof (append_zeros_outside scale [48; 46] 38 ltac:(lia)) as Ha. cbn [length] in Ha. rewrite Ha. cbn [mbind option_bind]. by rewrite (proj2 (Nat.leb_gt _ _)) by lia.
Qed.

(** ** Every value, every scale *)

Lemma numeric_text_total sign num scale : 0 <= num < 2 ^ 128 ->
  if text_fits num scale then
    exists t, numeric_text sign num scale = Some t /\ writes (negb (num =? 0) && negb (sign =? 1)) num scale t
  else numeric_text sign num scale = None.
Proof.
  intros Hn. unfold numeric_text, text_fits. destruct (num =? 0) eqn:E0; cbn [negb andb].
  { apply Z.eqb_eq in E0 as ->. rewrite zero_text_spec. case_match; [|done]. eexists. split; [done|].
    exists [48], (replicate scale 48). rewrite length_replicate. split_and!; [done| |done|].
    - constructor; [unfold digit; lia|apply digit_zeros].
    - apply (decimal_zeros (S scale)). }
  apply Z.eqb_neq in E0. destruct (decide (num < 10 ^ 38)) as [H38|H38].
  2:{ rewrite (proj2 (Z.ltb_ge num (10 ^ 38))), (proj2 (Z.ltb_ge num (10 ^ 37))) by lia. cbn [orb andb].
      unfold nonzero_text. by rewrite Integer2String_full by lia. }
  assert (0 <= num < 10 ^ Z.of_nat 39) as Hn' by lia. pose proof (last_digits_spec 39 num Hn') as [Hd Hv].
  pose proof (last_digits_length 39 num 37 Hn') as H37. change (10 ^ Z.of_nat 37) with (10 ^ 37) in H37.
  pose proof (proj2 (last_digits_length 39 num 38 Hn') H38) as Hl. apply Forall_rev in Hd.
  rewrite (proj2 (Z.ltb_lt num (10 ^ 38))) by lia. cbn [andb].
  destruct (decide (length (reversed num) < scale)%nat) as [Hs|Hs].
  - assert ((num <? 10 ^ 37) || (39 <=? scale)%nat = true) as ->.
    { destruct (decide (num < 10 ^ 37)); [by rewrite (proj2 (Z.ltb_lt num _)) by lia|]. apply orb_true_iff. right. apply Nat.leb_le.
      destruct (decide (length (reversed num) <= 37)%nat); [|lia]. by apply H37 in l. }
    rewrite nonzero_text_padded by lia. cbn [mbind option_bind]. eexists. split; [done|].
    exists [], (replicate (scale - length (reversed num)) 48 ++ rev (reversed num)). split_and!.
    + by destruct (sign =? 1).
    + cbn [app]. apply Forall_app. split; [apply digit_zeros|done].
    + rewrite length_app, length_replicate, length_rev. lia.
    + cbn [app]. by rewrite decimal_app, decimal_zeros, Hv.
  - rewrite nonzero_text_moved by lia. set (ds := rev (reversed num)) in *.
    assert (length (reversed num) = length ds) as El by (symmetry; apply length_rev). rewrite El in *.
    rewrite (proj2 (Nat.leb_gt 39 scale)) by lia. rewrite orb_false_r.
    assert (Forall (fun c => c <> 0) (45 :: take (length ds - scale) ds ++ 46 :: drop (length ds - scale) ds)) as Hnz.
    { constructor; [done|]. apply Forall_app. split; [by apply digit_nonzero, Forall_take|].
      constructor; [done|]. by apply digit_nonzero, Forall_drop. }
    destruct (num <? 10 ^ 37) eqn:E37.
    + apply Z.ltb_lt, H37 in E37. replace (38 - length ds)%nat with (S (37 - length ds)) by lia. cbn [replicate].
      rewrite c_string_app by done. cbn [mbind option_bind]. eexists. split; [done|].
      exists (take (length ds - scale) ds), (drop (length ds - scale) ds). rewrite take_drop, length_drop.
      split_and!; [by destruct (sign =? 1)|done|lia|done].
    + apply Z.ltb_ge in E37. replace (38 - length ds)%nat with 0%nat
        by (destruct (decide (length ds <= 37)%nat) as [Hc|]; [apply H37 in Hc|]; lia).
      cbn [replicate]. rewrite app_nil_r, c_string_full by done. done.
Qed.

(** What the receiver makes of a sign, an integer of 128 bits and a scale: the decimal text of the
    value when it fits the buffer, and otherwise a read or a store outside of the buffer. *)
Theorem numeric_text_spec sign num scale : 0 <= num < 2 ^ 128 ->
  if text_fits num scale then
    exists t, numeric_text sign num scale = Some t /\ writes (negb (num =? 0) && negb (sign =? 1)) num scale t
  else numeric_text sign num scale = None.
Proof. apply numeric_text_total. Qed.

(** A text for 37 digits, none for 38. *)
Lemma numeric_text_spec_witness :
  (exists t, numeric_text 0 (10 ^ 37 - 1) 3 = Some t /\ writes true (10 ^ 37 - 1) 3 t) /\ numeric_text 1 (10 ^ 37) 0 = None.
Proof.
  split; [exact (numeric_text_spec 0 (10 ^ 37 - 1) 3 ltac:(lia))|exact (numeric_text_spec 1 (10 ^ 37) 0 ltac:(lia))].
Defined.

(** ** The digits of a value that is sent *)

(** The text of the output function of the server: digits, and a point when there are some behind it. *)
Definition out_text (minus : bool) (ip fp : bytes) : bytes :=
  (if minus then [45] else []) ++ ip ++ match fp with [] => [] | _ => 46 :: fp end.

(** The first digit is skipped when it is a zero. *)
Definition skip_zero (ip : bytes) : bytes := if hd0 ip =? 48 then tail ip else ip.

(** The digits of [|v| * 10 ^ n], cut. *)
Definition scaled_digits (ip fp : bytes) (n : nat) : bytes := skip_zero ip ++ take n fp ++ replicate (n - length fp) 48.

Lemma skip_zero_ok ip : Forall digit ip -> Forall digit (skip_zero ip) /\ decimal (skip_zero ip) = decimal ip.
Proof.
  intros H. unfold skip_zero. case_match eqn:E; [|done]. destruct ip as [|c ip]; [done|]. apply Z.eqb_eq in E. cbn in E. subst c.
  apply Forall_cons_1 in H as [_ H]. split; [done|]. change (48 :: ip) with ([48] ++ ip). rewrite (decimal_app [48]). change (decimal [48]) with 0. cbn [tail app]. lia.
Qed.

Lemma scaled_digits_length ip fp n : length (scaled_digits ip fp n) = (length (skip_zero ip) + n)%nat.
Proof. unfold scaled_digits. rewrite !length_app, length_take, length_replicate. lia. Qed.

Lemma scaled_digits_digit ip fp n : Forall digit ip -> Forall digit fp -> Forall digit (scaled_digits ip fp n).
Proof.
  intros Hi Hf. apply skip_zero_ok in Hi as [Hi _]. unfold scaled_digits. rewrite !Forall_app.
  split_and!; [done|by apply Forall_take|apply digit_zeros].
Qed.

Lemma scaled_digits_value ip fp n : Forall digit ip -> Forall digit fp ->
  decimal (scaled_digits ip fp n) = decimal (ip ++ fp) * 10 ^ Z.of_nat n / 10 ^ Z.of_nat (length fp).
Proof.
  intros Hi Hf. apply skip_zero_ok in Hi as [_ Hv]. unfold scaled_digits. destruct (decide (length fp <= n)%nat) as [Hn|Hn].
  - rewrite take_ge by lia. rewrite !decimal_app, decimal_zeros, Hv, length_app, length_replicate.
    replace (Z.of_nat n) with (Z.of_nat (length fp) + Z.of_nat (n - length fp)) by lia.
    rewrite Nat2Z.inj_add, !Z.pow_add_r by lia. pose proof (Z.pow_pos_nonneg 10 (Z.of_nat (length fp)) ltac:(lia) ltac:(lia)).
    set (P := 10 ^ Z.of_nat (length fp)) in *. set (R := 10 ^ Z.of_nat (n - length fp)).
    replace ((decimal ip * P + decimal fp) * (P * R)) with ((decimal ip * P * R + decimal fp * R) * P) by lia.
    rewrite Z.div_mul by lia. lia.
  - replace (n - length fp)%nat with 0%nat by lia. cbn [replicate]. rewrite app_nil_r.
    rewrite <- (take_drop n fp) at 2 3. set (f1 := take n fp). set (f2 := drop n fp).
    assert (length f1 = n) as Hl by (unfold f1; rewrite length_take; lia).
    assert (0 <= decimal f2 < 10 ^ Z.of_nat (length f2)) as H2 by (by apply decimal_bounds, Forall_drop).
    rewrite app_assoc, (decimal_app (ip ++ f1)), !(decimal_app _ f1), Hv, length_app, Hl, Nat2Z.inj_add, Z.pow_add_r by lia.
    rewrite <- Z.div_div by (apply Z.pow_nonzero || apply Z.pow_pos_nonneg; lia). rewrite Z.div_mul by (apply Z.pow_nonzero; lia).
    rewrite Z.div_add_l, Z.div_small by lia. lia.
Qed.

Lemma scan_whole ms ip rest acc : -1 < ms -> Forall digit ip ->
  scan_decimal (ip ++ rest) (-1) ms acc = scan_decimal rest (-1) ms (acc ++ ip).
Proof.
  intros Hm Hi. revert acc. induction Hi as [|c ip Hc Hi IH]; intros acc; [cbn; by rewrite app_nil_r|].
  unfold digit in Hc. cbn [app scan_decimal]. if_lia. change (-1 >=? 0) with false. cbn match. rewrite IH. by rewrite <- app_assoc.
Qed.

Lemma scan_behind_point ms fp : forall k acc, 0 <= k <= ms -> Forall digit fp ->
  scan_decimal fp k ms acc = (acc ++ take (Z.to_nat (ms - k)) fp, Z.min ms (k + Z.of_nat (length fp))).
Proof.
  induction fp as [|c fp IH]; intros k acc Hk Hf.
  { cbn. rewrite firstn_nil, app_nil_r. f_equal. lia. }
  apply Forall_cons_1 in Hf as [Hc Hf]. unfold digit in Hc. cbn [scan_decimal]. destruct (decide (k < ms)).
  - if_lia. rewrite IH by (done || lia). replace (Z.to_nat (ms - k)) with (S (Z.to_nat (ms - (k + 1)))) by lia.
    cbn [take length]. rewrite <- app_assoc. cbn [app]. f_equal. lia.
  - if_lia. replace (Z.to_nat (ms - k)) with 0%nat by lia. cbn [take length]. rewrite app_nil_r. f_equal. lia.
Qed.

Lemma scan_text ms ip fp : 0 <= ms -> Forall digit ip -> Forall digit fp ->
  exists sc, scan_decimal (ip ++ match fp with [] => [] | _ => 46 :: fp end) (-1) ms [] = (ip ++ take (Z.to_nat ms) fp, sc) /\
    (if sc =? -1 then 0 else sc) = Z.min ms (Z.of_nat (length fp)).
Proof.
  intros Hm Hi Hf. rewrite scan_whole by (done || lia). cbn [app]. destruct fp as [|c fp].
  - exists (-1). cbn. rewrite firstn_nil, app_nil_r. split; [done|lia].
  - set (l := c :: fp) in *. clearbody l. cbn [scan_decimal]. if_lia. rewrite scan_behind_point by (done || lia).
    rewrite Z.sub_0_r, Z.add_0_l. eexists. split; [done|]. by if_lia.
Qed.

Lemma strip_sign minus ip fp : Forall digit ip ->
  (if hd0 (out_text minus ip fp) =? 45 then (0, tail (out_text minus ip fp)) else (1, out_text minus ip fp)) =
    ((if minus then 0 else 1), ip ++ match fp with [] => [] | _ => 46 :: fp end).
Proof.
  intros Hi. unfold out_text. destruct minus; [done|]. cbn [app]. destruct ip as [|c ip]; [by destruct fp|].
  apply Forall_cons_1 in Hi as [Hc _]. unfold digit in Hc. cbn [app hd0 hd]. by if_lia.
Qed.

Lemma strip_zero ip fp : let t := match fp with [] => [] | _ => 46 :: fp end in
  (if hd0 (ip ++ t) =? 48 then tail (ip ++ t) else ip ++ t) = skip_zero ip ++ t.
Proof. unfold skip_zero. destruct ip as [|c ip]; [by destruct fp|]. cbn. by destruct (c =? 48). Qed.

(** The digits are those of the value at the scale of the column, cut; when there are more of them than
    the column or the protocol allows, the value is refused. *)
Lemma numeric_digits_spec minus ip fp mp ms : 0 <= ms -> Forall digit ip -> Forall digit fp ->
  numeric_digits (out_text minus ip fp) mp ms =
    let ds := scaled_digits ip fp (Z.to_nat ms) in
    if Z.min 38 mp <? Z.of_nat (length ds) then Err numeric_overflow else Ok ((if minus then 0 else 1), ds).
Proof.
  intros Hm Hi Hf. unfold numeric_digits. rewrite strip_sign by done. rewrite strip_zero.
  destruct (scan_text ms (skip_zero ip) fp Hm (proj1 (skip_zero_ok ip Hi)) Hf) as (sc & -> & ->). cbv zeta.
  rewrite scaled_digits_length, length_app, length_take. unfold TDS_MAX_NUM_PRECISION.
  set (a := length (skip_zero ip)). set (n := Z.to_nat ms). set (f := length fp).
  replace (Z.of_nat (a + n `min` f) + (ms - Z.min ms (Z.of_nat f))) with (Z.of_nat (a + n)) by lia.
  rewrite !Z.gtb_ltb. replace (Z.min 38 mp <? Z.of_nat (a + n)) with ((38 <? Z.of_nat (a + n)) || (mp <? Z.of_nat (a + n))) by lia.
  destruct (_ || _); [done|]. unfold scaled_digits. rewrite <- app_assoc. do 5 f_equal. lia.
Qed.

Lemma StringToInteger_spec ds : Forall digit ds -> (length ds <= 38)%nat -> StringToInteger ds = decimal ds.
Proof.
  induction ds as [|c ds IH] using rev_ind; [done|]. rewrite Forall_app, Forall_singleton, length_app. cbn [length]. intros [Hd Hc] Hl.
  unfold StringToInteger in *. rewrite foldl_app, decimal_snoc. cbn [foldl]. rewrite IH by (done || lia). apply Z.mod_small.
  pose proof (decimal_bounds ds Hd). unfold digit in Hc.
  assert (10 ^ Z.of_nat (length ds) <= 10 ^ 37) by (apply Z.pow_le_mono_r; lia). lia.
Qed.

(** The length that is chosen from the number of digits is enough for their value. *)
Lemma numeric_length_fits ds : Forall digit ds -> (length ds <= 38)%nat ->
  let n := numeric_length (Z.of_nat (length ds)) in (n = 4 \/ n = 8 \/ n = 12 \/ n = 16) /\ 0 <= decimal ds < 256 ^ n.
Proof.
  intros Hd Hl. cbv zeta. pose proof (decimal_bounds ds Hd).
  assert (forall k, Z.of_nat (length ds) <= k -> decimal ds < 10 ^ k) as Hk
    by (intros k Hk; pose proof (Z.pow_le_mono_r 10 (Z.of_nat (length ds)) k); lia).
  pose proof (Hk 9). pose proof (Hk 19). pose proof (Hk 28). pose proof (Hk 38). unfold numeric_length.
  repeat case_match; autorewrite with bits in *; split; lia.
Qed.

(** ** There and back *)

(** The receiver of a parameter reads what the sender put. *)
Lemma recv_numeric sign n num sc pre post maxlen chunks : 0 <= sign < 256 -> 1 <= n <= 16 -> 0 <= num < 256 ^ n ->
  let data := sign :: le_bytes (Z.to_nat n) num in
  exists m, TdsRecvTypeNumeric (pre ++ data ++ post) (mk_token (Z.of_nat (length pre)) (n + 1) maxlen chunks false sc) =
    numeric_result m (numeric_text sign num (Z.to_nat sc)).
Proof.
  intros Hs Hn Hnum data. unfold TdsRecvTypeNumeric, TdsGetStringInfoBufferFromToken. cbn [dataOffset TdsTypeRecv.len TdsTypeRecv.scale].
  rewrite Nat2Z.id, drop_app_length. unfold GetMsgInt. change ((1 <=? 1) && (1 <=? 4)) with true. cbn match.
  change (data ++ post) with ([] ++ [sign] ++ (le_bytes (Z.to_nat n) num ++ post)).
  rewrite copy_msg_at by (cbn [length]; lia). cbn [rd_bind le_val]. replace (n + 1 - 1) with n by lia.
  rewrite u32_id by lia. if_lia. change ([] ++ [sign] ++ ?x) with ([sign] ++ x).
  rewrite copy_uint_at by (cbn [length]; lia). cbn [rd_bind]. eexists. do 2 f_equal. lia.
Qed.

(** C14: A NUMERIC that is sent with the scale of its column is refused when it has too many digits, and
    otherwise goes out as a sign and the integer [|v| * 10 ^ scale], cut.  The receiver makes the text
    of exactly this number of it, with the same sign and scale, as long as the text fits its buffer. *)
Theorem wire_numeric size fuel minus ip fp mp ms : (16 <= fuel)%nat -> 0 <= ms -> Forall digit ip -> Forall digit fp ->
  let precision := Z.of_nat (length (skip_zero ip)) + ms in
  let num := decimal (ip ++ fp) * 10 ^ ms / 10 ^ Z.of_nat (length fp) in
  if Z.min 38 mp <? precision then forall s, TdsSendTypeNumeric fuel (out_text minus ip fp) mp ms s = Err numeric_overflow
  else exists k data, (forall s, TdsSendTypeNumeric fuel (out_text minus ip fp) mp ms s = Ok (k s)) /\
    puts size k (Z.of_nat (length data) :: data) /\
    forall pre post maxlen chunks,
      let token := mk_token (Z.of_nat (length pre)) (Z.of_nat (length data)) maxlen chunks false ms in
      if text_fits num (Z.to_nat ms) then
        exists t m, TdsRecvTypeNumeric (pre ++ data ++ post) token = Got t m /\ writes (negb (num =? 0) && minus) num (Z.to_nat ms) t
      else TdsRecvTypeNumeric (pre ++ data ++ post) token = OverAccess.
Proof.
  intros Hf Hm Hi Hfp precision num. unfold TdsSendTypeNumeric.
  set (ds := scaled_digits ip fp (Z.to_nat ms)).
  assert (Z.of_nat (length ds) = precision) as Hl by (unfold ds, precision; rewrite scaled_digits_length; lia).
  pose proof (scaled_digits_digit ip fp (Z.to_nat ms) Hi Hfp) as Hd. fold ds in Hd.
  assert (decimal ds = num) as Hv by (unfold ds, num; rewrite scaled_digits_value, Z2Nat.id by done; done).
  rewrite numeric_digits_spec by done. cbv zeta. fold ds. rewrite Hl. destruct (_ <? precision) eqn:E; [done|]. apply Z.ltb_ge in E.
  cbn [rbind]. rewrite StringToInteger_spec, Hv by (done || lia).
  destruct (numeric_length_fits ds Hd ltac:(lia)) as [Hn Hb]. rewrite Hl, Hv in *. set (n := numeric_length precision) in *.
  eexists. exists ((if minus then 0 else 1) :: le_bytes (Z.to_nat n) num). split; [done|].
  replace (Z.of_nat (length _)) with (n + 1) by (cbn [length]; rewrite length_le_bytes; lia).
  split.
  - apply (puts_bind _ _ [n + 1]); [by apply puts_one; lia|]. apply (puts_bind _ _ [if minus then 0 else 1]);
      [destruct minus; by apply puts_one; lia|]. apply puts_bytes. rewrite length_le_bytes. lia.
  - intros pre post maxlen chunks. cbv zeta.
    destruct (recv_numeric (if minus then 0 else 1) n num ms pre post maxlen chunks) as [m ->]; [destruct minus; lia|lia|done|].
    assert (num < 2 ^ 128) by (assert (256 ^ n <= 256 ^ 16) by (apply Z.pow_le_mono_r; lia); lia).
    pose proof (numeric_text_total (if minus then 0 else 1) num (Z.to_nat ms) ltac:(lia)) as Ht. case_match.
    + destruct Ht as (t & -> & Hw). exists t, m. split; [done|]. by destruct minus.
    + by rewrite Ht.
Qed.

(** -12.345 in a NUMERIC(10, 4) column. *)
Lemma wire_numeric_witness : Forall digit [49; 50] /\ Forall digit [51; 52; 53] /\
  exists k data, (forall s, TdsSendTypeNumeric 16 (out_text true [49; 50] [51; 52; 53]) 10 4 s = Ok (k s)) /\
    puts 4096 k (Z.of_nat (length data) :: data).
Proof.
  assert (Forall digit [49; 50]) as H1 by (repeat constructor; unfold digit; lia).
  assert (Forall digit [51; 52; 53]) as H2 by (repeat constructor; unfold digit; lia).
  split; [exact H1|]. split; [exact H2|].
  destruct (wire_numeric 4096 16 true [49; 50] [51; 52; 53] 10 4 ltac:(lia) ltac:(lia) H1 H2) as (k & data & Hk & Hp & _).
  exists k, data. split; [exact Hk|exact Hp].
Defined.
