(* ===== verification/TdsRequest.v ===== *)
(** * TdsRequest: reading the requests of a client
    ([babelfishpg_tds/src/include/tds_request.h], [tdsutils.c], [tdssqlbatch.c], [tdsxact.c])

    The functions that take a message apart see bytes that the client chose.  An action on a message
    ends with a value, with an error that is reported to the client, or with an access outside of the
    message or through a null pointer. *)
From Stdlib Require Import String.
From stdpp Require Import base list numbers.
From S2P Require Import Prelude BitFacts Utf TdsColMeta.
Open Scope Z_scope.

Inductive req_error :=
| stream_incorrect
| corrupted_query_packet
| deprecated_lob_output (tdsType : Z)
| invalid_data_length (tdsType : Z)
| invalid_char_length
| chunking_incorrect (tdsType : Z)
| scale_above_precision
| unknown_data_type (tdsType : Z)
| unsupported_locale (collation : Z)
| udt_type_name_incorrect
| no_type_functions (tdsType : Z)
| tvp_database_name
| tvp_invalid_column_count
| tvp_ordering_on_computed
| tvp_unexpected_token
| tvp_feature_not_supported
| minimum_parameters (n : Z)
| parameter_type (name : string)
| parameter_null (name : string)
| cursor_does_not_exist
| rpc_not_supported
| rpc_name_invalid
| txn_name_too_long
| txn_name_invalid
| txn_isolation_invalid
| txn_empty_savepoint
| txn_not_supported (req : Z)
| txn_corrupt
| out_of_memory
| request_utf (e : utf_error)
| request_no_fuel.

Inductive act (A : Type) :=
| Fine (a : A)
| Fails (e : req_error)
| Crash.
Arguments Fine {A} _.
Arguments Fails {A} _.
Arguments Crash {A}.

Definition act_bind {A B} (m : act A) (k : A -> act B) : act B :=
  match m with Fine a => k a | Fails e => Fails e | Crash => Crash end.

Notation "'try!' x := m 'in' k" := (act_bind m (fun x => k))
  (at level 100, x name, m at level 100, k at level 200, right associativity, format "'try!'  x  :=  m  'in' '//' k").
Notation "'try!' ' x := m 'in' k" := (act_bind m (fun x => k))
  (at level 100, x strict pattern, m at level 100, k at level 200, right associativity).

(** Reading [n] bytes; the memory of a message ends with its length. *)
Definition fetch (message : bytes) (offset n : Z) : act bytes :=
  if (0 <=? offset) && (0 <=? n) && (offset + n <=? Z.of_nat (length message))
  then Fine (take (Z.to_nat n) (drop (Z.to_nat offset) message)) else Crash.

Definition fetch_uint (message : bytes) (offset n : Z) : act Z :=
  try! b := fetch message offset n in Fine (le_val b).

(** A [char] of the message is signed. *)
Definition i8 : Z -> Z := swrap 8.
Definition fetch_char (message : bytes) (offset : Z) : act Z :=
  try! b := fetch_uint message offset 1 in Fine (i8 b).

(** [size] is converted to an unsigned integer of 64 bits, and the sum wraps around. *)
Definition CheckMessageBounds (offset size msgLen : Z) : act unit :=
  if u64 (u64 offset + u64 size) >? u64 msgLen then Fails stream_incorrect else Fine tt.

Definition of_utf {A} (x : result utf_error A) : act A :=
  match x with Ok a => Fine a | Err e => Fails (request_utf e) end.

(** [TdsUTF16toUTF8StringInfo] on [len] bytes of the message. *)
Definition fetch_utf16 (message : bytes) (offset len : Z) : act bytes :=
  try! b := fetch message offset len in of_utf (TdsUTF16toUTF8StringInfo [] b).

Definition TDS_VERSION_7_1_1 : Z := 0x71000001.

Section request.
Variable tdsVersion : Z.

Definition ProcessStreamHeaders (message : bytes) : act Z :=
  if Z.of_nat (length message) <? 4 then Fails corrupted_query_packet
  else
    try! b := fetch_uint message 0 4 in
    let header_len := i32 b in
    if header_len >? Z.of_nat (length message) then Fails corrupted_query_packet else Fine header_len.

Definition stream_offset (message : bytes) : act Z :=
  if tdsVersion >? TDS_VERSION_7_1_1 then ProcessStreamHeaders message else Fine 0.

(** The text of the batch. *)
Definition GetSQLBatchRequest (message : bytes) : act bytes :=
  try! query_offset := stream_offset message in
  let query_len := Z.of_nat (length message) - query_offset in
  fetch_utf16 message query_offset query_len.

(** ** Transaction management *)

Definition TSQL_TXN_NAME_LIMIT : Z := 64.
Definition TDS_TM_BEGIN_XACT : Z := 5.
Definition TDS_TM_COMMIT_XACT : Z := 7.
Definition TDS_TM_ROLLBACK_XACT : Z := 8.
Definition TDS_TM_SAVEPOINT_XACT : Z := 9.
Definition TDS_ISOLATION_LEVEL_NONE : Z := 0.
Definition TDS_ISOLATION_LEVEL_SNAPSHOT : Z := 5.

Definition between (a ch b : Z) : bool := (a <=? ch) && (ch <=? b).

(** [ch] is a signed [char]. *)
Definition IsValidIdentFirstChar (ch : Z) : bool :=
  between 97 ch 122 || between 65 ch 90 || between 0x80 ch 0xff || (ch =? 95) || (ch =? 35).
Definition IsValidIdentChar (ch : Z) : bool :=
  IsValidIdentFirstChar ch || between 48 ch 57 || (ch =? 36).
Definition IsValidTxnName (txnName : bytes) : bool :=
  match txnName with
  | [] => false
  | c :: cs => IsValidIdentFirstChar (i8 c) && forallb (fun c => IsValidIdentChar (i8 c)) cs
  end.

(** The name, empty when there is none, and the offset behind it. *)
Definition GetTxnName (message : bytes) (offset : Z) : act (bytes * Z) :=
  try! len := fetch_uint message offset 1 in
  let offset := offset + 1 in
  if len =? 0 then Fine ([], offset)
  else if len >? TSQL_TXN_NAME_LIMIT then Fails txn_name_too_long
  else
    try! txnName := fetch_utf16 message offset len in
    if IsValidTxnName txnName then Fine (txnName, offset + len) else Fails txn_name_invalid.

(** Isolation level, name and offset. *)
Definition GetNewTxnRequest (message : bytes) (offset : Z) : act (Z * bytes * Z) :=
  try! isolationLevel := fetch_uint message offset 1 in
  if isolationLevel >? TDS_ISOLATION_LEVEL_SNAPSHOT then Fails txn_isolation_invalid
  else
    try! ' (name, offset) := GetTxnName message (offset + 1) in
    Fine (isolationLevel, name, offset).

Record TDSRequestTxnMgmt := mk_txn {
  txnReqType : Z;
  txnName : bytes;
  isolationLevel : Z;
  nextTxn : option (Z * bytes)
}.

Definition GetIsolationLevelStr (level : Z) : bytes :=
  bytes_of_string
    (if level =? 1 then "READ UNCOMMITTED " else if level =? 2 then "READ COMMITTED "
     else if level =? 3 then "REPEATABLE READ " else if level =? 4 then "SERIALIZABLE "
     else if level =? 5 then "SNAPSHOT " else "UNKNOWN ").

Definition isolation_clause (level : Z) : bytes :=
  if level =? TDS_ISOLATION_LEVEL_NONE then []
  else bytes_of_string "; SET TRANSACTION ISOLATION LEVEL " ++ GetIsolationLevelStr level.

Definition BuildTxnMgmtRequestQuery (r : TDSRequestTxnMgmt) : bytes :=
  if txnReqType r =? TDS_TM_BEGIN_XACT then
    bytes_of_string "BEGIN TRANSACTION " ++ txnName r ++ isolation_clause (isolationLevel r)
  else if (txnReqType r =? TDS_TM_COMMIT_XACT) || (txnReqType r =? TDS_TM_ROLLBACK_XACT) then
    bytes_of_string (if txnReqType r =? TDS_TM_COMMIT_XACT then "COMMIT TRANSACTION " else "ROLLBACK TRANSACTION ") ++
    txnName r ++
    match nextTxn r with
    | Some (level, name) => bytes_of_string "; BEGIN TRANSACTION " ++ name ++ isolation_clause level
    | None => []
    end
  else if txnReqType r =? TDS_TM_SAVEPOINT_XACT then bytes_of_string "SAVE TRANSACTION " ++ txnName r
  else [].

(** The request and the query that is executed for it. *)
Definition GetTxnMgmtRequest (message : bytes) : act (TDSRequestTxnMgmt * bytes) :=
  try! offset := stream_offset message in
  try! req := fetch_uint message offset 2 in
  let offset := offset + 2 in
  try! ' (r, offset) :=
    (if req =? TDS_TM_BEGIN_XACT then
       try! ' (level, name, offset) := GetNewTxnRequest message offset in
       Fine (mk_txn req name level None, offset)
     else if (req =? TDS_TM_COMMIT_XACT) || (req =? TDS_TM_ROLLBACK_XACT) then
       try! ' (name, offset) := GetTxnName message offset in
       try! flags := fetch_uint message offset 1 in
       let offset := offset + 1 in
       if negb (Z.land flags 0x1 =? 0) then
         try! ' (level, next, offset) := GetNewTxnRequest message offset in
         Fine (mk_txn req name 0 (Some (level, next)), offset)
       else Fine (mk_txn req name 0 None, offset)
     else if req =? TDS_TM_SAVEPOINT_XACT then
       try! ' (name, offset) := GetTxnName message offset in
       match name with [] => Fails txn_empty_savepoint | _ => Fine (mk_txn req name 0 None, offset) end
     else Fails (txn_not_supported req)) in
  if offset >? Z.of_nat (length message) then Fails txn_corrupt
  else Fine (r, BuildTxnMgmtRequestQuery r).
End request.
