(* ===== verification/TdsTvp.v ===== *)
(** * TdsTvp: table-valued parameters ([babelfishpg_tds/src/include/tds_request.h])

    [SetColMetadataForTvp] and [SetTvpRowData]: the columns and the rows of a table that a client sends
    as a parameter. *)
From stdpp Require Import base list numbers.
From S2P Require Import Prelude BitFacts Utf TdsColMeta TdsTypeRecv TdsRequest.
Open Scope Z_scope.

Record TvpColMetaData := mk_tvpcol {
  userType : Z;
  flags : Z;
  columnTdsType : Z;
  tvp_scale : Z;
  tvp_precision : Z;
  sortId : Z;
  encoding : Z;
  tvp_maxLen : Z
}.

(** A column of a row: [None] is a NULL. *)
Record TvpData := mk_tvp {
  tvpTypeName : bytes;
  tvpTypeSchemaName : bytes;
  colMetaData : list TvpColMetaData;
  rowData : list (list (option bytes))
}.

Definition TVP_ROW_TOKEN : Z := 0x01.
Definition TVP_NULL_TOKEN : Z := 0xFFFF.
Definition TVP_ORDER_UNIQUE_TOKEN : Z := 0x10.
Definition TVP_COLUMN_ORDERING_TOKEN : Z := 0x11.
Definition TVP_END_TOKEN : Z := 0x00.
Definition MaxAllocSize : Z := 0x3fffffff.

(** The type is one of the list. *)
Definition one_of (t : Z) (ts : list Z) : bool := existsb (Z.eqb t) ts.

Section tvp.
Variable message : bytes.
(** [TdsGetEncoding]: -1 for a collation that is not known. *)
Variable TdsGetEncoding : Z -> Z.
Local Notation msgLen := (Z.of_nat (length message)).

(** A byte behind a check of the bounds. *)
Definition checked_char (offset : Z) : act Z :=
  try! _ := CheckMessageBounds offset 1 msgLen in fetch_char message offset.
Definition checked_uint (offset n : Z) : act Z :=
  try! _ := CheckMessageBounds offset n msgLen in fetch_uint message offset n.

(** ** Rows *)

(** A fresh StringInfo has 1024 bytes.  [enlargeStringInfo] adds to [len] bytes, which is what the
    length is set to already. *)
Definition enlarge (len : Z) : act unit :=
  if (len >? 1024) && (len >=? MaxAllocSize - len) then Fails out_of_memory else Fine tt.

(** [len] bytes of a value: [len] is an [int], compared with the unsigned length of the column, and the
    size of a [memcpy]. *)
Definition tvp_value (c : TvpColMetaData) (len offset : Z) : act (bytes * Z) :=
  if u32 len >? tvp_maxLen c then Fails (invalid_data_length (columnTdsType c))
  else
    try! _ := enlarge len in
    try! _ := CheckMessageBounds offset len msgLen in
    try! v := fetch message offset (u64 len) in
    Fine (v, u64 (offset + len)).

(** [ReadPlp] sets the chunks of the token anew, and [isNull] is false before it: it is reset when a
    table is not NULL and after every column. *)
Definition tvp_plp (c : TvpColMetaData) (offset : Z) : act (option bytes * Z) :=
  match ReadPlp (mk_token 0 0 0 [] false 0) message offset with
  | None => Fails (chunking_incorrect (columnTdsType c))
  | Some (temp, offset) =>
      if isNull temp then Fine (None, offset)
      else
        let v := TdsGetPlpStringInfoBufferFromToken message temp in
        Fine (Some (take (Z.to_nat (si_len v)) (si_data v)), offset)
  end.

(** One column of a row. *)
Definition tvp_column (c : TvpColMetaData) (offset : Z) : act (option bytes * Z) :=
  let t := columnTdsType c in
  if one_of t [TDS_TYPE_INTEGER; TDS_TYPE_BIT; TDS_TYPE_FLOAT; TDS_TYPE_TIME; TDS_TYPE_DATE; TDS_TYPE_DATETIME2;
               TDS_TYPE_DATETIMEN; TDS_TYPE_MONEYN; TDS_TYPE_UNIQUEIDENTIFIER] then
    try! len := checked_char offset in
    let offset := offset + 1 in
    if len =? 0 then Fine (None, offset)
    else try! ' (v, offset) := tvp_value c len offset in Fine (Some v, offset)
  else if t =? TDS_TYPE_CLRUDT then tvp_plp c offset
  else if one_of t [TDS_TYPE_NUMERICN; TDS_TYPE_DECIMALN] then
    if tvp_scale c >? tvp_precision c then Fails scale_above_precision
    else
      try! len := checked_char offset in
      let offset := offset + 1 in
      if len =? 0 then Fine (None, offset)
      else try! ' (v, offset) := tvp_value c len offset in Fine (Some v, offset)
  else if one_of t [TDS_TYPE_CHAR; TDS_TYPE_VARCHAR; TDS_TYPE_NCHAR; TDS_TYPE_NVARCHAR; TDS_TYPE_BINARY; TDS_TYPE_VARBINARY] then
    if tvp_maxLen c =? 0xffff then tvp_plp c offset
    else
      try! len := checked_uint offset 2 in
      let offset := offset + 2 in
      if len =? 0xffff then Fine (None, offset)
      else try! ' (v, offset) := tvp_value c len offset in Fine (Some v, offset)
  else if t =? TDS_TYPE_XML then tvp_plp c offset
  else if t =? TDS_TYPE_SQLVARIANT then
    try! b := checked_uint offset 4 in
    let len := i32 b in
    let offset := offset + 4 in
    if len =? 0 then Fine (None, offset)
    else try! ' (v, offset) := tvp_value c len offset in Fine (Some v, offset)
  else Fine (Some [], offset).

Fixpoint tvp_columns (cols : list TvpColMetaData) (offset : Z) : act (list (option bytes) * Z) :=
  match cols with
  | [] => Fine ([], offset)
  | c :: cols =>
      try! ' (v, offset) := tvp_column c offset in
      try! ' (vs, offset) := tvp_columns cols offset in
      Fine (v :: vs, offset)
  end.

(** Every row takes its token from the message. *)
Fixpoint tvp_rows (fuel : nat) (cols : list TvpColMetaData) (offset : Z) : act (list (list (option bytes)) * Z) :=
  match fuel with
  | O => Fails request_no_fuel
  | S fuel =>
      try! token := checked_char offset in
      if token =? TVP_ROW_TOKEN then
        try! ' (row, offset) := tvp_columns cols (offset + 1) in
        try! ' (rows, offset) := tvp_rows fuel cols offset in
        Fine (row :: rows, offset)
      else Fine ([], offset)
  end.

Definition SetTvpRowData (cols : list TvpColMetaData) (offset : Z) : act (list (list (option bytes)) * Z) :=
  try! ' (rows, offset) := tvp_rows (S (length message)) cols offset in
  try! token := checked_char offset in
  if token =? TVP_END_TOKEN then Fine (rows, offset + 1) else Fails tvp_unexpected_token.

(** ** Columns *)

(** The type of a column: precision, scale, sort id, encoding, longest value, and the offset. *)
Definition tvp_type_info (t offset : Z) : act (Z * Z * Z * Z * Z * Z) :=
  if one_of t [TDS_TYPE_INTEGER; TDS_TYPE_BIT; TDS_TYPE_FLOAT; TDS_TYPE_MONEYN; TDS_TYPE_DATETIMEN; TDS_TYPE_UNIQUEIDENTIFIER] then
    try! maxLen := checked_char offset in Fine (0, 0, 0, 0, u32 maxLen, offset + 1)
  else if one_of t [TDS_TYPE_DECIMALN; TDS_TYPE_NUMERICN] then
    try! maxLen := checked_char offset in
    try! precision := checked_char (offset + 1) in
    try! scale := checked_char (offset + 2) in
    Fine (u8 precision, u8 scale, 0, 0, u32 maxLen, offset + 3)
  else if one_of t [TDS_TYPE_CHAR; TDS_TYPE_VARCHAR; TDS_TYPE_NCHAR; TDS_TYPE_NVARCHAR] then
    try! maxLen := checked_uint offset 2 in
    try! collation := checked_uint (offset + 2) 4 in
    try! sort := checked_char (offset + 6) in
    Fine (0, 0, u8 sort, TdsGetEncoding collation, maxLen, offset + 7)
  else if t =? TDS_TYPE_XML then
    try! maxLen := checked_char offset in Fine (0, 0, 0, 0, u32 maxLen, offset + 1)
  else if t =? TDS_TYPE_DATETIME2 then
    try! scale := checked_char offset in Fine (0, u8 scale, 0, 0, 8, offset + 1)
  else if t =? TDS_TYPE_TIME then
    try! scale := checked_char offset in Fine (0, u8 scale, 0, 0, 5, offset + 1)
  else if one_of t [TDS_TYPE_BINARY; TDS_TYPE_VARBINARY] then
    try! plp := checked_uint offset 2 in Fine (0, 0, 0, 0, plp, offset + 2)
  else if t =? TDS_TYPE_DATE then Fine (0, 0, 0, 0, 3, offset)
  else if t =? TDS_TYPE_SQLVARIANT then
    try! maxLen := checked_uint offset 4 in Fine (0, 0, 0, 0, maxLen, offset + 4)
  else if t =? TDS_TYPE_CLRUDT then
    try! maxLen := checked_char offset in Fine (0, 0, 0, 0, u32 maxLen, offset + 1)
  else Fails (unknown_data_type t).

Definition tvp_column_meta (offset : Z) : act (TvpColMetaData * Z) :=
  if offset + 4 >? msgLen then Fails tvp_invalid_column_count
  else
    try! user := fetch_uint message offset 4 in
    try! flags := checked_uint (offset + 4) 2 in
    try! c := checked_char (offset + 6) in
    let t := u8 c in
    try! ' (precision, scale, sort, enc, maxLen, offset) := tvp_type_info t (offset + 7) in
    try! token := checked_char offset in
    if negb (Z.land flags TDS_COLMETA_COMPUTED =? 0) &&
       ((token =? TVP_ORDER_UNIQUE_TOKEN) || (token =? TVP_COLUMN_ORDERING_TOKEN)) then Fails tvp_ordering_on_computed
    else if negb (token =? TVP_END_TOKEN) then Fails tvp_unexpected_token
    else Fine (mk_tvpcol (i32 user) flags t scale precision sort enc maxLen, offset + 1).

Fixpoint tvp_metas (colCount : nat) (offset : Z) : act (list TvpColMetaData * Z) :=
  match colCount with
  | O => Fine ([], offset)
  | S colCount =>
      try! ' (c, offset) := tvp_column_meta offset in
      try! ' (cs, offset) := tvp_metas colCount offset in
      Fine (c :: cs, offset)
  end.

(** [get_tvp_typename_typeschemaname] of the extension babelfishpg_tsql: the name and the schema of the type
    of a parameter of a procedure, by the name of the parameter. *)
Variable typename_typeschemaname : bytes -> bytes * bytes.

(** A part of the name, of [len] code units, [None] when it is empty; and the offset. *)
Definition tvp_name_part (offset : Z) : act (option bytes * Z * Z) :=
  try! c := checked_char offset in
  let len := u8 c in
  let offset := offset + 1 in
  if len =? 0 then Fine (None, 0, offset)
  else
    try! _ := CheckMessageBounds offset (len * 2) msgLen in
    try! s := fetch_utf16 message offset (len * 2) in
    Fine (Some s, len, offset + len * 2).

(** The schema, the name of the type, what is added to the length of the token, and the offset; the name
    of a database must be empty. *)
Definition tvp_type_name (colName : bytes) (offset : Z) : act (bytes * bytes * Z * Z) :=
  try! db := checked_char offset in
  if negb (db =? 0) then Fails tvp_database_name
  else
    try! ' (schema, n, offset) := tvp_name_part (offset + 1) in
    try! ' (name, n', offset) := tvp_name_part offset in
    match name with
    | Some name => Fine (default [] schema, name, n + n', offset)
    | None =>
        let '(name, schema) := typename_typeschemaname colName in
        Fine (schema, name, n + Z.of_nat (length schema) + Z.of_nat (length name), offset)
    end.

(** The columns, whether the table is NULL, and the offset. *)
Definition tvp_colmetadata (offset : Z) : act (list TvpColMetaData * bool * Z) :=
  try! isTvpNull := checked_uint offset 2 in
  if isTvpNull =? TVP_NULL_TOKEN then Fine ([], true, offset + 2)
  else
    try! colCount := checked_uint offset 2 in
    try! ' (cols, offset) := tvp_metas (Z.to_nat colCount) (offset + 2) in
    try! token := checked_char offset in
    if token =? TVP_ORDER_UNIQUE_TOKEN then Fails tvp_feature_not_supported
    else
      try! token := checked_char offset in
      if token =? TVP_COLUMN_ORDERING_TOKEN then Fails tvp_feature_not_supported
      else Fine (cols, false, offset).

(** The table, the length of the token, whether the table is NULL, and the offset. *)
Definition SetColMetadataForTvp (colName : bytes) (offset : Z) : act (TvpData * Z * bool * Z) :=
  try! ' (schema, name, n, offset) := tvp_type_name colName offset in
  try! ' (cols, null, offset) := tvp_colmetadata offset in
  try! token := checked_char offset in
  if negb (token =? TVP_END_TOKEN) then Fails tvp_unexpected_token
  else
    try! ' (rows, offset) := SetTvpRowData cols (offset + 1) in
    Fine (mk_tvp name schema cols rows, n, null, offset).
End tvp.
