(* ===== verification/TdsRpc.v ===== *)
(** * TdsRpc: the request to call a procedure ([babelfishpg_tds/src/backend/tds/tdsrpc.c])

    [ReadParameters] takes the parameters of a call from the message; [GetRPCRequest] reads the procedure,
    its parameters, and what each of the numbered procedures ([sp_prepexec], [sp_cursoropen], ...) expects
    of them.  A pointer into the linked list of the parameters is the rest of the list from there on, and
    the empty list is the null pointer.  Assertions are compiled out of a release build. *)
From Stdlib Require Import String.
From stdpp Require Import base list numbers.
From S2P Require Import Prelude BitFacts Utf TdsColMeta TdsTypeRecv TdsRequest TdsTvp.
Open Scope Z_scope.

Definition SP_FLAGS_BYREFVALUE : Z := 0x01.
Definition VARCHAR_MAX_LEN : Z := 0x1F40.
Definition TDS_MAXLEN_POINT : Z := 65535.

Record RpcParameter := mk_param {
  param_type : Z;
  param_flags : Z;
  param_ordinal : Z;
  param_name : bytes;
  param_token : ParameterToken;
  paramMeta : TdsColumnMetaData;
  pgTypeOid : Z;
  tvpInfo : option TvpData
}.

Definition FetchDataTypeNameFromParameter (p : RpcParameter) : Z := entry_type (metaEntry (paramMeta p)).

(** What [ReadParameters] learns of one value: the type, which is changed for some, the token, the meta
    data and the table. *)
Record value := mk_value {
  value_type : Z;
  value_token : ParameterToken;
  value_meta : TdsColumnMetaData;
  value_table : option TvpData
}.

Record TdsIoFunctionData := mk_finfo { ttmtypeid : Z; ttmbasetypeid : Z }.

(** [pg_strcasecmp] with a word of lower-case letters. *)
Definition pg_tolower (c : Z) : Z := if between 65 c 90 then c + 32 else c.
Definition same_word (s : bytes) (w : string) : bool := bool_decide (map pg_tolower s = bytes_of_string w).

Section rpc.
Variable tdsVersion : Z.
(** [TdsGetEncoding]: -1 for a collation that is not known. *)
Variable TdsGetEncoding : Z -> Z.
(** The hash table [functionInfoCacheByTdsId], by type and length, which is filled from the catalogues. *)
Variable functionInfoCacheByTdsId : Z -> Z -> option TdsIoFunctionData.
(** [get_tvp_typename_typeschemaname], by the names of the procedure and of the parameter. *)
Variable typename_typeschemaname : bytes -> bytes -> bytes * bytes.

Definition TdsLookupTypeFunctionsByTdsId (typeId typeLen : Z) : act TdsIoFunctionData :=
  match functionInfoCacheByTdsId typeId typeLen with
  | Some data => Fine data
  | None =>
      match functionInfoCacheByTdsId typeId (-1) with
      | Some data => Fine data
      | None =>
          match (if (typeId =? TDS_TYPE_NUMERICN) || (typeId =? TDS_TYPE_DECIMALN)
                 then functionInfoCacheByTdsId typeId TDS_MAXLEN_NUMERIC else None) with
          | Some data => Fine data
          | None => Fails (no_type_functions typeId)
          end
      end
  end.

Definition SetParamMetadataCommonInfo (finfo : TdsIoFunctionData) : Z :=
  if negb (ttmbasetypeid finfo =? 0) then ttmbasetypeid finfo else ttmtypeid finfo.

(** For TDS 7.2 and later, and before. *)
Definition GetRpcBatchSeparator : Z := if tdsVersion >? TDS_VERSION_7_1_1 then 0xFF else 0x80.

Section message.
Variable message : bytes.
Local Notation msgLen := (Z.of_nat (length message)).

(** [STATUS_ERROR] becomes the error of [GetRPCRequest]. *)
Definition collation_and_sort (offset : Z) : act (Z * Z * Z) :=
  try! collation := fetch_uint message offset 4 in
  try! sortId := fetch_uint message (offset + 4) 1 in
  let enc := TdsGetEncoding collation in
  if enc =? -1 then Fails (unsupported_locale collation) else Fine (collation, sortId, enc).

Definition code_page (collation : Z) : Z := Z.land collation 0xFFFFF.
Definition code_flags (collation : Z) : Z := Z.shiftr (Z.land collation 0xFFF00000) 20.

(** The length, the meta data and the offset. *)
Definition GetSetColMetadataForCharType (tdsType offset : Z) : act (Z * TdsColumnMetaData * Z) :=
  if offset + 7 >? msgLen then Fails stream_incorrect
  else
    try! l := fetch_uint message offset 2 in
    let tempLen := if l =? 0 then VARCHAR_MAX_LEN else l in
    try! ' (collation, sortId, enc) := collation_and_sort (offset + 2) in
    Fine (tempLen, SetColMetadataForCharType col_zero tdsType (code_page collation) enc (code_flags collation) sortId tempLen,
          offset + 7).

Definition GetSetColMetadataForTextType (tdsType offset : Z) : act (Z * TdsColumnMetaData * Z) :=
  if offset + 9 >? msgLen then Fails stream_incorrect
  else
    try! maxLen := fetch_uint message offset 4 in
    try! ' (collation, sortId, enc) := collation_and_sort (offset + 4) in
    Fine (maxLen, SetColMetadataForTextType col_zero tdsType (code_page collation) enc (code_flags collation) sortId maxLen,
          offset + 9).

(** The end of every case with a length: [len] bytes of data at [offset]. *)
Definition CheckForInvalidLength (tdsType len maxLen : Z) : act unit :=
  if len >? maxLen then Fails (invalid_data_length tdsType) else Fine tt.
Definition data_at (offset len maxLen : Z) (null : bool) (scale : Z) : act (ParameterToken * Z) :=
  try! _ := CheckMessageBounds offset len msgLen in
  Fine (mk_token offset len maxLen [] null scale, offset + len).

Definition plp_at (tdsType offset maxLen : Z) : act (ParameterToken * Z) :=
  match ReadPlp (mk_token 0 0 maxLen [] false 0) message offset with
  | None => Fails (chunking_incorrect tdsType)
  | Some x => Fine x
  end.

Definition read_text (tdsType flags offset : Z) : act (value * Z) :=
  if negb (Z.land flags SP_FLAGS_BYREFVALUE =? 0) then Fails (deprecated_lob_output tdsType)
  else
    try! ' (maxLen, meta, offset) := GetSetColMetadataForTextType tdsType offset in
    try! _ := CheckMessageBounds offset 4 msgLen in
    try! l := fetch_uint message offset 4 in
    let null := l =? 0xFFFFFFFF in
    let len := if null then 0 else l in
    try! _ := CheckForInvalidLength tdsType len maxLen in
    try! ' (token, offset) := data_at (offset + 4) len maxLen null 0 in
    Fine (mk_value tdsType token meta None, offset).

(** Two integers of four bytes are skipped, of which the first is the length. *)
Definition read_image (tdsType flags offset : Z) : act (value * Z) :=
  if negb (Z.land flags SP_FLAGS_BYREFVALUE =? 0) && (tdsType =? TDS_TYPE_IMAGE) then Fails (deprecated_lob_output tdsType)
  else
    let meta := SetColMetadataForImageType col_zero tdsType in
    try! _ := CheckMessageBounds offset 4 msgLen in
    try! l := fetch_uint message offset 4 in
    let null := (l =? 0xFFFFFFFF) || ((tdsType =? TDS_TYPE_SQLVARIANT) && (l =? 0)) in
    let len := if null then 0 else l in
    if (tdsType =? TDS_TYPE_SQLVARIANT) && (len >? 0x00001f49) then Fails (invalid_data_length tdsType)
    else
      try! _ := CheckMessageBounds offset 8 msgLen in
      try! ' (token, offset) := data_at (offset + 8) len 0 null 0 in
      Fine (mk_value tdsType token meta None, offset).

Definition read_string (tdsType offset : Z) : act (value * Z) :=
  try! ' (maxLen, meta, offset) := GetSetColMetadataForCharType tdsType offset in
  if maxLen =? 0xFFFF then
    try! ' (token, offset) := plp_at tdsType offset maxLen in
    Fine (mk_value tdsType token meta None, offset)
  else if offset + 2 >? msgLen then Fails invalid_char_length
  else
    try! l := fetch_uint message offset 2 in
    let offset := offset + 2 in
    let null := l =? 0xffff in
    let len := if null then 0 else l in
    if offset + len >? msgLen then Fails (invalid_data_length tdsType)
    else Fine (mk_value tdsType (mk_token offset len maxLen [] null 0) meta None, offset + len).

Definition read_fixed (tdsType offset : Z) : act (value * Z) :=
  try! _ := CheckMessageBounds offset 2 msgLen in
  try! m := fetch_char message offset in
  try! l := fetch_char message (offset + 1) in
  let maxLen := u32 m in
  let len := u32 l in
  try! _ := CheckForInvalidLength tdsType len maxLen in
  try! ' (token, offset) := data_at (offset + 2) len maxLen (len =? 0) 0 in
  Fine (mk_value tdsType token (SetColMetadataForFixedType col_zero tdsType maxLen) None, offset).

Definition read_table (procName paramName : bytes) (offset : Z) : act (value * Z) :=
  try! ' (table, n, null, offset) :=
    SetColMetadataForTvp message TdsGetEncoding (typename_typeschemaname procName) paramName offset in
  Fine (mk_value TDS_TYPE_TABLE (mk_token 0 n 0 [] null 0) col_zero (Some table), offset).

Definition read_binary (tdsType offset : Z) : act (value * Z) :=
  try! _ := CheckMessageBounds offset 2 msgLen in
  try! maxLen := fetch_uint message offset 2 in
  let offset := offset + 2 in
  let meta := SetColMetadataForBinaryType col_zero tdsType maxLen in
  if maxLen =? 0xffff then
    try! ' (token, offset) := plp_at tdsType offset maxLen in
    Fine (mk_value tdsType token meta None, offset)
  else
    try! _ := CheckMessageBounds offset 2 msgLen in
    try! l := fetch_uint message offset 2 in
    let null := l =? 0xffff in
    let len := if null then 0 else l in
    try! _ := CheckForInvalidLength tdsType len maxLen in
    try! ' (token, offset) := data_at (offset + 2) len maxLen null 0 in
    Fine (mk_value tdsType token meta None, offset).

Definition read_date (tdsType offset : Z) : act (value * Z) :=
  try! _ := CheckMessageBounds offset 1 msgLen in
  try! l := fetch_char message offset in
  let len := u32 l in
  try! _ := CheckForInvalidLength tdsType len 3 in
  try! ' (token, offset) := data_at (offset + 1) len 3 (len =? 0) 0 in
  Fine (mk_value tdsType token (SetColMetadataForDateType col_zero tdsType) None, offset).

Definition read_time (tdsType offset : Z) : act (value * Z) :=
  try! _ := CheckMessageBounds offset 2 msgLen in
  try! scale := fetch_uint message offset 1 in
  try! l := fetch_char message (offset + 1) in
  let len := u32 l in
  let maxLen := if tdsType =? TDS_TYPE_TIME then 5 else if tdsType =? TDS_TYPE_DATETIME2 then 8 else 10 in
  try! _ := CheckForInvalidLength tdsType len maxLen in
  try! ' (token, offset) := data_at (offset + 2) len maxLen (len =? 0) scale in
  Fine (mk_value tdsType token (SetColMetadataForTimeType col_zero tdsType scale) None, offset).

Definition read_numeric (tdsType offset : Z) : act (value * Z) :=
  try! _ := CheckMessageBounds offset 4 msgLen in
  try! m := fetch_char message offset in
  try! precision := fetch_uint message (offset + 1) 1 in
  try! scale := fetch_uint message (offset + 2) 1 in
  if scale >? precision then Fails scale_above_precision
  else
    try! l := fetch_char message (offset + 3) in
    let maxLen := u32 m in
    let len := u32 l in
    if len >? TDS_MAXLEN_NUMERIC then Fails (invalid_data_length tdsType)
    else
      try! _ := CheckForInvalidLength tdsType len maxLen in
      try! ' (token, offset) := data_at (offset + 4) len maxLen (len =? 0) scale in
      Fine (mk_value TDS_TYPE_NUMERICN token (SetColMetadataForNumericType col_zero TDS_TYPE_NUMERICN maxLen precision scale) None, offset).

Definition read_xml (tdsType offset : Z) : act (value * Z) :=
  try! _ := CheckMessageBounds offset 1 msgLen in
  try! m := fetch_char message offset in
  try! ' (token, offset) := plp_at tdsType (offset + 1) (u32 m) in
  Fine (mk_value tdsType token col_zero None, offset).

Definition read_clrudt (tdsType offset : Z) : act (value * Z) :=
  try! _ := CheckMessageBounds offset 2 msgLen in
  try! maxLen := fetch_uint message offset 2 in
  try! _ := CheckMessageBounds (offset + 2) 1 msgLen in
  try! typenamelen := fetch_uint message (offset + 2) 1 in
  let offset := offset + 3 in
  try! _ := CheckMessageBounds offset (2 * typenamelen) msgLen in
  try! typeName := fetch_utf16 message offset (2 * typenamelen) in
  let offset := offset + 2 * typenamelen in
  if negb (same_word typeName "geometry" || same_word typeName "geography") then Fails udt_type_name_incorrect
  else
    let '(t, meta) :=
      if same_word typeName "geometry" then (TDS_TYPE_GEOMETRY, SetColMetadataForGeometryType col_zero tdsType TDS_MAXLEN_POINT)
      else (TDS_TYPE_GEOGRAPHY, SetColMetadataForGeographyType col_zero tdsType TDS_MAXLEN_POINT) in
    try! ' (token, offset) := plp_at t offset maxLen in
    Fine (mk_value t token meta None, offset).

Definition read_param_value (procName paramName : bytes) (tdsType flags offset : Z) : act (value * Z) :=
  if one_of tdsType [TDS_TYPE_TEXT; TDS_TYPE_NTEXT] then read_text tdsType flags offset
  else if one_of tdsType [TDS_TYPE_IMAGE; TDS_TYPE_SQLVARIANT] then read_image tdsType flags offset
  else if one_of tdsType [TDS_TYPE_CHAR; TDS_TYPE_NCHAR; TDS_TYPE_VARCHAR; TDS_TYPE_NVARCHAR] then read_string tdsType offset
  else if one_of tdsType [TDS_TYPE_BIT; TDS_TYPE_INTEGER; TDS_TYPE_FLOAT; TDS_TYPE_MONEYN; TDS_TYPE_DATETIMEN;
                          TDS_TYPE_UNIQUEIDENTIFIER] then read_fixed tdsType offset
  else if tdsType =? TDS_TYPE_TABLE then read_table procName paramName offset
  else if one_of tdsType [TDS_TYPE_BINARY; TDS_TYPE_VARBINARY] then read_binary tdsType offset
  else if tdsType =? TDS_TYPE_DATE then read_date tdsType offset
  else if one_of tdsType [TDS_TYPE_TIME; TDS_TYPE_DATETIME2; TDS_TYPE_DATETIMEOFFSET] then read_time tdsType offset
  else if one_of tdsType [TDS_TYPE_DECIMALN; TDS_TYPE_NUMERICN] then read_numeric tdsType offset
  else if tdsType =? TDS_TYPE_XML then read_xml tdsType offset
  else if tdsType =? TDS_TYPE_CLRUDT then read_clrudt tdsType offset
  else Fails (unknown_data_type tdsType).

(** The name of a parameter: its length is a signed [char]. *)
Definition read_param_name (offset : Z) : act (bytes * Z) :=
  try! _ := CheckMessageBounds offset 1 msgLen in
  try! len := fetch_char message offset in
  let offset := offset + 1 in
  if len >? 0 then
    try! _ := CheckMessageBounds offset (2 * len) msgLen in
    try! name := fetch_utf16 message offset (2 * len) in
    Fine (name, offset + 2 * len)
  else Fine ([], offset).

(** One round of the loop. *)
Definition read_parameter (procName : bytes) (paramOrdinal offset : Z) : act (RpcParameter * Z) :=
  try! ' (name, offset) := read_param_name offset in
  try! _ := CheckMessageBounds offset 1 msgLen in
  try! flags := fetch_uint message offset 1 in
  try! _ := CheckMessageBounds (offset + 1) 1 msgLen in
  try! tdsType := fetch_uint message (offset + 1) 1 in
  try! ' (v, offset) := read_param_value procName name tdsType flags (offset + 2) in
  try! finfo := TdsLookupTypeFunctionsByTdsId (value_type v) (i32 (maxLen (value_token v))) in
  Fine (mk_param (value_type v) flags paramOrdinal name (value_token v) (value_meta v) (SetParamMetadataCommonInfo finfo)
          (value_table v), offset).

(** The parameters, and where the next call of the batch begins: at the end of the message when there
    is none.  A round takes three bytes at least. *)
Fixpoint read_parameters (fuel : nat) (procName : bytes) (paramOrdinal offset : Z) : act (list RpcParameter * Z) :=
  match fuel with
  | O => Fails request_no_fuel
  | S fuel =>
      if offset <? msgLen then
        try! b := fetch_uint message offset 1 in
        if b =? GetRpcBatchSeparator then Fine ([], offset + 1)
        else
          try! ' (p, offset) := read_parameter procName paramOrdinal offset in
          try! ' (ps, batchSeparatorOffset) := read_parameters fuel procName (u16 (paramOrdinal + 1)) offset in
          Fine (p :: ps, batchSeparatorOffset)
      else Fine ([], msgLen)
  end.

Definition ReadParameters (procName : bytes) (offset : Z) : act (list RpcParameter * Z) :=
  read_parameters (S (length message)) procName 0 offset.
End message.
End rpc.
