(* ===== verification/TdsRpcRequest.v ===== *)
(** * TdsRpcRequest: the numbered procedures ([GetRPCRequest] of [babelfishpg_tds/src/backend/tds/tdsrpc.c])

    What a request holds when it goes to the execution, for every numbered procedure and for a procedure
    that is called by name. *)
From Stdlib Require Import String.
From stdpp Require Import base list numbers.
From S2P Require Import Prelude BitFacts Utf TdsColMeta TdsTypeRecv TdsRequest TdsTvp TdsRpc.
Open Scope Z_scope.

(** A pointer into the list of parameters. *)
Definition pointer := list RpcParameter.

Record TDSRequestSP := mk_sp {
  spType : Z;
  spFlags : Z;
  name : bytes;
  parameter : pointer;
  queryParameter : pointer;
  dataParameter : pointer;
  handleParameter : pointer;
  cursorPreparedHandleParameter : pointer;
  cursorHandleParameter : pointer;
  cursorExtraArg1 : pointer;
  cursorExtraArg2 : pointer;
  cursorExtraArg3 : pointer;
  metaDataParameterValue : bytes;
  nTotalParams : Z;
  nOutParams : Z;
  idxOutParams : list RpcParameter;
  handle : Z;
  cursorHandle : Z;
  cursorPreparedHandle : Z;
  batchSeparatorOffset : Z;
  messageLen : Z
}.

(** The pointers that the numbered procedures set, all null after [InitialiseParameterToken]. *)
Record sp_args := mk_args {
  a_query : pointer;
  a_data : pointer;
  a_handle : pointer;
  a_prepared : pointer;
  a_cursor : pointer;
  a_extra1 : pointer;
  a_extra2 : pointer;
  a_extra3 : pointer;
  a_meta : bytes
}.

Definition InitialiseParameterToken : sp_args := mk_args [] [] [] [] [] [] [] [] [].

(** Access through a pointer. *)
Definition next (p : pointer) : act pointer := match p with [] => Crash | _ :: p => Fine p end.
Definition deref (p : pointer) : act RpcParameter := match p with [] => Crash | x :: _ => Fine x end.

Definition minimum (n : Z) (parameterCount : Z) : act unit :=
  if parameterCount <? n then Fails (minimum_parameters n) else Fine tt.

(** The type of the parameter is one of the list. *)
Definition expect (what : string) (ts : list Z) (p : pointer) : act unit :=
  try! x := deref p in
  if one_of (FetchDataTypeNameFromParameter x) ts then Fine tt else Fails (parameter_type what).
Definition not_null (what : string) (p : pointer) : act unit :=
  match p with [] => Fails (parameter_null what) | _ => Fine tt end.

Definition query_types : list Z := [TDS_TYPE_NVARCHAR; TDS_TYPE_NTEXT].
Definition string_types : list Z :=
  [TDS_TYPE_NVARCHAR; TDS_TYPE_VARCHAR; TDS_TYPE_NCHAR; TDS_TYPE_CHAR; TDS_TYPE_NTEXT; TDS_TYPE_TEXT].

Section request.
Variable message : bytes.
Local Notation msgLen := (Z.of_nat (length message)).

(** [TdsReadUnicodeDataFromTokenCommon] into an empty buffer. *)
Definition read_unicode (p : pointer) : act bytes :=
  try! x := deref p in
  let token := param_token x in
  if one_of (param_type x) [TDS_TYPE_NVARCHAR; TDS_TYPE_VARCHAR] && (maxLen token =? 0xFFFF) then
    let b := TdsGetPlpStringInfoBufferFromToken message token in
    of_utf (TdsUTF16toUTF8StringInfo [] (take (Z.to_nat (si_len b)) (si_data b)))
  else fetch_utf16 message (dataOffset token) (len token).

(** Three optional parameters after [p], each of which needs the one before, and what follows them. *)
Definition optional3 (p : pointer) : act (pointer * pointer * pointer * pointer) :=
  try! e1 := next p in
  match e1 with
  | [] => Fine ([], [], [], [])
  | _ :: e2 =>
      match e2 with
      | [] => Fine (e1, [], [], [])
      | _ :: e3 => Fine (e1, e2, e3, match e3 with [] => [] | _ :: d => d end)
      end
  end.

Definition get_cursoropen (ps : pointer) (parameterCount : Z) : act sp_args :=
  try! _ := minimum 2 parameterCount in
  try! _ := expect "Cursor handle" [TDS_TYPE_INTEGER] ps in
  try! q := next ps in
  try! _ := not_null "Query" q in
  try! _ := expect "Query" query_types q in
  try! e1 := next q in
  match e1 with
  | [] => Fine (mk_args q [] [] [] ps [] [] [] [])
  | _ :: e2 =>
      match e2 with
      | [] => Fine (mk_args q [] [] [] ps e1 [] [] [])
      | _ :: e3 =>
          try! m := next e3 in
          match m with
          | [] => Fine (mk_args q [] [] [] ps e1 e2 e3 [])
          | _ :: d =>
              try! meta := read_unicode m in
              Fine (mk_args q d [] [] ps e1 e2 e3 meta)
          end
      end
  end.

Definition get_cursorexec (ps : pointer) (parameterCount : Z) : act sp_args :=
  try! _ := minimum 2 parameterCount in
  try! _ := expect "Cursor prepared handle" [TDS_TYPE_INTEGER] ps in
  try! c := next ps in
  try! _ := not_null "Cursor handle" c in
  try! _ := expect "Cursor handle" [TDS_TYPE_INTEGER] c in
  try! ' (e1, e2, e3, d) := optional3 c in
  Fine (mk_args [] d [] ps c e1 e2 e3 []).

Definition get_cursorprepexec (ps : pointer) (parameterCount : Z) : act sp_args :=
  try! _ := minimum 3 parameterCount in
  try! _ := expect "Cursor prepared handle" [TDS_TYPE_INTEGER] ps in
  try! c := next ps in
  try! _ := not_null "Cursor handle" c in
  try! _ := expect "Cursor handle" [TDS_TYPE_INTEGER] c in
  try! m := next c in
  try! meta := read_unicode m in
  try! q := next m in
  try! _ := not_null "Query" q in
  try! _ := expect "Query" query_types q in
  try! ' (e1, e2, e3, d) := optional3 q in
  Fine (mk_args q d [] ps c e1 e2 e3 meta).

Definition get_cursorfetch (ps : pointer) (parameterCount : Z) : act sp_args :=
  try! _ := minimum 1 parameterCount in
  try! _ := expect "Cursor handle" [TDS_TYPE_INTEGER] ps in
  try! ' (e1, e2, e3, _) := optional3 ps in
  Fine (mk_args [] [] [] [] ps e1 e2 e3 []).

Definition get_cursorclose (ps : pointer) (parameterCount : Z) : act sp_args :=
  try! _ := minimum 1 parameterCount in
  try! _ := expect "Cursor handle" [TDS_TYPE_INTEGER] ps in
  Fine (mk_args [] [] [] [] ps [] [] [] []).

Definition get_cursorunprepare (ps : pointer) (parameterCount : Z) : act sp_args :=
  try! _ := minimum 1 parameterCount in
  try! _ := expect "Cursor prepared handle" [TDS_TYPE_INTEGER] ps in
  Fine (mk_args [] [] [] ps [] [] [] [] []).

(** The check of the value looks at the table again. *)
Definition get_cursor (ps : pointer) (parameterCount : Z) : act sp_args :=
  try! _ := minimum 4 parameterCount in
  try! _ := expect "Cursor handle" [TDS_TYPE_INTEGER] ps in
  try! e1 := next ps in
  try! _ := expect "optype" [TDS_TYPE_INTEGER] e1 in
  try! e2 := next e1 in
  try! _ := expect "rownum" [TDS_TYPE_INTEGER] e2 in
  try! e3 := next e2 in
  try! _ := expect "table" string_types e3 in
  try! d := next e3 in
  match d with
  | [] => Fine (mk_args [] [] [] [] ps e1 e2 e3 [])
  | _ => try! _ := expect "value" string_types e3 in Fine (mk_args [] d [] [] ps e1 e2 e3 [])
  end.

Definition get_cursoroption (ps : pointer) (parameterCount : Z) : act sp_args :=
  try! _ := minimum 3 parameterCount in
  try! _ := expect "Cursor handle" [TDS_TYPE_INTEGER] ps in
  try! e1 := next ps in
  try! _ := expect "code" [TDS_TYPE_INTEGER] e1 in
  try! e2 := next e1 in
  try! _ := expect "value" [TDS_TYPE_INTEGER] e2 in
  Fine (mk_args [] [] [] [] ps e1 e2 [] []).

(** Every way through it ends with an error.  The second check of the query asks for NVARCHAR, or for the
    handle to be NCHAR or NTEXT; the three optional parameters are one and the same. *)
Definition get_cursorprepare (ps : pointer) (parameterCount : Z) : act sp_args :=
  try! _ := minimum 4 parameterCount in
  try! _ := expect "Cursor prepared handle" [TDS_TYPE_INTEGER] ps in
  try! m := next ps in
  try! meta := read_unicode m in
  try! q := next m in
  try! _ := not_null "Query" q in
  try! _ := expect "Query" query_types q in
  try! x := deref q in
  try! _ := (if FetchDataTypeNameFromParameter x =? TDS_TYPE_NVARCHAR then Fine tt
             else expect "Query" [TDS_TYPE_NCHAR; TDS_TYPE_NTEXT] ps) in
  try! e := next q in
  try! _ := expect "options" [TDS_TYPE_INTEGER] e in
  try! _ := expect "scrollopt" [TDS_TYPE_INTEGER] e in
  try! _ := expect "ccopt" [TDS_TYPE_INTEGER] e in
  Fails rpc_not_supported.

Definition get_executesql (ps : pointer) (parameterCount : Z) : act sp_args :=
  try! _ := minimum 1 parameterCount in
  try! _ := expect "Query" query_types ps in
  match ps with
  | _ :: ((_ :: ((_ :: _) as d)) as m) => try! meta := read_unicode m in Fine (mk_args ps d [] [] [] [] [] [] meta)
  | _ => Fine (mk_args ps [] [] [] [] [] [] [] [])
  end.

(** [SP_PREPARE] and [SP_PREPEXEC]: without a declaration of parameters the query follows the handle. *)
Definition get_prepare (ps : pointer) (parameterCount : Z) : act sp_args :=
  try! _ := minimum 2 parameterCount in
  try! _ := expect "Handle" [TDS_TYPE_INTEGER] ps in
  try! m := next ps in
  match m with
  | _ :: ((_ :: d) as q) =>
      try! meta := read_unicode m in
      try! _ := expect "Query" query_types q in
      Fine (mk_args q d ps [] [] [] [] [] meta)
  | _ =>
      try! _ := expect "Query" query_types m in
      try! d := next m in
      Fine (mk_args m d ps [] [] [] [] [] [])
  end.

Definition get_execute (ps : pointer) (parameterCount : Z) : act sp_args :=
  try! _ := minimum 1 parameterCount in
  try! _ := expect "Handle" [TDS_TYPE_INTEGER] ps in
  try! d := next ps in
  Fine (mk_args [] d ps [] [] [] [] [] []).

Definition get_unprepare (ps : pointer) (parameterCount : Z) : act sp_args :=
  try! _ := minimum 1 parameterCount in
  Fine (mk_args [] [] ps [] [] [] [] [] []).

Definition get_customtype (ps : pointer) : act sp_args := Fine (mk_args [] ps [] [] [] [] [] [] []).

Definition get_args (spType : Z) (ps : pointer) : act sp_args :=
  let parameterCount := Z.of_nat (length ps) in
  if spType =? SP_CURSOROPEN then get_cursoropen ps parameterCount
  else if spType =? SP_CURSOREXEC then get_cursorexec ps parameterCount
  else if spType =? SP_CURSORPREPEXEC then get_cursorprepexec ps parameterCount
  else if spType =? SP_CURSORFETCH then get_cursorfetch ps parameterCount
  else if spType =? SP_CURSORCLOSE then get_cursorclose ps parameterCount
  else if spType =? SP_CURSORUNPREPARE then get_cursorunprepare ps parameterCount
  else if spType =? SP_CURSOR then get_cursor ps parameterCount
  else if spType =? SP_CURSOROPTION then get_cursoroption ps parameterCount
  else if spType =? SP_CURSORPREPARE then get_cursorprepare ps parameterCount
  else if spType =? SP_EXECUTESQL then get_executesql ps parameterCount
  else if (spType =? SP_PREPARE) || (spType =? SP_PREPEXEC) then get_prepare ps parameterCount
  else if spType =? SP_EXECUTE then get_execute ps parameterCount
  else if spType =? SP_PREPEXECRPC then Fails rpc_not_supported
  else if spType =? SP_UNPREPARE then get_unprepare ps parameterCount
  else if spType =? SP_CUSTOMTYPE then get_customtype ps
  else Fails rpc_name_invalid.

(** ** Output parameters and handles *)

Definition is_out (p : RpcParameter) : bool := Z.land (param_flags p) 0x01 =? 1.

(** The store of the output parameters in an array of [nOutParams] pointers, which is null when that
    is 0: one after the other, while the index is below the size of the array. *)
Fixpoint store_out (nOutParams idOutParam : Z) (ps : list RpcParameter) : act (list RpcParameter) :=
  match ps with
  | [] => Fine []
  | p :: ps =>
      if is_out p then
        if idOutParam <? nOutParams then
          try! a := store_out nOutParams (u16 (idOutParam + 1)) ps in Fine (p :: a)
        else Crash
      else store_out nOutParams idOutParam ps
  end.

(** The number of the parameters, of the output parameters, and the array of the latter. *)
Definition InitializeDataParamTokenIndex (dataParameter : pointer) : act (Z * Z * list RpcParameter) :=
  let nTotalParams := u16 (Z.of_nat (length dataParameter)) in
  let nOutParams := u16 (Z.of_nat (length (filter is_out dataParameter))) in
  try! a := store_out nOutParams 0 dataParameter in
  Fine (nTotalParams, nOutParams, a).

(** The four bytes where the data of the token is, whatever its length is. *)
Definition handle_at (p : pointer) : act Z :=
  try! x := deref p in
  try! _ := CheckMessageBounds (dataOffset (param_token x)) 4 msgLen in
  fetch_uint message (dataOffset (param_token x)) 4.

Definition GetSPHandleParameter (spType : Z) (handleParameter : pointer) : act Z :=
  if one_of spType [SP_EXECUTE; SP_UNPREPARE] then handle_at handleParameter else Fine SP_HANDLE_INVALID.

Definition GetSPCursorHandleParameter (spType : Z) (cursorHandleParameter : pointer) : act Z :=
  if one_of spType [SP_CURSORPREPEXEC; SP_CURSOREXEC; SP_CURSOROPEN] then Fine 0
  else if one_of spType [SP_CURSORFETCH; SP_CURSORCLOSE; SP_CURSOR; SP_CURSOROPTION] then
    try! h := handle_at cursorHandleParameter in
    if h =? SP_CURSOR_HANDLE_INVALID then Fails cursor_does_not_exist else Fine h
  else Fine SP_CURSOR_HANDLE_INVALID.

Definition GetSPCursorPreparedHandleParameter (spType : Z) (cursorPreparedHandleParameter : pointer) : act Z :=
  if one_of spType [SP_CURSOREXEC; SP_CURSORUNPREPARE; SP_CURSORPREPARE] then handle_at cursorPreparedHandleParameter
  else Fine SP_CURSOR_PREPARED_HANDLE_INVALID.

Section batch.
Variable tdsVersion : Z.
Variable TdsGetEncoding : Z -> Z.
Variable functionInfoCacheByTdsId : Z -> Z -> option TdsIoFunctionData.
Variable typename_typeschemaname : bytes -> bytes -> bytes * bytes.

(** The request before this one, of the same message when it left a call to do: [batchSeparatorOffset] and
    [messageLen]. *)
Definition RPCBatchExists (previous : option (Z * Z)) : option Z :=
  match previous with
  | Some (batchSeparatorOffset, messageLen) => if batchSeparatorOffset <? u64 messageLen then Some batchSeparatorOffset else None
  | None => None
  end.

Definition rpc_offset (previous : option (Z * Z)) : act Z :=
  try! offset := stream_offset tdsVersion message in
  Fine (match RPCBatchExists previous with Some o => o | None => u64 offset end).

(** The name, the number of the procedure, its options and the offset of the parameters. *)
Definition rpc_procedure (offset : Z) : act (bytes * Z * Z * Z) :=
  try! _ := CheckMessageBounds offset 2 msgLen in
  try! len := fetch_uint message offset 2 in
  let offset := offset + 2 in
  try! ' (name, spType, offset) :=
    (if negb (len =? 0xffff) then
       try! _ := CheckMessageBounds offset (2 * len) msgLen in
       try! name := fetch_utf16 message offset (2 * len) in
       Fine (name, SP_CUSTOMTYPE, offset + 2 * len)
     else
       try! _ := CheckMessageBounds offset 2 msgLen in
       try! spType := fetch_uint message offset 2 in
       Fine ([], spType, offset + 2)) in
  try! _ := CheckMessageBounds offset 2 msgLen in
  try! spFlags := fetch_uint message offset 2 in
  Fine (name, spType, spFlags, offset + 2).

(** From the parameters to the request. *)
Definition rpc_request (name : bytes) (spType spFlags : Z) (ps : list RpcParameter) (separator : Z) : act TDSRequestSP :=
  try! a := get_args spType ps in
  try! ' (total, out, idx) := InitializeDataParamTokenIndex (a_data a) in
  try! h := GetSPHandleParameter spType (a_handle a) in
  try! c := GetSPCursorHandleParameter spType (a_cursor a) in
  try! p := GetSPCursorPreparedHandleParameter spType (a_prepared a) in
  Fine (mk_sp spType spFlags name ps (a_query a) (a_data a) (a_handle a) (a_prepared a) (a_cursor a) (a_extra1 a) (a_extra2 a)
          (a_extra3 a) (a_meta a) total out idx h c p separator msgLen).

Definition GetRPCRequest (previous : option (Z * Z)) : act TDSRequestSP :=
  try! offset := rpc_offset previous in
  try! ' (name, spType, spFlags, offset) := rpc_procedure offset in
  try! ' (ps, separator) :=
    ReadParameters tdsVersion TdsGetEncoding functionInfoCacheByTdsId typename_typeschemaname message name offset in
  rpc_request name spType spFlags ps separator.

(** The calls of a message one after the other, the way the socket loop goes on while
    [RPCBatchExists] ([RestoreRPCBatch] puts the same message back). *)
Fixpoint rpc_batch (fuel : nat) (previous : option (Z * Z)) : act (list TDSRequestSP) :=
  match fuel with
  | O => Fails request_no_fuel
  | S fuel =>
      try! r := GetRPCRequest previous in
      match RPCBatchExists (Some (batchSeparatorOffset r, messageLen r)) with
      | Some _ => try! rs := rpc_batch fuel (Some (batchSeparatorOffset r, messageLen r)) in Fine (r :: rs)
      | None => Fine [r]
      end
  end.
End batch.
End request.
