(* ===== verification/TdsRequestSafety.v ===== *)
(** * TdsRequestSafety: reading a message stays inside of the message

    [safe bad m P]: the action [m] ends with a value that satisfies [P] or with an error for the client; an
    access outside of the message happens only when [bad] holds, and the fuel of the loops never runs out. *)
From stdpp Require Import base list numbers.
From S2P Require Import Prelude BitFacts Utf TdsColMeta TdsTypeRecv TdsRequest TdsTvp.
Open Scope Z_scope.

Definition safe {A} (bad : Prop) (m : act A) (P : A -> Prop) : Prop :=
  match m with
  | Fine a => P a
  | Fails e => e <> request_no_fuel
  | Crash => bad
  end.

Lemma safe_bind {A B} bad (m : act A) (k : A -> act B) (Q : A -> Prop) (P : B -> Prop) :
  safe bad m Q -> (forall a, Q a -> safe bad (k a) P) -> safe bad (act_bind m k) P.
Proof. destruct m; cbn; auto. Qed.

Lemma safe_mono {A} (bad bad' : Prop) (m : act A) (P Q : A -> Prop) :
  (bad -> bad') -> (forall a, P a -> Q a) -> safe bad m P -> safe bad' m Q.
Proof. destruct m; cbn; auto. Qed.

Lemma safe_if {A} bad (b : bool) (m n : act A) P :
  (b = true -> safe bad m P) -> (b = false -> safe bad n P) -> safe bad (if b then m else n) P.
Proof. destruct b; auto. Qed.

Lemma i8_range z : -128 <= i8 z < 128.
Proof. unfold i8, swrap. change (2 ^ 8) with 256. change (2 ^ (8 - 1)) with 128. div_lia. Qed.

Lemma i32_bounds z : - 2 ^ 31 <= i32 z < 2 ^ 31.
Proof. unfold i32, swrap. change (2 ^ 32) with 4294967296. change (2 ^ (32 - 1)) with 2147483648. change (2 ^ 31) with 2147483648. div_lia. Qed.

Lemma u32_range z : 0 <= u32 z < 2 ^ 32.
Proof. apply Z.mod_pos_bound. lia. Qed.

Create HintDb safe.

Lemma gtb_false a b : (a >? b) = false -> a <= b.
Proof. rewrite Z.gtb_ltb. apply Z.ltb_ge. Qed.

(** Takes the first action of a sequence with the facts of the database. *)
Ltac safe_step :=
  lazymatch goal with
  | |- safe _ (act_bind (Fine _) _) _ => cbn [act_bind]
  | |- safe _ (act_bind _ _) _ => eapply safe_bind; [solve [eauto with safe lia]|cbn beta; intros ? ?]
  | |- safe _ (if _ then _ else _) _ => apply safe_if; intros ?
  | |- safe _ (Fails _) _ => done
  | |- safe _ (match ?x with (_, _) => _ end) _ => destruct x as [? ?]
  end.
Ltac safe_steps := repeat (safe_step; cbn [fst snd] in *; repeat match goal with H : _ /\ _ |- _ => destruct H end).

Section message.
Context (message : bytes).
Local Notation msgLen := (Z.of_nat (length message)).
Hypothesis (Hb : Forall is_byte message) (Hlen : msgLen < 2 ^ 31).

Lemma fetch_fine off n : 0 <= off -> 0 <= n -> off + n <= msgLen ->
  fetch message off n = Fine (take (Z.to_nat n) (drop (Z.to_nat off) message)).
Proof. intros. unfold fetch. by rewrite !(proj2 (Z.leb_le _ _)) by lia. Qed.

Lemma fetch_ok bad off n : 0 <= off -> 0 <= n -> off + n <= msgLen ->
  safe bad (fetch message off n) (fun b => Z.of_nat (length b) = n /\ Forall is_byte b).
Proof.
  intros. rewrite fetch_fine by done. cbn [safe].
  rewrite length_take, length_drop. split; [lia|]. by apply Forall_take, Forall_drop.
Qed.

Lemma fetch_uint_ok bad off n : 0 <= off -> 0 <= n -> off + n <= msgLen ->
  safe bad (fetch_uint message off n) (fun v => 0 <= v < 256 ^ n).
Proof.
  intros. unfold fetch_uint. eapply safe_bind; [by apply fetch_ok|]. cbn. intros b [<- Hbb]. by apply le_val_bound.
Qed.

Lemma fetch_char_ok bad off : 0 <= off -> off + 1 <= msgLen -> safe bad (fetch_char message off) (fun c => -128 <= c < 128).
Proof.
  intros. unfold fetch_char. eapply safe_bind; [apply fetch_uint_ok; lia|]. cbn. intros b _. apply i8_range.
Qed.

Lemma fetch_utf16_ok bad off n : 0 <= off -> 0 <= n -> off + n <= msgLen -> safe bad (fetch_utf16 message off n) (fun _ => True).
Proof.
  intros. unfold fetch_utf16. eapply safe_bind; [by apply fetch_ok|]. cbn. intros b _.
  unfold of_utf. by destruct (TdsUTF16toUTF8StringInfo [] b).
Qed.

(** The check passes only for bytes of the message when nothing is negative. *)
Lemma bounds_ok bad off n : 0 <= off <= msgLen -> 0 <= n < 2 ^ 62 ->
  safe bad (CheckMessageBounds off n msgLen) (fun _ => off + n <= msgLen).
Proof.
  intros. unfold CheckMessageBounds. change (2 ^ 31) with 2147483648 in *. change (2 ^ 62) with 4611686018427387904 in *.
  rewrite !(u64_id off), !(u64_id n), !(u64_id msgLen), u64_id by lia.
  destruct (Z.gtb_spec (off + n) msgLen); cbn; [done|lia].
Qed.

Lemma checked_char_ok bad off : 0 <= off <= msgLen ->
  safe bad (checked_char message off) (fun c => -128 <= c < 128 /\ off + 1 <= msgLen).
Proof.
  intros. unfold checked_char. eapply safe_bind; [apply bounds_ok; lia|]. cbn. intros _ ?.
  eapply safe_mono; [done| |apply fetch_char_ok; lia]. cbn. auto.
Qed.

Lemma checked_uint_ok bad off n : 0 <= off <= msgLen -> 0 <= n < 2 ^ 62 ->
  safe bad (checked_uint message off n) (fun v => 0 <= v < 256 ^ n /\ off + n <= msgLen).
Proof.
  intros. unfold checked_uint. eapply safe_bind; [by apply bounds_ok|]. cbn. intros _ ?.
  eapply safe_mono; [done| |apply fetch_uint_ok; lia]. cbn. auto.
Qed.

(** A chunk is a part of the message. *)
Definition chunk_in (c : Plp) : Prop := 0 <= plp_offset c /\ 0 <= plp_len c /\ plp_offset c + plp_len c <= msgLen.

Lemma message_uint_range off n : 0 <= n -> 0 <= message_uint message off n < 256 ^ n.
Proof.
  intros. unfold message_uint.
  pose proof (le_val_bound (take (Z.to_nat n) (drop (Z.to_nat off) message)) ltac:(by apply Forall_take, Forall_drop)) as Hv.
  rewrite length_take in Hv. split; [lia|]. eapply Z.lt_le_trans; [apply Hv|]. apply Z.pow_le_mono_r; lia.
Qed.

Lemma read_chunks_in fuel : forall off k l o k', 0 <= off -> read_chunks fuel message off k = Some (l, o, k') ->
  off + 4 <= o <= msgLen /\ Forall chunk_in l.
Proof.
  induction fuel as [|fuel IH]; intros off k l o k' Hoff; [done|]. cbn [read_chunks].
  destruct (Z.gtb_spec (off + 4) msgLen) as [|Hin]; [done|].
  pose proof (message_uint_range off 4 ltac:(lia)) as Hv.
  destruct (message_uint message off 4 =? PLP_TERMINATOR); [intros [= <- <- <-]; split; [lia|done]|].
  destruct (Z.gtb_spec (off + 4 + message_uint message off 4) msgLen); [done|].
  destruct (read_chunks fuel message _ _) as [[[l1 o1] k1]|] eqn:E; [|done]. apply IH in E; [|lia].
  intros [= <- <- <-]. destruct E. split; [lia|]. constructor; [|done]. unfold chunk_in. cbn. lia.
Qed.

(** The rounds are enough: more of them read the same. *)
Lemma read_chunks_fuel fuel : forall fuel' off k, msgLen - off <= Z.of_nat fuel -> (fuel <= fuel')%nat ->
  (0 < fuel)%nat -> 0 <= off -> read_chunks fuel' message off k = read_chunks fuel message off k.
Proof.
  induction fuel as [|fuel IH]; intros fuel' off k Hf Hle Hpos Hoff; [lia|]. destruct fuel' as [|fuel']; [lia|].
  cbn [read_chunks]. destruct (Z.gtb_spec (off + 4) msgLen) as [|Hin]; [done|].
  pose proof (message_uint_range off 4 ltac:(lia)) as Hv.
  destruct (message_uint message off 4 =? PLP_TERMINATOR) eqn:Ez; [done|].
  destruct (Z.gtb_spec (off + 4 + message_uint message off 4) msgLen); [done|].
  destruct fuel as [|fuel]; [lia|]. rewrite (IH fuel') by lia. done.
Qed.

Lemma ReadPlp_in temp off temp' o : 0 <= off -> ReadPlp temp message off = Some (temp', o) ->
  off + 8 <= o <= msgLen /\ Forall chunk_in (plp temp') /\ dataOffset temp' = dataOffset temp /\ len temp' = len temp /\
  maxLen temp' = maxLen temp /\ (isNull temp = true -> isNull temp' = true).
Proof.
  intros Hoff. unfold ReadPlp. destruct (Z.gtb_spec (off + 8) msgLen); [done|].
  destruct (_ =? PLP_NULL); [intros [= <- <-]; cbn; repeat split; (lia || done)|].
  destruct (read_chunks _ _ _ _) as [[[l o1] k]|] eqn:E; [|done]. apply read_chunks_in in E as [? ?]; [|lia]. cbn.
  destruct (_ && _); [done|]. intros [= <- <-]. cbn. repeat split; (lia || done).
Qed.

(** ** Tables *)

Local Hint Resolve fetch_ok fetch_uint_ok fetch_char_ok fetch_utf16_ok bounds_ok checked_char_ok checked_uint_ok : safe.

Variable TdsGetEncoding : Z -> Z.

(** A column whose longest value has a length that is negative as an [int]. *)
Definition negative_column : Prop :=
  exists off c o, tvp_column_meta message TdsGetEncoding off = Fine (c, o) /\ 2 ^ 31 <= tvp_maxLen c.

Lemma enlarge_ok bad len : safe bad (enlarge len) (fun _ => True).
Proof. unfold enlarge. by destruct (_ && _). Qed.
Local Hint Resolve enlarge_ok : safe.

Lemma tvp_value_ok bad c len off : tvp_maxLen c < 2 ^ 31 \/ bad -> - 2 ^ 31 <= len < 2 ^ 31 -> 0 <= off <= msgLen ->
  safe bad (tvp_value message c len off)
    (fun x => off <= x.2 <= msgLen /\ len = Z.of_nat (length x.1) /\ len <= tvp_maxLen c).
Proof.
  intros Hc Hl Hoff. unfold tvp_value. change (2 ^ 31) with 2147483648 in *.
  destruct (decide (0 <= len)).
  - rewrite u32_id, u64_id by lia. safe_steps. cbn in *.
    match goal with H : (len >? _) = false |- _ => apply gtb_false in H end.
    rewrite u64_id by lia. split_and!; lia.
  - assert (u32 len = len + 4294967296) as Eu32 by (unfold u32, uwrap; change (2 ^ 32) with 4294967296; div_lia).
    assert (u64 len = len + 18446744073709551616) as Eu64 by (unfold u64, uwrap; change (2 ^ 64) with 18446744073709551616; div_lia).
    rewrite Eu32, Eu64. destruct (Z.gtb_spec (len + 4294967296) (tvp_maxLen c)); cbn; [done|].
    destruct Hc as [?|Hbad]; [lia|]. unfold enlarge. replace (len >? 1024) with false by (symmetry; rewrite Z.gtb_ltb; apply Z.ltb_ge; lia). cbn.
    unfold CheckMessageBounds. destruct (_ >? _); cbn; [done|]. unfold fetch.
    rewrite (proj2 (Z.leb_gt (off + _) msgLen)) by lia. by rewrite andb_false_r.
Qed.

(** After a value of a row the offset is behind it, in the message. *)
Definition value_ok (off : Z) (x : option bytes * Z) : Prop := off <= x.2 <= msgLen.

Lemma tvp_plp_ok bad c off : 0 <= off -> safe bad (tvp_plp message c off) (value_ok off).
Proof.
  intros. unfold tvp_plp, value_ok. destruct (ReadPlp _ _ _) as [[t o]|] eqn:E; [|done]. apply ReadPlp_in in E as (? & _); [|done].
  destruct (isNull t); cbn; lia.
Qed.

Lemma tvp_sized_ok bad c off len : tvp_maxLen c < 2 ^ 31 \/ bad -> - 2 ^ 31 <= len < 2 ^ 31 -> 0 <= off <= msgLen ->
  safe bad (try! ' (v, offset) := tvp_value message c len off in Fine (Some v, offset)) (value_ok off).
Proof.
  intros. eapply safe_bind; [by apply tvp_value_ok|]. intros [v o]. cbn. unfold value_ok. cbn. lia.
Qed.

Lemma tvp_column_ok bad c off : tvp_maxLen c < 2 ^ 31 \/ bad -> 0 <= off <= msgLen ->
  safe bad (tvp_column message c off) (value_ok off).
Proof.
  intros Hc Hoff. unfold tvp_column. cbv zeta. pose proof i32_bounds.
  assert (forall o, off <= o <= msgLen -> safe bad (Fine (None, o)) (value_ok off)) as Hnull by done.
  assert (forall o l, - 2 ^ 31 <= l < 2 ^ 31 -> off <= o <= msgLen ->
    safe bad (try! ' (v, offset) := tvp_value message c l o in Fine (Some v, offset)) (value_ok off)) as Hsized.
  { intros. eapply safe_mono; [done| |apply tvp_sized_ok; (done || lia)]. unfold value_ok. lia. }
  repeat (apply safe_if; intros _); try (apply tvp_plp_ok; lia); try done; try (unfold value_ok; cbn; lia).
  all: eapply safe_bind; [solve [eauto with safe lia]|]; cbn beta; intros l [? ?];
    apply safe_if; intros _; [apply Hnull|apply Hsized]; auto; lia.
Qed.

Lemma tvp_columns_ok bad cols : forall off, Forall (fun c => tvp_maxLen c < 2 ^ 31 \/ bad) cols -> 0 <= off <= msgLen ->
  safe bad (tvp_columns message cols off) (fun x => off <= x.2 <= msgLen /\ length x.1 = length cols).
Proof.
  induction cols as [|c cols IH]; intros off Hc Hoff; cbn [tvp_columns]; [cbn; lia|]. inversion_clear Hc.
  eapply safe_bind; [by apply tvp_column_ok|]. intros [v o]. cbn. unfold value_ok. cbn. intros Ho.
  eapply safe_bind; [apply IH; [done|lia]|]. intros [vs o']. cbn. lia.
Qed.

Lemma tvp_rows_ok bad cols fuel : forall off, Forall (fun c => tvp_maxLen c < 2 ^ 31 \/ bad) cols -> 0 <= off <= msgLen ->
  msgLen - off < Z.of_nat fuel ->
  safe bad (tvp_rows message fuel cols off) (fun x => off <= x.2 <= msgLen /\ Forall (fun r => length r = length cols) x.1).
Proof.
  induction fuel as [|fuel IH]; intros off Hc Hoff Hf; cbn [tvp_rows]; [lia|].
  eapply safe_bind; [by apply checked_char_ok|]. cbn. intros t [_ ?]. apply safe_if; intros _; [|cbn; split; [lia|constructor]].
  eapply safe_bind; [apply tvp_columns_ok; (done || lia)|]. intros [row o]. cbn. intros [? ?].
  eapply safe_bind; [apply IH; (done || lia)|]. intros [rows o']. cbn. intros [? ?]. split; [lia|by constructor].
Qed.

Lemma SetTvpRowData_ok bad cols off : Forall (fun c => tvp_maxLen c < 2 ^ 31 \/ bad) cols -> 0 <= off <= msgLen ->
  safe bad (SetTvpRowData message cols off) (fun x => off < x.2 <= msgLen /\ Forall (fun r => length r = length cols) x.1).
Proof.
  intros. unfold SetTvpRowData. eapply safe_bind; [apply tvp_rows_ok; (done || lia)|]. intros [rows o]. cbn. intros [? ?].
  eapply safe_bind; [apply checked_char_ok; (done || lia)|]. cbn. intros t [_ ?]. apply safe_if; intros _; cbn; [split; [lia|done]|done].
Qed.

Lemma tvp_type_info_ok bad t off : 0 <= off <= msgLen ->
  safe bad (tvp_type_info message TdsGetEncoding t off) (fun x => off <= x.2 <= msgLen).
Proof.
  intros Hoff. unfold tvp_type_info. repeat (apply safe_if; intros _); safe_steps; try (cbn; lia).
Qed.

Lemma tvp_column_meta_ok bad off : 0 <= off <= msgLen ->
  safe bad (tvp_column_meta message TdsGetEncoding off) (fun x => off < x.2 <= msgLen).
Proof.
  intros Hoff. unfold tvp_column_meta. apply safe_if; intros Hu; [done|]. apply gtb_false in Hu. cbv zeta. safe_steps.
  eapply safe_bind; [apply tvp_type_info_ok; lia|]. intros [[[[[? ?] ?] ?] ?] o]. cbn. intros Ho. safe_steps. cbn. lia.
Qed.

Lemma tvp_metas_ok n : forall bad off, (negative_column -> bad) -> 0 <= off <= msgLen ->
  safe bad (tvp_metas message TdsGetEncoding n off)
    (fun x => off <= x.2 <= msgLen /\ Forall (fun c => tvp_maxLen c < 2 ^ 31 \/ bad) x.1).
Proof.
  induction n as [|n IH]; intros bad off Hbad Hoff; cbn [tvp_metas]; [cbn; split; [lia|constructor]|].
  pose proof (tvp_column_meta_ok False off Hoff) as Hm.
  destruct (tvp_column_meta message TdsGetEncoding off) as [[c o]| |] eqn:E; cbn in Hm |- *; [|done..].
  eapply safe_bind; [apply IH; [done|lia]|]. intros [cs o']. cbn. intros [? ?]. split; [lia|]. constructor; [|done].
  destruct (decide (tvp_maxLen c < 2 ^ 31)); [by left|]. right. apply Hbad. exists off, c, o. split; [done|lia].
Qed.

Variable typename_typeschemaname : bytes -> bytes * bytes.

Lemma tvp_name_part_ok bad off : 0 <= off <= msgLen -> safe bad (tvp_name_part message off) (fun x => off < x.2 <= msgLen /\ 0 <= x.1.2).
Proof.
  intros Hoff. unfold tvp_name_part. eapply safe_bind; [by apply checked_char_ok|]. cbn beta zeta. intros c [_ ?].
  assert (0 <= u8 c < 256) by (apply Z.mod_pos_bound; lia).
  apply safe_if; intros _; [cbn; lia|]. safe_steps. cbn. lia.
Qed.

Lemma tvp_type_name_ok bad p off : 0 <= off <= msgLen ->
  safe bad (tvp_type_name message typename_typeschemaname p off) (fun x => off < x.2 <= msgLen /\ 0 <= x.1.2).
Proof.
  intros Hoff. unfold tvp_type_name. eapply safe_bind; [by apply checked_char_ok|]. cbn beta. intros c [_ ?]. apply safe_if; intros _; [done|].
  eapply safe_bind; [apply tvp_name_part_ok; lia|]. intros [[schema n] o]. cbn. intros [? ?].
  eapply safe_bind; [apply tvp_name_part_ok; lia|]. intros [[name n'] o']. cbn. intros [? ?].
  destruct name; [cbn; lia|]. destruct (typename_typeschemaname p). cbn. lia.
Qed.

Lemma tvp_colmetadata_ok bad off : (negative_column -> bad) -> 0 <= off <= msgLen ->
  safe bad (tvp_colmetadata message TdsGetEncoding off)
    (fun x => off < x.2 <= msgLen /\ Forall (fun c => tvp_maxLen c < 2 ^ 31 \/ bad) x.1.1).
Proof.
  intros Hbad Hoff. unfold tvp_colmetadata. safe_steps; [cbn; split; [lia|constructor]|].
  eapply safe_bind; [apply tvp_metas_ok; [done|lia]|]. intros [cols o]. cbn. intros [? ?]. safe_steps. cbn. split; [lia|done].
Qed.

(** A table is read inside of the message unless one of its columns has a negative length. *)
Lemma SetColMetadataForTvp_ok bad p off : (negative_column -> bad) -> 0 <= off <= msgLen ->
  safe bad (SetColMetadataForTvp message TdsGetEncoding typename_typeschemaname p off)
    (fun x => off < x.2 <= msgLen /\ 0 <= x.1.1.2 /\ Forall (fun r => length r = length (colMetaData x.1.1.1)) (rowData x.1.1.1)).
Proof.
  intros Hbad Hoff. unfold SetColMetadataForTvp. eapply safe_bind; [by apply tvp_type_name_ok|].
  intros [[[schema name] n] o]. cbn. intros [? ?].
  eapply safe_bind; [apply tvp_colmetadata_ok; [done|lia]|]. intros [[cols null] o']. cbn. intros [? ?].
  safe_steps. eapply safe_bind; [apply SetTvpRowData_ok; [done|lia]|]. intros [rows o'']. cbn. intros [? ?]. split_and!; [lia..|done].
Qed.
End message.
