(* ===== verification/TdsRpcSafety.v ===== *)
(** * TdsRpcSafety: the parameters of a call lie in the message

    [ReadParameters] and [GetRPCRequest] against messages of any content. *)
From Stdlib Require Import String.
From stdpp Require Import base list numbers.
From S2P Require Import Prelude BitFacts Utf TdsColMeta TdsTypeRecv TdsRequest TdsTvp TdsRpc TdsRpcRequest TdsRequestSafety.
Open Scope Z_scope.

(** The data of a token, and its chunks, are parts of the message; a NULL has no data. *)
Definition token_in (message : bytes) (t : ParameterToken) : Prop :=
  0 <= dataOffset t /\ 0 <= len t /\ dataOffset t + len t <= Z.of_nat (length message) /\
  Forall (chunk_in message) (plp t) /\ (isNull t = true -> len t = 0).

Definition param_in (message : bytes) (p : RpcParameter) : Prop := tvpInfo p = None -> token_in message (param_token p).

(** ** The array of the output parameters *)

Lemma store_out_ok n ps : forall i, 0 <= i -> i + Z.of_nat (length (filter is_out ps)) <= n -> n < 2 ^ 16 ->
  store_out n i ps = Fine (filter is_out ps).
Proof.
  induction ps as [|p ps IH]; intros i Hi Hn Hmax; [done|]. cbn [store_out]. rewrite filter_cons in Hn |- *.
  destruct (is_out p) eqn:E; [|rewrite decide_False in Hn |- * by (rewrite ?E; naive_solver); by apply IH].
  rewrite decide_True in Hn |- * by (rewrite ?E; naive_solver). cbn [length] in Hn. change (2 ^ 16) with 65536 in *.
  rewrite (proj2 (Z.ltb_lt i n)), u16_id by lia. rewrite IH by lia. done.
Qed.

(** More output parameters than the array has places for. *)
Lemma store_out_over n ps : forall i, 0 <= i <= n -> n < 2 ^ 16 -> n < i + Z.of_nat (length (filter is_out ps)) ->
  store_out n i ps = Crash.
Proof.
  induction ps as [|p ps IH]; intros i Hi Hmax Hn; [cbn in Hn; lia|]. cbn [store_out]. rewrite filter_cons in Hn.
  destruct (is_out p) eqn:E; [|rewrite decide_False in Hn by (rewrite ?E; naive_solver); by apply IH].
  rewrite decide_True in Hn by (rewrite ?E; naive_solver). cbn [length] in Hn. change (2 ^ 16) with 65536 in *.
  destruct (Z.ltb_spec i n); [|done]. rewrite u16_id, IH by lia. done.
Qed.

Lemma outputs_over ps : 65536 <= Z.of_nat (length (filter is_out ps)) -> InitializeDataParamTokenIndex ps = Crash.
Proof.
  intros Hn. unfold InitializeDataParamTokenIndex. cbv zeta.
  assert (forall z, 0 <= u16 z < 65536) as Hu by (intros; by apply Z.mod_pos_bound).
  pose proof (Hu (Z.of_nat (length (filter is_out ps)))) as Hm. set (m := u16 _) in Hm |- *. clearbody m.
  by rewrite store_out_over; [|lia|change (2 ^ 16) with 65536; lia|lia].
Qed.

Lemma outputs_fine ps : Z.of_nat (length (filter is_out ps)) < 65536 ->
  InitializeDataParamTokenIndex ps = Fine (u16 (Z.of_nat (length ps)), Z.of_nat (length (filter is_out ps)), filter is_out ps).
Proof.
  intros Hn. unfold InitializeDataParamTokenIndex. cbv zeta. rewrite (u16_id (Z.of_nat (length (filter is_out ps)))) by lia. by rewrite store_out_ok by lia.
Qed.

Section message.
Context (message : bytes).
Local Notation msgLen := (Z.of_nat (length message)).
Hypothesis (Hb : Forall is_byte message) (Hlen : msgLen < 2 ^ 31).

Local Hint Resolve fetch_ok fetch_uint_ok fetch_char_ok fetch_utf16_ok bounds_ok checked_char_ok checked_uint_ok : safe.

Context (tdsVersion : Z) (TdsGetEncoding : Z -> Z) (functionInfoCacheByTdsId : Z -> Z -> option TdsIoFunctionData).
Context (typename_typeschemaname : bytes -> bytes -> bytes * bytes).

Local Hint Resolve u32_range : safe.

Definition value_in (off : Z) (x : value * Z) : Prop :=
  off < x.2 <= msgLen /\ (value_table x.1 = None -> token_in message (value_token x.1)).
Definition token_end (off : Z) (x : ParameterToken * Z) : Prop := off <= x.2 <= msgLen /\ token_in message x.1.

Lemma CheckForInvalidLength_ok bad t l m : safe bad (CheckForInvalidLength t l m) (fun _ => l <= m).
Proof. unfold CheckForInvalidLength. destruct (Z.gtb_spec l m); cbn; [done|lia]. Qed.

Lemma data_at_ok bad off l m (null : bool) s : 0 <= off <= msgLen -> 0 <= l < 2 ^ 32 -> (null = true -> l = 0) ->
  safe bad (data_at message off l m null s) (token_end off).
Proof.
  intros. unfold data_at. eapply safe_bind; [apply bounds_ok; lia|]. cbn. intros _ ?. unfold token_end, token_in. cbn.
  split_and!; (lia || done || constructor).
Qed.

Lemma plp_at_ok bad t off m : 0 <= off -> safe bad (plp_at message t off m) (fun x => token_end off x /\ off < x.2).
Proof.
  intros. unfold plp_at. destruct (ReadPlp _ _ _) as [[t' o]|] eqn:E; [|done]. apply ReadPlp_in in E; [|done..]. cbn in *.
  unfold token_end, token_in. cbn. destruct E as (? & ? & -> & -> & _). split_and!; (lia || done).
Qed.

Lemma collation_ok bad off : 0 <= off -> off + 5 <= msgLen -> safe bad (collation_and_sort TdsGetEncoding message off) (fun _ => True).
Proof. intros. unfold collation_and_sort. safe_steps. cbn. done. Qed.

Lemma char_meta_ok bad t off : 0 <= off -> safe bad (GetSetColMetadataForCharType TdsGetEncoding message t off) (fun x => x.2 = off + 7 /\ off + 7 <= msgLen).
Proof.
  intros. unfold GetSetColMetadataForCharType. apply safe_if; intros Hu; [done|]. apply gtb_false in Hu. safe_steps.
  eapply safe_bind; [apply collation_ok; lia|]. intros [[? ?] ?] _. cbn. lia.
Qed.

Lemma text_meta_ok bad t off : 0 <= off -> safe bad (GetSetColMetadataForTextType TdsGetEncoding message t off) (fun x => x.2 = off + 9 /\ off + 9 <= msgLen).
Proof.
  intros. unfold GetSetColMetadataForTextType. apply safe_if; intros Hu; [done|]. apply gtb_false in Hu. safe_steps.
  eapply safe_bind; [apply collation_ok; lia|]. intros [[? ?] ?] _. cbn. lia.
Qed.

(** The end of most cases. *)
Lemma value_end bad off o l m (null : bool) s t meta : 0 <= off < o -> o <= msgLen -> 0 <= l < 2 ^ 32 -> (null = true -> l = 0) ->
  safe bad (try! ' (token, offset) := data_at message o l m null s in Fine (mk_value t token meta None, offset)) (value_in off).
Proof.
  intros. eapply safe_bind; [apply data_at_ok; (done || lia)|]. intros [tok o'] [? ?]. cbn in *. unfold value_in. cbn. split; [lia|done].
Qed.
Lemma plp_end bad off o m t t' meta : 0 <= off <= o ->
  safe bad (try! ' (token, offset) := plp_at message t o m in Fine (mk_value t' token meta None, offset)) (value_in off).
Proof.
  intros. eapply safe_bind; [apply plp_at_ok; lia|]. intros [tok o'] [[? ?] ?]. cbn in *. unfold value_in. cbn. split; [lia|done].
Qed.
Local Hint Resolve CheckForInvalidLength_ok char_meta_ok text_meta_ok : safe.

Lemma null_len (null : bool) l : 0 <= l < 2 ^ 32 -> 0 <= (if null then 0 else l) < 2 ^ 32 /\ (null = true -> (if null then 0 else l) = 0).
Proof. destruct null; lia. Qed.
Ltac finish := match goal with
  | |- safe _ (act_bind (data_at _ _ (if ?n then 0 else ?l) _ _ _) _) _ =>
      destruct (null_len n l ltac:(lia)); apply value_end; (done || lia)
  | |- safe _ (act_bind (data_at _ _ _ _ (?l =? 0) _) _) _ => apply value_end; [lia|lia|apply u32_range|apply Z.eqb_eq]
  | |- safe _ (act_bind (plp_at _ _ _ _) _) _ => apply plp_end; lia
  end.

Lemma read_text_ok bad t f off : 0 <= off <= msgLen -> safe bad (read_text TdsGetEncoding message t f off) (value_in off).
Proof.
  intros. unfold read_text. apply safe_if; intros _; [done|]. eapply safe_bind; [apply text_meta_ok; lia|].
  intros [[m meta] o]. cbn. intros [-> ?]. safe_steps. finish.
Qed.

Lemma read_image_ok bad t f off : 0 <= off <= msgLen -> safe bad (read_image message t f off) (value_in off).
Proof. intros. unfold read_image. apply safe_if; intros _; [done|]. cbv zeta. safe_steps. finish. Qed.

Lemma read_char_ok bad t off : 0 <= off <= msgLen -> safe bad (read_string TdsGetEncoding message t off) (value_in off).
Proof.
  intros. unfold read_string. eapply safe_bind; [apply char_meta_ok; lia|]. intros [[m meta] o]. cbn. intros [-> ?].
  apply safe_if; intros _; [finish|]. apply safe_if; intros Hu; [done|]. apply gtb_false in Hu. safe_steps.
  match goal with H : _ = false |- _ => apply gtb_false in H end.
  match goal with |- context [if ?n then 0 else ?l] => destruct (null_len n l ltac:(lia)) end.
  cbn. unfold value_in, token_in. cbn. split; [lia|]. intros _. split_and!; (lia || done || constructor).
Qed.

Lemma read_fixed_ok bad t off : 0 <= off <= msgLen -> safe bad (read_fixed message t off) (value_in off).
Proof. intros. unfold read_fixed. cbv zeta. safe_steps. finish. Qed.

Lemma read_binary_ok bad t off : 0 <= off <= msgLen -> safe bad (read_binary message t off) (value_in off).
Proof. intros. unfold read_binary. cbv zeta. safe_steps; finish. Qed.

Lemma read_date_ok bad t off : 0 <= off <= msgLen -> safe bad (read_date message t off) (value_in off).
Proof. intros. unfold read_date. cbv zeta. safe_steps. finish. Qed.

Lemma read_time_ok bad t off : 0 <= off <= msgLen -> safe bad (read_time message t off) (value_in off).
Proof. intros. unfold read_time. cbv zeta. safe_steps. finish. Qed.

Lemma read_numeric_ok bad t off : 0 <= off <= msgLen -> safe bad (read_numeric message t off) (value_in off).
Proof. intros. unfold read_numeric. cbv zeta. safe_steps. finish. Qed.

Lemma read_xml_ok bad t off : 0 <= off <= msgLen -> safe bad (read_xml message t off) (value_in off).
Proof. intros. unfold read_xml. safe_steps. finish. Qed.

Lemma read_clrudt_ok bad t off : 0 <= off <= msgLen -> safe bad (read_clrudt message t off) (value_in off).
Proof. intros. unfold read_clrudt. cbv zeta. safe_steps; destruct (same_word _ "geometry"); finish. Qed.

Lemma read_table_ok bad n p off : (negative_column message TdsGetEncoding -> bad) -> 0 <= off <= msgLen ->
  safe bad (read_table TdsGetEncoding typename_typeschemaname message n p off) (value_in off).
Proof.
  intros. unfold read_table. eapply safe_bind; [by apply SetColMetadataForTvp_ok|]. intros [[[tab k] null] o]. cbn.
  intros (? & _). unfold value_in. cbn. split; [lia|done].
Qed.

Lemma read_param_value_ok bad n p t f off : (negative_column message TdsGetEncoding -> bad) -> 0 <= off <= msgLen ->
  safe bad (read_param_value TdsGetEncoding typename_typeschemaname message n p t f off) (value_in off).
Proof.
  intros. unfold read_param_value.
  apply safe_if; intros _; [by apply read_text_ok|]. apply safe_if; intros _; [by apply read_image_ok|].
  apply safe_if; intros _; [by apply read_char_ok|]. apply safe_if; intros _; [by apply read_fixed_ok|].
  apply safe_if; intros _; [by apply read_table_ok|]. apply safe_if; intros _; [by apply read_binary_ok|].
  apply safe_if; intros _; [by apply read_date_ok|]. apply safe_if; intros _; [by apply read_time_ok|].
  apply safe_if; intros _; [by apply read_numeric_ok|]. apply safe_if; intros _; [by apply read_xml_ok|].
  apply safe_if; intros _; [by apply read_clrudt_ok|]. done.
Qed.

Lemma read_param_name_ok bad off : 0 <= off <= msgLen -> safe bad (read_param_name message off) (fun x => off < x.2 <= msgLen).
Proof.
  intros. unfold read_param_name. safe_steps; [|cbn; lia].
  match goal with H : _ = true |- _ => apply Z.gtb_lt in H end. safe_steps. cbn. lia.
Qed.

Lemma lookup_ok bad t l : safe bad (TdsLookupTypeFunctionsByTdsId functionInfoCacheByTdsId t l) (fun _ => True).
Proof. unfold TdsLookupTypeFunctionsByTdsId. by repeat case_match. Qed.

Local Notation bad := (negative_column message TdsGetEncoding).
Local Notation read_parameter := (read_parameter TdsGetEncoding functionInfoCacheByTdsId typename_typeschemaname message).

Lemma read_parameter_ok n k off : 0 <= off <= msgLen ->
  safe bad (read_parameter n k off) (fun x => off < x.2 <= msgLen /\ param_in message x.1).
Proof.
  intros. unfold TdsRpc.read_parameter. eapply safe_bind; [by apply read_param_name_ok|]. intros [nm o]. cbn. intros ?. safe_steps.
  eapply safe_bind; [apply read_param_value_ok; [done|lia]|]. intros [v o']. cbn. intros [? ?]. cbn in *.
  eapply safe_bind; [apply lookup_ok|]. cbn. split; [lia|done].
Qed.

(** What [ReadParameters] gives: parameters in the message, and the start of another call, behind a
    separator, or the end. *)
Definition parameters_in (off : Z) (x : list RpcParameter * Z) : Prop :=
  off <= x.2 <= msgLen /\ Forall (param_in message) x.1 /\
  (x.2 < msgLen -> off < x.2 /\ message !! Z.to_nat (x.2 - 1) = Some (GetRpcBatchSeparator tdsVersion)).

Lemma byte_fetched off b : 0 <= off < msgLen -> fetch_uint message off 1 = Fine b -> message !! Z.to_nat off = Some b.
Proof.
  intros Hoff. unfold fetch_uint, fetch. rewrite !(proj2 (Z.leb_le _ _)) by lia. cbn.
  destruct (lookup_lt_is_Some_2 message (Z.to_nat off)) as [x Hx]; [lia|]. rewrite (drop_S _ _ _ Hx). cbn. intros [= <-]. etrans; [exact Hx|]. f_equal. lia.
Qed.

Lemma read_parameters_ok fuel : forall n k off, 0 <= off <= msgLen -> msgLen - off < Z.of_nat fuel ->
  safe bad (read_parameters tdsVersion TdsGetEncoding functionInfoCacheByTdsId typename_typeschemaname message fuel n k off) (parameters_in off).
Proof.
  induction fuel as [|fuel IH]; intros n k off Hoff Hf; cbn [read_parameters]; [lia|].
  destruct (Z.ltb_spec off msgLen) as [Hlt|]; [|cbn; unfold parameters_in; cbn; split_and!; [lia..|done|lia]].
  destruct (fetch_uint message off 1) as [b| |] eqn:E; cbn.
  2,3: pose proof (fetch_uint_ok message Hb False off 1 ltac:(lia) ltac:(lia) ltac:(lia)) as Hx; by rewrite E in Hx.
  destruct (Z.eqb_spec b (GetRpcBatchSeparator tdsVersion)) as [->|].
  - cbn. unfold parameters_in. cbn. split_and!; [lia..|done|]. intros _. split; [lia|]. rewrite Z.add_simpl_r. apply byte_fetched; [lia|done].
  - eapply safe_bind; [apply read_parameter_ok; lia|]. intros [p o]. cbn. intros [? ?].
    eapply safe_bind; [apply IH; lia|]. intros [ps o']. cbn. unfold parameters_in. cbn. intros (? & ? & Hs).
    split_and!; [lia..|by constructor|]. intros ?. destruct Hs as [? ?]; [done|]. split; [lia|done].
Qed.

Lemma ReadParameters_ok n off : 0 <= off <= msgLen ->
  safe bad (ReadParameters tdsVersion TdsGetEncoding functionInfoCacheByTdsId typename_typeschemaname message n off) (parameters_in off).
Proof. intros. apply read_parameters_ok; lia. Qed.

(** ** The numbered procedures *)

Section args.
Variable bad' : Prop.
Definition good (p : RpcParameter) : Prop := param_in message p /\ (tvpInfo p <> None -> bad').

Lemma read_unicode_ok p ps : good p -> safe bad' (read_unicode message (p :: ps)) (fun _ => True).
Proof.
  intros [Hp Ht]. unfold read_unicode. cbn. apply safe_if; intros _.
  { unfold of_utf. by destruct (TdsUTF16toUTF8StringInfo _ _). }
  destruct (tvpInfo p) eqn:E.
  - unfold fetch_utf16, fetch. destruct (_ && _); cbn; [|by apply Ht]. unfold of_utf. by destruct (TdsUTF16toUTF8StringInfo _ _).
  - destruct (Hp E) as (? & ? & ? & _). by apply fetch_utf16_ok.
Qed.

Lemma act_bind_assoc {A B C} (m : act A) (k : A -> act B) (k' : B -> act C) :
  act_bind (act_bind m k) k' = act_bind m (fun a => act_bind (k a) k').
Proof. by destruct m. Qed.

Lemma minimum_ok n c : safe bad' (minimum n c) (fun _ => n <= c).
Proof. unfold minimum. destruct (Z.ltb_spec c n); cbn; [done|lia]. Qed.
Lemma expect_ok w ts p ps : safe bad' (expect w ts (p :: ps)) (fun _ => True).
Proof. unfold expect. cbn. by destruct (one_of _ _). Qed.
Lemma not_null_ok w p ps : safe bad' (not_null w (p :: ps)) (fun _ => True).
Proof. done. Qed.

(** Which pointers the procedures leave for the handles. *)
Definition ready (ps : pointer) (sp : Z) (a : sp_args) : Prop :=
  a_data a `suffix_of` ps /\
  (one_of sp [SP_EXECUTE; SP_UNPREPARE] = true -> a_handle a = ps /\ ps <> []) /\
  (one_of sp [SP_CURSORFETCH; SP_CURSORCLOSE; SP_CURSOR; SP_CURSOROPTION] = true -> a_cursor a = ps /\ ps <> []) /\
  (one_of sp [SP_CURSOREXEC; SP_CURSORUNPREPARE; SP_CURSORPREPARE] = true -> a_prepared a = ps /\ ps <> []).

Local Hint Resolve minimum_ok expect_ok not_null_ok read_unicode_ok : safe.
Ltac args_step :=
  match goal with
  | |- safe _ (act_bind (next ?l) _) _ => is_var l; destruct l; cbn [length] in *; [lia|cbn [next act_bind]]
  | |- safe _ (act_bind (next (_ :: _)) _) _ => cbn [next act_bind]
  | |- safe _ (act_bind (deref (_ :: _)) _) _ => cbn [deref act_bind]
  | |- safe _ (act_bind (expect _ _ ?l) _) _ => is_var l; destruct l; cbn [length] in *; [lia|]
  | |- safe _ (act_bind (read_unicode _ ?l) _) _ => is_var l; destruct l; cbn [length] in *; [lia|]
  | |- safe _ (act_bind (if ?b then _ else _) _) _ => destruct b; cbn [act_bind]
  | |- safe _ (act_bind (expect _ _ []) _) _ => exfalso; cbn in *; lia
  | |- safe _ (act_bind (not_null _ ?l) _) _ => is_var l; destruct l; [done|]
  | |- safe _ (act_bind (act_bind _ _) _) _ => rewrite act_bind_assoc
  | |- safe _ (act_bind (match ?l with [] => _ | _ :: _ => _ end) _) _ => is_var l; destruct l; cbn [act_bind]
  | H : Forall good (_ :: _) |- _ => inversion_clear H
  | |- safe _ (match ?l with [] => _ | _ :: _ => _ end) _ => is_var l; destruct l
  | |- _ => safe_step
  end.
Ltac args_end :=
  unfold ready; cbn; split_and!; try (by intros); try (intros [=]);
  try match goal with |- match ?l with [] => _ | _ :: _ => _ end `suffix_of` _ => destruct l end; solve_suffix.

Lemma cursorfetch_ok ps : Forall good ps -> safe bad' (get_cursorfetch ps (Z.of_nat (length ps))) (ready ps SP_CURSORFETCH).
Proof. intros. unfold get_cursorfetch, optional3. repeat args_step. all: args_end. Qed.
Lemma cursorclose_ok ps : Forall good ps -> safe bad' (get_cursorclose ps (Z.of_nat (length ps))) (ready ps SP_CURSORCLOSE).
Proof. intros. unfold get_cursorclose. repeat args_step. all: args_end. Qed.
Lemma cursorunprepare_ok ps : Forall good ps -> safe bad' (get_cursorunprepare ps (Z.of_nat (length ps))) (ready ps SP_CURSORUNPREPARE).
Proof. intros. unfold get_cursorunprepare. repeat args_step. all: args_end. Qed.
Lemma cursor_ok ps : Forall good ps -> safe bad' (get_cursor ps (Z.of_nat (length ps))) (ready ps SP_CURSOR).
Proof. intros. unfold get_cursor. repeat args_step. all: args_end. Qed.
Lemma cursoroption_ok ps : Forall good ps -> safe bad' (get_cursoroption ps (Z.of_nat (length ps))) (ready ps SP_CURSOROPTION).
Proof. intros. unfold get_cursoroption. repeat args_step. all: args_end. Qed.
Lemma cursorexec_ok ps : Forall good ps -> safe bad' (get_cursorexec ps (Z.of_nat (length ps))) (ready ps SP_CURSOREXEC).
Proof. intros. unfold get_cursorexec, optional3. repeat args_step. all: args_end. Qed.
Lemma cursorprepexec_ok ps : Forall good ps -> safe bad' (get_cursorprepexec message ps (Z.of_nat (length ps))) (ready ps SP_CURSORPREPEXEC).
Proof. intros. unfold get_cursorprepexec, optional3. repeat args_step. all: args_end. Qed.
Lemma cursorprepare_ok ps : Forall good ps -> safe bad' (get_cursorprepare message ps (Z.of_nat (length ps))) (ready ps SP_CURSORPREPARE).
Proof. intros. unfold get_cursorprepare. repeat args_step. all: args_end. Qed.
Lemma executesql_ok ps : Forall good ps -> safe bad' (get_executesql message ps (Z.of_nat (length ps))) (ready ps SP_EXECUTESQL).
Proof. intros. unfold get_executesql. repeat args_step. all: args_end. Qed.
Lemma prepare_ok ps sp : (sp = SP_PREPARE \/ sp = SP_PREPEXEC) -> Forall good ps ->
  safe bad' (get_prepare message ps (Z.of_nat (length ps))) (ready ps sp).
Proof. intros [-> | ->] ?; unfold get_prepare; repeat args_step. all: args_end. Qed.
Lemma execute_ok ps : Forall good ps -> safe bad' (get_execute ps (Z.of_nat (length ps))) (ready ps SP_EXECUTE).
Proof. intros. unfold get_execute. repeat args_step. all: args_end. Qed.
Lemma unprepare_ok ps : Forall good ps -> safe bad' (get_unprepare ps (Z.of_nat (length ps))) (ready ps SP_UNPREPARE).
Proof. intros. unfold get_unprepare. repeat args_step. destruct ps; cbn [length] in *; [lia|]. args_end. Qed.
Lemma cursoropen_ok ps : (length ps = 4%nat -> bad') -> Forall good ps ->
  safe bad' (get_cursoropen message ps (Z.of_nat (length ps))) (ready ps SP_CURSOROPEN).
Proof.
  intros Hbad ?. unfold get_cursoropen. repeat args_step. 1, 2: args_end.
  destruct ps; [by apply Hbad|]. repeat args_step. all: args_end.
Qed.

Ltac case_sp := apply safe_if; [let E := fresh in intros E; apply Z.eqb_eq in E as ->|intros _].

Lemma get_args_ok sp ps : (sp = SP_CURSOROPEN -> length ps = 4%nat -> bad') -> Forall good ps ->
  safe bad' (get_args message sp ps) (ready ps sp).
Proof.
  intros Hbad Hps. unfold get_args. cbv zeta.
  case_sp; [by apply cursoropen_ok; auto|]. case_sp; [by apply cursorexec_ok|]. case_sp; [by apply cursorprepexec_ok|].
  case_sp; [by apply cursorfetch_ok|]. case_sp; [by apply cursorclose_ok|]. case_sp; [by apply cursorunprepare_ok|].
  case_sp; [by apply cursor_ok|]. case_sp; [by apply cursoroption_ok|]. case_sp; [by apply cursorprepare_ok|].
  case_sp; [by apply executesql_ok|].
  apply safe_if; intros E; [apply prepare_ok; [|done]; apply orb_true_iff in E as [E|E]; apply Z.eqb_eq in E; auto|].
  case_sp; [by apply execute_ok|]. case_sp; [done|]. case_sp; [by apply unprepare_ok|].
  case_sp; [unfold get_customtype; args_end|done].
Qed.

Lemma outputs_ok ps : (65536 <= Z.of_nat (length ps) -> bad') ->
  safe bad' (InitializeDataParamTokenIndex ps) (fun x =>
    (Z.of_nat (length ps) < 65536 -> x.1.1 = Z.of_nat (length ps)) /\ x.1.2 = Z.of_nat (length x.2) /\ x.2 = filter is_out ps).
Proof.
  intros Hbad. unfold InitializeDataParamTokenIndex. assert (length (filter is_out ps) <= length ps)%nat as Hf by apply length_filter. cbv zeta.
  destruct (decide (Z.of_nat (length (filter is_out ps)) < 65536)).
  - pose proof (outputs_fine ps ltac:(lia)) as E. unfold InitializeDataParamTokenIndex in E. rewrite E. cbn. split_and!; [|done..].
    intros. apply u16_id. lia.
  - pose proof (outputs_over ps ltac:(lia)) as E. unfold InitializeDataParamTokenIndex in E. rewrite E. cbn. apply Hbad. lia.
Qed.

(** ** Handles *)

Lemma handle_at_ok p ps : good p -> safe bad' (handle_at message (p :: ps)) (fun _ => True).
Proof.
  intros [Hp Ht]. unfold handle_at. cbn [deref act_bind]. destruct (tvpInfo p) eqn:E.
  - unfold CheckMessageBounds. destruct (_ >? _); [done|]. cbn [act_bind]. unfold fetch_uint, fetch. destruct (_ && _); [done|]. by apply Ht.
  - destruct (Hp E) as (? & ? & ? & _). eapply safe_bind; [apply bounds_ok; lia|]. cbn. intros _ ?.
    eapply safe_mono; [done| |apply fetch_uint_ok; (done || lia)]. done.
Qed.


Lemma handles_ok sp ps a : Forall good ps -> ready ps sp a ->
  safe bad' (GetSPHandleParameter message sp (a_handle a)) (fun _ => True) /\
  safe bad' (GetSPCursorHandleParameter message sp (a_cursor a)) (fun _ => True) /\
  safe bad' (GetSPCursorPreparedHandleParameter message sp (a_prepared a)) (fun _ => True).
Proof.
  intros Hps (_ & Hh & Hc & Hp).
  assert (forall p, p = ps /\ ps <> [] -> safe bad' (handle_at message p) (fun _ => True)) as Hat.
  { intros p [-> ?]. destruct ps; [done|]. inversion_clear Hps. by apply handle_at_ok. }
  unfold GetSPHandleParameter, GetSPCursorHandleParameter, GetSPCursorPreparedHandleParameter. split_and!.
  - destruct (one_of sp [SP_EXECUTE; _]); [by apply Hat, Hh|done].
  - destruct (one_of sp [SP_CURSORPREPEXEC; _; _]); [done|].
    destruct (one_of sp [SP_CURSORFETCH; _; _; _]); [|done]. eapply safe_bind; [by apply Hat, Hc|]. cbn. intros h _. by destruct (_ =? _).
  - destruct (one_of sp [SP_CURSOREXEC; _; _]); [by apply Hat, Hp|done].
Qed.

(** A request: its parameters lie in the message, the parameters of the procedure are the last of
    them, and the array of the output parameters is complete. *)
Definition request_in (ps : list RpcParameter) (sep : Z) (r : TDSRequestSP) : Prop :=
  parameter r = ps /\ Forall (param_in message) ps /\ batchSeparatorOffset r = sep /\ messageLen r = msgLen /\
  dataParameter r `suffix_of` ps /\
  (Z.of_nat (length (dataParameter r)) < 65536 -> nTotalParams r = Z.of_nat (length (dataParameter r))) /\
  idxOutParams r = filter is_out (dataParameter r) /\ nOutParams r = Z.of_nat (length (idxOutParams r)).

Lemma rpc_request_ok n sp f ps sep : (sp = SP_CURSOROPEN -> length ps = 4%nat -> bad') ->
  (65536 <= Z.of_nat (length ps) -> bad') -> Forall good ps ->
  safe bad' (rpc_request message n sp f ps sep) (request_in ps sep).
Proof.
  intros Hopen Hmany Hps. unfold rpc_request. eapply safe_bind; [by apply get_args_ok|]. intros a Ha.
  pose proof (suffix_length _ _ (proj1 Ha)).
  eapply safe_bind; [apply outputs_ok; intros; apply Hmany; lia|]. intros [[t o] idx]. cbn. intros (Ht & Ho & Hidx).
  destruct (handles_ok sp ps a Hps Ha) as (H1 & H2 & H3).
  eapply safe_bind; [exact H1|]. intros h _. eapply safe_bind; [exact H2|]. intros c _. eapply safe_bind; [exact H3|]. intros q _.
  unfold request_in. cbn. split_and!; try done; [|by destruct Ha].
  eapply Forall_impl; [|exact Hps]. by intros ? [? _].
Qed.
End args.
End message.
