(* ===== verification/TdsRpcTheorems.v ===== *)
(** * TdsRpcTheorems: requests of any content

    [GetRPCRequest], [GetSQLBatchRequest] and [GetTxnMgmtRequest] on a message that the client chose freely:
    which messages make them leave the message, and what a request looks like when they do not. *)
From Stdlib Require Import String Sorted.
From stdpp Require Import base list numbers.
From S2P Require Import Prelude BitFacts Utf UtfTheorems TdsColMeta TdsTypeRecv TdsRequest TdsTvp TdsRpc TdsRpcRequest TdsRequestSafety TdsRpcSafety.
Open Scope Z_scope.

Section rpc.
Context (message : bytes) (tdsVersion : Z) (TdsGetEncoding : Z -> Z).
Context (functionInfoCacheByTdsId : Z -> Z -> option TdsIoFunctionData) (typename_typeschemaname : bytes -> bytes -> bytes * bytes).
Local Notation msgLen := (Z.of_nat (length message)).
Local Notation readParameters := (ReadParameters tdsVersion TdsGetEncoding functionInfoCacheByTdsId typename_typeschemaname message).
Local Notation getRPCRequest := (GetRPCRequest message tdsVersion TdsGetEncoding functionInfoCacheByTdsId typename_typeschemaname).

(** The length of the headers is read as a signed integer. *)
Definition negative_header : Prop := tdsVersion > TDS_VERSION_7_1_1 /\ i32 (le_val (take 4 message)) < 0.

(** Lists of parameters that the numbered procedures are not prepared for. *)
Definition unexpected (sp : Z) (ps : list RpcParameter) : Prop :=
  Exists (fun p => tvpInfo p <> None) ps \/ (sp = SP_CURSOROPEN /\ length ps = 4%nat) \/ 65536 <= Z.of_nat (length ps).

(** The causes of an access outside of the message. *)
Definition defect (previous : option (Z * Z)) : Prop :=
  negative_header \/ negative_column message TdsGetEncoding \/
  exists off n sp f o ps sep, rpc_offset message tdsVersion previous = Fine off /\ rpc_procedure message off = Fine (n, sp, f, o) /\
    readParameters n o = Fine (ps, sep) /\ unexpected sp ps.

(** The request before, of the same message. *)
Definition follows (previous : option (Z * Z)) : Prop :=
  match previous with Some (sep, l) => 0 <= sep /\ l = msgLen | None => True end.

Hypothesis (Hb : Forall is_byte message) (Hlen : msgLen < 2 ^ 31).
Local Hint Resolve fetch_ok fetch_uint_ok fetch_char_ok fetch_utf16_ok bounds_ok : safe.

Lemma stream_offset_ok : safe False (stream_offset tdsVersion message) (fun h => h <= msgLen /\ (negative_header /\ - 2 ^ 31 <= h < 0 \/ 0 <= h)).
Proof.
  unfold stream_offset. destruct (Z.gtb_spec tdsVersion TDS_VERSION_7_1_1); [|cbn; lia].
  unfold ProcessStreamHeaders. destruct (Z.ltb_spec msgLen 4); [done|]. unfold fetch_uint. rewrite fetch_fine by lia. cbn [act_bind].
  cbv zeta. change (Z.to_nat 4) with 4%nat. change (Z.to_nat 0) with 0%nat. rewrite drop_0.
  apply safe_if; intros Hu; [done|]. apply gtb_false in Hu. cbn [safe]. split; [done|]. unfold negative_header.
  destruct (decide (0 <= i32 (le_val (take 4 message)))); [by right|left]. pose proof (i32_bounds (le_val (take 4 message))). lia.
Qed.

Lemma rpc_offset_ok previous : follows previous ->
  safe False (rpc_offset message tdsVersion previous) (fun off => negative_header /\ msgLen < off \/ 0 <= off <= msgLen).
Proof.
  intros Hp. unfold rpc_offset. eapply safe_bind; [apply stream_offset_ok|]. intros h [Hh Hneg]. cbn [safe].
  change (2 ^ 31) with 2147483648 in Hlen.
  destruct (RPCBatchExists previous) as [o|] eqn:E.
  - right. destruct previous as [[sep l]|]; [|done]. cbn in E, Hp. destruct Hp as [? ->]. rewrite u64_id in E by lia.
    destruct (Z.ltb_spec sep msgLen); [|done]. injection E as <-. lia.
  - destruct Hneg as [[? ?]|?]; [|right; rewrite u64_id by lia; lia]. left. split; [done|].
    replace (u64 h) with (h + 18446744073709551616); [lia|]. unfold u64, uwrap. change (2 ^ 64) with 18446744073709551616.
    change (2 ^ 31) with 2147483648 in *. div_lia.
Qed.

Lemma rpc_procedure_ok bad off : 0 <= off <= msgLen -> safe bad (rpc_procedure message off) (fun x => off < x.2 <= msgLen).
Proof.
  intros. unfold rpc_procedure. safe_step. safe_step. cbv zeta.
  eapply (safe_bind _ _ _ (fun x => off < x.2 <= msgLen)).
  - apply safe_if; intros _; safe_steps; cbn; lia.
  - intros [[n sp] o]. cbn [snd]. intros ?. safe_steps. cbn. lia.
Qed.

Lemma rpc_procedure_outside (bad : Prop) off : bad -> msgLen < off -> safe bad (rpc_procedure message off) (fun _ => False).
Proof.
  intros Hbad Hoff. unfold rpc_procedure, CheckMessageBounds. destruct (_ >? _); [done|]. cbn [act_bind]. unfold fetch_uint, fetch.
  rewrite (proj2 (Z.leb_gt (off + 2) msgLen)) by lia. by rewrite andb_false_r.
Qed.

(** A request of a message: it is the reading of the bytes from [off] on. *)
Definition request_of (previous : option (Z * Z)) (r : TDSRequestSP) : Prop :=
  exists off, rpc_offset message tdsVersion previous = Fine off /\ off < batchSeparatorOffset r <= msgLen /\
    request_in message (parameter r) (batchSeparatorOffset r) r /\
    (batchSeparatorOffset r < msgLen ->
     message !! Z.to_nat (batchSeparatorOffset r - 1) = Some (GetRpcBatchSeparator tdsVersion)).

Lemma not_unexpected bad sp ps : (unexpected sp ps -> bad) -> Forall (param_in message) ps -> Forall (good message bad) ps.
Proof.
  intros Hu Hps. apply Forall_forall. intros p Hp. split; [by apply (proj1 (Forall_forall _ _) Hps)|].
  intros. apply Hu. left. apply Exists_exists. eauto.
Qed.

Lemma GetRPCRequest_ok previous : follows previous -> safe (defect previous) (getRPCRequest previous) (request_of previous).
Proof.
  intros Hp. unfold GetRPCRequest, request_of. pose proof (rpc_offset_ok previous Hp) as Hoff.
  destruct (rpc_offset message tdsVersion previous) as [off| |] eqn:E1; cbn [safe act_bind fst snd] in Hoff |- *; [|done..].
  destruct Hoff as [[Hneg Hoff]|Hoff].
  { eapply safe_bind; [apply rpc_procedure_outside; [by left|done]|done]. }
  pose proof (rpc_procedure_ok False off Hoff) as Hproc.
  destruct (rpc_procedure message off) as [[[[n sp] f] o]| |] eqn:E2; cbn [safe act_bind fst snd] in Hproc |- *; [|done..].
  pose proof (ReadParameters_ok message Hb Hlen tdsVersion TdsGetEncoding functionInfoCacheByTdsId typename_typeschemaname n o ltac:(lia)) as Hread.
  destruct (readParameters n o) as [[ps sep]| |] eqn:E3; cbn [safe act_bind fst snd] in Hread |- *; [|done|by right; left].
  destruct Hread as (Hsep & Hps & Hend). cbn in Hsep, Hps, Hend.
  assert (unexpected sp ps -> defect previous) as Hu by (intros; right; right; by exists off, n, sp, f, o, ps, sep).
  eapply (safe_mono (defect previous)); [done| |apply rpc_request_ok; try done].
  - intros r Hr. pose proof Hr as (-> & _ & -> & _). exists off. split_and!; [done|lia..|done|]. intros ?. by apply Hend.
  - intros ? ?. apply Hu. right. by left.
  - intros ?. apply Hu. by do 2 right.
  - by eapply not_unexpected.
Qed.

Lemma batch_offset previous o : follows previous -> RPCBatchExists previous = Some o -> 0 <= o < msgLen.
Proof.
  destruct previous as [[sep l]|]; [|done]. cbn. intros [? ->]. change (2 ^ 31) with 2147483648 in Hlen. rewrite u64_id by lia.
  destruct (Z.ltb_spec sep msgLen); [|done]. intros [= <-]. lia.
Qed.

Lemma offset_after previous off : rpc_offset message tdsVersion previous = Fine off -> default 0 (RPCBatchExists previous) <= off.
Proof.
  unfold rpc_offset. destruct (stream_offset _ _); [|done..]. cbn [act_bind]. intros [= <-]. destruct (RPCBatchExists previous); cbn; [done|].
  by apply Z.mod_pos_bound.
Qed.

(** The calls of a batch: every one begins behind the separator of the one before, and the last ends
    with the message. *)
Lemma rpc_batch_ok fuel : forall previous, follows previous ->
  msgLen - default 0 (RPCBatchExists previous) < Z.of_nat fuel ->
  safe (exists p, defect p) (rpc_batch message tdsVersion TdsGetEncoding functionInfoCacheByTdsId typename_typeschemaname fuel previous)
    (fun rs => rs <> [] /\ Forall (fun r => exists p, request_of p r) rs /\
      StronglySorted Z.lt (default 0 (RPCBatchExists previous) :: map batchSeparatorOffset rs) /\
      List.last (map batchSeparatorOffset rs) 0 = msgLen).
Proof.
  induction fuel as [|fuel IH]; intros previous Hp Hf.
  { destruct (RPCBatchExists previous) eqn:E; cbn in Hf; [|lia]. apply batch_offset in E; [lia|done]. }
  assert (0 <= default 0 (RPCBatchExists previous)).
  { destruct (RPCBatchExists previous) eqn:E; cbn; [apply batch_offset in E; [lia|done]|done]. }
  cbn [rpc_batch]. eapply safe_bind; [eapply safe_mono; [|auto|by apply GetRPCRequest_ok]; eauto|]. intros r Hr. cbn beta in Hr.
  pose proof Hr as (off & Eoff & Hsep & (_ & _ & _ & Elen & _) & _). apply offset_after in Eoff. rewrite Elen.
  assert (RPCBatchExists (Some (batchSeparatorOffset r, msgLen)) =
    if decide (batchSeparatorOffset r < msgLen) then Some (batchSeparatorOffset r) else None) as E.
  { cbn. rewrite u64_id by (change (2 ^ 31) with 2147483648 in Hlen; lia). case_decide as Hd; [by rewrite (proj2 (Z.ltb_lt _ _) Hd)|].
    by rewrite (proj2 (Z.ltb_ge _ _)) by lia. }
  rewrite E. case_decide.
  - eapply safe_bind; [apply IH; [cbn; lia|rewrite E; cbn; lia]|].
    cbn beta. intros rs (Hne & Hall & Hsort & Hlast). rewrite E in Hsort. cbn in Hsort |- *.
    split_and!; [done|constructor; eauto| |by destruct rs].
    constructor; [done|]. constructor; [lia|]. apply StronglySorted_inv in Hsort as [_ Hall']. eapply Forall_impl; [|exact Hall']. cbn. lia.
  - cbn. split_and!; [done|constructor; eauto|repeat constructor; lia|lia].
Qed.
End rpc.

(** ** Transactions *)

(** Letters, digits and [_ # $]. *)
Definition ident_char (c : Z) : Prop := 97 <= c <= 122 \/ 65 <= c <= 90 \/ 48 <= c <= 57 \/ c = 95 \/ c = 35 \/ c = 36.
(** No name, or a name that does not start with a digit or [$]. *)
Definition plain_name (n : bytes) : Prop :=
  Forall ident_char n /\ match n with [] => True | c :: _ => ~ (48 <= c <= 57) /\ c <> 36 end.

Lemma i8_small c : is_byte c -> 0 <= i8 c -> i8 c = c /\ c < 128.
Proof. unfold is_byte, i8, swrap. change (2 ^ 8) with 256. change (2 ^ (8 - 1)) with 128. intros. div_lia. Qed.

Lemma first_char c : is_byte c -> IsValidIdentFirstChar (i8 c) = true -> ident_char c /\ ~ (48 <= c <= 57) /\ c <> 36.
Proof.
  intros Hc. unfold IsValidIdentFirstChar, between. rewrite !orb_true_iff, !andb_true_iff, !Z.leb_le, !Z.eqb_eq. intros H.
  pose proof (i8_range c). destruct (i8_small c Hc) as [E ?]; [lia|]. rewrite E in H. unfold ident_char. lia.
Qed.
Lemma other_char c : is_byte c -> IsValidIdentChar (i8 c) = true -> ident_char c.
Proof.
  intros Hc. unfold IsValidIdentChar, between. rewrite !orb_true_iff, andb_true_iff, !Z.leb_le, Z.eqb_eq. intros [[H|H]|H].
  - by apply first_char.
  - destruct (i8_small c Hc) as [E ?]; [lia|]. rewrite E in H. unfold ident_char. lia.
  - destruct (i8_small c Hc) as [E ?]; [lia|]. rewrite E in H. unfold ident_char. lia.
Qed.

Lemma valid_name n : Forall is_byte n -> IsValidTxnName n = true -> plain_name n.
Proof.
  intros Hn. destruct n as [|c cs]; [done|]. cbn. rewrite andb_true_iff, forallb_forall. intros [Hc Hcs].
  inversion_clear Hn as [|? ? Hb Hbs]. destruct (first_char c Hb Hc). split; [|done]. constructor; [done|].
  apply Forall_forall. intros x Hx. rewrite Forall_forall in Hbs. apply other_char; [by apply Hbs|]. by apply Hcs.
Qed.

Lemma GetTxnName_plain message off n o : GetTxnName message off = Fine (n, o) -> plain_name n.
Proof.
  unfold GetTxnName. destruct (fetch_uint _ _ _) as [l| |]; [|done..]. cbn [act_bind].
  destruct (l =? 0); [by intros [= <- _]|]. destruct (l >? _); [done|]. unfold fetch_utf16.
  destruct (fetch _ _ _) as [b| |]; [|done..]. cbn [act_bind]. destruct (TdsUTF16toUTF8StringInfo [] b) as [t|] eqn:E; [|done]. cbn [of_utf act_bind].
  destruct (IsValidTxnName t) eqn:Ev; [|done]. intros [= <- _]. apply valid_name; [by eapply utf16_text_bytes|done].
Qed.

Lemma GetNewTxnRequest_plain message off l n o : GetNewTxnRequest message off = Fine (l, n, o) -> plain_name n /\ l <= 5.
Proof.
  unfold GetNewTxnRequest. destruct (fetch_uint _ _ _) as [k| |]; [|done..]. cbn [act_bind]. destruct (Z.gtb_spec k TDS_ISOLATION_LEVEL_SNAPSHOT); [done|].
  destruct (GetTxnName _ _) as [[n' o']| |] eqn:E; [|done..]. cbn. intros [= -> -> _]. split; [by eapply GetTxnName_plain|done].
Qed.

Definition semicolons (q : bytes) : nat := length (List.filter (fun c => c =? 59) q).

(** The clauses that a request adds to its first statement. *)
Definition level_clauses (level : Z) : nat := if level =? TDS_ISOLATION_LEVEL_NONE then 0 else 1.
Definition clauses (r : TDSRequestTxnMgmt) : nat :=
  if txnReqType r =? TDS_TM_BEGIN_XACT then level_clauses (isolationLevel r)
  else match nextTxn r with Some (level, _) => S (level_clauses level) | None => 0 end.

Definition query_char (c : Z) : Prop := ident_char c \/ c = 32 \/ c = 59.
(** A text of such characters with [n] semicolons. *)
Definition query_text (n : nat) (q : bytes) : Prop := Forall query_char q /\ semicolons q = n.

Lemma query_text_app m n a b : query_text m a -> query_text n b -> query_text (m + n) (a ++ b).
Proof.
  intros [Ha <-] [Hb <-]. split; [by apply Forall_app|]. unfold semicolons. by rewrite List.filter_app, length_app.
Qed.

Lemma name_text n : plain_name n -> query_text 0 n.
Proof.
  intros [Hn _]. split; [eapply Forall_impl; [|exact Hn]; by left|]. unfold semicolons.
  induction Hn as [|c n Hc _ IH]; [done|]. cbn. replace (c =? 59) with false; [done|]. symmetry. apply Z.eqb_neq. unfold ident_char in Hc. lia.
Qed.

Definition query_charb (c : Z) : bool :=
  between 97 c 122 || between 65 c 90 || between 48 c 57 || one_of c [95; 35; 36; 32; 59].
Lemma fixed_text q n : forallb query_charb q = true -> semicolons q = n -> query_text n q.
Proof.
  intros Hq <-. split; [|done]. induction q as [|c q IH]; [constructor|]. cbn in Hq. apply andb_true_iff in Hq as [Hc Hq].
  constructor; [|by apply IH]. unfold query_charb, between in Hc. cbn in Hc.
  rewrite ?orb_true_iff, ?andb_true_iff, ?Z.leb_le, ?Z.eqb_eq in Hc. unfold query_char, ident_char. lia.
Qed.

Lemma level_text level : query_text (level_clauses level) (isolation_clause level).
Proof.
  unfold level_clauses, isolation_clause, GetIsolationLevelStr. repeat case_match; by apply fixed_text.
Qed.

(** The parts of a request that go into the query. *)
Definition plain_request (r : TDSRequestTxnMgmt) : Prop :=
  (txnReqType r = TDS_TM_BEGIN_XACT /\ nextTxn r = None \/ txnReqType r = TDS_TM_COMMIT_XACT \/ txnReqType r = TDS_TM_ROLLBACK_XACT \/
   txnReqType r = TDS_TM_SAVEPOINT_XACT /\ nextTxn r = None /\ txnName r <> []) /\
  plain_name (txnName r) /\ isolationLevel r <= 5 /\
  match nextTxn r with Some (level, n) => plain_name n /\ level <= 5 | None => True end.

Lemma plain_request_query r : plain_request r -> query_text (clauses r) (BuildTxnMgmtRequestQuery r).
Proof.
  intros (Ht & Hn & _ & Hx). unfold BuildTxnMgmtRequestQuery, clauses. apply name_text in Hn.
  destruct Ht as [[-> ->]|[->|[->|(-> & -> & _)]]]; cbn [Z.eqb Pos.eqb orb TDS_TM_BEGIN_XACT TDS_TM_COMMIT_XACT TDS_TM_ROLLBACK_XACT TDS_TM_SAVEPOINT_XACT].
  - apply (query_text_app 0); [by apply fixed_text|]. apply (query_text_app 0); [done|apply level_text].
  - apply (query_text_app 0); [by apply fixed_text|]. apply (query_text_app 0); [done|]. destruct (nextTxn r) as [[l n]|]; [destruct Hx as [Hx _]|by apply fixed_text].
    apply (query_text_app 1); [by apply fixed_text|]. apply (query_text_app 0); [by apply name_text|apply level_text].
  - apply (query_text_app 0); [by apply fixed_text|]. apply (query_text_app 0); [done|]. destruct (nextTxn r) as [[l n]|]; [destruct Hx as [Hx _]|by apply fixed_text].
    apply (query_text_app 1); [by apply fixed_text|]. apply (query_text_app 0); [by apply name_text|apply level_text].
  - by apply (query_text_app 0); [apply fixed_text|].
Qed.

(** C21: A transaction request never brings text of the client but identifiers into the query that is
    executed: the names are empty or identifiers of ASCII letters, digits, [_], [#] and [$], the levels
    are known ones, and the query has as many semicolons as it has clauses. *)
Theorem txn_query_plain tdsVersion message r q : GetTxnMgmtRequest tdsVersion message = Fine (r, q) ->
  plain_request r /\ q = BuildTxnMgmtRequestQuery r /\ query_text (clauses r) q.
Proof.
  intros H. assert (plain_request r /\ q = BuildTxnMgmtRequestQuery r) as [Hr ->]; [|by auto using plain_request_query].
  unfold GetTxnMgmtRequest in H. destruct (stream_offset _ _) as [o| |]; [|done..]. cbn [act_bind] in H.
  destruct (fetch_uint message o 2) as [req| |]; [|done..]. cbn [act_bind] in H.
  destruct (req =? TDS_TM_BEGIN_XACT) eqn:E1.
  { destruct (GetNewTxnRequest _ _) as [[[l n] o']| |] eqn:E; [|done..]. cbn [act_bind] in H. destruct (_ >? _); [done|]. injection H as <- <-.
    apply GetNewTxnRequest_plain in E as [? ?]. apply Z.eqb_eq in E1 as ->. by split; [split_and!; [left|..]|]. }
  destruct ((req =? TDS_TM_COMMIT_XACT) || (req =? TDS_TM_ROLLBACK_XACT)) eqn:E2.
  { destruct (GetTxnName _ _) as [[n o']| |] eqn:E; [|done..]. cbn [act_bind] in H. apply GetTxnName_plain in E.
    destruct (fetch_uint message o' 1) as [f| |]; [|done..]. cbn [act_bind] in H. apply orb_true_iff in E2. rewrite !Z.eqb_eq in E2.
    destruct (negb _).
    - destruct (GetNewTxnRequest _ _) as [[[l n'] o'']| |] eqn:E'; [|done..]. cbn [act_bind] in H. destruct (_ >? _); [done|]. injection H as <- <-.
      apply GetNewTxnRequest_plain in E' as [? ?]. split; [split_and!; cbn; [tauto|done..]|done].
    - cbn [act_bind] in H. destruct (_ >? _); [done|]. injection H as <- <-. split; [split_and!; cbn; [tauto|done..]|done]. }
  destruct (req =? TDS_TM_SAVEPOINT_XACT) eqn:E3; [|done].
  destruct (GetTxnName _ _) as [[n o']| |] eqn:E; [|done..]. cbn [act_bind] in H. apply GetTxnName_plain in E.
  destruct n; [done|]. cbn [act_bind] in H. destruct (_ >? _); [done|]. injection H as <- <-. apply Z.eqb_eq in E3 as ->.
  split; [split_and!; cbn; [by do 3 right|done..]|done].
Qed.

Lemma txn_query_plain_witness :
  query_text 1 (bytes_of_string "BEGIN TRANSACTION ab; SET TRANSACTION ISOLATION LEVEL READ COMMITTED ").
Proof.
  destruct (txn_query_plain 0x71000001 [5; 0; 2; 4; 97; 0; 98; 0] _ _ ltac:(vm_compute; reflexivity)) as (_ & _ & H). exact H.
Defined.

(** ** Properties of the calls *)

(** C9: The calls of any message of a client are read inside of the message, and reading them ends: the data
    and the chunks of every parameter that is not a table lie in the message, the parameters of the procedure
    are the last ones, the array of the output parameters holds exactly them, and every call of a batch
    starts behind the separator that ends the one before.  An access outside of the message needs one of the
    causes of [defect]: a negative length of the headers, a table with a column of negative length, a
    table in place of a scalar, [sp_cursoropen] with exactly four parameters, or 65536 parameters. *)
Theorem rpc_in_message message tdsVersion enc cache names : Forall is_byte message -> Z.of_nat (length message) < 2 ^ 31 ->
  safe (exists p, defect message tdsVersion enc cache names p)
    (rpc_batch message tdsVersion enc cache names (S (length message)) None)
    (fun rs => rs <> [] /\ Forall (fun r => exists p, request_of message tdsVersion p r) rs /\
      StronglySorted Z.lt (0 :: map batchSeparatorOffset rs) /\ List.last (map batchSeparatorOffset rs) 0 = Z.of_nat (length message)).
Proof. intros Hb Hlen. apply (rpc_batch_ok message tdsVersion enc cache names Hb Hlen (S (length message)) None); [done|cbn; lia]. Qed.

(** A call with two integers, without headers. *)
Definition sample_call : bytes := [1; 0; 112; 0; 0; 0] ++ [0; 0; 38; 4; 4; 7; 0; 0; 0] ++ [0; 1; 38; 4; 0].
Definition sample_cache (t l : Z) : option TdsIoFunctionData := Some (mk_finfo 23 0).

Lemma rpc_in_message_witness : exists r,
  rpc_batch sample_call 0x71000001 (fun _ => 0) sample_cache (fun _ _ => ([], [])) (S (length sample_call)) None = Fine [r] /\
  length (dataParameter r) = 2%nat /\ nOutParams r = 1 /\ exists p, request_of sample_call 0x71000001 p r.
Proof.
  pose proof (rpc_in_message sample_call 0x71000001 (fun _ => 0) sample_cache (fun _ _ => ([], []))
    ltac:(unfold is_byte; repeat constructor; lia) ltac:(cbn; lia)) as H.
  destruct (rpc_batch sample_call _ _ _ _ _ None) as [rs| |] eqn:E; [|vm_compute in E; discriminate..].
  vm_compute in E. injection E as <-. eexists. split; [reflexivity|]. split; [reflexivity|]. split; [reflexivity|].
  destruct H as (_ & H & _). inversion H; subst. assumption.
Defined.

(** An output parameter of type INTEGER. *)
Definition out_parameter : RpcParameter :=
  mk_param TDS_TYPE_INTEGER SP_FLAGS_BYREFVALUE 0 [] (mk_token 0 0 4 [] true 0) (SetColMetadataForFixedType col_zero TDS_TYPE_INTEGER 4) 23 None.

(** The causes are real: each of them makes the server read outside of the message, dereference a null
    pointer or write behind an array.  A header length of -2, for a call and for a batch; a table with one
    column of type INTEGER whose length byte is 0xFF, and a value whose length byte is 0xFF too;
    [sp_cursoropen] with its first four parameters; 65536 output parameters or more. *)
Theorem defects_are_real :
  (forall enc cache names, GetRPCRequest [254; 255; 255; 255] 0x74000004 enc cache names None = Crash) /\
  GetSQLBatchRequest 0x74000004 [254; 255; 255; 255] = Crash /\
  (forall enc cache names,
    GetRPCRequest ([1; 0; 112; 0; 0; 0; 0; 0; 243; 0; 0; 1; 116; 0; 1; 0] ++ [0; 0; 0; 0; 0; 0; 38; 255; 0; 0; 1; 255])
      0x71000001 enc cache names None = Crash) /\
  (forall names,
    GetRPCRequest ([255; 255; 2; 0; 0; 0] ++ [0; 1; 38; 4; 0] ++ [0; 0; 231; 2; 0; 0; 0; 0; 0; 0; 2; 0; 97; 0] ++
      [0; 0; 38; 4; 0] ++ [0; 0; 38; 4; 0]) 0x71000001 (fun _ => 0) sample_cache names None = Crash) /\
  (forall n, InitializeDataParamTokenIndex (replicate (n + Z.to_nat 65536) out_parameter) = Crash).
Proof.
  split_and!; [intros; vm_compute; reflexivity..|]. intros n. set (k := (n + Z.to_nat 65536)%nat).
  apply outputs_over. assert (filter is_out (replicate k out_parameter) = replicate k out_parameter) as ->.
  { clearbody k. induction k as [|k IH]; [done|]. cbn [replicate]. rewrite filter_cons, decide_True by done. by rewrite IH. }
  rewrite length_replicate. lia.
Qed.
