(* ===== verification/TdsRpcRoundtrip.v ===== *)
(** * TdsRpcRoundtrip: what a client sends is what the procedure gets

    The bytes of a batch of calls as the protocol defines them, and that [GetRPCRequest] reads the calls
    again: names, flags, types and values. *)
From Stdlib Require Import String.
From stdpp Require Import base list numbers sets.
From S2P Require Import Prelude BitFacts Utf UtfTheorems TdsColMeta TdsTypeRecv TdsRequest TdsTvp TdsRpc TdsRpcRequest.
From S2P Require Import TdsPlpTheorems TdsRequestSafety TdsRpcSafety.
Open Scope Z_scope.

(** ** Bytes of a message *)

Definition has (message : bytes) (off : Z) (b : bytes) : Prop :=
  exists pre post, message = pre ++ b ++ post /\ off = Z.of_nat (length pre).

Section has.
Context (message : bytes).
Local Notation msgLen := (Z.of_nat (length message)).

Lemma has_app off a b : has message off (a ++ b) -> has message off a /\ has message (off + Z.of_nat (length a)) b.
Proof.
  intros (pre & post & -> & ->). split.
  - exists pre, (b ++ post). by rewrite <- !app_assoc.
  - exists (pre ++ a), post. rewrite <- !app_assoc. split; [done|]. rewrite length_app. lia.
Qed.

Lemma has_bound off b : has message off b -> 0 <= off /\ off + Z.of_nat (length b) <= msgLen.
Proof. intros (pre & post & -> & ->). rewrite !length_app. lia. Qed.

Lemma has_take off o b n : has message off b -> o = off -> n = Z.of_nat (length b) ->
  take (Z.to_nat n) (drop (Z.to_nat o) message) = b.
Proof. intros (pre & post & -> & ->) -> ->. by rewrite !Nat2Z.id, drop_app_length, take_app_length. Qed.

Lemma has_fetch off o b n : has message off b -> o = off -> n = Z.of_nat (length b) -> fetch message o n = Fine b.
Proof.
  intros H -> ->. pose proof (has_bound _ _ H). rewrite fetch_fine by lia. f_equal. by eapply has_take.
Qed.

Lemma has_uint off o k n z : has message off (le_bytes k z) -> o = off -> n = Z.of_nat k -> 0 <= z < 256 ^ n ->
  fetch_uint message o n = Fine z.
Proof.
  intros H -> -> Hz. unfold fetch_uint. rewrite (has_fetch off off (le_bytes k z)) by (rewrite ?length_le_bytes; done).
  cbn. by rewrite le_val_bytes, Z.mod_small.
Qed.

Lemma has_byte off o z : has message off [z] -> o = off -> fetch_uint message o 1 = Fine z.
Proof. intros H ->. unfold fetch_uint. rewrite (has_fetch off off [z]) by done. cbn. f_equal. lia. Qed.

Lemma has_char off o z : has message off [z] -> o = off -> 0 <= z < 128 -> fetch_char message o = Fine z.
Proof.
  intros H -> Hz. unfold fetch_char. rewrite (has_byte off off z) by done. cbn. f_equal. unfold i8, swrap.
  change (2 ^ (8 - 1)) with 128. change (2 ^ 8) with 256. rewrite Z.mod_small by lia. lia.
Qed.

Lemma has_text off o cs n : has message off (cs ≫= utf16) -> Forall scalar cs -> o = off -> n = Z.of_nat (length (cs ≫= utf16)) ->
  fetch_utf16 message o n = Fine (cs ≫= utf8).
Proof.
  intros H Hcs -> ->. unfold fetch_utf16. rewrite (has_fetch off off _ _ H) by done. cbn. by rewrite utf16_text.
Qed.

Hypothesis Hlen : msgLen < 2 ^ 31.
Lemma bounds_pass off n : 0 <= off -> 0 <= n -> off + n <= msgLen -> CheckMessageBounds off n msgLen = Fine tt.
Proof.
  intros. unfold CheckMessageBounds. change (2 ^ 31) with 2147483648 in *. rewrite !u64_id by (rewrite ?u64_id; lia).
  by rewrite Z.gtb_ltb, (proj2 (Z.ltb_ge _ _)) by lia.
Qed.
End has.

(** ** Parameters of a client *)

Inductive client_value :=
| client_fixed (t maxLen : Z) (data : bytes)
| client_char (t maxLen collation sort : Z) (data : option bytes)
| client_max (t collation sort : Z) (data : option (bytes * bytes))
| client_binary (t maxLen : Z) (data : option bytes)
| client_numeric (t maxLen precision scale : Z) (data : bytes)
| client_date (data : bytes)
| client_time (t scale : Z) (data : bytes).

Definition size (b : bytes) : Z := Z.of_nat (length b).
Definition sized (data : option bytes) : bytes :=
  match data with Some b => le_bytes 2 (size b) ++ b | None => le_bytes 2 0xffff end.

(** The type and the bytes behind it. *)
Definition client_type (v : client_value) : Z :=
  match v with
  | client_fixed t _ _ | client_char t _ _ _ _ | client_max t _ _ _ | client_binary t _ _ | client_numeric t _ _ _ _ | client_time t _ _ => t
  | client_date _ => TDS_TYPE_DATE
  end.
Definition value_bytes (v : client_value) : bytes :=
  match v with
  | client_fixed _ maxLen data => [maxLen] ++ [size data] ++ data
  | client_char _ maxLen collation sort data => le_bytes 2 maxLen ++ le_bytes 4 collation ++ [sort] ++ sized data
  | client_max _ collation sort data =>
      le_bytes 2 0xFFFF ++ le_bytes 4 collation ++ [sort] ++
      match data with Some (b, chunks) => le_bytes 8 (size b) ++ chunks | None => le_bytes 8 PLP_NULL end
  | client_binary _ maxLen data => le_bytes 2 maxLen ++ sized data
  | client_numeric _ maxLen precision scale data => [maxLen] ++ [precision] ++ [scale] ++ [size data] ++ data
  | client_date data => [size data] ++ data
  | client_time _ scale data => [scale] ++ [size data] ++ data
  end.

Definition fixed_types : list Z :=
  [TDS_TYPE_BIT; TDS_TYPE_INTEGER; TDS_TYPE_FLOAT; TDS_TYPE_MONEYN; TDS_TYPE_DATETIMEN; TDS_TYPE_UNIQUEIDENTIFIER].
Definition char_types : list Z := [TDS_TYPE_CHAR; TDS_TYPE_NCHAR; TDS_TYPE_VARCHAR; TDS_TYPE_NVARCHAR].
Definition time_len (t : Z) : Z := if t =? TDS_TYPE_TIME then 5 else if t =? TDS_TYPE_DATETIME2 then 8 else 10.

(** The values that a client may send. *)
Definition client_ok (TdsGetEncoding : Z -> Z) (v : client_value) : Prop :=
  match v with
  | client_fixed t maxLen data => t ∈ fixed_types /\ maxLen < 128 /\ size data <= maxLen
  | client_char t maxLen collation _ data =>
      t ∈ char_types /\ 0 < maxLen < 0xFFFF /\ 0 <= collation < 2 ^ 32 /\ TdsGetEncoding collation <> -1 /\
      size (default [] data) < 0xFFFF
  | client_max t collation _ data =>
      t ∈ char_types /\ 0 <= collation < 2 ^ 32 /\ TdsGetEncoding collation <> -1 /\
      match data with Some (b, chunks) => size b < 2 ^ 31 /\ plp_form b chunks | None => True end
  | client_binary t maxLen data => t ∈ [TDS_TYPE_BINARY; TDS_TYPE_VARBINARY] /\ maxLen < 0xFFFF /\ size (default [] data) <= maxLen
  | client_numeric t maxLen precision scale data =>
      t ∈ [TDS_TYPE_DECIMALN; TDS_TYPE_NUMERICN] /\ maxLen < 128 /\ size data <= maxLen /\ size data <= TDS_MAXLEN_NUMERIC /\ scale <= precision
  | client_date data => size data <= 3
  | client_time t _ data => t ∈ [TDS_TYPE_TIME; TDS_TYPE_DATETIME2; TDS_TYPE_DATETIMEOFFSET] /\ size data <= time_len t
  end.

(** What the server takes it for: the type, the declared length and the value, [None] for NULL. *)
Definition server_type (v : client_value) : Z := match v with client_numeric _ _ _ _ _ => TDS_TYPE_NUMERICN | _ => client_type v end.
Definition server_len (v : client_value) : Z :=
  match v with
  | client_fixed _ m _ | client_char _ m _ _ _ | client_binary _ m _ | client_numeric _ m _ _ _ => m
  | client_max _ _ _ _ => 0xFFFF
  | client_date _ => 3
  | client_time t _ _ => time_len t
  end.
Definition nonempty (b : bytes) : option bytes := match b with [] => None | _ => Some b end.
Definition server_value (v : client_value) : option bytes :=
  match v with
  | client_fixed _ _ data | client_numeric _ _ _ _ data | client_date data | client_time _ _ data => nonempty data
  | client_char _ _ _ _ data | client_binary _ _ data => data
  | client_max _ _ _ data => fst <$> data
  end.

(** The value of a token: what the receivers of the types get. *)
Definition token_value (message : bytes) (t : ParameterToken) : option bytes :=
  if isNull t then None
  else
    let b := if maxLen t =? 0xFFFF then TdsGetPlpStringInfoBufferFromToken message t else TdsGetStringInfoBufferFromToken message t in
    Some (take (Z.to_nat (si_len b)) (si_data b)).

Section read.
Context (message : bytes) (Hlen : Z.of_nat (length message) < 2 ^ 31).
Context (TdsGetEncoding : Z -> Z) (typename_typeschemaname : bytes -> bytes -> bytes * bytes).
Local Notation msgLen := (Z.of_nat (length message)).

Lemma token_data off o b m null s : has message off b -> o = off -> m <> 0xFFFF ->
  token_value message (mk_token o (size b) m [] null s) = if null then None else Some b.
Proof.
  intros H -> Hm. unfold token_value. cbn. destruct null; [done|]. rewrite (proj2 (Z.eqb_neq _ _) Hm). cbn. f_equal. by eapply has_take.
Qed.

Lemma data_at_pass off o b m null s : has message off b -> o = off ->
  data_at message o (size b) m null s = Fine (mk_token o (size b) m [] null s, off + size b).
Proof.
  intros H ->. pose proof (has_bound _ _ _ H). unfold data_at. by rewrite bounds_pass by (unfold size in *; lia).
Qed.

Lemma null_empty b : (size b =? 0) = true -> nonempty b = None.
Proof. by destruct b. Qed.
Lemma nonnull_data b : (size b =? 0) = false -> nonempty b = Some b.
Proof. by destruct b. Qed.

(** The value [x] was read from the bytes of [v] at [off]. *)
Definition reads_as (off : Z) (v : client_value) (x : value * Z) : Prop :=
  value_type x.1 = server_type v /\ maxLen (value_token x.1) = server_len v /\ token_value message (value_token x.1) = server_value v /\
  value_table x.1 = None /\ x.2 = off + size (value_bytes v).

Ltac split_has :=
  repeat match goal with
  | H : has _ _ (_ ++ _) |- _ => let H1 := fresh H in apply has_app in H as [H1 H]; rewrite ?length_le_bytes in *; cbn [length] in *
  end.
Ltac sizes := unfold size; rewrite ?length_app, ?length_le_bytes; cbn [length]; lia.

Ltac rd :=
  match goal with
  | |- context [CheckMessageBounds ?o ?n _] => rewrite (bounds_pass message Hlen o n) by lia
  | H : has message ?o [?z] |- context [fetch_char message ?o'] => rewrite (has_char message o o' z H) by lia
  | H : has message ?o [?z] |- context [fetch_uint message ?o' 1] => rewrite (has_byte message o o' z H) by lia
  | H : has message ?o (le_bytes ?k ?z) |- context [fetch_uint message ?o' ?n] => rewrite (has_uint message o o' k n z H) by lia
  | |- context [CheckForInvalidLength ?t ?l ?m] => unfold CheckForInvalidLength; rewrite (Z.gtb_ltb l m), (proj2 (Z.ltb_ge m l)) by lia
  | H : has message ?o ?b |- context [data_at message ?o' (size ?b) ?m ?n ?s] => rewrite (data_at_pass o o' b m n s H) by lia
  end; cbn [act_bind].
Ltac cond :=
  match goal with
  | |- context [?a =? ?b] => first [rewrite (proj2 (Z.eqb_neq a b)) by lia | rewrite (proj2 (Z.eqb_eq a b)) by lia]
  | |- context [if ?a >? ?b then _ else _] => rewrite (Z.gtb_ltb a b), (proj2 (Z.ltb_ge b a)) by lia
  end.
Ltac sized_end b :=
  eexists; split; [reflexivity|]; unfold reads_as; cbn [fst snd value_token value_type value_table maxLen];
  split_and!; [done|done| |done|cbn [value_bytes]; sizes];
  match goal with H : has message _ b |- _ => rewrite (token_data _ _ b _ _ _ H) by lia end; cbn [server_value];
  destruct (size b =? 0) eqn:?; [by rewrite null_empty|by rewrite nonnull_data].

Lemma size_pos b : 0 <= size b.
Proof. apply Nat2Z.is_nonneg. Qed.

(** The start of a proof: the bytes one after the other. *)
Ltac start H b :=
  pose proof (size_pos b); pose proof (eq_refl : size b = Z.of_nat (length b)); let Hbd := fresh "Hbd" in pose proof (has_bound _ _ _ H) as Hbd; cbn [value_bytes] in H, Hbd;
  rewrite ?length_app, ?length_le_bytes in Hbd; cbn [length] in Hbd; split_has.

Lemma fixed_back t m b off : has message off (value_bytes (client_fixed t m b)) -> m < 128 -> size b <= m ->
  exists x, read_fixed message t off = Fine x /\ reads_as off (client_fixed t m b) x.
Proof. intros H Hm Hb. start H b. unfold read_fixed. do 3 rd. cbv zeta. rewrite !u32_id by lia. do 2 rd. sized_end b. Qed.

Lemma date_back b off : has message off (value_bytes (client_date b)) -> size b <= 3 ->
  exists x, read_date message TDS_TYPE_DATE off = Fine x /\ reads_as off (client_date b) x.
Proof. intros H Hb. start H b. unfold read_date. do 2 rd. cbv zeta. rewrite !u32_id by lia. do 2 rd. sized_end b. Qed.

Lemma time_len_pos t : 5 <= time_len t <= 10.
Proof. unfold time_len. repeat case_match; lia. Qed.

Lemma time_back t s b off : has message off (value_bytes (client_time t s b)) -> size b <= time_len t ->
  exists x, read_time message t off = Fine x /\ reads_as off (client_time t s b) x.
Proof.
  intros H Hb. pose proof (time_len_pos t). start H b. unfold read_time. do 3 rd. cbv zeta. fold (time_len t). rewrite !u32_id by lia. do 2 rd. sized_end b.
Qed.

Lemma numeric_back t m p s b off : has message off (value_bytes (client_numeric t m p s b)) -> m < 128 -> size b <= m ->
  size b <= TDS_MAXLEN_NUMERIC -> s <= p ->
  exists x, read_numeric message t off = Fine x /\ reads_as off (client_numeric t m p s b) x.
Proof.
  intros H Hm Hb H17 Hs. start H b. unfold read_numeric. do 5 rd. rewrite (Z.gtb_ltb s p), (proj2 (Z.ltb_ge p s)) by lia. cbv zeta.
  rewrite !u32_id by lia. rewrite (Z.gtb_ltb (size b)), (proj2 (Z.ltb_ge _ (size b))) by lia. do 2 rd. sized_end b.
Qed.

(** Values with a length of two bytes. *)
Lemma binary_back t m d off : has message off (value_bytes (client_binary t m d)) -> m < 0xFFFF -> size (default [] d) <= m ->
  exists x, read_binary message t off = Fine x /\ reads_as off (client_binary t m d) x.
Proof.
  intros H Hm Hb. cbn [value_bytes] in H. destruct d as [b|]; cbn [sized default] in *; unfold id in *.
  - start H b. unfold read_binary. repeat (rd || cond).
    eexists. split; [reflexivity|]. unfold reads_as. cbn [fst snd value_token value_type value_table maxLen].
    split_and!; [done|done| |done|cbn [value_bytes sized]; sizes]. by rewrite (token_data _ _ b _ _ _ H) by lia.
  - start H (@nil Z). change (size []) with 0 in *. unfold read_binary, data_at. repeat (rd || cond). eexists. split; [reflexivity|].
    unfold reads_as. cbn [fst snd value_token value_type value_table maxLen]. split_and!; [done|done|done|done|cbn [value_bytes sized]; sizes].
Qed.

(** The declaration of a string. *)
Lemma char_meta_back t m c st off rest : has message off (le_bytes 2 m ++ le_bytes 4 c ++ [st] ++ rest) -> 0 < m <= 0xFFFF ->
  0 <= c < 2 ^ 32 -> TdsGetEncoding c <> -1 ->
  exists meta, GetSetColMetadataForCharType TdsGetEncoding message t off = Fine (m, meta, off + 7) /\ has message (off + 7) rest.
Proof.
  intros H Hm Hc He. start H rest. change (2 ^ 32) with 4294967296 in Hc. unfold GetSetColMetadataForCharType, collation_and_sort.
  repeat (rd || cond). eexists. split; [reflexivity|]. by replace (off + 7) with (off + Z.of_nat 2 + Z.of_nat 4 + Z.of_nat 1) by lia.
Qed.

Lemma char_back t m c st d off : has message off (value_bytes (client_char t m c st d)) -> 0 < m < 0xFFFF -> 0 <= c < 2 ^ 32 ->
  TdsGetEncoding c <> -1 -> size (default [] d) < 0xFFFF ->
  exists x, read_string TdsGetEncoding message t off = Fine x /\ reads_as off (client_char t m c st d) x.
Proof.
  intros H Hm Hc He Hd. unfold read_string. destruct (char_meta_back t _ _ _ _ _ H) as (meta & -> & Hs); [lia|done..|]. cbn [act_bind].
  pose proof (proj1 (has_bound _ _ _ H)). clear H. rename Hs into H. cond. unfold reads_as.
  destruct d as [b|]; cbn [sized default] in *; unfold id in *.
  - start H b. repeat (rd || cond). eexists. split; [reflexivity|]. cbn [fst snd value_token value_type value_table maxLen].
    split_and!; [done|done| |done|cbn [value_bytes sized]; sizes]. by rewrite (token_data _ _ b _ _ _ H) by lia.
  - start H (@nil Z). repeat (rd || cond). eexists. split; [reflexivity|]. cbn [fst snd value_token value_type value_table maxLen].
    split_and!; [done|done|done|done|cbn [value_bytes sized]; sizes].
Qed.

(** A value in chunks. *)
Lemma plp_back t m off b chunks : has message off (le_bytes 8 (size b) ++ chunks) -> plp_form b chunks -> size b < 2 ^ 31 ->
  exists tok, plp_at message t off m = Fine (tok, off + 8 + size chunks) /\ maxLen tok = m /\ isNull tok = false /\
    TdsGetPlpStringInfoBufferFromToken message tok = mk_si (b ++ [0]) (size b) 0.
Proof.
  intros H Hf Hb. pose proof H as (pre & post & E & ->). unfold plp_at, size in *.
  destruct (read_plp_ok (mk_token 0 0 m [] false 0) b chunks pre post Hf Hb) as (tok & Et & Eb).
  rewrite <- E in Et, Eb. rewrite Et. exists tok. split; [f_equal; f_equal; lia|].
  assert (maxLen tok = m /\ isNull tok = false) as [? ?]; [|done].
  unfold ReadPlp in Et. destruct (_ >? _); [done|]. change (2 ^ 31) with 2147483648 in Hb.
  replace (message_uint message _ 8) with (Z.of_nat (length b)) in Et.
  - cbv zeta in Et. rewrite (proj2 (Z.eqb_neq _ PLP_NULL)) in Et by (unfold PLP_NULL; lia).
    destruct (read_chunks _ _ _ _) as [[[l o] k]|]; [|done]. cbn in Et. destruct (_ && _); [done|]. by injection Et as <- _.
  - rewrite E, <- app_assoc. symmetry. apply message_uint_at; [done|done|]. change (256 ^ 8) with 18446744073709551616. lia.
Qed.

Lemma max_back t c st d off : has message off (value_bytes (client_max t c st d)) -> 0 <= c < 2 ^ 32 -> TdsGetEncoding c <> -1 ->
  match d with Some (b, chunks) => size b < 2 ^ 31 /\ plp_form b chunks | None => True end ->
  exists x, read_string TdsGetEncoding message t off = Fine x /\ reads_as off (client_max t c st d) x.
Proof.
  intros H Hc He Hd. unfold read_string. destruct (char_meta_back t _ _ _ _ _ H) as (meta & -> & Hs); [lia|done..|]. cbn [act_bind].
  cbn [Z.eqb Pos.eqb]. unfold reads_as. destruct d as [[b chunks]|].
  - destruct Hd as [Hb Hf]. destruct (plp_back t 65535 _ _ _ Hs Hf Hb) as (tok & -> & Em & En & Et). cbn [act_bind]. eexists. split; [reflexivity|].
    cbn [fst snd value_token value_type value_table maxLen]. split_and!; [done|done| |done|].
    + unfold token_value. rewrite En, Em. cbn [Z.eqb Pos.eqb]. rewrite Et. cbn. f_equal. unfold size. by rewrite Nat2Z.id, take_app_length.
    + cbn [value_bytes]. unfold size. rewrite !length_app, !length_le_bytes. cbn [length]. lia.
  - pose proof (has_bound _ _ _ Hs) as Hbd. rewrite length_le_bytes in Hbd. unfold plp_at, ReadPlp.
    rewrite Z.gtb_ltb, (proj2 (Z.ltb_ge _ _)) by lia. cbv zeta. destruct Hs as (pre & post & E & Ho).
    replace (message_uint message (off + 7) 8) with PLP_NULL.
    + eexists. split; [reflexivity|]. split_and!; [done..|]. cbn [fst snd value_bytes]. sizes.
    + rewrite E. symmetry. by apply message_uint_at.
Qed.

Lemma read_param_value_back n p f off v : has message off (value_bytes v) -> client_ok TdsGetEncoding v ->
  exists x, read_param_value TdsGetEncoding typename_typeschemaname message n p (client_type v) f off = Fine x /\ reads_as off v x.
Proof.
  intros H Hv. unfold read_param_value. destruct v as [t m b|t m c st d|t c st d|t m d|t m pr sc b|b|t sc b]; cbn [client_type client_ok] in *.
  - destruct Hv as (Ht & ? & ?). unfold fixed_types in Ht. set_unfold in Ht. destruct_or! Ht; subst t; by apply fixed_back.
  - destruct Hv as (Ht & ? & ? & ? & ?). unfold char_types in Ht. set_unfold in Ht. destruct_or! Ht; subst t; by apply char_back.
  - destruct Hv as (Ht & ? & ? & ?). unfold char_types in Ht. set_unfold in Ht. destruct_or! Ht; subst t; by apply max_back.
  - destruct Hv as (Ht & ? & ?). set_unfold in Ht. destruct_or! Ht; subst t; by apply binary_back.
  - destruct Hv as (Ht & ? & ? & ? & ?). set_unfold in Ht. destruct_or! Ht; subst t; by apply numeric_back.
  - by apply date_back.
  - destruct Hv as (Ht & ?). set_unfold in Ht. destruct_or! Ht; subst t; by apply time_back.
Qed.
End read.

(** ** Calls of a client *)

Definition units (cs : list Z) : Z := size (cs ≫= utf16) / 2.

Record client_param := mk_cp { cp_name : list Z; cp_flags : Z; cp_value : client_value }.
Definition param_bytes (c : client_param) : bytes :=
  [units (cp_name c)] ++ (cp_name c ≫= utf16) ++ [cp_flags c] ++ [client_type (cp_value c)] ++ value_bytes (cp_value c).

Record client_call := mk_cc { cc_name : list Z; cc_flags : Z; cc_params : list client_param }.
Definition call_bytes (c : client_call) : bytes :=
  le_bytes 2 (units (cc_name c)) ++ (cc_name c ≫= utf16) ++ le_bytes 2 (cc_flags c) ++ concat (map param_bytes (cc_params c)).

Fixpoint batch_bytes (sep : Z) (c : client_call) (cs : list client_call) : bytes :=
  match cs with [] => call_bytes c | c' :: cs => call_bytes c ++ [sep] ++ batch_bytes sep c' cs end.

Lemma units_size cs : 2 * units cs = size (cs ≫= utf16).
Proof. unfold units. pose proof (utf16_even cs). unfold size in *. div_lia. Qed.

Section calls.
Context (tdsVersion : Z) (TdsGetEncoding : Z -> Z) (cache : Z -> Z -> option TdsIoFunctionData).
Context (typename_typeschemaname : bytes -> bytes -> bytes * bytes).

(** The names are short enough for their length bytes, and the server knows the types. *)
Definition param_ok (c : client_param) : Prop :=
  Forall scalar (cp_name c) /\ units (cp_name c) < 128 /\ client_ok TdsGetEncoding (cp_value c) /\
  exists finfo, TdsLookupTypeFunctionsByTdsId cache (server_type (cp_value c)) (i32 (server_len (cp_value c))) = Fine finfo.
Definition call_ok (c : client_call) : Prop :=
  Forall scalar (cc_name c) /\ units (cc_name c) < 0xFFFF /\ 0 <= cc_flags c < 65536 /\
  Forall param_ok (cc_params c) /\ Z.of_nat (length (cc_params c)) < 65536.

Section message.
Context (message : bytes) (Hlen : Z.of_nat (length message) < 2 ^ 31).
Local Notation msgLen := (Z.of_nat (length message)).

Definition server_param (c : client_param) (p : RpcParameter) : Prop :=
  param_type p = server_type (cp_value c) /\ param_flags p = cp_flags c /\ param_name p = cp_name c ≫= utf8 /\
  token_value message (param_token p) = server_value (cp_value c) /\ tvpInfo p = None.

Definition server_call (c : client_call) (r : TDSRequestSP) : Prop :=
  spType r = SP_CUSTOMTYPE /\ name r = cc_name c ≫= utf8 /\ spFlags r = cc_flags c /\
  Forall2 server_param (cc_params c) (dataParameter r) /\ nTotalParams r = Z.of_nat (length (cc_params c)) /\
  idxOutParams r = filter is_out (dataParameter r) /\ nOutParams r = Z.of_nat (length (idxOutParams r)).

Lemma read_name_back cs off rest : has message off ([units cs] ++ (cs ≫= utf16) ++ rest) -> Forall scalar cs -> units cs < 128 ->
  read_param_name message off = Fine (cs ≫= utf8, off + 1 + size (cs ≫= utf16)) /\ has message (off + 1 + size (cs ≫= utf16)) rest.
Proof.
  intros H Hcs Hu. apply has_app in H as [Hl H]. apply has_app in H as [Ht H]. cbn [length] in *. fold (size (cs ≫= utf16)) in H. split; [|done].
  pose proof (units_size cs). pose proof (size_pos (cs ≫= utf16)). pose proof (has_bound _ _ _ Hl). pose proof (has_bound _ _ _ Ht) as Hb. fold (size (cs ≫= utf16)) in Hb.
  cbn [length] in *. unfold read_param_name. rewrite bounds_pass by lia. cbn [act_bind]. rewrite (has_char _ _ _ _ Hl) by lia. cbn [act_bind].
  destruct (Z.gtb_spec (units cs) 0).
  - rewrite bounds_pass by lia. cbn [act_bind]. rewrite (has_text _ _ _ cs _ Ht) by (done || lia). cbn [act_bind]. f_equal. f_equal. lia.
  - destruct cs as [|c cs]; [f_equal; f_equal; unfold size; cbn; lia|]. rewrite bind_cons in *. unfold size in *. rewrite length_app in *.
    pose proof (utf16_length c). destruct (c <=? 65535); lia.
Qed.

Local Notation read_parameter := (read_parameter TdsGetEncoding cache typename_typeschemaname message).
Local Notation read_parameters := (read_parameters tdsVersion TdsGetEncoding cache typename_typeschemaname message).

Lemma read_parameter_back n k c off : has message off (param_bytes c) -> param_ok c ->
  exists p, read_parameter n k off = Fine (p, off + size (param_bytes c)) /\ server_param c p.
Proof.
  intros H (Hcs & Hu & Hv & finfo & Hf). unfold param_bytes in H. destruct (read_name_back _ _ _ H Hcs Hu) as [En Hr].
  pose proof (size_pos (cp_name c ≫= utf16)). pose proof (has_bound _ _ _ H) as [Hoff _]. unfold TdsRpc.read_parameter. rewrite En. cbn [act_bind].
  set (o := off + 1 + size (cp_name c ≫= utf16)) in *. apply has_app in Hr as [Hfl Hr]. apply has_app in Hr as [Ht Hr]. cbn [length] in *.
  pose proof (has_bound _ _ _ Hfl) as Hb1. pose proof (has_bound _ _ _ Ht) as Hb2. cbn [length] in Hb1, Hb2.
  rewrite bounds_pass by lia. cbn [act_bind]. rewrite (has_byte _ _ _ _ Hfl) by lia. cbn [act_bind].
  rewrite bounds_pass by lia. cbn [act_bind]. rewrite (has_byte _ _ _ _ Ht) by lia. cbn [act_bind].
  replace (o + Z.of_nat 1 + Z.of_nat 1) with (o + 2) in Hr by lia.
  destruct (read_param_value_back message Hlen TdsGetEncoding typename_typeschemaname n (cp_name c ≫= utf8) (cp_flags c) _ _ Hr Hv)
    as ([v o'] & -> & Et & El & Ev & Eb & Eo). cbn [act_bind fst snd] in *. rewrite Et, El, Hf. cbn [act_bind]. eexists. split.
  - f_equal. f_equal. rewrite Eo. unfold o, param_bytes, size. rewrite !length_app. cbn [length]. lia.
  - by split_and!.
Qed.

(** The end of the parameters, and where the next call starts. *)
Definition ends (off e : Z) : Prop := off = msgLen /\ e = msgLen \/ has message off [GetRpcBatchSeparator tdsVersion] /\ e = off + 1.

Lemma separator_large : 128 <= GetRpcBatchSeparator tdsVersion.
Proof. unfold GetRpcBatchSeparator. case_match; lia. Qed.

Lemma param_bytes_size c : 3 <= size (param_bytes c).
Proof. unfold param_bytes, size. rewrite !length_app. cbn [length]. lia. Qed.

Lemma read_parameters_back cs e : forall fuel n k off, Forall param_ok cs -> has message off (concat (map param_bytes cs)) ->
  ends (off + size (concat (map param_bytes cs))) e -> (length cs < fuel)%nat ->
  exists ps, read_parameters fuel n k off = Fine (ps, e) /\ Forall2 server_param cs ps.
Proof.
  induction cs as [|c cs IH]; intros fuel n k off Hcs H He Hf; (destruct fuel as [|fuel]; [lia|]); cbn [TdsRpc.read_parameters].
  - exists []. split; [|done]. change (size _) with 0 in He. rewrite Z.add_0_r in He. destruct He as [[-> ->]|[Hs ->]].
    + by rewrite Z.ltb_irrefl.
    + pose proof (has_bound _ _ _ Hs) as Hb. cbn [length] in Hb. rewrite (proj2 (Z.ltb_lt _ _)) by lia.
      rewrite (has_byte _ _ _ _ Hs) by done. cbn [act_bind]. by rewrite Z.eqb_refl.
  - cbn [map concat] in *. apply Forall_cons in Hcs as [Hc Hcs]. pose proof H as H'. apply has_app in H as [H1 H2].
    pose proof (param_bytes_size c). pose proof (has_bound _ _ _ H1) as Hb. fold (size (param_bytes c)) in *.
    rewrite (proj2 (Z.ltb_lt _ _)) by lia. unfold param_bytes in H1. pose proof (proj1 (has_app _ _ _ _ H1)) as Hu.
    rewrite (has_byte _ _ _ _ Hu) by done. cbn [act_bind]. pose proof separator_large. destruct Hc as (? & ? & ? & ?).
    rewrite (proj2 (Z.eqb_neq _ _)) by lia. fold (param_bytes c) in H1.
    destruct (read_parameter_back n k c off H1) as (p & -> & Hp); [done|]. cbn [act_bind].
    destruct (IH fuel n (u16 (k + 1)) _ Hcs H2) as (ps & -> & Hps); [|cbn in Hf; lia|].
    { replace (off + size (param_bytes c) + size (concat (map param_bytes cs))) with (off + size (param_bytes c ++ concat (map param_bytes cs)));
        [done|]. unfold size. rewrite length_app. lia. }
    cbn [act_bind]. exists (p :: ps). split; [done|by constructor].
Qed.

Lemma procedure_back c off : has message off (call_bytes c) -> call_ok c -> exists o,
  rpc_procedure message off = Fine (cc_name c ≫= utf8, SP_CUSTOMTYPE, cc_flags c, o) /\
  has message o (concat (map param_bytes (cc_params c))) /\ o + size (concat (map param_bytes (cc_params c))) = off + size (call_bytes c).
Proof.
  intros H (Hcs & Hu & Hf & _). unfold call_bytes in H. pose proof (units_size (cc_name c)). pose proof (size_pos (cc_name c ≫= utf16)).
  pose proof (has_bound _ _ _ H) as [Hoff _]. apply has_app in H as [Ha H]. apply has_app in H as [Hn H]. apply has_app in H as [Hz H].
  rewrite !length_le_bytes in *. fold (size (cc_name c ≫= utf16)) in *.
  pose proof (has_bound _ _ _ Ha) as Hb1. pose proof (has_bound _ _ _ Hn) as Hb2. pose proof (has_bound _ _ _ Hz) as Hb3.
  rewrite length_le_bytes in Hb1, Hb3. fold (size (cc_name c ≫= utf16)) in Hb2.
  eexists. split; [|split; [exact H|unfold call_bytes, size; rewrite !length_app, !length_le_bytes; lia]].
  unfold rpc_procedure. rewrite bounds_pass by lia. cbn [act_bind]. rewrite (has_uint _ _ _ _ _ _ Ha) by lia. cbn [act_bind].
  rewrite (proj2 (Z.eqb_neq _ _)) by lia. cbn [negb]. rewrite bounds_pass by lia. cbn [act_bind].
  rewrite (has_text _ _ _ _ _ Hn) by (done || lia). cbn [act_bind]. rewrite bounds_pass by lia. cbn [act_bind].
  rewrite (has_uint _ _ _ _ _ _ Hz) by lia. cbn [act_bind]. f_equal. f_equal. lia.
Qed.

Lemma params_count cs : Z.of_nat (length cs) <= size (concat (map param_bytes cs)).
Proof.
  induction cs as [|c cs IH]; [done|]. cbn [map concat length]. unfold size in *. rewrite length_app.
  pose proof (param_bytes_size c) as Hc. unfold size in Hc. lia.
Qed.

Local Notation getRPCRequest := (GetRPCRequest message tdsVersion TdsGetEncoding cache typename_typeschemaname).

Lemma call_back previous c off e : rpc_offset message tdsVersion previous = Fine off -> has message off (call_bytes c) -> call_ok c ->
  ends (off + size (call_bytes c)) e ->
  exists r, getRPCRequest previous = Fine r /\ server_call c r /\ batchSeparatorOffset r = e /\ messageLen r = msgLen.
Proof.
  intros Hoff H Hc He. unfold GetRPCRequest. rewrite Hoff. cbn [act_bind]. destruct (procedure_back c off H Hc) as (o & -> & Hp & Eo). cbn [act_bind].
  destruct Hc as (_ & _ & _ & Hps & Hn). rewrite <- Eo in He. pose proof (has_bound _ _ _ Hp). pose proof (params_count (cc_params c)).
  destruct (read_parameters_back (cc_params c) e (S (length message)) (cc_name c ≫= utf8) 0 o Hps Hp He) as (ps & Er & Hall).
  { unfold size in *. lia. }
  unfold ReadParameters. rewrite Er. cbn [act_bind]. pose proof (Forall2_length _ _ _ Hall) as El.
  assert (length (filter is_out ps) <= length ps)%nat by apply length_filter.
  unfold rpc_request, get_args. cbn -[InitializeDataParamTokenIndex]. rewrite outputs_fine by lia. cbn. eexists. split; [reflexivity|].
  unfold server_call. cbn. split_and!; try done. rewrite <- El. apply u16_id. lia.
Qed.

Lemma call_bytes_pos c : 4 <= size (call_bytes c).
Proof. unfold call_bytes, size. rewrite !length_app, !length_le_bytes. lia. Qed.
Lemma batch_bytes_pos c cs : 4 <= size (batch_bytes (GetRpcBatchSeparator tdsVersion) c cs).
Proof.
  pose proof (call_bytes_pos c). destruct cs; cbn [batch_bytes]; [done|]. unfold size in *. rewrite length_app. lia.
Qed.

Lemma batch_back h cs : stream_offset tdsVersion message = Fine h -> forall fuel previous c off,
  rpc_offset message tdsVersion previous = Fine off -> has message off (batch_bytes (GetRpcBatchSeparator tdsVersion) c cs) ->
  off + size (batch_bytes (GetRpcBatchSeparator tdsVersion) c cs) = msgLen -> Forall call_ok (c :: cs) -> (length cs < fuel)%nat ->
  exists rs, rpc_batch message tdsVersion TdsGetEncoding cache typename_typeschemaname fuel previous = Fine rs /\ Forall2 server_call (c :: cs) rs.
Proof.
  intros Hh. induction cs as [|c' cs IH]; intros fuel previous c off Hoff H Hend Hok Hf; (destruct fuel as [|fuel]; [lia|]);
    apply Forall_cons in Hok as [Hc Hok]; cbn [rpc_batch]; cbn [batch_bytes] in H, Hend; assert (0 <= msgLen < 18446744073709551616) by lia.
  - destruct (call_back previous c off msgLen Hoff H Hc) as (r & -> & Hr & Es & El); [left; lia|]. cbn [act_bind]. rewrite Es, El. cbn [RPCBatchExists].
    rewrite u64_id, Z.ltb_irrefl by lia. exists [r]. split; [done|by constructor].
  - apply has_app in H as [H1 H]. apply has_app in H as [H2 H]. cbn [length] in H.
    pose proof (batch_bytes_pos c' cs). pose proof (proj1 (has_bound _ _ _ H1)). pose proof (call_bytes_pos c). unfold size in Hend. rewrite !length_app in Hend. cbn [length] in Hend. fold (size (call_bytes c)) in *.
    set (e := off + size (call_bytes c) + 1). fold (size (batch_bytes (GetRpcBatchSeparator tdsVersion) c' cs)) in *.
    assert (off + size (call_bytes c) + 1 + size (batch_bytes (GetRpcBatchSeparator tdsVersion) c' cs) = msgLen) as Hend' by (unfold size in *; lia).
    destruct (call_back previous c off e Hoff H1 Hc) as (r & -> & Hr & Es & El); [by right|]. cbn [act_bind]. rewrite Es, El.
    assert (RPCBatchExists (Some (e, msgLen)) = Some e) as Hx by (cbn; rewrite u64_id by lia; by rewrite (proj2 (Z.ltb_lt _ _)) by lia).
    rewrite Hx. destruct (IH fuel (Some (e, msgLen)) c' e) as (rs & -> & Hrs); [|done|done|done|cbn in Hf; lia|].
    { unfold rpc_offset. rewrite Hh. cbn [act_bind]. by rewrite Hx. }
    cbn [act_bind]. exists (r :: rs). split; [done|by constructor].
Qed.
End message.

(** The headers of a message: none before TDS 7.2, and a block that starts with its length after that. *)
Definition headers_ok (headers : bytes) : Prop :=
  if tdsVersion >? TDS_VERSION_7_1_1 then exists rest, headers = le_bytes 4 (size headers) ++ rest else headers = [].

Lemma headers_offset headers body : headers_ok headers -> Z.of_nat (length (headers ++ body)) < 2 ^ 31 ->
  stream_offset tdsVersion (headers ++ body) = Fine (size headers).
Proof.
  unfold headers_ok, stream_offset. intros Hh Hlen. change (2 ^ 31) with 2147483648 in Hlen. rewrite length_app in Hlen.
  destruct (_ >? _); [|by subst]. destruct Hh as [rest E]. unfold ProcessStreamHeaders.
  assert (has (headers ++ body) 0 (le_bytes 4 (size headers))) as H by (exists [], (rest ++ body); split; [cbn [app]; by rewrite (app_assoc (le_bytes 4 _)), <- E|done]).
  assert (4 <= length headers)%nat by (rewrite E, length_app, length_le_bytes; lia).
  rewrite length_app. rewrite (proj2 (Z.ltb_ge _ _)) by lia. unfold size in *.
  rewrite (has_uint _ _ _ _ _ _ H) by lia. cbn [act_bind]. cbv zeta. rewrite i32_id by (apply in_i32_iff; lia).
  by rewrite Z.gtb_ltb, (proj2 (Z.ltb_ge _ _)) by lia.
Qed.
End calls.

Lemma batch_calls sep cs : forall c, (length cs <= length (batch_bytes sep c cs))%nat.
Proof. induction cs as [|c' cs IH]; intros c; cbn [batch_bytes length]; [lia|]. rewrite !length_app. specialize (IH c'). cbn [length]. lia. Qed.

(** ** Properties *)

(** C8: A batch of calls reaches the server the way the client sent it: for every protocol version and every
    batch of procedure calls by name with parameters of the fixed-length, string, (max) string, binary,
    numeric, date and time types, NULLs included, [GetRPCRequest] gives one request for each call, with
    its name, its flags, and for each parameter the name, the flags, the type and the bytes of the value; the
    output parameters are collected in order. *)
Theorem rpc_batch_roundtrip tdsVersion enc cache names headers c cs :
  let message := headers ++ batch_bytes (GetRpcBatchSeparator tdsVersion) c cs in
  headers_ok tdsVersion headers -> Forall (call_ok enc cache) (c :: cs) -> Z.of_nat (length message) < 2 ^ 31 ->
  exists rs, rpc_batch message tdsVersion enc cache names (S (length message)) None = Fine rs /\ Forall2 (server_call message) (c :: cs) rs.
Proof.
  intros message Hh Hok Hlen. pose proof (headers_offset tdsVersion _ _ Hh Hlen) as Ho.
  assert (length (headers ++ batch_bytes (GetRpcBatchSeparator tdsVersion) c cs) = length message) as El by done. rewrite length_app in El.
  eapply (batch_back tdsVersion enc cache names message Hlen _ cs Ho (S (length message)) None c (size headers)); [|..|done|].
  - unfold rpc_offset. fold message in Ho. rewrite Ho. cbn. f_equal. apply u64_id. change (2 ^ 31) with 2147483648 in Hlen. unfold size. lia.
  - exists headers, []. by rewrite app_nil_r.
  - unfold size. lia.
  - pose proof (batch_calls (GetRpcBatchSeparator tdsVersion) cs c). lia.
Qed.

(** Two calls, the first with an integer and a NULL, the second with a string. *)
Definition sample_calls : list client_call :=
  [mk_cc [112] 0 [mk_cp [64; 97] 0 (client_fixed TDS_TYPE_INTEGER 4 [7; 0; 0; 0]); mk_cp [] 1 (client_fixed TDS_TYPE_INTEGER 4 [])];
   mk_cc [113] 2 [mk_cp [] 0 (client_char TDS_TYPE_NVARCHAR 20 0 0 (Some [104; 0; 105; 0]))]].

Lemma rpc_batch_roundtrip_witness : exists message rs,
  rpc_batch message 0x74000004 (fun _ => 0) (fun _ _ => Some (mk_finfo 23 0)) (fun _ _ => ([], [])) (S (length message)) None = Fine rs /\
  Forall2 (server_call message) sample_calls rs.
Proof.
  eexists. eapply (rpc_batch_roundtrip 0x74000004 (fun _ => 0) (fun _ _ => Some (mk_finfo 23 0)) (fun _ _ => ([], [])) (le_bytes 4 4)).
  - exists []. reflexivity.
  - repeat constructor; cbn; try lia; try (by eexists); try (unfold scalar; lia); try (by vm_compute); set_solver.
  - cbn. lia.
Defined.
