(* ===== verification/TdsLogin.v ===== *)
(** * TdsLogin: the handshake of a client ([babelfishpg_tds/src/backend/tds/tdslogin.c])

    The options of the PRELOGIN message and the answer to them, the LOGIN7 message, and what the server
    makes of it.  The input is the rest of the payload that the client sends; [TdsGetbytes] and
    [TdsDiscardbytes] of the packet layer return an error when it ends. *)
From Stdlib Require Import String.
From stdpp Require Import base list numbers.
From S2P Require Import Prelude BitFacts Utf.
Open Scope Z_scope.

Inductive login_error :=
| STATUS_ERROR
| prelogin_no_options
| prelogin_option_length (len : Z)
| prelogin_encryption_length
| certification_not_supported (b : Z)
| invalid_tds_version (v : Z)
| unsupported_tds_version (v : Z)
| invalid_packet_size (n : Z)
| windows_login_not_supported
| no_user_name
| database_name_not_defined
| no_md5_hash
| password_change_not_supported
| login_utf (e : utf_error)
| pointer_freed_twice
| login_no_fuel.

Definition get_bytes (n : Z) (s : bytes) : result login_error (bytes * bytes) :=
  if n <=? Z.of_nat (length s) then Ok (take (Z.to_nat n) s, drop (Z.to_nat n) s) else Err STATUS_ERROR.
Definition discard_bytes (n : Z) (s : bytes) : result login_error bytes :=
  let! x := get_bytes n s in Ok x.2.

(** ** PRELOGIN *)

Definition TDS_PRELOGIN_VERSION : Z := 0x00.
Definition TDS_PRELOGIN_ENCRYPTION : Z := 0x01.
Definition TDS_PRELOGIN_INSTOPT : Z := 0x02.
Definition TDS_PRELOGIN_THREADID : Z := 0x03.
Definition TDS_PRELOGIN_MARS : Z := 0x04.
Definition TDS_PRELOGIN_TRACEID : Z := 0x05.
Definition TDS_PRELOGIN_FEDAUTHREQUIRED : Z := 0x06.
Definition TDS_PRELOGIN_NONCEOPT : Z := 0x07.
Definition TDS_PRELOGIN_TERMINATOR : Z := 0xFF.
Definition TDS_ENCRYPT_OFF : Z := 0x00.
Definition TDS_ENCRYPT_ON : Z := 0x01.
Definition TDS_ENCRYPT_NOT_SUP : Z := 0x02.
Definition TDS_ENCRYPT_REQ : Z := 0x03.
Definition TDS_DEFAULT_INIT_PACKET_SIZE : Z := 4096.

(** The terminator is the last option, with the token 0xFF. *)
Record PreLoginOption := mk_opt { opt_token : Z; opt_offset : Z; opt_length : Z; opt_val : bytes }.

Definition ntoh16 (b : bytes) : Z := le_val (rev b).
Definition hton16 (z : Z) : bytes := rev (le_bytes 2 z).

(** The table of the options.  The fuel bounds the rounds: each takes a byte at least. *)
Fixpoint read_options (fuel : nat) (s : bytes) : result login_error (list PreLoginOption * bytes) :=
  match fuel with
  | O => Err login_no_fuel
  | S fuel =>
      let! x := get_bytes 1 s in
      let token := hd0 x.1 in
      if token =? TDS_PRELOGIN_TERMINATOR then Ok ([mk_opt token 0 0 []], x.2)
      else
        let! o := get_bytes 2 x.2 in
        let! l := get_bytes 2 o.2 in
        let len := ntoh16 l.1 in
        if len >? TDS_DEFAULT_INIT_PACKET_SIZE then Err (prelogin_option_length len)
        else
          let! y := read_options fuel l.2 in
          Ok (mk_opt token (ntoh16 o.1) len [] :: y.1, y.2)
  end.

(** The values follow in the order of the table; the offsets are not looked at. *)
Fixpoint read_values (os : list PreLoginOption) (s : bytes) : result login_error (list PreLoginOption * bytes) :=
  match os with
  | [] => Ok ([], s)
  | [o] => Ok ([o], s)
  | o :: os =>
      let! v := (if opt_length o >? 0 then get_bytes (opt_length o) s else Ok ([], s)) in
      let! y := read_values os v.2 in
      Ok (mk_opt (opt_token o) (opt_offset o) (opt_length o) v.1 :: y.1, y.2)
  end.

(** [type_ok]: the type of the packet is PRELOGIN. *)
Definition ParsePreLoginRequest (type_ok : bool) (s : bytes) : result login_error (list PreLoginOption * bytes) :=
  let! x := read_options (S (length s)) s in
  if Nat.eqb (length x.1) 1 then Err prelogin_no_options
  else
    let! y := read_values x.1 x.2 in
    if type_ok then Ok y else Err STATUS_ERROR.

(** The numbers of the product version, major, minor and micro. *)
Definition makeVersionByte (version : Z * Z * Z) (byteNum : Z) : Z :=
  let '(MajorVersion, MinorVersion, MicroVersion) := version in
  if byteNum =? 0 then Z.land MajorVersion 0xFF
  else if byteNum =? 1 then Z.land MinorVersion 0xFF
  else if byteNum =? 2 then if MicroVersion <=? 0xFF then 0 else Z.land (Z.shiftr MicroVersion 8) 0xFF
  else if byteNum =? 3 then Z.land MicroVersion 0xFF
  else 0.

Section prelogin.
Variable version : Z * Z * Z.
(** The setting [tds_ssl_encrypt], whether TLS is loaded, and whether the connection is a Unix socket. *)
Variables tds_ssl_encrypt loadSsl unix_socket : bool.

(** The answer to the ENCRYPTION option. *)
Definition encryption_answer (reqVal : bytes) : result login_error Z :=
  match reqVal with
  | [] => Err prelogin_encryption_length
  | b :: _ =>
      if loadSsl && negb unix_socket then
        if (b =? TDS_ENCRYPT_ON) || (b =? TDS_ENCRYPT_REQ) then Ok TDS_ENCRYPT_ON
        else if b =? TDS_ENCRYPT_OFF then Ok (if tds_ssl_encrypt then TDS_ENCRYPT_REQ else TDS_ENCRYPT_OFF)
        else if b =? TDS_ENCRYPT_NOT_SUP then Ok (if tds_ssl_encrypt then TDS_ENCRYPT_REQ else TDS_ENCRYPT_NOT_SUP)
        else Err (certification_not_supported b)
      else Ok TDS_ENCRYPT_NOT_SUP
  end.

(** The value of the answer, and [loadEncryption]. *)
Definition SetPreLoginResponseVal (token : Z) (reqVal : bytes) (loadEncryption : Z) : result login_error (bytes * Z) :=
  if token =? TDS_PRELOGIN_VERSION then
    Ok (map (makeVersionByte version) [0; 1; 2; 3] ++ [0; 0], loadEncryption)
  else if token =? TDS_PRELOGIN_ENCRYPTION then
    let! e := encryption_answer reqVal in Ok ([e], e)
  else if token =? TDS_PRELOGIN_INSTOPT then Ok ([0], loadEncryption)
  else if token =? TDS_PRELOGIN_MARS then Ok ([0], loadEncryption)
  else Ok ([], loadEncryption).

(** The options of the answer, without their offsets. *)
Fixpoint response_options (os : list PreLoginOption) (loadEncryption : Z) : result login_error (list PreLoginOption * Z) :=
  match os with
  | [] => Ok ([], loadEncryption)
  | o :: os =>
      if opt_token o =? TDS_PRELOGIN_FEDAUTHREQUIRED then response_options os loadEncryption
      else
        let! v := SetPreLoginResponseVal (opt_token o) (opt_val o) loadEncryption in
        let! r := response_options os v.2 in
        Ok (mk_opt (opt_token o) 0 (Z.of_nat (length v.1)) v.1 :: r.1, r.2)
  end.

Fixpoint set_offsets (offset : Z) (os : list PreLoginOption) : list PreLoginOption :=
  match os with
  | [] => []
  | o :: os => mk_opt (opt_token o) (u16 offset) (opt_length o) (opt_val o) :: set_offsets (offset + opt_length o) os
  end.

(** The table, in which the terminator is a token only, and the values. *)
Fixpoint option_table (os : list PreLoginOption) : bytes :=
  match os with
  | [] => []
  | [o] => [opt_token o]
  | o :: os => [opt_token o] ++ hton16 (opt_offset o) ++ hton16 (opt_length o) ++ option_table os
  end.
Definition option_values (os : list PreLoginOption) : bytes := concat (map opt_val os).

(** The message that is sent, and how much of the connection is encrypted. *)
Definition MakePreLoginResponse (os : list PreLoginOption) : result login_error (bytes * Z) :=
  let! r := response_options os 0 in
  let os := set_offsets (5 * Z.of_nat (length r.1) - 4) r.1 in
  Ok (option_table os ++ option_values os, r.2).
End prelogin.

(** ** LOGIN7 *)

Definition TDS_VERSION_7_0 : Z := 0x70000000.
Definition TDS_VERSION_7_1 : Z := 0x71000000.
Definition TDS_VERSION_7_1_1 : Z := 0x71000001.
Definition TDS_VERSION_7_2 : Z := 0x72090002.
Definition TDS_VERSION_7_3_A : Z := 0x730A0003.
Definition TDS_VERSION_7_3_B : Z := 0x730B0003.
Definition TDS_VERSION_7_4 : Z := 0x74000004.

(** The fixed part of the message, little-endian but for [clientProVersion]. *)
Record login_fixed := mk_fixed {
  lr_length : Z;
  lr_tdsVersion : Z;
  lr_packetSize : Z;
  lr_clientProVersion : Z;
  lr_clientPid : Z;
  lr_connectionId : Z;
  lr_optionFlags1 : Z;
  lr_optionFlags2 : Z;
  lr_typeFlags : Z;
  lr_optionFlags3 : Z;
  lr_clientTimezone : Z;
  lr_clientLcid : Z
}.

(** The attributes in the order of the message. *)
Inductive login_attr :=
| HOSTNAME | USERNAME | PASSWORD | APPNAME | SERVERNAME | UNUSED | LIBRARY | LANGUAGE | DATABASE.
Definition login_attrs : list login_attr :=
  [HOSTNAME; USERNAME; PASSWORD; APPNAME; SERVERNAME; UNUSED; LIBRARY; LANGUAGE; DATABASE].
#[global] Instance login_attr_eq_dec : EqDecision login_attr.
Proof. solve_decision. Defined.

Record LoginRequest := mk_login {
  lr_fixed : login_fixed;
  lr_clientId : bytes;
  lr_texts : list (login_attr * bytes);
  lr_sspi : bytes
}.

(** A text of the request; [None] is the null pointer. *)
Fixpoint assoc (a : login_attr) (l : list (login_attr * bytes)) : option bytes :=
  match l with
  | [] => None
  | (b, t) :: l => if decide (b = a) then Some t else assoc a l
  end.

Definition TSQL_DEFAULT_DB : bytes := bytes_of_string "master".

Definition SizeOfLoginRequestFixed : Z := 36.

Definition u32_at (b : bytes) (i : nat) : Z := le_val (take 4 (drop i b)).
Definition u8_at (b : bytes) (i : nat) : Z := nth i b 0.
Definition pg_bswap32 (z : Z) : Z := le_val (rev (le_bytes 4 z)).
Definition fixed_part (b : bytes) : login_fixed :=
  mk_fixed (u32_at b 0) (u32_at b 4) (u32_at b 8) (pg_bswap32 (u32_at b 12)) (u32_at b 16) (u32_at b 20)
    (u8_at b 24) (u8_at b 25) (u8_at b 26) (u8_at b 27) (u32_at b 28) (u32_at b 32).

(** The password is a string with its half-bytes swapped and masked. *)
Definition clear_byte (p : Z) : Z :=
  u8 (Z.lor (Z.shiftl (Z.lxor (Z.land p 0xff) 0xA5) 4) (Z.shiftr (Z.lxor (Z.land p 0xff) 0xA5) 4)).

Definition check_read (read len : Z) : result login_error unit := if read >? len then Err STATUS_ERROR else Ok tt.

Definition of_login_utf {A} (x : result utf_error A) : result login_error A :=
  match x with Ok a => Ok a | Err e => Err (login_utf e) end.

(** One attribute at its offset: the text, what is read so far and the rest of the input. *)
Definition fetch_attr (len : Z) (a : login_attr) (attr read : Z) (s : bytes) : result login_error (option bytes * Z * bytes) :=
  let offset := u16 attr in
  let length := u16 (Z.shiftr attr 16) in
  if length >? 0 then
    if offset <? read then Err STATUS_ERROR
    else
      let! s := discard_bytes (offset - read) s in
      let read := offset in
      if length >? 128 then Err STATUS_ERROR
      else if decide (a = UNUSED) then
        let! s := discard_bytes length s in
        let read := read + length in
        let! _ := check_read read len in Ok (None, read, s)
      else
        let length := length * 2 in
        let! _ := check_read (read + length) len in
        let! x := get_bytes length s in
        let read := read + length in
        let! _ := check_read read len in
        let b := if decide (a = PASSWORD) then map clear_byte x.1 else x.1 in
        let! text := of_login_utf (TdsUTF16toUTF8StringInfo [] b) in
        Ok (Some (cstring text), read, x.2)
  else Ok (None, read, s).

Fixpoint fetch_attrs (len : Z) (attrs : list (login_attr * Z)) (read : Z) (s : bytes) : result login_error (list (login_attr * bytes) * Z * bytes) :=
  match attrs with
  | [] => Ok ([], read, s)
  | (a, attr) :: attrs =>
      let! x := fetch_attr len a attr read s in
      let '(text, read, s) := x in
      let! y := fetch_attrs len attrs read s in
      let '(texts, read, s) := y in
      Ok (match text with Some t => (a, t) :: texts | None => texts end, read, s)
  end.

(** The data of a Windows login.  The buffers of the texts are released before, and again when the input
    ends here.  [sspiLen] is a [uint16_t]: the comparison with -1 is never true. *)
Definition fetch_sspi (windows_login : bool) (len sspiOffsetLen read : Z) (s : bytes) : result login_error (bytes * Z * bytes) :=
  let offset := u16 sspiOffsetLen in
  let sspiLen := u16 (Z.shiftr sspiOffsetLen 16) in
  if (sspiOffsetLen >? 0) && (sspiLen >? 0) then
    if negb windows_login then Err windows_login_not_supported
    else if offset <? read then Err STATUS_ERROR
    else
      match discard_bytes (offset - read) s with
      | Err _ => Err pointer_freed_twice
      | Ok s =>
          let read := offset in
          let! _ := check_read (read + sspiLen) len in
          match get_bytes sspiLen s with
          | Err _ => Err pointer_freed_twice
          | Ok x => Ok (x.1, read + sspiLen, x.2)
          end
      end
  else Ok ([], read, s).

(** [type_ok]: the type of the packet is LOGIN7. *)
Definition FetchLoginRequest (type_ok windows_login : bool) (s : bytes) : result login_error (LoginRequest * bytes) :=
  let! x := get_bytes SizeOfLoginRequestFixed s in
  let fixed := fixed_part x.1 in
  let len := lr_length fixed in
  if len >? 128 * 1024 then Err STATUS_ERROR
  else
    let! _ := check_read 36 len in
    if negb type_ok then Err STATUS_ERROR
    else
      let! t := get_bytes 36 x.2 in
      let! _ := check_read 72 len in
      let! c := get_bytes 6 t.2 in
      let! _ := check_read 78 len in
      let! p := get_bytes 4 c.2 in
      let! _ := check_read 82 len in
      let attrs := zip login_attrs (map (fun i => u32_at t.1 (4 * i)) (seq 0 9)) in
      let! y := fetch_attrs len attrs 82 p.2 in
      let '(texts, read, s) := y in
      let! z := fetch_sspi windows_login len (le_val p.1) read s in
      let '(sspi, read, s) := z in
      let! s := discard_bytes (len - read) s in
      Ok (mk_login fixed c.1 texts sspi, s).

(** ** What the server makes of it *)

Section login.
Variable tds_default_protocol_version : Z.

Definition set_version (f : login_fixed) (v : Z) : login_fixed :=
  mk_fixed (lr_length f) v (lr_packetSize f) (lr_clientProVersion f) (lr_clientPid f) (lr_connectionId f) (lr_optionFlags1 f)
    (lr_optionFlags2 f) (lr_typeFlags f) (lr_optionFlags3 f) (lr_clientTimezone f) (lr_clientLcid f).

Definition ValidateLoginRequest (f : login_fixed) : result login_error login_fixed :=
  let f := if tds_default_protocol_version >? 0 then set_version f tds_default_protocol_version else f in
  let version := lr_tdsVersion f in
  if negb (existsb (Z.eqb version) [TDS_VERSION_7_0; TDS_VERSION_7_1; TDS_VERSION_7_1_1; TDS_VERSION_7_2; TDS_VERSION_7_3_A;
                                    TDS_VERSION_7_3_B; TDS_VERSION_7_4]) then Err (invalid_tds_version version)
  else if version =? TDS_VERSION_7_0 then Err (unsupported_tds_version version)
  else if negb (lr_packetSize f =? 0) && ((lr_packetSize f <? 512) || (lr_packetSize f >? 32767)) then Err (invalid_packet_size (lr_packetSize f))
  else Ok f.

(** The settings that ODBC and OLE DB clients get; [None] resets to the default. *)
Definition ProcessLoginFlags (f : login_fixed) : result login_error (list (string * option string)) :=
  let settings :=
    if negb (Z.land (lr_optionFlags2 f) 0x02 =? 0) || negb (Z.land (lr_typeFlags f) 0x10 =? 0) then
      [("babelfishpg_tsql.ansi_defaults"%string, Some "ON"%string); ("babelfishpg_tsql.implicit_transactions"%string, Some "OFF"%string);
       ("babelfishpg_tsql.cursor_close_on_commit"%string, Some "OFF"%string);
       ("babelfishpg_tsql.textsize"%string, Some (if lr_tdsVersion f <=? TDS_VERSION_7_2 then "2147483647"%string else "-1"%string));
       ("babelfishpg_tsql.rowcount"%string, None)]
    else [] in
  if negb (Z.land (lr_optionFlags3 f) 0x01 =? 0) then Err password_change_not_supported else Ok settings.

(** [downcase_identifier], [pg_clean_ascii], [pg_md5_hash] as text, which may fail, and [pg_mbcliplen], which
    gives the number of bytes of whole characters within a limit: functions of the server. *)
Variables downcase clean_ascii : bytes -> bytes.
Variable pg_md5_hash : bytes -> option bytes.
Variable pg_mbcliplen : bytes -> nat -> nat.
Definition NAMEDATALEN : nat := 64.
Definition MD5_HASH_LEN : nat := 32.

Definition tds_truncate_identifier_md5 (ident : bytes) : result login_error bytes :=
  match pg_md5_hash (downcase ident) with
  | None => Err no_md5_hash
  | Some md5 => Ok (take (pg_mbcliplen ident (NAMEDATALEN - MD5_HASH_LEN - 1)) ident ++ md5)
  end.

Record Port := mk_port { user_name : bytes; database_name : bytes; application_name : option bytes }.

(** The setting [babelfishpg_tsql.database_name]. *)
Variable gucDatabaseName : option bytes.

(** The texts of a request with one of them replaced. *)
Definition replace_text (a : login_attr) (t : bytes) (texts : list (login_attr * bytes)) : list (login_attr * bytes) :=
  map (fun p => if decide (p.1 = a) then (a, t) else p) texts.
Definition downcase_text (a : login_attr) (texts : list (login_attr * bytes)) : list (login_attr * bytes) :=
  match assoc a texts with Some t => replace_text a (downcase t) texts | None => texts end.

Definition ProcessLoginInternal (type_ok windows_login : bool) (s : bytes) : result login_error (LoginRequest * Port * list (string * option string) * bytes) :=
  match gucDatabaseName with
  | None => Err database_name_not_defined
  | Some gucDatabaseName =>
      let! x := FetchLoginRequest type_ok windows_login s in
      let r := x.1 in
      let! f := ValidateLoginRequest (lr_fixed r) in
      let texts := downcase_text DATABASE (downcase_text USERNAME (lr_texts r)) in
      let db := if decide (gucDatabaseName = bytes_of_string "none") then assoc DATABASE texts else Some gucDatabaseName in
      let app := clean_ascii <$> assoc APPNAME texts in
      let user := if Z.of_nat (length (lr_sspi r)) >? 0 then Some (bytes_of_string "<unknown>") else assoc USERNAME texts in
      match default [] user with
      | [] => Err no_user_name
      | name =>
          let db := match default [] db with [] => TSQL_DEFAULT_DB | d => d end in
          let! y := (if Nat.leb NAMEDATALEN (length name)
                     then let! t := tds_truncate_identifier_md5 name in Ok (t, replace_text USERNAME t texts)
                     else Ok (name, texts)) in
          let! settings := ProcessLoginFlags f in
          Ok (mk_login f (lr_clientId r) y.2 (lr_sspi r), mk_port y.1 db app, settings, x.2)
      end
  end.
End login.

(** Which connections [TdsProcessLogin] secures: TLS for the LOGIN7 message, and for what follows it. *)
Definition login_encrypted (loadEncryption : Z) : bool :=
  (loadEncryption =? TDS_ENCRYPT_ON) || (loadEncryption =? TDS_ENCRYPT_OFF) || (loadEncryption =? TDS_ENCRYPT_REQ).
Definition session_encrypted (loadEncryption : Z) : bool := login_encrypted loadEncryption && negb (loadEncryption =? TDS_ENCRYPT_OFF).
