(* ===== verification/TdsLoginTheorems.v ===== *)
(** * TdsLoginTheorems: the handshake *)
From Stdlib Require Import String.
From stdpp Require Import base list numbers.
From S2P Require Import Prelude BitFacts Utf UtfTheorems TdsLogin.
Open Scope Z_scope.

Lemma get_bytes_ok n s x r : 0 <= n -> get_bytes n s = Ok (x, r) -> s = x ++ r /\ Z.of_nat (length x) = n.
Proof.
  intros Hn. unfold get_bytes. destruct (Z.leb_spec n (Z.of_nat (length s))); [|done]. intros [= <- <-].
  rewrite take_drop, length_take. split; [done|lia].
Qed.
Lemma get_bytes_app n x r : n = Z.of_nat (length x) -> get_bytes n (x ++ r) = Ok (x, r).
Proof.
  intros ->. unfold get_bytes. rewrite length_app, (proj2 (Z.leb_le _ _)) by lia. by rewrite Nat2Z.id, take_app_length, drop_app_length.
Qed.
Lemma discard_bytes_app n x r : n = Z.of_nat (length x) -> discard_bytes n (x ++ r) = Ok r.
Proof. intros H. unfold discard_bytes. by rewrite get_bytes_app. Qed.
Lemma discard_bytes_ok n s r : 0 <= n -> discard_bytes n s = Ok r -> exists x, s = x ++ r /\ Z.of_nat (length x) = n.
Proof.
  intros Hn. unfold discard_bytes. destruct (get_bytes n s) as [[x r']|] eqn:E; [|done]. cbn. intros [= <-].
  exists x. by apply get_bytes_ok.
Qed.

(** ** LOGIN7: what is read *)

(** [k] more bytes of the input were read. *)
Definition consumed (s s' : bytes) (k : Z) : Prop := exists x, s = x ++ s' /\ Z.of_nat (length x) = k.

Lemma consumed_trans s1 s2 s3 a b : consumed s1 s2 a -> consumed s2 s3 b -> consumed s1 s3 (a + b).
Proof. intros (x & -> & <-) (y & -> & <-). exists (x ++ y). rewrite app_assoc, length_app. split; [done|lia]. Qed.
Lemma consumed_0 s : consumed s s 0.
Proof. by exists []. Qed.

Lemma u16_range z : 0 <= u16 z < 65536.
Proof. by apply Z.mod_pos_bound. Qed.

Lemma fetch_attr_reads len a attr read s text read' s' : 0 <= read <= len -> fetch_attr len a attr read s = Ok (text, read', s') ->
  read <= read' <= len /\ consumed s s' (read' - read).
Proof.
  intros Hr. unfold fetch_attr, check_read. cbv zeta. pose proof (u16_range attr). pose proof (u16_range (Z.shiftr attr 16)).
  destruct (Z.gtb_spec (u16 (Z.shiftr attr 16)) 0) as [Hl|]; [|intros [= <- <- <-]; rewrite Z.sub_diag; split; [lia|apply consumed_0]].
  destruct (Z.ltb_spec (u16 attr) read); [done|]. destruct (discard_bytes _ s) as [s1|] eqn:E1; [|done]. cbn [rbind].
  apply discard_bytes_ok in E1; [|lia]. destruct (_ >? 128); [done|]. case_decide.
  - destruct (discard_bytes _ s1) as [s2|] eqn:E2; [|done]. cbn [rbind]. apply discard_bytes_ok in E2; [|lia].
    destruct (Z.gtb_spec (u16 attr + u16 (Z.shiftr attr 16)) len); [done|]. cbn [rbind]. intros [= <- <- <-]. split; [lia|].
    replace (u16 attr + u16 (Z.shiftr attr 16) - read) with (u16 attr - read + u16 (Z.shiftr attr 16)) by lia. by eapply consumed_trans.
  - destruct (Z.gtb_spec (u16 attr + u16 (Z.shiftr attr 16) * 2) len); [done|]. cbn [rbind].
    destruct (get_bytes _ s1) as [[x s2]|] eqn:E2; [|done]. cbn [rbind fst snd]. apply get_bytes_ok in E2 as [-> Hx]; [|lia].
    destruct (of_login_utf _) as [t|]; [|done]. cbn [rbind]. intros [= <- <- <-]. split; [lia|].
    replace (u16 attr + u16 (Z.shiftr attr 16) * 2 - read) with (u16 attr - read + u16 (Z.shiftr attr 16) * 2) by lia.
    eapply consumed_trans; [done|]. by exists x.
Qed.

Lemma fetch_attrs_reads len attrs : forall read s texts read' s', 0 <= read <= len ->
  fetch_attrs len attrs read s = Ok (texts, read', s') -> read <= read' <= len /\ consumed s s' (read' - read).
Proof.
  induction attrs as [|[a attr] attrs IH]; intros read s texts read' s' Hr; cbn [fetch_attrs].
  { intros [= <- <- <-]. rewrite Z.sub_diag. split; [lia|apply consumed_0]. }
  destruct (fetch_attr len a attr read s) as [[[t r1] s1]|] eqn:E1; [|done]. cbn [rbind]. apply fetch_attr_reads in E1 as [? C1]; [|done].
  destruct (fetch_attrs len attrs r1 s1) as [[[ts r2] s2]|] eqn:E2; [|done]. cbn [rbind]. apply IH in E2 as [? C2]; [|lia].
  intros [= <- <- <-]. split; [lia|]. replace (r2 - read) with (r1 - read + (r2 - r1)) by lia. by eapply consumed_trans.
Qed.

Lemma fetch_sspi_reads w len o read s sspi read' s' : 0 <= read <= len -> fetch_sspi w len o read s = Ok (sspi, read', s') ->
  read <= read' <= len /\ consumed s s' (read' - read).
Proof.
  intros Hr. unfold fetch_sspi, check_read. cbv zeta. pose proof (u16_range o). pose proof (u16_range (Z.shiftr o 16)).
  destruct (_ && _); [|intros [= <- <- <-]; rewrite Z.sub_diag; split; [lia|apply consumed_0]]. destruct (negb w); [done|].
  destruct (Z.ltb_spec (u16 o) read); [done|]. destruct (discard_bytes _ s) as [s1|] eqn:E1; [|done]. apply discard_bytes_ok in E1; [|lia].
  destruct (Z.gtb_spec (u16 o + u16 (Z.shiftr o 16)) len); [done|]. cbn [rbind].
  destruct (get_bytes _ s1) as [[x s2]|] eqn:E2; [|done]. apply get_bytes_ok in E2 as [-> Hx]; [|lia]. intros [= <- <- <-]. split; [lia|].
  replace (u16 o + u16 (Z.shiftr o 16) - read) with (u16 o - read + u16 (Z.shiftr o 16)) by lia. eapply consumed_trans; [done|]. by exists x.
Qed.

(** C35: A LOGIN7 message that is accepted is read to its declared length, not more and not less, and that length
    is between 82 and 128 KiB: the next message starts where the client says, whatever the offsets in
    the message are. *)
Theorem login_reads_its_length type_ok windows s r rest : FetchLoginRequest type_ok windows s = Ok (r, rest) ->
  82 <= lr_length (lr_fixed r) <= 131072 /\ consumed s rest (lr_length (lr_fixed r)) /\ type_ok = true.
Proof.
  unfold FetchLoginRequest, check_read. destruct (get_bytes SizeOfLoginRequestFixed s) as [[f s1]|] eqn:E1; [|done]. cbn [rbind fst snd].
  apply get_bytes_ok in E1 as [-> Hf]; [|done]. cbv zeta. set (len := lr_length (fixed_part f)).
  destruct (Z.gtb_spec len (128 * 1024)); [done|]. destruct (36 >? len); [done|]. cbn [rbind].
  destruct type_ok; [|done]. cbn [negb]. destruct (get_bytes 36 s1) as [[t s2]|] eqn:E2; [|done]. cbn [rbind fst snd]. apply get_bytes_ok in E2 as [-> Ht]; [|done].
  destruct (72 >? len); [done|]. cbn [rbind]. destruct (get_bytes 6 s2) as [[c s3]|] eqn:E3; [|done]. cbn [rbind fst snd]. apply get_bytes_ok in E3 as [-> Hc]; [|done].
  destruct (78 >? len); [done|]. cbn [rbind]. destruct (get_bytes 4 s3) as [[p s4]|] eqn:E4; [|done]. cbn [rbind fst snd]. apply get_bytes_ok in E4 as [-> Hp]; [|done].
  destruct (Z.gtb_spec 82 len); [done|]. cbn [rbind].
  destruct (fetch_attrs _ _ _ _) as [[[texts r1] s5]|] eqn:E5; [|done]. cbn [rbind]. apply fetch_attrs_reads in E5 as [? C1]; [|lia].
  destruct (fetch_sspi _ _ _ _ _) as [[[sspi r2] s6]|] eqn:E6; [|done]. cbn [rbind]. apply fetch_sspi_reads in E6 as [? C2]; [|lia].
  destruct (discard_bytes _ s6) as [s7|] eqn:E7; [|done]. cbn [rbind]. apply discard_bytes_ok in E7; [|lia]. intros [= <- <-]. cbn [lr_fixed].
  split; [fold len; lia|]. split; [|done]. fold len.
  replace len with (82 + (r1 - 82) + (r2 - r1) + (len - r2)) by lia. eapply consumed_trans; [|done]. eapply consumed_trans; [|done].
  eapply consumed_trans; [|done]. exists (f ++ t ++ c ++ p). rewrite <- !app_assoc, !length_app. split; [done|]. unfold SizeOfLoginRequestFixed in Hf. lia.
Qed.

(** ** LOGIN7: what a client writes *)

(** The client swaps the half-bytes of the password and then masks them. *)
Definition hide_byte (b : Z) : Z := Z.lxor (u8 (Z.lor (Z.shiftl b 4) (Z.shiftr b 4))) 0xA5.

Lemma clear_hidden b : is_byte b -> clear_byte (hide_byte b) = b.
Proof.
  intros Hb. assert (forallb (fun n => clear_byte (hide_byte (Z.of_nat n)) =? Z.of_nat n) (seq 0 256) = true) as H by (vm_compute; reflexivity).
  rewrite forallb_forall in H. specialize (H (Z.to_nat b)). rewrite Z2Nat.id in H by apply Hb. apply Z.eqb_eq, H.
  apply in_seq. unfold is_byte in Hb. lia.
Qed.

Lemma utf16_bytes cs : Forall scalar cs -> Forall is_byte (cs ≫= utf16).
Proof.
  induction 1 as [|c cs Hc _ IH]; [constructor|]. rewrite bind_cons. apply Forall_app. split; [|done].
  unfold utf16, scalar in *. repeat case_match; try apply le_bytes_bytes; apply Forall_app; split; apply le_bytes_bytes.
Qed.

Lemma cstring_utf8 cs : Forall scalar cs -> cstring (cs ≫= utf8) = cs ≫= utf8.
Proof.
  intros H. apply cstring_clean. induction H as [|c cs Hc _ IH]; [constructor|]. rewrite bind_cons. apply Forall_app. split; [|done].
  unfold scalar, utf8 in *. repeat case_match; repeat constructor; div_lia.
Qed.

Lemma clear_text b : Forall is_byte b -> map clear_byte (map hide_byte b) = b.
Proof. induction 1 as [|x b Hx _ IH]; [done|]. cbn. by rewrite clear_hidden, IH. Qed.

Definition size (b : bytes) : Z := Z.of_nat (length b).
Definition units (cs : list Z) : Z := size (cs ≫= utf16) / 2.

Definition text_bytes (a : login_attr) (cs : list Z) : bytes :=
  if decide (a = PASSWORD) then map hide_byte (cs ≫= utf16) else cs ≫= utf16.

(** The entries of the table for texts one after the other from [off] on. *)
Fixpoint attr_words (off : Z) (texts : list (login_attr * list Z)) : list Z :=
  match texts with
  | [] => []
  | (a, cs) :: texts => off + units cs * 65536 :: attr_words (off + size (cs ≫= utf16)) texts
  end.
Definition texts_bytes (texts : list (login_attr * list Z)) : bytes := concat (map (fun p => text_bytes p.1 p.2) texts).

Definition fixed_bytes (f : login_fixed) : bytes :=
  le_bytes 4 (lr_length f) ++ le_bytes 4 (lr_tdsVersion f) ++ le_bytes 4 (lr_packetSize f) ++ rev (le_bytes 4 (lr_clientProVersion f)) ++
  le_bytes 4 (lr_clientPid f) ++ le_bytes 4 (lr_connectionId f) ++
  [lr_optionFlags1 f; lr_optionFlags2 f; lr_typeFlags f; lr_optionFlags3 f] ++ le_bytes 4 (lr_clientTimezone f) ++ le_bytes 4 (lr_clientLcid f).

(** A message: the table, the address of the client, the entry of the Windows login, other fields, the
    texts, and the data of the Windows login. *)
Definition login_bytes (f : login_fixed) (texts : list (login_attr * list Z)) (id gap sspi tail : bytes) : bytes :=
  let off := 82 + size gap in
  fixed_bytes f ++ concat (map (le_bytes 4) (attr_words off texts)) ++ id ++
  le_bytes 4 (off + size (texts_bytes texts) + size sspi * 65536) ++ gap ++ texts_bytes texts ++ sspi ++ tail.

Lemma text_bytes_size a cs : size (text_bytes a cs) = size (cs ≫= utf16).
Proof. unfold text_bytes, size. case_decide; by rewrite ?length_map. Qed.

Lemma units_pos cs : (units cs >? 0) = bool_decide (cs <> []).
Proof.
  unfold units, size. pose proof (utf16_even cs). destruct cs as [|c cs]; [done|]. rewrite bool_decide_eq_true_2 by done.
  rewrite bind_cons, length_app, utf16_length in *. apply Z.gtb_lt. case_match; div_lia.
Qed.

(** The texts that are not empty, in UTF-8. *)
Fixpoint login_texts (texts : list (login_attr * list Z)) : list (login_attr * bytes) :=
  match texts with
  | [] => []
  | (a, cs) :: texts => if decide (cs = []) then login_texts texts else (a, cs ≫= utf8) :: login_texts texts
  end.

Definition text_ok (p : login_attr * list Z) : Prop := Forall scalar p.2 /\ units p.2 <= 128 /\ (p.1 = UNUSED -> p.2 = []).

Lemma word_parts off n : 0 <= off < 65536 -> 0 <= n < 65536 -> u16 (off + n * 65536) = off /\ u16 (Z.shiftr (off + n * 65536) 16) = n.
Proof.
  intros Ho Hn. rewrite Z.shiftr_div_pow2 by lia. change (2 ^ 16) with 65536. unfold u16, uwrap. change (2 ^ 16) with 65536. split; [div_lia|].
  rewrite Z.div_add by lia. rewrite (Z.div_small off) by lia. rewrite Z.mod_small by lia. lia.
Qed.

Lemma fetch_attrs_back len texts : forall read gap rest, 0 <= read -> Forall text_ok texts ->
  let off := read + size gap in
  off + size (texts_bytes texts) <= len -> off + size (texts_bytes texts) < 65536 ->
  exists gap', fetch_attrs len (zip (map fst texts) (attr_words off texts)) read (gap ++ texts_bytes texts ++ rest) =
    Ok (login_texts texts, off + size (texts_bytes texts) - size gap', gap' ++ rest).
Proof.
  induction texts as [|[a cs] texts IH]; intros read gap rest Hr Hok off Hlen Hmax.
  { exists gap. cbn. f_equal. f_equal. f_equal. unfold off, size. cbn. lia. }
  apply Forall_cons_1 in Hok as [(Hcs & Hu & Hun) Hok]. cbn [fst snd] in Hcs, Hu, Hun. cbn [map fst attr_words zip fetch_attrs].
  assert (size (texts_bytes ((a, cs) :: texts)) = size (cs ≫= utf16) + size (texts_bytes texts)) as Es.
  { pose proof (text_bytes_size a cs). unfold texts_bytes. cbn [map concat fst snd]. unfold size in *. rewrite length_app. lia. }
  assert (size (cs ≫= utf16) = 2 * units cs) as Eu by (unfold units, size in *; pose proof (utf16_even cs); div_lia).
  assert (0 <= size (texts_bytes texts) /\ 0 <= size gap /\ 0 <= size (cs ≫= utf16)) as (? & ? & ?) by (unfold size; lia).
  destruct (word_parts off (units cs)) as [Eo El]; [unfold off in *; lia|lia|]. unfold fetch_attr. cbv zeta. rewrite Eo, El, units_pos.
  destruct (decide (cs = [])) as [->|Hne].
  - rewrite bool_decide_eq_false_2 by tauto. cbn [rbind]. change (size ([] ≫= utf16)) with 0 in *. rewrite Z.add_0_r.
    change (texts_bytes ((a, []) :: texts)) with (text_bytes a [] ++ texts_bytes texts).
    replace (text_bytes a []) with (@nil Z) by (unfold text_bytes; by case_decide). cbn [app].
    destruct (IH read gap rest Hr Hok) as [gap' Eg]; [unfold off in *; lia..|]. fold off in Eg. rewrite Eg. cbn [rbind].
    exists gap'. cbn [login_texts]. rewrite decide_True by done. f_equal.
  - rewrite bool_decide_eq_true_2 by done.
    change (texts_bytes ((a, cs) :: texts)) with (text_bytes a cs ++ texts_bytes texts). rewrite <- app_assoc.
    rewrite (proj2 (Z.ltb_ge _ _)) by (unfold off; lia). rewrite (discard_bytes_app (off - read) gap) by (unfold off, size; lia). cbn [rbind].
    rewrite Z.gtb_ltb, (proj2 (Z.ltb_ge _ _)) by lia. rewrite decide_False by tauto.
    unfold check_read. rewrite !(Z.gtb_ltb _ len), !(proj2 (Z.ltb_ge len _)) by lia. cbn [rbind].
    pose proof (text_bytes_size a cs). rewrite get_bytes_app by (unfold size in *; lia). cbn [rbind fst snd].
    replace (if decide (a = PASSWORD) then map clear_byte (text_bytes a cs) else text_bytes a cs) with (cs ≫= utf16)
      by (unfold text_bytes; case_decide; [by rewrite clear_text by by apply utf16_bytes|done]).
    rewrite utf16_text by done. cbn [of_login_utf rbind app]. rewrite cstring_utf8 by done.
    destruct (IH (off + units cs * 2) [] rest) as [gap' Eg]; [unfold off in *; lia|done|change (size []) with 0; lia..|].
    change (size []) with 0 in Eg. cbv zeta in Eg. cbn [app] in Eg. replace (off + size (cs ≫= utf16)) with (off + units cs * 2 + 0) by lia.
    rewrite Eg. cbn [rbind]. exists gap'. cbn [login_texts]. rewrite decide_False by done. f_equal. f_equal. f_equal. unfold size in *. rewrite ?length_app. lia.
Qed.

Lemma words_back ws : Forall (fun w => 0 <= w < 2 ^ 32) ws ->
  map (fun i => u32_at (concat (map (le_bytes 4) ws)) (4 * i)) (seq 0 (length ws)) = ws.
Proof.
  induction 1 as [|w ws Hw _ IH]; [done|]. cbn [map length seq]. f_equal.
  - cbn [concat map]. unfold u32_at. change (4 * 0)%nat with 0%nat. rewrite drop_0.
    replace 4%nat with (length (le_bytes 4 w)) at 1 by apply length_le_bytes. rewrite take_app_length, le_val_bytes. by apply Z.mod_small.
  - rewrite <- seq_shift, map_map. rewrite <- IH at 2. apply map_ext. intros i. unfold u32_at. cbn [map concat].
    replace (4 * S i)%nat with (length (le_bytes 4 w) + 4 * i)%nat by (rewrite length_le_bytes; lia). by rewrite drop_app_add.
Qed.

(** The fields of the fixed part at their widths. *)
Definition fixed_ok (f : login_fixed) : Prop :=
  Forall (fun z => 0 <= z < 2 ^ 32) [lr_length f; lr_tdsVersion f; lr_packetSize f; lr_clientProVersion f; lr_clientPid f; lr_connectionId f;
    lr_clientTimezone f; lr_clientLcid f].

Lemma fixed_part_back f : fixed_ok f -> fixed_part (fixed_bytes f) = f.
Proof.
  intros H. unfold fixed_ok in H. repeat (let Hx := fresh "Hx" in apply Forall_cons_1 in H as [Hx H]).
  assert (forall z, 0 <= z < 2 ^ 32 -> le_val (le_bytes 4 z) = z) as Hv by (intros; rewrite le_val_bytes; by apply Z.mod_small).
  assert (forall z, 0 <= z < 2 ^ 32 -> pg_bswap32 (le_val (rev (le_bytes 4 z))) = z) as Hs.
  { intros z Hz. unfold pg_bswap32. pose proof (le_bytes_val (rev (le_bytes 4 z))) as E. rewrite length_rev, length_le_bytes in E.
    rewrite E by apply Forall_rev, le_bytes_bytes. by rewrite rev_involutive, Hv. }
  destruct f; simpl in Hx, Hx0, Hx1, Hx2, Hx3, Hx4, Hx5, Hx6.
  unfold fixed_part. f_equal; first [reflexivity | by apply Hs | by apply Hv].
Qed.
Lemma fixed_size f : size (fixed_bytes f) = 36.
Proof. done. Qed.
Lemma attr_words_ok texts : forall off, 0 <= off -> Forall text_ok texts -> off + size (texts_bytes texts) < 65536 ->
  Forall (fun w => 0 <= w < 2 ^ 32) (attr_words off texts).
Proof.
  induction texts as [|[a cs] texts IH]; intros off Ho Hok H; constructor; apply Forall_cons_1 in Hok as [(Hcs & Hu & _) Hok]; cbn [fst snd] in *;
    cbn [texts_bytes map concat fst snd] in H; unfold size in H; rewrite length_app in H; pose proof (text_bytes_size a cs) as E; unfold size in E.
  - assert (0 <= units cs) by (unfold units, size; apply Z.div_pos; lia). lia.
  - apply IH; [unfold size; lia|done|]. unfold texts_bytes, size. lia.
Qed.
Lemma attr_words_length texts : forall off, length (attr_words off texts) = length texts.
Proof. induction texts as [|[a cs] texts IH]; intros off; cbn; [done|by rewrite IH]. Qed.

Lemma fetch_sspi_back w len read gap sspi rest : 0 <= read + size gap -> (sspi <> [] -> w = true) ->
  let off := read + size gap in
  off < 65536 -> size sspi < 65536 -> off + size sspi <= len ->
  exists gap', fetch_sspi w len (off + size sspi * 65536) read (gap ++ sspi ++ rest) = Ok (sspi, off + size sspi - size gap', gap' ++ rest).
Proof.
  intros Hr Hw off Ho Hs Hlen. assert (0 <= size gap) by (unfold size; lia). assert (0 <= size sspi) by (unfold size; lia).
  destruct (word_parts off (size sspi)) as [Eo El]; [unfold off in *; lia..|]. unfold fetch_sspi. rewrite Eo, El.
  destruct sspi as [|x sspi].
  - exists gap. rewrite andb_false_r. f_equal. f_equal. f_equal. unfold off, size. cbn. lia.
  - set (sspi' := x :: sspi) in *. assert (0 < size sspi') by (unfold size, sspi'; cbn; lia). rewrite !Z.gtb_ltb, !(proj2 (Z.ltb_lt 0 _)) by (unfold off in *; lia).
    cbn [andb]. rewrite Hw by done. cbn [negb]. rewrite (proj2 (Z.ltb_ge _ _)) by (unfold off; lia). rewrite discard_bytes_app by (unfold off, size; lia).
    unfold check_read. rewrite Z.gtb_ltb, (proj2 (Z.ltb_ge _ _)) by lia. cbn [rbind]. rewrite get_bytes_app by done.
    exists []. cbn. f_equal. f_equal. f_equal. unfold size. cbn. lia.
Qed.

Lemma check_read_ok n len : n <= len -> check_read n len = Ok tt.
Proof. intros. unfold check_read. by rewrite Z.gtb_ltb, (proj2 (Z.ltb_ge _ _)). Qed.

Lemma concat_words_size ws : size (concat (map (le_bytes 4) ws)) = 4 * Z.of_nat (length ws).
Proof. unfold size. induction ws; [done|]. cbn [map concat length]. rewrite length_app, length_le_bytes. lia. Qed.

(** C11: A LOGIN7 message is read back: the fixed part, the address of the client, each text that is not
    empty (the password among them, from its hidden form) in UTF-8, and the data of a Windows login.
    Other fields may lie before the texts and after the last of them; what follows the message is left. *)
Theorem login_roundtrip w f texts id gap sspi tail rest :
  fixed_ok f -> map fst texts = login_attrs -> Forall text_ok texts -> size id = 6 -> (sspi <> [] -> w = true) -> size sspi < 65536 ->
  82 + size gap + size (texts_bytes texts) < 65536 ->
  lr_length f = 82 + size gap + size (texts_bytes texts) + size sspi + size tail -> lr_length f <= 128 * 1024 ->
  FetchLoginRequest true w (login_bytes f texts id gap sspi tail ++ rest) = Ok (mk_login f id (login_texts texts) sspi, rest).
Proof.
  intros Hf Ha Ht Hid Hw Hs Hoff Hlen Hmax. pose proof (fixed_size f). unfold login_bytes. set (off := 82 + size gap) in *.
  set (total := off + size (texts_bytes texts) + size sspi * 65536).
  assert (length texts = 9%nat) as Hn by (by rewrite <- (length_map fst), Ha). pose proof (attr_words_length texts off) as Hl.
  set (ws := attr_words off texts) in *. pose proof (concat_words_size ws) as Hc. rewrite Hl, Hn in Hc.
  assert (0 <= size gap /\ 0 <= size (texts_bytes texts) /\ 0 <= size sspi /\ 0 <= size tail) as (? & ? & ? & ?) by (unfold size; lia).
  rewrite <- !app_assoc. unfold FetchLoginRequest. rewrite get_bytes_app by done. cbn [rbind fst snd]. rewrite fixed_part_back by done.
  rewrite Z.gtb_ltb, (proj2 (Z.ltb_ge _ _)) by lia. rewrite !check_read_ok by lia. cbn [rbind negb].
  rewrite get_bytes_app by (unfold size in *; lia). cbn [rbind fst snd]. rewrite get_bytes_app by (unfold size in *; lia). cbn [rbind fst snd].
  rewrite get_bytes_app by done. cbn [rbind fst snd].
  replace 9%nat with (length ws) by congruence. rewrite words_back by (apply attr_words_ok; [unfold off; lia|done..]). rewrite <- Ha.
  destruct (fetch_attrs_back (lr_length f) texts 82 gap (sspi ++ tail ++ rest)) as [gap1 E1]; [lia|done|fold off; lia..|].
  fold off ws in E1. cbv zeta in E1. rewrite E1. cbn [rbind].
  rewrite le_val_bytes, Z.mod_small by (unfold total, off in *; lia).
  destruct (fetch_sspi_back w (lr_length f) (off + size (texts_bytes texts) - size gap1) gap1 sspi (tail ++ rest)) as [gap2 E2];
    [unfold off; lia|done|lia|done|lia|]. cbv zeta in E2. rewrite Z.sub_add in E2. unfold total. rewrite E2. cbn [rbind].
  rewrite app_assoc, discard_bytes_app; [done|]. rewrite length_app. unfold size in *. lia.
Qed.

(** ** PRELOGIN *)

Definition is_token (t : Z) : Prop := is_byte t /\ t <> TDS_PRELOGIN_TERMINATOR.
Definition terminator : PreLoginOption := mk_opt TDS_PRELOGIN_TERMINATOR 0 0 [].

(** What is read ends with the terminator, and only there. *)
Lemma read_options_shape fuel : forall s os s', Forall is_byte s -> read_options fuel s = Ok (os, s') ->
  exists os', os = os' ++ [terminator] /\ Forall is_token (map opt_token os').
Proof.
  induction fuel as [|fuel IH]; intros s os s' Hs; [done|]. cbn [read_options].
  destruct (get_bytes 1 s) as [[t s1]|] eqn:E1; [|done]. cbn [rbind fst snd]. apply get_bytes_ok in E1 as [-> Ht]; [|done].
  apply Forall_app in Hs as [Hb Hs]. destruct (Z.eqb_spec (hd0 t) TDS_PRELOGIN_TERMINATOR) as [->|Ht'].
  { intros [= <- <-]. by exists []. }
  destruct (get_bytes 2 s1) as [[o s2]|] eqn:E2; [|done]. cbn [rbind fst snd]. apply get_bytes_ok in E2 as [-> _]; [|done].
  destruct (get_bytes 2 s2) as [[l s3]|] eqn:E3; [|done]. cbn [rbind fst snd]. apply get_bytes_ok in E3 as [-> _]; [|done].
  destruct (_ >? _); [done|]. destruct (read_options fuel s3) as [[ys s4]|] eqn:E4; [|done]. cbn [rbind fst snd]. intros [= <- <-].
  apply Forall_app in Hs as [_ Hs]. apply Forall_app in Hs as [_ Hs].
  apply IH in E4 as (os' & -> & Ho); [|done]. exists (mk_opt (hd0 t) (ntoh16 o) (ntoh16 l) [] :: os'). split; [done|]. constructor; [|done].
  split; [|done]. destruct t; [done|]. by apply Forall_cons_1 in Hb as [? _].
Qed.

Lemma read_values_shape os : forall s t ys s', read_values (os ++ [t]) s = Ok (ys, s') ->
  exists ys', ys = ys' ++ [t] /\ map opt_token ys' = map opt_token os.
Proof.
  induction os as [|o os IH]; intros s t ys s'; cbn [app read_values].
  { intros [= <- <-]. by exists []. }
  destruct (os ++ [t]) as [|z zs] eqn:Ez; [by destruct os|].
  destruct (if _ >? _ then _ else _) as [v|]; [|done]. cbn [rbind].
  destruct (read_values (z :: zs) v.2) as [[y s'']|] eqn:E; [|done]. cbn [rbind fst snd]. intros [= <- <-].
  rewrite <- Ez in E. apply IH in E as (ys' & -> & Hm). eexists (_ :: ys'). split; [done|]. cbn. by rewrite Hm.
Qed.

Lemma ParsePreLoginRequest_shape ok s os s' : Forall is_byte s -> ParsePreLoginRequest ok s = Ok (os, s') ->
  exists os', os = os' ++ [terminator] /\ Forall is_token (map opt_token os').
Proof.
  intros Hs. unfold ParsePreLoginRequest. destruct (read_options _ s) as [[xs s1]|] eqn:E; [|done]. cbn [rbind fst snd].
  destruct (Nat.eqb_spec (length xs) 1) as [?|Hl]; [done|]. apply read_options_shape in E as (xs' & -> & Hx); [|done].
  destruct (read_values _ s1) as [[ys s2]|] eqn:E2; [|done]. cbn [rbind]. destruct ok; [|done]. intros [= <- <-].
  apply read_values_shape in E2 as (ys' & -> & Hm). exists ys'. by rewrite Hm.
Qed.

(** With TLS enforced and available, the session is encrypted exactly for the clients whose message has an
    ENCRYPTION option. *)
Lemma response_encryption version os : forall le r e, response_options version true true false os le = Ok (r, e) ->
  session_encrypted e = existsb (fun o => opt_token o =? TDS_PRELOGIN_ENCRYPTION) os || session_encrypted le.
Proof.
  induction os as [|o os IH]; intros le r e; cbn [response_options existsb]; [by intros [= <- <-]|].
  destruct (Z.eqb_spec (opt_token o) TDS_PRELOGIN_FEDAUTHREQUIRED) as [Et|Et].
  { rewrite Et. apply IH. }
  destruct (SetPreLoginResponseVal _ _ _ _ _ _ _) as [[v le']|] eqn:E; [|done]. cbn [rbind fst snd].
  destruct (response_options _ _ _ _ os le') as [[r' e']|] eqn:Er; [|done]. cbn [rbind fst snd]. intros [= <- <-].
  apply IH in Er. rewrite Er. clear IH Er. unfold SetPreLoginResponseVal in E.
  destruct (Z.eqb_spec (opt_token o) TDS_PRELOGIN_VERSION) as [E1|E1]; [rewrite E1; by injection E as <- <-|].
  destruct (Z.eqb_spec (opt_token o) TDS_PRELOGIN_ENCRYPTION) as [E2|E2].
  - destruct (encryption_answer _ _ _ _) as [x|] eqn:Ea; [|done]. injection E as <- <-. unfold encryption_answer in Ea. cbn [andb negb] in Ea.
    cbn [orb]. rewrite orb_comm. repeat case_match; try done; by injection Ea as <-.
  - repeat case_match; by injection E as <- <-.
Qed.

(** C19: With encryption enforced ([tds_ssl_encrypt]) and TLS available, the rest of a connection is encrypted
    exactly when the PRELOGIN message had an ENCRYPTION option, whatever its value: a client that asks
    for none is answered with REQ, but a client that leaves the option out goes on in clear text. *)
Theorem encryption_enforced version os msg e : MakePreLoginResponse version true true false os = Ok (msg, e) ->
  session_encrypted e = existsb (fun o => opt_token o =? TDS_PRELOGIN_ENCRYPTION) os.
Proof.
  unfold MakePreLoginResponse. destruct (response_options _ _ _ _ _ _) as [[r e']|] eqn:E; [|done].
  cbn [rbind]. intros [= _ <-]. apply response_encryption in E. by rewrite E, orb_false_r.
Qed.

(** An option that can be written, and the entry of the table for it. *)
Definition wire_option (o : PreLoginOption) : Prop :=
  is_token (opt_token o) /\ 0 <= opt_offset o < 65536 /\ opt_length o = size (opt_val o) /\ opt_length o <= 4096.
Definition entry (o : PreLoginOption) : PreLoginOption := mk_opt (opt_token o) (opt_offset o) (opt_length o) [].

Lemma ntoh_hton z : 0 <= z < 65536 -> ntoh16 (hton16 z) = z.
Proof. intros. unfold ntoh16, hton16. rewrite rev_involutive, le_val_bytes. by apply Z.mod_small. Qed.
Lemma hton16_length z : Z.of_nat (length (hton16 z)) = 2.
Proof. unfold hton16. by rewrite length_rev, length_le_bytes. Qed.

Lemma option_table_cons o os t : option_table (o :: os ++ [t]) = [opt_token o] ++ hton16 (opt_offset o) ++ hton16 (opt_length o) ++ option_table (os ++ [t]).
Proof. by destruct os. Qed.
Lemma read_values_cons o os t s : read_values (o :: os ++ [t]) s =
  let! v := (if opt_length o >? 0 then get_bytes (opt_length o) s else Ok ([], s)) in
  let! y := read_values (os ++ [t]) v.2 in
  Ok (mk_opt (opt_token o) (opt_offset o) (opt_length o) v.1 :: y.1, y.2).
Proof. by destruct os. Qed.

Lemma read_options_back os : forall fuel off l v rest, Forall wire_option os -> (length os < fuel)%nat ->
  read_options fuel (option_table (os ++ [mk_opt TDS_PRELOGIN_TERMINATOR off l v]) ++ rest) = Ok (map entry os ++ [terminator], rest).
Proof.
  induction os as [|o os IH]; intros [|fuel] off l v rest Hos Hf; try (cbn in Hf; lia).
  { change (option_table _) with [TDS_PRELOGIN_TERMINATOR]. cbn [read_options]. by rewrite get_bytes_app. }
  apply Forall_cons_1 in Hos as [((Hb & Ht) & Ho & El & Hl) Hos]. cbn [app]. rewrite option_table_cons, <- !app_assoc. cbn [read_options].
  rewrite get_bytes_app by done. cbn [rbind fst snd hd0]. rewrite (proj2 (Z.eqb_neq _ _)) by done.
  rewrite get_bytes_app by (by rewrite hton16_length). cbn [rbind fst snd]. rewrite get_bytes_app by (by rewrite hton16_length). cbn [rbind fst snd].
  rewrite !ntoh_hton by (unfold size in *; lia). rewrite Z.gtb_ltb, (proj2 (Z.ltb_ge _ _)) by (unfold TDS_DEFAULT_INIT_PACKET_SIZE; lia). rewrite IH by (done || (cbn in Hf; lia)). done.
Qed.

Lemma read_values_back os : forall rest, Forall wire_option os ->
  read_values (map entry os ++ [terminator]) (option_values os ++ rest) = Ok (os ++ [terminator], rest).
Proof.
  induction os as [|o os IH]; intros rest Hos; [done|]. apply Forall_cons_1 in Hos as [(_ & _ & El & _) Hos].
  cbn [map app]. rewrite read_values_cons. change (option_values (o :: os)) with (opt_val o ++ option_values os). rewrite <- app_assoc.
  cbn [entry opt_length]. rewrite Z.gtb_ltb. destruct (Z.ltb_spec 0 (opt_length o)).
  - rewrite get_bytes_app by done. cbn [rbind fst snd]. rewrite IH by done. by destruct o.
  - assert (opt_val o = []) as Hv by (destruct (opt_val o); [done|unfold size in El; cbn in El; lia]).
    cbn [rbind fst snd]. rewrite Hv. cbn [app]. rewrite IH by done. destruct o. cbn in Hv. by subst.
Qed.

Lemma option_table_size os : forall t, size (option_table (os ++ [t])) = 5 * Z.of_nat (length os) + 1.
Proof.
  unfold size. induction os as [|o os IH]; intros t; [done|]. cbn [app]. rewrite option_table_cons, !length_app.
  pose proof (hton16_length (opt_offset o)). pose proof (hton16_length (opt_length o)). specialize (IH t). cbn [length]. lia.
Qed.

(** The response as the client parses it. *)
Lemma response_back os off l v rest : Forall wire_option os -> os <> [] ->
  ParsePreLoginRequest true (option_table (os ++ [mk_opt TDS_PRELOGIN_TERMINATOR off l v]) ++ option_values os ++ rest) = Ok (os ++ [terminator], rest).
Proof.
  intros Hos Hne. unfold ParsePreLoginRequest. rewrite read_options_back; [|done|].
  - cbn [rbind fst snd]. rewrite length_app, length_map. destruct (Nat.eqb_spec (length os + length [terminator]) 1) as [E|_].
    { destruct os; [done|]. cbn in E. lia. }
    by rewrite read_values_back.
  - pose proof (option_table_size os (mk_opt TDS_PRELOGIN_TERMINATOR off l v)) as E. unfold size in E. rewrite length_app. lia.
Qed.

Definition answered (o : PreLoginOption) : Prop := opt_length o = size (opt_val o) /\ opt_length o <= 6.

Lemma response_options_shape version t l u os : forall le r e, response_options version t l u (os ++ [terminator]) le = Ok (r, e) ->
  exists r', r = r' ++ [terminator] /\ map opt_token r' = filter (fun t => t <> TDS_PRELOGIN_FEDAUTHREQUIRED) (map opt_token os) /\ Forall answered r'.
Proof.
  induction os as [|o os IH]; intros le r e; cbn [app response_options].
  { cbn. intros [= <- <-]. by exists []. }
  cbn [map]. rewrite filter_cons. destruct (Z.eqb_spec (opt_token o) TDS_PRELOGIN_FEDAUTHREQUIRED) as [Et|Et].
  { rewrite decide_False by tauto. apply IH. }
  rewrite decide_True by done. destruct (SetPreLoginResponseVal _ _ _ _ _ _ _) as [[v le']|] eqn:E; [|done]. cbn [rbind fst snd].
  destruct (response_options _ _ _ _ _ le') as [[r1 e1]|] eqn:Er; [|done]. cbn [rbind fst snd]. intros [= <- <-].
  apply IH in Er as (r' & -> & Hm & Ha). eexists (_ :: r'). split; [done|]. cbn [map opt_token]. split; [by rewrite Hm|]. constructor; [|done].
  split; [done|]. cbn [opt_length]. unfold SetPreLoginResponseVal in E. destruct (encryption_answer _ _ _ _); cbn [rbind] in E;
    repeat case_match; try done; injection E as <- <-; cbn; lia.
Qed.

Lemma set_offsets_app os t : forall off, exists off', set_offsets off (os ++ [t]) = set_offsets off os ++ [mk_opt (opt_token t) off' (opt_length t) (opt_val t)].
Proof.
  induction os as [|o os IH]; intros off; [by eexists|]. destruct (IH (off + opt_length o)) as [off' E]. exists off'. cbn. by rewrite E.
Qed.
Lemma set_offsets_tokens os : forall off, map opt_token (set_offsets off os) = map opt_token os.
Proof. induction os as [|o os IH]; intros off; cbn; [done|by rewrite IH]. Qed.
Lemma set_offsets_length os : forall off, length (set_offsets off os) = length os.
Proof. induction os as [|o os IH]; intros off; cbn; [done|by rewrite IH]. Qed.
Lemma set_offsets_option_values os : forall off, option_values (set_offsets off os) = option_values os.
Proof. unfold option_values. induction os as [|o os IH]; intros off; cbn; [done|by rewrite IH]. Qed.

(** The offsets point at the values. *)
Lemma set_offsets_values os : forall pre rest, Forall answered os -> Forall is_token (map opt_token os) -> size pre + size (option_values os) < 65536 ->
  option_values (set_offsets (size pre) os) = option_values os /\
  Forall (fun o => wire_option o /\ take (Z.to_nat (opt_length o)) (drop (Z.to_nat (opt_offset o)) (pre ++ option_values os ++ rest)) = opt_val o)
    (set_offsets (size pre) os).
Proof.
  induction os as [|o os IH]; intros pre rest Ha Ht Hs; [done|]. apply Forall_cons_1 in Ha as [[E1 E2] Ha]. cbn [map] in Ht.
  apply Forall_cons_1 in Ht as [Ho Ht]. change (option_values (o :: os)) with (opt_val o ++ option_values os) in *.
  assert (size pre + opt_length o = size (pre ++ opt_val o)) as Ep by (rewrite E1; unfold size; rewrite length_app; lia).
  destruct (IH (pre ++ opt_val o) rest) as [Ev Hf]; [done..| |].
  { revert Hs. unfold size. rewrite !length_app. lia. }
  assert (0 <= size pre < 65536) by (unfold size in *; lia).
  cbn [set_offsets]. rewrite Ep. split; [change (option_values (?a :: ?b)) with (opt_val a ++ option_values b); cbn; by rewrite <- Ev at 1|].
  constructor.
  - unfold wire_option. cbn [opt_token opt_offset opt_length opt_val]. rewrite u16_id by lia. split; [split; [done|]; split; [done|]; split; [done|lia]|].
    rewrite E1. unfold size. rewrite !Nat2Z.id, drop_app_length, <- app_assoc. apply take_app_length.
  - rewrite <- !app_assoc in Hf |- *. apply Hf.
Qed.

(** A client that sends no option but FEDAUTHREQUIRED. *)
Lemma response_options_none version t l u os : forall le r e, response_options version t l u (os ++ [terminator]) le = Ok (r, e) ->
  Forall (fun o => opt_token o = TDS_PRELOGIN_FEDAUTHREQUIRED) os -> r = [terminator].
Proof.
  induction os as [|o os IH]; intros le r e; cbn [app response_options].
  - cbn. by intros [= <- <-].
  - intros H Hos. apply Forall_cons_1 in Hos as [Ho Hos]. rewrite Ho, Z.eqb_refl in H. by eapply IH.
Qed.

Lemma terminator_refused rest : ParsePreLoginRequest true (TDS_PRELOGIN_TERMINATOR :: rest) = Err prelogin_no_options.
Proof.
  unfold ParsePreLoginRequest. cbn [read_options]. change (TDS_PRELOGIN_TERMINATOR :: rest) with ([TDS_PRELOGIN_TERMINATOR] ++ rest).
  by rewrite get_bytes_app.
Qed.

(** C20: The answer to a PRELOGIN message, when it is shorter than 65536 bytes, so that its offsets fit
    16 bits.  If the client sent an option other than FEDAUTHREQUIRED the answer is a PRELOGIN message:
    parsed with the rules the server itself applies, it has one option for each that the client sent but
    FEDAUTHREQUIRED, in the same order, and each offset in its table is where the value of the option starts.
    If FEDAUTHREQUIRED was the only option, the answer is the terminator alone, which these rules refuse. *)
Theorem prelogin_response ok s os s' version t l u msg e rest : Forall is_byte s -> ParsePreLoginRequest ok s = Ok (os, s') ->
  MakePreLoginResponse version t l u os = Ok (msg, e) -> size msg < 65536 ->
  if existsb (fun o => negb (opt_token o =? TDS_PRELOGIN_FEDAUTHREQUIRED) && negb (opt_token o =? TDS_PRELOGIN_TERMINATOR)) os then
    exists answer, ParsePreLoginRequest true (msg ++ rest) = Ok (answer, rest) /\
      map opt_token answer = filter (fun t => t <> TDS_PRELOGIN_FEDAUTHREQUIRED) (map opt_token os) /\
      Forall (fun o => take (Z.to_nat (opt_length o)) (drop (Z.to_nat (opt_offset o)) msg) = opt_val o) answer
  else msg = [TDS_PRELOGIN_TERMINATOR] /\ ParsePreLoginRequest true (msg ++ rest) = Err prelogin_no_options.
Proof.
  intros Hs Hp. apply ParsePreLoginRequest_shape in Hp as (init & -> & Ht); [|done]. unfold MakePreLoginResponse.
  destruct (response_options _ _ _ _ _ _) as [[r e']|] eqn:E; [|done]. cbn [rbind fst snd]. intros [= <- <-].
  destruct (existsb _ _) eqn:Hex.
  2: { intros _. apply response_options_none in E as ->; [split; [reflexivity|exact (terminator_refused rest)]|]. apply list.Forall_forall. intros o Ho.
       apply not_true_iff_false in Hex. destruct (Z.eqb_spec (opt_token o) TDS_PRELOGIN_FEDAUTHREQUIRED) as [|Hf]; [done|]. destruct Hex.
       apply existsb_exists. exists o. split; [apply list_elem_of_In, elem_of_app; by left|]. rewrite (proj2 (Z.eqb_neq _ _) Hf).
       assert (is_token (opt_token o)) as Hto by (revert Ht; rewrite list.Forall_forall; intros H0; apply H0; by apply list_elem_of_fmap_2).
       destruct (Z.eqb_spec (opt_token o) TDS_PRELOGIN_TERMINATOR) as [Eq|]; [|done]. unfold is_token in Hto. rewrite Eq in Hto. by destruct Hto. }
  intros Hsz. apply response_options_shape in E as (r' & -> & Hm & Ha).
  assert (Forall is_token (map opt_token r')) as Htok.
  { rewrite Hm. apply list.Forall_forall. intros x [_ Hx]%list_elem_of_filter. revert x Hx. by apply list.Forall_forall. }
  assert (r' <> []) as Hne.
  { intros ->. apply existsb_exists in Hex as (o & Ho & [Hf Hnt]%andb_true_iff). apply negb_true_iff, Z.eqb_neq in Hf, Hnt. apply list_elem_of_In in Ho.
    symmetry in Hm. apply (filter_nil_not_elem_of _ _ (opt_token o)) in Hm; [|done].
    apply Hm. apply elem_of_app in Ho as [Ho|Ho%list_elem_of_singleton]; [by apply list_elem_of_fmap_2|by subst]. }
  revert Hsz.
  assert (5 * Z.of_nat (length (r' ++ [terminator])) - 4 = 5 * Z.of_nat (length r') + 1) as -> by (rewrite length_app; cbn [length]; lia).
  destruct (set_offsets_app r' terminator (5 * Z.of_nat (length r') + 1)) as [off' ->]. cbn [terminator opt_token opt_length opt_val].
  set (ans := set_offsets _ r'). pose proof (option_table_size ans (mk_opt TDS_PRELOGIN_TERMINATOR off' 0 [])) as Hts.
  set (table := option_table _) in *. assert (length ans = length r') as Hla by apply set_offsets_length. rewrite Hla in Hts.
  assert (option_values (ans ++ [mk_opt TDS_PRELOGIN_TERMINATOR off' 0 []]) = option_values r') as ->.
  { unfold option_values at 1. rewrite map_app, concat_app. cbn. rewrite app_nil_r. unfold ans. apply set_offsets_option_values. }
  intros Hsz. destruct (set_offsets_values r' table [] Ha Htok) as [Ev Hf]; [revert Hsz; unfold size; rewrite length_app; lia|].
  rewrite Hts in Ev, Hf. fold ans in Ev, Hf.
  rewrite app_nil_r in Hf. exists (ans ++ [terminator]). split; [|split].
  - rewrite <- app_assoc, <- Ev. apply response_back; [by eapply list.Forall_impl; [apply Hf|intros o [Ho _]]|].
    intros En. apply Hne, length_zero_iff_nil. by rewrite <- Hla, En.
  - rewrite !map_app, list.filter_app. unfold ans. rewrite set_offsets_tokens, Hm. done.
  - apply Forall_app. split; [|by constructor]. by eapply list.Forall_impl; [apply Hf|intros o [_ Ho]].
Qed.

(** ** What the server makes of a login *)

Section accepted.
Variables (default_version : Z) (downcase clean_ascii : bytes -> bytes) (md5 : bytes -> option bytes) (mbcliplen : bytes -> nat -> nat) (guc : option bytes).
(** [pg_md5_hash] writes 32 digits; [pg_mbcliplen] gives no more than its limit. *)
Hypothesis md5_digits : forall b d, md5 b = Some d -> length d = MD5_HASH_LEN.
Hypothesis clip_limit : forall b n, (mbcliplen b n <= n)%nat.

Lemma truncated_fits b t : tds_truncate_identifier_md5 downcase md5 mbcliplen b = Ok t -> (0 < length t < NAMEDATALEN)%nat.
Proof.
  unfold tds_truncate_identifier_md5. destruct (md5 _) as [d|] eqn:E; [|done]. intros [= <-]. apply md5_digits in E. rewrite length_app, E, length_take.
  pose proof (clip_limit b 31). unfold NAMEDATALEN, MD5_HASH_LEN in *. lia.
Qed.

(** C36: A login that is accepted names a protocol version that the server speaks (7.1 to 7.4) and a packet size
    within the limits, does not ask for a change of the password, has a user whose name is not empty and
    fits an identifier, and goes to a database. *)
Theorem login_accepted ok w s r port settings rest :
  ProcessLoginInternal default_version downcase clean_ascii md5 mbcliplen guc ok w s = Ok (r, port, settings, rest) ->
  In (lr_tdsVersion (lr_fixed r)) [TDS_VERSION_7_1; TDS_VERSION_7_1_1; TDS_VERSION_7_2; TDS_VERSION_7_3_A; TDS_VERSION_7_3_B; TDS_VERSION_7_4] /\
  (lr_packetSize (lr_fixed r) = 0 \/ 512 <= lr_packetSize (lr_fixed r) <= 32767) /\
  Z.land (lr_optionFlags3 (lr_fixed r)) 1 = 0 /\ (0 < length (user_name port) < NAMEDATALEN)%nat /\ database_name port <> [].
Proof.
  unfold ProcessLoginInternal. destruct guc as [g0|]; [|done]. destruct (FetchLoginRequest ok w s) as [[q s1]|]; [|done]. cbn [rbind fst snd].
  destruct (ValidateLoginRequest _ _) as [f|] eqn:Ev; [|done]. cbn [rbind].
  match goal with |- match default [] ?u with _ => _ end = _ -> _ => destruct (default [] u) as [|c name]; [done|] end.
  set (user := c :: name). match goal with |- rbind ?m _ = _ -> _ => destruct m as [[u texts]|] eqn:Eu; [|done] end. cbn [rbind fst snd].
  assert ((0 < length u < NAMEDATALEN)%nat) as Hn.
  { revert Eu. destruct (Nat.leb_spec NAMEDATALEN (length user)); [|intros [= <- _]; split; [cbn; lia|done]].
    destruct (tds_truncate_identifier_md5 _ _ _ user) as [t|] eqn:Et; [|done]. cbn [rbind]. intros [= <- _]. by apply truncated_fits in Et. }
  match goal with |- context [mk_port u ?d _] => assert (d <> []) as Hd by (clear; by repeat case_match) end.
  unfold ProcessLoginFlags. destruct (Z.eqb_spec (Z.land (lr_optionFlags3 f) 1) 0) as [E3|]; [|done]. cbn [negb rbind].
  intros [= <- <- _ _]. cbn [lr_fixed user_name database_name].
  unfold ValidateLoginRequest in Ev. revert Ev. set (g := if _ >? _ then _ else _). clearbody g. cbv zeta.
  destruct (existsb _ _) eqn:Ex; [|done]. cbn [negb]. destruct (Z.eqb_spec (lr_tdsVersion g) TDS_VERSION_7_0) as [|Ev0]; [done|].
  destruct (Z.eqb_spec (lr_packetSize g) 0), (Z.ltb_spec (lr_packetSize g) 512), (Z.gtb_spec (lr_packetSize g) 32767); try done;
    intros [= <-]; (split; [|split; [lia|done]]);
    (apply existsb_exists in Ex as (v & [<-|Hv] & Eq%Z.eqb_eq); [done|by rewrite Eq]).
Qed.
End accepted.

(** ** Witnesses *)

Definition sample_fixed : login_fixed := mk_fixed 99 TDS_VERSION_7_4 8000 0x01020304 77 0 0xE0 0x03 0 0 0 1033.
Definition sample_texts : list (login_attr * list Z) :=
  [(HOSTNAME, []); (USERNAME, [115; 97]); (PASSWORD, [0xE9; 49]); (APPNAME, []); (SERVERNAME, []); (UNUSED, []); (LIBRARY, []); (LANGUAGE, []);
   (DATABASE, [0x1F600])].
Definition sample_login : bytes := login_bytes sample_fixed sample_texts [1; 2; 3; 4; 5; 6] [0; 0] [] [7; 7; 7].

(** The witness of the round trip: a user [sa], a password and a database outside of ASCII. *)
Lemma login_roundtrip_witness :
  FetchLoginRequest true false (sample_login ++ [9]) =
    Ok (mk_login sample_fixed [1; 2; 3; 4; 5; 6] [(USERNAME, [115; 97]); (PASSWORD, [0xC3; 0xA9; 49]); (DATABASE, [0xF0; 0x9F; 0x98; 0x80])] [], [9]).
Proof.
  transitivity (@Ok login_error _ (mk_login sample_fixed [1; 2; 3; 4; 5; 6] (login_texts sample_texts) [], [9])); [|vm_compute; reflexivity].
  unfold sample_login. refine (login_roundtrip false sample_fixed sample_texts [1; 2; 3; 4; 5; 6] [0; 0] [] [7; 7; 7] [9] _ _ _ _ _ _ _ _ _).
  - unfold fixed_ok, sample_fixed, TDS_VERSION_7_4. cbn. repeat (constructor; [lia|]). constructor.
  - reflexivity.
  - unfold sample_texts, text_ok, scalar, units. repeat (constructor; [split; [repeat (constructor; [lia|]); constructor|split; [vm_compute; congruence|done]]|]). apply List.Forall_nil.
  - reflexivity.
  - intros H. by destruct H.
  - reflexivity.
  - vm_compute. reflexivity.
  - vm_compute. reflexivity.
  - vm_compute. congruence.
Defined.

Lemma login_reads_its_length_witness : consumed (sample_login ++ [9]) [9] 99.
Proof.
  destruct (login_reads_its_length true false (sample_login ++ [9])
    (mk_login sample_fixed [1; 2; 3; 4; 5; 6] [(USERNAME, [115; 97]); (PASSWORD, [0xC3; 0xA9; 49]); (DATABASE, [0xF0; 0x9F; 0x98; 0x80])] []) [9]) as (_ & H & _).
  - vm_compute. reflexivity.
  - exact H.
Defined.

(** A client that asks for no encryption, and one that leaves the option out. *)
Lemma encryption_enforced_witness :
  (exists e, MakePreLoginResponse (15, 0, 2000) true true false [mk_opt TDS_PRELOGIN_ENCRYPTION 6 1 [TDS_ENCRYPT_NOT_SUP]; terminator] = Ok ([1; 0; 6; 0; 1; 255; 3], e) /\
     session_encrypted e = true) /\
  (exists e, MakePreLoginResponse (15, 0, 2000) true true false [mk_opt TDS_PRELOGIN_MARS 6 1 [0]; terminator] = Ok ([4; 0; 6; 0; 1; 255; 0], e) /\
     session_encrypted e = false).
Proof.
  split; eexists; (split; [vm_compute; reflexivity|]).
  - apply (encryption_enforced (15, 0, 2000) [mk_opt TDS_PRELOGIN_ENCRYPTION 6 1 [TDS_ENCRYPT_NOT_SUP]; terminator] [1; 0; 6; 0; 1; 255; 3]). vm_compute. reflexivity.
  - apply (encryption_enforced (15, 0, 2000) [mk_opt TDS_PRELOGIN_MARS 6 1 [0]; terminator] [4; 0; 6; 0; 1; 255; 0]). vm_compute. reflexivity.
Defined.

Definition sample_prelogin : bytes := [0; 0; 16; 0; 6; 6; 0; 22; 0; 1; 1; 0; 23; 0; 1; 255; 8; 0; 1; 0; 0; 0; 1; 0].
Definition sample_options : list PreLoginOption :=
  [mk_opt 0 16 6 [8; 0; 1; 0; 0; 0]; mk_opt 6 22 1 [1]; mk_opt 1 23 1 [0]; terminator].

Lemma prelogin_response_witness : exists answer,
  ParsePreLoginRequest true ([0; 0; 11; 0; 6; 1; 0; 17; 0; 1; 255; 15; 0; 7; 208; 0; 0; 0] ++ [5]) = Ok (answer, [5]) /\ map opt_token answer = [0; 1; 255].
Proof.
  destruct (prelogin_response true sample_prelogin sample_options [] (15, 0, 2000) false true false
    [0; 0; 11; 0; 6; 1; 0; 17; 0; 1; 255; 15; 0; 7; 208; 0; 0; 0] 0 [5]) as (answer & E & Em & _).
  - unfold sample_prelogin, is_byte. repeat (constructor; [lia|]). constructor.
  - vm_compute. reflexivity.
  - vm_compute. reflexivity.
  - vm_compute. reflexivity.
  - exists answer. by split.
Defined.

Lemma login_accepted_witness : exists r port settings,
  ProcessLoginInternal 0 (fun b => b) (fun b => b) (fun _ => Some (repeat 48 32)) (fun _ n => n) (Some (bytes_of_string "none")) true false (sample_login ++ [9]) =
    Ok (r, port, settings, [9]) /\ (0 < length (user_name port) < NAMEDATALEN)%nat.
Proof.
  destruct (ProcessLoginInternal _ _ _ _ _ _ _ _ _) as [[[[r port] settings] rest]|] eqn:E; [|exfalso; vm_compute in E; discriminate E].
  assert (rest = [9]) as -> by (vm_compute in E; injection E; congruence).
  exists r, port, settings. split; [reflexivity|].
  destruct (login_accepted 0 (fun b => b) (fun b => b) (fun _ => Some (repeat 48 32)) (fun _ n => n) (Some (bytes_of_string "none"))
    ltac:(by intros ? ? [= <-]) (fun _ n => le_n n) true false (sample_login ++ [9]) r port settings [9] E) as (_ & _ & _ & H & _).
  exact H.
Defined.
