(* ===== verification/TdsVariant.v ===== *)
(** * TdsVariant: values of VARCHAR, XML and SQL_VARIANT columns
    ([babelfishpg_tds/src/backend/tds/tdstypeio.c], [babelfishpg_common/src/sqlvariant.c])

    [TdsTypeSqlVariantToDatum] makes the stored form of a SQL_VARIANT from the bytes of the client: a
    varlena header, a header with the base type, and the value.  It reads at fixed places of the buffer and
    writes into memory whose size follows from the length the client gave; an access outside of
    either is [OverAccess]. *)
From stdpp Require Import base list numbers.
From S2P Require Import Prelude BitFacts Utf SoftFloat Calendar DatetimeOffset TdsTimestamp TdsColMeta TdsTypeRecv.
Open Scope Z_scope.

Definition VARIANT_TYPE_UNIQUEIDENTIFIER : Z := 36.
Definition VARIANT_TYPE_DATE : Z := 40.
Definition VARIANT_TYPE_TIME : Z := 41.
Definition VARIANT_TYPE_DATETIME2 : Z := 42.
Definition VARIANT_TYPE_DATETIMEOFFSET : Z := 43.
Definition VARIANT_TYPE_TINYINT : Z := 48.
Definition VARIANT_TYPE_BIT : Z := 50.
Definition VARIANT_TYPE_SMALLINT : Z := 52.
Definition VARIANT_TYPE_INT : Z := 56.
Definition VARIANT_TYPE_SMALLDATETIME : Z := 58.
Definition VARIANT_TYPE_REAL : Z := 59.
Definition VARIANT_TYPE_MONEY : Z := 60.
Definition VARIANT_TYPE_DATETIME : Z := 61.
Definition VARIANT_TYPE_FLOAT : Z := 62.
Definition VARIANT_TYPE_DECIMAL : Z := 106.
Definition VARIANT_TYPE_NUMERIC : Z := 108.
Definition VARIANT_TYPE_SMALLMONEY : Z := 122.
Definition VARIANT_TYPE_BIGINT : Z := 127.
Definition VARIANT_TYPE_VARBINARY : Z := 165.
Definition VARIANT_TYPE_VARCHAR : Z := 167.
Definition VARIANT_TYPE_BINARY : Z := 173.
Definition VARIANT_TYPE_CHAR : Z := 175.
Definition VARIANT_TYPE_NVARCHAR : Z := 231.
Definition VARIANT_TYPE_NCHAR : Z := 239.

Definition one_of (t : Z) (ts : list Z) : bool := existsb (Z.eqb t) ts.

(** What lies outside: the conversion of an encoding to UTF-8, the encoding that an XML declaration names, the
    XML parser, and the memory of the numeric that the server makes of a text. *)
Record conversions := mk_conversions {
  TdsEncodingConversion : Z -> bytes -> result rd_error bytes;
  xml_encoding : bytes -> result rd_error (option Z);
  tds_xml_parse : Z -> bytes -> result rd_error unit;
  TdsSetVarFromStrWrapper : bytes -> result rd_error bytes
}.

Section conversions.
Variable conv : conversions.

Definition rd_ok {A} (m : strinfo) (x : result rd_error A) : rd A := rd_result (fun e => e) m x.

(** ** VARCHAR *)

(** [tsql_varchar_input] and [tsql_char_input] without a length keep the text; [cstring_to_text] ends it at
    a NUL. *)
Definition TdsAnyToServerEncodingConversion (encoding tdsColDataType : Z) (str : bytes) : result rd_error bytes :=
  let! pstring := TdsEncodingConversion conv encoding str in
  if (tdsColDataType =? TDS_TYPE_VARCHAR) || (tdsColDataType =? TDS_TYPE_CHAR) then Ok pstring
  else if tdsColDataType =? TDS_TYPE_TEXT then Ok (cstring pstring)
  else Err (unsupported_text_type tdsColDataType).

(** The byte behind the value, the terminator of the message at the last one, is saved and put back. *)
Definition TdsTypeVarcharToDatum (m : strinfo) (encoding tdsColDataType : Z) : rd bytes :=
  if (0 <=? si_len m) && (si_len m <=? Z.of_nat (length (si_data m)))
  then rd_ok m (TdsAnyToServerEncodingConversion encoding tdsColDataType (take (Z.to_nat (si_len m)) (si_data m)))
  else OverAccess.

(** ** XML *)

Definition PG_UTF8 : Z := 6.

(** Without an encoding in its declaration the value is UTF-16. *)
Definition TdsTypeXMLToDatum (m : strinfo) : rd bytes :=
  get! str, m := GetMsgBytes m (si_len m - si_cursor m) in
  get! encoding, m := rd_ok m (xml_encoding conv str) in
  get! result, m :=
    (match encoding with Some _ => Got str m | None => rd_result utf_failure m (TdsUTF16toUTF8StringInfo [] str) end) in
  get! _, m := rd_ok m (tds_xml_parse conv (default PG_UTF8 encoding) result) in
  Got result m.

(** ** SQL_VARIANT: the base type *)

(** The code of the base type in the server, and the length of what stands before the data. *)
Definition variant_base_types : list (Z * (Z * Z)) :=
  [(VARIANT_TYPE_BIT, (16, 2)); (VARIANT_TYPE_TINYINT, (15, 2)); (VARIANT_TYPE_SMALLINT, (14, 2)); (VARIANT_TYPE_INT, (13, 2));
   (VARIANT_TYPE_BIGINT, (12, 2)); (VARIANT_TYPE_REAL, (8, 2)); (VARIANT_TYPE_FLOAT, (7, 2)); (VARIANT_TYPE_CHAR, (20, 9));
   (VARIANT_TYPE_NCHAR, (18, 9)); (VARIANT_TYPE_VARCHAR, (19, 9)); (VARIANT_TYPE_NVARCHAR, (17, 9)); (VARIANT_TYPE_BINARY, (22, 4));
   (VARIANT_TYPE_VARBINARY, (21, 4)); (VARIANT_TYPE_DATE, (5, 2)); (VARIANT_TYPE_TIME, (6, 3)); (VARIANT_TYPE_SMALLDATETIME, (4, 2));
   (VARIANT_TYPE_DATETIME, (3, 2)); (VARIANT_TYPE_DATETIME2, (2, 3)); (VARIANT_TYPE_UNIQUEIDENTIFIER, (23, 2));
   (VARIANT_TYPE_NUMERIC, (9, 5)); (VARIANT_TYPE_DECIMAL, (9, 5)); (VARIANT_TYPE_MONEY, (10, 2)); (VARIANT_TYPE_SMALLMONEY, (11, 2));
   (VARIANT_TYPE_DATETIMEOFFSET, (1, 3))].
Fixpoint base_type (t : Z) (l : list (Z * (Z * Z))) : option (Z * Z) :=
  match l with
  | [] => None
  | (v, x) :: l => if t =? v then Some x else base_type t l
  end.

(** [svhdr_size] of the types with these codes. *)
Definition svhdr_sizes : list Z := [1; 2; 2; 1; 1; 1; 2; 1; 1; 3; 1; 1; 1; 1; 1; 1; 1; 5; 5; 5; 5; 3; 3; 1].

Definition is_nchar (t : Z) : bool := one_of t [VARIANT_TYPE_NCHAR; VARIANT_TYPE_NVARCHAR].

(** The code, the length of the data and that of the header.  The length of UTF-16 is computed anew. *)
Definition TdsGetPGbaseType (t tempLen : Z) : option (Z * Z * Z) :=
  match base_type t variant_base_types with
  | None => None
  | Some (pgBaseType, metaLen) =>
      let dataLen := tempLen - metaLen in
      Some (pgBaseType, if is_nchar t then Z.quot dataLen 2 else dataLen, nth (Z.to_nat pgBaseType) svhdr_sizes 0)
  end.

(** ** Reading and writing *)

(** [memcpy] of [n] bytes from [buf->data[off]]; a negative length is a huge one. *)
Definition bytes_at (m : strinfo) (off n : Z) : rd bytes :=
  if (0 <=? n) && (0 <=? off) && (off + n <=? Z.of_nat (length (si_data m)))
  then Got (take (Z.to_nat n) (drop (Z.to_nat off) (si_data m))) m
  else OverAccess.
Definition uint_at (m : strinfo) (off n : Z) : rd Z := get! b, m := bytes_at m off n in Got (le_val b) m.

(** [memcpy] into the memory of the result behind its varlena header. *)
Definition store_at (body : bytes) (off : Z) (b : bytes) (m : strinfo) : rd bytes :=
  if (0 <=? off) && (off + Z.of_nat (length b) <=? Z.of_nat (length body))
  then Got (take (Z.to_nat off) body ++ b ++ drop (Z.to_nat off + length b) body) m
  else OverAccess.

Definition SwapByte (body : bytes) (st ed : Z) (m : strinfo) : rd bytes :=
  if (0 <=? st) && (st <? Z.of_nat (length body)) && (0 <=? ed) && (ed <? Z.of_nat (length body))
  then Got (swap_at body (Z.to_nat st) (Z.to_nat ed)) m
  else OverAccess.

Definition VARHDRSZ : Z := 4.
Definition SET_VARSIZE (len : Z) : bytes := le_bytes 4 (u32 (Z.shiftl len 2)).

(** The filled memory with [scale], [precision] and [maxLen]. *)
Definition filled : Type := bytes * (Z * Z * Z).
Local Notation "'fill!' body := x 'in' k" := (rd_bind x (fun body _ => k)) (at level 10, body name, x at level 100, k at level 200).

(** ** Text and binary data *)

Definition variant_text (t hdr dataLen : Z) (strbuf body : bytes) (m : strinfo) : rd filled :=
  fill! body := store_at body hdr (SET_VARSIZE (VARHDRSZ + dataLen)) m in
  fill! maxLen := uint_at m 7 2 in
  fill! b := (if is_nchar t then Got strbuf m else bytes_at m 9 dataLen) in
  fill! body := store_at body (hdr + VARHDRSZ) b m in
  Got (body, (0, 0, maxLen)) m.

Definition variant_binary (hdr dataLen : Z) (body : bytes) (m : strinfo) : rd filled :=
  fill! body := store_at body hdr (SET_VARSIZE (VARHDRSZ + dataLen)) m in
  fill! maxLen := uint_at m 2 2 in
  fill! b := bytes_at m 4 dataLen in
  fill! body := store_at body (hdr + VARHDRSZ) b m in
  Got (body, (0, 0, maxLen)) m.

(** ** Dates and times *)

Context `{PgCalendar}.
Variable bad_cast : Z.

Definition variant_date (hdr : Z) (body : bytes) (m : strinfo) : rd filled :=
  fill! date := uint_at m 2 3 in
  fill! _ := rd_result date_error m (TdsCheckDateValidity (i32 date)) in
  fill! body := store_at body hdr (le_bytes 4 (u32 (TdsTimeGetDatumFromDays (u32 date)))) m in
  Got (body, (0, 0, 0)) m.

Definition variant_smalldatetime (hdr : Z) (body : bytes) (m : strinfo) : rd filled :=
  fill! numDays := uint_at m 2 2 in
  fill! numMins := uint_at m 4 2 in
  fill! timestamp := rd_result date_error m (TdsTimeGetDatumFromSmalldatetime numDays numMins) in
  fill! body := store_at body hdr (le_bytes 8 (u64 timestamp)) m in
  Got (body, (0, 0, 0)) m.

Definition variant_datetime (hdr : Z) (body : bytes) (m : strinfo) : rd filled :=
  fill! numDays32 := uint_at m 2 4 in
  fill! numTicks := uint_at m 6 4 in
  fill! timestamp := rd_result date_error m (TdsTimeGetDatumFromDatetime bad_cast numDays32 numTicks) in
  fill! body := store_at body hdr (le_bytes 8 (u64 timestamp)) m in
  Got (body, (0, 0, 0)) m.

(** A scale that is too large counts as 7. *)
Definition known_scale (scale : Z) : Z := if scale >? 7 then DATETIMEOFFSETMAXSCALE else scale.
Definition variant_time_length (scale : Z) : Z := if scale <=? 2 then 3 else if scale <=? 4 then 4 else 5.

(** The number of microseconds wraps at 64 bits. *)
Definition variant_time (hdr : Z) (body : bytes) (m : strinfo) : rd filled :=
  fill! temp := uint_at m 2 1 in
  let scale := known_scale temp in
  fill! numMicro := uint_at m 3 (variant_time_length scale) in
  let numMicro := if (temp =? 7) || (temp =? 0xff) then numMicro / 10 else numMicro in
  let numMicro := u64 (numMicro * 10 ^ Z.max 0 (6 - scale)) in
  fill! body := store_at body hdr (le_bytes 8 numMicro) m in
  Got (body, (temp, 0, 0)) m.

(** The days come before the time. *)
Definition variant_datetime2 (hdr : Z) (body : bytes) (m : strinfo) : rd filled :=
  fill! temp := uint_at m 2 1 in
  let scale := known_scale temp in
  fill! numDays32 := uint_at m 3 3 in
  fill! numMicro := uint_at m 6 (variant_time_length scale) in
  fill! timestamp := rd_result date_error m (TdsGetTimestampFromDayTime bad_cast numDays32 numMicro 0 (Z.to_nat scale)) in
  fill! body := store_at body hdr (le_bytes 8 (u64 timestamp)) m in
  Got (body, (scale, 0, 0)) m.

(** The structure occupies 16 bytes. *)
Definition variant_datetimeoffset (hdr : Z) (body : bytes) (m : strinfo) : rd filled :=
  fill! temp := uint_at m 2 1 in
  let scale := known_scale temp in
  let dataLen := variant_time_length scale + 5 in
  fill! numDays32 := uint_at m (dataLen - 2) 3 in
  fill! numMicro := uint_at m 3 (dataLen - 5) in
  fill! tz := uint_at m (dataLen + 1) 2 in
  let timezone := i16 (i16 tz * -1) in
  fill! timestamptz := rd_result date_error m (TdsGetTimestampFromDayTime bad_cast numDays32 numMicro timezone (Z.to_nat scale)) in
  let tdt := of_utc timestamptz timezone in
  fill! body := store_at body hdr (le_bytes 8 (u64 (tsql_ts tdt)) ++ le_bytes 2 (u16 (tsql_tz tdt)) ++ replicate 6 0) m in
  Got (body, (scale, 0, 0)) m.

(** ** Numbers *)

(** The text of the number.  The point goes [scale] places before the end of the sign and the digits, and when there
    are fewer of them before the start. *)
Definition variant_numeric_text (sign num : Z) (scale : nat) : option bytes :=
  if negb (num =? 0) then
    buf ← Integer2String num (replicate 40 0);
    s ← c_string buf;
    let len := length s in
    if decide (len < scale)%nat then None
    else
      x ← shift_point scale len 46 buf;
      buf ← store x.2 len x.1;
      t ← c_string buf;
      Some (if sign =? 1 then tail t else t)
  else zero_text scale.

(** Sixteen bytes are read whatever the length of the data, and sixteen bytes of the numeric are copied whatever
    its length. *)
Definition variant_numeric (hdr dataLen : Z) (body : bytes) (m : strinfo) : rd filled :=
  fill! body := store_at body hdr (SET_VARSIZE (VARHDRSZ + dataLen)) m in
  fill! precision := uint_at m 2 1 in
  fill! scale := uint_at m 3 1 in
  fill! sign := uint_at m 4 1 in
  fill! num := uint_at m 5 16 in
  fill! decString := numeric_result m (variant_numeric_text sign num (Z.to_nat scale)) in
  fill! res := rd_ok m (TdsSetVarFromStrWrapper conv decString) in
  fill! b := (if Z.of_nat (length res) <? 16 then OverAccess else Got (take 16 res) m) in
  fill! body := store_at body hdr b m in
  Got (body, (scale, precision, 0)) m.

Fixpoint swap_bytes (l : list (Z * Z)) (hdr : Z) (body : bytes) (m : strinfo) : rd bytes :=
  match l with
  | [] => Got body m
  | (i, j) :: l => fill! body := SwapByte body (hdr + i) (hdr + j) m in swap_bytes l hdr body m
  end.

Definition variant_fixed (t hdr dataLen : Z) (body : bytes) (m : strinfo) : rd filled :=
  fill! b := bytes_at m 2 dataLen in
  fill! body := store_at body hdr b m in
  fill! body :=
    (if t =? VARIANT_TYPE_MONEY then swap_bytes [(0, 4); (1, 5); (2, 6); (3, 7)] hdr body m
     else if t =? VARIANT_TYPE_UNIQUEIDENTIFIER then swap_bytes [(0, 3); (1, 2); (4, 5); (6, 7)] hdr body m
     else Got body m) in
  Got (body, (0, 0, 0)) m.

(** ** The result *)

Definition variant_fill (t hdr dataLen : Z) (strbuf body : bytes) (m : strinfo) : rd filled :=
  if one_of t [VARIANT_TYPE_CHAR; VARIANT_TYPE_NCHAR; VARIANT_TYPE_VARCHAR; VARIANT_TYPE_NVARCHAR] then variant_text t hdr dataLen strbuf body m
  else if one_of t [VARIANT_TYPE_BINARY; VARIANT_TYPE_VARBINARY] then variant_binary hdr dataLen body m
  else if t =? VARIANT_TYPE_DATE then variant_date hdr body m
  else if t =? VARIANT_TYPE_SMALLDATETIME then variant_smalldatetime hdr body m
  else if t =? VARIANT_TYPE_DATETIME then variant_datetime hdr body m
  else if t =? VARIANT_TYPE_TIME then variant_time hdr body m
  else if t =? VARIANT_TYPE_DATETIME2 then variant_datetime2 hdr body m
  else if t =? VARIANT_TYPE_DATETIMEOFFSET then variant_datetimeoffset hdr body m
  else if one_of t [VARIANT_TYPE_NUMERIC; VARIANT_TYPE_DECIMAL] then variant_numeric hdr dataLen body m
  else variant_fixed t hdr dataLen body m.

(** The header: the code and version 1, then the type modifier. *)
Definition TdsSetMetaData (body : bytes) (pgBaseType scale precision maxLen : Z) (m : strinfo) : rd bytes :=
  let metadata := u8 (Z.lor (Z.shiftl pgBaseType 3) 1) in
  store_at body 0
    (if one_of pgBaseType [6; 2; 1] then [metadata; u8 scale]
     else if pgBaseType =? 9 then metadata :: le_bytes 2 (u16 (Z.lor (Z.shiftl precision 8) scale))
     else if one_of pgBaseType [22; 21; 20; 18; 19; 17] then metadata :: le_bytes 2 (u16 maxLen)
     else [metadata]) m.

(** The types with a varlena header of their own, or room for one. *)
Definition variant_varlena : list Z :=
  [VARIANT_TYPE_CHAR; VARIANT_TYPE_NCHAR; VARIANT_TYPE_VARCHAR; VARIANT_TYPE_NVARCHAR; VARIANT_TYPE_BINARY; VARIANT_TYPE_VARBINARY;
   VARIANT_TYPE_NUMERIC; VARIANT_TYPE_DECIMAL; VARIANT_TYPE_TIME; VARIANT_TYPE_DATETIME2; VARIANT_TYPE_DATETIMEOFFSET].

(** UTF-16 from the tenth byte on; a length that is negative gives no text. *)
Definition variant_utf16 (t tempLen : Z) (m : strinfo) : rd bytes :=
  if negb (is_nchar t) then Got [] m
  else if Z.odd (tempLen - 9) then Failed (utf_failure odd_number_of_bytes)
  else if tempLen - 9 <? 0 then Got [] m
  else fill! b := bytes_at m 9 (tempLen - 9) in rd_result utf_failure m (TdsUTF16toUTF8StringInfo [] b).

Definition VARATT_SHORT_MAX : Z := 0x7F.
Definition MaxAllocSize : Z := 0x3fffffff.

Definition TdsTypeSqlVariantToDatum (m : strinfo) : rd bytes :=
  fill! t := uint_at m 0 1 in
  let tempLen := si_len m - si_cursor m in
  match TdsGetPGbaseType t tempLen with
  | None => Failed (unsupported_base_type t)
  | Some (pgBaseType, dataLen, hdr) =>
      fill! strbuf := variant_utf16 t tempLen m in
      let dataLen := if is_nchar t then Z.of_nat (length strbuf) else dataLen in
      let n := dataLen + hdr + (if one_of t variant_varlena then VARHDRSZ else 0) in
      let short := n + 1 <=? VARATT_SHORT_MAX in
      let resLen := if short then n + 1 else n + VARHDRSZ in
      if (resLen <? 0) || (resLen >? MaxAllocSize) then Failed invalid_alloc_size
      else if n <? 0 then OverAccess
      else
        fill! r := variant_fill t hdr dataLen strbuf (replicate (Z.to_nat n) 0) m in
        fill! body := TdsSetMetaData r.1 pgBaseType r.2.1.1 r.2.1.2 r.2.2 m in
        Got ((if short then [u8 (Z.lor (Z.shiftl resLen 1) 1)] else SET_VARSIZE resLen) ++ body) (move_cursor m tempLen)
  end.
End conversions.
