(* ===== verification/TdsBulk.v ===== *)
(** * TdsBulk: bulk load ([babelfishpg_tds/src/backend/tds/tdsbulkload.c])

    The rows of a bulk load arrive in packets that are fetched while the rows are read: [message] holds what is
    fetched so far, [bcpOffset] the place of the next byte in it, and the bytes before it are given up when
    the next packet is fetched.  The rows go to the server in batches. *)
From stdpp Require Import base list numbers.
From S2P Require Import Prelude BitFacts Utf Calendar DatetimeOffset TdsColMeta TdsTypeRecv TdsVariant.
Open Scope Z_scope.

(** What the socket delivers: [last] is the end of message bit of the header. *)
Inductive packet :=
| BulkPacket (payload : bytes) (last : bool)
| OtherPacket (last : bool).

Inductive bulk_error :=
| read_more_than_available
| bulk_eof
| out_of_band_packet
| bulk_no_memory
| bulk_no_colmetadata
| column_count_invalid (n : Z)
| bulk_unknown_type (tdsType : Z)
| bulk_invalid_length (row column tdsType : Z)
| bulk_chunking (row column tdsType : Z)
| bulk_scale_above_precision (row column : Z)
| bulk_unexpected_token (row token : Z)
| bulk_conversion (e : rd_error)
| bulk_callback (code : Z)
| bulk_inconsistent
| bulk_no_fuel.

(** The variables: the message and [bcpOffset], the status of the last header, the packets still to come, and
    the counters of the request. *)
Record bulk := mk_bulk {
  bk_message : bytes;
  bcpOffset : Z;
  bk_eom : bool;
  bk_packets : list packet;
  rowCount : Z;
  currentBatchSize : Z
}.

(** A value, an error that is thrown, or an access outside of the memory of the message. *)
Inductive bout (A : Type) :=
| Ret (a : A) (s : bulk)
| Throw (e : bulk_error) (s : bulk)
| Over.
Arguments Ret {A} _ _.
Arguments Throw {A} _ _.
Arguments Over {A}.

Definition bact (A : Type) : Type := bulk -> bout A.
Definition load_bind {A B} (m : bact A) (k : A -> bact B) : bact B :=
  fun s => match m s with Ret a s => k a s | Throw e s => Throw e s | Over => Over end.
Notation "'load!' x := m 'in' k" := (load_bind m (fun x => k))
  (at level 100, x name, m at level 100, k at level 200, right associativity, format "'load!'  x  :=  m  'in' '//' k").

Definition ret {A} (a : A) : bact A := Ret a.
Definition throw {A} (e : bulk_error) : bact A := Throw e.

Definition bk_len (s : bulk) : Z := Z.of_nat (length (bk_message s)).
Definition set_buffer (s : bulk) (m : bytes) (offset : Z) (eom : bool) (ps : list packet) : bulk :=
  mk_bulk m offset eom ps (rowCount s) (currentBatchSize s).
Definition set_counts (s : bulk) (rows size : Z) : bulk :=
  mk_bulk (bk_message s) (bcpOffset s) (bk_eom s) (bk_packets s) rows size.

(** ** Packets *)

(** [enlargeStringInfo] to a length it does not allow. *)
Definition too_large (m payload : bytes) : bool := Z.of_nat (length m) + Z.of_nat (length payload) >=? 0x3fffffff.

(** Packets until [dataLenToRead] bytes are there, an [int] that is added to a [uint64_t].  The end of the message
    is not looked at in the loop. *)
Fixpoint fetch_packets (dataLenToRead offset : Z) (m : bytes) (eom : bool) (ps : list packet) : bytes * bool * list packet * option bulk_error :=
  if u64 (dataLenToRead + offset) >? Z.of_nat (length m) then
    match ps with
    | [] => (m, eom, [], Some bulk_eof)
    | OtherPacket last :: ps => (m, last, ps, Some out_of_band_packet)
    | BulkPacket payload last :: ps =>
        if too_large m payload then (m, last, ps, Some bulk_no_memory)
        else fetch_packets dataLenToRead offset (m ++ payload) last ps
    end
  else (m, eom, ps, None).

Definition FetchMoreBcpData (dataLenToRead : Z) (freeMessageData : bool) : bact unit := fun s =>
  if bk_eom s then Throw read_more_than_available s
  else
    let m := if freeMessageData then drop (Z.to_nat (bcpOffset s)) (bk_message s) else bk_message s in
    let offset := if freeMessageData then 0 else bcpOffset s in
    let '(m, eom, ps, e) := fetch_packets (i32 dataLenToRead) offset m (bk_eom s) (bk_packets s) in
    let s := set_buffer s m offset eom ps in
    match e with Some e => Throw e s | None => Ret tt s end.

(** The chunks of a large value are kept by their offsets, so that the message only grows. *)
Definition FetchMoreBcpPlpData (dataLenToRead : Z) : bact unit := FetchMoreBcpData dataLenToRead false.

Definition TdsResetBcpOffset : bact unit := fun s => Ret tt (set_buffer s (bk_message s) 0 (bk_eom s) (bk_packets s)).

(** The bytes after the offset are fewer than [dataLen], in unsigned arithmetic. *)
Definition lacks (dataLen : Z) (s : bulk) : bool := u64 (bk_len s - bcpOffset s) <? dataLen.

Definition CheckMessageHasEnoughBytesToReadColMetadata (dataLen : Z) : bact unit :=
  fun s => if lacks dataLen s then FetchMoreBcpData dataLen false s else Ret tt s.
Definition CheckMessageHasEnoughBytesToReadRows (dataLen : Z) : bact unit :=
  fun s => if lacks dataLen s then FetchMoreBcpData dataLen true s else Ret tt s.
Definition CheckPlpMessageHasEnoughBytesToRead (dataLen : Z) : bact unit :=
  fun s => if lacks dataLen s then FetchMoreBcpPlpData dataLen s else Ret tt s.

(** [n] bytes of the message from [bcpOffset] on; moving the offset; counting bytes of the batch. *)
Definition peek_bytes (n : Z) : bact bytes := fun s =>
  if (0 <=? bcpOffset s) && (bcpOffset s + n <=? bk_len s) then Ret (take (Z.to_nat n) (drop (Z.to_nat (bcpOffset s)) (bk_message s))) s else Over.
Definition peek (n : Z) : bact Z := load! b := peek_bytes n in ret (le_val b).
Definition advance_offset (n : Z) : bact unit := fun s =>
  Ret tt (set_buffer s (bk_message s) (u64 (bcpOffset s + n)) (bk_eom s) (bk_packets s)).
Definition count (n : Z) : bact unit := fun s => Ret tt (set_counts s (rowCount s) (i32 (currentBatchSize s + n))).
Definition get (n : Z) : bact Z := load! v := peek n in load! _ := advance_offset n in ret v.
(** The same, counted. *)
Definition get_counted (n : Z) : bact Z := load! v := get n in load! _ := count n in ret v.
Definition skip_counted (n : Z) : bact unit := load! _ := advance_offset n in count n.

(** A [char] that is assigned to a [uint32_t]. *)
Definition char_uint32 (b : Z) : Z := u32 (swrap 8 b).

(** ** Columns *)

Record BulkLoadColMetaData := mk_bulkcol {
  bc_userType : Z;
  bc_flags : Z;
  bc_type : Z;
  bc_scale : Z;
  bc_precision : Z;
  bc_sortId : Z;
  bc_encoding : Z;
  bc_maxLen : Z;
  bc_name : bytes;
  bc_variant : bool
}.

Definition TDS_TOKEN_COLMETADATA : Z := 0x81.
Definition TDS_TOKEN_ROW : Z := 0xD1.
Definition TDS_TOKEN_DONE : Z := 0xFD.
Definition MAX_BULK_LOAD_COLUMNS : Z := 30000.
Definition COLUMNMETADATA_HEADER_LEN : Z := 7.
Definition FIXED_LEN_TYPE_COLUMNMETADATA_LEN : Z := 1.
Definition NUMERIC_COLUMNMETADATA_LEN : Z := 3.
Definition STRING_COLUMNMETADATA_LEN : Z := 7.
Definition BINARY_COLUMNMETADATA_LEN : Z := 2.
Definition SQL_VARIANT_COLUMNMETADATA_LEN : Z := 4.
Definition TDS_MAXLEN_BIT : Z := 1.
Definition TDS_MAXLEN_SMALLDATETIME : Z := 4.
Definition TDS_MAXLEN_DATETIME : Z := 8.
Definition TDS_MAXLEN_SMALLMONEY : Z := 4.
Definition TDS_MAXLEN_MONEY : Z := 8.

Definition type_in (t : Z) (ts : list Z) : bool := existsb (Z.eqb t) ts.

(** The types of columns without NULLs, which have no length on the wire. *)
Definition variant_types : list (Z * (Z * Z)) :=
  [(VARIANT_TYPE_INT, (TDS_TYPE_INTEGER, TDS_MAXLEN_INT)); (VARIANT_TYPE_BIT, (TDS_TYPE_BIT, TDS_MAXLEN_BIT));
   (VARIANT_TYPE_BIGINT, (TDS_TYPE_INTEGER, TDS_MAXLEN_BIGINT)); (VARIANT_TYPE_SMALLINT, (TDS_TYPE_INTEGER, TDS_MAXLEN_SMALLINT));
   (VARIANT_TYPE_TINYINT, (TDS_TYPE_INTEGER, TDS_MAXLEN_TINYINT)); (VARIANT_TYPE_REAL, (TDS_TYPE_FLOAT, TDS_MAXLEN_FLOAT4));
   (VARIANT_TYPE_FLOAT, (TDS_TYPE_FLOAT, TDS_MAXLEN_FLOAT8)); (VARIANT_TYPE_DATETIME, (TDS_TYPE_DATETIMEN, TDS_MAXLEN_DATETIME));
   (VARIANT_TYPE_SMALLDATETIME, (TDS_TYPE_DATETIMEN, TDS_MAXLEN_SMALLDATETIME)); (VARIANT_TYPE_MONEY, (TDS_TYPE_MONEYN, TDS_MAXLEN_MONEY));
   (VARIANT_TYPE_SMALLMONEY, (TDS_TYPE_MONEYN, TDS_MAXLEN_SMALLMONEY))].
Fixpoint variant_type (t : Z) (l : list (Z * (Z * Z))) : option (Z * Z) :=
  match l with
  | [] => None
  | (v, x) :: l => if t =? v then Some x else variant_type t l
  end.

Section columns.
(** [TdsGetEncoding]: the encoding of a collation. *)
Variable TdsGetEncoding : Z -> Z.
Local Notation check := CheckMessageHasEnoughBytesToReadColMetadata.

(** The collation and the sort identifier of a text: its encoding and [sortId]. *)
Definition bulk_collation : bact (Z * Z) :=
  load! collation := get 4 in
  load! sortId := get 1 in
  ret (TdsGetEncoding collation, sortId).

(** The rest of a column from its type on, without the name. *)
Definition bulk_type_info (userType flags t : Z) : bact BulkLoadColMetaData :=
  let col scale precision sortId encoding maxLen := mk_bulkcol userType flags t scale precision sortId encoding maxLen [] false in
  if type_in t [TDS_TYPE_INTEGER; TDS_TYPE_BIT; TDS_TYPE_FLOAT; TDS_TYPE_MONEYN; TDS_TYPE_DATETIMEN; TDS_TYPE_UNIQUEIDENTIFIER] then
    load! _ := check FIXED_LEN_TYPE_COLUMNMETADATA_LEN in
    load! l := get 1 in
    ret (col 0 0 0 0 (char_uint32 l))
  else if type_in t [TDS_TYPE_DECIMALN; TDS_TYPE_NUMERICN] then
    load! _ := check NUMERIC_COLUMNMETADATA_LEN in
    load! l := get 1 in
    load! precision := get 1 in
    load! scale := get 1 in
    ret (col scale precision 0 0 (char_uint32 l))
  else if type_in t [TDS_TYPE_CHAR; TDS_TYPE_VARCHAR; TDS_TYPE_NCHAR; TDS_TYPE_NVARCHAR] then
    load! _ := check STRING_COLUMNMETADATA_LEN in
    load! l := get 2 in
    load! c := bulk_collation in
    ret (col 0 0 c.2 c.1 l)
  else if type_in t [TDS_TYPE_TEXT; TDS_TYPE_NTEXT; TDS_TYPE_IMAGE] then
    load! _ := check 4 in
    load! l := get 4 in
    load! c := (if type_in t [TDS_TYPE_TEXT; TDS_TYPE_NTEXT] then load! _ := check 5 in bulk_collation else ret (0, 0)) in
    load! _ := check 2 in
    load! tableLen := get 2 in
    load! _ := check (tableLen * 2) in
    load! _ := advance_offset (tableLen * 2) in
    ret (col 0 0 c.2 c.1 l)
  else if t =? TDS_TYPE_XML then
    load! _ := check 1 in
    load! l := get 1 in
    ret (col 0 0 0 0 (char_uint32 l))
  else if type_in t [TDS_TYPE_DATETIME2; TDS_TYPE_TIME; TDS_TYPE_DATETIMEOFFSET] then
    load! _ := check FIXED_LEN_TYPE_COLUMNMETADATA_LEN in
    load! scale := get 1 in
    ret (col scale 0 0 0 (if t =? TDS_TYPE_DATETIME2 then 8 else if t =? TDS_TYPE_TIME then 5 else 10))
  else if type_in t [TDS_TYPE_BINARY; TDS_TYPE_VARBINARY] then
    load! _ := check BINARY_COLUMNMETADATA_LEN in
    load! plp := get 2 in
    ret (col 0 0 0 0 plp)
  else if t =? TDS_TYPE_DATE then ret (col 0 0 0 0 3)
  else if t =? TDS_TYPE_SQLVARIANT then
    load! _ := check SQL_VARIANT_COLUMNMETADATA_LEN in
    load! l := get 4 in
    ret (col 0 0 0 0 l)
  else
    match variant_type t variant_types with
    | Some (t', l) => ret (mk_bulkcol userType flags t' 0 0 0 0 l [] true)
    | None => throw (bulk_unknown_type t)
    end.

Definition bulk_column : bact BulkLoadColMetaData :=
  load! _ := check COLUMNMETADATA_HEADER_LEN in
  load! userType := get 4 in
  load! flags := get 2 in
  load! t := get 1 in
  load! c := bulk_type_info (i32 userType) flags t in
  load! _ := check 1 in
  load! colNameLen := get 1 in
  load! _ := check (colNameLen * 2) in
  load! name := peek_bytes (colNameLen * 2) in
  load! _ := advance_offset (colNameLen * 2) in
  ret (mk_bulkcol (bc_userType c) (bc_flags c) (bc_type c) (bc_scale c) (bc_precision c) (bc_sortId c) (bc_encoding c) (bc_maxLen c) name (bc_variant c)).

Fixpoint bulk_columns (n : nat) : bact (list BulkLoadColMetaData) :=
  match n with
  | O => ret []
  | S n =>
      load! c := bulk_column in
      load! cs := bulk_columns n in
      ret (c :: cs)
  end.

(** The message that is handed on to the rows is a copy of this one. *)
Definition GetBulkLoadRequest : bact (list BulkLoadColMetaData) :=
  load! _ := TdsResetBcpOffset in
  load! _ := check 1 in
  load! token := peek 1 in
  if negb (token =? TDS_TOKEN_COLMETADATA) then throw bulk_no_colmetadata
  else
    load! _ := advance_offset 1 in
    load! _ := check 2 in
    load! colCount := peek 2 in
    if (colCount =? 0) || (colCount >? MAX_BULK_LOAD_COLUMNS) then throw (column_count_invalid colCount)
    else
      load! _ := advance_offset 2 in
      bulk_columns (Z.to_nat colCount).
End columns.

(** ** Rows *)

(** A value of the server. *)
Inductive datum :=
| DNum (z : Z)
| DBytes (b : bytes)
| DOffset (d : tsql_datetimeoffset).

(** The fuel of the loops: every round moves behind a byte of the message or of a packet. *)
Definition payload_of (p : packet) : bytes := match p with BulkPacket b _ => b | OtherPacket _ => [] end.
Definition bulk_fuel (s : bulk) : nat := S (length (bk_message s) + length (concat (map payload_of (bk_packets s)))).

Section rows.
Context `{PgCalendar}.
Variable bad_cast : Z.
Variable conv : conversions.
(** [get_insert_bulk_rows_per_batch] and [get_insert_bulk_kilobytes_per_batch]. *)
Variables rows_per_batch kilobytes_per_batch : Z.
Local Notation check := CheckMessageHasEnoughBytesToReadRows.

Definition converted {A} (f : A -> datum) (x : rd A) : bact datum :=
  match x with
  | Got a _ => ret (f a)
  | Failed e => throw (bulk_conversion e)
  | OverAccess => fun _ => Over
  end.

(** [temp], the StringInfo on a value in the message. *)
Definition value_at (len : Z) : bact strinfo := fun s => Ret (mk_si (drop (Z.to_nat (bcpOffset s)) (bk_message s)) len 0) s.

(** The conversions.  [TdsTypeUIDToDatum] exchanges bytes in the message itself, behind which the offset moves. *)
Definition fixed_datum (c : BulkLoadColMetaData) (len : Z) (temp : strinfo) : bact datum :=
  let t := bc_type c in
  if (t =? TDS_TYPE_INTEGER) || (t =? TDS_TYPE_BIT) then converted DNum (TdsTypeIntegerToDatum temp (bc_maxLen c))
  else if t =? TDS_TYPE_FLOAT then converted DNum (TdsTypeFloatToDatum temp (bc_maxLen c))
  else if t =? TDS_TYPE_TIME then converted DNum (TdsTypeTimeToDatum temp (bc_scale c) len)
  else if t =? TDS_TYPE_DATE then converted DNum (TdsTypeDateToDatum temp)
  else if t =? TDS_TYPE_DATETIME2 then converted DNum (TdsTypeDatetime2ToDatum bad_cast temp (bc_scale c) (si_len temp))
  else if t =? TDS_TYPE_DATETIMEN then
    if bc_maxLen c =? TDS_MAXLEN_SMALLDATETIME then converted DNum (TdsTypeSmallDatetimeToDatum temp)
    else converted DNum (TdsTypeDatetimeToDatum bad_cast temp)
  else if t =? TDS_TYPE_DATETIMEOFFSET then converted DOffset (TdsTypeDatetimeoffsetToDatum bad_cast temp (bc_scale c) (si_len temp))
  else if t =? TDS_TYPE_MONEYN then
    if bc_maxLen c =? TDS_MAXLEN_SMALLMONEY then converted DNum (TdsTypeSmallMoneyToDatum temp)
    else converted DNum (TdsTypeMoneyToDatum temp)
  else converted DBytes (TdsTypeUIDToDatum temp).
Definition text_datum (c : BulkLoadColMetaData) (temp : strinfo) : bact datum :=
  let t := bc_type c in
  if type_in t [TDS_TYPE_CHAR; TDS_TYPE_VARCHAR; TDS_TYPE_TEXT] then converted DBytes (TdsTypeVarcharToDatum conv temp (bc_encoding c) t)
  else if type_in t [TDS_TYPE_NCHAR; TDS_TYPE_NVARCHAR; TDS_TYPE_NTEXT] then converted DBytes (TdsTypeNCharToDatum temp)
  else converted DBytes (TdsTypeVarbinaryToDatum temp).

Definition CheckForInvalidLength (c : BulkLoadColMetaData) (i len : Z) : bact unit := fun s =>
  if u32 len >? u32 (bc_maxLen c) then Throw (bulk_invalid_length (rowCount s) (i + 1) (bc_type c)) s else Ret tt s.

(** A value of [len] bytes: checked, fetched, converted and counted. *)
Definition bulk_value (c : BulkLoadColMetaData) (i len : Z) (datum_of : strinfo -> bact datum) : bact (option datum) :=
  load! _ := CheckForInvalidLength c i len in
  load! _ := check len in
  load! temp := value_at len in
  load! d := datum_of temp in
  load! _ := skip_counted len in
  ret (Some d).

Definition bulk_fixed (c : BulkLoadColMetaData) (i : Z) : bact (option datum) :=
  if bc_variant c then bulk_value c i (bc_maxLen c) (fixed_datum c (bc_maxLen c))
  else
    load! _ := check 1 in
    load! b := get_counted 1 in
    let len := char_uint32 b in
    if len =? 0 then ret None else bulk_value c i len (fixed_datum c len).

Definition bulk_numeric (c : BulkLoadColMetaData) (i : Z) : bact (option datum) := fun s =>
  if bc_scale c >? bc_precision c then Throw (bulk_scale_above_precision (rowCount s) (i + 1)) s
  else
    (load! _ := check 1 in
     load! b := get_counted 1 in
     let len := char_uint32 b in
     if len =? 0 then ret None
     else bulk_value c i len (fun temp => converted DBytes (TdsTypeNumericToDatum temp (Z.to_nat (bc_scale c))))) s.

(** The chunks of a large value; [None] is [STATUS_ERROR]. *)
Fixpoint bulk_chunks (fuel : nat) (lenCheck : Z) : bact (option (list Plp * Z)) :=
  match fuel with
  | O => throw bulk_no_fuel
  | S fuel =>
      load! _ := CheckPlpMessageHasEnoughBytesToRead 4 in
      fun s =>
        if bcpOffset s + 4 >? bk_len s then Ret None s
        else
          (load! tempLen := get_counted 4 in
           if tempLen =? PLP_TERMINATOR then ret (Some ([], lenCheck))
           else
             load! offset := (fun s => Ret (bcpOffset s) s) in
             load! _ := CheckPlpMessageHasEnoughBytesToRead tempLen in
             fun s =>
               if bcpOffset s + tempLen >? bk_len s then Ret None s
               else
                 (load! _ := skip_counted tempLen in
                  load! x := bulk_chunks fuel (u64 (lenCheck + tempLen)) in
                  ret (match x with Some (l, n) => Some (mk_plp offset tempLen :: l, n) | None => None end)) s) s
  end.

Definition ReadBcpPlp : bact (option (bool * list Plp)) := fun s =>
  (load! _ := CheckPlpMessageHasEnoughBytesToRead 8 in
   load! plpTok := get_counted 8 in
   if plpTok =? PLP_NULL then ret (Some (true, []))
   else
     load! x := (fun s => bulk_chunks (bulk_fuel s) 0 s) in
     match x with
     | None => ret None
     | Some (l, lenCheck) =>
         if negb (plpTok =? PLP_UNKNOWN_LEN) && negb (lenCheck =? plpTok) then ret None else ret (Some (false, l))
     end) s.

(** A large value: its chunks put together. *)
Definition bulk_plp (c : BulkLoadColMetaData) (i : Z) (datum_of : strinfo -> bact datum) : bact (option datum) :=
  load! x := ReadBcpPlp in
  match x with
  | None => fun s => Throw (bulk_chunking (rowCount s) (i + 1) (bc_type c)) s
  | Some (true, _) => ret None
  | Some (false, l) =>
      load! temp := (fun s => Ret (TdsGetPlpStringInfoBufferFromToken (bk_message s) (mk_token 0 0 0 l false 0)) s) in
      load! d := datum_of temp in
      ret (Some d)
  end.

Definition bulk_string (c : BulkLoadColMetaData) (i : Z) : bact (option datum) :=
  if negb (bc_maxLen c =? 0xffff) then
    load! _ := check 2 in
    load! len := get_counted 2 in
    if negb (len =? 0xffff) then
      load! _ := CheckForInvalidLength c i len in
      load! _ := check len in
      load! temp := value_at len in
      load! _ := skip_counted len in
      load! d := text_datum c temp in
      ret (Some d)
    else ret None
  else bulk_plp c i (text_datum c).

(** The text pointer and the timestamp are skipped. *)
Definition bulk_text (c : BulkLoadColMetaData) (i : Z) : bact (option datum) :=
  load! _ := check 1 in
  load! dataTextPtrLen := get_counted 1 in
  if dataTextPtrLen =? 0 then ret None
  else
    load! _ := check (dataTextPtrLen + 8 + 4) in
    load! _ := skip_counted dataTextPtrLen in
    load! _ := skip_counted 8 in
    load! len := get_counted 4 in
    if len =? 0 then ret None else bulk_value c i len (text_datum c).

Definition bulk_variant (c : BulkLoadColMetaData) (i : Z) : bact (option datum) :=
  load! _ := check 4 in
  load! len := get_counted 4 in
  if len =? 0 then ret None
  else bulk_value c i len (fun temp => converted DBytes (TdsTypeSqlVariantToDatum conv bad_cast temp)).

Definition fixed_types : list Z :=
  [TDS_TYPE_INTEGER; TDS_TYPE_BIT; TDS_TYPE_FLOAT; TDS_TYPE_TIME; TDS_TYPE_DATE; TDS_TYPE_DATETIME2; TDS_TYPE_DATETIMEN; TDS_TYPE_MONEYN;
   TDS_TYPE_UNIQUEIDENTIFIER; TDS_TYPE_DATETIMEOFFSET].
Definition numeric_types : list Z := [TDS_TYPE_NUMERICN; TDS_TYPE_DECIMALN].
Definition string_types : list Z := [TDS_TYPE_CHAR; TDS_TYPE_VARCHAR; TDS_TYPE_NCHAR; TDS_TYPE_NVARCHAR; TDS_TYPE_BINARY; TDS_TYPE_VARBINARY].
Definition text_types : list Z := [TDS_TYPE_TEXT; TDS_TYPE_NTEXT; TDS_TYPE_IMAGE].

(** A column of a row; [None] is NULL.  There is no case for other types, whose value stays zero. *)
Definition bulk_cell (c : BulkLoadColMetaData) (i : Z) : bact (option datum) :=
  let t := bc_type c in
  if type_in t fixed_types then bulk_fixed c i
  else if type_in t numeric_types then bulk_numeric c i
  else if type_in t string_types then bulk_string c i
  else if type_in t text_types then bulk_text c i
  else if t =? TDS_TYPE_XML then bulk_plp c i (fun temp => converted DBytes (TdsTypeXMLToDatum conv temp))
  else if t =? TDS_TYPE_SQLVARIANT then bulk_variant c i
  else ret (Some (DNum 0)).

Fixpoint bulk_cells (cs : list BulkLoadColMetaData) (i : Z) : bact (list (option datum)) :=
  match cs with
  | [] => ret []
  | c :: cs =>
      load! d := bulk_cell c i in
      load! ds := bulk_cells cs (i + 1) in
      ret (d :: ds)
  end.

(** The token of a row and the place of it in the batch. *)
Definition batch_room (s : bulk) : bool :=
  (currentBatchSize s <? i32 (kilobytes_per_batch * 1024)) && (rowCount s <? rows_per_batch).

Fixpoint bulk_rows (fuel : nat) (cs : list BulkLoadColMetaData) : bact (list (list (option datum))) :=
  match fuel with
  | O => throw bulk_no_fuel
  | S fuel =>
      load! token := peek 1 in
      fun s =>
        if (token =? TDS_TOKEN_ROW) && batch_room s then
          (load! _ := (fun s => Ret tt (set_counts s (i32 (rowCount s + 1)) (currentBatchSize s))) in
           load! _ := skip_counted 1 in
           load! row := bulk_cells cs 0 in
           load! _ := check 1 in
           load! rows := bulk_rows fuel cs in
           ret (row :: rows)) s
        else Ret [] s
  end.

(** One batch of rows. *)
Definition SetBulkLoadRowData (cs : list BulkLoadColMetaData) : bact (list (list (option datum))) :=
  load! _ := (fun s => Ret tt (set_counts s 0 0)) in
  load! _ := check 1 in
  load! rows := (fun s => bulk_rows (bulk_fuel s) cs s) in
  load! _ := check 1 in
  fun s =>
    if batch_room s then
      (load! token := peek 1 in
       if token =? TDS_TOKEN_DONE then
         fun s =>
           if (u64 (bk_len s - bcpOffset s) <? 13) && negb (bk_eom s)
           then (load! _ := check (u64 (bk_len s - bcpOffset s + 1)) in ret rows) s
           else Ret rows s
       else fun s => Throw (bulk_unexpected_token (rowCount s) token) s) s
    else Ret rows s.
End rows.

(** ** The request *)

(** The server with its transactions: the identifier of the local transaction is [MyProc->vxid.lxid].  The callback
    inserts rows, given as one array, and returns their number or the code of an error. *)
Record bulk_server (X : Type) := {
  IsTransactionBlockActive : X -> bool;
  BeginInternalSubTransaction : X -> X;
  GetCurrentSubTransactionId : X -> Z;
  lxid : X -> Z;
  ReleaseCurrentSubTransaction : X -> X;
  RollbackAndReleaseCurrentSubTransaction : X -> X;
  AbortCurrentTransaction : X -> X;
  StartTransactionCommand : X -> X;
  pltsql_rollback_txn_callback : X -> X;
  bulk_load_callback : Z -> Z -> list (option datum) -> X -> X * result Z Z
}.
Arguments IsTransactionBlockActive {X} _ _.
Arguments BeginInternalSubTransaction {X} _ _.
Arguments GetCurrentSubTransactionId {X} _ _.
Arguments lxid {X} _ _.
Arguments ReleaseCurrentSubTransaction {X} _ _.
Arguments RollbackAndReleaseCurrentSubTransaction {X} _ _.
Arguments AbortCurrentTransaction {X} _ _.
Arguments StartTransactionCommand {X} _ _.
Arguments pltsql_rollback_txn_callback {X} _ _.
Arguments bulk_load_callback {X} _ _ _ _ _.

(** [TdsDiscardAllPendingBcpRequest]: the packets up to the end of the message. *)
Fixpoint discard_packets (ps : list packet) : bool * list packet :=
  match ps with
  | [] => (false, [])
  | BulkPacket _ last :: ps | OtherPacket last :: ps => if last then (true, ps) else discard_packets ps
  end.

Section request.
Context `{PgCalendar}.
Variable bad_cast : Z.
Variable conv : conversions.
Variables rows_per_batch kilobytes_per_batch : Z.
Context {X : Type} (srv : bulk_server X).
Local Notation read_batch := (SetBulkLoadRowData bad_cast conv rows_per_batch kilobytes_per_batch).

Definition CleanupBCPDuringError (internal_sp_started : bool) (before_subtxn_id before_lxid : Z) (x : X) (s : bulk) : X * bulk :=
  let s :=
    if bk_eom s then set_buffer s (bk_message s) 0 true (bk_packets s)
    else let '(eom, ps) := discard_packets (bk_packets s) in set_buffer s (bk_message s) 0 eom ps in
  let x :=
    if internal_sp_started && (before_lxid =? lxid srv x) && (before_subtxn_id =? GetCurrentSubTransactionId srv x)
    then RollbackAndReleaseCurrentSubTransaction srv x
    else if negb (IsTransactionBlockActive srv x) then StartTransactionCommand srv (AbortCurrentTransaction srv x)
    else pltsql_rollback_txn_callback srv x in
  (x, s).

(** A FATAL error ends the session in place; the others are caught, cleaned up after and thrown again. *)
Definition is_fatal (e : bulk_error) : bool :=
  match e with
  | out_of_band_packet | bulk_inconsistent | bulk_conversion no_data_left | bulk_conversion insufficient_data => true
  | _ => false
  end.

(** The loop over the batches; [None] is an access outside of the message. *)
Fixpoint bulk_batches (fuel : nat) (cs : list BulkLoadColMetaData) (internal_sp_started : bool) (before_subtxn_id before_lxid : Z)
    (retValue : Z) (x : X) (s : bulk) : option (result bulk_error Z * X * bulk) :=
  let failed e x s := let '(x, s) := CleanupBCPDuringError internal_sp_started before_subtxn_id before_lxid x s in Some (Err e, x, s) in
  match fuel with
  | O => Some (Err bulk_no_fuel, x, s)
  | S fuel =>
      match read_batch cs s with
      | Over => None
      | Throw e s => if is_fatal e then Some (Err e, x, s) else failed e x s
      | Ret rows s =>
          let colCount := if rowCount s =? 0 then 0 else Z.of_nat (length cs) in
          match bulk_load_callback srv colCount (rowCount s) (concat rows) x with
          | (x, Err e) => failed (bulk_callback e) x s
          | (x, Ok n) =>
              let retValue := u64 (retValue + n) in
              match rows with
              | [] => Some (Ok retValue, x, s)
              | _ => bulk_batches fuel cs internal_sp_started before_subtxn_id before_lxid retValue x s
              end
          end
      end
  end.

(** The number of rows that the DONE token reports, or an error.  The comparison of the unsigned number with 0 always
    holds. *)
Definition ProcessBCPRequest (cs : list BulkLoadColMetaData) (x : X) (s : bulk) : option (result bulk_error Z * X * bulk) :=
  let before_lxid := lxid srv x in
  let internal_sp_started := IsTransactionBlockActive srv x in
  let x := if internal_sp_started then BeginInternalSubTransaction srv x else x in
  let before_subtxn_id := if internal_sp_started then GetCurrentSubTransactionId srv x else 0 in
  match bulk_batches (bulk_fuel s) cs internal_sp_started before_subtxn_id before_lxid 0 x s with
  | Some (Ok retValue, x, s) =>
      let s := set_buffer s (bk_message s) 0 (bk_eom s) (bk_packets s) in
      if internal_sp_started then
        if before_subtxn_id =? GetCurrentSubTransactionId srv x then Some (Ok retValue, ReleaseCurrentSubTransaction srv x, s)
        else Some (Err bulk_inconsistent, x, s)
      else Some (Ok retValue, x, s)
  | r => r
  end.
End request.
