(* ===== verification/TdsBulkTheorems.v ===== *)
(** * TdsBulkTheorems: bulk load *)
From Stdlib Require Import String.
From stdpp Require Import base list numbers.
From S2P Require Import Prelude BitFacts Utf Calendar DatetimeOffset TdsColMeta TdsTypeRecv TdsVariant TdsBulk.
Open Scope Z_scope.

(** ** Packets of one message *)

(** The data of the packets up to the end of the message, and the packets behind it. *)
Fixpoint rest_data (ps : list packet) : bytes :=
  match ps with
  | BulkPacket b last :: ps => b ++ (if last then [] else rest_data ps)
  | _ => []
  end.
Fixpoint behind (ps : list packet) : list packet :=
  match ps with
  | BulkPacket b last :: ps => if last then ps else behind ps
  | _ => []
  end.
(** The packets have data, and one of them ends the message. *)
Fixpoint complete (ps : list packet) : Prop :=
  match ps with
  | BulkPacket b last :: ps => b <> [] /\ (last = false -> complete ps)
  | _ => False
  end.

Definition coming (eom : bool) (ps : list packet) : bytes := if eom then [] else rest_data ps.
Definition next_message (eom : bool) (ps : list packet) : list packet := if eom then ps else behind ps.
Definition unread (s : bulk) : bytes := drop (Z.to_nat (bcpOffset s)) (bk_message s) ++ coming (bk_eom s) (bk_packets s).
Definition after (s : bulk) : list packet := next_message (bk_eom s) (bk_packets s).
Definition avail (s : bulk) : Z := bk_len s - bcpOffset s.
Definition blen (b : bytes) : Z := Z.of_nat (length b).

(** The offset is in the message, the packets end the message, and everything fits a StringInfo. *)
Definition ok (s : bulk) : Prop :=
  0 <= bcpOffset s <= bk_len s /\ (bk_eom s = false -> complete (bk_packets s)) /\
  bk_len s + blen (coming (bk_eom s) (bk_packets s)) < 0x3fffffff.

Lemma fetch_packets_ok n off ps : forall m eom, (eom = false -> complete ps) -> 0 <= off -> 0 <= n ->
  off + n <= blen m + blen (coming eom ps) -> blen m + blen (coming eom ps) < 0x3fffffff ->
  exists b eom' ps', fetch_packets n off m eom ps = (m ++ b, eom', ps', None) /\ b ++ coming eom' ps' = coming eom ps /\
    (eom' = false -> complete ps') /\ next_message eom' ps' = next_message eom ps /\ off + n <= blen (m ++ b).
Proof.
  induction ps as [|p ps IH]; intros m eom Hc Ho Hn Hle Hlim; cbn [fetch_packets]; rewrite Z.gtb_ltb, u64_id by (unfold blen in *; lia);
    destruct (Z.ltb_spec (Z.of_nat (length m)) (n + off)) as [Hlt|Hge].
  all: try (exists [], eom; eexists; rewrite app_nil_r; split_and!; [reflexivity|done..|unfold blen; lia]).
  - exfalso. destruct eom; [unfold blen in *; cbn in *; lia|]. by specialize (Hc eq_refl).
  - destruct eom; [exfalso; unfold blen in *; cbn in *; lia|]. specialize (Hc eq_refl). destruct p as [b last|]; [|done]. destruct Hc as [_ Hc].
    cbn [coming rest_data] in Hle, Hlim. unfold blen in *. rewrite length_app in Hle, Hlim.
    unfold too_large. rewrite Z.geb_leb, (proj2 (Z.leb_gt _ _)) by lia.
    destruct (IH (m ++ b) last) as (b' & eom' & ps' & -> & Hb & Hcp & Hnx & Hle'); [done|done|done|..].
    1-2: rewrite length_app; destruct last; cbn [coming]; lia.
    exists (b ++ b'), eom', ps'. rewrite <- app_assoc in Hle'. rewrite <- !app_assoc, Hb, Hnx. split_and!; [by rewrite app_assoc|by destruct last|done|by destruct last|done].
Qed.

(** Enough bytes are there after the check; nothing else changes. *)
Record topped (s s' : bulk) (n : Z) : Prop := {
  tp_ok : ok s';
  tp_unread : unread s' = unread s;
  tp_after : after s' = after s;
  tp_rows : rowCount s' = rowCount s;
  tp_size : currentBatchSize s' = currentBatchSize s;
  tp_avail : n <= avail s'
}.

Lemma unread_length s : ok s -> blen (unread s) = avail s + blen (coming (bk_eom s) (bk_packets s)).
Proof. intros (Ho & _). unfold unread, blen, avail, bk_len in *. rewrite length_app, length_drop. lia. Qed.

Lemma FetchMore_ok n free s : ok s -> avail s < n -> n <= blen (unread s) ->
  exists s', FetchMoreBcpData n free s = Ret tt s' /\ topped s s' n /\
    (free = false -> bcpOffset s' = bcpOffset s /\ exists b, bk_message s' = bk_message s ++ b).
Proof.
  intros Hok Hlt Hle. pose proof (unread_length s Hok) as El. destruct Hok as (Ho & Hc & Hlim). unfold FetchMoreBcpData.
  destruct (bk_eom s) eqn:Ee; [exfalso; cbn [coming] in El; unfold blen in *; cbn in *; lia|].
  assert (0 <= avail s) by (unfold avail; lia). assert (avail s + blen (coming false (bk_packets s)) < 0x3fffffff) by (unfold avail in *; lia).
  rewrite i32_id by (apply in_i32_iff; lia). set (m := if free then drop _ _ else bk_message s). set (off := if free then 0 else bcpOffset s).
  assert (drop (Z.to_nat off) m = drop (Z.to_nat (bcpOffset s)) (bk_message s)) as Hd by (unfold m, off; by destruct free).
  assert (blen m - off = avail s /\ 0 <= off <= blen m /\ blen m <= bk_len s) as (Ea & Hoff & Hm).
  { unfold m, off, avail, bk_len, blen in *. destruct free; rewrite ?length_drop; lia. }
  destruct (fetch_packets_ok n off (bk_packets s) m false Hc) as (b & eom' & ps' & -> & Hb & Hc' & Hn & Hle'); [lia..|].
  eexists. split; [reflexivity|]. split; [|intros ->; split; [done|by exists b]]. assert (blen (m ++ b) = blen m + blen b) as Emb by (unfold blen; rewrite length_app; lia).
  assert (blen (coming false (bk_packets s)) = blen b + blen (coming eom' ps')) as Ec by (rewrite <- Hb; unfold blen; rewrite length_app; lia).
  split; unfold ok, unread, after, avail, bk_len, set_buffer in *; cbn [bcpOffset bk_message bk_eom bk_packets rowCount currentBatchSize] in *; try done.
  - fold (blen (m ++ b)) in *. split_and!; [lia..|done|lia].
  - rewrite Ee, drop_app_le by (unfold blen in *; lia). by rewrite Hd, <- app_assoc, Hb.
  - by rewrite Ee.
  - fold (blen (m ++ b)). lia.
Qed.

(** ** Reading what a client wrote *)

Definition moved (s s' : bulk) (rest : bytes) : Prop := ok s' /\ unread s' = rest /\ after s' = after s /\ rowCount s' = rowCount s.

(** With [p] bytes of it there, [m] reads [b] and returns [v], however the packets are cut. *)
Definition runs {A} (p : Z) (m : bact A) (b : bytes) (v : A) : Prop :=
  forall s rest, ok s -> unread s = b ++ rest -> p <= avail s -> exists s', m s = Ret v s' /\ moved s s' rest.

Lemma runs_ret {A} p (v : A) : runs p (ret v) [] v.
Proof. intros s rest Hok Hu _. by exists s. Qed.

Lemma runs_bind {A B} p (m : bact A) (k : A -> bact B) b1 b2 a v : runs p m b1 a -> runs 0 (k a) b2 v -> runs p (load! x := m in k x) (b1 ++ b2) v.
Proof.
  intros Hm Hk s rest Hok Hu Hp. rewrite <- app_assoc in Hu. destruct (Hm s _ Hok Hu Hp) as (s1 & E1 & Hok1 & Hu1 & Ha1 & Hr1).
  destruct (Hk s1 rest Hok1 Hu1) as (s2 & E2 & Hok2 & Hu2 & Ha2 & Hr2); [destruct Hok1 as (? & _); unfold avail; lia|].
  exists s2. unfold load_bind. rewrite E1. split; [done|]. split_and!; [done|done|congruence..].
Qed.

Lemma runs_assoc {A B C} p (m : bact A) (f : A -> bact B) (k : B -> bact C) b v :
  runs p (load! x := m in load! y := f x in k y) b v -> runs p (load! y := (load! x := m in f x) in k y) b v.
Proof. intros H s rest Hok Hu Hp. destruct (H s rest Hok Hu Hp) as (s' & E & Hm). exists s'. split; [|done]. rewrite <- E. unfold load_bind. by destruct (m s). Qed.

Lemma check_ok (check : Z -> bact unit) free n s : (forall n s, check n s = if lacks n s then FetchMoreBcpData n free s else Ret tt s) ->
  ok s -> 0 <= n <= blen (unread s) ->
  exists s', check n s = Ret tt s' /\ topped s s' n /\ (free = false -> bcpOffset s' = bcpOffset s /\ exists b, bk_message s' = bk_message s ++ b).
Proof.
  intros Hcheck Hok Hn. rewrite Hcheck. assert (0 <= avail s < 0x3fffffff) as Ha by (destruct Hok as (? & _ & ?); unfold avail, blen in *; lia).
  unfold lacks. fold (avail s). rewrite u64_id by lia. destruct (Z.ltb_spec (avail s) n) as [Hlt|Hge]; [apply FetchMore_ok; [done|done|lia]|].
  exists s. split; [done|]. split; [split; done || lia|]. intros _. split; [done|]. exists []. by rewrite app_nil_r.
Qed.

Lemma runs_check {A} (check : Z -> bact unit) free p n (m : bact A) b v :
  (forall n s, check n s = if lacks n s then FetchMoreBcpData n free s else Ret tt s) ->
  0 <= n <= blen b -> runs n m b v -> runs p (load! _ := check n in m) b v.
Proof.
  intros Hcheck Hn Hm s rest Hok Hu _. destruct (check_ok check free n s Hcheck Hok) as (s1 & E1 & [Hok1 Hu1 Ha1 Hr1 _ Hav] & _).
  { rewrite Hu. unfold blen in *. rewrite length_app. lia. }
  unfold load_bind. rewrite E1. destruct (Hm s1 rest) as (s2 & E2 & Hok2 & Hu2 & Ha2 & Hr2); [done|congruence|done|].
  exists s2. split; [done|]. split_and!; [done|done|congruence..].
Qed.
Lemma runs_check_rows {A} p n (m : bact A) b v : 0 <= n <= blen b -> runs n m b v -> runs p (load! _ := CheckMessageHasEnoughBytesToReadRows n in m) b v.
Proof. by apply (runs_check _ true). Qed.
Lemma runs_check_columns {A} p n (m : bact A) b v : 0 <= n <= blen b -> runs n m b v ->
  runs p (load! _ := CheckMessageHasEnoughBytesToReadColMetadata n in m) b v.
Proof. by apply (runs_check _ false). Qed.

(** The bytes in the buffer are the first of the unread ones. *)
Lemma buffered s b rest : ok s -> unread s = b ++ rest -> blen b <= avail s -> exists tail,
  drop (Z.to_nat (bcpOffset s)) (bk_message s) = b ++ tail /\ rest = tail ++ coming (bk_eom s) (bk_packets s).
Proof.
  intros (Ho & _) Hu Hle. unfold unread in Hu. set (d := drop _ _) in *. assert (blen d = avail s) as Ed by (unfold d, blen, avail, bk_len in *; rewrite length_drop; lia).
  exists (drop (length b) d). assert (take (length b) d = b) as Et.
  { transitivity (take (length b) (b ++ rest)); [|apply take_app_length]. rewrite <- Hu, take_app_le; [done|unfold blen in *; lia]. }
  split; [rewrite <- Et at 1; by rewrite take_drop|]. transitivity (drop (length b) (b ++ rest)); [by rewrite drop_app_length|].
  rewrite <- Hu, drop_app_le; [done|unfold blen in *; lia].
Qed.

Lemma peek_ok s n b rest : ok s -> unread s = b ++ rest -> blen b = n -> n <= avail s -> peek_bytes n s = Ret b s.
Proof.
  intros Hok Hu En Hle. destruct (buffered s b rest Hok Hu) as (tail & Ed & _); [lia|]. destruct Hok as (Ho & _). unfold peek_bytes.
  rewrite (proj2 (Z.leb_le 0 _)), (proj2 (Z.leb_le _ _)) by (unfold avail in *; lia). cbn [andb]. rewrite Ed.
  rewrite <- En. unfold blen. by rewrite Nat2Z.id, take_app_length.
Qed.

Lemma advance_ok s n b rest : ok s -> unread s = b ++ rest -> blen b = n -> n <= avail s ->
  exists s', advance_offset n s = Ret tt s' /\ moved s s' rest /\ avail s' = avail s - n.
Proof.
  intros Hok Hu En Hle. destruct (buffered s b rest Hok Hu) as (tail & Ed & Er); [lia|]. pose proof Hok as (Ho & Hc & Hlim). unfold advance_offset.
  assert (0 <= n) by (rewrite <- En; unfold blen; lia). rewrite u64_id by (unfold avail, blen, bk_len in *; lia).
  eexists. split; [reflexivity|]. unfold moved, ok, unread, after, avail, bk_len, set_buffer in *.
  cbn [bcpOffset bk_message bk_eom bk_packets rowCount] in *. split_and!; [lia..|done|lia| |done|done|lia].
  rewrite Z2Nat.inj_add, <- drop_drop, Ed by lia. rewrite <- En. unfold blen. by rewrite Nat2Z.id, drop_app_length.
Qed.

Lemma moved_count s s' n rest : moved s s' rest -> moved s (set_counts s' (rowCount s') n) rest.
Proof. intros (Hok & Hu & Ha & Hr). done. Qed.

Section gets.
Context {B : Type}.
Implicit Types (k : Z -> bact B).

Lemma runs_advance p n (m : bact B) b1 b2 v : blen b1 = n -> n <= p -> runs (p - n) m b2 v -> runs p (load! _ := advance_offset n in m) (b1 ++ b2) v.
Proof.
  intros En Hp Hm s rest Hok Hu Ha. rewrite <- app_assoc in Hu. destruct (advance_ok s n b1 _ Hok Hu En) as (s1 & E1 & (Hok1 & Hu1 & Ha1 & Hr1) & Eav); [lia|].
  unfold load_bind. rewrite E1. destruct (Hm s1 rest Hok1 Hu1) as (s2 & E2 & Hok2 & Hu2 & Ha2 & Hr2); [lia|].
  exists s2. split; [done|]. split_and!; [done|done|congruence..].
Qed.
Lemma runs_peek_bytes p n (k : bytes -> bact B) b1 b2 v : blen b1 = n -> n <= p -> runs p (k b1) (b1 ++ b2) v -> runs p (load! x := peek_bytes n in k x) (b1 ++ b2) v.
Proof.
  intros En Hp Hm s rest Hok Hu Ha. unfold load_bind. rewrite (peek_ok s n b1 (b2 ++ rest)); [by apply Hm|done|by rewrite app_assoc|done|lia].
Qed.
Lemma runs_peek p n k b1 b2 v : blen b1 = n -> n <= p -> runs p (k (le_val b1)) (b1 ++ b2) v -> runs p (load! x := peek n in k x) (b1 ++ b2) v.
Proof. intros. apply runs_assoc. by apply runs_peek_bytes. Qed.
Lemma runs_get p n k b1 b2 v : blen b1 = n -> n <= p -> runs (p - n) (k (le_val b1)) b2 v -> runs p (load! x := get n in k x) (b1 ++ b2) v.
Proof. intros. apply runs_assoc, runs_peek; [done..|]. apply runs_assoc. by apply runs_advance. Qed.
Lemma runs_count p n (m : bact B) b v : runs p m b v -> runs p (load! _ := count n in m) b v.
Proof.
  intros Hm s rest Hok Hu Hp. destruct (Hm (set_counts s (rowCount s) (i32 (currentBatchSize s + n))) rest Hok Hu Hp) as (s2 & E2 & Hm2). by exists s2.
Qed.
Lemma runs_get_counted p n k b1 b2 v : blen b1 = n -> n <= p -> runs (p - n) (k (le_val b1)) b2 v -> runs p (load! x := get_counted n in k x) (b1 ++ b2) v.
Proof. intros. apply runs_assoc, runs_get; [done..|]. apply runs_assoc. by apply runs_count. Qed.
Lemma runs_skip p n (m : bact B) b1 b2 v : blen b1 = n -> n <= p -> runs (p - n) m b2 v -> runs p (load! _ := skip_counted n in m) (b1 ++ b2) v.
Proof. intros. apply runs_assoc, runs_advance; [done..|]. by apply runs_count. Qed.
End gets.

Lemma runs_weaken {A} p q (m : bact A) b v : p <= q -> runs p m b v -> runs q m b v.
Proof. intros Hp Hm s rest Hok Hu Hq. apply Hm; [done..|lia]. Qed.

Lemma runs_end {A} p (m : bact A) b v : runs p m (b ++ []) v -> runs p m b v.
Proof. by rewrite app_nil_r. Qed.

(** ** Values *)

(** A conversion sees no more than the bytes of the value: more memory behind them makes no difference. *)
Definition ext (m m' : strinfo) : Prop := exists tail, m' = mk_si (si_data m ++ tail) (si_len m) (si_cursor m).
Definition rd_le {A} (x y : rd A) : Prop := forall a m, x = Got a m -> exists m', y = Got a m' /\ ext m m'.

Lemma rd_le_got {A} (a : A) m m' : ext m m' -> rd_le (Got a m) (Got a m').
Proof. intros He a' m1 [= <- <-]. by exists m'. Qed.
Lemma rd_le_failed {A} e (y : rd A) : rd_le (Failed e) y.
Proof. done. Qed.
Lemma rd_le_over {A} (y : rd A) : rd_le OverAccess y.
Proof. done. Qed.
Lemma rd_le_bind {A B} (x y : rd A) (k : A -> strinfo -> rd B) : rd_le x y -> (forall a m m', ext m m' -> rd_le (k a m) (k a m')) ->
  rd_le (rd_bind x k) (rd_bind y k).
Proof.
  intros Hx Hk. destruct x as [a m| |]; [|done..]. destruct (Hx a m eq_refl) as (m' & -> & He). by apply Hk.
Qed.
Lemma rd_le_result {A E} (wrap : E -> rd_error) m m' (x : result E A) : ext m m' -> rd_le (rd_result wrap m x) (rd_result wrap m' x).
Proof. intros. destruct x; [by apply rd_le_got|done]. Qed.

Lemma raw_copy_le m m' n : ext m m' -> rd_le (raw_copy m n) (raw_copy m' n).
Proof.
  intros [tail ->]. unfold raw_copy. cbn [si_data si_len si_cursor]. destruct (_ && _) eqn:E; [|done]. apply andb_true_iff in E as [E1 E2].
  rewrite length_app. rewrite E1, (proj2 (Z.leb_le _ _)) by lia. cbn [andb]. intros a m1 [= <- <-]. eexists. split; [|by exists tail].
  f_equal. apply andb_true_iff in E1 as [E0 E1]. rewrite drop_app_le by lia. apply take_app_le. rewrite length_drop. lia.
Qed.
Lemma copy_uint_le m m' k n : ext m m' -> rd_le (copy_uint m k n) (copy_uint m' k n).
Proof. intros He. unfold copy_uint. destruct (_ >? _); [done|]. apply rd_le_bind; [by apply raw_copy_le|]. intros. by apply rd_le_got. Qed.
Lemma CopyMsgBytes_le m m' n : ext m m' -> rd_le (CopyMsgBytes m n) (CopyMsgBytes m' n).
Proof. intros He. destruct He as [tail E]. unfold CopyMsgBytes. rewrite E at 1 2. cbn [si_len si_cursor]. destruct (_ || _); [done|]. apply raw_copy_le. by exists tail. Qed.
Lemma GetMsgBytes_le m m' n : ext m m' -> rd_le (GetMsgBytes m n) (GetMsgBytes m' n).
Proof. apply CopyMsgBytes_le. Qed.
Lemma GetMsgInt_le m m' n : ext m m' -> rd_le (GetMsgInt m n) (GetMsgInt m' n).
Proof. intros He. unfold GetMsgInt. destruct (_ && _); [|done]. apply rd_le_bind; [by apply CopyMsgBytes_le|]. intros. by apply rd_le_got. Qed.
Lemma GetMsgInt64_le m m' : ext m m' -> rd_le (GetMsgInt64 m) (GetMsgInt64 m').
Proof. intros He. apply rd_le_bind; [by apply CopyMsgBytes_le|]. intros. by apply rd_le_got. Qed.
Lemma SwapData_le m m' i j : ext m m' -> rd_le (SwapData m i j) (SwapData m' i j).
Proof.
  intros [tail ->]. unfold SwapData. cbn [si_data si_len si_cursor]. destruct ((_ <? _) || _) eqn:E0; [apply rd_le_got; by exists tail|].
  apply orb_false_iff in E0 as [_ E0]. destruct (_ && _) eqn:E; [|done]. apply andb_true_iff in E as [E1 E2]. rewrite length_app, E1, (proj2 (Z.ltb_lt _ _)) by lia. cbn [andb].
  apply rd_le_got. exists tail. cbn [si_data si_len si_cursor]. f_equal. unfold swap_at. rewrite Z.gtb_ltb in E0.
  rewrite !app_nth1, !insert_app_l; [done|rewrite ?length_insert; lia..].
Qed.

Lemma SwapData_cursor_le m m' i j : ext m m' -> rd_le (SwapData m (si_cursor m + i) (si_cursor m + j)) (SwapData m' (si_cursor m' + i) (si_cursor m' + j)).
Proof. intros He. pose proof He as [tail E]. replace (si_cursor m') with (si_cursor m) by (by rewrite E). by apply SwapData_le. Qed.

(** The value of a conversion, in every state. *)
Definition gives (x : bact datum) (d : datum) : Prop := forall s, x s = Ret d s.

Lemma converted_le {A} (f : A -> datum) x y d : rd_le x y -> gives (converted f x) d -> gives (converted f y) d.
Proof.
  intros Hle H. destruct x as [a m| |]; [|by specialize (H (mk_bulk [] 0 false [] 0 0))..].
  destruct (Hle a m eq_refl) as (m' & -> & _). exact H.
Qed.

Ltac mono :=
  repeat first
    [ apply raw_copy_le | apply copy_uint_le | apply CopyMsgBytes_le | apply GetMsgBytes_le | apply GetMsgInt_le | apply GetMsgInt64_le
    | apply SwapData_cursor_le | apply rd_le_got | apply rd_le_failed | apply rd_le_over | apply rd_le_result | assumption
    | apply rd_le_bind; [|intros ? ? ? ?] | case_match ].

Section conversions.
Context `{PgCalendar}.
Variable bad_cast : Z.

Lemma fixed_datum_ext c n m m' d : ext m m' -> gives (fixed_datum bad_cast c n m) d -> gives (fixed_datum bad_cast c n m') d.
Proof.
  intros He. unfold fixed_datum. destruct He as [tail E]. assert (si_len m' = si_len m) as -> by (by rewrite E). assert (ext m m') as He by (by exists tail).
  clear E. repeat case_match; apply converted_le.
  all: unfold TdsTypeIntegerToDatum, TdsTypeFloatToDatum, GetMsgFloat4, GetMsgFloat8, TdsTypeTimeToDatum, TdsTypeDateToDatum, TdsTypeDatetime2ToDatum,
    TdsTypeSmallDatetimeToDatum, TdsTypeDatetimeToDatum, TdsTypeDatetimeoffsetToDatum, TdsTypeSmallMoneyToDatum, TdsTypeMoneyToDatum, TdsTypeUIDToDatum.
  all: mono.
Qed.

Variable conv : conversions.

(** All bytes of a value and nothing behind them. *)
Lemma whole_ext (b tail : bytes) : let m := mk_si (b ++ tail) (blen b) 0 in
  (0 <=? si_len m) && (si_len m <=? Z.of_nat (length (si_data m))) = true /\ take (Z.to_nat (si_len m)) (si_data m) = b.
Proof.
  cbn [si_len si_data]. unfold blen. rewrite Nat2Z.id, length_app, take_app_length. split; [|done].
  rewrite !(proj2 (Z.leb_le _ _)) by lia. done.
Qed.

Lemma text_datum_ext c b tail d : gives (text_datum conv c (mk_si b (blen b) 0)) d ->
  gives (text_datum conv c (mk_si (b ++ tail) (blen b) 0)) d.
Proof.
  assert (ext (mk_si b (blen b) 0) (mk_si (b ++ tail) (blen b) 0)) as He by (by exists tail).
  destruct (whole_ext b tail) as [E1 E2]. pose proof (whole_ext b []) as [E3 E4]. rewrite app_nil_r in E3, E4.
  unfold text_datum. repeat case_match; apply converted_le.
  - unfold TdsTypeVarcharToDatum. rewrite E1, E2, E3, E4. by apply rd_le_result.
  - unfold TdsTypeNCharToDatum. rewrite E1, E2, E3, E4. by apply rd_le_result.
  - apply (CopyMsgBytes_le _ _ _ He).
Qed.

(** A SQL_VARIANT is read with the position kept. *)
Lemma rd_le_keep {A B} (x y : rd A) (k k' : A -> rd B) : rd_le x y -> (forall a, rd_le (k a) (k' a)) ->
  rd_le (rd_bind x (fun a _ => k a)) (rd_bind y (fun a _ => k' a)).
Proof. intros Hx Hk. destruct x as [a m| |]; [|done..]. destruct (Hx a m eq_refl) as (m' & -> & _). apply Hk. Qed.
Lemma bytes_at_le m m' off n : ext m m' -> rd_le (bytes_at m off n) (bytes_at m' off n).
Proof.
  intros He. pose proof He as [tail ->]. unfold bytes_at. cbn [si_data]. destruct (_ && _) eqn:E; [|done]. apply andb_true_iff in E as [E1 E2].
  rewrite length_app, E1, (proj2 (Z.leb_le _ _)) by lia. cbn [andb]. apply andb_true_iff in E1 as [E0 E1].
  rewrite drop_app_le, take_app_le by (rewrite ?length_drop; lia). by apply rd_le_got.
Qed.
Lemma uint_at_le m m' off n : ext m m' -> rd_le (uint_at m off n) (uint_at m' off n).
Proof. intros He. apply rd_le_bind; [by apply bytes_at_le|]. intros. by apply rd_le_got. Qed.
Lemma store_at_le body off b m m' : ext m m' -> rd_le (store_at body off b m) (store_at body off b m').
Proof. intros He. unfold store_at. destruct (_ && _); [by apply rd_le_got|done]. Qed.
Lemma swap_bytes_le l hdr m m' : ext m m' -> forall body, rd_le (swap_bytes l hdr body m) (swap_bytes l hdr body m').
Proof.
  intros He. induction l as [|[i j] l IH]; intros body; cbn [swap_bytes]; [by apply rd_le_got|].
  apply rd_le_keep; [|done]. unfold SwapByte. destruct (_ && _); [by apply rd_le_got|done].
Qed.
Ltac keep :=
  repeat first
    [ apply bytes_at_le | apply uint_at_le | apply store_at_le | apply swap_bytes_le | apply rd_le_got | apply rd_le_failed | apply rd_le_over
    | apply rd_le_result | assumption | apply rd_le_keep; [|intros ?]
    | lazymatch goal with |- rd_le (variant_fill _ _ _ _ _ _ _ _) _ => fail | _ => case_match end ].

Lemma variant_fill_le t hdr n strbuf body m m' : ext m m' ->
  rd_le (variant_fill conv bad_cast t hdr n strbuf body m) (variant_fill conv bad_cast t hdr n strbuf body m').
Proof.
  intros He. unfold variant_fill, variant_text, variant_binary, variant_date, variant_smalldatetime, variant_datetime, variant_time, variant_datetime2,
    variant_datetimeoffset, variant_numeric, variant_fixed, numeric_result, rd_ok. keep.
Qed.

Lemma variant_ext m m' d : ext m m' -> gives (converted DBytes (TdsTypeSqlVariantToDatum conv bad_cast m)) d ->
  gives (converted DBytes (TdsTypeSqlVariantToDatum conv bad_cast m')) d.
Proof.
  intros He. apply converted_le. unfold TdsTypeSqlVariantToDatum, variant_utf16, TdsSetMetaData. pose proof He as [tail E].
  assert (si_len m' = si_len m) as -> by (by rewrite E). assert (si_cursor m' = si_cursor m) as -> by (by rewrite E).
  repeat first [apply variant_fill_le; exact He | progress keep].
  all: exists tail; by rewrite E.
Qed.

Lemma xml_ext m m' d : ext m m' -> gives (converted DBytes (TdsTypeXMLToDatum conv m)) d -> gives (converted DBytes (TdsTypeXMLToDatum conv m')) d.
Proof.
  intros He. apply converted_le. unfold TdsTypeXMLToDatum, rd_ok. pose proof He as [tail E].
  assert (si_len m' = si_len m) as -> by (by rewrite E). assert (si_cursor m' = si_cursor m) as -> by (by rewrite E). mono.
Qed.
End conversions.

(** ** Cells *)

Lemma runs_value c i len datum_of b d p : blen b = len -> len <= bc_maxLen c < 2 ^ 32 ->
  (forall tail, gives (datum_of (mk_si (b ++ tail) len 0)) d) -> runs p (bulk_value c i len datum_of) b (Some d).
Proof.
  intros Hb Hmax Hd. unfold bulk_value. assert (0 <= len) by (rewrite <- Hb; unfold blen; lia).
  assert (forall (m : bact (option datum)) q, runs q m b (Some d) -> runs q (load! _ := CheckForInvalidLength c i len in m) b (Some d)) as Hc.
  { intros m q Hm s rest Hok Hu Hq. unfold load_bind, CheckForInvalidLength. rewrite !u32_id by lia. rewrite Z.gtb_ltb, (proj2 (Z.ltb_ge _ _)) by lia. by apply Hm. }
  apply Hc, runs_check_rows; [lia|]. intros s rest Hok Hu Ha. destruct (buffered s b rest Hok Hu) as (tail & Ed & _); [lia|].
  unfold load_bind at 1, value_at. rewrite Ed. unfold load_bind at 1. rewrite Hd.
  refine (runs_skip len len (ret (Some d)) b [] (Some d) Hb _ _ s rest Hok _ Ha); [lia|apply runs_ret|by rewrite app_nil_r].
Qed.

Lemma char_small n : 0 <= n < 128 -> char_uint32 n = n.
Proof. intros. unfold char_uint32, swrap. change (2 ^ (8 - 1)) with 128. change (2 ^ 8) with 256. rewrite Z.mod_small by lia. rewrite u32_id by lia. lia. Qed.

(** The chunks of a large value. *)
Definition chunk_bytes (cks : list bytes) : bytes := concat (map (fun c => le_bytes 4 (blen c) ++ c) cks).
Definition chunk_ok (c : bytes) : Prop := 0 < blen c < 2 ^ 32.
Definition slice (m : bytes) (t : Plp) : bytes := take (Z.to_nat (plp_len t)) (drop (Z.to_nat (plp_offset t)) m).

Lemma le_val_le4 n : 0 <= n < 2 ^ 32 -> le_val (le_bytes 4 n) = n.
Proof. intros. rewrite le_val_bytes. by apply Z.mod_small. Qed.

Definition extends (s s' : bulk) : Prop := exists b, bk_message s' = bk_message s ++ b.
Lemma extends_trans s1 s2 s3 : extends s1 s2 -> extends s2 s3 -> extends s1 s3.
Proof. intros [b1 E1] [b2 E2]. exists (b1 ++ b2). by rewrite E2, E1, app_assoc. Qed.
Lemma extends_same s s' : bk_message s' = bk_message s -> extends s s'.
Proof. intros E. exists []. by rewrite app_nil_r. Qed.
Lemma slice_extends s s' t : extends s s' -> 0 <= plp_offset t -> 0 <= plp_len t -> plp_offset t + plp_len t <= bk_len s -> slice (bk_message s') t = slice (bk_message s) t.
Proof.
  intros [b ->] Ho Hl Hle. unfold slice, bk_len in *. rewrite drop_app_le by lia. apply take_app_le. rewrite length_drop. lia.
Qed.

Lemma get_counted_ok s n b rest : ok s -> unread s = b ++ rest -> blen b = n -> n <= avail s ->
  exists s', get_counted n s = Ret (le_val b) s' /\ moved s s' rest /\ avail s' = avail s - n /\ bk_message s' = bk_message s /\ bcpOffset s' = bcpOffset s + n.
Proof.
  intros Hok Hu En Hle. unfold get_counted, get, peek, load_bind. rewrite (peek_ok s n b rest) by done. cbn [ret].
  destruct (advance_ok s n b rest) as (s1 & E1 & Hm & Ha); [done..|]. pose proof E1 as E1'. rewrite E1.
  unfold advance_offset in E1'. injection E1' as <-. eexists. split; [reflexivity|]. split; [by apply moved_count|]. split; [done|]. split; [done|].
  cbn. apply u64_id. destruct Hok as (? & _ & ?). assert (0 <= n) by (rewrite <- En; unfold blen; lia). unfold avail, blen in *. lia.
Qed.

Lemma skip_counted_ok s n b rest : ok s -> unread s = b ++ rest -> blen b = n -> n <= avail s ->
  exists s', skip_counted n s = Ret tt s' /\ moved s s' rest /\ bk_message s' = bk_message s /\ bcpOffset s' = bcpOffset s + n.
Proof.
  intros Hok Hu En Hle. unfold skip_counted, load_bind.
  destruct (advance_ok s n b rest) as (s1 & E1 & Hm & Ha); [done..|]. pose proof E1 as E1'. rewrite E1.
  unfold advance_offset in E1'. injection E1' as <-. eexists. split; [reflexivity|]. split; [by apply moved_count|]. split; [done|].
  cbn. apply u64_id. destruct Hok as (? & _ & ?). assert (0 <= n) by (rewrite <- En; unfold blen; lia). unfold avail, blen in *. lia.
Qed.

Lemma check_plp_ok n s : ok s -> 0 <= n <= blen (unread s) ->
  exists s', CheckPlpMessageHasEnoughBytesToRead n s = Ret tt s' /\ topped s s' n /\ bcpOffset s' = bcpOffset s /\ extends s s'.
Proof.
  intros Hok Hn. destruct (check_ok CheckPlpMessageHasEnoughBytesToRead false n s) as (s' & E & Ht & He); [done..|]. exists s'.
  destruct (He eq_refl) as [? ?]. done.
Qed.

Definition chunks_len (cks : list bytes) : Z := blen (concat cks).

Lemma bulk_chunks_ok cks : forall fuel lenCheck s rest, Forall chunk_ok cks -> ok s -> unread s = chunk_bytes cks ++ le_bytes 4 0 ++ rest ->
  (length cks < fuel)%nat -> 0 <= lenCheck -> lenCheck + chunks_len cks < 2 ^ 64 ->
  exists s' l, bulk_chunks fuel lenCheck s = Ret (Some (l, lenCheck + chunks_len cks)) s' /\ moved s s' rest /\ extends s s' /\
    map (slice (bk_message s')) l = cks.
Proof.
  induction cks as [|c cks IH]; intros [|fuel] lenCheck s rest Hck Hok Hu Hf Hl Hlim; try (cbn in Hf; lia); cbn [bulk_chunks].
  - destruct (check_plp_ok 4 s Hok) as (s1 & E1 & [Hok1 Hu1 Ha1 Hr1 _ Hav1] & Ho1 & He1).
    { rewrite Hu. unfold blen. rewrite !length_app, length_le_bytes. lia. }
    unfold load_bind at 1. rewrite E1. cbv beta. rewrite Z.gtb_ltb, (proj2 (Z.ltb_ge _ _)) by (unfold avail in Hav1; lia). rewrite Hu in Hu1. cbn [chunk_bytes map concat app] in Hu1.
    destruct (get_counted_ok s1 4 (le_bytes 4 0) rest) as (s2 & E2 & (Hok2 & Hu2 & Ha2 & Hr2) & _ & Em2 & _); [done..|].
    unfold load_bind at 1. rewrite E2. exists s2, []. split; [change (chunks_len []) with 0; by replace (lenCheck + 0) with lenCheck by lia|].
    split; [by split_and!; [..|congruence|congruence]|]. split; [|done]. eapply extends_trans; [done|by apply extends_same].
  - apply Forall_cons_1 in Hck as [Hc Hck]. unfold chunk_ok in Hc. cbn [chunk_bytes map concat] in Hu. fold (chunk_bytes cks) in Hu. rewrite <- !app_assoc in Hu.
    assert (chunks_len (c :: cks) = blen c + chunks_len cks) as El by (unfold chunks_len, blen; cbn [concat]; rewrite length_app; lia).
    assert (0 <= chunks_len cks) by (unfold chunks_len, blen; lia).
    destruct (check_plp_ok 4 s Hok) as (s1 & E1 & [Hok1 Hu1 Ha1 Hr1 _ Hav1] & Ho1 & He1).
    { rewrite Hu. unfold blen. rewrite !length_app, length_le_bytes. lia. }
    unfold load_bind at 1. rewrite E1. cbv beta. rewrite Z.gtb_ltb, (proj2 (Z.ltb_ge _ _)) by (unfold avail in Hav1; lia). rewrite Hu in Hu1.
    destruct (get_counted_ok s1 4 (le_bytes 4 (blen c)) _ Hok1 Hu1) as (s2 & E2 & (Hok2 & Hu2 & Ha2 & Hr2) & _ & Em2 & _); [done..|].
    unfold load_bind at 1. rewrite E2. rewrite le_val_le4 by lia. rewrite (proj2 (Z.eqb_neq _ PLP_TERMINATOR)) by (unfold PLP_TERMINATOR; lia).
    unfold load_bind at 1. destruct (check_plp_ok (blen c) s2 Hok2) as (s3 & E3 & [Hok3 Hu3 Ha3 Hr3 _ Hav3] & Ho3 & He3).
    { rewrite Hu2. unfold blen. rewrite !length_app. lia. }
    unfold load_bind at 1. rewrite E3. cbv beta. rewrite Z.gtb_ltb, (proj2 (Z.ltb_ge _ _)) by (unfold avail in Hav3; lia). rewrite Hu2 in Hu3.
    destruct (skip_counted_ok s3 (blen c) c _ Hok3 Hu3) as (s4 & E4 & (Hok4 & Hu4 & Ha4 & Hr4) & Em4 & _); [done..|].
    unfold load_bind at 1. rewrite E4. rewrite u64_id by lia.
    destruct (IH fuel (lenCheck + blen c) s4 rest) as (s5 & l & E5 & (Hok5 & Hu5 & Ha5 & Hr5) & He5 & Hm5); [done|done|done|cbn in Hf; lia|lia|lia|].
    unfold load_bind. rewrite E5. exists s5, (mk_plp (bcpOffset s2) (blen c) :: l). split; [cbn; f_equal; f_equal; f_equal; lia|].
    split; [by split_and!; [..|congruence|congruence]|].
    assert (extends s3 s5) as He35 by (eapply extends_trans; [by apply extends_same|done]).
    split; [eapply extends_trans; [exact He1|]; eapply extends_trans; [apply extends_same, Em2|]; by eapply extends_trans|].
    cbn [map]. f_equal; [|done]. destruct (buffered s3 c _ Hok3 Hu3 Hav3) as (tail & Ed & _).
    rewrite (slice_extends s3 s5); [|done|..]; cbn [plp_offset plp_len]; try (destruct Hok2 as (? & _); unfold avail, blen in *; lia).
    unfold slice. cbn [plp_offset plp_len]. rewrite <- Ho3, Ed. unfold blen. by rewrite Nat2Z.id, take_app_length.
Qed.

(** A large value on the wire: its length, or that it is not known, and the chunks. *)
Definition plp_bytes (known : bool) (cks : list bytes) : bytes :=
  le_bytes 8 (if known then chunks_len cks else PLP_UNKNOWN_LEN) ++ chunk_bytes cks ++ le_bytes 4 0.

Lemma rest_data_length ps : (length (rest_data ps) <= length (concat (map payload_of ps)))%nat.
Proof. induction ps as [|[b last|] ps IH]; cbn; [done| |lia]. rewrite !length_app. destruct last; cbn; lia. Qed.
Lemma unread_fuel s : (length (unread s) < bulk_fuel s)%nat.
Proof.
  unfold unread, bulk_fuel. rewrite length_app, length_drop. pose proof (rest_data_length (bk_packets s)). destruct (bk_eom s); cbn [coming length]; lia.
Qed.
Lemma chunk_bytes_length cks : (length cks <= length (chunk_bytes cks))%nat.
Proof. unfold chunk_bytes. induction cks as [|c cks IH]; cbn [map concat length]; [lia|]. rewrite !length_app, length_le_bytes. lia. Qed.
Lemma chunks_len_bytes cks : chunks_len cks <= blen (chunk_bytes cks).
Proof. unfold chunks_len, blen, chunk_bytes. induction cks as [|c cks IH]; cbn [map concat length]; [lia|]. rewrite !length_app, length_le_bytes. lia. Qed.

Lemma le_val_le8 n : 0 <= n < 2 ^ 64 -> le_val (le_bytes 8 n) = n.
Proof. intros. rewrite le_val_bytes. by apply Z.mod_small. Qed.

Lemma ReadBcpPlp_ok known cks s rest : Forall chunk_ok cks -> ok s -> unread s = plp_bytes known cks ++ rest ->
  exists s' l, ReadBcpPlp s = Ret (Some (false, l)) s' /\ moved s s' rest /\ map (slice (bk_message s')) l = cks.
Proof.
  intros Hck Hok Hu. unfold plp_bytes in Hu. rewrite <- !app_assoc in Hu. unfold ReadBcpPlp.
  pose proof (unread_length s Hok) as Elen. pose proof Hok as (Ho & Hcp & Hlim).
  pose proof (chunks_len_bytes cks). assert (0 <= chunks_len cks < 0x3fffffff) as Hcl.
  { rewrite Hu in Elen. unfold chunks_len, blen, avail in *. rewrite !length_app in Elen. lia. }
  destruct (check_plp_ok 8 s Hok) as (s1 & E1 & [Hok1 Hu1 Ha1 Hr1 _ Hav1] & Ho1 & He1).
  { rewrite Hu. unfold blen. rewrite !length_app, length_le_bytes. lia. }
  unfold load_bind at 1. rewrite E1. rewrite Hu in Hu1.
  destruct (get_counted_ok s1 8 _ _ Hok1 Hu1) as (s2 & E2 & (Hok2 & Hu2 & Ha2 & Hr2) & _ & Em2 & _); [done..|].
  unfold load_bind at 1. rewrite E2. rewrite le_val_le8 by (destruct known; unfold PLP_UNKNOWN_LEN; lia).
  rewrite (proj2 (Z.eqb_neq _ PLP_NULL)) by (destruct known; unfold PLP_NULL, PLP_UNKNOWN_LEN; lia).
  destruct (bulk_chunks_ok cks (bulk_fuel s2) 0 s2 rest) as (s3 & l & E3 & (Hok3 & Hu3 & Ha3 & Hr3) & He3 & Hm3); [done|done|done| |done|lia|].
  { pose proof (unread_fuel s2) as Hf. rewrite Hu2, length_app in Hf. pose proof (chunk_bytes_length cks). lia. }
  unfold load_bind. rewrite E3. exists s3, l. split; [|split; [by split_and!; [..|congruence|congruence]|done]].
  rewrite Z.add_0_l. destruct known; [by rewrite Z.eqb_refl, andb_false_r|done].
Qed.

Lemma runs_plp c i datum_of known cks d p : Forall chunk_ok cks ->
  (forall tail, gives (datum_of (mk_si (concat cks ++ tail) (blen (concat cks)) 0)) d) -> runs p (bulk_plp c i datum_of) (plp_bytes known cks) (Some d).
Proof.
  intros Hck Hd s rest Hok Hu _. destruct (ReadBcpPlp_ok known cks s rest Hck Hok Hu) as (s' & l & E & Hm & Hl).
  exists s'. split; [|done]. unfold bulk_plp, load_bind. rewrite E. unfold TdsGetPlpStringInfoBufferFromToken. cbn [plp].
  change (map _ l) with (map (slice (bk_message s')) l). rewrite Hl. fold (blen (concat cks)). by rewrite Hd.
Qed.
Lemma runs_plp_null c i datum_of p : runs p (bulk_plp c i datum_of) (le_bytes 8 PLP_NULL) None.
Proof.
  intros s rest Hok Hu _. unfold bulk_plp, ReadBcpPlp. destruct (check_plp_ok 8 s Hok) as (s1 & E1 & [Hok1 Hu1 Ha1 Hr1 _ Hav1] & Ho1 & He1).
  { rewrite Hu. unfold blen. rewrite !length_app, length_le_bytes. lia. }
  unfold load_bind at 1 2. rewrite E1. rewrite Hu in Hu1.
  destruct (get_counted_ok s1 8 _ _ Hok1 Hu1) as (s2 & E2 & (Hok2 & Hu2 & Ha2 & Hr2) & _ & Em2 & _); [done..|].
  unfold load_bind at 1. rewrite E2. exists s2. split; [reflexivity|]. by split_and!; [..|congruence|congruence].
Qed.

Section wire.
Context `{PgCalendar}.
Variable bad_cast : Z.
Variable conv : conversions.

(** The StringInfo of a value that ends with its memory. *)
Definition alone (b : bytes) : strinfo := mk_si b (blen b) 0.

(** The bytes of a cell and its value. *)
Inductive cell_wire (c : BulkLoadColMetaData) : bytes -> option datum -> Prop :=
| wire_bare b d : type_in (bc_type c) fixed_types = true -> bc_variant c = true -> blen b = bc_maxLen c ->
    gives (fixed_datum bad_cast c (blen b) (alone b)) d -> cell_wire c b (Some d)
| wire_fixed_null : type_in (bc_type c) fixed_types = true -> bc_variant c = false -> cell_wire c [0] None
| wire_fixed b d : type_in (bc_type c) fixed_types = true -> bc_variant c = false -> 0 < blen b < 128 -> blen b <= bc_maxLen c ->
    gives (fixed_datum bad_cast c (blen b) (alone b)) d -> cell_wire c (blen b :: b) (Some d)
| wire_numeric_null : type_in (bc_type c) numeric_types = true -> bc_scale c <= bc_precision c -> cell_wire c [0] None
| wire_numeric b d : type_in (bc_type c) numeric_types = true -> bc_scale c <= bc_precision c -> 0 < blen b < 128 -> blen b <= bc_maxLen c ->
    gives (converted DBytes (TdsTypeNumericToDatum (alone b) (Z.to_nat (bc_scale c)))) d -> cell_wire c (blen b :: b) (Some d)
| wire_string_null : type_in (bc_type c) string_types = true -> bc_maxLen c <> 0xffff -> cell_wire c (le_bytes 2 0xffff) None
| wire_string b d : type_in (bc_type c) string_types = true -> bc_maxLen c <> 0xffff -> blen b < 0xffff -> blen b <= bc_maxLen c ->
    gives (text_datum conv c (alone b)) d -> cell_wire c (le_bytes 2 (blen b) ++ b) (Some d)
| wire_max_null : type_in (bc_type c) string_types = true -> bc_maxLen c = 0xffff -> cell_wire c (le_bytes 8 PLP_NULL) None
| wire_max known cks d : type_in (bc_type c) string_types = true -> bc_maxLen c = 0xffff -> Forall chunk_ok cks ->
    gives (text_datum conv c (alone (concat cks))) d -> cell_wire c (plp_bytes known cks) (Some d)
| wire_text_null : type_in (bc_type c) text_types = true -> cell_wire c [0] None
| wire_text_empty ptr ts : type_in (bc_type c) text_types = true -> 0 < blen ptr < 256 -> blen ts = 8 ->
    cell_wire c (blen ptr :: ptr ++ ts ++ le_bytes 4 0) None
| wire_text ptr ts b d : type_in (bc_type c) text_types = true -> 0 < blen ptr < 256 -> blen ts = 8 -> 0 < blen b <= bc_maxLen c ->
    gives (text_datum conv c (alone b)) d -> cell_wire c (blen ptr :: ptr ++ ts ++ le_bytes 4 (blen b) ++ b) (Some d)
| wire_xml_null : bc_type c = TDS_TYPE_XML -> cell_wire c (le_bytes 8 PLP_NULL) None
| wire_xml known cks t : bc_type c = TDS_TYPE_XML -> Forall chunk_ok cks -> gives (converted DBytes (TdsTypeXMLToDatum conv (alone (concat cks)))) (DBytes t) ->
    cell_wire c (plp_bytes known cks) (Some (DBytes t))
| wire_variant_null : bc_type c = TDS_TYPE_SQLVARIANT -> cell_wire c (le_bytes 4 0) None
| wire_variant b t : bc_type c = TDS_TYPE_SQLVARIANT -> 0 < blen b <= bc_maxLen c -> gives (converted DBytes (TdsTypeSqlVariantToDatum conv bad_cast (alone b))) (DBytes t) ->
    cell_wire c (le_bytes 4 (blen b) ++ b) (Some (DBytes t)).

Local Notation cell_of := (bulk_cell bad_cast conv).

Lemma type_in_In t ts : type_in t ts = true -> In t ts.
Proof. unfold type_in. intros (x & Hx & <-%Z.eqb_eq)%existsb_exists. done. Qed.

Lemma cell_of_numeric c i : type_in (bc_type c) numeric_types = true -> cell_of c i = bulk_numeric c i.
Proof. intros Hn. unfold bulk_cell. apply type_in_In in Hn. by repeat (destruct Hn as [<-|Hn]; [done|]). Qed.
Lemma cell_of_string c i : type_in (bc_type c) string_types = true -> cell_of c i = bulk_string conv c i.
Proof. intros Hn. unfold bulk_cell. apply type_in_In in Hn. by repeat (destruct Hn as [<-|Hn]; [done|]). Qed.
Lemma cell_of_text c i : type_in (bc_type c) text_types = true -> cell_of c i = bulk_text conv c i.
Proof. intros Hn. unfold bulk_cell. apply type_in_In in Hn. by repeat (destruct Hn as [<-|Hn]; [done|]). Qed.

Lemma le_val_one b : le_val [b] = b.
Proof. cbn. lia. Qed.

Lemma runs_numeric c i p b v : bc_scale c <= bc_precision c ->
  runs p (load! _ := CheckMessageHasEnoughBytesToReadRows 1 in
     load! b := get_counted 1 in
     let len := char_uint32 b in
     if len =? 0 then ret None
     else bulk_value c i len (fun temp => converted DBytes (TdsTypeNumericToDatum temp (Z.to_nat (bc_scale c))))) b v -> runs p (bulk_numeric c i) b v.
Proof.
  intros Hs Hr s rest Hok Hu Hp. unfold bulk_numeric. rewrite Z.gtb_ltb, (proj2 (Z.ltb_ge _ _)) by lia. by apply Hr.
Qed.

Lemma numeric_ext b tail scale d : gives (converted DBytes (TdsTypeNumericToDatum (alone b) scale)) d ->
  gives (converted DBytes (TdsTypeNumericToDatum (mk_si (b ++ tail) (blen b) 0) scale)) d.
Proof.
  apply converted_le. unfold TdsTypeNumericToDatum, numeric_result. assert (ext (alone b) (mk_si (b ++ tail) (blen b) 0)) as He by (by exists tail). mono.
Qed.

(** The length byte of a cell, and what follows when it is not zero. *)
Lemma runs_length_byte {A} (k : Z -> bact A) b v p : 0 <= blen b < 256 -> runs 0 (k (blen b)) b v ->
  runs p (load! _ := CheckMessageHasEnoughBytesToReadRows 1 in load! l := get_counted 1 in k l) (blen b :: b) v.
Proof.
  intros Hb Hk. apply runs_check_rows; [unfold blen; cbn; lia|]. apply (runs_get_counted 1 1 k [blen b] b); [done|done|]. by rewrite le_val_one.
Qed.
Lemma runs_zero_byte {A} (k : Z -> bact A) v p : runs 0 (k 0) [] v ->
  runs p (load! _ := CheckMessageHasEnoughBytesToReadRows 1 in load! l := get_counted 1 in k l) [0] v.
Proof. intros Hk. by apply (runs_length_byte k []). Qed.

Lemma runs_fixed c i b d p : bc_maxLen c < 2 ^ 32 -> blen b <= bc_maxLen c -> gives (fixed_datum bad_cast c (blen b) (alone b)) d ->
  runs p (bulk_value c i (blen b) (fixed_datum bad_cast c (blen b))) b (Some d).
Proof. intros Hm Hb Hd. apply runs_value; [done|lia|]. intros tail. apply (fixed_datum_ext bad_cast c (blen b) (alone b)); [by exists tail|done]. Qed.

Lemma runs_string_value c i b d p : bc_maxLen c < 2 ^ 32 -> blen b <= bc_maxLen c -> gives (text_datum conv c (alone b)) d ->
  runs p (load! _ := CheckForInvalidLength c i (blen b) in
     load! _ := CheckMessageHasEnoughBytesToReadRows (blen b) in
     load! temp := value_at (blen b) in
     load! _ := skip_counted (blen b) in
     load! d := text_datum conv c temp in
     ret (Some d)) b (Some d).
Proof.
  intros Hm Hb Hd s rest Hok Hu _. assert (0 <= blen b) by (unfold blen; lia). unfold load_bind at 1, CheckForInvalidLength.
  rewrite !u32_id by lia. rewrite Z.gtb_ltb, (proj2 (Z.ltb_ge _ _)) by lia. revert s Hok Hu.
  assert (forall (m : bact (option datum)), runs (blen b) m b (Some d) -> forall s, ok s -> unread s = b ++ rest ->
    exists s', (load! _ := CheckMessageHasEnoughBytesToReadRows (blen b) in m) s = Ret (Some d) s' /\ moved s s' rest) as Hc.
  { intros m Hr s Hok Hu. apply (runs_check_rows 0 (blen b) m b (Some d)); [lia|done..|destruct Hok as (? & _); unfold avail; lia]. }
  apply Hc. clear rest Hc. intros s rest Hok Hu Ha. destruct (buffered s b rest Hok Hu Ha) as (tail & Ed & _).
  unfold load_bind at 1, value_at. rewrite Ed. destruct (skip_counted_ok s (blen b) b rest) as (s1 & E1 & Hmv & _); [done..|].
  exists s1. split; [|done]. unfold load_bind. rewrite E1. by rewrite text_datum_ext with (d := d).
Qed.

Lemma runs_le4 {A} (k : Z -> bact A) n b v p : 0 <= n < 2 ^ 32 -> 4 <= p -> runs (p - 4) (k n) b v -> runs p (load! l := get_counted 4 in k l) (le_bytes 4 n ++ b) v.
Proof. intros Hn Hp Hk. apply runs_get_counted; [done|done|]. by rewrite le_val_le4. Qed.

Lemma runs_text_head {A} (k : Z -> bact A) ptr ts n b v p : 0 < blen ptr < 256 -> blen ts = 8 -> 0 <= n < 2 ^ 32 -> runs 0 (k n) b v ->
  runs p (load! _ := CheckMessageHasEnoughBytesToReadRows (blen ptr + 8 + 4) in
     load! _ := skip_counted (blen ptr) in
     load! _ := skip_counted 8 in
     load! len := get_counted 4 in
     k len) (ptr ++ ts ++ le_bytes 4 n ++ b) v.
Proof.
  intros Hp Ht Hn Hk. apply runs_check_rows; [unfold blen in *; rewrite !length_app, length_le_bytes; lia|].
  apply runs_skip; [done|lia|]. apply runs_skip; [done|lia|]. apply runs_le4; [done|lia|]. eapply runs_weaken; [|done]. lia.
Qed.

Lemma runs_cell c i b v : 0 <= bc_maxLen c < 2 ^ 32 -> cell_wire c b v -> runs 0 (cell_of c i) b v.
Proof.
  intros Hm Hw. destruct Hw as [b d Ht Hv Hb Hd|Ht Hv|b d Ht Hv Hb Hl Hd|Ht Hs|b d Ht Hs Hb Hl Hd|Ht Hx|b d Ht Hx Hb Hl Hd|Ht Hx|known cks d Ht Hx Hck Hd
    |Ht|ptr ts Ht Hp Hts|ptr ts b d Ht Hp Hts Hb Hd|Ht|known cks t Ht Hck Hd|Ht|b t Ht Hb Hd].
  - unfold bulk_cell, bulk_fixed. rewrite Ht, Hv, <- Hb. apply runs_fixed; [lia..|done].
  - unfold bulk_cell, bulk_fixed. rewrite Ht, Hv. apply runs_zero_byte. apply runs_ret.
  - unfold bulk_cell, bulk_fixed. rewrite Ht, Hv. apply runs_length_byte; [lia|]. rewrite char_small by lia. cbv zeta.
    rewrite (proj2 (Z.eqb_neq _ 0)) by lia. apply runs_fixed; [lia..|done].
  - rewrite cell_of_numeric by done. apply runs_numeric; [done|]. apply runs_zero_byte. apply runs_ret.
  - rewrite cell_of_numeric by done. apply runs_numeric; [done|]. apply runs_length_byte; [lia|]. rewrite char_small by lia. cbv zeta.
    rewrite (proj2 (Z.eqb_neq _ 0)) by lia. apply runs_value; [done|lia|]. intros tail. by apply numeric_ext.
  - rewrite cell_of_string by done. unfold bulk_string. rewrite (proj2 (Z.eqb_neq _ 0xffff)) by done. cbn [negb]. apply runs_check_rows; [done|].
    rewrite <- (app_nil_r (le_bytes 2 0xffff)). apply runs_get_counted; [done..|apply runs_ret].
  - rewrite cell_of_string by done. unfold bulk_string. rewrite (proj2 (Z.eqb_neq _ 0xffff)) by done. cbn [negb].
    assert (0 <= blen b) by (unfold blen; lia). apply runs_check_rows; [unfold blen; rewrite length_app, length_le_bytes; lia|].
    apply runs_get_counted; [done..|]. rewrite le_val_bytes, Z.mod_small by lia. rewrite (proj2 (Z.eqb_neq _ 0xffff)) by lia. cbn [negb]. apply runs_string_value; [lia..|done].
  - rewrite cell_of_string by done. unfold bulk_string. rewrite Hx. apply runs_plp_null.
  - rewrite cell_of_string by done. unfold bulk_string. rewrite Hx. apply runs_plp; [done|]. intros tail. by apply text_datum_ext.
  - rewrite cell_of_text by done. unfold bulk_text. apply runs_zero_byte. apply runs_ret.
  - rewrite cell_of_text by done. unfold bulk_text. apply runs_check_rows; [unfold blen; cbn; lia|].
    apply (runs_get_counted 1 1 _ [blen ptr] (ptr ++ ts ++ le_bytes 4 0)); [done|done|]. rewrite le_val_one, (proj2 (Z.eqb_neq _ 0)) by lia.
    rewrite <- (app_nil_r (le_bytes 4 0)). apply runs_text_head; [done..|apply runs_ret].
  - rewrite cell_of_text by done. unfold bulk_text. apply runs_check_rows; [unfold blen; cbn; lia|].
    apply (runs_get_counted 1 1 _ [blen ptr] (ptr ++ ts ++ le_bytes 4 (blen b) ++ b)); [done|done|]. rewrite le_val_one, (proj2 (Z.eqb_neq _ 0)) by lia.
    apply runs_text_head; [done|done|lia|]. rewrite (proj2 (Z.eqb_neq _ 0)) by lia. apply runs_value; [done|lia|]. intros tail. by apply text_datum_ext.
  - unfold bulk_cell. rewrite Ht. apply runs_plp_null.
  - unfold bulk_cell. rewrite Ht. apply runs_plp; [done|]. intros tail. eapply xml_ext, Hd. by exists tail.
  - unfold bulk_cell. rewrite Ht. unfold bulk_variant. apply runs_check_rows; [done|]. rewrite <- (app_nil_r (le_bytes 4 0)). apply runs_le4; [lia..|apply runs_ret].
  - unfold bulk_cell. rewrite Ht. unfold bulk_variant. apply runs_check_rows; [unfold blen; rewrite length_app, length_le_bytes; lia|].
    apply runs_le4; [lia..|]. rewrite (proj2 (Z.eqb_neq _ 0)) by lia. apply runs_value; [done|lia|]. intros tail. eapply variant_ext, Hd. by exists tail.
Qed.

(** ** Rows *)

Inductive row_wire : list BulkLoadColMetaData -> bytes -> list (option datum) -> Prop :=
| row_nil : row_wire [] [] []
| row_cons c cs b bs v vs : 0 <= bc_maxLen c < 2 ^ 32 -> cell_wire c b v -> row_wire cs bs vs -> row_wire (c :: cs) (b ++ bs) (v :: vs).

Lemma runs_cells cs b vs : row_wire cs b vs -> forall i, runs 0 (bulk_cells bad_cast conv cs i) b vs.
Proof.
  induction 1 as [|c cs b bs v vs Hm Hc _ IH]; intros i; cbn [bulk_cells]; [apply runs_ret|].
  apply runs_bind with (a := v); [by apply runs_cell|]. rewrite <- (app_nil_r bs). apply runs_bind with (a := vs); [apply IH|apply runs_ret].
Qed.

(** The rows behind their tokens. *)
Fixpoint rows_bytes (rows : list (bytes * list (option datum))) : bytes :=
  match rows with
  | [] => []
  | r :: rows => TDS_TOKEN_ROW :: r.1 ++ rows_bytes rows
  end.

Variables rows_per_batch kilobytes_per_batch : Z.
Hypothesis rows_limit : 0 < rows_per_batch < 2 ^ 31.
Hypothesis size_limit : 0 < kilobytes_per_batch * 1024 < 2 ^ 31.
Local Notation room := (batch_room rows_per_batch kilobytes_per_batch).
Variable cs : list BulkLoadColMetaData.

Lemma rows_ok rows : forall fuel s rest, Forall (fun r => row_wire cs r.1 r.2) rows -> ok s ->
  unread s = rows_bytes rows ++ TDS_TOKEN_DONE :: rest -> 1 <= avail s -> (length rows < fuel)%nat -> 0 <= rowCount s ->
  exists n s', bulk_rows bad_cast conv rows_per_batch kilobytes_per_batch fuel cs s = Ret (take n (map snd rows)) s' /\
    ok s' /\ unread s' = rows_bytes (drop n rows) ++ TDS_TOKEN_DONE :: rest /\ 1 <= avail s' /\ after s' = after s /\
    rowCount s' = rowCount s + Z.of_nat (length (take n rows)) /\ (room s' = false \/ (length rows <= n)%nat) /\ (room s = true -> rows <> [] -> (0 < n)%nat).
Proof.
  induction rows as [|[b vs] rows IH]; intros [|fuel] s rest Hr Hok Hu Ha Hf Hc; try (cbn in Hf; lia); cbn [bulk_rows].
  - exists 0%nat, s. unfold load_bind, peek, load_bind. rewrite (peek_ok s 1 [TDS_TOKEN_DONE] rest) by done. cbn [ret]. split_and!; try done; [cbn; lia|by right].
  - apply Forall_cons_1 in Hr as [Hb Hr]. cbn [fst snd] in Hb. unfold load_bind at 1, peek, load_bind at 1.
    rewrite (peek_ok s 1 [TDS_TOKEN_ROW] (b ++ rows_bytes rows ++ TDS_TOKEN_DONE :: rest)); [|done|by rewrite Hu; cbn; rewrite <- app_assoc|done|lia].
    cbn [ret]. change (le_val [TDS_TOKEN_ROW] =? TDS_TOKEN_ROW) with true. cbn [andb]. destruct (room s) eqn:Eroom.
    2: { exists 0%nat, s. split_and!; try done; [cbn; lia|by left]. }
    unfold batch_room in Eroom. apply andb_true_iff in Eroom as [_ Ecount]. unfold load_bind at 1.
    set (s0 := set_counts s (i32 (rowCount s + 1)) (currentBatchSize s)). assert (rowCount s0 = rowCount s + 1) as Ec0 by (cbn; apply i32_id, in_i32_iff; lia).
    destruct (skip_counted_ok s0 1 [TDS_TOKEN_ROW] (b ++ rows_bytes rows ++ TDS_TOKEN_DONE :: rest)) as (s1 & E1 & (Hok1 & Hu1 & Ha1 & Hr1) & _);
      [done|by change (unread s0) with (unread s); rewrite Hu; cbn; rewrite <- app_assoc|done|done|].
    unfold load_bind at 1. rewrite E1. destruct (runs_cells cs b vs Hb 0 s1 _ Hok1 Hu1) as (s2 & E2 & Hok2 & Hu2 & Ha2 & Hr2); [destruct Hok1 as (? & _); unfold avail; lia|].
    unfold load_bind at 1. rewrite E2. destruct (check_ok CheckMessageHasEnoughBytesToReadRows true 1 s2) as (s3 & E3 & [Hok3 Hu3 Ha3 Hr3 _ Hav3] & _);
      [done|done|rewrite Hu2; unfold blen; rewrite length_app; cbn; lia|]. unfold load_bind at 1. rewrite E3. rewrite Hu2 in Hu3.
    destruct (IH fuel s3 rest Hr Hok3 Hu3 Hav3) as (n & s4 & E4 & Hok4 & Hu4 & Hav4 & Ha4 & Hr4 & Hroom & _); [cbn in Hf; lia|lia|].
    exists (S n), s4. unfold load_bind. rewrite E4. split_and!; [done|done|done|done| | | |lia].
    + rewrite Ha4, Ha3, Ha2, Ha1. done.
    + cbn [take length]. lia.
    + cbn [length]. destruct Hroom; [by left|right; lia].
Qed.

Local Notation read_batch := (SetBulkLoadRowData bad_cast conv rows_per_batch kilobytes_per_batch).

Lemma coming_more s : ok s -> bk_eom s = false -> avail s + 1 <= blen (unread s).
Proof.
  intros Hok Ee. rewrite (unread_length s Hok), Ee. destruct Hok as (_ & Hc & _). specialize (Hc Ee). cbn [coming].
  destruct (bk_packets s) as [|[b last|] ps]; [done| |done]. destruct Hc as [Hb _]. cbn [rest_data]. unfold blen. rewrite length_app. destruct b; [done|cbn [length]; lia].
Qed.

Lemma rows_bytes_length rows : (length rows <= length (rows_bytes rows))%nat.
Proof. induction rows as [|r rows IH]; cbn [rows_bytes length]; [lia|]. rewrite length_app. lia. Qed.

(** A batch is an initial part of the rows, not empty if there are rows. *)
Lemma batch_ok rows s rest : Forall (fun r => row_wire cs r.1 r.2) rows -> ok s -> unread s = rows_bytes rows ++ TDS_TOKEN_DONE :: rest ->
  exists n s', read_batch cs s = Ret (take n (map snd rows)) s' /\ ok s' /\ unread s' = rows_bytes (drop n rows) ++ TDS_TOKEN_DONE :: rest /\
    after s' = after s /\ rowCount s' = Z.of_nat (length (take n rows)) /\ (rows <> [] -> (0 < n)%nat).
Proof.
  intros Hr Hok Hu. unfold SetBulkLoadRowData. unfold load_bind at 1. set (s0 := set_counts s 0 0). assert (ok s0) as Hok0 by done.
  destruct (check_ok CheckMessageHasEnoughBytesToReadRows true 1 s0) as (s1 & E1 & [Hok1 Hu1 Ha1 Hr1 Hz1 Hav1] & _);
    [done|done|change (unread s0) with (unread s); rewrite Hu; unfold blen; rewrite length_app; cbn; lia|].
  unfold load_bind at 1. rewrite E1. change (unread s0) with (unread s) in Hu1. rewrite Hu in Hu1.
  destruct (rows_ok rows (bulk_fuel s1) s1 rest Hr Hok1 Hu1 Hav1) as (n & s2 & E2 & Hok2 & Hu2 & Hav2 & Ha2 & Hr2 & Hroom & Hn).
  { pose proof (unread_fuel s1) as Hf. rewrite Hu1, length_app in Hf. pose proof (rows_bytes_length rows). lia. }
  { rewrite Hr1. done. }
  unfold load_bind at 1. rewrite E2. destruct (check_ok CheckMessageHasEnoughBytesToReadRows true 1 s2) as (s3 & E3 & [Hok3 Hu3 Ha3 Hr3 Hz3 Hav3] & _);
    [done|done|rewrite Hu2; unfold blen; rewrite length_app; cbn; lia|].
  unfold load_bind at 1. rewrite E3. assert (room s1 = true) as Hroom1.
  { unfold batch_room. rewrite Hr1, Hz1. cbn. rewrite i32_id by (apply in_i32_iff; lia). lia. }
  assert (rowCount s3 = Z.of_nat (length (take n rows))) as Hc by (rewrite Hr3, Hr2, Hr1; cbn; lia).
  assert (room s3 = room s2) as Er by (unfold batch_room; by rewrite Hr3, Hz3). rewrite Hu2 in Hu3. exists n.
  rewrite Er. destruct (room s2) eqn:Er2.
  2: { exists s3. split_and!; [done|done|done|rewrite Ha3, Ha2, Ha1; done|done|by apply Hn]. }
  destruct Hroom as [|Hall]; [done|]. rewrite (drop_ge rows n) in Hu3 |- * by done. unfold load_bind at 1, peek, load_bind at 1.
  rewrite (peek_ok s3 1 [TDS_TOKEN_DONE] rest) by done. cbn [ret]. change (le_val [TDS_TOKEN_DONE] =? TDS_TOKEN_DONE) with true. cbv beta iota.
  destruct (_ && negb (bk_eom s3)) eqn:Ee; [|exists s3; split_and!; [done|done|done|rewrite Ha3, Ha2, Ha1; done|done|by apply Hn]].
  apply andb_true_iff in Ee as [_ Ee%negb_true_iff]. pose proof (coming_more s3 Hok3 Ee) as Hmore. fold (avail s3).
  assert (0 <= avail s3 < 0x3fffffff) as Hav by (destruct Hok3 as (? & _ & ?); unfold avail, blen in *; lia). rewrite u64_id by lia.
  destruct (check_ok CheckMessageHasEnoughBytesToReadRows true (avail s3 + 1) s3) as (s4 & E4 & [Hok4 Hu4 Ha4 Hr4 Hz4 _] & _); [done|done|lia|].
  unfold load_bind. rewrite E4. exists s4. split_and!; [done|done|congruence|rewrite Ha4, Ha3, Ha2, Ha1; done|congruence|by apply Hn].
Qed.

(** ** Batches *)

Context {X : Type} (srv : bulk_server X).

(** The calls that insert the batches, with the sum of the numbers of rows; the last call has no rows.  A call that
    fails is the last one. *)
Inductive loaded : list (list (list (option datum))) -> X -> Z -> X -> result Z Z -> Prop :=
| loaded_end x r x' n : bulk_load_callback srv 0 0 [] x = (x', Ok n) -> loaded [] x r x' (Ok (u64 (r + n)))
| loaded_end_fails x r x' e : bulk_load_callback srv 0 0 [] x = (x', Err e) -> loaded [] x r x' (Err e)
| loaded_batch batch batches x r x1 n x2 r2 : batch <> [] ->
    bulk_load_callback srv (Z.of_nat (length cs)) (Z.of_nat (length batch)) (concat batch) x = (x1, Ok n) ->
    loaded batches x1 (u64 (r + n)) x2 r2 -> loaded (batch :: batches) x r x2 r2
| loaded_batch_fails batch batches x r x1 e : batch <> [] ->
    bulk_load_callback srv (Z.of_nat (length cs)) (Z.of_nat (length batch)) (concat batch) x = (x1, Err e) ->
    loaded (batch :: batches) x r x1 (Err e).

Definition reported (res : result Z Z) : result bulk_error Z := match res with Ok n => Ok n | Err e => Err (bulk_callback e) end.

Lemma discard_complete ps : complete ps -> discard_packets ps = (true, behind ps).
Proof.
  induction ps as [|[b [|]|last] ps IH]; cbn; [done|done| |done]. intros [_ H0]. rewrite IH by (by apply H0). done.
Qed.

Lemma cleanup_after sp sub lx x s : ok s -> after (CleanupBCPDuringError srv sp sub lx x s).2 = after s.
Proof.
  intros (_ & Hc & _). unfold CleanupBCPDuringError, after. cbn [snd]. destruct (bk_eom s) eqn:E; [done|].
  by rewrite (discard_complete _ (Hc eq_refl)).
Qed.

Lemma batches_ok sp sub lx rest rows : forall fuel r x s, (length rows < fuel)%nat -> Forall (fun r => row_wire cs r.1 r.2) rows -> ok s ->
  unread s = rows_bytes rows ++ TDS_TOKEN_DONE :: rest ->
  exists batches y res x' s', bulk_batches bad_cast conv rows_per_batch kilobytes_per_batch srv fuel cs sp sub lx r x s = Some (reported res, x', s') /\
    (forall n, res = Ok n -> x' = y) /\ concat batches = map snd rows /\ loaded batches x r y res /\ after s' = after s.
Proof.
  induction rows as [rows IH] using (induction_ltof1 _ length). unfold ltof in IH. intros [|fuel] r x s Hf Hr Hok Hu; [lia|]. cbn [bulk_batches].
  destruct (batch_ok rows s rest Hr Hok Hu) as (n & s1 & E1 & Hok1 & Hu1 & Ha1 & Hc1 & Hn1). rewrite E1, Hc1.
  pose proof (fun y => cleanup_after sp sub lx y s1 Hok1) as Hclean. destruct rows as [|row rows].
  - rewrite take_nil in *. cbn [map length] in *. rewrite take_nil. change (Z.of_nat 0 =? 0) with true. cbn [concat].
    destruct (bulk_load_callback srv 0 (Z.of_nat 0) [] x) as [x' [m|e]] eqn:Ecb.
    + exists [], x', (Ok (u64 (r + m))), x', s1. split_and!; [done|done|done|by apply loaded_end|done].
    + specialize (Hclean x'). destruct (CleanupBCPDuringError srv sp sub lx x' s1) as [x2 s2]. cbn [snd] in Hclean.
      exists [], x', (Err e), x2, s2. split_and!; [done|done|done|by apply loaded_end_fails|congruence].
  - specialize (Hn1 ltac:(done)). destruct n as [|n]; [lia|]. set (all := row :: rows) in *. set (batch := take (S n) (map snd all)).
    assert (length (take (S n) all) = length batch) as El by (unfold batch; by rewrite firstn_map, length_map). rewrite El.
    assert (batch <> []) as Hb by done. rewrite (proj2 (Z.eqb_neq _ 0)) by (destruct batch; [done|cbn; lia]).
    destruct (bulk_load_callback srv (Z.of_nat (length cs)) (Z.of_nat (length batch)) (concat batch) x) as [x1 [m|e]] eqn:Ecb.
    2: { specialize (Hclean x1). destruct (CleanupBCPDuringError srv sp sub lx x1 s1) as [x2 s2]. cbn [snd] in Hclean.
         exists [batch; drop (S n) (map snd all)], x1, (Err e), x2, s2.
         split_and!; [done|done|cbn [concat]; rewrite app_nil_r; apply take_drop|by apply loaded_batch_fails|congruence]. }
    destruct batch as [|b0 bs] eqn:Eb; [done|]. rewrite <- Eb in *.
    destruct (IH (drop (S n) all)) with (fuel := fuel) (r := u64 (r + m)) (x := x1) (s := s1) as (batches & y & res & x2 & s2 & E2 & Hy & Hcat & Hl & Ha2).
    + rewrite length_drop. unfold all. cbn [length]. lia.
    + rewrite length_drop. unfold all in *. cbn [length] in *. lia.
    + by apply Forall_drop.
    + done.
    + done.
    + exists (batch :: batches), y, res, x2, s2. split_and!; [done|done| |by apply (loaded_batch batch batches x r x1 m)|congruence].
      cbn [concat]. rewrite Hcat, <- skipn_map. unfold batch. apply take_drop.
Qed.
End wire.

(** ** Columns *)

Section columns.
Variable TdsGetEncoding : Z -> Z.

Definition column (userType flags t scale precision sortId encoding maxLen : Z) (name : bytes) (variant : bool) : BulkLoadColMetaData :=
  mk_bulkcol userType flags t scale precision sortId encoding maxLen name variant.

(** The bytes behind the number of a type, and the column they describe. *)
Inductive info_wire (u f : Z) : Z -> bytes -> BulkLoadColMetaData -> Prop :=
| info_fixed t l : In t [TDS_TYPE_INTEGER; TDS_TYPE_BIT; TDS_TYPE_FLOAT; TDS_TYPE_MONEYN; TDS_TYPE_DATETIMEN; TDS_TYPE_UNIQUEIDENTIFIER] -> 0 <= l < 128 ->
    info_wire u f t [l] (column u f t 0 0 0 0 l [] false)
| info_numeric t l p s : In t [TDS_TYPE_DECIMALN; TDS_TYPE_NUMERICN] -> 0 <= l < 128 -> info_wire u f t [l; p; s] (column u f t s p 0 0 l [] false)
| info_string t l coll sort : In t [TDS_TYPE_CHAR; TDS_TYPE_VARCHAR; TDS_TYPE_NCHAR; TDS_TYPE_NVARCHAR] -> 0 <= l < 65536 -> 0 <= coll < 2 ^ 32 ->
    info_wire u f t (le_bytes 2 l ++ le_bytes 4 coll ++ [sort]) (column u f t 0 0 sort (TdsGetEncoding coll) l [] false)
| info_text t l coll sort n table : In t [TDS_TYPE_TEXT; TDS_TYPE_NTEXT] -> 0 <= l < 2 ^ 32 -> 0 <= coll < 2 ^ 32 -> 0 <= n < 65536 -> blen table = n * 2 ->
    info_wire u f t (le_bytes 4 l ++ le_bytes 4 coll ++ [sort] ++ le_bytes 2 n ++ table) (column u f t 0 0 sort (TdsGetEncoding coll) l [] false)
| info_image l n table : 0 <= l < 2 ^ 32 -> 0 <= n < 65536 -> blen table = n * 2 ->
    info_wire u f TDS_TYPE_IMAGE (le_bytes 4 l ++ le_bytes 2 n ++ table) (column u f TDS_TYPE_IMAGE 0 0 0 0 l [] false)
| info_xml l : 0 <= l < 128 -> info_wire u f TDS_TYPE_XML [l] (column u f TDS_TYPE_XML 0 0 0 0 l [] false)
| info_time t l s : In (t, l) [(TDS_TYPE_DATETIME2, 8); (TDS_TYPE_TIME, 5); (TDS_TYPE_DATETIMEOFFSET, 10)] -> info_wire u f t [s] (column u f t s 0 0 0 l [] false)
| info_binary t l : In t [TDS_TYPE_BINARY; TDS_TYPE_VARBINARY] -> 0 <= l < 65536 -> info_wire u f t (le_bytes 2 l) (column u f t 0 0 0 0 l [] false)
| info_date : info_wire u f TDS_TYPE_DATE [] (column u f TDS_TYPE_DATE 0 0 0 0 3 [] false)
| info_sqlvariant l : 0 <= l < 2 ^ 32 -> info_wire u f TDS_TYPE_SQLVARIANT (le_bytes 4 l) (column u f TDS_TYPE_SQLVARIANT 0 0 0 0 l [] false)
| info_bare t t' l : In (t, (t', l)) variant_types -> info_wire u f t [] (column u f t' 0 0 0 0 l [] true).

Ltac each_type H := repeat (destruct H as [H|H]; [first [injection H as <- <- <-|injection H as <- <-|subst]|]); [..|destruct H].
Ltac to_end := apply runs_end.

Lemma le_val_le2 n : 0 <= n < 65536 -> le_val (le_bytes 2 n) = n.
Proof. intros. rewrite le_val_bytes. by apply Z.mod_small. Qed.

Lemma runs_char {A} (k : Z -> bact A) b bs v p : 1 <= p -> runs (p - 1) (k b) bs v -> runs p (load! x := get 1 in k x) (b :: bs) v.
Proof. intros Hp Hk. apply (runs_get p 1 k [b] bs v); [done|done|]. by rewrite le_val_one. Qed.
Lemma runs_uint2 {A} (k : Z -> bact A) n bs v p : 0 <= n < 65536 -> 2 <= p -> runs (p - 2) (k n) bs v -> runs p (load! x := get 2 in k x) (le_bytes 2 n ++ bs) v.
Proof. intros Hn Hp Hk. apply runs_get; [done|done|]. by rewrite le_val_le2. Qed.
Lemma runs_uint4 {A} (k : Z -> bact A) n bs v p : 0 <= n < 2 ^ 32 -> 4 <= p -> runs (p - 4) (k n) bs v -> runs p (load! x := get 4 in k x) (le_bytes 4 n ++ bs) v.
Proof. intros Hn Hp Hk. apply runs_get; [done|done|]. by rewrite le_val_le4. Qed.

Lemma runs_collation {A} (k : Z * Z -> bact A) coll sort bs v p : 0 <= coll < 2 ^ 32 -> 5 <= p -> runs (p - 5) (k (TdsGetEncoding coll, sort)) bs v ->
  runs p (load! c := bulk_collation TdsGetEncoding in k c) (le_bytes 4 coll ++ sort :: bs) v.
Proof.
  intros Hc Hp Hk. unfold bulk_collation. apply runs_assoc, runs_uint4; [done|lia|]. apply runs_assoc, runs_char; [lia|]. eapply runs_weaken; [|exact Hk]. lia.
Qed.

Lemma runs_table {A} (m : bact A) n table v p : 0 <= n < 65536 -> blen table = n * 2 -> runs 0 m [] v ->
  runs p (load! _ := CheckMessageHasEnoughBytesToReadColMetadata 2 in
     load! tableLen := get 2 in
     load! _ := CheckMessageHasEnoughBytesToReadColMetadata (tableLen * 2) in
     load! _ := advance_offset (tableLen * 2) in
     m) (le_bytes 2 n ++ table) v.
Proof.
  intros Hn Ht Hm. apply runs_check_columns; [unfold blen; rewrite length_app, length_le_bytes; lia|]. apply runs_uint2; [done|lia|].
  apply runs_check_columns; [lia|]. to_end. apply runs_advance; [done|lia|]. eapply runs_weaken; [|exact Hm]. lia.
Qed.

Ltac enough_bytes := unfold blen in *; rewrite ?length_app, ?length_le_bytes; cbn [length]; rewrite ?length_app, ?length_le_bytes; cbn [length]; lia.

Lemma runs_type_info u f t b c p : info_wire u f t b c -> runs p (bulk_type_info TdsGetEncoding u f t) b c.
Proof.
  unfold bulk_type_info, FIXED_LEN_TYPE_COLUMNMETADATA_LEN, NUMERIC_COLUMNMETADATA_LEN, STRING_COLUMNMETADATA_LEN, BINARY_COLUMNMETADATA_LEN,
    SQL_VARIANT_COLUMNMETADATA_LEN. intros Hw. destruct Hw as [t l Ht Hl|t l pr s Ht Hl|t l coll sort Ht Hl Hc|t l coll sort n table Ht Hl Hc Hn Htb|l n table Hl Hn Htb|l Hl|t l s Ht|t l Ht Hl| |l Hl|t t' l Ht].
  - each_type Ht; (apply runs_check_columns; [enough_bytes|]; apply runs_char; [done|]; rewrite char_small by done; apply runs_ret).
  - each_type Ht; (apply runs_check_columns; [enough_bytes|]; do 3 (apply runs_char; [done|]); rewrite char_small by done; apply runs_ret).
  - each_type Ht; (apply runs_check_columns; [enough_bytes|]; apply runs_uint2; [done|done|]; apply runs_collation; [done|done|apply runs_ret]).
  - each_type Ht; (apply runs_check_columns; [enough_bytes|]; apply runs_uint4; [done|done|]; apply runs_assoc, runs_check_columns; [enough_bytes|];
      apply runs_collation; [done|done|]; apply runs_table; [done|done|apply runs_ret]).
  - apply runs_check_columns; [enough_bytes|]. apply runs_uint4; [done|done|]. cbn [app]. change (le_bytes 2 n ++ table) with ([] ++ (le_bytes 2 n ++ table)).
    apply runs_bind with (a := (0, 0)); [apply runs_ret|]. apply runs_table; [done|done|apply runs_ret].
  - apply runs_check_columns; [enough_bytes|]. apply runs_char; [done|]. rewrite char_small by done. apply runs_ret.
  - each_type Ht; (apply runs_check_columns; [enough_bytes|]; apply runs_char; [done|apply runs_ret]).
  - each_type Ht; (apply runs_check_columns; [enough_bytes|]; to_end; apply runs_uint2; [done|done|apply runs_ret]).
  - apply runs_ret.
  - apply runs_check_columns; [enough_bytes|]. to_end. apply runs_uint4; [done|done|apply runs_ret].
  - each_type Ht; apply runs_ret.
Qed.

Definition named (c : BulkLoadColMetaData) (name : bytes) : BulkLoadColMetaData :=
  mk_bulkcol (bc_userType c) (bc_flags c) (bc_type c) (bc_scale c) (bc_precision c) (bc_sortId c) (bc_encoding c) (bc_maxLen c) name (bc_variant c).

(** The columns with their names, in UTF-16. *)
Inductive columns_wire : bytes -> list BulkLoadColMetaData -> Prop :=
| columns_nil : columns_wire [] []
| columns_cons u f t info c n name b cs : 0 <= u < 2 ^ 31 -> 0 <= f < 65536 -> info_wire u f t info c -> 0 <= n < 256 -> blen name = n * 2 -> columns_wire b cs ->
    columns_wire ((le_bytes 4 u ++ le_bytes 2 f ++ t :: info ++ n :: name) ++ b) (named c name :: cs).

Lemma runs_column u f t info c n name p : 0 <= u < 2 ^ 31 -> 0 <= f < 65536 -> info_wire u f t info c -> 0 <= n < 256 -> blen name = n * 2 ->
  runs p (bulk_column TdsGetEncoding) (le_bytes 4 u ++ le_bytes 2 f ++ t :: info ++ n :: name) (named c name).
Proof.
  intros Hu Hf Hi Hn Hname. unfold bulk_column, COLUMNMETADATA_HEADER_LEN. apply runs_check_columns; [enough_bytes|].
  apply runs_uint4; [lia|done|]. apply runs_uint2; [done|done|]. apply runs_char; [done|]. apply runs_bind with (a := c).
  { rewrite i32_id by (apply in_i32_iff; lia). by apply runs_type_info. }
  apply runs_check_columns; [enough_bytes|]. apply runs_char; [done|]. apply runs_check_columns; [lia|]. to_end.
  apply runs_peek_bytes; [done|lia|]. apply runs_advance; [done|lia|apply runs_ret].
Qed.

Lemma runs_columns b cs : columns_wire b cs -> forall p, runs p (bulk_columns TdsGetEncoding (length cs)) b cs.
Proof.
  induction 1 as [|u f t info c n name b cs Hu Hf Hi Hn Hname _ IH]; intros p; cbn [length bulk_columns]; [apply runs_ret|].
  apply runs_bind with (a := named c name); [by apply runs_column|]. to_end. apply runs_bind with (a := cs); [apply IH|apply runs_ret].
Qed.

Definition request_bytes (b : bytes) (cs : list BulkLoadColMetaData) : bytes := TDS_TOKEN_COLMETADATA :: le_bytes 2 (Z.of_nat (length cs)) ++ b.

Lemma runs_request b cs s rest : columns_wire b cs -> 0 < Z.of_nat (length cs) <= MAX_BULK_LOAD_COLUMNS -> ok s -> bcpOffset s = 0 ->
  unread s = request_bytes b cs ++ rest -> exists s', GetBulkLoadRequest TdsGetEncoding s = Ret cs s' /\ moved s s' rest.
Proof.
  intros Hw Hn Hok Ho Hu. unfold GetBulkLoadRequest. unfold load_bind at 1, TdsResetBcpOffset.
  replace (set_buffer s (bk_message s) 0 (bk_eom s) (bk_packets s)) with s by (destruct s; cbn in Ho; by subst).
  revert s rest Hok Ho Hu. unfold MAX_BULK_LOAD_COLUMNS in *.
  assert (forall m, runs 0 m (request_bytes b cs) cs -> forall s rest, ok s -> bcpOffset s = 0 -> unread s = request_bytes b cs ++ rest ->
    exists s', m s = Ret cs s' /\ moved s s' rest) as Hr.
  { intros m Hm s rest Hok Ho Hu. apply Hm; [done..|destruct Hok as (? & _); unfold avail; lia]. }
  apply Hr. unfold request_bytes. apply runs_check_columns; [enough_bytes|].
  apply (runs_peek 1 1 _ [TDS_TOKEN_COLMETADATA] (le_bytes 2 (Z.of_nat (length cs)) ++ b)); [done|done|]. cbn [negb le_val].
  change (TDS_TOKEN_COLMETADATA + 256 * 0 =? TDS_TOKEN_COLMETADATA) with true. cbn [negb].
  apply (runs_advance 1 1 _ [TDS_TOKEN_COLMETADATA]); [done|done|]. apply runs_check_columns; [enough_bytes|].
  apply runs_peek; [done|done|]. rewrite le_val_le2 by lia. rewrite (proj2 (Z.eqb_neq _ 0)), Z.gtb_ltb, (proj2 (Z.ltb_ge _ _)) by lia. cbn [orb].
  apply runs_advance; [done|done|]. rewrite Nat2Z.id. by apply runs_columns.
Qed.
End columns.

(** ** Any bytes *)

Definition data_of (ps : list packet) : bytes := concat (map payload_of ps).
(** The offset is in the message, which a StringInfo can hold; bytes are bytes. *)
Definition sane (s : bulk) : Prop :=
  0 <= bcpOffset s <= bk_len s /\ bk_len s < 0x3fffffff /\ Forall is_byte (bk_message s) /\ Forall is_byte (data_of (bk_packets s)).
Definition total (s : bulk) : Z := avail s + blen (data_of (bk_packets s)).

(** With [p] bytes in the buffer, [m] ends in a sane state with at least [k] bytes fewer and a value with [P], or throws
    an error, or leaves the message for the reason [risk]. *)
Definition guarded {A} (risk : Prop) (p k : Z) (m : bact A) (P : A -> Prop) : Prop :=
  forall s, sane s -> p <= avail s ->
  match m s with
  | Ret a s' => sane s' /\ total s' <= total s - k /\ P a
  | Throw e _ => e <> bulk_no_fuel
  | Over => risk
  end.

Section guarded.
Variable risk : Prop.
Local Notation guarded := (guarded risk).

Lemma guarded_ret {A} p (a : A) (P : A -> Prop) : P a -> guarded p 0 (ret a) P.
Proof. intros HP s Hs _. cbn. split_and!; [done|lia|done]. Qed.
Lemma guarded_throw {A} p k e (P : A -> Prop) : e <> bulk_no_fuel -> guarded p k (throw e) P.
Proof. by intros He s Hs _. Qed.
Lemma sane_avail s : sane s -> 0 <= avail s.
Proof. intros (? & _). unfold avail. lia. Qed.
Lemma guarded_bind {A B} p k1 k2 (m : bact A) (f : A -> bact B) Q P : guarded p k1 m Q -> (forall a, Q a -> guarded 0 k2 (f a) P) ->
  guarded p (k1 + k2) (load! x := m in f x) P.
Proof.
  intros Hm Hf s Hs Hp. unfold load_bind. specialize (Hm s Hs Hp). destruct (m s) as [a s'|e s'|]; [|done..]. destruct Hm as (Hs' & Ht & HQ).
  specialize (Hf a HQ s' Hs' (sane_avail s' Hs')). destruct (f a s') as [b s2|e s2|]; [|done..]. destruct Hf as (? & ? & ?). split_and!; [done|lia|done].
Qed.
Lemma guarded_weaken {A} p q k l (m : bact A) P Q : p <= q -> l <= k -> (forall a, P a -> Q a) -> guarded p k m P -> guarded q l m Q.
Proof. intros Hp Hk HPQ Hm s Hs Hq. specialize (Hm s Hs ltac:(lia)). destruct (m s); [|done..]. destruct Hm as (? & ? & ?). split_and!; [done|lia|auto]. Qed.

Lemma fetch_packets_sane n off ps : forall m eom, Z.of_nat (length m) < 0x3fffffff -> Forall is_byte m -> Forall is_byte (data_of ps) ->
  match fetch_packets n off m eom ps with
  | (m', _, ps', e) => (exists b, m' = m ++ b /\ blen b + blen (data_of ps') <= blen (data_of ps)) /\ Z.of_nat (length m') < 0x3fffffff /\
      Forall is_byte m' /\ Forall is_byte (data_of ps') /\ match e with None => u64 (n + off) <= Z.of_nat (length m') | Some e => e <> bulk_no_fuel end
  end.
Proof.
  assert (forall m ps, exists b : bytes, m = m ++ b /\ blen b + blen (data_of ps) <= blen (data_of ps)) as Hnil.
  { intros m ps'. exists []. rewrite app_nil_r. split; [done|change (blen []) with 0; lia]. }
  induction ps as [|p ps IH]; intros m eom Hlen Hm Hps; cbn [fetch_packets]; rewrite Z.gtb_ltb; destruct (Z.ltb_spec (Z.of_nat (length m)) (u64 (n + off))) as [Hlt|Hge].
  all: cbv beta iota; try (split_and!; auto; fail).
  assert (data_of (p :: ps) = payload_of p ++ data_of ps) as E by done. rewrite E in Hps. apply Forall_app in Hps as [Hp Hps]. destruct p as [b last|last].
  - cbn [payload_of] in *. unfold too_large. rewrite Z.geb_leb. destruct (Z.leb_spec 0x3fffffff (Z.of_nat (length m) + Z.of_nat (length b))) as [Hbig|Hfit].
    + split_and!; [|done..]. exists []. rewrite app_nil_r, E. split; [done|]. unfold blen. rewrite length_app. cbn. lia.
    + specialize (IH (m ++ b) last). destruct (fetch_packets n off (m ++ b) last ps) as [[[m' eom'] ps'] e]. destruct IH as ((b' & -> & Hle) & IH).
        { rewrite length_app. lia. } { by apply Forall_app. } { done. }
        split; [|done]. exists (b ++ b'). rewrite app_assoc. split; [done|]. rewrite E. unfold blen in *. rewrite !length_app. lia.
  - split_and!; [|done..]. exists []. rewrite app_nil_r. split; [done|]. rewrite E. change (blen []) with 0. cbn [payload_of app]. lia.
Qed.

Lemma FetchMore_sane n free s : sane s ->
  match FetchMoreBcpData n free s with
  | Ret _ s' => sane s' /\ total s' <= total s /\ u64 (i32 n + bcpOffset s') <= bk_len s' /\ (free = true -> bcpOffset s' = 0)
  | Throw e _ => e <> bulk_no_fuel
  | Over => False
  end.
Proof.
  intros (Ho & Hlen & Hm & Hps). unfold FetchMoreBcpData. destruct (bk_eom s); [done|]. set (m := if free then drop _ _ else bk_message s).
  set (off := if free then 0 else bcpOffset s).
  assert (Z.of_nat (length m) - off = avail s /\ 0 <= off <= Z.of_nat (length m) /\ Z.of_nat (length m) <= bk_len s /\ Forall is_byte m) as (Ea & Hoff & Hml & Hmb).
  { unfold m, off, avail, bk_len in *. destruct free; rewrite ?length_drop; split_and!; try lia; [by apply Forall_drop|done]. }
  pose proof (fetch_packets_sane (i32 n) off (bk_packets s) m false) as Hf. destruct (fetch_packets _ _ _ _ _) as [[[m' eom'] ps'] e].
  destruct Hf as ((b & -> & Hle) & Hlen' & Hb' & Hps' & He); [lia|done|done|]. destruct e as [e|]; [done|].
  unfold sane, total, avail, bk_len, set_buffer, blen in *. cbn [bcpOffset bk_message bk_packets]. rewrite length_app in *.
  split_and!; try done; try lia. intros ->. done.
Qed.

(** A check of [n] bytes lets go on with [n] bytes. *)
Lemma guarded_check {A} (check : Z -> bact unit) free p n k (m : bact A) P :
  (forall n s, check n s = if lacks n s then FetchMoreBcpData n free s else Ret tt s) -> 0 <= n < (if free then 2 ^ 32 else 2 ^ 31) ->
  guarded n k m P -> guarded p k (load! _ := check n in m) P.
Proof.
  intros Hc Hn Hm s Hs _. unfold load_bind. rewrite Hc. pose proof (sane_avail s Hs). unfold lacks. fold (avail s).
  assert (avail s < 0x3fffffff) by (destruct Hs as (? & ? & _); unfold avail; lia). rewrite u64_id by lia.
  destruct (Z.ltb_spec (avail s) n) as [Hlt|Hge]; [|by apply Hm]. pose proof (FetchMore_sane n free s Hs) as Hf. destruct (FetchMoreBcpData n free s) as [[] s1|e s1|]; [|done..].
  destruct Hf as (Hs1 & Ht1 & Hu1 & Hfree). assert (n <= avail s1) as Ha1.
  { destruct Hs1 as (Ho1 & Hl1 & _). unfold avail. destruct free; [rewrite (Hfree eq_refl) in *|].
    - assert (i32 n = n \/ i32 n = n - 2 ^ 32) as [E|E]; [|rewrite E in Hu1..].
      + unfold i32, swrap. change (2 ^ (32 - 1)) with 2147483648. change (2 ^ 32) with 4294967296. div_lia.
      + rewrite u64_id in Hu1 by lia. lia.
      + destruct (Z.ltb_spec n (2 ^ 31)).
        * exfalso. rewrite i32_id in E by (apply in_i32_iff; lia). lia.
        * unfold u64, uwrap in Hu1. rewrite <- (Z.mod_add _ 1), Z.mod_small in Hu1 by lia. lia.
    - rewrite i32_id in Hu1 by (apply in_i32_iff; lia). rewrite u64_id in Hu1 by lia. lia. }
  specialize (Hm s1 Hs1 Ha1). destruct (m s1); [|done..]. destruct Hm as (? & ? & ?). split_and!; [done|lia|done].
Qed.

Lemma guarded_check_rows {A} p n k (m : bact A) P : 0 <= n < 2 ^ 32 -> guarded n k m P -> guarded p k (load! _ := CheckMessageHasEnoughBytesToReadRows n in m) P.
Proof. by apply (guarded_check _ true). Qed.
Lemma guarded_check_columns {A} p n k (m : bact A) P : 0 <= n < 2 ^ 31 -> guarded n k m P ->
  guarded p k (load! _ := CheckMessageHasEnoughBytesToReadColMetadata n in m) P.
Proof. by apply (guarded_check _ false). Qed.
Lemma guarded_check_plp p n : guarded p 0 (CheckPlpMessageHasEnoughBytesToRead n) (fun _ => True).
Proof.
  intros s Hs _. unfold CheckPlpMessageHasEnoughBytesToRead, FetchMoreBcpPlpData. destruct (lacks n s); [|split_and!; [done|lia|done]].
  pose proof (FetchMore_sane n false s Hs) as Hf. destruct (FetchMoreBcpData n false s) as [[] s1|e s1|]; [|done..]. destruct Hf as (? & ? & _). split_and!; [done|lia|done].
Qed.

Lemma guarded_peek_bytes {A} p n k (f : bytes -> bact A) P : 0 <= n <= p -> (forall b, blen b = n -> Forall is_byte b -> guarded p k (f b) P) ->
  guarded p k (load! x := peek_bytes n in f x) P.
Proof.
  intros Hn Hf s Hs Hp. pose proof Hs as (Ho & Hl & Hb & _). unfold load_bind, peek_bytes. rewrite (proj2 (Z.leb_le 0 _)), (proj2 (Z.leb_le _ _)) by (unfold avail in Hp; lia).
  cbn [andb]. apply Hf; [|by apply Forall_take, Forall_drop|done..]. unfold blen, avail, bk_len in *. rewrite length_take, length_drop. lia.
Qed.
Lemma guarded_peek {A} p n k (f : Z -> bact A) P : 0 <= n <= p -> (forall v, 0 <= v < 256 ^ n -> guarded p k (f v) P) -> guarded p k (load! x := peek n in f x) P.
Proof.
  intros Hn Hf s Hs Hp. assert (guarded p k (load! b := peek_bytes n in f (le_val b)) P) as Hg.
  { apply guarded_peek_bytes; [done|]. intros b Hb Hbytes. apply Hf. rewrite <- Hb. by apply le_val_bound. }
  specialize (Hg s Hs Hp). unfold peek, load_bind in *. by destruct (peek_bytes n s).
Qed.
Lemma guarded_advance {A} p n k (m : bact A) P : 0 <= n <= p -> guarded (p - n) k m P -> guarded p (k + n) (load! _ := advance_offset n in m) P.
Proof.
  intros Hn Hm s Hs Hp. pose proof Hs as (Ho & Hl & Hb & Hps). unfold load_bind, advance_offset. rewrite u64_id by (unfold avail in Hp; lia).
  set (s1 := set_buffer _ _ _ _ _). assert (avail s1 = avail s - n) as Ea by (unfold s1, avail, bk_len; cbn; lia).
  assert (sane s1) as Hs1 by (unfold s1, sane, avail, bk_len in *; cbn; split_and!; (done || lia)). specialize (Hm s1 Hs1 ltac:(lia)). destruct (m s1); [|done..].
  destruct Hm as (? & Ht & ?). split_and!; [done| |done]. unfold total in *. rewrite Ea in Ht. change (bk_packets s1) with (bk_packets s) in Ht. lia.
Qed.
Lemma guarded_count {A} p n k (m : bact A) P : guarded p k m P -> guarded p k (load! _ := count n in m) P.
Proof. intros Hm s Hs Hp. exact (Hm (set_counts s (rowCount s) (i32 (currentBatchSize s + n))) Hs Hp). Qed.
Lemma guarded_assoc {A B C} p k (m : bact A) (f : A -> bact B) (g : B -> bact C) P :
  guarded p k (load! x := m in load! y := f x in g y) P -> guarded p k (load! y := (load! x := m in f x) in g y) P.
Proof. intros H s Hs Hp. specialize (H s Hs Hp). unfold load_bind in *. by destruct (m s). Qed.
Lemma guarded_get {A} p n k (f : Z -> bact A) P : 0 <= n <= p -> (forall v, 0 <= v < 256 ^ n -> guarded (p - n) k (f v) P) -> guarded p (k + n) (load! x := get n in f x) P.
Proof. intros Hn Hf. apply guarded_assoc, guarded_peek; [done|]. intros v Hv. apply guarded_assoc, guarded_advance; [done|]. by apply Hf. Qed.
Lemma guarded_get_counted {A} p n k (f : Z -> bact A) P : 0 <= n <= p -> (forall v, 0 <= v < 256 ^ n -> guarded (p - n) k (f v) P) ->
  guarded p (k + n) (load! x := get_counted n in f x) P.
Proof. intros Hn Hf. apply guarded_assoc, guarded_get; [done|]. intros v Hv. apply guarded_assoc, guarded_count. by apply Hf. Qed.
Lemma guarded_skip {A} p n k (m : bact A) P : 0 <= n <= p -> guarded (p - n) k m P -> guarded p (k + n) (load! _ := skip_counted n in m) P.
Proof. intros Hn Hm. apply guarded_assoc, guarded_advance; [done|]. by apply guarded_count. Qed.
(** Bytes that need not be counted off. *)
Lemma guarded_less {A} p k (m : bact A) P : 0 <= k -> guarded p k m P -> guarded p 0 m P.
Proof. intros Hk. by apply guarded_weaken. Qed.
End guarded.

Section guards.
Variable risk : Prop.
Local Notation guards := (guarded risk).

Lemma guarded_get0 {A} p n (f : Z -> bact A) P : 0 <= n <= p -> (forall v, 0 <= v < 256 ^ n -> guards (p - n) 0 (f v) P) -> guards p 0 (load! x := get n in f x) P.
Proof. intros Hn Hf. apply (guarded_less risk p (0 + n)); [lia|]. by apply guarded_get. Qed.
Lemma guarded_get_counted0 {A} p n (f : Z -> bact A) P : 0 <= n <= p -> (forall v, 0 <= v < 256 ^ n -> guards (p - n) 0 (f v) P) ->
  guards p 0 (load! x := get_counted n in f x) P.
Proof. intros Hn Hf. apply (guarded_less risk p (0 + n)); [lia|]. by apply guarded_get_counted. Qed.
Lemma guarded_advance0 {A} p n (m : bact A) P : 0 <= n <= p -> guards (p - n) 0 m P -> guards p 0 (load! _ := advance_offset n in m) P.
Proof. intros Hn Hm. apply (guarded_less risk p (0 + n)); [lia|]. by apply guarded_advance. Qed.
Lemma guarded_skip0 {A} p n (m : bact A) P : 0 <= n <= p -> guards (p - n) 0 m P -> guards p 0 (load! _ := skip_counted n in m) P.
Proof. intros Hn Hm. apply (guarded_less risk p (0 + n)); [lia|]. by apply guarded_skip. Qed.
Lemma guarded_bind0 {A B} p (m : bact A) (f : A -> bact B) Q P : guards p 0 m Q -> (forall a, Q a -> guards 0 0 (f a) P) -> guards p 0 (load! x := m in f x) P.
Proof. apply (guarded_bind risk p 0 0). Qed.

Lemma guarded_ret_bind {A B} p k (a : A) (f : A -> bact B) P : guards p k (f a) P -> guards p k (load! x := ret a in f x) P.
Proof. done. Qed.

Ltac walk :=
  lazymatch goal with
  | |- guarded _ _ _ (load_bind (CheckMessageHasEnoughBytesToReadColMetadata _) _) _ => apply guarded_check_columns; [|walk]
  | |- guarded _ _ _ (load_bind (CheckMessageHasEnoughBytesToReadRows _) _) _ => apply guarded_check_rows; [|walk]
  | |- guarded _ _ _ (load_bind (get _) _) _ => apply guarded_get0; [|intros; walk]
  | |- guarded _ _ _ (load_bind (get_counted _) _) _ => apply guarded_get_counted0; [|intros; walk]
  | |- guarded _ _ _ (load_bind (advance_offset _) _) _ => apply guarded_advance0; [|walk]
  | |- guarded _ _ _ (load_bind (skip_counted _) _) _ => apply guarded_skip0; [|walk]
  | |- guarded _ _ _ (load_bind (ret _) _) _ => apply guarded_ret_bind; walk
  | |- guarded _ _ _ (ret _) _ => apply guarded_ret
  | |- guarded _ _ _ (throw _) _ => apply guarded_throw; discriminate
  | |- guarded _ _ _ (load_bind (load_bind _ _) _) _ => apply guarded_assoc; walk
  | |- _ => idtac
  end.

(** What the columns of a request are like. *)
Definition column_fits (c : BulkLoadColMetaData) : Prop := 0 <= bc_maxLen c < 2 ^ 32 /\ (bc_type c = TDS_TYPE_TIME -> bc_maxLen c = 5).

Lemma char_uint32_range b : 0 <= char_uint32 b < 2 ^ 32.
Proof. by apply Z.mod_pos_bound. Qed.

Lemma type_info_guarded enc u f t p : guards p 0 (bulk_type_info enc u f t) column_fits.
Proof.
  unfold bulk_type_info, FIXED_LEN_TYPE_COLUMNMETADATA_LEN, NUMERIC_COLUMNMETADATA_LEN, STRING_COLUMNMETADATA_LEN, BINARY_COLUMNMETADATA_LEN,
    SQL_VARIANT_COLUMNMETADATA_LEN, bulk_collation.
  assert (forall t' l, 0 <= l < 2 ^ 32 -> t' <> TDS_TYPE_TIME -> forall a b c d e g h i, column_fits (mk_bulkcol a b t' c d e g l h i)) as Hfit by (by split).
  destruct (type_in t [TDS_TYPE_INTEGER; _; _; _; _; _]) eqn:E1.
  { walk; [lia|lia|]. apply Hfit; [apply char_uint32_range|]. by intros ->. }
  destruct (type_in t [TDS_TYPE_DECIMALN; _]) eqn:E2.
  { walk; try lia. apply Hfit; [apply char_uint32_range|]. by intros ->. }
  destruct (type_in t [TDS_TYPE_CHAR; _; _; _]) eqn:E3.
  { walk; try lia. apply Hfit; [lia|]. by intros ->. }
  destruct (type_in t [TDS_TYPE_TEXT; TDS_TYPE_NTEXT; TDS_TYPE_IMAGE]) eqn:E4.
  { walk; try lia. apply guarded_bind0 with (Q := fun _ => True).
    - destruct (type_in t [TDS_TYPE_TEXT; TDS_TYPE_NTEXT]); walk; try lia; done.
    - intros c _. walk; try lia. apply Hfit; [lia|]. by intros ->. }
  destruct (Z.eqb_spec t TDS_TYPE_XML) as [->|E5].
  { walk; try lia. apply Hfit; [apply char_uint32_range|done]. }
  destruct (type_in t [TDS_TYPE_DATETIME2; _; _]) eqn:E6.
  { walk; try lia. split; cbn; [repeat case_match; lia|]. intros ->. done. }
  destruct (type_in t [TDS_TYPE_BINARY; _]) eqn:E7.
  { walk; try lia. apply Hfit; [lia|]. by intros ->. }
  destruct (Z.eqb_spec t TDS_TYPE_DATE) as [->|E8]; [by apply guarded_ret, Hfit|].
  destruct (Z.eqb_spec t TDS_TYPE_SQLVARIANT) as [->|E9]; [walk; try lia; by apply Hfit|].
  destruct (variant_type t variant_types) as [[t' l]|] eqn:Ev; [|walk]. walk. unfold variant_types in Ev. cbn [variant_type] in Ev.
  repeat (destruct (_ =? _) in Ev; [injection Ev as <- <-; by apply Hfit|]). done.
Qed.

Lemma columns_guarded enc n : forall p, guards p 0 (bulk_columns enc n) (Forall column_fits).
Proof.
  induction n as [|n IH]; intros p; cbn [bulk_columns]; [by apply guarded_ret|]. apply guarded_bind0 with (Q := column_fits).
  - unfold bulk_column, COLUMNMETADATA_HEADER_LEN. walk; try lia. apply guarded_bind0 with (Q := column_fits); [apply type_info_guarded|]. intros c Hc.
    walk; try lia. apply guarded_peek_bytes; [lia|]. intros b Hb _. walk; [lia|done].
  - intros c Hc. apply guarded_bind0 with (Q := Forall column_fits); [apply IH|]. intros cs Hcs. walk. by constructor.
Qed.

Lemma request_guarded enc s : sane s ->
  match GetBulkLoadRequest enc s with
  | Ret cs s' => sane s' /\ Forall column_fits cs
  | Throw e _ => e <> bulk_no_fuel
  | Over => risk
  end.
Proof.
  intros (Ho & Hl & Hb & Hps). unfold GetBulkLoadRequest. unfold load_bind at 1, TdsResetBcpOffset. set (s0 := set_buffer _ _ _ _ _).
  assert (sane s0) as Hs0 by (unfold sane, s0, bk_len; cbn; split_and!; (done || lia)). clearbody s0. clear s Ho Hl Hb Hps.
  match goal with |- match ?m s0 with _ => _ end => assert (guards 0 0 m (Forall column_fits)) as Hg end.
  { walk; [lia|]. apply guarded_peek; [lia|]. intros t _. destruct (negb _); walk; try lia. apply guarded_peek; [lia|]. intros n Hn.
    destruct (_ || _); walk; [lia|]. apply columns_guarded. }
  specialize (Hg s0 Hs0 (sane_avail s0 Hs0)). match goal with |- match ?m s0 with _ => _ end => destruct (m s0) end; [|done..]. by destruct Hg as (? & _ & ?).
Qed.

(** *** Conversions stay in the value *)

Definition inside (m : strinfo) : Prop := 0 <= si_cursor m /\ si_len m <= Z.of_nat (length (si_data m)).
Definition rd_safe {A} (x : rd A) : Prop := match x with Got _ m => inside m | Failed _ => True | OverAccess => False end.

Lemma rd_safe_bind {A B} (x : rd A) (k : A -> strinfo -> rd B) : rd_safe x -> (forall a m, inside m -> rd_safe (k a m)) -> rd_safe (rd_bind x k).
Proof. intros Hx Hk. destruct x; [by apply Hk|done..]. Qed.
Lemma rd_safe_result {A E} (wrap : E -> rd_error) m (x : result E A) : inside m -> rd_safe (rd_result wrap m x).
Proof. intros. by destruct x. Qed.
Lemma CopyMsgBytes_safe m n : inside m -> rd_safe (CopyMsgBytes m n).
Proof.
  intros [Hc Hl]. unfold CopyMsgBytes. destruct ((_ <? _) || _) eqn:E; [done|]. apply orb_false_iff in E as [E1 E2]. rewrite Z.gtb_ltb in E2. unfold raw_copy.
  rewrite !(proj2 (Z.leb_le _ _)) by lia. cbn [andb]. split; cbn; lia.
Qed.
Lemma GetMsgInt_safe m n : inside m -> rd_safe (GetMsgInt m n).
Proof. intros Hm. unfold GetMsgInt. destruct (_ && _); [|done]. apply rd_safe_bind; [by apply CopyMsgBytes_safe|done]. Qed.
Lemma GetMsgInt64_safe m : inside m -> rd_safe (GetMsgInt64 m).
Proof. intros Hm. apply rd_safe_bind; [by apply CopyMsgBytes_safe|done]. Qed.

Ltac safe_rd :=
  repeat first
    [ apply CopyMsgBytes_safe | apply GetMsgInt_safe | apply GetMsgInt64_safe | apply rd_safe_result | assumption | exact I
    | apply rd_safe_bind; [|intros ? ? ?] | case_match ].

(** The types whose conversion reads or exchanges bytes without a look at the length of the value. *)
Definition unchecked_types : list Z := [TDS_TYPE_NUMERICN; TDS_TYPE_DECIMALN; TDS_TYPE_DATETIME2; TDS_TYPE_DATETIMEOFFSET; TDS_TYPE_UNIQUEIDENTIFIER;
  TDS_TYPE_SQLVARIANT].

Lemma guarded_converted {A} (f : A -> datum) x : rd_safe x \/ risk -> guards 0 0 (converted f x) (fun _ => True).
Proof. intros Hx s Hs _. destruct x; cbn; [split_and!; [done|lia|done]|done|]. by destruct Hx. Qed.

Context `{PgCalendar}.
Variable bad_cast : Z.
Variable conv : conversions.

(** A column, and the cause it may be of. *)
Definition column_guard (c : BulkLoadColMetaData) : Prop := column_fits c /\ (type_in (bc_type c) unchecked_types = true -> risk).

Lemma fixed_datum_guarded c len temp : column_guard c -> type_in (bc_type c) fixed_types = true -> inside temp -> si_cursor temp = 0 -> si_len temp = len ->
  0 <= len <= bc_maxLen c -> guards 0 0 (fixed_datum bad_cast c len temp) (fun _ => True).
Proof.
  intros [[Hm Htime] Hrisk] Ht Hin Hcur Hlen Hl. unfold fixed_datum. destruct (type_in (bc_type c) unchecked_types) eqn:Eu.
  { specialize (Hrisk eq_refl). repeat case_match; apply guarded_converted; by right. }
  repeat case_match; apply guarded_converted; left.
  all: try (unfold TdsTypeIntegerToDatum, TdsTypeFloatToDatum, GetMsgFloat4, GetMsgFloat8, TdsTypeDateToDatum, TdsTypeSmallDatetimeToDatum, TdsTypeDatetimeToDatum,
    TdsTypeSmallMoneyToDatum, TdsTypeMoneyToDatum; safe_rd; fail).
  - assert (bc_type c = TDS_TYPE_TIME) as E by lia. specialize (Htime E). unfold TdsTypeTimeToDatum, copy_uint. rewrite Z.gtb_ltb, (proj2 (Z.ltb_ge _ _)) by lia.
    apply rd_safe_bind; [|intros; safe_rd]. apply rd_safe_bind; [|done]. unfold raw_copy. destruct Hin as [Hc Hd]. rewrite !(proj2 (Z.leb_le _ _)) by lia. cbn [andb]. split; cbn; lia.
  - exfalso. assert (bc_type c = TDS_TYPE_DATETIME2) as E by lia. by rewrite E in Eu.
  - exfalso. assert (bc_type c = TDS_TYPE_DATETIMEOFFSET) as E by lia. by rewrite E in Eu.
  - exfalso. apply type_in_In in Ht. repeat (destruct Ht as [Ht|Ht]; [rewrite <- Ht in *; done|]). destruct Ht.
Qed.

Lemma text_datum_guarded c temp : inside temp -> si_cursor temp = 0 -> 0 <= si_len temp -> guards 0 0 (text_datum conv c temp) (fun _ => True).
Proof.
  intros Hin Hc Hl. unfold text_datum. repeat case_match; apply guarded_converted; left; [| |by apply CopyMsgBytes_safe];
    unfold TdsTypeNCharToDatum, TdsTypeVarcharToDatum; destruct Hin as [? ?];
    rewrite !(proj2 (Z.leb_le _ _)) by lia; cbn [andb]; by apply rd_safe_result.
Qed.

(** The value at the offset. *)
Lemma guarded_value_at {A} p k len (f : strinfo -> bact A) P : 0 <= len <= p ->
  (forall temp, inside temp -> si_cursor temp = 0 -> si_len temp = len -> guards p k (f temp) P) -> guards p k (load! temp := value_at len in f temp) P.
Proof.
  intros Hl Hf s Hs Hp. unfold load_bind, value_at. apply Hf; [|done..]. destruct Hs as (? & _). unfold inside, avail, bk_len in *. cbn. rewrite length_drop. lia.
Qed.
(** The datum needs no bytes of the buffer and leaves those that are there. *)
Definition pure_datum (m : bact datum) : Prop := forall s, match m s with Ret _ s' => s' = s | Throw e _ => e <> bulk_no_fuel | Over => risk end.
Lemma guarded_pure {A} p k (m : bact datum) (f : datum -> bact A) P : pure_datum m -> (forall d, guards p k (f d) P) -> guards p k (load! d := m in f d) P.
Proof. intros Hm Hf s Hs Hp. unfold load_bind. specialize (Hm s). destruct (m s) as [d s'|e s'|]; [|done..]. subst. by apply Hf. Qed.
Lemma pure_converted {A} (f : A -> datum) x : guards 0 0 (converted f x) (fun _ => True) -> pure_datum (converted f x).
Proof. intros Hg s. destruct x; [done..|]. exact (Hg (mk_bulk [] 0 false [] 0 0) ltac:(split_and!; cbn; done || lia || constructor) ltac:(done)). Qed.
Lemma pure_xml temp : inside temp -> pure_datum (converted DBytes (TdsTypeXMLToDatum conv temp)).
Proof. intros Hin. apply pure_converted, guarded_converted. left. unfold TdsTypeXMLToDatum, rd_ok. safe_rd. Qed.
Lemma pure_fixed c len temp : guards 0 0 (fixed_datum bad_cast c len temp) (fun _ => True) -> pure_datum (fixed_datum bad_cast c len temp).
Proof. unfold fixed_datum. repeat case_match; apply pure_converted. Qed.
Lemma pure_text c temp : guards 0 0 (text_datum conv c temp) (fun _ => True) -> pure_datum (text_datum conv c temp).
Proof. unfold text_datum. repeat case_match; apply pure_converted. Qed.

Lemma guarded_length {A} c i len p k (m : bact A) P : 0 <= len < 2 ^ 32 -> column_fits c -> (len <= bc_maxLen c -> guards p k m P) ->
  guards p k (load! _ := CheckForInvalidLength c i len in m) P.
Proof.
  intros Hl [Hm _] Hg s Hs Hp. unfold load_bind, CheckForInvalidLength. rewrite !u32_id by lia. rewrite Z.gtb_ltb.
  destruct (Z.ltb_spec (bc_maxLen c) len); [done|]. by apply Hg.
Qed.

Lemma value_guarded c i len p datum_of : 0 <= len < 2 ^ 32 -> column_fits c ->
  (forall temp, inside temp -> si_cursor temp = 0 -> si_len temp = len -> len <= bc_maxLen c -> pure_datum (datum_of temp)) ->
  guards p 0 (bulk_value c i len datum_of) (fun _ => True).
Proof.
  intros Hl Hc Hd. unfold bulk_value. apply guarded_length; [done|done|]. intros Hle. apply guarded_check_rows; [done|]. apply guarded_value_at; [lia|].
  intros temp H1 H2 H3. apply guarded_pure; [by apply Hd|]. intros d. walk; [lia|done].
Qed.

Lemma chunks_guarded fuel : forall lenCheck s, sane s -> total s < Z.of_nat fuel ->
  match bulk_chunks fuel lenCheck s with
  | Ret _ s' => sane s' /\ total s' <= total s
  | Throw e _ => e <> bulk_no_fuel
  | Over => risk
  end.
Proof.
  induction fuel as [|fuel IH]; intros lenCheck s Hs Ht; cbn [bulk_chunks].
  { exfalso. pose proof (sane_avail s Hs). unfold total, blen in Ht. lia. }
  unfold load_bind at 1. pose proof (guarded_check_plp risk 0 4 s Hs (sane_avail s Hs)) as H1. destruct (CheckPlpMessageHasEnoughBytesToRead 4 s) as [[] s1|e s1|]; [|done..].
  destruct H1 as (Hs1 & Ht1 & _). rewrite Z.gtb_ltb. destruct (Z.ltb_spec (bk_len s1) (bcpOffset s1 + 4)) as [|Hav]; [split; [done|lia]|].
  pose proof (guarded_get_counted risk 4 4 0 (fun v => ret v) (fun v => 0 <= v < 256 ^ 4)) as H2.
  specialize (H2 ltac:(lia) ltac:(intros; by apply guarded_ret) s1 Hs1 ltac:(unfold avail; lia)). unfold load_bind at 1 in H2. unfold load_bind at 1.
  destruct (get_counted 4 s1) as [v s2|e s2|]; [|done..]. destruct H2 as (Hs2 & Ht2 & Hv). destruct (v =? PLP_TERMINATOR); [split; [done|lia]|].
  unfold load_bind at 1. unfold load_bind at 1. pose proof (guarded_check_plp risk 0 v s2 Hs2 (sane_avail s2 Hs2)) as H3.
  destruct (CheckPlpMessageHasEnoughBytesToRead v s2) as [[] s3|e s3|]; [|done..]. destruct H3 as (Hs3 & Ht3 & _). rewrite Z.gtb_ltb.
  destruct (Z.ltb_spec (bk_len s3) (bcpOffset s3 + v)) as [|Hav3]; [split; [done|lia]|].
  pose proof (guarded_skip risk v v 0 (ret tt) (fun _ => True) ltac:(lia) ltac:(by apply guarded_ret) s3 Hs3 ltac:(unfold avail; lia)) as H4.
  unfold load_bind in H4. unfold load_bind at 1. destruct (skip_counted v s3) as [[] s4|e s4|]; [|done..]. destruct H4 as (Hs4 & Ht4 & _).
  specialize (IH (u64 (lenCheck + v)) s4 Hs4 ltac:(lia)). unfold load_bind. destruct (bulk_chunks fuel _ s4) as [x s5|e s5|]; [|done..]. cbn. split; [tauto|lia].
Qed.

Lemma total_fuel s : sane s -> total s < Z.of_nat (bulk_fuel s).
Proof. intros (? & _). unfold total, avail, bulk_fuel, blen, bk_len, data_of in *. lia. Qed.

Lemma plp_guarded c i p datum_of : (forall temp, inside temp -> si_cursor temp = 0 -> 0 <= si_len temp -> pure_datum (datum_of temp)) ->
  guards p 0 (bulk_plp c i datum_of) (fun _ => True).
Proof.
  intros Hd. unfold bulk_plp. apply guarded_bind0 with (Q := fun _ => True).
  - intros s Hs _. unfold ReadBcpPlp. unfold load_bind at 1. pose proof (guarded_check risk CheckPlpMessageHasEnoughBytesToRead false 0 8 0 (get_counted 8) (fun _ => True)) as H1.
    assert (guards 0 0 (load! _ := CheckPlpMessageHasEnoughBytesToRead 8 in get_counted 8) (fun _ => True)) as Hg.
    { apply H1; [done|lia|]. intros s' Hs' Hp'. pose proof (guarded_get_counted0 8 8 (fun v => ret v) (fun _ => True) ltac:(lia) ltac:(intros; by apply guarded_ret) s' Hs' Hp') as H2.
      unfold load_bind in H2. by destruct (get_counted 8 s'). }
    specialize (Hg s Hs (sane_avail s Hs)). unfold load_bind in Hg. destruct (CheckPlpMessageHasEnoughBytesToRead 8 s) as [[] s1|e s1|]; [|done..].
    unfold load_bind at 1. destruct (get_counted 8 s1) as [v s2|e s2|]; [|done..]. destruct Hg as (Hs2 & Ht2 & _). destruct (v =? PLP_NULL); [by split_and!|].
    pose proof (chunks_guarded (bulk_fuel s2) 0 s2 Hs2 (total_fuel s2 Hs2)) as H3. unfold load_bind. destruct (bulk_chunks _ 0 s2) as [x s3|e s3|]; [|done..].
    destruct x as [[l n]|]; [destruct (_ && _)|]; cbn; (split_and!; [tauto|lia|done]).
  - intros x _. destruct x as [[[] l]|]; [by apply guarded_ret| |by intros s Hs Hp].
    intros s Hs Hp. unfold load_bind at 1. set (temp := TdsGetPlpStringInfoBufferFromToken _ _).
    apply (guarded_pure 0 0 (datum_of temp) (fun d => ret (Some d)) (fun _ => True)); [|intros; by apply guarded_ret|done|done].
    apply Hd; unfold temp, inside, TdsGetPlpStringInfoBufferFromToken; cbn [si_data si_len si_cursor]; [rewrite length_app; cbn; lia|done|lia].
Qed.

Lemma cell_guarded c i : column_guard c -> guards 0 0 (bulk_cell bad_cast conv c i) (fun _ => True).
Proof.
  intros Hc. pose proof Hc as [Hf Hrisk]. pose proof Hf as [Hm _]. unfold bulk_cell. destruct (type_in _ fixed_types) eqn:E1.
  { unfold bulk_fixed. assert (forall len p, 0 <= len < 2 ^ 32 -> guards p 0 (bulk_value c i len (fixed_datum bad_cast c len)) (fun _ => True)) as Hv.
    { intros len p Hl. apply value_guarded; [done|done|]. intros temp Hin Hcur Hlen Hle. apply pure_fixed, fixed_datum_guarded; try done. lia. }
    destruct (bc_variant c); [by apply Hv|]. walk; [lia..|]. cbv zeta. destruct (_ =? 0); [by apply guarded_ret|]. apply Hv, char_uint32_range. }
  destruct (type_in _ numeric_types) eqn:E2.
  { assert (risk) as Hr. { apply Hrisk. apply type_in_In in E2. by repeat (destruct E2 as [<-|E2]; [done|]). }
    intros s Hs Hp. unfold bulk_numeric. destruct (_ >? _); [done|]. revert s Hs Hp. apply guarded_check_rows; [lia|]. apply guarded_get_counted0; [lia|]. intros v Hv. cbv zeta.
    destruct (_ =? 0); [by apply guarded_ret|]. apply value_guarded; [apply char_uint32_range|done|]. intros temp _ _ _ _. apply pure_converted, guarded_converted. by right. }
  assert (forall temp, inside temp -> si_cursor temp = 0 -> 0 <= si_len temp -> pure_datum (text_datum conv c temp)) as Ht.
  { intros temp Hin Hcur Hl. by apply pure_text, text_datum_guarded. }
  destruct (type_in _ string_types).
  { unfold bulk_string. destruct (negb _); [|by apply plp_guarded]. walk; [lia..|]. destruct (negb _); [|by apply guarded_ret].
    apply guarded_length; [lia|done|]. intros Hle. apply guarded_check_rows; [lia|]. apply guarded_value_at; [lia|]. intros temp Hin Hcur Hlen. walk; [lia|].
    apply guarded_pure; [apply Ht; [done|done|lia]|]. intros d. by apply guarded_ret. }
  destruct (type_in _ text_types).
  { unfold bulk_text. walk; [lia..|]. destruct (_ =? 0); [by apply guarded_ret|]. walk; [lia..|]. destruct (_ =? 0); [by apply guarded_ret|].
    apply value_guarded; [lia|done|]. intros temp Hin Hcur Hlen _. apply Ht; [done|done|lia]. }
  destruct (_ =? TDS_TYPE_XML); [apply plp_guarded; intros; by apply pure_xml|]. destruct (Z.eqb_spec (bc_type c) TDS_TYPE_SQLVARIANT) as [Ev|]; [|by apply guarded_ret].
  assert (risk) as Hr by (apply Hrisk; by rewrite Ev).
  unfold bulk_variant. walk; [lia..|]. destruct (_ =? 0); [by apply guarded_ret|]. apply value_guarded; [lia|done|]. intros. apply pure_converted, guarded_converted. by right.
Qed.

Lemma cells_guarded cs : Forall column_guard cs -> forall i, guards 0 0 (bulk_cells bad_cast conv cs i) (fun _ => True).
Proof.
  induction 1 as [|c cs Hc _ IH]; intros i; cbn [bulk_cells]; [by apply guarded_ret|]. apply guarded_bind0 with (Q := fun _ => True); [by apply cell_guarded|].
  intros d _. apply guarded_bind0 with (Q := fun _ => True); [apply IH|]. intros ds _. by apply guarded_ret.
Qed.

Lemma check_rows_post n s : sane s -> 0 <= n < 2 ^ 32 ->
  match CheckMessageHasEnoughBytesToReadRows n s with
  | Ret _ s' => sane s' /\ total s' <= total s /\ n <= avail s'
  | Throw e _ => e <> bulk_no_fuel
  | Over => risk
  end.
Proof.
  intros Hs Hn. assert (guarded False 0 0 (load! _ := CheckMessageHasEnoughBytesToReadRows n in (fun s' => if n <=? avail s' then Ret tt s' else Over)) (fun _ => True)) as H3.
  { apply guarded_check_rows; [lia|]. intros s3 Hs3 Ha3. rewrite (proj2 (Z.leb_le _ _)) by lia. split_and!; [done|lia|done]. }
  specialize (H3 s Hs (sane_avail s Hs)). unfold load_bind in H3. destruct (CheckMessageHasEnoughBytesToReadRows n s) as [[] s3|e s3|]; [|done..].
  destruct (Z.leb_spec n (avail s3)); [|done]. destruct H3 as (? & ? & _). split_and!; [done|lia|done].
Qed.

Variables rows_per_batch kilobytes_per_batch : Z.
Local Notation read_rows := (bulk_rows bad_cast conv rows_per_batch kilobytes_per_batch).
Local Notation read_batch := (SetBulkLoadRowData bad_cast conv rows_per_batch kilobytes_per_batch).
Local Notation blocks n x := (match x with Ret rows s' => sane s' /\ total s' <= n - Z.of_nat (length rows) | Throw e _ => e <> bulk_no_fuel | Over => risk end).

Lemma rows_guarded cs : Forall column_guard cs -> forall fuel s, sane s -> 1 <= avail s -> total s < Z.of_nat fuel -> blocks (total s) (read_rows fuel cs s).
Proof.
  intros Hcs. induction fuel as [|fuel IH]; intros s Hs Ha Ht; cbn [bulk_rows].
  { exfalso. unfold total, blen in Ht. lia. }
  pose proof (guarded_peek risk 1 1 0 (fun v => ret v) (fun _ => True) ltac:(lia) ltac:(intros; by apply guarded_ret) s Hs Ha) as H0.
  unfold load_bind at 1 in H0. unfold load_bind at 1. destruct (peek 1 s) as [v s0|e s0|] eqn:Ep; [|done..].
  assert (s0 = s) as ->. { unfold peek, load_bind, peek_bytes in Ep. destruct (_ && _); [|done]. by injection Ep as _ <-. }
  destruct (_ && batch_room _ _ s); [|split; [done|cbn; lia]].
  assert (guards 1 1 (load! _ := (fun s => Ret tt (set_counts s (i32 (rowCount s + 1)) (currentBatchSize s))) in
     load! _ := skip_counted 1 in
     bulk_cells bad_cast conv cs 0) (fun _ => True)) as H1.
  { intros s1 Hs1 Ha1. apply (guarded_skip risk 1 1 0 _ (fun _ => True) ltac:(lia) ltac:(by apply cells_guarded) (set_counts s1 (i32 (rowCount s1 + 1)) (currentBatchSize s1)) Hs1 Ha1). }
  specialize (H1 s Hs Ha). unfold load_bind in H1. unfold load_bind at 1 2 3. cbv beta in H1 |- *. destruct (skip_counted 1 _) as [[] s1|e s1|]; [|done..].
  destruct (bulk_cells _ _ cs 0 s1) as [row s2|e s2|]; [|done..]. destruct H1 as (Hs2 & Ht2 & _).
  pose proof (check_rows_post 1 s2 Hs2 ltac:(lia)) as H3. unfold load_bind at 1. destruct (CheckMessageHasEnoughBytesToReadRows 1 s2) as [[] s3|e s3|]; [|done..].
  destruct H3 as (Hs3 & Ht3 & Ha3). specialize (IH s3 Hs3 Ha3 ltac:(lia)). unfold load_bind. destruct (read_rows fuel cs s3) as [rows s4|e s4|]; [|done..].
  destruct IH as [Hs4 Ht4]. split; [done|]. cbn [length]. lia.
Qed.

Lemma batch_guarded cs s : Forall column_guard cs -> sane s -> blocks (total s) (read_batch cs s).
Proof.
  intros Hcs Hs. unfold SetBulkLoadRowData. unfold load_bind at 1. set (s0 := set_counts s 0 0). change (total s) with (total s0). assert (sane s0) as Hs0 by done. clearbody s0. clear s Hs.
  pose proof (check_rows_post 1 s0 Hs0 ltac:(lia)) as H1. unfold load_bind at 1. destruct (CheckMessageHasEnoughBytesToReadRows 1 s0) as [[] s1|e s1|]; [|done..].
  destruct H1 as (Hs1 & Ht1 & Ha1). pose proof (rows_guarded cs Hcs (bulk_fuel s1) s1 Hs1 Ha1 (total_fuel s1 Hs1)) as H2. unfold load_bind at 1.
  destruct (read_rows _ cs s1) as [rows s2|e s2|]; [|done..]. destruct H2 as (Hs2 & Ht2). pose proof (check_rows_post 1 s2 Hs2 ltac:(lia)) as H3. unfold load_bind at 1.
  destruct (CheckMessageHasEnoughBytesToReadRows 1 s2) as [[] s3|e s3|]; [|done..]. destruct H3 as (Hs3 & Ht3 & Ha3). destruct (batch_room _ _ s3); [|split; [done|lia]].
  assert (peek 1 s3 <> Over /\ forall v s', peek 1 s3 = Ret v s' -> s' = s3) as [Hno Hsame].
  { unfold peek, load_bind, peek_bytes. destruct Hs3 as (? & _). rewrite !(proj2 (Z.leb_le _ _)) by (unfold avail in Ha3; lia). cbn. split; [done|]. by intros ? ? [= _ <-]. }
  unfold load_bind at 1. destruct (peek 1 s3) as [v s4|e s4|] eqn:Ep; [|by unfold peek, load_bind, peek_bytes in Ep; destruct (_ && _)|done]. rewrite (Hsame _ _ eq_refl).
  destruct (v =? TDS_TOKEN_DONE); [|done]. destruct (_ && negb (bk_eom s3)); [|split; [done|lia]].
  assert (0 <= avail s3 < 0x3fffffff) as Hav by (pose proof Hs3 as (? & ? & _); unfold avail in *; lia). fold (avail s3). rewrite u64_id by lia.
  pose proof (check_rows_post (avail s3 + 1) s3 Hs3 ltac:(lia)) as H5. unfold load_bind.
  destruct (CheckMessageHasEnoughBytesToReadRows (avail s3 + 1) s3) as [[] s5|e s5|]; [|done..]. destruct H5 as (Hs5 & Ht5 & _). split; [done|lia].
Qed.

Context {X : Type} (srv : bulk_server X).
Local Notation load_batches := (bulk_batches bad_cast conv rows_per_batch kilobytes_per_batch srv).

Lemma total_nonneg s : sane s -> 0 <= total s.
Proof. intros Hs%sane_avail. unfold total, blen. lia. Qed.

(** The batches end, as each but the last one has a row. *)
Lemma batches_guarded cs sp sub lx : Forall column_guard cs -> forall fuel r x s, sane s -> total s < Z.of_nat fuel ->
  match load_batches fuel cs sp sub lx r x s with Some (r, _, _) => r <> Err bulk_no_fuel | None => risk end.
Proof.
  intros Hcs. induction fuel as [|fuel IH]; intros r x s Hs Ht; [pose proof (total_nonneg s Hs); lia|]. cbn [bulk_batches].
  pose proof (batch_guarded cs s Hcs Hs) as Hb. destruct (SetBulkLoadRowData _ _ _ _ cs s) as [rows s1|e s1|]; [| |done].
  - destruct Hb as [Hs1 Ht1]. destruct (bulk_load_callback _ _ _ _ x) as [x1 [n|e]]; [|by destruct (CleanupBCPDuringError _ _ _ _ _ _)].
    destruct rows; [done|]. apply IH; [done|]. cbn [length] in Ht1. lia.
  - destruct (is_fatal e); [congruence|]. destruct (CleanupBCPDuringError _ _ _ _ _ _). congruence.
Qed.
End guards.

(** ** Errors of a request *)

Section errors.
Context {X : Type} (srv : bulk_server X).

(** The states that insertions lead to. *)
Inductive inserted (x : X) : X -> Prop :=
| inserted_none : inserted x x
| inserted_more y nc nr vs y' r : inserted x y -> bulk_load_callback srv nc nr vs y = (y', r) -> inserted x y'.

(** What the request needs of the transactions: a callback leaves the transactions as they are, and rolling back to a
    savepoint undoes what was inserted behind it. *)
Record transaction_laws : Prop := {
  begin_lxid : forall x, lxid srv (BeginInternalSubTransaction srv x) = lxid srv x;
  insert_lxid : forall nc nr vs x, lxid srv (bulk_load_callback srv nc nr vs x).1 = lxid srv x;
  insert_sub : forall nc nr vs x, GetCurrentSubTransactionId srv (bulk_load_callback srv nc nr vs x).1 = GetCurrentSubTransactionId srv x;
  insert_active : forall nc nr vs x, IsTransactionBlockActive srv (bulk_load_callback srv nc nr vs x).1 = IsTransactionBlockActive srv x;
  rollback_undoes : forall x y, inserted (BeginInternalSubTransaction srv x) y -> RollbackAndReleaseCurrentSubTransaction srv y = x
}.

Lemma inserted_keeps x y : transaction_laws -> inserted x y ->
  lxid srv y = lxid srv x /\ GetCurrentSubTransactionId srv y = GetCurrentSubTransactionId srv x /\ IsTransactionBlockActive srv y = IsTransactionBlockActive srv x.
Proof.
  intros HL. induction 1 as [|y nc nr vs y' r _ (E1 & E2 & E3) Ec]; [done|]. rewrite <- E1, <- E2, <- E3.
  pose proof (insert_lxid HL nc nr vs y) as H1. pose proof (insert_sub HL nc nr vs y) as H2. pose proof (insert_active HL nc nr vs y) as H3.
  rewrite Ec in H1, H2, H3. done.
Qed.

Context `{PgCalendar}.
Variable bad_cast : Z.
Variable conv : conversions.
Variables rows_per_batch kilobytes_per_batch : Z.
Local Notation load_batches := (bulk_batches bad_cast conv rows_per_batch kilobytes_per_batch srv).
Local Notation load_request := (ProcessBCPRequest bad_cast conv rows_per_batch kilobytes_per_batch srv).

(** Every way out of the loop. *)
Lemma batches_way_out cs sp sub lx fuel : forall r x s out x' s', load_batches fuel cs sp sub lx r x s = Some (out, x', s') ->
  exists y, inserted x y /\
  match out with
  | Ok _ => x' = y
  | Err e => e = bulk_no_fuel \/ is_fatal e = true \/ exists s1, (x', s') = CleanupBCPDuringError srv sp sub lx y s1
  end.
Proof.
  induction fuel as [|fuel IH]; intros r x s out x' s' E; cbn [bulk_batches] in E.
  { injection E as <- <- <-. exists x. split; [apply inserted_none|by left]. }
  destruct (SetBulkLoadRowData _ _ _ _ cs s) as [rows s1|e s1|]; [| |done].
  - destruct (bulk_load_callback _ _ _ _ x) as [x1 [n|e]] eqn:Ec.
    + assert (inserted x x1) as H1 by (eapply inserted_more; [apply inserted_none|exact Ec]). destruct rows; [injection E as <- <- <-; by exists x1|].
      destruct (IH _ _ _ _ _ _ E) as (y & Hy & Ho). exists y. split; [|done]. clear -H1 Hy. induction Hy; [done|]. by eapply inserted_more.
    + destruct (CleanupBCPDuringError _ _ _ _ x1 s1) as [x2 s2] eqn:Ee. injection E as <- <- <-. exists x1.
      split; [by eapply inserted_more; [apply inserted_none|]|]. right; right. by exists s1.
  - exists x. destruct (is_fatal e) eqn:Ef; [injection E as <- <- <-; split; [apply inserted_none|by right; left]|].
    destruct (CleanupBCPDuringError _ _ _ _ x s1) as [x2 s2] eqn:Ee. injection E as <- <- <-. split; [apply inserted_none|]. right; right. by exists s1.
Qed.

Lemma discard_packets_end ps : (discard_packets ps).1 = true \/ (discard_packets ps).2 = [].
Proof. induction ps as [|[b last|last] ps IH]; [by right|destruct last; [by left|done]..]. Qed.

Lemma cleanup_packets sp sub lx x s : let s' := (CleanupBCPDuringError srv sp sub lx x s).2 in bcpOffset s' = 0 /\ (bk_eom s' = true \/ bk_packets s' = []).
Proof.
  unfold CleanupBCPDuringError. destruct (bk_eom s) eqn:Ee; [by split; [|left]|]. pose proof (discard_packets_end (bk_packets s)) as Hd.
  by destruct (discard_packets (bk_packets s)) as [eom ps].
Qed.
End errors.

(** ** The theorems *)

Section theorems.
Context `{PgCalendar}.
Variable bad_cast : Z.
Variable conv : conversions.
Variables rows_per_batch kilobytes_per_batch : Z.
Variable TdsGetEncoding : Z -> Z.
Context {X : Type} (srv : bulk_server X).
Local Notation load_request := (ProcessBCPRequest bad_cast conv rows_per_batch kilobytes_per_batch srv).
Local Notation row_of := (row_wire bad_cast conv).

Lemma loaded_sub cs batches x r y res : (forall nc nr vs x, GetCurrentSubTransactionId srv (bulk_load_callback srv nc nr vs x).1 = GetCurrentSubTransactionId srv x) ->
  loaded cs srv batches x r y res -> GetCurrentSubTransactionId srv y = GetCurrentSubTransactionId srv x.
Proof.
  intros Hk. induction 1 as [x r x' n Ec|x r x' e Ec|batch batches x r x1 n x2 r2 _ Ec _ IH|batch batches x r x1 e _ Ec].
  1, 2: rewrite <- (Hk 0 0 [] x); by rewrite Ec.
  - rewrite IH, <- (Hk (Z.of_nat (length cs)) (Z.of_nat (length batch)) (concat batch) x). by rewrite Ec.
  - rewrite <- (Hk (Z.of_nat (length cs)) (Z.of_nat (length batch)) (concat batch) x). by rewrite Ec.
Qed.



End theorems.

(** ** A server with a table *)

(** The values of the table, and its contents at the open savepoints.  A strict table has no NULLs. *)
Definition table : Type := list (option datum) * list (list (option datum)).
Definition has_null (vs : list (option datum)) : bool := existsb (fun v => match v with None => true | _ => false end) vs.
Definition table_server (strict : bool) : bulk_server table := {|
  IsTransactionBlockActive _ := true;
  BeginInternalSubTransaction x := (x.1, x.1 :: x.2);
  GetCurrentSubTransactionId x := Z.of_nat (length x.2);
  lxid _ := 1;
  ReleaseCurrentSubTransaction x := (x.1, tail x.2);
  RollbackAndReleaseCurrentSubTransaction x := match x.2 with [] => x | c :: st => (c, st) end;
  AbortCurrentTransaction _ := ([], []);
  StartTransactionCommand x := x;
  pltsql_rollback_txn_callback _ := ([], []);
  bulk_load_callback _ nr vs x := if strict && has_null vs then (x, Err 515) else ((x.1 ++ vs, x.2), Ok nr)
|}.

Lemma table_stack strict x y : inserted (table_server strict) x y -> y.2 = x.2.
Proof. induction 1 as [|y nc nr vs y' r _ IH Ec]; [done|]. cbn in Ec. destruct (strict && has_null vs); injection Ec as <- _; done. Qed.

Lemma table_laws strict : transaction_laws (table_server strict).
Proof.
  split; cbn; try done; try (intros nc nr vs x; by destruct (strict && has_null vs)). intros [c st] y Hy%table_stack. destruct y as [d l]. cbn in *. by subst.
Qed.

(** One column [a] of type int, the rows 7, NULL and 8, and the DONE token, in one message. *)
Definition a_column : BulkLoadColMetaData := column 0 0 TDS_TYPE_INTEGER 0 0 0 0 4 [97; 0] false.
Definition a_columns : bytes := [0; 0; 0; 0; 0; 0; TDS_TYPE_INTEGER; 4; 1; 97; 0].
Definition a_rows : list (bytes * list (option datum)) := [([4; 7; 0; 0; 0], [Some (DNum 7)]); ([0], [None]); ([4; 8; 0; 0; 0], [Some (DNum 8)])].
Definition done_rest : bytes := repeat 0 12.
Definition a_message : bytes := request_bytes a_columns [a_column] ++ rows_bytes a_rows ++ TDS_TOKEN_DONE :: done_rest.
(** The message in packets of [n] bytes behind the first. *)
Fixpoint cut (fuel n : nat) (b : bytes) : list packet :=
  match fuel with
  | O => []
  | S fuel => let b1 := take n b in let b2 := drop n b in match b2 with [] => [BulkPacket b1 true] | _ => BulkPacket b1 false :: cut fuel n b2 end
  end.
Definition first_packets (n : nat) (b : bytes) : bulk := mk_bulk (take n b) 0 false (cut (length b) n (drop n b)) 0 0.
(** Encodings and documents are taken as they are; a number is its text in a block of 24 bytes. *)
Definition plain : conversions :=
  mk_conversions (fun _ b => Ok b) (fun _ => Ok (Some PG_UTF8)) (fun _ _ => Ok tt) (fun t => Ok (t ++ repeat 0 (24 - length t))).
Local Notation bulk_demo strict := (ProcessBCPRequest 0 plain 2 1 (table_server strict)).


Definition saneb (s : bulk) : bool :=
  (0 <=? bcpOffset s) && (bcpOffset s <=? bk_len s) && (bk_len s <? 0x3fffffff) &&
  forallb (fun b => (0 <=? b) && (b <? 256)) (bk_message s ++ data_of (bk_packets s)).
Lemma saneb_sane s : saneb s = true -> sane s.
Proof.
  unfold saneb. rewrite forallb_app. intros Hb. apply andb_true_iff in Hb as [Hb [Hb1 Hb2]%andb_true_iff]. rewrite forallb_forall in Hb1, Hb2.
  split_and!; [lia..| |]; apply Forall_forall; intros b Hin; [specialize (Hb1 b Hin)|specialize (Hb2 b Hin)]; unfold is_byte; lia.
Qed.



(** ** Values that are read past their end *)

Local Notation cell_demo := (bulk_cell 0 plain).
Definition numeric_column : BulkLoadColMetaData := column 0 0 TDS_TYPE_NUMERICN 0 9 0 0 5 [] false.
Definition datetime2_column : BulkLoadColMetaData := column 0 0 TDS_TYPE_DATETIME2 7 0 0 0 8 [] false.

(** The numeric value 42 in five bytes becomes 1086626725930 with the DONE token behind it, and leaves the message when
    the packet ends with it; a [datetime2] of two bytes copies a negative number of them; and an integer that ends with its
    message is completed from the next one. *)
Theorem bulk_reads_past_value :
  (exists s', cell_demo numeric_column 0 (mk_bulk ([5; 1; 42; 0; 0; 0] ++ TDS_TOKEN_DONE :: done_rest) 0 true [] 0 0) =
     Ret (Some (DBytes (bytes_of_string "1086626725930."))) s') /\
  cell_demo numeric_column 0 (mk_bulk [5; 1; 42; 0; 0; 0] 0 false [BulkPacket (TDS_TOKEN_DONE :: done_rest) true] 0 0) = Over /\
  cell_demo datetime2_column 0 (mk_bulk ([2; 1; 1] ++ TDS_TOKEN_DONE :: done_rest) 0 true [] 0 0) = Over /\
  exists s', cell_demo a_column 0 (mk_bulk [4; 1] 0 false [BulkPacket [2] true; BulkPacket [3; 4] true] 0 0) = Ret (Some (DNum (le_val [1; 2; 3; 4]))) s'.
Proof. split_and!; [eexists; vm_compute; reflexivity|vm_compute; reflexivity..|eexists; vm_compute; reflexivity]. Qed.

(** ** SQL_VARIANT *)

Definition variant_column : BulkLoadColMetaData := column 0 0 TDS_TYPE_SQLVARIANT 0 0 0 0 8009 [] false.
Definition variant_cell (b : bytes) : bulk := mk_bulk (le_bytes 4 (blen b) ++ b ++ TDS_TOKEN_DONE :: done_rest) 0 true [] 0 0.

(** A SQL_VARIANT of an integer and of a text in UTF-16 are stored with their headers. *)
Theorem variant_stored :
  (exists s', cell_demo variant_column 0 (variant_cell [VARIANT_TYPE_INT; 0; 7; 0; 0; 0]) = Ret (Some (DBytes [13; 105; 7; 0; 0; 0])) s') /\
  exists s', cell_demo variant_column 0 (variant_cell ([VARIANT_TYPE_NVARCHAR; 7; 9; 4; 0; 0; 0; 4; 0] ++ [233; 0; 97; 0])) =
    Ret (Some (DBytes ([27; 137; 4; 0; 0; 0] ++ SET_VARSIZE 7 ++ [195; 169; 97]))) s'.
Proof. split; eexists; vm_compute; reflexivity. Qed.

(** The memory of the result follows from the length of the value on the wire, but the value of the server is longer: a
    SMALLDATETIME, a DATE and a DATETIMEOFFSET of their regular lengths, and a number of four bytes, are written past it. *)
Theorem variant_overruns :
  Forall (fun b => cell_demo variant_column 0 (variant_cell b) = Over)
    [[VARIANT_TYPE_SMALLDATETIME; 0; 1; 0; 1; 0]; [VARIANT_TYPE_DATE; 0; 1; 0; 11]; [VARIANT_TYPE_DATETIMEOFFSET; 1; 7; 0; 0; 0; 0; 0; 1; 0; 11; 0; 0];
     [VARIANT_TYPE_NUMERIC; 2; 9; 0; 1; 42; 0; 0; 0]].
Proof. repeat constructor; vm_compute; reflexivity. Qed.

(** The decimal point of a number in a SQL_VARIANT goes before its sign when the scale is larger than the number of digits:
    0.05 becomes -5, which for a column of the type NUMERIC is 0.05; 0.005 is written before the start of the text. *)
Theorem variant_small_numbers :
  variant_numeric_text 1 5 2 = Some (bytes_of_string "-5") /\ numeric_text 1 5 2 = Some (bytes_of_string ".05") /\
  variant_numeric_text 1 5 3 = None /\ numeric_text 1 5 3 = Some (bytes_of_string ".005").
Proof. split_and!; vm_compute; reflexivity. Qed.

(** ** Errors before the rows *)

(** An error in the columns is thrown before [ProcessBCPRequest] and cleans up nothing: the rest of the message stays
    among the packets that are still to be read. *)
Theorem columns_error_keeps_packets :
  exists s', GetBulkLoadRequest id (mk_bulk [TDS_TOKEN_COLMETADATA; 1; 0; 0; 0; 0; 0; 0; 0; 1] 0 false [BulkPacket [2; 3] false; BulkPacket [4] true] 0 0) =
    Throw (bulk_unknown_type 1) s' /\ bk_eom s' = false /\ bk_packets s' = [BulkPacket [2; 3] false; BulkPacket [4] true].
Proof. eexists. split; [vm_compute; reflexivity|]. split; reflexivity. Qed.
